(* ===== verification/_CoqProject ===== *)
-Q . S2P
Prelude.v
Memory.v
Ring.v
Riscv.v
Asm.v
State.v
Spinlock.v
Cstring.v
Kalloc.v
Steps.v
Pagetable.v
Vm.v
VmSpec.v
Uvm.v
Freewalk.v
Usercopy.v
AddressSpace.v
Proc.v
ProcSpec.v
UserMem.v
ProcMem.v
Plic.v
Console.v
ConsoleSpec.v
Virtio.v
VirtioSpec.v
Sleeplock.v
SleepWake.v
FsLogic.v
Bio.v
BioSpec.v
Log.v
LogSpec.v
FsTx.v
Fs.v
FsAlloc.v
FsSpec.v
ItableSpec.v
NameSpec.v
FsInode.v
FsData.v
FsWrite.v
Pipe.v
PipeSpec.v
File.v
FileSpec.v
FsTrunc.v
Exec.v
Fork.v
ForkSpec.v
WaitSpec.v
Sysfile.v
Trap.v
MmapSpec.v
MmapSys.v
Umalloc.v
Ulib.v
Uprog.v
Mkfs.v
Grep.v
Sh.v
Ushell.v
