(* ===== verification/Prelude.v ===== *)
(** * Verification of xv6 for RISC-V with memory-mapped files

    ** The program

    xv6 is a small Unix-like kernel in C (src/kernel).  Harts boot through
    entry.S and start.c into main.c.  Physical pages come from kalloc.c; vm.c
    keeps Sv39 page tables in them.  proc.c has the process table, the
    scheduler and sleep and wakeup, under the spin locks of spinlock.c.  The
    file system is a stack: the virtio disk driver (virtio_disk.c), the buffer
    cache (bio.c), the write-ahead log (log.c), inodes, directories and paths
    (fs.c), and open files and pipes (file.c, pipe.c).  uart.c, printf.c and
    console.c are the terminal.  A trap enters through trampoline.S or
    kernelvec.S, goes through trap.c to syscall.c, and from there to
    sysproc.c and sysfile.c.  This repository adds mmap and munmap: a mapping
    is recorded by sys_mmap, its pages are read from the file by the page
    fault handler in trap.c, and written back by sys_munmap and exit.
    Programs (src/user) call the kernel through system calls: the shell, small
    tools, and a C library with malloc and printf.  mkfs (src/mkfs) makes the
    disk image that the kernel starts from.

    ** The model

    The kernel is a shallow embedding.  [State.kstate] is the whole kernel
    state: the registers of the hart, processors and spin locks ([k_ctl]),
    physical memory with the free list ([k_heap]), the process table ([k_pt]),
    open files and pipes ([k_ft]), the file system with buffers, log and inodes
    ([k_fs]), the disk driver ([k_vd]) and the other devices ([k_dev]).  A C
    function is a function in the monad [M]: it returns a result and the next
    state, or panics, or spins for ever on a lock, or blocks for ever.
    Pointers to elements of the kernel's tables are indices;
    page tables, user pages and trapframes live in byte-addressed memory.
    Integers are Z, with every conversion and wrap-around of the C types
    written out ([u8], [u32], [u64], [i32]).

    Loops run on fuel ([State.loop]); the fuel is 2^64, and running out of it
    is the outcome [Spin], so a theorem that a function returns includes that
    its loops end.  [runs m s Q] says that [m] returns from [s] with a result
    and state that satisfy [Q]: it is total correctness.

    What is not under src/kernel enters as type classes with laws stated as
    hypotheses: [Env] is what the rest of the system does to the state while a
    process gives up the processor; [Hw] gives the values that device
    registers read; [Linker] the addresses that the linker chooses.  The law
    [disk_serves] says that the disk does the transfer it is asked for and
    raises its interrupt; [machine_serves] shows a machine that obeys it.

    ** Files and the code they model

    - Prelude, Memory, Ring: words, lists, little-endian memory, ring buffers.
    - Riscv: param.h, memlayout.h, the page-table macros of riscv.h.
    - Asm: trampoline.S, swtch.S, kernelvec.S, entry.S, start.c.
    - State: the structs of the headers, the monad and its rules.
    - Spinlock: spinlock.c.  Cstring: string.c.  Kalloc: kalloc.c.
    - Steps: rules for symbolic execution.
    - Pagetable: page tables in memory read as trees.  Vm: vm.c.  VmSpec, Uvm,
      Freewalk, Usercopy, AddressSpace: theorems on vm.c.
    - Proc: proc.c.  ProcSpec, ProcMem, UserMem, WaitSpec: theorems on it.
      SleepWake: sleep, wakeup, sched, yield and the scheduler of proc.c and
      the locks of sleeplock.c, statement by statement on several harts.
    - Plic: plic.c.  Console: uart.c, printf.c, console.c.  ConsoleSpec.
    - Virtio: virtio_disk.c.  VirtioSpec.
    - Sleeplock: sleeplock.c.  Bio: bio.c.  Log: log.c.  Fs: fs.c.  FsLogic,
      BioSpec, LogSpec, FsSpec: the logic of file-system code, and theorems.
      FsTx: code between begin_op and end_op.  FsAlloc, FsInode, FsData,
      FsWrite: block allocation, the blocks and the contents of an inode, and
      what a write does to them.  ItableSpec, NameSpec: the inode cache, and
      theorems on path names.
    - Pipe: pipe.c.  PipeSpec.  File: file.c and pipealloc.  FileSpec: theorems
      on filewrite.  FsTrunc: theorems on bfree, itrunc, iput and fileclose.
    - Exec: the argument functions of syscall.c, exec.c.  Fork: userinit, fork
      and exit of proc.c.  ForkSpec.  Sysfile: sysfile.c.  Trap: sysproc.c,
      syscall.c, trap.c, main.c.  MmapSpec, MmapSys: theorems on mapped files.
    - Umalloc: user/umalloc.c.  Ulib: user/ulib.c, user/printf.c.
    - Uprog: the programs cat, echo, wc, ls, init, kill, ln, mkdir, rm and
      zombie.  Grep, Sh: the matcher of user/grep.c and the parser and the
      plumbing of user/sh.c as functions.  Ushell: both as programs.
    - Mkfs: mkfs/mkfs.c.

    Library code runs on the memory of a process.  A program is an interaction
    tree whose events are system calls ([Uprog.prog]); the class [Uprog.Kernel]
    answers them, and [Uprog.Files] and [Ushell.Procs] state what a program
    relies on, with a small kernel as their instance: reads from a readable
    descriptor give a piece of what is left, writes to a writable one are
    complete, and an existing file opens for reading while descriptors are
    left.  mkfs is a function from
    the files of the host to the image.

    ** What the theorems show

    - Locks: mutual exclusion for any number of harts and every interleaving
      of the memory accesses of acquire and release; sequentially, acquire and
      release restore the state.
    - Memory: free and used pages partition physical memory after any sequence
      of kalloc and kfree; the operations of vm.c implement an abstract
      address space, and undo their work when memory runs out; copies to and
      from user memory succeed exactly on accessible addresses.
    - Processes: wakeup, kill and sleep do what they promise; no wakeup is
      lost, whatever the interleaving of the statements of any number of harts
      in acquiresleep, releasesleep, sleep, wakeup and their schedulers; fork
      makes a copy of the process or gives everything back, and wait gives the
      remains of a child back.
    - Disk and cache: the driver transfers blocks through the descriptor ring
      and leaks no descriptor; the cache implements an array of blocks.
    - Log: the updates of a system call are atomic and durable for a stop
      after any disk write.
    - Files: readi returns the bytes of the file; filewrite puts the user's
      bytes there, takes blocks from the bitmap and keeps inode and bitmap
      consistent, and a crash on the way leaves a prefix of the write; paths
      split into their elements and lead where the directories on disk say; mmap
      adds a mapping, and a page fault in a mapping loads its page of the file;
      munmap writes the pages to the file, at the offset of the open file and
      not at their place (a bug of the code), and removes the mapping; closing
      a file frees the blocks of a file that nobody needs, or none of them,
      across crashes; pipes and the console are streams in
      order.
    - Assembly: registers survive traps, context switches and interrupts.
    - User programs: the shell's parser ends on every line and reads back what
      is printed of a command, and the programs it starts are connected as the
      command says; it reads its input to the end.  grep prints the lines that
      match the expression, wc counts, cat and echo copy, on every kernel that
      keeps its promises about files and in whatever pieces it returns data.
    - User library: the blocks that malloc has given out are disjoint, keep
      their contents, and go back to one free block when all are freed; printf
      substitutes its arguments, atoi reads numbers back.
    - mkfs: the kernel's view of the image that mkfs writes (superblock,
      bitmap, inodes, walk through the root directory, bytes of files) is what
      was put into it, and meets the hypotheses of the theorems on path names
      and on readi.

    ** Bounds and assumptions

    A write of one disk block is atomic, and the disk does writes in the
    order they are asked for, one at a time; a crash falls between two of
    them.  A theorem on code that sleeps lets the other processes do only what
    its hypothesis on [Env] says.  NPROC, NBUF and the other constants of
    param.h have the values of the source.  Loops of user code have fuel of
    their own, and the theorems say how much is enough: the size of the heap
    for malloc and free, the length of a string for the string functions.
    Programs have no fuel: [Uprog.exec] relates a program to its end, and
    [Uprog.exec_run] finds the number of steps.  The files given to mkfs fit
    the disk, and their names and number satisfy the hypotheses of
    [Mkfs.mkfs_image].

    ** Not modelled

    panic ends the run, as the outcome [Panic]: the message it prints is not
    modelled.  ramdisk.c is not compiled into the kernel.  The debugging names
    of locks, and the fields of virtio structures that only the device reads
    and the driver does not use, are left out.  The values that the compiler
    gives caller-saved registers are not part of the model: the C code is
    modelled by its effect on the state, the assembly code instruction by
    instruction.  The test programs under src/user (usertests, grind, mmaptest,
    forktest, stressfs) are sequences of calls with the answers that the
    kernel should give, not parts of the system.  The system call stubs that
    usys.pl generates, and initcode.S, are not modelled.  The programs work on
    strings, not on the addresses of their buffers, except for malloc, the
    library functions and the buffer of grep. *)
From Stdlib Require Export ZArith Lia.
From stdpp Require Export base gmap strings list fin_maps functions.
#[global] Open Scope Z_scope.

#[global] Arguments Z.add : simpl never.
#[global] Arguments Z.sub : simpl never.
#[global] Arguments Z.mul : simpl never.
#[global] Arguments Z.pow : simpl never.
#[global] Arguments Z.div : simpl never.
#[global] Arguments Z.modulo : simpl never.
#[global] Arguments Z.land : simpl never.
#[global] Arguments Z.lor : simpl never.
#[global] Arguments Z.lnot : simpl never.
#[global] Arguments Z.shiftl : simpl never.
#[global] Arguments Z.shiftr : simpl never.
#[global] Arguments Z.to_nat : simpl never.
#[global] Arguments Z.of_nat : simpl never.

(** ** Record update

    [r <| f := v |>] is the record [r] with the field [f] replaced by [v].
    Every field that the code assigns has an instance of [Setter]. *)
Class Setter {R E : Type} (get : R -> E) : Type := set_with : (E -> E) -> R -> R.
Arguments set_with {R E} get {_} _ _.

Declare Scope record_scope.
Delimit Scope record_scope with record.
#[global] Open Scope record_scope.
Notation "r <| f := v |>" := (set_with f (fun _ => v) r)
  (at level 1, left associativity, f constr at level 0, v at level 200) : record_scope.

(** ** Machine words

    A [w]-bit unsigned word is an integer of [0, 2^w); the C conversions and
    the wrap-around of unsigned arithmetic are the reductions below. *)
Definition u8 (x : Z) : Z := x mod 2 ^ 8.
Definition u16 (x : Z) : Z := x mod 2 ^ 16.
Definition u32 (x : Z) : Z := x mod 2 ^ 32.
Definition u64 (x : Z) : Z := x mod 2 ^ 64.

(** Conversion to a signed [w]-bit integer (two's complement). *)
Definition signed (w x : Z) : Z :=
  let y := x mod 2 ^ w in if y <? 2 ^ (w - 1) then y else y - 2 ^ w.
Definition i8 (x : Z) : Z := signed 8 x.
Definition i16 (x : Z) : Z := signed 16 x.
Definition i32 (x : Z) : Z := signed 32 x.

(** C truth values. *)
Definition truth (x : Z) : bool := negb (x =? 0).

Lemma truth_true (x : Z) : truth x = true -> x <> 0.
Proof. unfold truth. by destruct (Z.eqb_spec x 0). Qed.

Lemma truth_false (x : Z) : truth x = false -> x = 0.
Proof. unfold truth. by destruct (Z.eqb_spec x 0). Qed.

Definition is_u64 (x : Z) : Prop := 0 <= x < 2 ^ 64.
Definition is_u32 (x : Z) : Prop := 0 <= x < 2 ^ 32.
Definition is_byte (x : Z) : Prop := 0 <= x < 256.

Create HintDb words.

Lemma u64_small (x : Z) : is_u64 x -> u64 x = x.
Proof. apply Z.mod_small. Qed.

Lemma u32_small (x : Z) : is_u32 x -> u32 x = x.
Proof. apply Z.mod_small. Qed.

Lemma i32_small (x : Z) : - 2 ^ 31 <= x < 2 ^ 31 -> i32 x = x.
Proof.
  intros Hx. unfold i32, signed. destruct (Z.lt_ge_cases x 0) as [Hn|Hn].
  - assert (x mod 2 ^ 32 = x + 2 ^ 32) as -> by (symmetry; apply (Z.mod_unique _ _ (-1)); lia).
    change (2 ^ (32 - 1)) with (2 ^ 31). rewrite (proj2 (Z.ltb_ge _ _)) by lia. lia.
  - rewrite Z.mod_small by lia. change (2 ^ (32 - 1)) with (2 ^ 31). by rewrite (proj2 (Z.ltb_lt _ _)) by lia.
Qed.

Lemma u64_range (x : Z) : is_u64 (u64 x).
Proof. unfold is_u64, u64. apply Z.mod_pos_bound. lia. Qed.

Lemma u32_range (x : Z) : is_u32 (u32 x).
Proof. unfold is_u32, u32. apply Z.mod_pos_bound. lia. Qed.

Lemma u8_range (x : Z) : is_byte (u8 x).
Proof. unfold is_byte, u8. change 256 with (2 ^ 8). apply Z.mod_pos_bound. lia. Qed.

Lemma signed_range (w x : Z) : 0 < w -> - 2 ^ (w - 1) <= signed w x < 2 ^ (w - 1).
Proof.
  intros Hw. unfold signed.
  pose proof (Z.mod_pos_bound x (2 ^ w) ltac:(lia)).
  assert (2 ^ w = 2 * 2 ^ (w - 1)) as E
    by (rewrite <- Z.pow_succ_r by lia; f_equal; lia).
  destruct (Z.ltb_spec (x mod 2 ^ w) (2 ^ (w - 1))); lia.
Qed.

Lemma signed_small (w x : Z) : 0 < w -> - 2 ^ (w - 1) <= x < 2 ^ (w - 1) -> signed w x = x.
Proof.
  intros Hw Hx. unfold signed.
  assert (2 ^ w = 2 * 2 ^ (w - 1)) as E
    by (rewrite <- Z.pow_succ_r by lia; f_equal; lia).
  destruct (Z_le_gt_dec 0 x) as [Hp|Hn].
  - rewrite (Z.mod_small x) by lia. rewrite (proj2 (Z.ltb_lt _ _)) by lia. lia.
  - rewrite <- (Z.mod_unique x (2 ^ w) (-1) (x + 2 ^ w)) by lia.
    rewrite (proj2 (Z.ltb_ge _ _)) by lia. lia.
Qed.

#[export] Hint Resolve u64_range u32_range u8_range : words.

(** ** Lists *)

(** The bytes of a string literal. *)
Definition bytes_of (s : string) : list Z :=
  (fun a => Z.of_N (Ascii.N_of_ascii a)) <$> String.list_ascii_of_string s.

(** [n] elements from offset [off], and a list overwritten from there. *)
Definition slice {A} (l : list A) (off n : nat) : list A := take n (drop off l).
Definition splice {A} (l : list A) (off : nat) (k : list A) : list A :=
  take off l ++ k ++ drop (off + length k) l.

Lemma length_slice {A} (l : list A) (off n : nat) : (off + n <= length l)%nat -> length (slice l off n) = n.
Proof. intros Hl. unfold slice. rewrite length_take, length_drop. lia. Qed.

Lemma length_splice {A} (l : list A) (off : nat) (k : list A) :
  (off + length k <= length l)%nat -> length (splice l off k) = length l.
Proof. intros Hl. unfold splice. rewrite !length_app, length_take, length_drop. lia. Qed.

Lemma lookup_splice {A} (l k : list A) (off i : nat) :
  (off + length k <= length l)%nat ->
  splice l off k !! i = if decide (off <= i < off + length k)%nat then k !! (i - off)%nat else l !! i.
Proof.
  intros Hl. unfold splice. destruct (decide _) as [Hi|Hi].
  - rewrite lookup_app_r by (rewrite length_take; lia). rewrite length_take, lookup_app_l by lia. f_equal. lia.
  - destruct (decide (i < off)%nat).
    + rewrite lookup_app_l by (rewrite length_take; lia). by rewrite lookup_take_lt.
    + rewrite lookup_app_r by (rewrite length_take; lia). rewrite length_take, lookup_app_r by lia.
      rewrite lookup_drop. f_equal. lia.
Qed.

Lemma lookup_slice {A} (l : list A) (off n i : nat) :
  slice l off n !! i = if decide (i < n)%nat then l !! (off + i)%nat else None.
Proof.
  unfold slice. destruct (decide _).
  - by rewrite lookup_take_lt, lookup_drop.
  - apply lookup_take_ge. lia.
Qed.

Lemma slice_splice_eq {A} (l k : list A) (off : nat) :
  (off + length k <= length l)%nat -> slice (splice l off k) off (length k) = k.
Proof.
  intros Hl. apply list_eq. intros i. rewrite lookup_slice. destruct (decide _).
  - rewrite lookup_splice, decide_True by lia. f_equal. lia.
  - symmetry. apply lookup_ge_None. lia.
Qed.

Lemma slice_splice_ne {A} (l k : list A) (off o n : nat) :
  (off + length k <= length l)%nat -> (o + n <= off \/ off + length k <= o)%nat ->
  slice (splice l off k) o n = slice l o n.
Proof.
  intros Hl Ho. apply list_eq. intros i. rewrite !lookup_slice. destruct (decide _); [|done].
  rewrite lookup_splice by done. rewrite decide_False; [done|lia].
Qed.

(** [list_remove x l] is [l] without its first [x], if there is one. *)
Fixpoint list_remove {A} `{EqDecision A} (x : A) (l : list A) : option (list A) :=
  match l with
  | [] => None
  | y :: l => if decide (x = y) then Some l else cons y <$> list_remove x l
  end.

Lemma list_remove_Some {A} `{EqDecision A} (x : A) (l k : list A) :
  list_remove x l = Some k -> l ≡ₚ x :: k.
Proof.
  revert k. induction l as [|y l IH]; intros k; simpl; [done|].
  destruct (decide (x = y)) as [->|]; [by intros [= ->]|].
  destruct (list_remove x l) as [k'|] eqn:E; simpl; [|done]. intros [= <-].
  rewrite (IH k') by done. apply Permutation_swap.
Qed.

Lemma list_bind_ext_in {A B} (f g : A -> list B) (l : list A) :
  (forall x, x ∈ l -> f x = g x) -> l ≫= f = l ≫= g.
Proof.
  induction l as [|x l IH]; intros H; [done|]. cbn. f_equal; [apply H; by left|].
  apply IH. intros y Hy. apply H. by right.
Qed.

Lemma alter_ext_total {A} `{Inhabited A} (f g : A -> A) (i : nat) (l : list A) :
  f (l !!! i) = g (l !!! i) -> alter f i l = alter g i l.
Proof.
  intros E. apply list_eq. intros j. destruct (decide (j = i)) as [->|]; [|by rewrite !list_lookup_alter_ne].
  rewrite !list_lookup_alter_eq. destruct (l !! i) as [x|] eqn:Hx; [|done].
  apply list_lookup_total_correct in Hx. subst x. cbn. by rewrite E.
Qed.

(** A field that an update of an element leaves alone. *)
Lemma alter_insert_total {A} `{Inhabited A} (f : A -> A) (i : nat) (l : list A) : alter f i l = <[ i := f (l !!! i) ]> l.
Proof.
  apply list_eq. intros j. destruct (decide (j = i)) as [->|Hne].
  - rewrite list_lookup_alter_eq. destruct (l !! i) as [x|] eqn:Hx.
    + rewrite list_lookup_insert_eq by (by eapply lookup_lt_Some). cbn. by rewrite (list_lookup_total_correct _ _ _ Hx).
    + cbn. symmetry. apply lookup_ge_None. rewrite length_insert. by apply lookup_ge_None.
  - by rewrite list_lookup_alter_ne, list_lookup_insert_ne.
Qed.

Lemma proj_alter {A B} `{Inhabited A} (g : A -> B) (f : A -> A) (i j : nat) (l : list A) :
  (forall v, g (f v) = g v) -> g (alter f i l !!! j) = g (l !!! j).
Proof.
  intros Hg. rewrite !list_lookup_total_alt. destruct (decide (i = j)) as [->|Hne].
  - rewrite list_lookup_alter_eq. destruct (l !! j); [apply Hg|done].
  - by rewrite list_lookup_alter_ne.
Qed.

Lemma alter_id_total {A} `{Inhabited A} (f : A -> A) (i : nat) (l : list A) :
  f (l !!! i) = l !!! i -> alter f i l = l.
Proof.
  intros E. apply list_eq. intros j. destruct (decide (j = i)) as [->|]; [|by rewrite list_lookup_alter_ne].
  rewrite list_lookup_alter_eq. destruct (l !! i) as [x|] eqn:Hx; [|done].
  apply list_lookup_total_correct in Hx. subst x. cbn. by rewrite E.
Qed.

(** ** C strings *)

(** The bytes of a C array before its terminator. *)
Fixpoint cstr (l : list Z) : list Z :=
  match l with
  | c :: l => if c =? 0 then [] else c :: cstr l
  | [] => []
  end.

Lemma cstr_string (s r : list Z) : Forall (fun c => c <> 0) s -> cstr (s ++ 0 :: r) = s.
Proof. induction 1 as [|c s Hc _ IH]; cbn [app cstr]; [done|]. rewrite (proj2 (Z.eqb_neq _ _)) by done. by rewrite IH. Qed.
Lemma cstr_full (s : list Z) : Forall (fun c => c <> 0) s -> cstr s = s.
Proof. induction 1 as [|c s Hc _ IH]; cbn [cstr]; [done|]. rewrite (proj2 (Z.eqb_neq _ _)) by done. by rewrite IH. Qed.

Lemma cstr_chars (P : Z -> Prop) (l : list Z) : Forall P l -> Forall (fun c => P c /\ c <> 0) (cstr l).
Proof.
  induction 1 as [|c l Hc _ IH]; cbn [cstr]; [done|]. destruct (Z.eqb_spec c 0); [done|]. by constructor.
Qed.

Lemma cstr_take (l : list Z) (j : nat) :
  (forall x, (x < j)%nat -> nth x l 0 <> 0) -> nth j l 0 = 0 -> cstr l = take j l.
Proof.
  revert j. induction l as [|c l IH]; intros j Hn Hz; [by destruct j|]. destruct j as [|j]; cbn [nth cstr take] in *.
  - by rewrite Hz.
  - rewrite (proj2 (Z.eqb_neq _ _)) by apply (Hn 0%nat (Nat.lt_0_succ _)). f_equal. apply IH; [|done].
    intros x Hx. apply (Hn (S x)). lia.
Qed.
