(* ===== verification/Memory.v ===== *)
(** * Bytes, words and physical memory

    Little-endian encoding of words, and the byte-addressed memory that the
    page allocator, the page tables and user pages live in.  A memory is a
    finite map from physical addresses to cells; a cell never written reads
    as zero.  Reads and writes of one byte are [byte_at] and [set_byte], the
    accesses of a [w]-byte C object are [load] and [store]. *)
From S2P Require Import Prelude.

(** ** Little-endian words *)
Fixpoint le_combine (bs : list Z) : Z :=
  match bs with
  | [] => 0
  | b :: bs => u8 b + 256 * le_combine bs
  end.

Fixpoint le_split (n : nat) (v : Z) : list Z :=
  match n with
  | O => []
  | S n => u8 v :: le_split n (v / 256)
  end.

Lemma length_le_split (n : nat) (v : Z) : length (le_split n v) = n.
Proof. revert v. induction n; intros v; simpl; auto. Qed.

Lemma u8_idem (x : Z) : u8 (u8 x) = u8 x.
Proof. unfold u8. apply Z.mod_mod. lia. Qed.

Lemma u8_small (x : Z) : is_byte x -> u8 x = x.
Proof. intros H. apply Z.mod_small. unfold is_byte in H. lia. Qed.

Lemma le_combine_split (n : nat) (v : Z) :
  le_combine (le_split n v) = v mod 256 ^ Z.of_nat n.
Proof.
  revert v. induction n as [|n IH]; intros v; cbn [le_split le_combine].
  - change (256 ^ Z.of_nat 0) with 1. by rewrite Z.mod_1_r.
  - rewrite IH, u8_idem. unfold u8. change (2 ^ 8) with 256.
    rewrite Nat2Z.inj_succ, Z.pow_succ_r by lia.
    rewrite Z.rem_mul_r by lia. lia.
Qed.

Lemma le_combine_range (bs : list Z) :
  0 <= le_combine bs < 256 ^ Z.of_nat (length bs).
Proof.
  induction bs as [|b bs IH]; cbn [le_combine length].
  - change (256 ^ Z.of_nat 0) with 1. lia.
  - pose proof (u8_range b) as Hb. unfold is_byte in Hb.
    rewrite Nat2Z.inj_succ, Z.pow_succ_r by lia. lia.
Qed.

Lemma le_split_combine (bs : list Z) :
  le_split (length bs) (le_combine bs) = u8 <$> bs.
Proof.
  induction bs as [|b bs IH]; cbn [le_combine length le_split]; [done|].
  pose proof (u8_range b) as Hb. unfold is_byte in Hb. cbn [fmap list_fmap].
  f_equal.
  - unfold u8 at 1. change (2 ^ 8) with 256.
    rewrite Z.mul_comm, Z.mod_add, Z.mod_small; lia.
  - rewrite Z.mul_comm, Z.div_add, Z.div_small, Z.add_0_l by lia. done.
Qed.

(** ** Memory *)
Abbreviation memory := (gmap Z Z).

Definition byte_at (m : memory) (a : Z) : Z := u8 (default 0 (m !! a)).
Definition set_byte (m : memory) (a b : Z) : memory := <[ a := u8 b ]> m.

Fixpoint load (m : memory) (a : Z) (n : nat) : list Z :=
  match n with
  | O => []
  | S n => byte_at m a :: load m (a + 1) n
  end.

Fixpoint store (m : memory) (a : Z) (bs : list Z) : memory :=
  match bs with
  | [] => m
  | b :: bs => store (set_byte m a b) (a + 1) bs
  end.

Definition load64 (m : memory) (a : Z) : Z := le_combine (load m a 8).
Definition store64 (m : memory) (a v : Z) : memory := store m a (le_split 8 v).
Definition load32 (m : memory) (a : Z) : Z := le_combine (load m a 4).
Definition store32 (m : memory) (a v : Z) : memory := store m a (le_split 4 v).

(** [same_on P m m']: the two memories agree on the addresses of [P]. *)
Definition same_on (P : Z -> Prop) (m m' : memory) : Prop :=
  forall a, P a -> byte_at m' a = byte_at m a.

#[export] Instance same_on_refl P : Reflexive (same_on P).
Proof. by intros m a _. Qed.
#[export] Instance same_on_trans P : Transitive (same_on P).
Proof. intros m1 m2 m3 H1 H2 a Ha. by rewrite H2, H1. Qed.

Lemma same_on_weaken (P Q : Z -> Prop) (m m' : memory) :
  (forall a, Q a -> P a) -> same_on P m m' -> same_on Q m m'.
Proof. unfold same_on. eauto. Qed.

Lemma byte_at_range (m : memory) (a : Z) : is_byte (byte_at m a).
Proof. apply u8_range. Qed.

Lemma byte_at_set_byte (m : memory) (a b x : Z) :
  byte_at (set_byte m a b) x = if x =? a then u8 b else byte_at m x.
Proof.
  unfold byte_at, set_byte. destruct (Z.eqb_spec x a) as [->|Hne].
  - rewrite lookup_insert_eq. apply u8_idem.
  - by rewrite lookup_insert_ne.
Qed.

Lemma length_load (m : memory) (a : Z) (n : nat) : length (load m a n) = n.
Proof. revert a. induction n; intros a; simpl; auto. Qed.

Lemma byte_at_store (m : memory) (a : Z) (bs : list Z) (x : Z) :
  byte_at (store m a bs) x =
    if (a <=? x) && (x <? a + Z.of_nat (length bs))
    then u8 (nth (Z.to_nat (x - a)) bs 0) else byte_at m x.
Proof.
  revert m a. induction bs as [|b bs IH]; intros m a; cbn [store length].
  - destruct (Z.leb_spec a x), (Z.ltb_spec x (a + Z.of_nat 0)); simpl; try done; lia.
  - rewrite IH, byte_at_set_byte.
    destruct (Z.eqb_spec x a) as [->|Hne].
    + rewrite (proj2 (Z.leb_gt (a + 1) a)), (proj2 (Z.leb_le a a)) by lia.
      rewrite (proj2 (Z.ltb_lt a (a + Z.of_nat (S (length bs))))) by lia. by rewrite Z.sub_diag.
    + destruct (Z.leb_spec a x), (Z.leb_spec (a + 1) x),
        (Z.ltb_spec x (a + 1 + Z.of_nat (length bs))),
        (Z.ltb_spec x (a + Z.of_nat (S (length bs)))); simpl; try lia; try done.
      replace (Z.to_nat (x - a)) with (S (Z.to_nat (x - (a + 1)))) by lia. done.
Qed.

Lemma byte_at_store_out (m : memory) (a : Z) (bs : list Z) (x : Z) :
  x < a \/ a + Z.of_nat (length bs) <= x -> byte_at (store m a bs) x = byte_at m x.
Proof.
  intros H. rewrite byte_at_store.
  destruct (Z.leb_spec a x), (Z.ltb_spec x (a + Z.of_nat (length bs))); simpl; try done; lia.
Qed.

Lemma nth_load (m : memory) (a : Z) (n i : nat) :
  (i < n)%nat -> nth i (load m a n) 0 = byte_at m (a + Z.of_nat i).
Proof.
  revert a i. induction n as [|n IH]; intros a [|i] Hi; cbn [load nth]; try lia.
  - by rewrite Z.add_0_r.
  - rewrite IH by lia. f_equal. lia.
Qed.

Lemma load_ext (m m' : memory) (a a' : Z) (n : nat) :
  (forall i, 0 <= i < Z.of_nat n -> byte_at m' (a' + i) = byte_at m (a + i)) ->
  load m' a' n = load m a n.
Proof.
  revert a a'. induction n as [|n IH]; intros a a' H; cbn [load]; [done|]. f_equal.
  - specialize (H 0 ltac:(lia)). by rewrite !Z.add_0_r in H.
  - apply IH. intros i Hi. specialize (H (1 + i) ltac:(lia)).
    by rewrite !Z.add_assoc in H.
Qed.

Lemma load_same_on (P : Z -> Prop) (m m' : memory) (a : Z) (n : nat) :
  same_on P m m' -> (forall x, a <= x < a + Z.of_nat n -> P x) -> load m' a n = load m a n.
Proof. intros H HP. apply load_ext. intros i Hi. apply H, HP. lia. Qed.

Lemma store_same_on (m : memory) (a : Z) (bs : list Z) :
  same_on (fun x => x < a \/ a + Z.of_nat (length bs) <= x) m (store m a bs).
Proof. intros x Hx. by apply byte_at_store_out. Qed.

Lemma load_store_eq (m : memory) (a : Z) (bs : list Z) :
  load (store m a bs) a (length bs) = u8 <$> bs.
Proof.
  apply (nth_ext _ _ 0 0).
  - by rewrite length_load, length_fmap.
  - intros i Hi. rewrite length_load in Hi. rewrite nth_load by done.
    rewrite byte_at_store, (proj2 (Z.leb_le _ _)), (proj2 (Z.ltb_lt _ _)) by lia. cbn [andb].
    replace (Z.to_nat (a + Z.of_nat i - a)) with i by lia.
    change 0 with (u8 0) at 2. symmetry. apply map_nth.
Qed.

Lemma load_store_ne (m : memory) (a : Z) (bs : list Z) (b : Z) (n : nat) :
  b + Z.of_nat n <= a \/ a + Z.of_nat (length bs) <= b ->
  load (store m a bs) b n = load m b n.
Proof. intros H. apply load_ext. intros i Hi. apply byte_at_store_out. lia. Qed.

Lemma u8_le_split (n : nat) (v : Z) : u8 <$> le_split n v = le_split n v.
Proof.
  revert v. induction n as [|n IH]; intros v; cbn [le_split fmap list_fmap]; [done|].
  by rewrite u8_idem, IH.
Qed.

Lemma load64_range (m : memory) (a : Z) : is_u64 (load64 m a).
Proof.
  unfold is_u64, load64. pose proof (le_combine_range (load m a 8)) as H.
  rewrite length_load in H. exact H.
Qed.

Lemma load64_store64_eq (m : memory) (a v : Z) : load64 (store64 m a v) a = u64 v.
Proof.
  unfold load64, store64.
  rewrite <- (length_le_split 8 v) at 2.
  by rewrite load_store_eq, u8_le_split, le_combine_split.
Qed.

Lemma load64_store64_ne (m : memory) (a b v : Z) :
  b + 8 <= a \/ a + 8 <= b -> load64 (store64 m a v) b = load64 m b.
Proof.
  intros H. unfold load64, store64. rewrite load_store_ne; [done|].
  rewrite length_le_split. lia.
Qed.

Lemma load64_same_on (P : Z -> Prop) (m m' : memory) (a : Z) :
  same_on P m m' -> (forall x, a <= x < a + 8 -> P x) -> load64 m' a = load64 m a.
Proof. intros H HP. unfold load64. by rewrite (load_same_on P m m'). Qed.

Lemma byte_at_store64_0 (m : memory) (a x : Z) :
  byte_at (store64 m a 0) x = if (a <=? x) && (x <? a + 8) then 0 else byte_at m x.
Proof.
  unfold store64. rewrite byte_at_store. change (Z.of_nat (length (le_split 8 0))) with 8.
  destruct (_ && _); [|done]. generalize (Z.to_nat (x - a)) as k. intros k.
  do 8 (destruct k as [|k]; [reflexivity|]). by destruct k.
Qed.

Lemma store64_same_on (m : memory) (a v : Z) :
  same_on (fun x => x < a \/ a + 8 <= x) m (store64 m a v).
Proof.
  unfold store64. eapply same_on_weaken; [|apply store_same_on].
  rewrite length_le_split. simpl. lia.
Qed.

Lemma load64_zero (m : memory) (a : Z) :
  (forall x, a <= x < a + 8 -> byte_at m x = 0) -> load64 m a = 0.
Proof. intros H. unfold load64, load. rewrite !H by lia. reflexivity. Qed.

Lemma load32_range (m : memory) (a : Z) : is_u32 (load32 m a).
Proof.
  unfold is_u32, load32. pose proof (le_combine_range (load m a 4)) as H.
  rewrite length_load in H. exact H.
Qed.

Lemma load32_store32_eq (m : memory) (a v : Z) : load32 (store32 m a v) a = u32 v.
Proof.
  unfold load32, store32.
  rewrite <- (length_le_split 4 v) at 2.
  by rewrite load_store_eq, u8_le_split, le_combine_split.
Qed.

Lemma load32_same_on (P : Z -> Prop) (m m' : memory) (a : Z) :
  same_on P m m' -> (forall x, a <= x < a + 4 -> P x) -> load32 m' a = load32 m a.
Proof. intros H HP. unfold load32. by rewrite (load_same_on P m m'). Qed.

Lemma store32_same_on (m : memory) (a v : Z) :
  same_on (fun x => x < a \/ a + 4 <= x) m (store32 m a v).
Proof.
  unfold store32. eapply same_on_weaken; [|apply store_same_on].
  rewrite length_le_split. simpl. lia.
Qed.

#[export] Hint Resolve load64_range byte_at_range : words.
Arguments load64 : simpl never.
Arguments store64 : simpl never.
Arguments load32 : simpl never.
Arguments store32 : simpl never.
#[global] Opaque load64 store64 load32 store32.
