(* ===== verification/Ring.v ===== *)
(** * Ring buffers

    The pipes, the UART and the console keep bytes in an array indexed by
    counters that grow for ever, modulo the size of the array.  [ring size buf
    r n] is the list of the [n] elements from position [r] on. *)
From S2P Require Import Prelude.

Definition ring (size : Z) (buf : list Z) (r : Z) (n : nat) : list Z :=
  (fun i => buf !!! Z.to_nat ((r + Z.of_nat i) mod size)) <$> seq 0 n.

Section ring.
Context (size : Z).
Hypothesis size_pos : 0 < size.

Lemma length_ring (buf : list Z) (r : Z) (n : nat) : length (ring size buf r n) = n.
Proof. unfold ring. by rewrite length_fmap, length_seq. Qed.

Lemma ring_pop (buf : list Z) (r : Z) (n : nat) :
  ring size buf r (S n) = buf !!! Z.to_nat (r mod size) :: ring size buf (r + 1) n.
Proof.
  unfold ring. cbn [seq fmap list_fmap]. f_equal; [by rewrite Z.add_0_r|].
  rewrite <- seq_shift. rewrite <- list_fmap_compose. apply list_fmap_ext. intros i j _. unfold compose.
  do 3 f_equal. lia.
Qed.

Lemma ring_snoc (buf : list Z) (r : Z) (n : nat) :
  ring size buf r (S n) = ring size buf r n ++ [buf !!! Z.to_nat ((r + Z.of_nat n) mod size)].
Proof. unfold ring. rewrite seq_S, fmap_app. done. Qed.

(** Writing the slot after the last element. *)
Lemma ring_push (buf : list Z) (r x : Z) (n : nat) :
  length buf = Z.to_nat size -> Z.of_nat n < size ->
  ring size (<[ Z.to_nat ((r + Z.of_nat n) mod size) := x ]> buf) r (S n) = ring size buf r n ++ [x].
Proof using size_pos.
  intros Hl Hn. pose proof (Z.mod_pos_bound (r + Z.of_nat n) size size_pos).
  rewrite ring_snoc. f_equal.
  - unfold ring. apply list_fmap_ext. intros i j Hj. apply lookup_seq in Hj as [-> Hj].
    apply list_lookup_total_insert_ne. intros E.
    pose proof (Z.mod_pos_bound (r + Z.of_nat (0 + i)) size size_pos).
    assert ((r + Z.of_nat n) mod size = (r + Z.of_nat (0 + i)) mod size) as E2 by lia.
    assert ((Z.of_nat n - Z.of_nat i) mod size = 0) as E3.
    { replace (Z.of_nat n - Z.of_nat i) with ((r + Z.of_nat n) - (r + Z.of_nat (0 + i))) by lia.
      rewrite Zminus_mod, E2, Z.sub_diag. apply Z.mod_0_l. lia. }
    rewrite Z.mod_small in E3 by lia. lia.
  - f_equal. apply list_lookup_total_insert_eq. lia.
Qed.

(** A counter that wraps at a multiple of the size. *)
Lemma ring_wrap (buf : list Z) (W r : Z) (n : nat) :
  (size | W) -> 0 < W -> ring size buf (r mod W) n = ring size buf r n.
Proof using size_pos.
  intros Hd HW. unfold ring. apply list_fmap_ext. intros i j _. do 2 f_equal.
  destruct Hd as [k ->]. rewrite (Z.mod_eq r) by lia.
  replace (r - k * size * (r / (k * size)) + Z.of_nat j)
    with (r + Z.of_nat j + (- (k * (r / (k * size)))) * size) by lia.
  by rewrite Z_mod_plus_full.
Qed.

End ring.

(** The number of elements between two counters of the same width. *)
Lemma count_push (W w r : Z) (n : nat) :
  0 < W -> (w - r) mod W = Z.of_nat n -> Z.of_nat n + 1 < W -> ((w + 1) mod W - r) mod W = Z.of_nat (S n).
Proof.
  intros HW E Hn. rewrite Zminus_mod_idemp_l. replace (w + 1 - r) with (w - r + 1) by lia.
  rewrite <- Zplus_mod_idemp_l, E. rewrite Z.mod_small; lia.
Qed.

Lemma count_pop (W w r : Z) (n : nat) :
  0 < W -> (w - r) mod W = Z.of_nat (S n) -> Z.of_nat (S n) < W -> (w - (r + 1) mod W) mod W = Z.of_nat n.
Proof.
  intros HW E Hn. rewrite Zminus_mod_idemp_r. replace (w - (r + 1)) with (w - r - 1) by lia.
  rewrite <- Zminus_mod_idemp_l, E. rewrite Z.mod_small; lia.
Qed.

Lemma count_zero (W w r : Z) :
  0 < W -> 0 <= w < W -> 0 <= r < W -> (w - r) mod W = 0 <-> w = r.
Proof.
  intros HW Hw Hr. split; [|intros ->; by rewrite Z.sub_diag, Z.mod_0_l by lia].
  intros E. apply Z.mod_divide in E as [k E]; [|lia]. assert (k = 0) by nia. lia.
Qed.

(** A ring is full when one counter is ahead by its size. *)
Lemma count_full (W w r size : Z) :
  0 < W -> 0 <= size < W -> 0 <= w < W -> 0 <= r < W ->
  (w - r) mod W = size <-> w = (r + size) mod W.
Proof.
  intros HW Hs Hw Hr. split.
  - intros E. rewrite <- E, Zplus_mod_idemp_r. replace (r + (w - r)) with w by lia. by rewrite Z.mod_small.
  - intros ->. rewrite Zminus_mod_idemp_l. replace (r + size - r) with size by lia. by apply Z.mod_small.
Qed.

(** The slot that the writing counter points to. *)
Lemma slot_eq (size W w r : Z) (n : nat) :
  0 < size -> (size | W) -> 0 < W -> (w - r) mod W = Z.of_nat n -> w mod size = (r + Z.of_nat n) mod size.
Proof.
  intros Hs [k ->] HW <-. rewrite (Z.mod_eq (w - r)) by lia.
  replace (r + (w - r - k * size * ((w - r) / (k * size))))
    with (w + (- (k * ((w - r) / (k * size)))) * size) by lia.
  by rewrite Z_mod_plus_full.
Qed.

(** ** Queues

    A ring buffer with the counters of its reader and its writer, both modulo
    [W], holds the elements [l]. *)
Record queue (size W : Z) (buf : list Z) (r w : Z) (l : list Z) : Prop := {
  q_len : length buf = Z.to_nat size;
  q_r : 0 <= r < W;
  q_w : w = (r + Z.of_nat (length l)) mod W;
  q_room : Z.of_nat (length l) <= size;
  q_ring : ring size buf r (length l) = l;
}.

Section queue.
Context {size W : Z}.
Hypothesis size_pos : 0 < size.
Hypothesis size_W : size < W.
Hypothesis size_div : (size | W).
Context {buf : list Z} {r w : Z} {l : list Z}.
Hypothesis Hq : queue size W buf r w l.

Lemma queue_count : (w - r) mod W = Z.of_nat (length l).
Proof using Hq size_W.
  pose proof (q_room _ _ _ _ _ _ Hq). rewrite (q_w _ _ _ _ _ _ Hq), Zminus_mod_idemp_l.
  replace (r + Z.of_nat (length l) - r) with (Z.of_nat (length l)) by lia. apply Z.mod_small. lia.
Qed.

Lemma queue_w : 0 <= w < W.
Proof using Hq size_W size_pos. rewrite (q_w _ _ _ _ _ _ Hq). apply Z.mod_pos_bound. lia. Qed.

Lemma queue_empty : (r =? w) = bool_decide (l = []).
Proof using Hq size_W size_pos.
  pose proof (count_zero W w r ltac:(lia) queue_w (q_r _ _ _ _ _ _ Hq)) as Hz. rewrite queue_count in Hz.
  destruct l as [|x l']; [rewrite bool_decide_true by done|rewrite bool_decide_false by done].
  - symmetry in Hz. apply Z.eqb_eq. symmetry. by apply Hz.
  - apply Z.eqb_neq. intros E. symmetry in E. apply Hz in E. cbn [length] in E. lia.
Qed.

Lemma queue_full : (w =? (r + size) mod W) = (Z.of_nat (length l) =? size).
Proof using Hq size_W size_pos.
  pose proof (count_full W w r size ltac:(lia) ltac:(lia) queue_w (q_r _ _ _ _ _ _ Hq)) as Hf.
  rewrite queue_count in Hf. apply Bool.eq_iff_eq_true. by rewrite !Z.eqb_eq, Hf.
Qed.

Lemma queue_push (x : Z) :
  Z.of_nat (length l) < size ->
  queue size W (<[ Z.to_nat (w mod size) := x ]> buf) r ((w + 1) mod W) (l ++ [x]).
Proof using Hq size_W size_pos size_div.
  intros Hn. pose proof Hq as [H1 H2 H3 H4 H5]. split; rewrite ?length_insert, ?length_app; cbn [length]; [done|done| |lia|].
  - rewrite H3, Zplus_mod_idemp_l. f_equal. lia.
  - rewrite Nat.add_1_r. rewrite (slot_eq size W w r (length l)); [|done|done|lia|apply queue_count].
    rewrite ring_push by done. by rewrite H5.
Qed.
End queue.

Lemma queue_pop {size W : Z} {buf : list Z} {r w x : Z} {l : list Z} :
  0 < size -> size < W -> (size | W) -> queue size W buf r w (x :: l) ->
  buf !!! Z.to_nat (r mod size) = x /\ queue size W buf ((r + 1) mod W) w l.
Proof.
  intros Hs HW Hd [H1 H2 H3 H4 H5]. cbn [length] in *. rewrite ring_pop in H5. injection H5 as Hx H5.
  split; [done|]. split; [done|apply Z.mod_pos_bound; lia| |lia|].
  - rewrite H3, Zplus_mod_idemp_l. f_equal. lia.
  - by rewrite (ring_wrap size Hs) by (done || lia).
Qed.
