(* ===== verification/Riscv.v ===== *)
(** * Constants and macros of the machine

    The parameters of kernel/param.h, the physical and virtual layout of
    kernel/memlayout.h, and the page-table macros of kernel/riscv.h, with the
    arithmetic facts the memory management code relies on.  The addresses the
    linker script chooses are the members of the class [Linker]. *)
From S2P Require Import Prelude.

(** ** kernel/param.h *)
Definition NPROC : nat := 64.
Definition NCPU : nat := 8.
Definition NOFILE : nat := 16.
Definition NFILE : nat := 100.
Definition NINODE : nat := 50.
Definition NDEV : Z := 10.
Definition ROOTDEV : Z := 1.
Definition MAXARG : nat := 32.
Definition MAXOPBLOCKS : Z := 10.
Definition LOGSIZE : Z := MAXOPBLOCKS * 3.
Definition NBUF : nat := 30.
Definition FSSIZE : Z := 1000.
Definition MAXPATH : Z := 128.

(** ** kernel/riscv.h: pages and page-table entries *)
Definition PGSIZE : Z := 4096.
Definition PGSHIFT : Z := 12.

Definition PGROUNDUP (sz : Z) : Z := Z.land (u64 (sz + PGSIZE - 1)) (Z.lnot (PGSIZE - 1)).
Definition PGROUNDDOWN (a : Z) : Z := Z.land a (Z.lnot (PGSIZE - 1)).

Definition PTE_V : Z := 1.
Definition PTE_R : Z := 2.
Definition PTE_W : Z := 4.
Definition PTE_X : Z := 8.
Definition PTE_U : Z := 16.

Definition PA2PTE (pa : Z) : Z := Z.shiftl (Z.shiftr pa 12) 10.
Definition PTE2PA (pte : Z) : Z := u64 (Z.shiftl (Z.shiftr pte 10) 12).
Definition PTE_FLAGS (pte : Z) : Z := Z.land pte 0x3FF.

Definition PXMASK : Z := 0x1FF.
Definition PXSHIFT (level : Z) : Z := PGSHIFT + 9 * level.
Definition PX (level va : Z) : Z := Z.land (Z.shiftr va (PXSHIFT level)) PXMASK.

Definition MAXVA : Z := Z.shiftl 1 (9 + 9 + 9 + 12 - 1).

(** ** kernel/riscv.h: the supervisor status register *)
Definition SSTATUS_SPP : Z := Z.shiftl 1 8.
Definition SSTATUS_SPIE : Z := Z.shiftl 1 5.
Definition SSTATUS_SIE : Z := Z.shiftl 1 1.

Definition SATP_SV39 : Z := Z.shiftl 8 60.
Definition MAKE_SATP (pagetable : Z) : Z := Z.lor SATP_SV39 (Z.shiftr pagetable 12).

(** ** kernel/memlayout.h *)
Definition UART0 : Z := 0x10000000.
Definition UART0_IRQ : Z := 10.
Definition VIRTIO0 : Z := 0x10001000.
Definition VIRTIO0_IRQ : Z := 1.
Definition PLIC : Z := 0x0c000000.
Definition KERNBASE : Z := 0x80000000.
Definition PHYSTOP : Z := KERNBASE + 128 * 1024 * 1024.
Definition TRAMPOLINE : Z := MAXVA - PGSIZE.
Definition KSTACK (p : Z) : Z := TRAMPOLINE - (p + 1) * 2 * PGSIZE.
Definition TRAPFRAME : Z := TRAMPOLINE - PGSIZE.

(** Addresses that are known when the kernel is linked. *)
Class Linker := {
  sym_etext : Z;       (* end of kernel code *)
  sym_end : Z;         (* first address after the kernel *)
  sym_trampoline : Z;  (* the trampoline page, trampoline.S *)
  sym_uservec : Z;     (* where traps from user space enter, trampoline.S *)
  sym_userret : Z;     (* the way back to user space, trampoline.S *)
  sym_kernelvec : Z;   (* where traps from the kernel enter, kernelvec.S *)
  sym_usertrap : Z;    (* usertrap(), trap.c *)
  sym_forkret : Z;     (* forkret(), proc.c *)
  sym_vdisk_pages : Z; (* disk.pages, virtio_disk.c *)
}.

(** What the linker script guarantees about them: the kernel is loaded at
    KERNBASE and ends below PHYSTOP; text ends at a page boundary; the
    trampoline is a page of the text. *)
Class LinkerOk (L : Linker) : Prop := {
  etext_bounds : KERNBASE < sym_etext <= sym_end;
  etext_aligned : sym_etext mod PGSIZE = 0;
  end_bounds : sym_end < PHYSTOP;
  trampoline_bounds : KERNBASE <= sym_trampoline < sym_etext;
  trampoline_aligned : sym_trampoline mod PGSIZE = 0;
}.

(** ** Arithmetic of the macros *)
Lemma land_lnot_mask (x : Z) : Z.land x (Z.lnot (PGSIZE - 1)) = x - x mod PGSIZE.
Proof.
  change (PGSIZE - 1) with (Z.ones 12). rewrite <- Z.ldiff_land, Z.ldiff_ones_r by lia.
  rewrite Z.shiftl_mul_pow2, Z.shiftr_div_pow2 by lia.
  change (2 ^ 12) with PGSIZE. pose proof (Z.div_mod x PGSIZE ltac:(done)). lia.
Qed.

Lemma PGROUNDDOWN_spec (a : Z) : PGROUNDDOWN a = a - a mod PGSIZE.
Proof. apply land_lnot_mask. Qed.

Lemma PGROUNDUP_spec (sz : Z) :
  0 <= sz -> sz + PGSIZE <= 2 ^ 64 ->
  PGROUNDUP sz = PGSIZE * ((sz + PGSIZE - 1) / PGSIZE).
Proof.
  intros H0 H1. unfold PGROUNDUP. rewrite u64_small by (unfold is_u64, PGSIZE in *; lia).
  rewrite land_lnot_mask.
  pose proof (Z.div_mod (sz + PGSIZE - 1) PGSIZE ltac:(done)). lia.
Qed.

Lemma PGROUNDUP_bounds (sz : Z) :
  0 <= sz -> sz + PGSIZE <= 2 ^ 64 -> sz <= PGROUNDUP sz < sz + PGSIZE.
Proof.
  intros H0 H1. rewrite PGROUNDUP_spec by done. unfold PGSIZE in *.
  pose proof (Z.div_mod (sz + 4096 - 1) 4096 ltac:(done)).
  pose proof (Z.mod_pos_bound (sz + 4096 - 1) 4096 ltac:(done)). lia.
Qed.

Lemma PGROUNDUP_aligned (sz : Z) : PGROUNDUP sz mod PGSIZE = 0.
Proof.
  unfold PGROUNDUP. rewrite land_lnot_mask. rewrite Zminus_mod_idemp_r, Z.sub_diag. done.
Qed.

Lemma PGROUNDUP_id (sz : Z) :
  0 <= sz -> sz + PGSIZE <= 2 ^ 64 -> sz mod PGSIZE = 0 -> PGROUNDUP sz = sz.
Proof.
  intros H0 H1 H2. rewrite PGROUNDUP_spec by done. unfold PGSIZE in *.
  apply Z.mod_divide in H2 as [k ->]; [|done].
  replace (k * 4096 + 4096 - 1) with (4095 + k * 4096) by lia.
  rewrite Z.div_add by lia. change (4095 / 4096) with 0. lia.
Qed.

Lemma PGROUNDDOWN_bounds (a : Z) : PGROUNDDOWN a <= a < PGROUNDDOWN a + PGSIZE.
Proof.
  rewrite PGROUNDDOWN_spec. pose proof (Z.mod_pos_bound a PGSIZE ltac:(done)). lia.
Qed.

Lemma PGROUNDDOWN_aligned (a : Z) : PGROUNDDOWN a mod PGSIZE = 0.
Proof. rewrite PGROUNDDOWN_spec, Zminus_mod_idemp_r, Z.sub_diag. done. Qed.

Lemma PGROUNDDOWN_id (a : Z) : a mod PGSIZE = 0 -> PGROUNDDOWN a = a.
Proof. rewrite PGROUNDDOWN_spec. lia. Qed.

Lemma PX_spec (level va : Z) : 0 <= level -> PX level va = va / 2 ^ (12 + 9 * level) mod 512.
Proof.
  intros H. unfold PX, PXMASK, PXSHIFT, PGSHIFT. change 0x1FF with (Z.ones 9).
  rewrite Z.land_ones, Z.shiftr_div_pow2 by lia. done.
Qed.

Lemma PX_range (level va : Z) : 0 <= level -> 0 <= PX level va < 512.
Proof. intros H. rewrite PX_spec by done. apply Z.mod_pos_bound. lia. Qed.

(** Below MAXVA, the three indices determine the page. *)
Lemma PX_inj (a b : Z) :
  0 <= a < MAXVA -> 0 <= b < MAXVA ->
  PX 2 a = PX 2 b -> PX 1 a = PX 1 b -> PX 0 a = PX 0 b -> a / PGSIZE = b / PGSIZE.
Proof.
  change MAXVA with 274877906944. rewrite !PX_spec by lia. unfold PGSIZE.
  change (2 ^ (12 + 9 * 2)) with (4096 * 512 * 512).
  change (2 ^ (12 + 9 * 1)) with (4096 * 512).
  change (2 ^ (12 + 9 * 0)) with 4096.
  intros Ha Hb. rewrite <- !Z.div_div by lia. Z.div_mod_to_equations. lia.
Qed.

Lemma PX_same_page (level a b : Z) :
  0 <= level -> a / PGSIZE = b / PGSIZE -> PX level a = PX level b.
Proof.
  intros Hl H. rewrite !PX_spec by done. f_equal.
  rewrite Z.pow_add_r by lia. change (2 ^ 12) with PGSIZE.
  rewrite <- !Z.div_div by (unfold PGSIZE; lia). by rewrite H.
Qed.

(** A valid leaf or interior entry gives back the address and the flags it
    was built from. *)
Lemma PA2PTE_spec (pa : Z) : PA2PTE pa = 1024 * (pa / PGSIZE).
Proof.
  unfold PA2PTE. rewrite Z.shiftl_mul_pow2, Z.shiftr_div_pow2 by lia.
  change (2 ^ 12) with PGSIZE. lia.
Qed.

Lemma land_shifted_flags (x flags : Z) :
  0 <= flags < 1024 -> Z.land (Z.shiftl x 10) flags = 0.
Proof.
  intros Hf. apply Z.bits_inj'. intros n Hn. rewrite Z.land_spec, Z.bits_0.
  destruct (Z_lt_ge_dec n 10).
  - by rewrite Z.shiftl_spec_low by lia.
  - replace flags with (flags mod 2 ^ 10) by (apply Z.mod_small; lia).
    rewrite Z.mod_pow2_bits_high by lia. apply andb_false_r.
Qed.

Lemma lor_flags (pa flags : Z) :
  0 <= flags < 1024 -> Z.lor (PA2PTE pa) flags = PA2PTE pa + flags.
Proof.
  intros Hf. unfold PA2PTE. pose proof (land_shifted_flags (Z.shiftr pa 12) flags Hf).
  by rewrite Z.add_nocarry_lxor, Z.lxor_lor.
Qed.

Lemma PTE2PA_build (pa flags : Z) :
  0 <= pa < 2 ^ 56 -> pa mod PGSIZE = 0 -> 0 <= flags < 1024 ->
  PTE2PA (Z.lor (PA2PTE pa) flags) = pa.
Proof.
  intros Hpa Ha Hf. rewrite lor_flags, PA2PTE_spec by done. unfold PTE2PA.
  rewrite Z.shiftr_div_pow2, Z.shiftl_mul_pow2 by lia. change (2 ^ 10) with 1024.
  replace ((1024 * (pa / PGSIZE) + flags) / 1024) with (pa / PGSIZE)
    by (Z.div_mod_to_equations; lia).
  change (2 ^ 12) with PGSIZE. pose proof (Z.div_mod pa PGSIZE ltac:(done)).
  rewrite u64_small; [lia|]. unfold is_u64. lia.
Qed.

Lemma PTE_FLAGS_build (pa flags : Z) :
  0 <= flags < 1024 -> PTE_FLAGS (Z.lor (PA2PTE pa) flags) = flags.
Proof.
  intros Hf. rewrite lor_flags, PA2PTE_spec by done. unfold PTE_FLAGS.
  change 0x3FF with (Z.ones 10). rewrite Z.land_ones by lia. change (2 ^ 10) with 1024.
  Z.div_mod_to_equations. lia.
Qed.

#[export] Hint Resolve PGROUNDUP_aligned PGROUNDDOWN_aligned : words.

(** [lia] with the sizes and bounds of the address space made explicit. *)
Ltac plia :=
  try change MAXVA with 274877906944 in *;
  try change PHYSTOP with 0x88000000 in *;
  try change KERNBASE with 0x80000000 in *;
  unfold is_u64, PGSIZE in *; lia.
