(* ===== verification/Asm.v ===== *)
(** * The assembly code (kernel/trampoline.S, swtch.S, kernelvec.S, entry.S)

    The instructions that the code uses, on the registers of a hart, a few
    control registers and memory.  [xlate satp va] is the physical address of
    a virtual address under the page table that [satp] names.  The theorems
    say that the registers of a user process survive a trap, those of a
    kernel thread a context switch and an interrupt. *)
From S2P Require Import Prelude Memory Riscv.

Module Asm.

Inductive reg := zero | ra | sp | gp | tp | t0 | t1 | t2 | s0 | s1
  | a0 | a1 | a2 | a3 | a4 | a5 | a6 | a7
  | s2 | s3 | s4 | s5 | s6 | s7 | s8 | s9 | s10 | s11 | t3 | t4 | t5 | t6.
#[export] Instance reg_eq_dec : EqDecision reg.
Proof. solve_decision. Defined.

Inductive csr := satp | sscratch | mscratch | sip | mhartid
  | mstatus | mepc | medeleg | mideleg | sie | pmpaddr0 | pmpcfg0 | mtvec | mie.
#[export] Instance csr_eq_dec : EqDecision csr.
Proof. solve_decision. Defined.

Record hart := Hart { regs : reg -> Z; csrs : csr -> Z; ram : memory }.

Definition set_reg (r : reg) (v : Z) (m : hart) : hart :=
  if decide (r = zero) then m else Hart (fun r' => if decide (r' = r) then v else regs m r') (csrs m) (ram m).
Definition set_csr (c : csr) (v : Z) (m : hart) : hart :=
  Hart (regs m) (fun c' => if decide (c' = c) then v else csrs m c') (ram m).
Definition set_ram (v : memory) (m : hart) : hart := Hart (regs m) (csrs m) v.

Inductive instr :=
  | SD (rs : reg) (off : Z) (base : reg)
  | LD (rd : reg) (off : Z) (base : reg)
  | CSRRW (rd : reg) (c : csr) (rs : reg)
  | CSRR (rd : reg) (c : csr)
  | CSRW (c : csr) (rs : reg)
  | SFENCE
  | ADDI (rd rs : reg) (imm : Z)
  | ADD (rd rs1 rs2 : reg)
  | MUL (rd rs1 rs2 : reg)
  | LI (rd : reg) (imm : Z).

(** How a sequence ends. *)
Inductive ending := JR (r : reg) | RET | SRET | MRET.

Section exec.
Context (xlate : Z -> Z -> Z).

Definition addr (m : hart) (base : reg) (off : Z) : Z := xlate (csrs m satp) (u64 (regs m base + off)).

Definition step_instr (i : instr) (m : hart) : hart :=
  match i with
  | SD rs off base => set_ram (store64 (ram m) (addr m base off) (regs m rs)) m
  | LD rd off base => set_reg rd (load64 (ram m) (addr m base off)) m
  | CSRRW rd c rs => set_reg rd (csrs m c) (set_csr c (regs m rs) m)
  | CSRR rd c => set_reg rd (csrs m c) m
  | CSRW c rs => set_csr c (regs m rs) m
  | SFENCE => m
  | ADDI rd rs imm => set_reg rd (u64 (regs m rs + imm)) m
  | ADD rd rs1 rs2 => set_reg rd (u64 (regs m rs1 + regs m rs2)) m
  | MUL rd rs1 rs2 => set_reg rd (u64 (regs m rs1 * regs m rs2)) m
  | LI rd imm => set_reg rd (u64 imm) m
  end.
Definition exec_all (code : list instr) (m : hart) : hart := fold_left (fun m i => step_instr i m) code m.

(** Where a jump goes; [sret] and [mret] go where [sepc] and [mepc] say. *)
Definition target (e : ending) (m : hart) : option Z :=
  match e with JR r => Some (regs m r) | RET => Some (regs m ra) | SRET | MRET => None end.
End exec.

(** Slots of a save area: registers with their offsets. *)
Definition save (slots : list (reg * Z)) (base : reg) : list instr := (fun x => SD x.1 x.2 base) <$> slots.
Definition restore (slots : list (reg * Z)) (base : reg) : list instr := (fun x => LD x.1 x.2 base) <$> slots.

(** ** kernel/trampoline.S *)
Definition user_slots : list (reg * Z) :=
  [(ra, 40); (sp, 48); (gp, 56); (tp, 64); (t0, 72); (t1, 80); (t2, 88); (s0, 96); (s1, 104);
   (a1, 120); (a2, 128); (a3, 136); (a4, 144); (a5, 152); (a6, 160); (a7, 168);
   (s2, 176); (s3, 184); (s4, 192); (s5, 200); (s6, 208); (s7, 216); (s8, 224); (s9, 232); (s10, 240); (s11, 248);
   (t3, 256); (t4, 264); (t5, 272); (t6, 280)].

Definition uservec : list instr * ending :=
  ([CSRRW a0 sscratch a0] ++
   save user_slots a0 ++
   [CSRR t0 sscratch; SD t0 112 a0;
    LD sp 8 a0; LD tp 32 a0; LD t0 16 a0; LD t1 0 a0;
    CSRW satp t1; SFENCE], JR t0).

Definition userret : list instr * ending :=
  ([CSRW satp a1; SFENCE; LD t0 112 a0; CSRW sscratch t0] ++
   restore user_slots a0 ++
   [CSRRW a0 sscratch a0], SRET).

(** ** kernel/swtch.S *)
Definition context_slots : list (reg * Z) :=
  [(ra, 0); (sp, 8); (s0, 16); (s1, 24); (s2, 32); (s3, 40); (s4, 48); (s5, 56); (s6, 64); (s7, 72);
   (s8, 80); (s9, 88); (s10, 96); (s11, 104)].
Definition swtch_code : list instr * ending := (save context_slots a0 ++ restore context_slots a1, RET).

(** ** kernel/kernelvec.S: up to the call of kerneltrap, and after it *)
Definition low_slots : list (reg * Z) :=
  [(t0, 32); (t1, 40); (t2, 48); (s0, 56); (s1, 64);
   (a0, 72); (a1, 80); (a2, 88); (a3, 96); (a4, 104); (a5, 112); (a6, 120); (a7, 128);
   (s2, 136); (s3, 144); (s4, 152); (s5, 160); (s6, 168); (s7, 176); (s8, 184); (s9, 192); (s10, 200); (s11, 208);
   (t3, 216); (t4, 224); (t5, 232); (t6, 240)].
Definition kernelvec_save : list instr :=
  [ADDI sp sp (-256)] ++ save ([(ra, 0); (sp, 8); (gp, 16); (tp, 24)] ++ low_slots) sp.
Definition kernelvec_restore : list instr * ending :=
  (restore ([(ra, 0); (sp, 8); (gp, 16)] ++ low_slots) sp ++ [ADDI sp sp 256], SRET).

Definition timervec : list instr * ending :=
  ([CSRRW a0 mscratch a0; SD a1 0 a0; SD a2 8 a0; SD a3 16 a0;
    LD a1 24 a0; LD a2 32 a0; LD a3 0 a1; ADD a3 a3 a2; SD a3 0 a1;
    LI a1 2; CSRW sip a1;
    LD a3 16 a0; LD a2 8 a0; LD a1 0 a0; CSRRW a0 mscratch a0], MRET).

(** ** kernel/entry.S, with the address of stack0 *)
Definition entry_code (stack0 : Z) : list instr :=
  [LI sp stack0; LI a0 (1024 * 4); CSRR a1 mhartid; ADDI a1 a1 1; MUL a0 a0 a1; ADD sp sp a0].

(** ** kernel/start.c, with the addresses of main, timer_scratch and timervec *)
Definition MSTATUS_MPP_MASK : Z := 3 ≪ 11.
Definition MSTATUS_MPP_S : Z := 1 ≪ 11.
Definition MSTATUS_MIE : Z := 1 ≪ 3.
Definition SIE_SEIE : Z := 1 ≪ 9.
Definition SIE_STIE : Z := 1 ≪ 5.
Definition SIE_SSIE : Z := 1 ≪ 1.
Definition MIE_MTIE : Z := 1 ≪ 7.
Definition CLINT : Z := 0x2000000.
Definition CLINT_MTIMECMP (hartid : Z) : Z := CLINT + 0x4000 + 8 * hartid.
Definition CLINT_MTIME : Z := CLINT + 0xBFF8.
Definition interval : Z := 1000000.

Definition timerinit (timer_scratch timervec : Z) (m : hart) : hart :=
  let id := i32 (csrs m mhartid) in
  let m := set_ram (store64 (ram m) (CLINT_MTIMECMP id) (load64 (ram m) CLINT_MTIME + interval)) m in
  let scratch := timer_scratch + 40 * id in
  let m := set_ram (store64 (ram m) (scratch + 8 * 3) (CLINT_MTIMECMP id)) m in
  let m := set_ram (store64 (ram m) (scratch + 8 * 4) interval) m in
  let m := set_csr mscratch scratch m in
  let m := set_csr mtvec timervec m in
  let m := set_csr mstatus (Z.lor (csrs m mstatus) MSTATUS_MIE) m in
  set_csr mie (Z.lor (csrs m mie) MIE_MTIE) m.

Definition start (main timer_scratch timervec : Z) (m : hart) : hart * ending :=
  let x := csrs m mstatus in
  let x := Z.land x (Z.lnot MSTATUS_MPP_MASK) in
  let x := Z.lor x MSTATUS_MPP_S in
  let m := set_csr mstatus x m in
  let m := set_csr mepc main m in
  let m := set_csr satp 0 m in
  let m := set_csr medeleg 0xffff m in
  let m := set_csr mideleg 0xffff m in
  let m := set_csr sie (Z.lor (Z.lor (Z.lor (csrs m sie) SIE_SEIE) SIE_STIE) SIE_SSIE) m in
  let m := set_csr pmpaddr0 0x3fffffffffffff m in
  let m := set_csr pmpcfg0 0xf m in
  let m := timerinit timer_scratch timervec m in
  let id := i32 (csrs m mhartid) in
  (set_reg tp (u64 id) m, MRET).

(** ** Save areas *)
Lemma regs_set (r r' : reg) (v : Z) (m : hart) :
  r <> zero -> regs (set_reg r v m) r' = if decide (r' = r) then v else regs m r'.
Proof. intros Hr. unfold set_reg. by rewrite decide_False. Qed.
Lemma csrs_set_reg (r : reg) (v : Z) (m : hart) : csrs (set_reg r v m) = csrs m.
Proof. unfold set_reg. by destruct (decide (r = zero)). Qed.
Lemma ram_set_reg (r : reg) (v : Z) (m : hart) : ram (set_reg r v m) = ram m.
Proof. unfold set_reg. by destruct (decide (r = zero)). Qed.

Lemma slot_not (slots : list (reg * Z)) (r : reg) (o : Z) :
  bool_decide (r ∈ slots.*1) = false -> (r, o) ∈ slots -> False.
Proof. intros H%bool_decide_eq_false Hin. apply H, list_elem_of_fmap. by exists (r, o). Qed.

Section areas.
Context (xlate : Z -> Z -> Z).

(** The save area of [n] bytes at virtual address [va] is at [pa] in memory. *)
Definition area (root va pa n : Z) : Prop :=
  0 <= va /\ va + n <= 2 ^ 64 /\ forall o, 0 <= o < n -> xlate root (va + o) = pa + o.

(** The slots are disjoint, in order, from offset [lo] up to [n]. *)
Fixpoint ascending (lo : Z) (slots : list (reg * Z)) (n : Z) : bool :=
  match slots with
  | [] => lo <=? n
  | (_, o) :: slots => (lo <=? o) && ascending (o + 8) slots n
  end.

Definition regs_ok (m : hart) : Prop := forall r, is_u64 (regs m r).

Lemma addr_area (m : hart) (base : reg) (pa n o : Z) :
  area (csrs m satp) (regs m base) pa n -> 0 <= o < n -> addr xlate m base o = pa + o.
Proof. intros (H0 & H1 & Hx) Ho. unfold addr. rewrite u64_small by (unfold is_u64; lia). by apply Hx. Qed.

Lemma ascending_le (slots : list (reg * Z)) (lo n : Z) : ascending lo slots n = true -> lo <= n.
Proof.
  revert lo. induction slots as [|[r o] slots IH]; simpl; intros lo H; [lia|].
  apply andb_true_iff in H as [H1 H2]. apply IH in H2. lia.
Qed.
Lemma ascending_in (slots : list (reg * Z)) (lo n : Z) (r : reg) (o : Z) :
  ascending lo slots n = true -> (r, o) ∈ slots -> lo <= o /\ o + 8 <= n.
Proof.
  revert lo. induction slots as [|[r' o'] slots IH]; simpl; intros lo H Hin; [by apply elem_of_nil in Hin|].
  apply andb_true_iff in H as [H1 H2]. pose proof (ascending_le _ _ _ H2).
  apply elem_of_cons in Hin as [[= -> ->]|Hin]; [lia|]. destruct (IH _ H2 Hin). lia.
Qed.

(** Saving the registers changes memory only, and only between [lo] and [n]. *)
Lemma exec_save (slots : list (reg * Z)) (base : reg) (m : hart) (pa lo n : Z) :
  area (csrs m satp) (regs m base) pa n -> 0 <= lo -> ascending lo slots n = true ->
  exists w, exec_all xlate (save slots base) m = set_ram w m /\
    (forall r o, (r, o) ∈ slots -> load64 w (pa + o) = u64 (regs m r)) /\
    same_on (fun x => x < pa + lo \/ pa + n <= x) (ram m) w.
Proof.
  revert m lo. induction slots as [|[r o] slots IH]; simpl; intros m lo Ha Hlo H.
  - exists (ram m). split; [by destruct m|]. split; [|reflexivity].
    intros r o Hin. by apply elem_of_nil in Hin.
  - apply andb_true_iff in H as [H1%Z.leb_le H2]. pose proof (ascending_le _ _ _ H2).
    rewrite (addr_area m base pa n o) by (done || lia).
    destruct (IH (set_ram (store64 (ram m) (pa + o) (regs m r)) m) (o + 8)) as (w & He & Hw & Hs);
      [exact Ha|lia|exact H2|]. simpl in *.
    exists w. split; [exact He|]. split.
    + intros r' o' [[= -> ->]|Hin]%elem_of_cons; [|by apply Hw].
      rewrite (load64_same_on _ _ _ _ Hs) by (intros; lia). apply load64_store64_eq.
    + etrans; [eapply same_on_weaken; [|apply (store64_same_on _ (pa + o) (regs m r))]; simpl; intros; lia|].
      eapply same_on_weaken; [|exact Hs]. simpl. intros; lia.
Qed.

(** Restoring registers changes them only; the base may be among them if its
    slot holds its value. *)
Lemma exec_restore (slots : list (reg * Z)) (base : reg) (m : hart) (pa n : Z) :
  area (csrs m satp) (regs m base) pa n ->
  NoDup slots.*1 -> (zero ∉ slots.*1) -> Forall (fun x => 0 <= x.2 < n) slots ->
  (forall o, (base, o) ∈ slots -> load64 (ram m) (pa + o) = regs m base) ->
  let m' := exec_all xlate (restore slots base) m in
  csrs m' = csrs m /\ ram m' = ram m /\
  (forall r o, (r, o) ∈ slots -> regs m' r = load64 (ram m) (pa + o)) /\
  (forall r, r ∉ slots.*1 -> regs m' r = regs m r).
Proof.
  cbv zeta. revert m. induction slots as [|[r o] slots IH]; simpl; intros m Ha Hnd Hz Hf Hb.
  - repeat split; try done. intros r o Hin. by apply elem_of_nil in Hin.
  - apply list.NoDup_cons in Hnd as [Hr Hnd]. apply not_elem_of_cons in Hz as [Hz0 Hz].
    apply list.Forall_cons in Hf as [Ho Hf]. rewrite (addr_area m base pa n o) by done.
    set (m1 := set_reg r (load64 (ram m) (pa + o)) m).
    assert (regs m1 base = regs m base) as Hbase.
    { unfold m1. rewrite regs_set by done. case_decide; [|done]. subst. apply Hb. by left. }
    assert (csrs m1 = csrs m /\ ram m1 = ram m) as [Hc Hm] by (unfold m1; by rewrite csrs_set_reg, ram_set_reg).
    destruct (IH m1) as (I1 & I2 & I3 & I4); try done.
    { by rewrite Hc, Hbase. }
    { intros o' Hin. rewrite Hm, Hbase. apply Hb. by right. }
    rewrite I1, I2, Hm, Hc. repeat split.
    + intros r' o' [[= -> ->]|Hin]%elem_of_cons; [|by rewrite (I3 r' o' Hin), Hm].
      rewrite I4 by done. unfold m1. rewrite regs_set by done. by rewrite decide_True.
    + intros r' [Hne Hin]%not_elem_of_cons. rewrite I4 by done. unfold m1.
      rewrite regs_set by done. by rewrite decide_False.
Qed.

Lemma exec_all_app (c1 c2 : list instr) (m : hart) :
  exec_all xlate (c1 ++ c2) m = exec_all xlate c2 (exec_all xlate c1 m).
Proof. apply fold_left_app. Qed.

Lemma u64_reg (m : hart) (r : reg) : regs_ok m -> u64 (regs m r) = regs m r.
Proof. intros H. apply u64_small, H. Qed.

Lemma user_slots_apart (r : reg) (o : Z) :
  (r, o) ∈ user_slots -> (o + 8 <= 112 \/ 112 + 8 <= o) /\ r <> a0.
Proof.
  assert (Forall (fun x => (x.2 + 8 <= 112 \/ 112 + 8 <= x.2) /\ x.1 <> a0) user_slots) as H
    by (apply (bool_decide_unpack _); reflexivity).
  intros Hin. by apply (proj1 (list.Forall_forall _ _) H (r, o) Hin).
Qed.
Lemma user_slots_range (r : reg) (o : Z) : (r, o) ∈ (a0, 112) :: user_slots -> 40 <= o /\ o + 8 <= 288.
Proof.
  intros [[= -> ->]|Hin]%elem_of_cons; [lia|]. by apply (ascending_in user_slots 40 288 r).
Qed.
Lemma user_slots_all (r : reg) : r <> zero -> exists o, (r, o) ∈ (a0, 112) :: user_slots.
Proof.
  intros Hr. assert (r ∈ ((a0, 112) :: user_slots).*1) as H.
  { by destruct r; try done; apply (bool_decide_unpack _). }
  apply list_elem_of_fmap in H as ([r' o] & -> & H). by exists o.
Qed.

(** What uservec leaves for usertrap: the user registers in the trapframe,
    and the kernel's stack, hart number, page table and entry point. *)
Lemma exec_uservec (m : hart) (pa : Z) :
  regs_ok m -> area (csrs m satp) (csrs m sscratch) pa 288 ->
  let m1 := exec_all xlate uservec.1 m in
  (forall r o, (r, o) ∈ (a0, 112) :: user_slots -> load64 (ram m1) (pa + o) = regs m r) /\
  same_on (fun x => x < pa + 40 \/ pa + 288 <= x) (ram m) (ram m1) /\
  csrs m1 satp = load64 (ram m) (pa + 0) /\ regs m1 sp = load64 (ram m) (pa + 8) /\
  regs m1 tp = load64 (ram m) (pa + 32) /\ target uservec.2 m1 = Some (load64 (ram m) (pa + 16)).
Proof.
  intros Hok Ha. cbv zeta. unfold uservec. cbn [fst snd target].
  change ([CSRR t0 sscratch; SD t0 112 a0; LD sp 8 a0; LD tp 32 a0; LD t0 16 a0; LD t1 0 a0; CSRW satp t1; SFENCE])
    with ([CSRR t0 sscratch; SD t0 112 a0] ++ restore [(sp, 8); (tp, 32); (t0, 16); (t1, 0)] a0 ++ [CSRW satp t1; SFENCE]).
  rewrite !exec_all_app.
  set (m0 := exec_all xlate [CSRRW a0 sscratch a0] m).
  destruct (exec_save user_slots a0 m0 pa 40 288) as (w & -> & Hw & Hs); [exact Ha|lia|reflexivity|].
  set (m2 := exec_all xlate [CSRR t0 sscratch; SD t0 112 a0] (set_ram w m0)).
  assert (ram m2 = store64 w (pa + 112) (regs m a0)) as Hm2.
  { unfold m2. simpl. rewrite (addr_area _ _ pa 288); [done|exact Ha|lia]. }
  assert (same_on (fun x => x < pa + 40 \/ pa + 288 <= x) (ram m) (ram m2)) as Hs2.
  { rewrite Hm2. etrans; [exact Hs|]. eapply same_on_weaken; [|apply store64_same_on]. simpl; intros; lia. }
  destruct (exec_restore [(sp, 8); (tp, 32); (t0, 16); (t1, 0)] a0 m2 pa 288) as (Hc & Hr & Hl & _);
    [exact Ha|apply (bool_decide_unpack _); reflexivity|apply (bool_decide_unpack _); reflexivity| | |].
  { repeat constructor; simpl; lia. }
  { intros o Hin. by destruct (slot_not [(sp, 8); (tp, 32); (t0, 16); (t1, 0)] a0 o). }
  assert (forall o, 0 <= o -> o + 8 <= 40 -> load64 (ram m2) (pa + o) = load64 (ram m) (pa + o)) as Hlow.
  { intros o H1 H2. apply (load64_same_on _ _ _ _ Hs2). intros; lia. }
  set (m3 := exec_all xlate (restore _ _) m2) in *.
  cbn [exec_all fold_left step_instr set_csr csrs regs ram]. rewrite decide_True by done. rewrite Hr.
  rewrite (Hl t1 0), (Hl sp 8), (Hl tp 32), (Hl t0 16), !Hlow
    by (lia || apply (bool_decide_unpack _); reflexivity).
  split; [|split; [exact Hs2|done]].
  intros r o Hin. rewrite Hm2. apply elem_of_cons in Hin as [[= -> ->]|Hin].
  - rewrite load64_store64_eq. by apply u64_reg.
  - destruct (user_slots_apart r o Hin) as [Hd Hne].
    rewrite load64_store64_ne by lia. rewrite (Hw r o Hin). unfold m0. simpl.
    rewrite decide_False by done. by apply u64_reg.
Qed.

(** userret loads the user registers from the trapframe. *)
Lemma exec_userret (m : hart) (pa : Z) :
  area (regs m a1) (regs m a0) pa 288 ->
  let m1 := exec_all xlate userret.1 m in
  (forall r o, (r, o) ∈ (a0, 112) :: user_slots -> regs m1 r = load64 (ram m) (pa + o)) /\
  ram m1 = ram m /\ csrs m1 satp = regs m a1 /\ csrs m1 sscratch = regs m a0.
Proof.
  intros Ha. cbv zeta. unfold userret. cbn [fst snd]. rewrite !exec_all_app.
  set (m0 := exec_all xlate [CSRW satp a1; SFENCE; LD t0 112 a0; CSRW sscratch t0] m).
  assert (csrs m0 sscratch = load64 (ram m) (pa + 112)) as Hx.
  { unfold m0. simpl. rewrite (addr_area _ _ pa 288); [done|exact Ha|lia]. }
  destruct (exec_restore user_slots a0 m0 pa 288) as (Hc & Hr & Hl & Hk);
    [exact Ha|apply (bool_decide_unpack _); reflexivity|apply (bool_decide_unpack _); reflexivity| | |].
  { apply (bool_decide_unpack _); reflexivity. }
  { intros o Hin. by destruct (user_slots_apart a0 o Hin). }
  set (m1 := exec_all xlate (restore _ _) m0) in *. clearbody m1.
  cbn [exec_all fold_left step_instr]. rewrite csrs_set_reg, ram_set_reg. cbn [set_csr csrs regs ram]. rewrite Hc, Hr, Hk by
    (apply (bool_decide_unpack _); reflexivity).
  split; [|done]. intros r o Hin. rewrite regs_set by done. case_decide as Hd.
  - subst. apply elem_of_cons in Hin as [[= ->]|Hin]; [exact Hx|]. by destruct (user_slots_apart a0 o Hin).
  - cbn [set_csr regs]. apply elem_of_cons in Hin as [[= -> ->]|Hin]; [done|]. by rewrite (Hl r o Hin).
Qed.
End areas.

Section switch.
Context (xlate : Z -> Z -> Z).

Lemma exec_swtch (m : hart) (pa pb : Z) :
  regs_ok m -> area xlate (csrs m satp) (regs m a0) pa 112 -> area xlate (csrs m satp) (regs m a1) pb 112 ->
  pa + 112 <= pb \/ pb + 112 <= pa ->
  let m1 := exec_all xlate swtch_code.1 m in
  (forall r o, (r, o) ∈ context_slots ->
     load64 (ram m1) (pa + o) = regs m r /\ regs m1 r = load64 (ram m) (pb + o)) /\
  (forall r, r ∉ context_slots.*1 -> regs m1 r = regs m r) /\
  csrs m1 = csrs m /\ same_on (fun x => x < pa \/ pa + 112 <= x) (ram m) (ram m1).
Proof.
  intros Hok Ha Hb Hd. cbv zeta. unfold swtch_code. cbn [fst]. rewrite exec_all_app.
  destruct (exec_save xlate context_slots a0 m pa 0 112) as (w & -> & Hw & Hs); [exact Ha|lia|reflexivity|].
  destruct (exec_restore xlate context_slots a1 (set_ram w m) pb 112) as (Hc & Hr & Hl & Hk);
    [exact Hb|apply (bool_decide_unpack _); reflexivity|apply (bool_decide_unpack _); reflexivity
    |apply (bool_decide_unpack _); reflexivity| |].
  { intros o Hin. by destruct (slot_not context_slots a1 o). }
  set (m1 := exec_all xlate _ _) in *. clearbody m1. simpl in Hc, Hr, Hl, Hk. rewrite Hc, Hr.
  repeat split; try done.
  - rewrite (Hw r o) by done. by apply u64_reg.
  - rewrite (Hl r o) by done. apply (load64_same_on _ _ _ _ Hs).
    destruct (ascending_in context_slots 0 112 r o) as [H1 H2]; [done..|]. intros x Hx. lia.
  - eapply same_on_weaken; [|exact Hs]. simpl. intros; lia.
Qed.
End switch.

(** C28. The registers of a user process survive a trap.  uservec stores them
    in the trapframe, touches no other memory, and enters the kernel at the
    address, with the stack, the hart number and the page table that the
    trapframe holds.  If the register words of the trapframe are as uservec
    left them when the kernel calls userret(TRAPFRAME, satp), all the user
    registers are as before the trap, and sscratch points to the trapframe
    for the next one. *)
Theorem user_registers_survive (xlate : Z -> Z -> Z) (m m2 : hart) (pa : Z) :
  regs_ok m -> area xlate (csrs m satp) (csrs m sscratch) pa 288 ->
  let m1 := exec_all xlate uservec.1 m in
  let m3 := exec_all xlate userret.1 m2 in
  regs m2 a0 = csrs m sscratch -> area xlate (regs m2 a1) (regs m2 a0) pa 288 ->
  same_on (fun x => pa + 40 <= x < pa + 288) (ram m1) (ram m2) ->
  (same_on (fun x => x < pa + 40 \/ pa + 288 <= x) (ram m) (ram m1) /\
   csrs m1 satp = load64 (ram m) (pa + 0) /\ regs m1 sp = load64 (ram m) (pa + 8) /\
   regs m1 tp = load64 (ram m) (pa + 32) /\ target uservec.2 m1 = Some (load64 (ram m) (pa + 16))) /\
  (forall r, r <> zero -> regs m3 r = regs m r) /\
  ram m3 = ram m2 /\ csrs m3 satp = regs m2 a1 /\ csrs m3 sscratch = csrs m sscratch.
Proof.
  cbv zeta. intros Hok Ha H0 Ha2 Hs.
  destruct (exec_uservec xlate m pa Hok Ha) as (Hw & Hrest).
  destruct (exec_userret xlate m2 pa Ha2) as (Hl & Hm & Hp & Hx).
  split; [exact Hrest|]. rewrite Hm, Hp, Hx. split; [|by rewrite H0].
  intros r Hr. destruct (user_slots_all r Hr) as [o Hin]. rewrite (Hl r o Hin).
  assert (40 <= o /\ o + 8 <= 288) as Ho by exact (user_slots_range r o Hin).
  rewrite (load64_same_on _ _ _ (pa + o) Hs) by (intros; lia). by apply Hw.
Qed.

(** C29. A kernel thread resumes from swtch as it called it.  swtch(old, new)
    saves the callee-saved registers and the return address in *old, touches
    no other memory, and continues as the context *new says; when another
    thread later calls swtch with that context as new, unchanged, the stack
    and the callee-saved registers are those of the first call, which
    returns to its caller. *)
Theorem swtch_resumes (xlate : Z -> Z -> Z) (m m2 : hart) (pa pb pc : Z) :
  regs_ok m -> regs_ok m2 ->
  area xlate (csrs m satp) (regs m a0) pa 112 -> area xlate (csrs m satp) (regs m a1) pb 112 ->
  pa + 112 <= pb \/ pb + 112 <= pa ->
  let m1 := exec_all xlate swtch_code.1 m in
  let m3 := exec_all xlate swtch_code.1 m2 in
  area xlate (csrs m2 satp) (regs m2 a0) pc 112 -> area xlate (csrs m2 satp) (regs m2 a1) pa 112 ->
  pc + 112 <= pa \/ pa + 112 <= pc ->
  same_on (fun x => pa <= x < pa + 112) (ram m1) (ram m2) ->
  same_on (fun x => x < pa \/ pa + 112 <= x) (ram m) (ram m1) /\
  (forall r o, (r, o) ∈ context_slots -> regs m1 r = load64 (ram m) (pb + o)) /\
  (forall r, r ∈ context_slots.*1 -> regs m3 r = regs m r) /\
  target swtch_code.2 m3 = Some (regs m ra).
Proof.
  cbv zeta. intros Hok Hok2 Ha Hb Hd Hc2 Ha2 Hd2 Hs.
  destruct (exec_swtch xlate m pa pb) as (H1 & _ & _ & Hs1); [done..|].
  destruct (exec_swtch xlate m2 pc pa) as (H3 & _ & _ & _); [done..|].
  assert (forall r, r ∈ context_slots.*1 -> regs (exec_all xlate swtch_code.1 m2) r = regs m r) as Hr.
  { intros r Hin. apply list_elem_of_fmap in Hin as ([r' o] & -> & Hin). cbn [fst].
    destruct (H3 r' o Hin) as [_ ->]. destruct (H1 r' o Hin) as [<- _].
    destruct (ascending_in context_slots 0 112 r' o) as [L1 L2]; [done..|].
    apply (load64_same_on _ _ _ _ Hs). intros; lia. }
  split; [exact Hs1|]. split; [intros r o Hin; apply (H1 r o Hin)|]. split; [exact Hr|].
  cbn [target swtch_code snd]. f_equal. apply Hr. left.
Qed.

Definition bare (root va : Z) : Z := va.
Definition demo_regs (l : list (reg * Z)) (r : reg) : Z :=
  match list_find (fun x => x.1 = r) l with Some (_, x) => x.2 | None => 7 end.

Definition thread_a : hart := Hart (demo_regs [(ra, 0x80001000); (a0, 0x1000); (a1, 0x2000)]) (fun _ => 0) ∅.
Definition thread_b : hart :=
  Hart (demo_regs [(ra, 0x80002000); (a0, 0x2000); (a1, 0x1000)]) (fun _ => 0)
    (ram (exec_all bare swtch_code.1 thread_a)).

Lemma demo_regs_ok (l : list (reg * Z)) (c : csr -> Z) (w : memory) :
  Forall (fun x => is_u64 x.2) l -> regs_ok (Hart (demo_regs l) c w).
Proof.
  intros H r. simpl. unfold demo_regs. destruct (list_find _ l) as [[i x]|] eqn:E; [|done].
  apply list_find_Some in E as (Hi & _). exact (proj1 (list.Forall_lookup _ _) H i x Hi).
Qed.
Lemma bare_area (root va n : Z) : 0 <= va -> va + n <= 2 ^ 64 -> area bare root va va n.
Proof. intros H1 H2. split; [done|]. split; [done|]. done. Qed.

Lemma swtch_resumes_witness : regs (exec_all bare swtch_code.1 thread_b) sp = regs thread_a sp.
Proof.
  refine (proj1 (proj2 (proj2 (swtch_resumes bare thread_a thread_b 0x1000 0x2000 0x2000 _ _ _ _ _ _ _ _ _))) sp _).
  - by apply demo_regs_ok; repeat constructor.
  - by apply demo_regs_ok; repeat constructor.
  - apply bare_area; [done|]. simpl. lia.
  - apply bare_area; [done|]. simpl. lia.
  - lia.
  - apply bare_area; [done|]. simpl. lia.
  - apply bare_area; [done|]. simpl. lia.
  - lia.
  - unfold thread_b. cbn [ram]. apply same_on_refl.
  - apply (bool_decide_unpack _). reflexivity.
Defined.

Definition user_hart : hart :=
  Hart (demo_regs [(sp, 0x4000); (a0, 5); (ra, 0x24)]) (fun c => if decide (c = sscratch) then TRAPFRAME else 0) ∅.
Definition return_hart : hart :=
  Hart (demo_regs [(a0, TRAPFRAME); (a1, 0)]) (fun _ => 0) (ram (exec_all bare uservec.1 user_hart)).

Lemma user_registers_survive_witness : regs (exec_all bare userret.1 return_hart) a0 = 5.
Proof.
  refine (proj1 (proj2 (user_registers_survive bare user_hart return_hart TRAPFRAME _ _ _ _ _)) a0 _).
  - by apply demo_regs_ok; repeat constructor.
  - apply bare_area; done.
  - reflexivity.
  - apply bare_area; done.
  - unfold return_hart. cbn [ram]. apply same_on_refl.
  - done.
Defined.

(** *** Interrupts in the kernel *)
Section interrupts.
Context (xlate : Z -> Z -> Z).

Definition frame_slots : list (reg * Z) := [(ra, 0); (sp, 8); (gp, 16); (tp, 24)] ++ low_slots.

Definition back_slots : list (reg * Z) := [(ra, 0); (sp, 8); (gp, 16)] ++ low_slots.

Lemma back_slots_all (r : reg) : r <> zero -> r <> tp -> exists o, (r, o) ∈ back_slots.
Proof.
  intros Hr Ht. assert (r ∈ back_slots.*1) as H by (by destruct r; try done; apply (bool_decide_unpack _)).
  apply list_elem_of_fmap in H as ([r' o] & -> & H). by exists o.
Qed.
Lemma back_slots_frame (r : reg) (o : Z) : (r, o) ∈ back_slots -> (r, o) ∈ frame_slots.
Proof.
  assert (Forall (fun x => x ∈ frame_slots) back_slots) as H by (apply (bool_decide_unpack _); reflexivity).
  intros Hin. exact (proj1 (list.Forall_forall _ _) H _ Hin).
Qed.

Lemma exec_kernelvec_save (m : hart) (pa : Z) :
  regs_ok m -> area xlate (csrs m satp) (u64 (regs m sp + - 256)) pa 256 ->
  let m1 := exec_all xlate kernelvec_save m in
  regs m1 sp = u64 (regs m sp + - 256) /\ csrs m1 = csrs m /\
  same_on (fun x => x < pa \/ pa + 256 <= x) (ram m) (ram m1) /\
  forall r o, (r, o) ∈ frame_slots -> load64 (ram m1) (pa + o) = if decide (r = sp) then regs m1 sp else regs m r.
Proof.
  intros Hok Ha. cbv zeta. unfold kernelvec_save. rewrite exec_all_app.
  set (m0 := exec_all xlate [ADDI sp sp (-256)] m).
  assert (regs m0 sp = u64 (regs m sp + - 256)) as Hsp by done.
  destruct (exec_save xlate frame_slots sp m0 pa 0 256) as (w & He & Hw & Hs); [exact Ha|lia|reflexivity|].
  unfold frame_slots in He. rewrite He. cbn [set_ram regs csrs ram].
  split; [done|]. split; [done|]. split; [eapply same_on_weaken; [|exact Hs]; simpl; intros; lia|].
  intros r o Hin. rewrite (Hw r o Hin). destruct (decide (r = sp)) as [->|Hr].
  - rewrite Hsp. apply u64_small, u64_range.
  - unfold m0. cbn [exec_all fold_left step_instr]. rewrite regs_set by done. rewrite decide_False by done. by apply u64_reg.
Qed.

Lemma exec_kernelvec_restore (m : hart) (pa : Z) :
  area xlate (csrs m satp) (regs m sp) pa 256 -> load64 (ram m) (pa + 8) = regs m sp ->
  let m1 := exec_all xlate kernelvec_restore.1 m in
  (forall r o, (r, o) ∈ back_slots -> r <> sp -> regs m1 r = load64 (ram m) (pa + o)) /\
  regs m1 sp = u64 (regs m sp + 256) /\ regs m1 tp = regs m tp /\ csrs m1 = csrs m /\ ram m1 = ram m.
Proof.
  intros Ha H8. cbv zeta. unfold kernelvec_restore. cbn [fst]. rewrite exec_all_app. fold back_slots.
  destruct (exec_restore xlate back_slots sp m pa 256) as (R1 & R2 & R3 & R4);
    [done|apply (bool_decide_unpack _); reflexivity|apply (bool_decide_unpack _); reflexivity
    |apply (bool_decide_unpack _); reflexivity| |].
  { intros o Hin. assert (o = 8) as ->; [|done].
    assert (Forall (fun x => x.1 = sp -> x.2 = 8) back_slots) as H by (apply (bool_decide_unpack _); reflexivity).
    exact (proj1 (list.Forall_forall _ _) H _ Hin eq_refl). }
  set (m1 := exec_all xlate (restore back_slots sp) m) in *. clearbody m1.
  cbn [exec_all fold_left step_instr]. rewrite csrs_set_reg, ram_set_reg, !regs_set by done.
  rewrite decide_True, decide_False by done.
  rewrite (R3 sp 8), H8, R4 by (apply (bool_decide_unpack _); reflexivity).
  split; [|done]. intros r o Hin Hr. rewrite regs_set by done. rewrite decide_False by done. by apply R3.
Qed.
End interrupts.

(** C30. An interrupt in the kernel is transparent.  kernelvec saves the
    registers below the stack pointer, calls kerneltrap, which by the calling
    convention keeps the stack pointer and the frame of its caller, and
    restores them: every register is as before the interrupt, but tp, which
    stays that of the hart that the thread runs on now. *)
Theorem kernelvec_transparent (xlate : Z -> Z -> Z) (m m2 : hart) (pa : Z) :
  regs_ok m -> 256 <= regs m sp -> area xlate (csrs m satp) (regs m sp - 256) pa 256 ->
  let m1 := exec_all xlate kernelvec_save m in
  let m3 := exec_all xlate kernelvec_restore.1 m2 in
  regs m2 sp = regs m1 sp -> csrs m2 satp = csrs m satp ->
  same_on (fun x => pa <= x < pa + 256) (ram m1) (ram m2) ->
  (regs m1 sp = regs m sp - 256 /\ same_on (fun x => x < pa \/ pa + 256 <= x) (ram m) (ram m1)) /\
  (forall r, r <> zero -> r <> tp -> regs m3 r = regs m r) /\ regs m3 tp = regs m2 tp /\
  csrs m3 = csrs m2 /\ ram m3 = ram m2.
Proof.
  cbv zeta. intros Hok Hsp Ha H2 Hp Hs. pose proof (Hok sp) as Hu.
  assert (u64 (regs m sp + - 256) = regs m sp - 256) as Hsub by (rewrite u64_small; unfold is_u64 in *; lia).
  destruct (exec_kernelvec_save xlate m pa Hok) as (K1 & K2 & K3 & K4); [by rewrite Hsub|].
  set (m1 := exec_all xlate kernelvec_save m) in *. clearbody m1. rewrite Hsub in K1.
  assert (forall r o, (r, o) ∈ frame_slots -> load64 (ram m2) (pa + o) = load64 (ram m1) (pa + o)) as Hl.
  { intros r o Hin. destruct (ascending_in frame_slots 0 256 r o) as [L1 L2]; [done..|].
    apply (load64_same_on _ _ _ _ Hs). intros; lia. }
  assert ((sp, 8) ∈ frame_slots) as Hin8 by (apply (bool_decide_unpack _); reflexivity).
  destruct (exec_kernelvec_restore xlate m2 pa) as (R1 & R2 & R3 & R4 & R5);
    [by rewrite Hp, H2, K1| |].
  { rewrite (Hl sp 8), (K4 sp 8) by done. by rewrite decide_True, H2. }
  set (m3 := exec_all xlate _ m2) in *. clearbody m3.
  split; [done|]. split; [|done]. intros r Hz Ht. destruct (decide (r = sp)) as [->|Hr].
  - rewrite R2, H2, K1. replace (regs m sp - 256 + 256) with (regs m sp) by lia. by apply u64_reg.
  - destruct (back_slots_all r Hz Ht) as [o Hin]. pose proof (back_slots_frame r o Hin) as Hf.
    rewrite (R1 r o Hin Hr), (Hl r o Hf), (K4 r o Hf). by rewrite decide_False.
Qed.

Definition kernel_hart : hart := Hart (demo_regs [(sp, 0x3000); (ra, 0x80001234)]) (fun _ => 0) ∅.
Definition handled_hart : hart :=
  Hart (demo_regs [(sp, 0x2f00); (tp, 1)]) (fun _ => 0) (ram (exec_all bare kernelvec_save kernel_hart)).

Lemma kernelvec_transparent_witness :
  regs (exec_all bare kernelvec_restore.1 handled_hart) ra = 0x80001234.
Proof.
  refine (proj1 (proj2 (kernelvec_transparent bare kernel_hart handled_hart 0x2f00 _ _ _ _ _ _)) ra _ _).
  - by apply demo_regs_ok; repeat constructor.
  - done.
  - apply bare_area; done.
  - vm_compute. reflexivity.
  - reflexivity.
  - assert (ram handled_hart = ram (exec_all bare kernelvec_save kernel_hart)) as -> by (vm_compute; reflexivity).
    apply same_on_refl.
  - done.
  - done.
Defined.

(** *** The timer *)
(** mscratch points to the scratch area that timervec expects, with the
    address of the hart's compare register and the interval in it. *)
Record timer_ready (m : hart) (scratch cmp iv : Z) : Prop := {
  timer_scratch : csrs m mscratch = scratch;
  timer_range : 0 <= scratch /\ scratch + 40 <= 2 ^ 64 /\ is_u64 cmp;
  timer_apart : cmp + 8 <= scratch \/ scratch + 40 <= cmp;
  timer_cmp : load64 (ram m) (scratch + 24) = cmp;
  timer_iv : load64 (ram m) (scratch + 32) = iv }.

Lemma bare_addr (m : hart) (r : reg) (o : Z) : is_u64 (regs m r + o) -> addr bare m r o = regs m r + o.
Proof. intros H. unfold addr, bare. by apply u64_small. Qed.

(** The middle of timervec: the next deadline, and the software interrupt. *)
Lemma exec_deadline (m : hart) :
  is_u64 (regs m a1) ->
  let m1 := exec_all bare [LD a3 0 a1; ADD a3 a3 a2; SD a3 0 a1; LI a1 2; CSRW sip a1] m in
  ram m1 = store64 (ram m) (regs m a1) (u64 (load64 (ram m) (regs m a1) + regs m a2)) /\
  (forall r, r <> a1 -> r <> a3 -> regs m1 r = regs m r) /\
  csrs m1 sip = 2 /\ (forall c, c <> sip -> csrs m1 c = csrs m c).
Proof.
  intros H. cbv zeta. cbn [exec_all fold_left step_instr].
  rewrite !ram_set_reg, !bare_addr by (rewrite ?regs_set by done; rewrite ?decide_False by done; by rewrite Z.add_0_r).
  cbn [set_csr set_ram ram regs csrs]. rewrite ?ram_set_reg, ?csrs_set_reg.
  cbn [set_csr set_ram ram regs csrs]. rewrite ?ram_set_reg, ?csrs_set_reg.
  split; [rewrite !regs_set by done; simpl; by rewrite !Z.add_0_r|].
  split; [|split].
  - intros r H1 H3. rewrite regs_set by done. rewrite decide_False by done. cbn [set_ram regs].
    rewrite !regs_set by done. by rewrite !decide_False by done.
  - by rewrite decide_True, regs_set, decide_True by done.
  - intros c Hc. rewrite decide_False by done. by rewrite ?csrs_set_reg.
Qed.

Definition timer_in : list instr := take 11 timervec.1.

(** The state of the hart between the two halves of timervec. *)
Definition timer_mid (m m3 : hart) (scratch cmp iv : Z) : Prop :=
  (forall r o, (r, o) ∈ [(a1, 0); (a2, 8); (a3, 16)] -> load64 (ram m3) (scratch + o) = regs m r) /\
  (forall r, r ∉ [a0; a1; a2; a3] -> regs m3 r = regs m r) /\
  regs m3 a0 = scratch /\ csrs m3 mscratch = regs m a0 /\ csrs m3 sip = 2 /\
  (forall c, c <> sip -> c <> mscratch -> csrs m3 c = csrs m c) /\
  load64 (ram m3) cmp = u64 (load64 (ram m) cmp + iv) /\
  same_on (fun x => (x < scratch \/ scratch + 24 <= x) /\ (x < cmp \/ cmp + 8 <= x)) (ram m) (ram m3).

Lemma exec_timer_in (m : hart) (scratch cmp iv : Z) :
  regs_ok m -> timer_ready m scratch cmp iv ->
  timer_mid m (exec_all bare timer_in m) scratch cmp iv.
Proof.
  intros Hok [Hsc (H0 & H1 & H2) Hap Hcmp Hiv].
  assert (forall n, n <= 40 -> area bare 0 scratch scratch n) as Harea by (intros; apply bare_area; lia).
  unfold timer_in.
  change (take 11 timervec.1) with ([CSRRW a0 mscratch a0] ++ save [(a1, 0); (a2, 8); (a3, 16)] a0 ++
    restore [(a1, 24); (a2, 32)] a0 ++ [LD a3 0 a1; ADD a3 a3 a2; SD a3 0 a1; LI a1 2; CSRW sip a1]).
  rewrite !exec_all_app.
  set (m0 := exec_all bare [CSRRW a0 mscratch a0] m).
  assert (regs m0 a0 = scratch) as Ha0 by done.
  destruct (exec_save bare [(a1, 0); (a2, 8); (a3, 16)] a0 m0 scratch 0 24) as (w & -> & Hw & Hs);
    [rewrite Ha0; apply Harea; lia|lia|reflexivity|].
  destruct (exec_restore bare [(a1, 24); (a2, 32)] a0 (set_ram w m0) scratch 40) as (R1 & R2 & R3 & R4);
    [cbn [set_ram regs]; rewrite Ha0; apply Harea; lia
    |apply (bool_decide_unpack _); reflexivity|apply (bool_decide_unpack _); reflexivity
    |apply (bool_decide_unpack _); reflexivity|intros o Hin; by destruct (slot_not [(a1, 24); (a2, 32)] a0 o)|].
  set (m2 := exec_all bare (restore _ _) (set_ram w m0)) in *. clearbody m2.
  cbn [set_ram regs csrs ram] in R1, R2, R3, R4.
  assert (regs m2 a1 = cmp /\ regs m2 a2 = iv) as [Hr1 Hr2].
  { rewrite (R3 a1 24), (R3 a2 32) by (apply (bool_decide_unpack _); reflexivity).
    rewrite <- Hcmp, <- Hiv. split; apply (load64_same_on _ _ _ _ Hs); intros; lia. }
  destruct (exec_deadline m2) as (D1 & D2 & D3 & D4); [by rewrite Hr1|].
  set (m3 := exec_all bare _ m2) in *. clearbody m3. unfold timer_mid. rewrite D1, Hr1, Hr2, R2.
  split; [|split; [|split; [|split; [|split; [done|split; [|split]]]]]].
  - intros r o Hin. destruct (ascending_in [(a1, 0); (a2, 8); (a3, 16)] 0 24 r o) as [L1 L2]; [done..|].
    rewrite load64_store64_ne by lia. rewrite (Hw r o Hin). unfold m0. cbn [exec_all fold_left step_instr].
    rewrite regs_set by done. rewrite decide_False; [cbn [set_csr regs]; by apply u64_reg|]. intros ->.
    by destruct (slot_not [(a1, 0); (a2, 8); (a3, 16)] a0 o).
  - intros r Hr. rewrite !not_elem_of_cons in Hr. destruct Hr as (Q0 & Q1 & Q2 & Q3 & _).
    rewrite D2, R4 by (done || (simpl; rewrite !not_elem_of_cons; auto using not_elem_of_nil)).
    unfold m0. cbn [exec_all fold_left step_instr]. rewrite regs_set by done. by rewrite decide_False.
  - rewrite D2, R4 by (done || apply (bool_decide_unpack _); reflexivity). done.
  - by rewrite D4, R1.
  - intros c C1 C2. rewrite D4, R1 by done. unfold m0. cbn [exec_all fold_left step_instr].
    rewrite csrs_set_reg. simpl. by rewrite decide_False.
  - rewrite load64_store64_eq. rewrite (load64_same_on _ _ _ cmp Hs) by (intros; lia).
    apply u64_small, u64_range.
  - etrans; [eapply same_on_weaken; [|exact Hs]; simpl; intros; lia|].
    eapply same_on_weaken; [|apply store64_same_on]. simpl. intros; lia.
Qed.

Lemma timervec_split :
  timervec.1 = timer_in ++ restore [(a3, 16); (a2, 8); (a1, 0)] a0 ++ [CSRRW a0 mscratch a0].
Proof. reflexivity. Qed.

Lemma exec_timer_out (m m3 : hart) (scratch cmp iv : Z) :
  timer_ready m scratch cmp iv -> timer_mid m m3 scratch cmp iv ->
  let m1 := exec_all bare (restore [(a3, 16); (a2, 8); (a1, 0)] a0 ++ [CSRRW a0 mscratch a0]) m3 in
  timer_ready m1 scratch cmp iv /\
  (forall r, regs m1 r = regs m r) /\
  load64 (ram m1) cmp = u64 (load64 (ram m) cmp + iv) /\
  csrs m1 sip = 2 /\ (forall c, c <> sip -> csrs m1 c = csrs m c) /\
  same_on (fun x => (x < scratch \/ scratch + 24 <= x) /\ (x < cmp \/ cmp + 8 <= x)) (ram m) (ram m1).
Proof.
  intros Ht (T1 & T2 & T3 & T4 & T5 & T6 & T7 & T8). cbv zeta. pose proof Ht as [Hsc (H0 & H1 & H2) Hap Hcmp Hiv].
  rewrite exec_all_app.
  destruct (exec_restore bare [(a3, 16); (a2, 8); (a1, 0)] a0 m3 scratch 24) as (R1 & R2 & R3 & R4);
    [rewrite T3; apply bare_area; lia
    |apply (bool_decide_unpack _); reflexivity|apply (bool_decide_unpack _); reflexivity
    |apply (bool_decide_unpack _); reflexivity
    |intros o Hin; by destruct (slot_not [(a3, 16); (a2, 8); (a1, 0)] a0 o)|].
  set (m4 := exec_all bare (restore _ _) m3) in *. clearbody m4.
  cbn [exec_all fold_left step_instr]. rewrite csrs_set_reg, ram_set_reg. cbn [set_csr csrs ram].
  rewrite R1, R2, R4, T3 by (apply (bool_decide_unpack _); reflexivity).
  assert (forall o, 24 <= o -> o + 8 <= 40 -> load64 (ram m3) (scratch + o) = load64 (ram m) (scratch + o)) as Hk.
  { intros o L1 L2. apply (load64_same_on _ _ _ _ T8). intros; lia. }
  split.
  { constructor; rewrite ?csrs_set_reg, ?ram_set_reg; cbn [set_csr csrs ram]; rewrite ?R2, ?Hk by lia; auto. }
  split; [|split; [exact T7|split; [by rewrite decide_False|split; [|exact T8]]]].
  - intros r. rewrite regs_set by done. case_decide as D0; [subst; exact T4|]. cbn [set_csr regs].
    destruct (decide (r ∈ [(a3, 16); (a2, 8); (a1, 0)].*1)) as [Hin|Hin].
    + apply list_elem_of_fmap in Hin as ([r' o] & -> & Hin). cbn [fst]. rewrite (R3 r' o Hin). apply T1.
      revert Hin. rewrite !elem_of_cons. tauto.
    + rewrite R4 by done. apply T2. revert Hin. simpl. rewrite !not_elem_of_cons. tauto.
  - intros c Hc. case_decide as D; [by subst|]. by apply T6.
Qed.

(** C31. A timer interrupt is transparent to what it interrupts.  timervec,
    in machine mode, moves the deadline of the hart by the interval, raises a
    supervisor software interrupt and returns with every register as it was;
    it writes only the save area and the compare register, and leaves the
    scratch area ready for the next interrupt. *)
Theorem timervec_transparent (m : hart) (scratch cmp iv : Z) :
  regs_ok m -> timer_ready m scratch cmp iv ->
  let m1 := exec_all bare timervec.1 m in
  timer_ready m1 scratch cmp iv /\
  (forall r, regs m1 r = regs m r) /\
  load64 (ram m1) cmp = u64 (load64 (ram m) cmp + iv) /\
  csrs m1 sip = 2 /\ (forall c, c <> sip -> csrs m1 c = csrs m c) /\
  same_on (fun x => (x < scratch \/ scratch + 24 <= x) /\ (x < cmp \/ cmp + 8 <= x)) (ram m) (ram m1).
Proof.
  intros Hok Ht. cbv zeta. rewrite timervec_split, exec_all_app.
  apply exec_timer_out; [done|]. by apply exec_timer_in.
Qed.

Lemma exec_entry (m : hart) (stack0 : Z) :
  0 <= csrs m mhartid < Z.of_nat NCPU -> 0 <= stack0 -> stack0 + 4096 * Z.of_nat NCPU < 2 ^ 64 ->
  let m0 := exec_all bare (entry_code stack0) m in
  csrs m0 = csrs m /\ ram m0 = ram m /\ regs m0 sp = stack0 + 4096 * csrs m mhartid + 4096.
Proof.
  unfold NCPU. intros Hid H1 H2. cbv zeta. cbn [exec_all fold_left step_instr entry_code].
  rewrite !csrs_set_reg, !ram_set_reg. split; [done|]. split; [done|].
  rewrite !regs_set by done. change (u64 (1024 * 4)) with 4096. repeat (case_decide; try discriminate; try contradiction).
  rewrite (u64_small (csrs m mhartid + 1)) by (unfold is_u64; lia).
  rewrite (u64_small stack0), (u64_small (4096 * _)) by (unfold is_u64; lia).
  rewrite u64_small by (unfold is_u64; lia). lia.
Qed.

Lemma mpp_supervisor (x : Z) :
  Z.land (Z.lor (Z.lor (Z.land x (Z.lnot MSTATUS_MPP_MASK)) MSTATUS_MPP_S) MSTATUS_MIE) MSTATUS_MPP_MASK
  = MSTATUS_MPP_S.
Proof.
  rewrite !Z.land_lor_distr_l, <- Z.land_assoc, (Z.land_comm (Z.lnot _)), Z.land_lnot_diag, Z.land_0_r.
  reflexivity.
Qed.

Lemma timerinit_memory (m : hart) (scratch timervec : Z) :
  0 <= csrs m mhartid < Z.of_nat NCPU -> 0x80000000 <= scratch ->
  let id := csrs m mhartid in
  let m1 := timerinit scratch timervec m in
  load64 (ram m1) (CLINT_MTIMECMP id) = u64 (load64 (ram m) CLINT_MTIME + interval) /\
  load64 (ram m1) (scratch + 40 * id + 24) = CLINT_MTIMECMP id /\
  load64 (ram m1) (scratch + 40 * id + 32) = interval.
Proof.
  unfold NCPU. intros Hid Hs. cbv zeta. unfold timerinit.
  rewrite (i32_small (csrs m mhartid)) by lia. cbn [set_csr set_ram ram csrs].
  unfold CLINT_MTIMECMP, CLINT. split; [|split].
  - rewrite !load64_store64_ne by lia. apply load64_store64_eq.
  - rewrite load64_store64_ne by lia. rewrite load64_store64_eq. apply u64_small. unfold is_u64. lia.
  - rewrite load64_store64_eq. reflexivity.
Qed.

(** C32. start() leaves each hart as main and the timer expect it: on return
    from machine mode it runs main in supervisor mode with paging off, on its
    own page of stack0, with its number in tp; interrupts and exceptions are
    delegated, and the timer is armed with a scratch area that no other hart
    shares. *)
Theorem start_boots (m : hart) (stack0 main scratch timervec : Z) :
  0 <= csrs m mhartid < Z.of_nat NCPU ->
  0 <= stack0 -> stack0 + 4096 * Z.of_nat NCPU < 2 ^ 64 ->
  0x80000000 <= scratch -> scratch + 40 * Z.of_nat NCPU <= 2 ^ 64 ->
  let id := csrs m mhartid in
  let m1 := (start main scratch timervec (exec_all bare (entry_code stack0) m)).1 in
  (start main scratch timervec (exec_all bare (entry_code stack0) m)).2 = MRET /\
  csrs m1 mepc = main /\ Z.land (csrs m1 mstatus) MSTATUS_MPP_MASK = MSTATUS_MPP_S /\
  csrs m1 satp = 0 /\ csrs m1 medeleg = 0xffff /\ csrs m1 mideleg = 0xffff /\
  regs m1 tp = id /\ regs m1 sp = stack0 + 4096 * id + 4096 /\
  csrs m1 mtvec = timervec /\ Z.testbit (csrs m1 mie) 7 = true /\ Z.testbit (csrs m1 mstatus) 3 = true /\
  load64 (ram m1) (CLINT_MTIMECMP id) = u64 (load64 (ram m) CLINT_MTIME + interval) /\
  timer_ready m1 (scratch + 40 * id) (CLINT_MTIMECMP id) interval.
Proof.
  cbv zeta. intros Hid Hs1 Hs2 Hc1 Hc2.
  destruct (exec_entry m stack0 Hid Hs1 Hs2) as (E1 & E2 & E3).
  set (m0 := exec_all bare (entry_code stack0) m) in *. clearbody m0.
  unfold start. cbv zeta. set (m2 := set_csr pmpcfg0 _ _).
  assert (csrs m2 mhartid = csrs m mhartid) as Hh by (unfold m2; simpl; by rewrite E1).
  destruct (timerinit_memory m2 scratch timervec) as (T1 & T2 & T3); [by rewrite Hh|done|].
  rewrite Hh in T1, T2, T3. replace (ram m2) with (ram m) in T1 by (unfold m2; by rewrite <- E2).
  set (m3 := timerinit scratch timervec m2) in *.
  assert (csrs m3 mhartid = csrs m mhartid) as H3 by exact Hh.
  assert (csrs m3 mscratch = scratch + 40 * csrs m mhartid) as H4.
  { unfold m3, timerinit. simpl. rewrite E1. by rewrite (i32_small (csrs m mhartid)) by (unfold NCPU in *; lia). }
  cbn [fst snd]. rewrite csrs_set_reg, ram_set_reg, !regs_set by done.
  rewrite decide_True, decide_False by done.
  split; [done|]. split; [done|]. split; [unfold m3, timerinit; simpl; apply mpp_supervisor|].
  do 3 (split; [done|]). split; [rewrite H3, i32_small; [|unfold NCPU in *; lia]; apply u64_small; unfold is_u64, NCPU in *; lia|].
  split; [exact E3|]. split; [done|].
  assert (exists x, csrs m3 mie = Z.lor x MIE_MTIE) as [x ->] by (eexists; reflexivity).
  assert (exists y, csrs m3 mstatus = Z.lor y MSTATUS_MIE) as [y ->] by (eexists; reflexivity).
  rewrite !Z.lor_spec, !orb_true_r. do 2 (split; [done|]).
  split; [exact T1|]. unfold NCPU in *.
  constructor; rewrite ?csrs_set_reg, ?ram_set_reg; try done.
  - unfold CLINT_MTIMECMP, CLINT, is_u64. lia.
  - unfold CLINT_MTIMECMP, CLINT. lia.
Qed.

(** The boot of hart 2, and its first timer interrupt. *)
Definition hart2 : hart := Hart (demo_regs []) (fun c => if decide (c = mhartid) then 2 else 0) ∅.
Definition booted2 : hart := (start 0x80000100 0x80009000 0x80000200 (exec_all bare (entry_code 0x8000a000) hart2)).1.

Lemma start_boots_witness : csrs booted2 mepc = 0x80000100.
Proof.
  refine (proj1 (proj2 (start_boots hart2 0x8000a000 0x80000100 0x80009000 0x80000200 _ _ _ _ _)));
    unfold NCPU; simpl; lia.
Defined.

Definition ticking : hart :=
  Hart (demo_regs [(a1, 11)]) (fun c => if decide (c = mscratch) then 0x80009050 else 0)
    (store64 (store64 ∅ 0x80009068 0x2004010) 0x80009070 interval).
Lemma timervec_transparent_witness : regs (exec_all bare timervec.1 ticking) a1 = 11.
Proof.
  refine (proj1 (proj2 (timervec_transparent ticking 0x80009050 0x2004010 interval _ _)) a1).
  - by apply demo_regs_ok; repeat constructor.
  - constructor; [reflexivity|split; [|split]; unfold is_u64; lia|lia|vm_compute; reflexivity|vm_compute; reflexivity].
Defined.
End Asm.
