(* ===== verification/State.v ===== *)
(** * The kernel state

    The structs of the kernel headers as records, and the state of the whole
    kernel as one record [kstate].  Array elements are addressed by index: a
    [struct proc *] is an index of the process table ([None] is the null
    pointer), likewise files, inodes and buffers.  A [pagetable_t] and a
    [struct trapframe *] are physical addresses, and live in memory.  The
    debugging names of locks are left out.

    The file also has the monad of kernel code.  A kernel function takes the
    state and returns a value and a new state, or panics, or spins for ever,
    or sleeps and is never woken.  [runs m s Q] says that [m], started in [s],
    returns, with a value and a state that satisfy [Q]. *)
From S2P Require Import Prelude Memory Riscv.

(** ** Locks and processors *)

(** The address of a spin lock. *)
Inductive lock_id :=
  | L_kmem | L_pid | L_wait | L_ticks | L_bcache | L_log | L_itable | L_ftable
  | L_cons | L_uart | L_vdisk | L_pr
  | L_proc (i : nat) | L_buf (i : nat) | L_inode (i : nat) | L_pipe (a : Z).

#[export] Instance lock_id_eq_dec : EqDecision lock_id.
Proof. solve_decision. Defined.

Definition lock_id_code (l : lock_id) : Z * Z :=
  match l with
  | L_kmem => (0, 0) | L_pid => (1, 0) | L_wait => (2, 0) | L_ticks => (3, 0)
  | L_bcache => (4, 0) | L_log => (5, 0) | L_itable => (6, 0) | L_ftable => (7, 0)
  | L_cons => (8, 0) | L_uart => (9, 0) | L_vdisk => (10, 0) | L_pr => (11, 0)
  | L_proc i => (12, Z.of_nat i) | L_buf i => (13, Z.of_nat i)
  | L_inode i => (14, Z.of_nat i) | L_pipe a => (15, a)
  end.

#[export] Instance lock_id_countable : Countable lock_id := inj_countable'
  lock_id_code
  (fun c => match c with
            | (0, _) => L_kmem | (1, _) => L_pid | (2, _) => L_wait | (3, _) => L_ticks
            | (4, _) => L_bcache | (5, _) => L_log | (6, _) => L_itable | (7, _) => L_ftable
            | (8, _) => L_cons | (9, _) => L_uart | (10, _) => L_vdisk | (11, _) => L_pr
            | (12, i) => L_proc (Z.to_nat i) | (13, i) => L_buf (Z.to_nat i)
            | (14, i) => L_inode (Z.to_nat i) | (_, a) => L_pipe a
            end)
  ltac:(intros []; simpl; rewrite ?Nat2Z.id; reflexivity).

(** kernel/spinlock.h *)
Record spinlock := Spinlock {
  locked : Z;
  lk_cpu : option nat;
}.
#[export] Instance set_locked : Setter locked := fun f r => Spinlock (f (locked r)) (lk_cpu r).
#[export] Instance set_lk_cpu : Setter lk_cpu := fun f r => Spinlock (locked r) (f (lk_cpu r)).

(** kernel/proc.h, struct cpu.  The saved scheduler context is what [swtch] jumps to. *)
Record cpu := Cpu {
  c_proc : option nat;
  c_noff : Z;
  c_intena : Z;
}.
#[export] Instance set_c_proc : Setter c_proc := fun f r => Cpu (f (c_proc r)) (c_noff r)
  (c_intena r).
#[export] Instance set_c_noff : Setter c_noff := fun f r => Cpu (c_proc r) (f (c_noff r))
  (c_intena r).
#[export] Instance set_c_intena : Setter c_intena := fun f r => Cpu (c_proc r) (c_noff r) (f
  (c_intena r)).

(** The control state: the registers of the hart the code runs on, the
    processors and the locks.  A lock with no entry is as [initlock] left it. *)
Record ctl := Ctl {
  tp : Z;
  sstatus : Z;
  sepc : Z;
  scause : Z;
  stval : Z;
  stvec : Z;
  satp : Z;
  sip : Z;
  cpus : list cpu;
  locks : gmap lock_id spinlock;
}.
#[export] Instance set_tp : Setter tp := fun f r => Ctl (f (tp r)) (sstatus r) (sepc r) (scause
  r) (stval r) (stvec r) (satp r) (sip r) (cpus r) (locks r).
#[export] Instance set_sstatus : Setter sstatus := fun f r => Ctl (tp r) (f (sstatus r)) (sepc
  r) (scause r) (stval r) (stvec r) (satp r) (sip r) (cpus r) (locks r).
#[export] Instance set_sepc : Setter sepc := fun f r => Ctl (tp r) (sstatus r) (f (sepc r))
  (scause r) (stval r) (stvec r) (satp r) (sip r) (cpus r) (locks r).
#[export] Instance set_scause : Setter scause := fun f r => Ctl (tp r) (sstatus r) (sepc r) (f
  (scause r)) (stval r) (stvec r) (satp r) (sip r) (cpus r) (locks r).
#[export] Instance set_stval : Setter stval := fun f r => Ctl (tp r) (sstatus r) (sepc r)
  (scause r) (f (stval r)) (stvec r) (satp r) (sip r) (cpus r) (locks r).
#[export] Instance set_stvec : Setter stvec := fun f r => Ctl (tp r) (sstatus r) (sepc r)
  (scause r) (stval r) (f (stvec r)) (satp r) (sip r) (cpus r) (locks r).
#[export] Instance set_satp : Setter satp := fun f r => Ctl (tp r) (sstatus r) (sepc r) (scause
  r) (stval r) (stvec r) (f (satp r)) (sip r) (cpus r) (locks r).
#[export] Instance set_sip : Setter sip := fun f r => Ctl (tp r) (sstatus r) (sepc r) (scause r)
  (stval r) (stvec r) (satp r) (f (sip r)) (cpus r) (locks r).
#[export] Instance set_cpus : Setter cpus := fun f r => Ctl (tp r) (sstatus r) (sepc r) (scause
  r) (stval r) (stvec r) (satp r) (sip r) (f (cpus r)) (locks r).
#[export] Instance set_locks : Setter locks := fun f r => Ctl (tp r) (sstatus r) (sepc r)
  (scause r) (stval r) (stvec r) (satp r) (sip r) (cpus r) (f (locks r)).

(** ** Memory and the page allocator *)

(** Physical memory, [kmem.freelist] of kernel/kalloc.c and
    [kernel_pagetable] of kernel/vm.c. *)
Record heap := Heap {
  mem : memory;
  freelist : Z;
  kernel_pagetable : Z;
}.
#[export] Instance set_mem : Setter mem := fun f r => Heap (f (mem r)) (freelist r)
  (kernel_pagetable r).
#[export] Instance set_freelist : Setter freelist := fun f r => Heap (mem r) (f (freelist r))
  (kernel_pagetable r).
#[export] Instance set_kernel_pagetable : Setter kernel_pagetable := fun f r => Heap (mem r)
  (freelist r) (f (kernel_pagetable r)).

(** ** Processes (kernel/proc.h) *)
Inductive procstate := UNUSED | USED | SLEEPING | RUNNABLE | RUNNING | ZOMBIE.

#[export] Instance procstate_eq_dec : EqDecision procstate.
Proof. solve_decision. Defined.

(** What a process sleeps on: the address given to [sleep]. *)
Inductive chan :=
  | Ch0 | ChProc (i : nat) | ChTicks | ChLog | ChPipeRead (a : Z) | ChPipeWrite (a : Z)
  | ChBufLock (i : nat) | ChInodeLock (i : nat) | ChCons | ChUart | ChDiskFree | ChBuf (i : nat).

#[export] Instance chan_eq_dec : EqDecision chan.
Proof. solve_decision. Defined.

(** Saved registers; [ctx_s] holds s0 to s11. *)
Record context := Context_ {
  ctx_ra : Z;
  ctx_sp : Z;
  ctx_s : list Z;
}.
#[export] Instance set_ctx_ra : Setter ctx_ra := fun f r => Context_ (f (ctx_ra r)) (ctx_sp r)
  (ctx_s r).
#[export] Instance set_ctx_sp : Setter ctx_sp := fun f r => Context_ (ctx_ra r) (f (ctx_sp r))
  (ctx_s r).
#[export] Instance set_ctx_s : Setter ctx_s := fun f r => Context_ (ctx_ra r) (ctx_sp r) (f
  (ctx_s r)).

(** A mapped file region of a process (mmap lab). *)
Record vma := Vma {
  v_valid : Z;
  v_addr : Z;
  v_len : Z;
  v_f : option nat;
  v_prot : Z;
  v_flags : Z;
  v_fd : Z;
  v_offset : Z;
}.
#[export] Instance set_v_valid : Setter v_valid := fun f r => Vma (f (v_valid r)) (v_addr r)
  (v_len r) (v_f r) (v_prot r) (v_flags r) (v_fd r) (v_offset r).
#[export] Instance set_v_addr : Setter v_addr := fun f r => Vma (v_valid r) (f (v_addr r))
  (v_len r) (v_f r) (v_prot r) (v_flags r) (v_fd r) (v_offset r).
#[export] Instance set_v_len : Setter v_len := fun f r => Vma (v_valid r) (v_addr r) (f (v_len
  r)) (v_f r) (v_prot r) (v_flags r) (v_fd r) (v_offset r).
#[export] Instance set_v_f : Setter v_f := fun f r => Vma (v_valid r) (v_addr r) (v_len r) (f
  (v_f r)) (v_prot r) (v_flags r) (v_fd r) (v_offset r).
#[export] Instance set_v_prot : Setter v_prot := fun f r => Vma (v_valid r) (v_addr r) (v_len r)
  (v_f r) (f (v_prot r)) (v_flags r) (v_fd r) (v_offset r).
#[export] Instance set_v_flags : Setter v_flags := fun f r => Vma (v_valid r) (v_addr r) (v_len
  r) (v_f r) (v_prot r) (f (v_flags r)) (v_fd r) (v_offset r).
#[export] Instance set_v_fd : Setter v_fd := fun f r => Vma (v_valid r) (v_addr r) (v_len r)
  (v_f r) (v_prot r) (v_flags r) (f (v_fd r)) (v_offset r).
#[export] Instance set_v_offset : Setter v_offset := fun f r => Vma (v_valid r) (v_addr r)
  (v_len r) (v_f r) (v_prot r) (v_flags r) (v_fd r) (f (v_offset r)).

Definition VMASIZE : nat := 16.

(** struct proc. *)
Record proc := Proc {
  p_state : procstate;
  p_chan : chan;
  p_killed : Z;
  p_xstate : Z;
  p_pid : Z;
  p_parent : option nat;
  p_kstack : Z;
  p_sz : Z;
  p_pagetable : Z;
  p_trapframe : Z;
  p_context : context;
  p_ofile : list (option nat);
  p_cwd : option nat;
  p_name : list Z;
  p_vma : list vma;
}.
#[export] Instance set_p_state : Setter p_state := fun f r => Proc (f (p_state r)) (p_chan r)
  (p_killed r) (p_xstate r) (p_pid r) (p_parent r) (p_kstack r) (p_sz r) (p_pagetable r)
  (p_trapframe r) (p_context r) (p_ofile r) (p_cwd r) (p_name r) (p_vma r).
#[export] Instance set_p_chan : Setter p_chan := fun f r => Proc (p_state r) (f (p_chan r))
  (p_killed r) (p_xstate r) (p_pid r) (p_parent r) (p_kstack r) (p_sz r) (p_pagetable r)
  (p_trapframe r) (p_context r) (p_ofile r) (p_cwd r) (p_name r) (p_vma r).
#[export] Instance set_p_killed : Setter p_killed := fun f r => Proc (p_state r) (p_chan r) (f
  (p_killed r)) (p_xstate r) (p_pid r) (p_parent r) (p_kstack r) (p_sz r) (p_pagetable r)
  (p_trapframe r) (p_context r) (p_ofile r) (p_cwd r) (p_name r) (p_vma r).
#[export] Instance set_p_xstate : Setter p_xstate := fun f r => Proc (p_state r) (p_chan r)
  (p_killed r) (f (p_xstate r)) (p_pid r) (p_parent r) (p_kstack r) (p_sz r) (p_pagetable r)
  (p_trapframe r) (p_context r) (p_ofile r) (p_cwd r) (p_name r) (p_vma r).
#[export] Instance set_p_pid : Setter p_pid := fun f r => Proc (p_state r) (p_chan r) (p_killed
  r) (p_xstate r) (f (p_pid r)) (p_parent r) (p_kstack r) (p_sz r) (p_pagetable r) (p_trapframe
  r) (p_context r) (p_ofile r) (p_cwd r) (p_name r) (p_vma r).
#[export] Instance set_p_parent : Setter p_parent := fun f r => Proc (p_state r) (p_chan r)
  (p_killed r) (p_xstate r) (p_pid r) (f (p_parent r)) (p_kstack r) (p_sz r) (p_pagetable r)
  (p_trapframe r) (p_context r) (p_ofile r) (p_cwd r) (p_name r) (p_vma r).
#[export] Instance set_p_kstack : Setter p_kstack := fun f r => Proc (p_state r) (p_chan r)
  (p_killed r) (p_xstate r) (p_pid r) (p_parent r) (f (p_kstack r)) (p_sz r) (p_pagetable r)
  (p_trapframe r) (p_context r) (p_ofile r) (p_cwd r) (p_name r) (p_vma r).
#[export] Instance set_p_sz : Setter p_sz := fun f r => Proc (p_state r) (p_chan r) (p_killed r)
  (p_xstate r) (p_pid r) (p_parent r) (p_kstack r) (f (p_sz r)) (p_pagetable r) (p_trapframe r)
  (p_context r) (p_ofile r) (p_cwd r) (p_name r) (p_vma r).
#[export] Instance set_p_pagetable : Setter p_pagetable := fun f r => Proc (p_state r) (p_chan
  r) (p_killed r) (p_xstate r) (p_pid r) (p_parent r) (p_kstack r) (p_sz r) (f (p_pagetable r))
  (p_trapframe r) (p_context r) (p_ofile r) (p_cwd r) (p_name r) (p_vma r).
#[export] Instance set_p_trapframe : Setter p_trapframe := fun f r => Proc (p_state r) (p_chan
  r) (p_killed r) (p_xstate r) (p_pid r) (p_parent r) (p_kstack r) (p_sz r) (p_pagetable r) (f
  (p_trapframe r)) (p_context r) (p_ofile r) (p_cwd r) (p_name r) (p_vma r).
#[export] Instance set_p_context : Setter p_context := fun f r => Proc (p_state r) (p_chan r)
  (p_killed r) (p_xstate r) (p_pid r) (p_parent r) (p_kstack r) (p_sz r) (p_pagetable r)
  (p_trapframe r) (f (p_context r)) (p_ofile r) (p_cwd r) (p_name r) (p_vma r).
#[export] Instance set_p_ofile : Setter p_ofile := fun f r => Proc (p_state r) (p_chan r)
  (p_killed r) (p_xstate r) (p_pid r) (p_parent r) (p_kstack r) (p_sz r) (p_pagetable r)
  (p_trapframe r) (p_context r) (f (p_ofile r)) (p_cwd r) (p_name r) (p_vma r).
#[export] Instance set_p_cwd : Setter p_cwd := fun f r => Proc (p_state r) (p_chan r) (p_killed
  r) (p_xstate r) (p_pid r) (p_parent r) (p_kstack r) (p_sz r) (p_pagetable r) (p_trapframe r)
  (p_context r) (p_ofile r) (f (p_cwd r)) (p_name r) (p_vma r).
#[export] Instance set_p_name : Setter p_name := fun f r => Proc (p_state r) (p_chan r)
  (p_killed r) (p_xstate r) (p_pid r) (p_parent r) (p_kstack r) (p_sz r) (p_pagetable r)
  (p_trapframe r) (p_context r) (p_ofile r) (p_cwd r) (f (p_name r)) (p_vma r).
#[export] Instance set_p_vma : Setter p_vma := fun f r => Proc (p_state r) (p_chan r) (p_killed
  r) (p_xstate r) (p_pid r) (p_parent r) (p_kstack r) (p_sz r) (p_pagetable r) (p_trapframe r)
  (p_context r) (p_ofile r) (p_cwd r) (p_name r) (f (p_vma r)).

(** The globals of kernel/proc.c ([first] is a static of [forkret]), and the
    tick counter of kernel/trap.c. *)
Record ptable := Ptable {
  procs : list proc;
  initproc : option nat;
  nextpid : Z;
  forkret_first : Z;
  ticks : Z;
}.
#[export] Instance set_procs : Setter procs := fun f r => Ptable (f (procs r)) (initproc r)
  (nextpid r) (forkret_first r) (ticks r).
#[export] Instance set_initproc : Setter initproc := fun f r => Ptable (procs r) (f (initproc
  r)) (nextpid r) (forkret_first r) (ticks r).
#[export] Instance set_nextpid : Setter nextpid := fun f r => Ptable (procs r) (initproc r) (f
  (nextpid r)) (forkret_first r) (ticks r).
#[export] Instance set_forkret_first : Setter forkret_first := fun f r => Ptable (procs r)
  (initproc r) (nextpid r) (f (forkret_first r)) (ticks r).
#[export] Instance set_ticks : Setter ticks := fun f r => Ptable (procs r) (initproc r) (nextpid
  r) (forkret_first r) (f (ticks r)).

(** ** Files and pipes (kernel/file.h, kernel/pipe.c) *)
Inductive filetype := FD_NONE | FD_PIPE | FD_INODE | FD_DEVICE.

#[export] Instance filetype_eq_dec : EqDecision filetype.
Proof. solve_decision. Defined.

(** struct file. *)
Record file := File {
  f_type : filetype;
  f_ref : Z;
  f_readable : Z;
  f_writable : Z;
  f_pipe : Z;
  f_ip : option nat;
  f_off : Z;
  f_major : Z;
}.
#[export] Instance set_f_type : Setter f_type := fun f r => File (f (f_type r)) (f_ref r)
  (f_readable r) (f_writable r) (f_pipe r) (f_ip r) (f_off r) (f_major r).
#[export] Instance set_f_ref : Setter f_ref := fun f r => File (f_type r) (f (f_ref r))
  (f_readable r) (f_writable r) (f_pipe r) (f_ip r) (f_off r) (f_major r).
#[export] Instance set_f_readable : Setter f_readable := fun f r => File (f_type r) (f_ref r) (f
  (f_readable r)) (f_writable r) (f_pipe r) (f_ip r) (f_off r) (f_major r).
#[export] Instance set_f_writable : Setter f_writable := fun f r => File (f_type r) (f_ref r)
  (f_readable r) (f (f_writable r)) (f_pipe r) (f_ip r) (f_off r) (f_major r).
#[export] Instance set_f_pipe : Setter f_pipe := fun f r => File (f_type r) (f_ref r)
  (f_readable r) (f_writable r) (f (f_pipe r)) (f_ip r) (f_off r) (f_major r).
#[export] Instance set_f_ip : Setter f_ip := fun f r => File (f_type r) (f_ref r) (f_readable r)
  (f_writable r) (f_pipe r) (f (f_ip r)) (f_off r) (f_major r).
#[export] Instance set_f_off : Setter f_off := fun f r => File (f_type r) (f_ref r) (f_readable
  r) (f_writable r) (f_pipe r) (f_ip r) (f (f_off r)) (f_major r).
#[export] Instance set_f_major : Setter f_major := fun f r => File (f_type r) (f_ref r)
  (f_readable r) (f_writable r) (f_pipe r) (f_ip r) (f_off r) (f (f_major r)).

(** struct pipe. *)
Record pipe := Pipe {
  pi_data : list Z;
  pi_nread : Z;
  pi_nwrite : Z;
  pi_readopen : Z;
  pi_writeopen : Z;
}.
#[export] Instance set_pi_data : Setter pi_data := fun f r => Pipe (f (pi_data r)) (pi_nread r)
  (pi_nwrite r) (pi_readopen r) (pi_writeopen r).
#[export] Instance set_pi_nread : Setter pi_nread := fun f r => Pipe (pi_data r) (f (pi_nread
  r)) (pi_nwrite r) (pi_readopen r) (pi_writeopen r).
#[export] Instance set_pi_nwrite : Setter pi_nwrite := fun f r => Pipe (pi_data r) (pi_nread r)
  (f (pi_nwrite r)) (pi_readopen r) (pi_writeopen r).
#[export] Instance set_pi_readopen : Setter pi_readopen := fun f r => Pipe (pi_data r) (pi_nread
  r) (pi_nwrite r) (f (pi_readopen r)) (pi_writeopen r).
#[export] Instance set_pi_writeopen : Setter pi_writeopen := fun f r => Pipe (pi_data r)
  (pi_nread r) (pi_nwrite r) (pi_readopen r) (f (pi_writeopen r)).

(** The file table, and the pipes by the address of the page they occupy. *)
Record ftable := Ftable {
  files : list file;
  pipes : gmap Z pipe;
}.
#[export] Instance set_files : Setter files := fun f r => Ftable (f (files r)) (pipes r).
#[export] Instance set_pipes : Setter pipes := fun f r => Ftable (files r) (f (pipes r)).

(** ** Disk, buffer cache, log and inodes (kernel/buf.h, log.c, fs.h, file.h) *)
Definition BSIZE : Z := 1024.
Definition NDIRECT : nat := 12.

(** kernel/sleeplock.h, less the spin lock inside, which is [L_buf i] or [L_inode i]. *)
Record sleeplock := Sleeplock {
  sl_locked : Z;
  sl_pid : Z;
}.
#[export] Instance set_sl_locked : Setter sl_locked := fun f r => Sleeplock (f (sl_locked r))
  (sl_pid r).
#[export] Instance set_sl_pid : Setter sl_pid := fun f r => Sleeplock (sl_locked r) (f (sl_pid
  r)).

(** struct buf.  Link [NBUF] is the list head [bcache.head]. *)
Record buf := Buf {
  b_valid : Z;
  b_disk : Z;
  b_dev : Z;
  b_blockno : Z;
  b_lock : sleeplock;
  b_refcnt : Z;
  b_prev : nat;
  b_next : nat;
  b_data : list Z;
}.
#[export] Instance set_b_valid : Setter b_valid := fun f r => Buf (f (b_valid r)) (b_disk r)
  (b_dev r) (b_blockno r) (b_lock r) (b_refcnt r) (b_prev r) (b_next r) (b_data r).
#[export] Instance set_b_disk : Setter b_disk := fun f r => Buf (b_valid r) (f (b_disk r))
  (b_dev r) (b_blockno r) (b_lock r) (b_refcnt r) (b_prev r) (b_next r) (b_data r).
#[export] Instance set_b_dev : Setter b_dev := fun f r => Buf (b_valid r) (b_disk r) (f (b_dev
  r)) (b_blockno r) (b_lock r) (b_refcnt r) (b_prev r) (b_next r) (b_data r).
#[export] Instance set_b_blockno : Setter b_blockno := fun f r => Buf (b_valid r) (b_disk r)
  (b_dev r) (f (b_blockno r)) (b_lock r) (b_refcnt r) (b_prev r) (b_next r) (b_data r).
#[export] Instance set_b_lock : Setter b_lock := fun f r => Buf (b_valid r) (b_disk r) (b_dev r)
  (b_blockno r) (f (b_lock r)) (b_refcnt r) (b_prev r) (b_next r) (b_data r).
#[export] Instance set_b_refcnt : Setter b_refcnt := fun f r => Buf (b_valid r) (b_disk r)
  (b_dev r) (b_blockno r) (b_lock r) (f (b_refcnt r)) (b_prev r) (b_next r) (b_data r).
#[export] Instance set_b_prev : Setter b_prev := fun f r => Buf (b_valid r) (b_disk r) (b_dev r)
  (b_blockno r) (b_lock r) (b_refcnt r) (f (b_prev r)) (b_next r) (b_data r).
#[export] Instance set_b_next : Setter b_next := fun f r => Buf (b_valid r) (b_disk r) (b_dev r)
  (b_blockno r) (b_lock r) (b_refcnt r) (b_prev r) (f (b_next r)) (b_data r).
#[export] Instance set_b_data : Setter b_data := fun f r => Buf (b_valid r) (b_disk r) (b_dev r)
  (b_blockno r) (b_lock r) (b_refcnt r) (b_prev r) (b_next r) (f (b_data r)).

(** struct superblock. *)
Record superblock := Superblock {
  sb_magic : Z;
  sb_size : Z;
  sb_nblocks : Z;
  sb_ninodes : Z;
  sb_nlog : Z;
  sb_logstart : Z;
  sb_inodestart : Z;
  sb_bmapstart : Z;
}.
#[export] Instance set_sb_magic : Setter sb_magic := fun f r => Superblock (f (sb_magic r))
  (sb_size r) (sb_nblocks r) (sb_ninodes r) (sb_nlog r) (sb_logstart r) (sb_inodestart r)
  (sb_bmapstart r).
#[export] Instance set_sb_size : Setter sb_size := fun f r => Superblock (sb_magic r) (f
  (sb_size r)) (sb_nblocks r) (sb_ninodes r) (sb_nlog r) (sb_logstart r) (sb_inodestart r)
  (sb_bmapstart r).
#[export] Instance set_sb_nblocks : Setter sb_nblocks := fun f r => Superblock (sb_magic r)
  (sb_size r) (f (sb_nblocks r)) (sb_ninodes r) (sb_nlog r) (sb_logstart r) (sb_inodestart r)
  (sb_bmapstart r).
#[export] Instance set_sb_ninodes : Setter sb_ninodes := fun f r => Superblock (sb_magic r)
  (sb_size r) (sb_nblocks r) (f (sb_ninodes r)) (sb_nlog r) (sb_logstart r) (sb_inodestart r)
  (sb_bmapstart r).
#[export] Instance set_sb_nlog : Setter sb_nlog := fun f r => Superblock (sb_magic r) (sb_size
  r) (sb_nblocks r) (sb_ninodes r) (f (sb_nlog r)) (sb_logstart r) (sb_inodestart r)
  (sb_bmapstart r).
#[export] Instance set_sb_logstart : Setter sb_logstart := fun f r => Superblock (sb_magic r)
  (sb_size r) (sb_nblocks r) (sb_ninodes r) (sb_nlog r) (f (sb_logstart r)) (sb_inodestart r)
  (sb_bmapstart r).
#[export] Instance set_sb_inodestart : Setter sb_inodestart := fun f r => Superblock (sb_magic
  r) (sb_size r) (sb_nblocks r) (sb_ninodes r) (sb_nlog r) (sb_logstart r) (f (sb_inodestart r))
  (sb_bmapstart r).
#[export] Instance set_sb_bmapstart : Setter sb_bmapstart := fun f r => Superblock (sb_magic r)
  (sb_size r) (sb_nblocks r) (sb_ninodes r) (sb_nlog r) (sb_logstart r) (sb_inodestart r) (f
  (sb_bmapstart r)).

(** struct log, with the fields of struct logheader. *)
Record logstate := Log {
  log_start : Z;
  log_size : Z;
  log_outstanding : Z;
  log_committing : Z;
  log_dev : Z;
  lh_n : Z;
  lh_block : list Z;
}.
#[export] Instance set_log_start : Setter log_start := fun f r => Log (f (log_start r))
  (log_size r) (log_outstanding r) (log_committing r) (log_dev r) (lh_n r) (lh_block r).
#[export] Instance set_log_size : Setter log_size := fun f r => Log (log_start r) (f (log_size
  r)) (log_outstanding r) (log_committing r) (log_dev r) (lh_n r) (lh_block r).
#[export] Instance set_log_outstanding : Setter log_outstanding := fun f r => Log (log_start r)
  (log_size r) (f (log_outstanding r)) (log_committing r) (log_dev r) (lh_n r) (lh_block r).
#[export] Instance set_log_committing : Setter log_committing := fun f r => Log (log_start r)
  (log_size r) (log_outstanding r) (f (log_committing r)) (log_dev r) (lh_n r) (lh_block r).
#[export] Instance set_log_dev : Setter log_dev := fun f r => Log (log_start r) (log_size r)
  (log_outstanding r) (log_committing r) (f (log_dev r)) (lh_n r) (lh_block r).
#[export] Instance set_lh_n : Setter lh_n := fun f r => Log (log_start r) (log_size r)
  (log_outstanding r) (log_committing r) (log_dev r) (f (lh_n r)) (lh_block r).
#[export] Instance set_lh_block : Setter lh_block := fun f r => Log (log_start r) (log_size r)
  (log_outstanding r) (log_committing r) (log_dev r) (lh_n r) (f (lh_block r)).

(** struct inode. *)
Record inode := Inode {
  i_dev : Z;
  i_inum : Z;
  i_ref : Z;
  i_lock : sleeplock;
  i_valid : Z;
  i_type : Z;
  i_major : Z;
  i_minor : Z;
  i_nlink : Z;
  i_size : Z;
  i_addrs : list Z;
}.
#[export] Instance set_i_dev : Setter i_dev := fun f r => Inode (f (i_dev r)) (i_inum r) (i_ref
  r) (i_lock r) (i_valid r) (i_type r) (i_major r) (i_minor r) (i_nlink r) (i_size r) (i_addrs
  r).
#[export] Instance set_i_inum : Setter i_inum := fun f r => Inode (i_dev r) (f (i_inum r))
  (i_ref r) (i_lock r) (i_valid r) (i_type r) (i_major r) (i_minor r) (i_nlink r) (i_size r)
  (i_addrs r).
#[export] Instance set_i_ref : Setter i_ref := fun f r => Inode (i_dev r) (i_inum r) (f (i_ref
  r)) (i_lock r) (i_valid r) (i_type r) (i_major r) (i_minor r) (i_nlink r) (i_size r) (i_addrs
  r).
#[export] Instance set_i_lock : Setter i_lock := fun f r => Inode (i_dev r) (i_inum r) (i_ref r)
  (f (i_lock r)) (i_valid r) (i_type r) (i_major r) (i_minor r) (i_nlink r) (i_size r) (i_addrs
  r).
#[export] Instance set_i_valid : Setter i_valid := fun f r => Inode (i_dev r) (i_inum r) (i_ref
  r) (i_lock r) (f (i_valid r)) (i_type r) (i_major r) (i_minor r) (i_nlink r) (i_size r)
  (i_addrs r).
#[export] Instance set_i_type : Setter i_type := fun f r => Inode (i_dev r) (i_inum r) (i_ref r)
  (i_lock r) (i_valid r) (f (i_type r)) (i_major r) (i_minor r) (i_nlink r) (i_size r) (i_addrs
  r).
#[export] Instance set_i_major : Setter i_major := fun f r => Inode (i_dev r) (i_inum r) (i_ref
  r) (i_lock r) (i_valid r) (i_type r) (f (i_major r)) (i_minor r) (i_nlink r) (i_size r)
  (i_addrs r).
#[export] Instance set_i_minor : Setter i_minor := fun f r => Inode (i_dev r) (i_inum r) (i_ref
  r) (i_lock r) (i_valid r) (i_type r) (i_major r) (f (i_minor r)) (i_nlink r) (i_size r)
  (i_addrs r).
#[export] Instance set_i_nlink : Setter i_nlink := fun f r => Inode (i_dev r) (i_inum r) (i_ref
  r) (i_lock r) (i_valid r) (i_type r) (i_major r) (i_minor r) (f (i_nlink r)) (i_size r)
  (i_addrs r).
#[export] Instance set_i_size : Setter i_size := fun f r => Inode (i_dev r) (i_inum r) (i_ref r)
  (i_lock r) (i_valid r) (i_type r) (i_major r) (i_minor r) (i_nlink r) (f (i_size r)) (i_addrs
  r).
#[export] Instance set_i_addrs : Setter i_addrs := fun f r => Inode (i_dev r) (i_inum r) (i_ref
  r) (i_lock r) (i_valid r) (i_type r) (i_major r) (i_minor r) (i_nlink r) (i_size r) (f
  (i_addrs r)).

(** The disk contents by block, the writes the disk has completed (the last
    one first), and the globals of bio.c (the last buffer is [bcache.head]),
    log.c and fs.c. *)
Record fsys := Fsys {
  disk : gmap Z (list Z);
  writes : list (Z * list Z);
  bufs : list buf;
  log : logstate;
  sb : superblock;
  itable : list inode;
}.
#[export] Instance set_disk : Setter disk := fun f r => Fsys (f (disk r)) (writes r) (bufs r)
  (log r) (sb r) (itable r).
#[export] Instance set_writes : Setter writes := fun f r => Fsys (disk r) (f (writes r)) (bufs
  r) (log r) (sb r) (itable r).
#[export] Instance set_bufs : Setter bufs := fun f r => Fsys (disk r) (writes r) (f (bufs r))
  (log r) (sb r) (itable r).
#[export] Instance set_log : Setter log := fun f r => Fsys (disk r) (writes r) (bufs r) (f (log
  r)) (sb r) (itable r).
#[export] Instance set_sb : Setter sb := fun f r => Fsys (disk r) (writes r) (bufs r) (log r) (f
  (sb r)) (itable r).
#[export] Instance set_itable : Setter itable := fun f r => Fsys (disk r) (writes r) (bufs r)
  (log r) (sb r) (f (itable r)).

(** ** Devices (kernel/virtio_disk.c, uart.c, console.c, printf.c) *)

(** The addresses that a descriptor of the disk queue can have. *)
Inductive dma := Dma0 | DmaOp (i : nat) | DmaData (b : nat) | DmaStatus (i : nat).

(** kernel/virtio.h, struct virtq_desc. *)
Record virtq_desc := VirtqDesc {
  d_addr : dma;
  d_len : Z;
  d_flags : Z;
  d_next : Z;
}.
#[export] Instance set_d_addr : Setter d_addr := fun f r => VirtqDesc (f (d_addr r)) (d_len r)
  (d_flags r) (d_next r).
#[export] Instance set_d_len : Setter d_len := fun f r => VirtqDesc (d_addr r) (f (d_len r))
  (d_flags r) (d_next r).
#[export] Instance set_d_flags : Setter d_flags := fun f r => VirtqDesc (d_addr r) (d_len r) (f
  (d_flags r)) (d_next r).
#[export] Instance set_d_next : Setter d_next := fun f r => VirtqDesc (d_addr r) (d_len r)
  (d_flags r) (f (d_next r)).

(** struct virtio_blk_req. *)
Record virtio_blk_req := VirtioBlkReq {
  r_type : Z;
  r_reserved : Z;
  r_sector : Z;
}.
#[export] Instance set_r_type : Setter r_type := fun f r => VirtioBlkReq (f (r_type r))
  (r_reserved r) (r_sector r).
#[export] Instance set_r_reserved : Setter r_reserved := fun f r => VirtioBlkReq (r_type r) (f
  (r_reserved r)) (r_sector r).
#[export] Instance set_r_sector : Setter r_sector := fun f r => VirtioBlkReq (r_type r)
  (r_reserved r) (f (r_sector r)).

(** An element of [disk.info]. *)
Record vinfo := Vinfo {
  in_b : option nat;
  in_status : Z;
}.
#[export] Instance set_in_b : Setter in_b := fun f r => Vinfo (f (in_b r)) (in_status r).
#[export] Instance set_in_status : Setter in_status := fun f r => Vinfo (in_b r) (f (in_status
  r)).

(** struct disk: the three regions shared with the device, and the driver's own
    book-keeping. *)
Record vdisk := Vdisk {
  vd_desc : list virtq_desc;
  avail_idx : Z;
  avail_ring : list Z;
  dev_used_idx : Z;  (* disk.used->idx *)
  used_ring : list Z;
  vd_free : list Z;
  vd_used_idx : Z;  (* disk.used_idx *)
  vd_info : list vinfo;
  vd_ops : list virtio_blk_req;
}.
#[export] Instance set_vd_desc : Setter vd_desc := fun f r => Vdisk (f (vd_desc r)) (avail_idx
  r) (avail_ring r) (dev_used_idx r) (used_ring r) (vd_free r) (vd_used_idx r) (vd_info r)
  (vd_ops r).
#[export] Instance set_avail_idx : Setter avail_idx := fun f r => Vdisk (vd_desc r) (f
  (avail_idx r)) (avail_ring r) (dev_used_idx r) (used_ring r) (vd_free r) (vd_used_idx r)
  (vd_info r) (vd_ops r).
#[export] Instance set_avail_ring : Setter avail_ring := fun f r => Vdisk (vd_desc r) (avail_idx
  r) (f (avail_ring r)) (dev_used_idx r) (used_ring r) (vd_free r) (vd_used_idx r) (vd_info r)
  (vd_ops r).
#[export] Instance set_dev_used_idx : Setter dev_used_idx := fun f r => Vdisk (vd_desc r)
  (avail_idx r) (avail_ring r) (f (dev_used_idx r)) (used_ring r) (vd_free r) (vd_used_idx r)
  (vd_info r) (vd_ops r).
#[export] Instance set_used_ring : Setter used_ring := fun f r => Vdisk (vd_desc r) (avail_idx
  r) (avail_ring r) (dev_used_idx r) (f (used_ring r)) (vd_free r) (vd_used_idx r) (vd_info r)
  (vd_ops r).
#[export] Instance set_vd_free : Setter vd_free := fun f r => Vdisk (vd_desc r) (avail_idx r)
  (avail_ring r) (dev_used_idx r) (used_ring r) (f (vd_free r)) (vd_used_idx r) (vd_info r)
  (vd_ops r).
#[export] Instance set_vd_used_idx : Setter vd_used_idx := fun f r => Vdisk (vd_desc r)
  (avail_idx r) (avail_ring r) (dev_used_idx r) (used_ring r) (vd_free r) (f (vd_used_idx r))
  (vd_info r) (vd_ops r).
#[export] Instance set_vd_info : Setter vd_info := fun f r => Vdisk (vd_desc r) (avail_idx r)
  (avail_ring r) (dev_used_idx r) (used_ring r) (vd_free r) (vd_used_idx r) (f (vd_info r))
  (vd_ops r).
#[export] Instance set_vd_ops : Setter vd_ops := fun f r => Vdisk (vd_desc r) (avail_idx r)
  (avail_ring r) (dev_used_idx r) (used_ring r) (vd_free r) (vd_used_idx r) (vd_info r) (f
  (vd_ops r)).

(** The functions that an entry of [devsw] points to. *)
Inductive devops := DevNone | DevConsole.

(** What has been written to device registers (address and value, the last one
    first), how many register reads there were, and the globals of uart.c,
    console.c, printf.c, file.c ([devsw]) and main.c ([started]). *)
Record devs := Devs {
  mmio : list (Z * Z);
  reads : nat;
  uart_tx_buf : list Z;
  uart_tx_w : Z;
  uart_tx_r : Z;
  cons_buf : list Z;
  cons_r : Z;
  cons_w : Z;
  cons_e : Z;
  panicked : Z;
  pr_locking : Z;
  devsw : list devops;
  started : Z;
}.
#[export] Instance set_mmio : Setter mmio := fun f r => Devs (f (mmio r)) (reads r) (uart_tx_buf
  r) (uart_tx_w r) (uart_tx_r r) (cons_buf r) (cons_r r) (cons_w r) (cons_e r) (panicked r)
  (pr_locking r) (devsw r) (started r).
#[export] Instance set_reads : Setter reads := fun f r => Devs (mmio r) (f (reads r))
  (uart_tx_buf r) (uart_tx_w r) (uart_tx_r r) (cons_buf r) (cons_r r) (cons_w r) (cons_e r)
  (panicked r) (pr_locking r) (devsw r) (started r).
#[export] Instance set_uart_tx_buf : Setter uart_tx_buf := fun f r => Devs (mmio r) (reads r) (f
  (uart_tx_buf r)) (uart_tx_w r) (uart_tx_r r) (cons_buf r) (cons_r r) (cons_w r) (cons_e r)
  (panicked r) (pr_locking r) (devsw r) (started r).
#[export] Instance set_uart_tx_w : Setter uart_tx_w := fun f r => Devs (mmio r) (reads r)
  (uart_tx_buf r) (f (uart_tx_w r)) (uart_tx_r r) (cons_buf r) (cons_r r) (cons_w r) (cons_e r)
  (panicked r) (pr_locking r) (devsw r) (started r).
#[export] Instance set_uart_tx_r : Setter uart_tx_r := fun f r => Devs (mmio r) (reads r)
  (uart_tx_buf r) (uart_tx_w r) (f (uart_tx_r r)) (cons_buf r) (cons_r r) (cons_w r) (cons_e r)
  (panicked r) (pr_locking r) (devsw r) (started r).
#[export] Instance set_cons_buf : Setter cons_buf := fun f r => Devs (mmio r) (reads r)
  (uart_tx_buf r) (uart_tx_w r) (uart_tx_r r) (f (cons_buf r)) (cons_r r) (cons_w r) (cons_e r)
  (panicked r) (pr_locking r) (devsw r) (started r).
#[export] Instance set_cons_r : Setter cons_r := fun f r => Devs (mmio r) (reads r) (uart_tx_buf
  r) (uart_tx_w r) (uart_tx_r r) (cons_buf r) (f (cons_r r)) (cons_w r) (cons_e r) (panicked r)
  (pr_locking r) (devsw r) (started r).
#[export] Instance set_cons_w : Setter cons_w := fun f r => Devs (mmio r) (reads r) (uart_tx_buf
  r) (uart_tx_w r) (uart_tx_r r) (cons_buf r) (cons_r r) (f (cons_w r)) (cons_e r) (panicked r)
  (pr_locking r) (devsw r) (started r).
#[export] Instance set_cons_e : Setter cons_e := fun f r => Devs (mmio r) (reads r) (uart_tx_buf
  r) (uart_tx_w r) (uart_tx_r r) (cons_buf r) (cons_r r) (cons_w r) (f (cons_e r)) (panicked r)
  (pr_locking r) (devsw r) (started r).
#[export] Instance set_panicked : Setter panicked := fun f r => Devs (mmio r) (reads r)
  (uart_tx_buf r) (uart_tx_w r) (uart_tx_r r) (cons_buf r) (cons_r r) (cons_w r) (cons_e r) (f
  (panicked r)) (pr_locking r) (devsw r) (started r).
#[export] Instance set_pr_locking : Setter pr_locking := fun f r => Devs (mmio r) (reads r)
  (uart_tx_buf r) (uart_tx_w r) (uart_tx_r r) (cons_buf r) (cons_r r) (cons_w r) (cons_e r)
  (panicked r) (f (pr_locking r)) (devsw r) (started r).
#[export] Instance set_devsw : Setter devsw := fun f r => Devs (mmio r) (reads r) (uart_tx_buf
  r) (uart_tx_w r) (uart_tx_r r) (cons_buf r) (cons_r r) (cons_w r) (cons_e r) (panicked r)
  (pr_locking r) (f (devsw r)) (started r).
#[export] Instance set_started : Setter started := fun f r => Devs (mmio r) (reads r)
  (uart_tx_buf r) (uart_tx_w r) (uart_tx_r r) (cons_buf r) (cons_r r) (cons_w r) (cons_e r)
  (panicked r) (pr_locking r) (devsw r) (f (started r)).

(** ** The whole kernel *)

Record kstate := KState {
  k_ctl : ctl;
  k_heap : heap;
  k_pt : ptable;
  k_ft : ftable;
  k_fs : fsys;
  k_vd : vdisk;
  k_dev : devs;
  k_switches : nat;  (* context switches so far *)
}.
#[export] Instance set_k_ctl : Setter k_ctl := fun f r => KState (f (k_ctl r)) (k_heap r) (k_pt
  r) (k_ft r) (k_fs r) (k_vd r) (k_dev r) (k_switches r).
#[export] Instance set_k_heap : Setter k_heap := fun f r => KState (k_ctl r) (f (k_heap r))
  (k_pt r) (k_ft r) (k_fs r) (k_vd r) (k_dev r) (k_switches r).
#[export] Instance set_k_pt : Setter k_pt := fun f r => KState (k_ctl r) (k_heap r) (f (k_pt r))
  (k_ft r) (k_fs r) (k_vd r) (k_dev r) (k_switches r).
#[export] Instance set_k_ft : Setter k_ft := fun f r => KState (k_ctl r) (k_heap r) (k_pt r) (f
  (k_ft r)) (k_fs r) (k_vd r) (k_dev r) (k_switches r).
#[export] Instance set_k_fs : Setter k_fs := fun f r => KState (k_ctl r) (k_heap r) (k_pt r)
  (k_ft r) (f (k_fs r)) (k_vd r) (k_dev r) (k_switches r).
#[export] Instance set_k_vd : Setter k_vd := fun f r => KState (k_ctl r) (k_heap r) (k_pt r)
  (k_ft r) (k_fs r) (f (k_vd r)) (k_dev r) (k_switches r).
#[export] Instance set_k_dev : Setter k_dev := fun f r => KState (k_ctl r) (k_heap r) (k_pt r)
  (k_ft r) (k_fs r) (k_vd r) (f (k_dev r)) (k_switches r).
#[export] Instance set_k_switches : Setter k_switches := fun f r => KState (k_ctl r) (k_heap r)
  (k_pt r) (k_ft r) (k_fs r) (k_vd r) (k_dev r) (f (k_switches r)).

(** A kernel with empty tables, with given control state and memory. *)
Definition blank (c : ctl) (h : heap) : kstate :=
  KState c h (Ptable [] None 1 1 0) (Ftable [] ∅)
    (Fsys ∅ [] [] (Log 0 0 0 0 0 0 []) (Superblock 0 0 0 0 0 0 0 0) [])
    (Vdisk [] 0 [] 0 [] [] 0 [] []) (Devs [] 0 [] 0 0 [] 0 0 0 0 0 [] 0) 0.

(** ** The monad of kernel code *)
Inductive outcome (A : Type) : Type :=
  | Ret (a : A) (s : kstate)
  | Panic (msg : string)  (* panic() prints and loops *)
  | Spin                  (* waits for ever for a lock held by this or another hart *)
  | Blocked.              (* asleep, and never scheduled again *)
Arguments Ret {A}.
Arguments Panic {A}.
Arguments Spin {A}.
Arguments Blocked {A}.

Definition M (A : Type) : Type := kstate -> outcome A.

#[export] Instance M_ret : MRet M := fun A a s => Ret a s.
#[export] Instance M_bind : MBind M := fun A B k m s =>
  match m s with
  | Ret a s => k a s
  | Panic msg => Panic msg
  | Spin => Spin
  | Blocked => Blocked
  end.
#[export] Instance M_fmap : FMap M := fun A B f m => a ← m; mret (f a).

Definition gets {A} (f : kstate -> A) : M A := fun s => Ret (f s) s.
Definition modify (f : kstate -> kstate) : M unit := fun s => Ret tt (f s).
Definition panic {A} (msg : string) : M A := fun _ => Panic msg.
Definition spin {A} : M A := fun _ => Spin.

(** Run [body] on every element of a list, in order. *)
Fixpoint for_each {A} (l : list A) (body : A -> M unit) : M unit :=
  match l with
  | [] => mret tt
  | x :: l => body x;; for_each l body
  end.

(** A counted loop with an early exit: the first [Some] ends it. *)
Fixpoint for_until {A R} (l : list A) (body : A -> M (option R)) : M (option R) :=
  match l with
  | [] => mret None
  | x :: l => r ← body x; match r with Some v => mret (Some v) | None => for_until l body end
  end.

(** A C loop.  The body takes the loop variables and either goes on, [inl],
    or leaves the loop with a result, [inr] (a [break] or a [return]).  The
    number of iterations is bounded by 2^64, and a loop that gets there is
    taken never to end. *)
Fixpoint iterate {X R} (p : positive) (body : X -> M (X + R)) (x : X) : M (X + R) :=
  match p with
  | xH => body x
  | xO p => r ← iterate p body x; match r with inl x => iterate p body x | inr v => mret (inr v) end
  | xI p => r ← body x;
            match r with
            | inl x => r ← iterate p body x;
                       match r with inl x => iterate p body x | inr v => mret (inr v) end
            | inr v => mret (inr v)
            end
  end.
Definition loop {X R} (body : X -> M (X + R)) (x : X) : M R :=
  r ← iterate (2 ^ 64)%positive body x;
  match r with inl _ => spin | inr v => mret v end.

(** ** Reasoning about kernel code *)
Definition runs {A} (m : M A) (s : kstate) (Q : A -> kstate -> Prop) : Prop :=
  match m s with Ret a s' => Q a s' | _ => False end.

Section runs_rules.
Context {A B : Type}.
Implicit Types (s : kstate).

Lemma runs_ret (a : A) s (Q : A -> kstate -> Prop) : Q a s -> runs (mret a) s Q.
Proof. done. Qed.

Lemma runs_bind (m : M A) (k : A -> M B) s (Q : B -> kstate -> Prop) :
  runs m s (fun a s' => runs (k a) s' Q) -> runs (a ← m; k a) s Q.
Proof. unfold runs, mbind, M_bind. by destruct (m s). Qed.

Lemma runs_assoc {C} (m : M A) (k : A -> M B) (k' : B -> M C) s (Q : C -> kstate -> Prop) :
  runs (b ← (a ← m; k a); k' b) s Q -> runs (a ← m; b ← k a; k' b) s Q.
Proof. unfold runs, mbind, M_bind. by destruct (m s). Qed.

Lemma runs_mono (m : M A) s (Q R : A -> kstate -> Prop) :
  runs m s Q -> (forall a s', Q a s' -> R a s') -> runs m s R.
Proof. unfold runs. destruct (m s); naive_solver. Qed.

Lemma runs_gets (f : kstate -> A) s (Q : A -> kstate -> Prop) : Q (f s) s -> runs (gets f) s Q.
Proof. done. Qed.

Lemma runs_modify (f : kstate -> kstate) s (Q : unit -> kstate -> Prop) :
  Q tt (f s) -> runs (modify f) s Q.
Proof. done. Qed.

Lemma runs_eq (m : M A) s (a : A) s' (Q : A -> kstate -> Prop) :
  m s = Ret a s' -> Q a s' -> runs m s Q.
Proof. unfold runs. by intros ->. Qed.

Lemma runs_inv (m : M A) s (Q : A -> kstate -> Prop) :
  runs m s Q -> exists a s', m s = Ret a s' /\ Q a s'.
Proof. unfold runs. destruct (m s); naive_solver. Qed.

Lemma bind_ret (m : M A) (k : A -> M B) s a s' :
  m s = Ret a s' -> (a ← m; k a) s = k a s'.
Proof. unfold mbind, M_bind. by intros ->. Qed.
End runs_rules.

(** The loop rule: an invariant with a bound on the iterations that are left,
    which every iteration that goes on decreases. *)
Lemma runs_iterate {X R} (body : X -> M (X + R)) (I : Z -> X -> kstate -> Prop) (Q : R -> kstate -> Prop) :
  (forall k x s, I k x s -> runs (body x) s (fun r s' =>
     match r with inl x' => exists k', I k' x' s' /\ 0 <= k' < k | inr v => Q v s' end)) ->
  forall p k x s, I k x s -> runs (iterate p body x) s (fun r s' =>
     match r with inl x' => exists k', I k' x' s' /\ 0 <= k' <= k - Zpos p | inr v => Q v s' end).
Proof.
  intros Hb.
  assert (forall p q k x s,
    runs (iterate p body x) s (fun r s' =>
      match r with inl x' => exists k', I k' x' s' /\ 0 <= k' <= k - Zpos p | inr v => Q v s' end) ->
    (forall k x s, I k x s -> runs (iterate q body x) s (fun r s' =>
      match r with inl x' => exists k', I k' x' s' /\ 0 <= k' <= k - Zpos q | inr v => Q v s' end)) ->
    runs (r ← iterate p body x; match r with inl x => iterate q body x | inr v => mret (inr v) end) s
      (fun r s' =>
      match r with inl x' => exists k', I k' x' s' /\ 0 <= k' <= k - Zpos p - Zpos q | inr v => Q v s' end))
    as Hseq.
  { intros p q k x s H1 H2. apply runs_bind. eapply runs_mono; [exact H1|].
    intros [x1|v] s1; [|done]. intros (k1 & HI & Hf). eapply runs_mono; [by apply (H2 k1)|].
    intros [x2|v2] s2; [|done]. intros (k2 & HI2 & Hf2). exists k2. split; [done|lia]. }
  induction p as [p IH|p IH|]; intros k x s HI; cbn [iterate].
  - apply runs_bind. eapply runs_mono; [by apply (Hb k)|]. intros [x1|v] s1; [|done]. intros (k1 & HI1 & Hf1).
    eapply runs_mono; [apply (Hseq p p k1 x1 s1); auto|].
    intros [x2|v2] s2; [|done]. intros (k2 & HI2 & Hf2). exists k2. split; [done|lia].
  - eapply runs_mono; [apply (Hseq p p k x s); auto|].
    intros [x2|v2] s2; [|done]. intros (k2 & HI2 & Hf2). exists k2. split; [done|lia].
  - eapply runs_mono; [by apply (Hb k)|]. intros [x1|v] s1; [|done]. intros (k1 & HI1 & Hf1). exists k1. split; [done|lia].
Qed.

Lemma runs_rounds {X R} (I : Z -> X -> kstate -> Prop) (k : Z)
    (body : X -> M (X + R)) (x : X) (s : kstate) (Q : R -> kstate -> Prop) :
  I k x s -> k < 2 ^ 64 ->
  (forall k x s, I k x s -> runs (body x) s (fun r s' =>
     match r with inl x' => exists k', I k' x' s' /\ 0 <= k' < k | inr v => Q v s' end)) ->
  runs (loop body x) s Q.
Proof.
  intros HI Hk Hb. unfold loop. apply runs_bind.
  eapply runs_mono; [by apply (runs_iterate body I Q Hb _ k)|].
  intros [x1|v] s1; [|done]. intros (k1 & _ & H1). change (Z.pos (2 ^ 64)) with (2 ^ 64) in H1. lia.
Qed.

(** With a measure of the state. *)
Lemma runs_loop {X R} (I : X -> kstate -> Prop) (f : X -> kstate -> Z)
    (body : X -> M (X + R)) (x : X) (s : kstate) (Q : R -> kstate -> Prop) :
  I x s -> f x s < 2 ^ 64 ->
  (forall x s, I x s -> runs (body x) s (fun r s' =>
     match r with inl x' => I x' s' /\ 0 <= f x' s' < f x s | inr v => Q v s' end)) ->
  runs (loop body x) s Q.
Proof.
  intros HI Hf Hb. apply (runs_rounds (fun k x s => I x s /\ f x s = k) (f x s)); [done|done|].
  intros k x1 s1 [HI1 <-]. eapply runs_mono; [by apply Hb|]. intros [x2|v] s2; [|done]. intros [HI2 Hf2]. by exists (f x2 s2).
Qed.

Create HintDb kernel.
#[export] Hint Resolve runs_ret runs_gets runs_modify : kernel.

(** One step of symbolic execution of a goal [runs _ _ _]. *)
Ltac step :=
  lazymatch goal with
  | |- runs (mbind _ _) _ _ => apply runs_bind
  | |- runs (mret _) _ _ => apply runs_ret
  | |- runs _ _ _ => first [apply runs_gets | apply runs_modify]
  end; cbv beta.
Ltac steps := repeat step.
