(* ===== verification/Spinlock.v ===== *)
(** * Spin locks and interrupt nesting (kernel/spinlock.c)

    [push_off], [pop_off], [acquire], [release] and [holding], with the parts
    of kernel/riscv.h and kernel/proc.c they use.  The sequential theorems say
    that acquiring a free lock and releasing it restores the control state
    exactly, and that the nesting counter brings the interrupt flag back.  The
    last section runs the code of [acquire] and [release] on any number of
    harts at once, one memory access per step, and proves mutual exclusion. *)
From S2P Require Import Prelude Memory Riscv State.

#[export] Instance cpu_inhabited : Inhabited cpu := populate (Cpu None 0 0).

(** ** Registers of the hart (kernel/riscv.h) *)
Definition r_sstatus : M Z := gets (fun s => sstatus (k_ctl s)).
Definition w_sstatus (x : Z) : M unit :=
  modify (fun s => s <| k_ctl := (k_ctl s) <| sstatus := x |> |>).
Definition r_tp : M Z := gets (fun s => tp (k_ctl s)).

Definition intr_on : M unit := x ← r_sstatus; w_sstatus (Z.lor x SSTATUS_SIE).
Definition intr_off : M unit := x ← r_sstatus; w_sstatus (Z.land x (Z.lnot SSTATUS_SIE)).
Definition intr_get : M bool := x ← r_sstatus; mret (truth (Z.land x SSTATUS_SIE)).

(** ** kernel/proc.c: cpuid, mycpu *)
Definition cpuid : M Z := id ← r_tp; mret (i32 id).
Definition mycpu : M nat := id ← cpuid; mret (Z.to_nat id).

Definition get_cpu (c : nat) : M cpu := gets (fun s => cpus (k_ctl s) !!! c).
Definition put_cpu (c : nat) (v : cpu) : M unit :=
  modify (fun s => s <| k_ctl := (k_ctl s) <| cpus := <[ c := v ]> (cpus (k_ctl s)) |> |>).

(** ** kernel/spinlock.c *)
Definition push_off : M unit :=
  old ← intr_get;
  intr_off;;
  c ← mycpu;
  v ← get_cpu c;
  (if c_noff v =? 0 then put_cpu c (v <| c_intena := Z.b2z old |>) else mret tt);;
  v ← get_cpu c;
  put_cpu c (v <| c_noff := c_noff v + 1 |>).

Definition pop_off : M unit :=
  c ← mycpu;
  i ← intr_get;
  if i : bool then panic "pop_off - interruptible" else
  v ← get_cpu c;
  if c_noff v <? 1 then panic "pop_off" else
  put_cpu c (v <| c_noff := c_noff v - 1 |>);;
  v ← get_cpu c;
  if (c_noff v =? 0) && truth (c_intena v) then intr_on else mret tt.

(** A lock as [initlock] leaves it; the table keeps no entry for such a lock. *)
Definition initlock : spinlock := Spinlock 0 None.

#[export] Instance spinlock_eq_dec : EqDecision spinlock.
Proof. solve_decision. Defined.

Definition lock_of (l : lock_id) (c : ctl) : spinlock := default initlock (locks c !! l).
Definition get_lock (l : lock_id) : M spinlock := gets (fun s => lock_of l (k_ctl s)).
Definition put_lock (l : lock_id) (v : spinlock) : M unit :=
  modify (fun s => s <| k_ctl := (k_ctl s)
    <| locks := if decide (v = initlock) then delete l (locks (k_ctl s))
                else <[ l := v ]> (locks (k_ctl s)) |> |>).

Definition holding (l : lock_id) : M bool :=
  v ← get_lock l;
  c ← mycpu;
  mret (truth (locked v) && bool_decide (lk_cpu v = Some c)).

Definition acquire (l : lock_id) : M unit :=
  push_off;;
  h ← holding l;
  if h : bool then panic "acquire" else
  v ← get_lock l;
  (* while(__sync_lock_test_and_set(&lk->locked, 1) != 0) ; *)
  (if truth (locked v) then spin else put_lock l (v <| locked := 1 |>));;
  c ← mycpu;
  v ← get_lock l;
  put_lock l (v <| lk_cpu := Some c |>).

Definition release (l : lock_id) : M unit :=
  h ← holding l;
  if negb h then panic "release" else
  v ← get_lock l;
  put_lock l (v <| lk_cpu := None |>);;
  v ← get_lock l;
  put_lock l (v <| locked := 0 |>);;
  pop_off.

(** ** Sequential behaviour *)
Definition hart (c : ctl) : nat := Z.to_nat (tp c).
Definition this_cpu (c : ctl) : cpu := cpus c !!! hart c.
Definition sie (c : ctl) : bool := truth (Z.land (sstatus c) SSTATUS_SIE).

(** The hart is one of the machine's; inside a critical section interrupts are
    off; outside one, [intena] agrees with the interrupt flag. *)
Record cpu_ok (c : ctl) : Prop := {
  cpu_hart : 0 <= tp c < Z.of_nat NCPU;
  cpu_count : length (cpus c) = NCPU;
  cpu_noff : 0 <= c_noff (this_cpu c);
  cpu_sstatus : 0 <= sstatus c;
  cpu_off : 0 < c_noff (this_cpu c) -> sie c = false;
  cpu_intena : c_noff (this_cpu c) = 0 -> c_intena (this_cpu c) = Z.b2z (sie c);
}.

Definition lock_free (l : lock_id) (c : ctl) : Prop := locks c !! l = None.
Definition lock_held (l : lock_id) (c : ctl) : Prop :=
  locks c !! l = Some (Spinlock 1 (Some (hart c))).

(** The control state inside [push_off]/[pop_off] and inside a lock. *)
Definition pushed (c : ctl) : ctl :=
  c <| sstatus := Z.land (sstatus c) (Z.lnot SSTATUS_SIE) |>
    <| cpus := <[ hart c := (this_cpu c) <| c_noff := c_noff (this_cpu c) + 1 |> ]> (cpus c) |>.
Definition locked_ctl (l : lock_id) (c : ctl) : ctl :=
  (pushed c) <| locks := <[ l := Spinlock 1 (Some (hart c)) ]> (locks c) |>.

Lemma ctl_put_same (s : kstate) (c : ctl) : k_ctl s = c -> s <| k_ctl := c |> = s.
Proof. destruct s. simpl. by intros ->. Qed.

Lemma testbit_sie (n : Z) : Z.testbit SSTATUS_SIE n = (n =? 1).
Proof.
  change SSTATUS_SIE with (2 ^ 1). destruct (Z.eqb_spec n 1) as [->|]; [done|].
  by rewrite Z.pow2_bits_false by lia.
Qed.

Lemma sie_testbit (x : Z) : truth (Z.land x SSTATUS_SIE) = Z.testbit x 1.
Proof.
  unfold truth. destruct (Z.testbit x 1) eqn:E.
  - destruct (Z.eqb_spec (Z.land x SSTATUS_SIE) 0) as [H|]; [|done].
    apply (f_equal (fun y => Z.testbit y 1)) in H.
    by rewrite Z.land_spec, E in H.
  - replace (Z.land x SSTATUS_SIE) with 0; [done|].
    apply Z.bits_inj'. intros n Hn. rewrite Z.land_spec, Z.bits_0, testbit_sie.
    destruct (Z.eqb_spec n 1) as [->|]; [by rewrite E|by rewrite andb_false_r].
Qed.

Lemma land_lnot_sie (x n : Z) :
  0 <= n -> Z.testbit (Z.land x (Z.lnot SSTATUS_SIE)) n = Z.testbit x n && negb (n =? 1).
Proof. intros Hn. by rewrite Z.land_spec, Z.lnot_spec, testbit_sie by lia. Qed.

Lemma sie_cleared (x : Z) : Z.testbit (Z.land x (Z.lnot SSTATUS_SIE)) 1 = false.
Proof. rewrite land_lnot_sie by lia. apply andb_false_r. Qed.

Lemma sie_clear_id (x : Z) : Z.testbit x 1 = false -> Z.land x (Z.lnot SSTATUS_SIE) = x.
Proof.
  intros H. apply Z.bits_inj'. intros n Hn. rewrite land_lnot_sie by done.
  destruct (Z.eqb_spec n 1) as [->|]; [by rewrite H|apply andb_true_r].
Qed.

Lemma sie_set_back (x : Z) :
  Z.testbit x 1 = true -> Z.lor (Z.land x (Z.lnot SSTATUS_SIE)) SSTATUS_SIE = x.
Proof.
  intros H. apply Z.bits_inj'. intros n Hn. rewrite Z.lor_spec, land_lnot_sie by done.
  rewrite testbit_sie. destruct (Z.eqb_spec n 1) as [->|]; [by rewrite H|].
  by rewrite andb_true_r, orb_false_r.
Qed.

Lemma mycpu_spec (s : kstate) :
  0 <= tp (k_ctl s) < Z.of_nat NCPU -> mycpu s = Ret (hart (k_ctl s)) s.
Proof.
  intros H. unfold mycpu, cpuid, r_tp, mbind, M_bind, gets, mret, M_ret, hart.
  do 2 f_equal. unfold i32. apply signed_small; [lia|]. simpl in *. unfold NCPU in H. lia.
Qed.

Lemma put_cpu_twice (c : ctl) (v w : cpu) (i : nat) :
  c <| cpus := <[ i := v ]> (cpus c) |> <| cpus := <[ i := w ]> (<[ i := v ]> (cpus c)) |>
  = c <| cpus := <[ i := w ]> (cpus c) |>.
Proof. destruct c. simpl. by rewrite list_insert_insert_eq. Qed.

Lemma hart_in_range (c : ctl) : cpu_ok c -> (hart c < length (cpus c))%nat.
Proof.
  intros Hc. rewrite (cpu_count c Hc). pose proof (cpu_hart c Hc). unfold hart, NCPU in *. lia.
Qed.

Lemma this_cpu_insert (c : ctl) (v : cpu) :
  cpu_ok c -> <[ hart c := v ]> (cpus c) !!! hart c = v.
Proof. intros Hc. apply list_lookup_total_insert_eq. by apply hart_in_range. Qed.

Lemma pushed_cpu_ok (c : ctl) : cpu_ok c -> cpu_ok (pushed c).
Proof.
  intros Hc. pose proof (cpu_noff c Hc).
  assert (this_cpu (pushed c) = (this_cpu c) <| c_noff := c_noff (this_cpu c) + 1 |>) as E
    by exact (this_cpu_insert c _ Hc).
  split; rewrite ?E; cbn -[Z.land Z.lnot]; try lia.
  - apply Hc.
  - rewrite length_insert. apply Hc.
  - apply Z.land_nonneg. left. apply Hc.
  - intros _. unfold sie. cbn -[Z.land Z.lnot]. by rewrite sie_testbit, sie_cleared.
Qed.

(** Unfold the monad and the register accesses. *)
Ltac exec :=
  unfold intr_get, intr_on, intr_off, r_sstatus, w_sstatus, get_cpu, put_cpu, get_lock, put_lock;
  unfold mbind, M_bind, gets, modify, mret, M_ret, panic, spin;
  cbn [k_ctl k_heap k_pt k_ft k_fs k_vd k_dev k_switches sstatus tp cpus locks set_with set_k_ctl set_sstatus set_cpus
       set_locks c_noff c_intena set_c_noff set_c_intena set_locked set_lk_cpu locked lk_cpu].

Lemma push_off_spec (s : kstate) :
  cpu_ok (k_ctl s) -> push_off s = Ret tt (s <| k_ctl := pushed (k_ctl s) |>).
Proof.
  intros Hc. pose proof (cpu_hart _ Hc) as Hh. pose proof (hart_in_range _ Hc) as Hr.
  unfold push_off. exec. rewrite mycpu_spec by exact Hh. exec.
  change (hart _) with (hart (k_ctl s)). fold (this_cpu (k_ctl s)).
  destruct (Z.eqb_spec (c_noff (this_cpu (k_ctl s))) 0) as [E|E].
  - exec. change (truth _) with (sie (k_ctl s)). rewrite <- (cpu_intena _ Hc E).
    replace ((this_cpu (k_ctl s)) <| c_intena := c_intena (this_cpu (k_ctl s)) |>)
      with (this_cpu (k_ctl s)) by (by destruct (this_cpu (k_ctl s))).
    rewrite this_cpu_insert by done. rewrite list_insert_insert_eq. reflexivity.
  - exec. reflexivity.
Qed.

Lemma insert_this_cpu (c : ctl) : cpu_ok c -> <[ hart c := this_cpu c ]> (cpus c) = cpus c.
Proof.
  intros Hc. apply list_insert_id. apply list_lookup_lookup_total_lt. by apply hart_in_range.
Qed.

Lemma noff_back (v : cpu) :
  v <| c_noff := c_noff v + 1 |> <| c_noff := c_noff v + 1 - 1 |> = v.
Proof. replace (c_noff v + 1 - 1) with (c_noff v) by lia. by destruct v. Qed.

Lemma pop_off_spec (s : kstate) (c : ctl) :
  cpu_ok c -> k_ctl s = pushed c -> pop_off s = Ret tt (s <| k_ctl := c |>).
Proof.
  intros Hc E. rewrite <- (ctl_put_same s _ E). clear E.
  pose proof (cpu_hart _ Hc) as Hh. pose proof (cpu_noff _ Hc) as Hn.
  unfold pop_off. unfold mbind at 1, M_bind at 1. rewrite mycpu_spec by exact Hh. exec.
  change (sstatus (pushed c)) with (Z.land (sstatus c) (Z.lnot SSTATUS_SIE)).
  rewrite sie_testbit, sie_cleared. exec.
  change (hart (pushed c)) with (hart c).
  change (cpus (pushed c)) with
    (<[ hart c := (this_cpu c) <| c_noff := c_noff (this_cpu c) + 1 |> ]> (cpus c)).
  rewrite this_cpu_insert by done. exec.
  rewrite (proj2 (Z.ltb_ge _ 1)) by lia. exec.
  change (cpus (pushed c)) with
    (<[ hart c := (this_cpu c) <| c_noff := c_noff (this_cpu c) + 1 |> ]> (cpus c)).
  rewrite noff_back, list_insert_insert_eq, insert_this_cpu by done. fold (this_cpu c).
  assert (sie c = Z.testbit (sstatus c) 1) as Hs by apply sie_testbit.
  destruct (Z.eqb_spec (c_noff (this_cpu c)) 0) as [E|E]; cbn [andb].
  - rewrite (cpu_intena c Hc E), Hs. destruct (Z.testbit (sstatus c) 1) eqn:B; cbn [Z.b2z].
    + change (truth 1) with true. exec. change (sstatus (pushed c)) with (Z.land (sstatus c) (Z.lnot SSTATUS_SIE)).
      rewrite sie_set_back by done. by destruct c.
    + change (truth 0) with false. exec. unfold pushed. rewrite sie_clear_id by done. by destruct c.
  - rewrite (cpu_off c Hc) in Hs by lia. exec. unfold pushed.
    rewrite sie_clear_id by done. by destruct c.
Qed.

Lemma lock_of_free (l : lock_id) (c : ctl) : lock_free l c -> lock_of l c = initlock.
Proof. unfold lock_free, lock_of. by intros ->. Qed.

Lemma lock_of_held (l : lock_id) (c : ctl) :
  lock_held l c -> lock_of l c = Spinlock 1 (Some (hart c)).
Proof. unfold lock_held, lock_of. by intros ->. Qed.

Lemma holding_spec (l : lock_id) (s : kstate) :
  0 <= tp (k_ctl s) < Z.of_nat NCPU ->
  holding l s = Ret (truth (locked (lock_of l (k_ctl s)))
                     && bool_decide (lk_cpu (lock_of l (k_ctl s)) = Some (hart (k_ctl s)))) s.
Proof.
  intros H. unfold holding. exec. by rewrite mycpu_spec.
Qed.

Lemma acquire_spec (l : lock_id) (s : kstate) :
  cpu_ok (k_ctl s) -> lock_free l (k_ctl s) ->
  acquire l s = Ret tt (s <| k_ctl := locked_ctl l (k_ctl s) |>).
Proof.
  intros Hc Hf. pose proof (cpu_hart _ Hc) as Hh. unfold lock_free in Hf.
  unfold acquire. unfold mbind at 1, M_bind at 1. rewrite push_off_spec by done.
  unfold mbind at 1, M_bind at 1. rewrite holding_spec by exact Hh. exec.
  unfold lock_of. change (locks (pushed (k_ctl s))) with (locks (k_ctl s)).
  rewrite Hf. cbn [default initlock locked lk_cpu]. change (truth 0) with false. cbn [andb]. exec.
  unfold lock_of. change (locks (pushed (k_ctl s))) with (locks (k_ctl s)).
  rewrite Hf. cbn [default initlock locked]. change (truth 0) with false. exec.
  rewrite mycpu_spec by exact Hh. exec.
  rewrite (decide_False (P := initlock <| locked := 1 |> = initlock)) by done.
  unfold lock_of. cbn [locks set_with set_locks]. rewrite lookup_insert_eq.
  rewrite decide_False by done. rewrite insert_insert_eq. reflexivity.
Qed.

Lemma release_spec (l : lock_id) (s : kstate) (c : ctl) :
  cpu_ok c -> lock_free l c -> k_ctl s = locked_ctl l c ->
  release l s = Ret tt (s <| k_ctl := c |>).
Proof.
  intros Hc Hf E. rewrite <- (ctl_put_same s _ E). clear E.
  pose proof (cpu_hart _ Hc) as Hh.
  assert (lock_of l (locked_ctl l c) = Spinlock 1 (Some (hart c))) as Hl.
  { unfold lock_of. cbn [locked_ctl locks set_with set_locks]. by rewrite lookup_insert_eq. }
  unfold release. unfold mbind at 1, M_bind at 1. rewrite holding_spec by exact Hh.
  cbn [k_ctl set_with set_k_ctl]. rewrite Hl. change (hart (locked_ctl l c)) with (hart c).
  cbn [locked lk_cpu]. rewrite bool_decide_true by done. cbn. exec. rewrite Hl.
  rewrite (decide_False (P := (Spinlock 1 (Some (hart c))) <| lk_cpu := None |> = initlock)) by done.
  unfold lock_of. cbn [locks set_with set_locks]. rewrite lookup_insert_eq.
  rewrite decide_True by done.
  erewrite pop_off_spec; [reflexivity|exact Hc|].
  cbn [k_ctl set_with set_k_ctl]. cbn [locked_ctl locks set_with set_locks].
  rewrite insert_insert_eq, delete_insert_id by exact Hf. by destruct c.
Qed.

(** A hart that holds a lock and asks for it again panics, and the lock of
    another hart makes it spin; releasing a lock one does not hold panics. *)
Lemma acquire_reentrant (l : lock_id) (s : kstate) :
  cpu_ok (k_ctl s) -> lock_held l (k_ctl s) -> acquire l s = Panic "acquire".
Proof.
  intros Hc Hh. unfold acquire. unfold mbind at 1, M_bind at 1. rewrite push_off_spec by done.
  unfold mbind at 1, M_bind at 1. rewrite holding_spec by exact (cpu_hart _ Hc). exec.
  unfold lock_of. change (locks (pushed (k_ctl s))) with (locks (k_ctl s)).
  rewrite Hh. cbn [default locked lk_cpu]. change (hart (pushed (k_ctl s))) with (hart (k_ctl s)).
  by rewrite bool_decide_true.
Qed.

Lemma acquire_contended (l : lock_id) (s : kstate) (i : nat) :
  cpu_ok (k_ctl s) -> i <> hart (k_ctl s) -> locks (k_ctl s) !! l = Some (Spinlock 1 (Some i)) ->
  acquire l s = Spin.
Proof.
  intros Hc Hi Hl. unfold acquire. unfold mbind at 1, M_bind at 1. rewrite push_off_spec by done.
  unfold mbind at 1, M_bind at 1. rewrite holding_spec by exact (cpu_hart _ Hc). exec.
  unfold lock_of. change (locks (pushed (k_ctl s))) with (locks (k_ctl s)).
  rewrite Hl. cbn [default locked lk_cpu]. change (hart (pushed (k_ctl s))) with (hart (k_ctl s)).
  rewrite (bool_decide_false (Some i = Some (hart (k_ctl s)))) by congruence.
  rewrite andb_false_r. exec.
  unfold lock_of. change (locks (pushed (k_ctl s))) with (locks (k_ctl s)). by rewrite Hl.
Qed.

Lemma release_not_held (l : lock_id) (s : kstate) :
  cpu_ok (k_ctl s) -> lock_free l (k_ctl s) -> release l s = Panic "release".
Proof.
  intros Hc Hf. unfold release. unfold mbind at 1, M_bind at 1.
  rewrite holding_spec by exact (cpu_hart _ Hc). by rewrite lock_of_free.
Qed.

Lemma locked_ctl_ok (l : lock_id) (c : ctl) : cpu_ok c -> cpu_ok (locked_ctl l c).
Proof. intros Hc. pose proof (pushed_cpu_ok c Hc) as H. by destruct H; split. Qed.

Lemma locked_ctl_free (l l' : lock_id) (c : ctl) :
  l <> l' -> lock_free l' c -> lock_free l' (locked_ctl l c).
Proof. intros Hne Hf. unfold lock_free. cbn [locked_ctl locks set_with set_locks]. by rewrite lookup_insert_ne. Qed.

#[export] Hint Resolve locked_ctl_ok locked_ctl_free pushed_cpu_ok : kernel.

Lemma runs_acquire (l : lock_id) (s : kstate) (Q : unit -> kstate -> Prop) :
  cpu_ok (k_ctl s) -> lock_free l (k_ctl s) ->
  Q tt (s <| k_ctl := locked_ctl l (k_ctl s) |>) -> runs (acquire l) s Q.
Proof. intros Hc Hf HQ. eapply runs_eq; [by apply acquire_spec|done]. Qed.

Lemma runs_release (l : lock_id) (s : kstate) (c : ctl) (Q : unit -> kstate -> Prop) :
  cpu_ok c -> lock_free l c -> k_ctl s = locked_ctl l c ->
  Q tt (s <| k_ctl := c |>) -> runs (release l) s Q.
Proof. intros Hc Hf E HQ. eapply runs_eq; [by eapply release_spec|done]. Qed.

(** A critical section gives the control state back: whatever the code [m]
    between [acquire] and [release] returns, if it leaves the processors,
    registers and locks as it found them, then afterwards the lock is free and
    the interrupt flag and the nesting depth are what they were before. *)
Theorem critical_section {A} (l : lock_id) (m : M A) (s : kstate) (Q : A -> kstate -> Prop) :
  cpu_ok (k_ctl s) -> lock_free l (k_ctl s) ->
  runs m (s <| k_ctl := locked_ctl l (k_ctl s) |>)
    (fun a s' => k_ctl s' = locked_ctl l (k_ctl s) /\ Q a (s' <| k_ctl := k_ctl s |>)) ->
  runs (acquire l;; a ← m; release l;; mret a) s (fun a s' => k_ctl s' = k_ctl s /\ Q a s').
Proof.
  intros Hc Hf Hm. step. apply runs_acquire; [done..|]. step.
  eapply runs_mono; [exact Hm|]. intros a s' [E HQ]. step.
  eapply runs_release; [exact Hc|done|done|]. by step.
Qed.

Definition boot_ctl : ctl := Ctl 2 SSTATUS_SIE 0 0 0 0 0 0 (replicate NCPU (Cpu None 0 1)) ∅.

Lemma boot_ctl_ok : cpu_ok boot_ctl.
Proof. by split; vm_compute. Qed.

Lemma critical_section_witness :
  let s := blank boot_ctl (Heap ∅ 0 0) in
  runs (acquire L_kmem;; a ← gets (fun s => locked (lock_of L_kmem (k_ctl s))); release L_kmem;; mret a)
    s (fun a s' => k_ctl s' = k_ctl s /\ a = 1).
Proof.
  apply (critical_section L_kmem _ (blank boot_ctl (Heap ∅ 0 0)) (fun a _ => a = 1)).
  - exact boot_ctl_ok.
  - reflexivity.
  - split; reflexivity.
Defined.

(** ** Several harts

    The steps of [acquire] and [release] between two accesses to the lock,
    for any number of harts.  The interrupt flag is a register of the hart
    and takes no part.  A hart is at [Out] before [acquire], and at [Inside]
    when [acquire] has returned. *)
Module Harts.

Inductive pc :=
  | Out                     (* before acquire *)
  | AcqCpu                  (* holding: lk->locked was read as 1 *)
  | AcqSwap                 (* at the test-and-set loop *)
  | AcqName                 (* won the lock, about to set lk->cpu *)
  | Inside                  (* acquire has returned *)
  | RelCpu                  (* release, in holding: lk->locked was read as 1 *)
  | RelName                 (* about to clear lk->cpu *)
  | RelFree                 (* about to clear lk->locked *)
  | Panicked.

Record state := State { word : spinlock; at_ : nat -> pc }.

Definition init : state := State initlock (fun _ => Out).

(** The next step of hart [h]. *)
Definition step (h : nat) (s : state) : state :=
  let w := word s in
  let goto q := State w (<[ h := q ]> (at_ s)) in
  match at_ s h with
  | Out => if truth (locked w) then goto AcqCpu else goto AcqSwap
  | AcqCpu => if bool_decide (lk_cpu w = Some h) then goto Panicked else goto AcqSwap
  | AcqSwap =>
      State (w <| locked := 1 |>)
        (<[ h := if truth (locked w) then AcqSwap else AcqName ]> (at_ s))
  | AcqName => State (w <| lk_cpu := Some h |>) (<[ h := Inside ]> (at_ s))
  | Inside => if truth (locked w) then goto RelCpu else goto Panicked
  | RelCpu => if bool_decide (lk_cpu w = Some h) then goto RelName else goto Panicked
  | RelName => State (w <| lk_cpu := None |>) (<[ h := RelFree ]> (at_ s))
  | RelFree => State (w <| locked := 0 |>) (<[ h := Out ]> (at_ s))
  | Panicked => s
  end.

Inductive reachable : state -> Prop :=
  | reach_init : reachable init
  | reach_step h s : reachable s -> reachable (step h s).

(** A hart owns the lock from the winning swap to the clearing of the word;
    its name is in the lock for the middle part of that time. *)
Definition owns (q : pc) : bool :=
  match q with AcqName | Inside | RelCpu | RelName | RelFree => true | _ => false end.
Definition named (q : pc) : bool :=
  match q with Inside | RelCpu | RelName => true | _ => false end.

Record inv (s : state) : Prop := {
  inv_word : locked (word s) = 0 \/ locked (word s) = 1;
  inv_owned : locked (word s) = 0 -> forall h, owns (at_ s h) = false;
  inv_unique : forall h h', owns (at_ s h) = true -> owns (at_ s h') = true -> h = h';
  inv_name : forall h, lk_cpu (word s) = Some h <-> named (at_ s h) = true;
  inv_safe : forall h, at_ s h <> Panicked;
}.

Lemma named_owns (q : pc) : named q = true -> owns q = true.
Proof. by destruct q. Qed.

Ltac at_hart h' h :=
  destruct (decide (h' = h)) as [->|];
  rewrite ?fn_lookup_insert, ?fn_lookup_insert_ne by done.

(** The invariant is kept when hart [h] moves to [q] and the word becomes [w],
    if [q] agrees with [w] and no other hart is affected. *)
Lemma inv_move (s : state) (h : nat) (q : pc) (w : spinlock) :
  inv s -> q <> Panicked -> (locked w = 0 \/ locked w = 1) ->
  (locked w = 0 -> owns q = false /\ forall h', h' <> h -> owns (at_ s h') = false) ->
  (owns q = true -> forall h', h' <> h -> owns (at_ s h') = false) ->
  (lk_cpu w = Some h <-> named q = true) ->
  (forall h', h' <> h -> lk_cpu w = Some h' <-> lk_cpu (word s) = Some h') ->
  inv (State w (<[ h := q ]> (at_ s))).
Proof.
  intros Hi Hq Hw Hfree Huniq Hname Hother. split; simpl.
  - done.
  - intros Hz h'. destruct (Hfree Hz) as [? Hf]. at_hart h' h; auto.
  - intros h1 h2. at_hart h1 h; at_hart h2 h; intros H1 H2; try done.
    + by rewrite (Huniq H1 h2) in H2.
    + by rewrite (Huniq H2 h1) in H1.
    + by apply (inv_unique _ Hi).
  - intros h'. at_hart h' h; [done|]. rewrite Hother by done. apply (inv_name _ Hi).
  - intros h'. at_hart h' h; [done|]. apply (inv_safe _ Hi).
Qed.

Section one_step.
Context (s : state) (Hi : inv s) (h : nat).

Lemma owner_locked : owns (at_ s h) = true -> locked (word s) = 1.
Proof.
  intros Ho. destruct (inv_word _ Hi) as [E|]; [|done]. by rewrite (inv_owned _ Hi E) in Ho.
Qed.

Lemma owner_alone : owns (at_ s h) = true -> forall h', h' <> h -> owns (at_ s h') = false.
Proof.
  intros Ho h' Hne. destruct (owns (at_ s h')) eqn:X; [|done].
  contradict Hne. by apply (inv_unique _ Hi).
Qed.

Lemma stranger_unnamed : owns (at_ s h) = false -> lk_cpu (word s) <> Some h.
Proof. intros Ho E. apply (inv_name _ Hi), named_owns in E. congruence. Qed.

(** A move that changes neither the word nor ownership. *)
Lemma inv_goto (q : pc) :
  q <> Panicked -> owns q = owns (at_ s h) -> named q = named (at_ s h) ->
  inv (State (word s) (<[ h := q ]> (at_ s))).
Proof.
  intros Hq Ho Hn. apply inv_move; try done.
  - apply Hi.
  - intros E. rewrite Ho. split; [|intros]; by apply (inv_owned _ Hi).
  - rewrite Ho. apply owner_alone.
  - rewrite Hn. apply (inv_name _ Hi).
Qed.

(** A move of the owner that stores to the word. *)
Lemma inv_owner_store (q : pc) (w : spinlock) :
  owns (at_ s h) = true -> q <> Panicked -> owns q = truth (locked w) ->
  (locked w = 0 \/ locked w = 1) -> lk_cpu w = (if named q then Some h else None) ->
  inv (State w (<[ h := q ]> (at_ s))).
Proof.
  intros Ho Hq Hoq Hw Hc. pose proof (owner_alone Ho) as Ha. apply inv_move; try done.
  - intros E. rewrite Hoq, E. done.
  - rewrite Hc. by destruct (named q).
  - intros h' Hne. rewrite Hc. split.
    + destruct (named q); intros [= ->]; done.
    + intros E. apply (inv_name _ Hi), named_owns in E. by rewrite Ha in E.
Qed.
End one_step.

Lemma inv_step (h : nat) (s : state) : inv s -> inv (step h s).
Proof.
  intros Hi. pose proof (inv_safe _ Hi h) as Hsafe.
  pose proof (inv_name _ Hi h) as Hname. pose proof (owner_locked s Hi h) as Hlock.
  pose proof (stranger_unnamed s Hi h) as Hstr.
  unfold step. destruct (at_ s h) eqn:P; simpl in *; try done.
  - destruct (truth _); by apply inv_goto; rewrite ?P.
  - rewrite bool_decide_false by auto. by apply inv_goto; rewrite ?P.
  - destruct (inv_word _ Hi) as [E|E]; rewrite E; simpl.
    + apply inv_move; simpl; try done; auto.
      intros _ h' _. by apply (inv_owned _ Hi).
    + replace ((word s) <| locked := 1 |>) with (word s) by (destruct (word s); simpl in *; by subst).
      by apply inv_goto; rewrite ?P.
  - apply inv_owner_store; rewrite ?P; simpl; auto. by rewrite Hlock.
  - rewrite Hlock by done. by apply inv_goto; rewrite ?P.
  - rewrite bool_decide_true by (by apply Hname). by apply inv_goto; rewrite ?P.
  - apply inv_owner_store; rewrite ?P; simpl; auto. by rewrite Hlock.
  - apply inv_owner_store; rewrite ?P; simpl; auto.
    destruct (lk_cpu (word s)) as [o|] eqn:X; [|done].
    pose proof (proj1 (inv_name _ Hi o) X) as N. pose proof (named_owns _ N) as O.
    assert (o = h) as -> by (apply (inv_unique _ Hi); rewrite ?P; done). by rewrite P in N.
Qed.

Lemma reachable_inv (s : state) : reachable s -> inv s.
Proof.
  induction 1 as [|h s _ IH]; [|by apply inv_step].
  split; simpl; try done; auto. 
Qed.

(** C9. Mutual exclusion for any number of harts and every interleaving of
    their accesses to the lock: at most one hart is between [acquire] and
    [release], the lock then carries its name, and the checks by which
    [acquire] and [release] panic never fire. *)
Theorem mutual_exclusion (s : state) :
  reachable s ->
  (forall h h', at_ s h = Inside -> at_ s h' = Inside -> h = h') /\
  (forall h, at_ s h <> Panicked) /\
  (forall h, at_ s h = Inside -> word s = Spinlock 1 (Some h)).
Proof.
  intros Hr. apply reachable_inv in Hr as Hi. split_and!.
  - intros h h' H H'. apply (inv_unique _ Hi); by rewrite ?H, ?H'.
  - apply (inv_safe _ Hi).
  - intros h H. pose proof (owner_locked s Hi h) as Hl. pose proof (proj2 (inv_name _ Hi h)) as Hn.
    rewrite H in Hl, Hn. destruct (word s) as [lk o]. simpl in *. by rewrite Hl, Hn.
Qed.

Lemma mutual_exclusion_witness :
  let s := step 0 (step 0 (step 1 (step 0 init))) in
  at_ s 0 = Inside /\ at_ s 1 = AcqSwap /\ (forall h, at_ s h <> Panicked).
Proof.
  cbv zeta. split; [reflexivity|]. split; [reflexivity|].
  apply (mutual_exclusion (step 0 (step 0 (step 1 (step 0 init))))). repeat constructor.
Defined.
End Harts.
