(* ===== verification/Cstring.v ===== *)
(** * Memory and string functions (kernel/string.c)

    Each function runs its loop byte by byte on the memory.  A function that
    only reads takes its arguments as byte sequences [Z -> Z] (offset to
    byte), so that it applies to memory, with [at_addr m a], and to C arrays
    kept outside memory.  The theorems give each loop a closed form: [memset]
    and [memmove] are one [store], whatever the overlap; [strncmp] decides
    equality of bounded C strings; [strncpy] pads; [safestrcpy] terminates and
    stays in bounds. *)
From S2P Require Import Prelude Memory.

Definition at_addr (m : memory) (a : Z) : Z -> Z := fun i => byte_at m (a + i).

(** ** The functions *)
Fixpoint memset_loop (m : memory) (cdst c : Z) (k : nat) : memory :=
  match k with
  | O => m
  | S k => memset_loop (set_byte m cdst c) (cdst + 1) c k
  end.
Definition memset (m : memory) (dst c n : Z) : memory := memset_loop m dst c (Z.to_nat n).

Fixpoint memcmp_loop (s1 s2 : Z -> Z) (i : Z) (k : nat) : Z :=
  match k with
  | O => 0
  | S k => if s1 i =? s2 i then memcmp_loop s1 s2 (i + 1) k else s1 i - s2 i
  end.
Definition memcmp (s1 s2 : Z -> Z) (n : Z) : Z := memcmp_loop s1 s2 0 (Z.to_nat n).

(** [while(n-- > 0) *--d = *--s;] and [while(n-- > 0) *d++ = *s++;] *)
Fixpoint copy_down (m : memory) (d s : Z) (k : nat) : memory :=
  match k with
  | O => m
  | S k => copy_down (set_byte m (d - 1) (byte_at m (s - 1))) (d - 1) (s - 1) k
  end.
Fixpoint copy_up (m : memory) (d s : Z) (k : nat) : memory :=
  match k with
  | O => m
  | S k => copy_up (set_byte m d (byte_at m s)) (d + 1) (s + 1) k
  end.
Definition memmove (m : memory) (dst src n : Z) : memory :=
  if n =? 0 then m else
  if (src <? dst) && (dst <? src + n)
  then copy_down m (dst + n) (src + n) (Z.to_nat n)
  else copy_up m dst src (Z.to_nat n).
Definition memcpy (m : memory) (dst src n : Z) : memory := memmove m dst src n.

Fixpoint strncmp_loop (p q : Z -> Z) (i : Z) (k : nat) : Z :=
  match k with
  | O => 0
  | S k => if truth (p i) && (p i =? q i) then strncmp_loop p q (i + 1) k
           else u8 (p i) - u8 (q i)
  end.
Definition strncmp (p q : Z -> Z) (n : Z) : Z := strncmp_loop p q 0 (Z.to_nat n).

Fixpoint zero_up (m : memory) (s : Z) (k : nat) : memory :=
  match k with
  | O => m
  | S k => zero_up (set_byte m s 0) (s + 1) k
  end.
Fixpoint strncpy_loop (m : memory) (s t : Z) (k : nat) : memory :=
  match k with
  | O => m
  | S k => let c := byte_at m t in
           let m := set_byte m s c in
           if truth c then strncpy_loop m (s + 1) (t + 1) k else zero_up m (s + 1) k
  end.
Definition strncpy (m : memory) (s t n : Z) : memory := strncpy_loop m s t (Z.to_nat n).

Fixpoint safestrcpy_loop (m : memory) (s t : Z) (k : nat) : memory :=
  match k with
  | O => set_byte m s 0
  | S k => let c := byte_at m t in
           let m := set_byte m s c in
           if truth c then safestrcpy_loop m (s + 1) (t + 1) k else set_byte m (s + 1) 0
  end.
Definition safestrcpy (m : memory) (s t n : Z) : memory :=
  if n <=? 0 then m else safestrcpy_loop m s t (Z.to_nat (n - 1)).

(** [strlen] searches for the terminator; [None] when there is none among the
    first [fuel] bytes. *)
Fixpoint strlen_loop (s : Z -> Z) (n : Z) (fuel : nat) : option Z :=
  match fuel with
  | O => None
  | S fuel => if truth (s n) then strlen_loop s (n + 1) fuel else Some n
  end.
Definition strlen (s : Z -> Z) (fuel : nat) : option Z := strlen_loop s 0 fuel.

(** ** Closed forms of the writing loops *)
Lemma lookup_store (m : memory) (a : Z) (bs : list Z) (x : Z) :
  store m a bs !! x =
    if (a <=? x) && (x <? a + Z.of_nat (length bs))
    then Some (u8 (nth (Z.to_nat (x - a)) bs 0)) else m !! x.
Proof.
  revert m a. induction bs as [|b bs IH]; intros m a; cbn [store length].
  - destruct (Z.leb_spec a x), (Z.ltb_spec x (a + Z.of_nat 0)); simpl; try done; lia.
  - rewrite IH. unfold set_byte.
    destruct (Z.eq_dec x a) as [->|Hne].
    + rewrite (proj2 (Z.leb_gt (a + 1) a)), (proj2 (Z.leb_le a a)) by lia.
      rewrite (proj2 (Z.ltb_lt a (a + Z.of_nat (S (length bs))))) by lia.
      simpl. by rewrite lookup_insert_eq, Z.sub_diag.
    + rewrite lookup_insert_ne by done.
      destruct (Z.leb_spec a x), (Z.leb_spec (a + 1) x),
        (Z.ltb_spec x (a + 1 + Z.of_nat (length bs))),
        (Z.ltb_spec x (a + Z.of_nat (S (length bs)))); simpl; try lia; try done.
      replace (Z.to_nat (x - a)) with (S (Z.to_nat (x - (a + 1)))) by lia. done.
Qed.

(** Two memories with the same cells outside a range and the same written
    bytes inside it are equal. *)
Lemma store_unique (m m' : memory) (a : Z) (bs : list Z) :
  (forall x, x < a \/ a + Z.of_nat (length bs) <= x -> m' !! x = m !! x) ->
  (forall i, 0 <= i < Z.of_nat (length bs) -> m' !! (a + i) = Some (u8 (nth (Z.to_nat i) bs 0))) ->
  m' = store m a bs.
Proof.
  intros Hout Hin. apply map_eq. intros x. rewrite lookup_store.
  destruct (Z.leb_spec a x), (Z.ltb_spec x (a + Z.of_nat (length bs))); cbn [andb];
    try (apply Hout; lia).
  rewrite <- Hin by lia. f_equal. lia.
Qed.

Lemma memset_store (m : memory) (dst c n : Z) :
  memset m dst c n = store m dst (repeat c (Z.to_nat n)).
Proof.
  unfold memset. revert m dst. induction (Z.to_nat n) as [|k IH]; intros m dst; [done|].
  cbn [memset_loop repeat store]. apply IH.
Qed.

Lemma lookup_set_byte (m : memory) (a b x : Z) :
  set_byte m a b !! x = if x =? a then Some (u8 b) else m !! x.
Proof.
  unfold set_byte. destruct (Z.eqb_spec x a) as [->|]; [apply lookup_insert_eq|].
  by rewrite lookup_insert_ne.
Qed.

Lemma copy_up_lookup (k : nat) (m : memory) (d s x : Z) :
  d <= s \/ s + Z.of_nat k <= d ->
  copy_up m d s k !! x =
    if (d <=? x) && (x <? d + Z.of_nat k) then Some (byte_at m (s + (x - d))) else m !! x.
Proof.
  revert m d s. induction k as [|k IH]; intros m d s H; cbn [copy_up].
  - destruct (Z.leb_spec d x), (Z.ltb_spec x (d + Z.of_nat 0)); simpl; try done; lia.
  - rewrite IH by lia. rewrite lookup_set_byte, byte_at_set_byte.
    destruct (Z.leb_spec (d + 1) x), (Z.ltb_spec x (d + 1 + Z.of_nat k)), (Z.leb_spec d x),
      (Z.ltb_spec x (d + Z.of_nat (S k))), (Z.eqb_spec x d); cbn [andb]; try lia; try done.
    + rewrite (proj2 (Z.eqb_neq _ d)) by lia. do 2 f_equal. lia.
    + subst x. rewrite Z.sub_diag, Z.add_0_r. f_equal. apply u8_small, byte_at_range.
Qed.

Lemma copy_down_lookup (k : nat) (m : memory) (d s x : Z) :
  s <= d ->
  copy_down m d s k !! x =
    if (d - Z.of_nat k <=? x) && (x <? d) then Some (byte_at m (s + (x - d))) else m !! x.
Proof.
  revert m d s. induction k as [|k IH]; intros m d s H; cbn [copy_down].
  - destruct (Z.leb_spec (d - Z.of_nat 0) x), (Z.ltb_spec x d); simpl; try done; lia.
  - rewrite IH by lia. rewrite lookup_set_byte, byte_at_set_byte.
    destruct (Z.leb_spec (d - 1 - Z.of_nat k) x), (Z.ltb_spec x (d - 1)),
      (Z.leb_spec (d - Z.of_nat (S k)) x), (Z.ltb_spec x d), (Z.eqb_spec x (d - 1));
      cbn [andb]; try lia; try done.
    + rewrite (proj2 (Z.eqb_neq _ (d - 1))) by lia. do 2 f_equal. lia.
    + subst x. f_equal. rewrite u8_small by apply byte_at_range. f_equal. lia.
Qed.

(** [memmove] copies as if through a temporary array, for every overlap. *)
Lemma memmove_store (m : memory) (dst src n : Z) :
  0 <= n -> memmove m dst src n = store m dst (load m src (Z.to_nat n)).
Proof.
  intros Hn. unfold memmove. destruct (Z.eqb_spec n 0) as [->|Hn0]; [done|].
  apply store_unique; rewrite length_load.
  - intros x Hx. destruct (Z.ltb_spec src dst), (Z.ltb_spec dst (src + n)); cbn [andb].
    1: rewrite copy_down_lookup by lia; destruct (Z.leb_spec (dst + n - Z.of_nat (Z.to_nat n)) x),
         (Z.ltb_spec x (dst + n)); simpl; try done; lia.
    all: rewrite copy_up_lookup by lia; destruct (Z.leb_spec dst x),
           (Z.ltb_spec x (dst + Z.of_nat (Z.to_nat n))); simpl; try done; lia.
  - intros i Hi. rewrite nth_load by lia. rewrite u8_small by apply byte_at_range.
    destruct (Z.ltb_spec src dst), (Z.ltb_spec dst (src + n)); cbn [andb].
    1: rewrite copy_down_lookup, (proj2 (Z.leb_le _ _)), (proj2 (Z.ltb_lt _ _)) by lia;
         cbn [andb]; do 2 f_equal; lia.
    all: rewrite copy_up_lookup, (proj2 (Z.leb_le _ _)), (proj2 (Z.ltb_lt _ _)) by lia;
           cbn [andb]; do 2 f_equal; lia.
Qed.

(** [memcmp] is 0 exactly when the first [n] bytes agree. *)
Lemma memcmp_zero (s1 s2 : Z -> Z) (n : Z) :
  memcmp s1 s2 n = 0 <-> forall i, 0 <= i < n -> s1 i = s2 i.
Proof.
  unfold memcmp. assert (forall k i, memcmp_loop s1 s2 i k = 0 <->
    forall j, i <= j < i + Z.of_nat k -> s1 j = s2 j) as H.
  { induction k as [|k IH]; intros i; cbn [memcmp_loop].
    - split; [intros; lia|done].
    - destruct (Z.eqb_spec (s1 i) (s2 i)) as [E|E].
      + rewrite IH. split; intros Hj j Hr; [|apply Hj; lia].
        destruct (Z.eq_dec j i) as [->|]; [done|]. apply Hj. lia.
      + split; [lia|]. intros Hj. contradict E. apply Hj. lia. }
  rewrite H. split; intros Hj i Hr; apply Hj; lia.
Qed.

(** ** Strings *)

(** [strncmp] is 0 exactly when the strings agree up to the first terminator
    or the first [n] characters. *)
Lemma strncmp_zero (p q : Z -> Z) (n : Z) :
  (forall i, is_byte (p i)) -> (forall i, is_byte (q i)) ->
  strncmp p q n = 0 <->
  forall i, 0 <= i < n -> (forall j, 0 <= j < i -> p j <> 0) -> p i = q i.
Proof.
  intros Hp Hq. unfold strncmp. assert (forall k i, strncmp_loop p q i k = 0 <->
    forall x, i <= x < i + Z.of_nat k -> (forall j, i <= j < x -> p j <> 0) -> p x = q x) as H.
  { induction k as [|k IH]; intros i; cbn [strncmp_loop]; [split; [intros; lia|done]|].
    rewrite !u8_small by done. unfold truth.
    destruct (Z.eqb_spec (p i) 0) as [E0|E0], (Z.eqb_spec (p i) (q i)) as [E|E]; cbn [negb andb].
    - split; [|lia]. intros _ x Hx Hj. destruct (Z.eq_dec x i) as [->|]; [done|].
      contradict E0. apply Hj. lia.
    - split; [lia|]. intros Hx. contradict E. apply Hx; intros; lia.
    - rewrite IH. split; intros Hx x Hr Hj.
      + destruct (Z.eq_dec x i) as [->|]; [done|]. apply Hx; [lia|]. intros j Hjr. apply Hj. lia.
      + apply Hx; [lia|]. intros j Hjr. destruct (Z.eq_dec j i) as [->|]; [done|]. apply Hj. lia.
    - split; [lia|]. intros Hx. contradict E. apply Hx; intros; lia. }
  rewrite H. split; intros Hx x Hr Hj; apply Hx; auto; lia.
Qed.

(** The [n] bytes that [strncpy] writes. *)
Fixpoint strncpy_bytes (t : Z -> Z) (i : Z) (k : nat) : list Z :=
  match k with
  | O => []
  | S k => if truth (t i) then t i :: strncpy_bytes t (i + 1) k else repeat 0 (S k)
  end.

Lemma length_strncpy_bytes (t : Z -> Z) (i : Z) (k : nat) : length (strncpy_bytes t i k) = k.
Proof.
  revert i. induction k as [|k IH]; intros i; cbn [strncpy_bytes]; [done|].
  destruct (truth _); cbn [length]; [by rewrite IH|]. by rewrite repeat_length.
Qed.

Lemma zero_up_store (m : memory) (s : Z) (k : nat) : zero_up m s k = store m s (repeat 0 k).
Proof. revert m s. induction k as [|k IH]; intros m s; [done|]. cbn [zero_up repeat store]. apply IH. Qed.

Lemma strncpy_bytes_ext (t t' : Z -> Z) (i : Z) (k : nat) :
  (forall j, i <= j < i + Z.of_nat k -> t' j = t j) -> strncpy_bytes t' i k = strncpy_bytes t i k.
Proof.
  revert i. induction k as [|k IH]; intros i H; cbn [strncpy_bytes]; [done|].
  rewrite H by lia. destruct (truth _); [|done]. f_equal. apply IH. intros j Hj. apply H. lia.
Qed.

Lemma strncpy_store (m : memory) (s t n : Z) :
  s + n <= t \/ t + n <= s ->
  strncpy m s t n = store m s (strncpy_bytes (at_addr m t) 0 (Z.to_nat n)).
Proof.
  intros Hd. unfold strncpy, at_addr.
  assert (forall k m i, 0 <= i -> i + Z.of_nat k <= n -> strncpy_loop m (s + i) (t + i) k =
    store m (s + i) (strncpy_bytes (fun j => byte_at m (t + j)) i k)) as H.
  { clear m. induction k as [|k IH]; intros m i H0 H1; cbn [strncpy_loop strncpy_bytes]; [done|].
    destruct (truth (byte_at m (t + i))) eqn:T; cbn [store repeat].
    - rewrite <- !Z.add_assoc, IH by lia. f_equal. apply strncpy_bytes_ext. intros j Hj.
      rewrite byte_at_set_byte. rewrite (proj2 (Z.eqb_neq _ _)) by lia. done.
    - rewrite zero_up_store. by apply truth_false in T as ->. }
  specialize (H (Z.to_nat n) m 0). rewrite !Z.add_0_r in H.
  destruct (Z_le_gt_dec 0 n); [apply H; lia|]. by replace (Z.to_nat n) with O by lia.
Qed.

(** [str_copied m m' s t i n]: from offset [i] on, [m'] holds at [s] a terminated
    copy, of length at most [n - 1], of the string that [m] has at [t], and
    nothing else changed. *)
Definition str_copied (m m' : memory) (s t i n : Z) : Prop :=
  exists j, i <= j < n /\
    (forall x, i <= x < j -> byte_at m' (s + x) = byte_at m (t + x) /\ byte_at m (t + x) <> 0) /\
    byte_at m' (s + j) = 0 /\
    (j = n - 1 \/ byte_at m (t + j) = 0) /\
    (forall x, x < s + i \/ s + n <= x -> byte_at m' x = byte_at m x).

Lemma str_copied_stop (m m' : memory) (s t i n : Z) :
  0 <= i < n -> byte_at m' (s + i) = 0 -> i = n - 1 \/ byte_at m (t + i) = 0 ->
  (forall x, x < s + i \/ s + n <= x -> byte_at m' x = byte_at m x) -> str_copied m m' s t i n.
Proof. intros Hi Hz Hs Ho. exists i. split_and!; auto; lia. Qed.

Lemma str_copied_step (m m' : memory) (s t i n : Z) :
  s + n <= t \/ t + n <= s -> 0 <= i < n -> byte_at m (t + i) <> 0 ->
  str_copied (set_byte m (s + i) (byte_at m (t + i))) m' s t (i + 1) n -> str_copied m m' s t i n.
Proof.
  intros Hd Hi Hnz (j & Hj & Hc & Hz & He & Ho).
  assert (forall x, i <= x < n -> byte_at (set_byte m (s + i) (byte_at m (t + i))) (t + x)
                                  = byte_at m (t + x)) as Ht.
  { intros x Hx. rewrite byte_at_set_byte. by rewrite (proj2 (Z.eqb_neq _ _)) by lia. }
  exists j. split_and!; try lia.
  - intros x Hx. destruct (Z.eq_dec x i) as [->|].
    + rewrite Ho by lia. by rewrite byte_at_set_byte, Z.eqb_refl, u8_small by apply byte_at_range.
    + rewrite <- (Ht x) by lia. apply Hc. lia.
  - rewrite <- (Ht j) by lia. done.
  - intros x Hx. rewrite Ho by lia. rewrite byte_at_set_byte.
    by rewrite (proj2 (Z.eqb_neq _ _)) by lia.
Qed.

Lemma safestrcpy_loop_copied (s t n : Z) (k : nat) (m : memory) (i : Z) :
  s + n <= t \/ t + n <= s -> 0 <= i -> i + Z.of_nat k = n - 1 ->
  str_copied m (safestrcpy_loop m (s + i) (t + i) k) s t i n.
Proof.
  intros Hd. revert m i. induction k as [|k IH]; intros m i H0 H1; cbn [safestrcpy_loop].
  - apply str_copied_stop; [lia| |lia|].
    + by rewrite byte_at_set_byte, Z.eqb_refl.
    + intros x Hx. rewrite byte_at_set_byte. by rewrite (proj2 (Z.eqb_neq _ _)) by lia.
  - destruct (truth (byte_at m (t + i))) eqn:T.
    + apply str_copied_step; [done|lia|by apply truth_true|].
      rewrite <- !Z.add_assoc. apply IH; lia.
    + apply truth_false in T. apply str_copied_stop; [lia| |auto|].
      * rewrite !byte_at_set_byte, Z.eqb_refl, T. by rewrite (proj2 (Z.eqb_neq _ _)) by lia.
      * intros x Hx. rewrite !byte_at_set_byte. by rewrite !(proj2 (Z.eqb_neq _ _)) by lia.
Qed.

(** [strlen] finds the first terminator. *)
Lemma strlen_spec (s : Z -> Z) (n : Z) (fuel : nat) :
  0 <= n -> (Z.to_nat n < fuel)%nat -> s n = 0 -> (forall i, 0 <= i < n -> s i <> 0) ->
  strlen s fuel = Some n.
Proof.
  intros H0 Hf Hz Hnz. unfold strlen.
  assert (forall fuel i, 0 <= i <= n -> (Z.to_nat (n - i) < fuel)%nat -> strlen_loop s i fuel = Some n) as H.
  { clear Hf fuel. induction fuel as [|fuel IH]; intros i Hi Hf; [lia|]. cbn [strlen_loop].
    destruct (Z.eq_dec i n) as [->|]; [by rewrite Hz|].
    destruct (truth (s i)) eqn:T; [apply IH; lia|].
    apply truth_false in T. by apply Hnz in T; [|lia]. }
  apply H; lia.
Qed.

(** ** Properties *)

(** [memmove] copies as if through a temporary array, however source and
    destination overlap: each destination byte gets the source byte from
    before the call, and no other byte changes. *)
Theorem memmove_overlap (m : memory) (dst src n x : Z) :
  0 <= n ->
  byte_at (memmove m dst src n) x =
    if (dst <=? x) && (x <? dst + n) then byte_at m (src + (x - dst)) else byte_at m x.
Proof.
  intros Hn. rewrite memmove_store, byte_at_store, length_load, Z2Nat.id by done.
  destruct (Z.leb_spec dst x), (Z.ltb_spec x (dst + n)); cbn [andb]; try done.
  rewrite nth_load, u8_small by (lia || apply byte_at_range). f_equal. lia.
Qed.

Lemma memmove_overlap_witness :
  let m := store ∅ 100 [1; 2; 3; 4; 5] in
  0 <= 4 /\ load (memmove m 101 100 4) 100 6 = [1; 1; 2; 3; 4; 0] /\
  byte_at (memmove m 101 100 4) 103 = byte_at m 102.
Proof.
  cbv zeta. split; [done|]. split; [vm_compute; reflexivity|].
  exact (memmove_overlap (store ∅ 100 [1; 2; 3; 4; 5]) 101 100 4 103 ltac:(done)).
Defined.

(** [safestrcpy] copies the string up to its terminator or its first
    [n - 1] characters, always terminates the copy, and writes nothing outside
    the [n] bytes of the destination. *)
Theorem safestrcpy_terminates (m : memory) (s t n : Z) :
  0 < n -> s + n <= t \/ t + n <= s -> str_copied m (safestrcpy m s t n) s t 0 n.
Proof.
  intros Hn Hd. unfold safestrcpy. rewrite (proj2 (Z.leb_gt n 0)) by lia.
  pose proof (safestrcpy_loop_copied s t n (Z.to_nat (n - 1)) m 0 Hd) as H.
  rewrite !Z.add_0_r in H. apply H; lia.
Qed.

Lemma safestrcpy_terminates_witness :
  let m := store ∅ 100 [104; 101; 108; 108; 111; 0] in
  str_copied m (safestrcpy m 200 100 4) 200 100 0 4 /\
  load (safestrcpy m 200 100 4) 200 4 = [104; 101; 108; 0].
Proof.
  cbv zeta. split; [|vm_compute; reflexivity].
  apply (safestrcpy_terminates (store ∅ 100 [104; 101; 108; 108; 111; 0]) 200 100 4); lia.
Defined.

Arguments memset : simpl never.
Arguments memmove : simpl never.

#[global] Opaque memset memmove.
