(* ===== verification/Kalloc.v ===== *)
(** * The physical page allocator (kernel/kalloc.c)

    The free pages form a list linked through their own first words.  The
    representation invariant [heap_ok h fl] says that the chain that starts at
    [kmem.freelist] runs through the distinct pages [fl].  [hwp] is the program
    logic for code that touches memory and the allocator only: a statement
    [hwp m h Q] holds in every kernel state with heap [h] in which the
    allocator's lock is free, and says that nothing but the heap changes. *)
From S2P Require Import Prelude Memory Riscv State Spinlock Cstring.

(** ** Memory accesses of kernel code *)
Definition get_mem : M memory := gets (fun s => mem (k_heap s)).
Definition put_mem (m : memory) : M unit :=
  modify (fun s => s <| k_heap := (k_heap s) <| mem := m |> |>).
Definition get_freelist : M Z := gets (fun s => freelist (k_heap s)).
Definition put_freelist (p : Z) : M unit :=
  modify (fun s => s <| k_heap := (k_heap s) <| freelist := p |> |>).

Definition ld64 (a : Z) : M Z := m ← get_mem; mret (load64 m a).
Definition st64 (a v : Z) : M unit := m ← get_mem; put_mem (store64 m a v).
Definition memset_at (dst c n : Z) : M unit := m ← get_mem; put_mem (memset m dst c n).
Definition memmove_at (dst src n : Z) : M unit := m ← get_mem; put_mem (memmove m dst src n).

Section kalloc.
Context {L : Linker}.

(** ** kernel/kalloc.c *)
Definition kfree (pa : Z) : M unit :=
  if negb (pa mod PGSIZE =? 0) || (pa <? sym_end) || (PHYSTOP <=? pa) then panic "kfree" else
  memset_at pa 1 PGSIZE;;
  acquire L_kmem;;
  next ← get_freelist;
  st64 pa next;;
  put_freelist pa;;
  release L_kmem.

Definition kalloc : M Z :=
  acquire L_kmem;;
  r ← get_freelist;
  (if truth r then next ← ld64 r; put_freelist next else mret tt);;
  release L_kmem;;
  (if truth r then memset_at r 5 PGSIZE else mret tt);;
  mret r.

Definition freerange (pa_start pa_end : Z) : M unit :=
  loop (fun p => if p + PGSIZE <=? pa_end then kfree p;; mret (inl (p + PGSIZE)) else mret (inr tt))
    (PGROUNDUP pa_start).

Definition kinit : M unit :=
  put_lock L_kmem initlock;;
  freerange sym_end PHYSTOP.

(** ** The heap logic *)
Definition kmem_ready (s : kstate) : Prop := cpu_ok (k_ctl s) /\ lock_free L_kmem (k_ctl s).

Definition hwp {A} (m : M A) (h : heap) (Q : A -> heap -> Prop) : Prop :=
  forall s, kmem_ready s -> k_heap s = h ->
  runs m s (fun a s' => s' = s <| k_heap := k_heap s' |> /\ Q a (k_heap s')).

Lemma heap_put_same (s : kstate) : s <| k_heap := k_heap s |> = s.
Proof. by destruct s. Qed.

Lemma hwp_ret {A} (a : A) h (Q : A -> heap -> Prop) : Q a h -> hwp (mret a) h Q.
Proof. intros HQ s Hr <-. apply runs_ret. by rewrite heap_put_same. Qed.

Lemma hwp_bind {A B} (m : M A) (k : A -> M B) h (Q : B -> heap -> Prop) :
  hwp m h (fun a h' => hwp (k a) h' Q) -> hwp (a ← m; k a) h Q.
Proof.
  intros H s Hr Hh. apply runs_bind. eapply runs_mono; [by apply H|].
  intros a s1 [E1 H1]. assert (kmem_ready s1) as Hr1 by (by rewrite E1).
  eapply runs_mono; [by apply H1|]. intros b s2 [E2 H2]. split; [|done].
  rewrite E2, E1. by destruct s.
Qed.

Lemma hwp_mono {A} (m : M A) h (Q R : A -> heap -> Prop) :
  hwp m h Q -> (forall a h', Q a h' -> R a h') -> hwp m h R.
Proof. intros H HQR s Hr Hh. eapply runs_mono; [by apply H|]. intros a s' [? ?]. auto. Qed.

Lemma hwp_assoc {A B C} (m : M A) (k : A -> M B) (k' : B -> M C) h (Q : C -> heap -> Prop) :
  hwp (b ← (a ← m; k a); k' b) h Q -> hwp (a ← m; b ← k a; k' b) h Q.
Proof.
  intros H s Hr Hh. specialize (H s Hr Hh). unfold runs, mbind, M_bind in *. by destruct (m s).
Qed.

Lemma hwp_get_mem h (Q : memory -> heap -> Prop) : Q (mem h) h -> hwp get_mem h Q.
Proof. intros HQ s Hr <-. apply runs_gets. by rewrite heap_put_same. Qed.

Lemma hwp_put_mem m h (Q : unit -> heap -> Prop) : Q tt (h <| mem := m |>) -> hwp (put_mem m) h Q.
Proof. intros HQ s Hr <-. apply runs_modify. done. Qed.

Lemma hwp_ld64 a h (Q : Z -> heap -> Prop) : Q (load64 (mem h) a) h -> hwp (ld64 a) h Q.
Proof. intros HQ. apply hwp_bind, hwp_get_mem. by apply hwp_ret. Qed.

Lemma hwp_st64 a v h (Q : unit -> heap -> Prop) :
  Q tt (h <| mem := store64 (mem h) a v |>) -> hwp (st64 a v) h Q.
Proof. intros HQ. apply hwp_bind, hwp_get_mem. by apply hwp_put_mem. Qed.

Lemma hwp_memset dst c n h (Q : unit -> heap -> Prop) :
  Q tt (h <| mem := memset (mem h) dst c n |>) -> hwp (memset_at dst c n) h Q.
Proof. intros HQ. apply hwp_bind, hwp_get_mem. by apply hwp_put_mem. Qed.

Lemma hwp_memmove dst src n h (Q : unit -> heap -> Prop) :
  Q tt (h <| mem := memmove (mem h) dst src n |>) -> hwp (memmove_at dst src n) h Q.
Proof. intros HQ. apply hwp_bind, hwp_get_mem. by apply hwp_put_mem. Qed.

Lemma hwp_loop {X R} (I : X -> heap -> Prop) (f : X -> heap -> Z) (body : X -> M (X + R))
    (x : X) (h : heap) (Q : R -> heap -> Prop) :
  I x h -> f x h < 2 ^ 64 ->
  (forall x h, I x h -> hwp (body x) h (fun r h' =>
     match r with inl x' => I x' h' /\ 0 <= f x' h' < f x h | inr v => Q v h' end)) ->
  hwp (loop body x) h Q.
Proof.
  intros HI Hf Hb s Hr Hh.
  apply (runs_loop (fun x s' => s' = s <| k_heap := k_heap s' |> /\ I x (k_heap s'))
                   (fun x s' => f x (k_heap s'))).
  - by rewrite heap_put_same, Hh.
  - by rewrite Hh.
  - intros x1 s1 [E1 H1]. assert (kmem_ready s1) as Hr1 by (by rewrite E1).
    eapply runs_mono; [by apply (Hb x1 (k_heap s1))|].
    intros r s2 [E2 H2]. assert (s2 = s <| k_heap := k_heap s2 |>) as E by (rewrite E2, E1; by destruct s).
    destruct r; [|done]. by destruct H2.
Qed.

(** What a heap statement says of a run from a given state. *)
Lemma hwp_run {A} (m : M A) (s : kstate) (Q : A -> heap -> Prop) :
  hwp m (k_heap s) Q -> kmem_ready s ->
  exists a h, m s = Ret a (s <| k_heap := h |>) /\ Q a h.
Proof.
  intros H Hr. destruct (runs_inv _ _ _ (H s Hr eq_refl)) as (a & s' & E & Es & HQ).
  exists a, (k_heap s'). by rewrite E, <- Es.
Qed.

(** ** Representation of the free list *)
Fixpoint chain (m : memory) (p : Z) (l : list Z) : Prop :=
  match l with
  | [] => p = 0
  | x :: l => p = x /\ chain m (load64 m x) l
  end.

Definition page_ok (p : Z) : Prop := p mod PGSIZE = 0 /\ sym_end <= p < PHYSTOP.

Record heap_ok (h : heap) (fl : list Z) : Prop := {
  heap_chain : chain (mem h) (freelist h) fl;
  heap_nodup : NoDup fl;
  heap_pages : Forall page_ok fl;
}.

(** The addresses of the page at [p]. *)
Definition in_page (p x : Z) : Prop := p <= x < p + PGSIZE.

Lemma pages_disjoint (p q x : Z) :
  p mod PGSIZE = 0 -> q mod PGSIZE = 0 -> in_page p x -> in_page q x -> p = q.
Proof.
  unfold in_page, PGSIZE. intros Hp Hq H1 H2.
  apply Z.mod_divide in Hp as [a ->]; [|done]. apply Z.mod_divide in Hq as [b ->]; [|done]. lia.
Qed.

Lemma in_page_rounddown (x : Z) : in_page (PGROUNDDOWN x) x.
Proof. unfold in_page. pose proof (PGROUNDDOWN_bounds x). lia. Qed.

Lemma page_last (p : Z) (b : Z) :
  p mod PGSIZE = 0 -> b mod PGSIZE = 0 -> p < b -> p + PGSIZE <= b.
Proof.
  unfold PGSIZE. intros Hp Hb H.
  apply Z.mod_divide in Hp as [x ->]; [|done]. apply Z.mod_divide in Hb as [y ->]; [|done]. lia.
Qed.

Lemma chain_same (m m' : memory) (p : Z) (l : list Z) :
  same_on (fun x => exists q, q ∈ l /\ in_page q x) m m' -> chain m p l -> chain m' p l.
Proof.
  revert p. induction l as [|x l IH]; intros p H; simpl; [done|]. intros [-> Hc]. split; [done|].
  rewrite (load64_same_on _ _ _ _ H).
  - apply IH; [|done]. eapply same_on_weaken; [|done]. intros a (q & Hq & Ha). exists q. split; [by right|done].
  - intros a Ha. exists x. split; [by left|unfold in_page, PGSIZE; lia].
Qed.

Lemma memset_same_on (m : memory) (p c n : Z) :
  0 <= n -> same_on (fun x => x < p \/ p + n <= x) m (memset m p c n).
Proof.
  intros Hn. rewrite memset_store. eapply same_on_weaken; [|apply store_same_on].
  rewrite repeat_length. lia.
Qed.

Lemma memset_page (m : memory) (p c : Z) :
  same_on (fun x => ~ in_page p x) m (memset m p c PGSIZE).
Proof. eapply same_on_weaken; [|apply memset_same_on; done]. unfold in_page. lia. Qed.

Lemma memset_in_page (m : memory) (p c x : Z) : in_page p x -> byte_at (memset m p c PGSIZE) x = u8 c.
Proof.
  unfold in_page. intros Hx. rewrite memset_store, byte_at_store, repeat_length.
  rewrite (proj2 (Z.leb_le p x)), (proj2 (Z.ltb_lt x _)) by (unfold PGSIZE in *; lia). cbn [andb].
  f_equal. apply nth_repeat_lt. unfold PGSIZE in *. lia.
Qed.

Lemma store64_page (m : memory) (p a v : Z) :
  p <= a /\ a + 8 <= p + PGSIZE -> same_on (fun x => ~ in_page p x) m (store64 m a v).
Proof. intros H. eapply same_on_weaken; [|apply store64_same_on]. unfold in_page. lia. Qed.

Lemma heap_ok_cons (h h' : heap) (p : Z) (fl : list Z) :
  heap_ok h fl -> page_ok p -> p ∉ fl -> freelist h' = p ->
  chain (mem h') (load64 (mem h') p) fl -> heap_ok h' (p :: fl).
Proof.
  intros Hok Hp Hnot Hf Hc. split; [done| |].
  - by apply NoDup_cons_2, Hok.
  - by apply Forall_cons_2, Hok.
Qed.

(** Writing inside a page that is not free leaves the free list alone. *)
Lemma chain_write (h : heap) (fl : list Z) (p : Z) (m : memory) :
  heap_ok h fl -> p mod PGSIZE = 0 -> p ∉ fl ->
  same_on (fun x => ~ in_page p x) (mem h) m -> chain m (freelist h) fl.
Proof.
  intros [Hc Hn Hp] Ha Hnot Hs. eapply chain_same; [|done].
  eapply same_on_weaken; [|done]. intros x (q & Hq & Hx) Hin.
  pose proof (proj1 (Forall_forall _ _) Hp q (proj1 (list_elem_of_In _ _) Hq)) as [Hqa _].
  by rewrite (pages_disjoint p q x Ha Hqa Hin Hx) in Hnot.
Qed.

Lemma heap_ok_write (h : heap) (fl : list Z) (p : Z) (m : memory) :
  heap_ok h fl -> p mod PGSIZE = 0 -> p ∉ fl ->
  same_on (fun x => ~ in_page p x) (mem h) m -> heap_ok (h <| mem := m |>) fl.
Proof. intros Hok Ha Hnot Hs. split; [exact (chain_write h fl p m Hok Ha Hnot Hs)|by destruct Hok..]. Qed.

Context {LOk : LinkerOk L}.

Lemma page_ok_pos (p : Z) : page_ok p -> KERNBASE < p < PHYSTOP.
Proof. intros [_ H]. pose proof etext_bounds. lia. Qed.

Lemma page_ok_u64 (p : Z) : page_ok p -> is_u64 p.
Proof.
  intros H. apply page_ok_pos in H. unfold is_u64. change PHYSTOP with 0x88000000 in H.
  change KERNBASE with 0x80000000 in H. lia.
Qed.

Lemma page_ok_truth (p : Z) : page_ok p -> truth p = true.
Proof.
  intros H. apply page_ok_pos in H. unfold truth, KERNBASE in *. by rewrite (proj2 (Z.eqb_neq p 0)) by lia.
Qed.

Lemma heap_ok_freelist (h : heap) (fl : list Z) : heap_ok h fl -> is_u64 (freelist h).
Proof.
  intros [Hc _ Hp]. destruct fl as [|q fl]; simpl in Hc; [by rewrite Hc|].
  destruct Hc as [-> _]. apply Forall_cons_1 in Hp as [Hq _]. by apply page_ok_u64.
Qed.

Lemma kalloc_some (h : heap) (p : Z) (fl : list Z) (Q : Z -> heap -> Prop) :
  heap_ok h (p :: fl) ->
  (forall h', same_on (fun x => ~ in_page p x) (mem h) (mem h') ->
              (forall x, in_page p x -> byte_at (mem h') x = 5) -> heap_ok h' fl -> Q p h') ->
  hwp kalloc h Q.
Proof.
  intros [[Hp Hc] Hn Hpg] HQ s [Hr Hf] Hh. apply list.NoDup_cons in Hn as [Hnot Hn].
  apply Forall_cons_1 in Hpg as [Hok Hpg].
  unfold kalloc. step. apply runs_acquire; [done..|]. step. step. simpl.
  rewrite Hh, Hp, page_ok_truth by done. unfold ld64. steps. simpl.
  eapply runs_release; [done..|]. unfold memset_at. steps. simpl. split; [by destruct s|].
  rewrite Hh. apply HQ; [apply memset_page|intros x; apply memset_in_page|].
  apply (heap_ok_write (h <| freelist := load64 (mem h) p |>) fl p); [by split|apply Hok|done|].
  apply memset_page.
Qed.

Lemma kalloc_none (h : heap) (Q : Z -> heap -> Prop) :
  heap_ok h [] -> Q 0 h -> hwp kalloc h Q.
Proof.
  intros [Hp _ _] HQ s [Hr Hf] Hh. simpl in Hp.
  unfold kalloc. step. apply runs_acquire; [done..|]. step. step. simpl.
  rewrite Hh, Hp. change (truth 0) with false. steps.
  eapply runs_release; [done..|]. steps. simpl. split; [by destruct s|]. by rewrite Hh.
Qed.

Lemma kfree_ok (h : heap) (p : Z) (fl : list Z) (Q : unit -> heap -> Prop) :
  heap_ok h fl -> page_ok p -> p ∉ fl ->
  (forall h', same_on (fun x => ~ in_page p x) (mem h) (mem h') ->
              heap_ok h' (p :: fl) -> Q tt h') ->
  hwp (kfree p) h Q.
Proof.
  intros Hok Hp Hnot HQ s [Hr Hf] Hh. pose proof Hp as [Ha Hb]. unfold kfree.
  rewrite Ha, (proj2 (Z.ltb_ge p sym_end)), (proj2 (Z.leb_gt PHYSTOP p)) by lia. cbn [negb Z.eqb orb].
  unfold memset_at. steps. simpl. apply runs_acquire; [done..|]. unfold st64. steps. simpl.
  eapply runs_release; [done..|]. simpl. split; [by destruct s|]. rewrite Hh.
  assert (same_on (fun x => ~ in_page p x) (mem h) (store64 (memset (mem h) p 1 PGSIZE) p (freelist h))) as Hs.
  { etransitivity; [apply memset_page|]. apply store64_page. unfold PGSIZE. lia. }
  apply HQ; [exact Hs|].
  apply (heap_ok_cons h _ p fl); [done..|]. cbn [mem freelist set_with set_mem set_freelist].
  rewrite load64_store64_eq, u64_small; [by apply (chain_write h fl p)|]. by apply (heap_ok_freelist h fl).
Qed.

(** ** Boot: [kinit] puts every page between the kernel and PHYSTOP on the list *)
Definition page_run (p : Z) (n : nat) : list Z := (fun i => p + PGSIZE * Z.of_nat i) <$> seq 0 n.

Definition boot_pages : list Z :=
  page_run (PGROUNDUP sym_end) (Z.to_nat ((PHYSTOP - PGROUNDUP sym_end) / PGSIZE)).

Lemma page_run_snoc (p : Z) (n : nat) :
  rev (page_run p (S n)) = p + PGSIZE * Z.of_nat n :: rev (page_run p n).
Proof. unfold page_run. by rewrite seq_S, fmap_app, rev_app_distr. Qed.

Lemma elem_of_page_run (p x : Z) (n : nat) :
  x ∈ rev (page_run p n) -> exists i, 0 <= i < Z.of_nat n /\ x = p + PGSIZE * i.
Proof.
  unfold page_run. intros H. rewrite list_elem_of_In, <- in_rev, <- list_elem_of_In in H. apply list_elem_of_fmap in H as (i & -> & Hi).
  apply elem_of_seq in Hi. exists (Z.of_nat i). split; [lia|done].
Qed.

Lemma freerange_ok (pa_start pa_end : Z) (h : heap) (Q : unit -> heap -> Prop) :
  let p := PGROUNDUP pa_start in
  heap_ok h [] -> sym_end <= p <= pa_end -> pa_end <= PHYSTOP ->
  (forall h', heap_ok h' (rev (page_run p (Z.to_nat ((pa_end - p) / PGSIZE)))) -> Q tt h') ->
  hwp (freerange pa_start pa_end) h Q.
Proof.
  intros p Hok Hlo Hhi HQ. pose proof (PGROUNDUP_aligned pa_start) as Ha. fold p in Ha.
  unfold freerange. fold p.
  apply (hwp_loop (fun x h => exists n, x = p + PGSIZE * Z.of_nat n /\ x <= pa_end /\
                                        heap_ok h (rev (page_run p n))) (fun x _ => pa_end - x)).
  - exists O. split_and!; [lia|lia|done].
  - pose proof etext_bounds. change PHYSTOP with 0x88000000 in *. change KERNBASE with 0x80000000 in *. lia.
  - clear h Hok. intros x h (n & Hx & Hle & Hok).
    destruct (Z.leb_spec (x + PGSIZE) pa_end) as [Hmore|Hend].
    + apply hwp_bind, (kfree_ok h x _ _ Hok).
      * split; [|unfold PGSIZE in *; lia]. rewrite Hx, Z.mul_comm, Z.mod_add by done. exact Ha.
      * intros Hin. apply elem_of_page_run in Hin as (i & Hi & E). unfold PGSIZE in *. lia.
      * intros h' _ Hok'. apply hwp_ret. split; [|unfold PGSIZE in *; lia].
        exists (S n). rewrite page_run_snoc, <- Hx. split_and!; [lia|lia|done].
    + apply hwp_ret, HQ. replace (Z.to_nat _) with n; [done|].
      assert ((pa_end - p) / PGSIZE = Z.of_nat n) as E; [|lia].
      symmetry. apply (Z.div_unique _ _ _ (pa_end - x)); unfold PGSIZE in *; lia.
Qed.

Lemma kinit_ok (s : kstate) :
  cpu_ok (k_ctl s) -> freelist (k_heap s) = 0 ->
  exists h, kinit s = Ret tt (s <| k_ctl := (k_ctl s) <| locks := delete L_kmem (locks (k_ctl s)) |> |>
                               <| k_heap := h |>)
            /\ heap_ok h (rev boot_pages).
Proof.
  intros Hc Hz. set (s1 := s <| k_ctl := (k_ctl s) <| locks := delete L_kmem (locks (k_ctl s)) |> |>).
  assert (kmem_ready s1) as Hr.
  { split; [by destruct Hc; split|]. apply lookup_delete_eq. }
  assert (heap_ok (k_heap s1) []) as Hok by (split; simpl; auto; constructor).
  assert (hwp (freerange sym_end PHYSTOP) (k_heap s1) (fun _ h => heap_ok h (rev boot_pages))) as Hw.
  { pose proof etext_bounds. pose proof end_bounds. pose proof (PGROUNDUP_bounds sym_end) as Hb.
    change PHYSTOP with 0x88000000 in *. change KERNBASE with 0x80000000 in *.
    specialize (Hb ltac:(lia) ltac:(unfold PGSIZE; lia)).
    apply freerange_ok; [done| |done|done]. split; [lia|].
    assert (PGROUNDUP sym_end < 0x88000000 + PGSIZE) as Hlt by lia.
    pose proof (page_last (PGROUNDUP sym_end - PGSIZE) 0x88000000) as Hl.
    rewrite Zminus_mod, PGROUNDUP_aligned in Hl. unfold PGSIZE in *. specialize (Hl eq_refl eq_refl). lia. }
  destruct (hwp_run _ _ _ Hw Hr) as (a & h & E & HQ). destruct a. exists h. split; [|done].
  unfold kinit, mbind, M_bind, put_lock, modify. rewrite decide_True by done. exact E.
Qed.

(** ** A client of the allocator

    Serve a sequence of requests, keeping the pages handed out; the client
    frees only pages it has. *)
Inductive request := Alloc | Free (p : Z).

Fixpoint serve (rs : list request) (live : list Z) : M (list Z) :=
  match rs with
  | [] => mret live
  | Alloc :: rs => p ← kalloc; serve rs (if truth p then p :: live else live)
  | Free p :: rs => match list_remove p live with
                    | Some live => kfree p;; serve rs live
                    | None => serve rs live
                    end
  end.

(** Free and live pages are together always the same, with no page twice. *)
Lemma serve_partition (rs : list request) (live fl : list Z) (h : heap) :
  heap_ok h fl -> Forall page_ok live -> NoDup (fl ++ live) ->
  hwp (serve rs live) h (fun live' h' => exists fl', heap_ok h' fl' /\ fl' ++ live' ≡ₚ fl ++ live).
Proof.
  revert live fl h. induction rs as [|[|p] rs IH]; intros live fl h Hok Hp Hn; cbn [serve].
  - apply hwp_ret. by exists fl.
  - apply hwp_bind. destruct fl as [|p fl].
    + apply kalloc_none; [done|]. change (truth 0) with false. by apply IH.
    + pose proof (heap_pages _ _ Hok) as Hpg. apply Forall_cons_1 in Hpg as [Hpp Hpg].
      apply (kalloc_some h p fl); [done|]. intros h' _ _ Hok'. rewrite page_ok_truth by done.
      assert (fl ++ p :: live ≡ₚ (p :: fl) ++ live) as E by (symmetry; apply Permutation_middle).
      eapply hwp_mono; [apply (IH _ fl); [done|by apply Forall_cons_2|by rewrite E]|].
      intros live' h2 (fl' & H1 & H2). exists fl'. split; [done|]. by rewrite H2, E.
  - destruct (list_remove p live) as [live1|] eqn:R; [|by apply IH].
    apply list_remove_Some in R. rewrite R in Hp, Hn. apply Forall_cons_1 in Hp as [Hpp Hp].
    assert (fl ++ p :: live1 ≡ₚ (p :: fl) ++ live1) as E by (symmetry; apply Permutation_middle).
    rewrite E in Hn. pose proof Hn as Hn'. apply list.NoDup_cons in Hn' as [Hnot _].
    rewrite elem_of_app in Hnot.
    apply hwp_bind, (kfree_ok h p fl); [done|done|tauto|]. intros h' _ Hok'.
    eapply hwp_mono; [by apply (IH _ (p :: fl))|].
    intros live' h2 (fl' & H1 & H2). exists fl'. split; [done|]. by rewrite H2, R, E.
Qed.

Lemma delete_lock_free (s : kstate) :
  lock_free L_kmem (k_ctl s) ->
  s <| k_ctl := (k_ctl s) <| locks := delete L_kmem (locks (k_ctl s)) |> |> = s.
Proof. destruct s as [[] ? ? ? ? ?]. unfold lock_free. simpl. intros H. cbn. by rewrite delete_id. Qed.

(** ** Properties *)

(** C10. From boot on, the allocator neither loses nor duplicates a page: after
    [kinit] and any sequence of [kalloc] and [kfree] calls in which the client
    frees only pages it holds, the free pages and the pages in use are
    together exactly the pages between the end of the kernel and PHYSTOP, each
    once, and the control state is as it was. *)
Theorem boot_allocator (rs : list request) (s : kstate) :
  cpu_ok (k_ctl s) -> freelist (k_heap s) = 0 -> lock_free L_kmem (k_ctl s) ->
  exists live h fl, (kinit;; serve rs []) s = Ret live (s <| k_heap := h |>) /\
    heap_ok h fl /\ fl ++ live ≡ₚ boot_pages.
Proof using LOk.
  intros Hc Hz Hf. destruct (kinit_ok s Hc Hz) as (h1 & E1 & Hok1).
  rewrite (delete_lock_free s Hf) in E1. rewrite (bind_ret _ _ _ _ _ E1).
  pose proof (heap_nodup _ _ Hok1) as Hn.
  assert (hwp (serve rs []) (k_heap (s <| k_heap := h1 |>)) (fun live h => exists fl, heap_ok h fl /\ fl ++ live ≡ₚ rev boot_pages ++ [])) as Hw
    by (apply serve_partition; [done|constructor|by rewrite app_nil_r]).
  destruct (hwp_run (serve rs []) (s <| k_heap := h1 |>) _ Hw) as (live & h & E & fl & Hok & Hp); [done|].
  exists live, h, fl. split; [rewrite E; by destruct s|]. split; [done|].
  rewrite Hp, app_nil_r. symmetry. apply Permutation_rev.
Qed.

End kalloc.

(** A kernel image as the linker may place it. *)
Definition demo_linker : Linker :=
  {| sym_etext := 0x80008000; sym_end := 0x80026280; sym_trampoline := 0x80007000;
     sym_uservec := 0x80007000; sym_userret := 0x80007090; sym_kernelvec := 0x80005c90;
     sym_usertrap := 0x800027f4; sym_forkret := 0x800019d8; sym_vdisk_pages := 0x80024000 |}.

Lemma demo_linker_ok : LinkerOk demo_linker.
Proof. by split; vm_compute. Qed.

Lemma boot_allocator_witness :
  exists live h fl,
    (kinit (L := demo_linker);; serve (L := demo_linker) [Alloc; Alloc; Free 0x87fff000] [])
      (blank boot_ctl (Heap ∅ 0 0)) = Ret live (blank boot_ctl h) /\
    fl ++ live ≡ₚ boot_pages (L := demo_linker).
Proof.
  destruct (boot_allocator (L := demo_linker) (LOk := demo_linker_ok)
              [Alloc; Alloc; Free 0x87fff000] (blank boot_ctl (Heap ∅ 0 0)) boot_ctl_ok eq_refl eq_refl)
    as (live & h & fl & E & _ & Hp).
  exists live, h, fl. split; [exact E|exact Hp].
Defined.
