(* ===== verification/Steps.v ===== *)
(** * Symbolic execution of kernel code

    Rules for a state given by its components, [KState c h pt ft fs vd dev n]:
    taking and giving back a lock, running code of the heap logic, counted
    loops.  The tactic [kstep] applies the rule for the head of a program. *)
From S2P Require Import Prelude Memory Riscv State Spinlock Kalloc.

Section rules.
Context {h : heap} {pt : ptable} {ft : ftable} {fs : fsys} {vd : vdisk} {dev : devs} {n : nat}.

Lemma kacquire (l : lock_id) (c : ctl) (Q : unit -> kstate -> Prop) :
  cpu_ok c -> lock_free l c -> Q tt (KState (locked_ctl l c) h pt ft fs vd dev n) ->
  runs (acquire l) (KState c h pt ft fs vd dev n) Q.
Proof. intros Hc Hf HQ. by apply runs_acquire. Qed.

Lemma krelease (l : lock_id) (c : ctl) (Q : unit -> kstate -> Prop) :
  cpu_ok c -> lock_free l c -> Q tt (KState c h pt ft fs vd dev n) ->
  runs (release l) (KState (locked_ctl l c) h pt ft fs vd dev n) Q.
Proof. intros Hc Hf HQ. by eapply runs_release. Qed.

Lemma kpush_off (c : ctl) (Q : unit -> kstate -> Prop) :
  cpu_ok c -> Q tt (KState (pushed c) h pt ft fs vd dev n) -> runs push_off (KState c h pt ft fs vd dev n) Q.
Proof. intros Hc HQ. eapply runs_eq; [by apply push_off_spec|done]. Qed.

Lemma kpop_off (c : ctl) (Q : unit -> kstate -> Prop) :
  cpu_ok c -> Q tt (KState c h pt ft fs vd dev n) -> runs pop_off (KState (pushed c) h pt ft fs vd dev n) Q.
Proof. intros Hc HQ. eapply runs_eq; [by apply (pop_off_spec _ c)|done]. Qed.

Lemma kmycpu (c : ctl) (Q : nat -> kstate -> Prop) :
  cpu_ok c -> Q (hart c) (KState c h pt ft fs vd dev n) -> runs mycpu (KState c h pt ft fs vd dev n) Q.
Proof. intros Hc HQ. eapply runs_eq; [by apply mycpu_spec, Hc|done]. Qed.

Lemma kheap {A} (m : M A) (c : ctl) (R : A -> heap -> Prop) (Q : A -> kstate -> Prop) :
  cpu_ok c -> lock_free L_kmem c -> hwp m h R ->
  (forall a h', R a h' -> Q a (KState c h' pt ft fs vd dev n)) ->
  runs m (KState c h pt ft fs vd dev n) Q.
Proof.
  intros Hc Hf Hm HQ. eapply runs_mono; [by apply Hm|]. intros a s' [E HR]. rewrite E. by apply HQ.
Qed.

End rules.

(** No lock is held. *)
Definition calm (c : ctl) : Prop := cpu_ok c /\ locks c = ∅.

Lemma calm_ok (c : ctl) : calm c -> cpu_ok c.
Proof. by intros [? _]. Qed.

Lemma calm_free (c : ctl) (l : lock_id) : calm c -> lock_free l c.
Proof. intros [_ H]. unfold lock_free. by rewrite H. Qed.

Lemma kinitlock (l : lock_id) (c : ctl) h pt ft fs vd dev n (Q : unit -> kstate -> Prop) :
  calm c -> Q tt (KState c h pt ft fs vd dev n) -> runs (put_lock l initlock) (KState c h pt ft fs vd dev n) Q.
Proof.
  intros [_ Hl] HQ. apply runs_modify. rewrite decide_True by done. cbn [k_ctl]. rewrite Hl, delete_empty.
  destruct c. cbn in *. by subst.
Qed.

#[export] Hint Resolve calm_ok calm_free : kernel.
#[export] Hint Extern 1 (@eq lock_id _ _ -> False) => discriminate : kernel.
#[export] Hint Extern 1 (not (@eq lock_id _ _)) => discriminate : kernel.
#[export] Hint Extern 1 (not (@eq lock_id _ _)) => congruence : kernel.

(** ** Counted loops *)
Lemma runs_for_each {A} (I : list A -> kstate -> Prop) (l : list A) (body : A -> M unit) (s : kstate)
    (Q : unit -> kstate -> Prop) :
  I l s ->
  (forall x l s, I (x :: l) s -> runs (body x) s (fun _ s' => I l s')) ->
  (forall s, I [] s -> Q tt s) ->
  runs (for_each l body) s Q.
Proof.
  intros HI Hb HQ. revert s HI. induction l as [|x l IH]; intros s HI; cbn [for_each].
  - apply runs_ret. by apply HQ.
  - apply runs_bind. eapply runs_mono; [by apply Hb|]. intros [] s' HI'. by apply IH.
Qed.

Lemma runs_for_until {A R} (I : list A -> kstate -> Prop) (l : list A) (body : A -> M (option R))
    (s : kstate) (Q : option R -> kstate -> Prop) :
  I l s ->
  (forall x l s, I (x :: l) s -> runs (body x) s (fun r s' =>
     match r with Some v => Q (Some v) s' | None => I l s' end)) ->
  (forall s, I [] s -> Q None s) ->
  runs (for_until l body) s Q.
Proof.
  intros HI Hb HQ. revert s HI. induction l as [|x l IH]; intros s HI; cbn [for_until].
  - apply runs_ret. by apply HQ.
  - apply runs_bind. eapply runs_mono; [by apply Hb|]. intros [v|] s' H'; [by apply runs_ret|by apply IH].
Qed.

(** ** Automation *)
Ltac kside := eauto 8 with kernel.
(** Write the updates of a state given by its components into them. *)
Ltac kset :=
  repeat lazymatch goal with
  | |- context [set_with k_ctl ?f (KState ?a ?b ?c ?d ?e ?g ?i ?j)] =>
      change (set_with k_ctl f (KState a b c d e g i j)) with (KState (f a) b c d e g i j)
  | |- context [set_with k_heap ?f (KState ?a ?b ?c ?d ?e ?g ?i ?j)] =>
      change (set_with k_heap f (KState a b c d e g i j)) with (KState a (f b) c d e g i j)
  | |- context [set_with k_pt ?f (KState ?a ?b ?c ?d ?e ?g ?i ?j)] =>
      change (set_with k_pt f (KState a b c d e g i j)) with (KState a b (f c) d e g i j)
  | |- context [set_with k_ft ?f (KState ?a ?b ?c ?d ?e ?g ?i ?j)] =>
      change (set_with k_ft f (KState a b c d e g i j)) with (KState a b c (f d) e g i j)
  | |- context [set_with k_fs ?f (KState ?a ?b ?c ?d ?e ?g ?i ?j)] =>
      change (set_with k_fs f (KState a b c d e g i j)) with (KState a b c d (f e) g i j)
  | |- context [set_with k_vd ?f (KState ?a ?b ?c ?d ?e ?g ?i ?j)] =>
      change (set_with k_vd f (KState a b c d e g i j)) with (KState a b c d e (f g) i j)
  | |- context [set_with k_dev ?f (KState ?a ?b ?c ?d ?e ?g ?i ?j)] =>
      change (set_with k_dev f (KState a b c d e g i j)) with (KState a b c d e g (f i) j)
  | |- context [set_with k_switches ?f (KState ?a ?b ?c ?d ?e ?g ?i ?j)] =>
      change (set_with k_switches f (KState a b c d e g i j)) with (KState a b c d e g i (f j))
  end.
(** Reduce the accesses to the components of the state. *)
Ltac kred :=
  kset; cbv beta;
  cbn [k_ctl k_heap k_pt k_ft k_fs k_vd k_dev k_switches].
Ltac kstep :=
  lazymatch goal with
  | |- runs (mbind _ _) _ _ => apply runs_bind
  | |- runs (mret _) _ _ => apply runs_ret
  | |- runs (acquire _) _ _ => apply kacquire; [kside|kside|]
  | |- runs (release _) _ _ => apply krelease; [kside|kside|]
  | |- runs push_off _ _ => apply kpush_off; [kside|]
  | |- runs pop_off _ _ => apply kpop_off; [kside|]
  | |- runs mycpu _ _ => apply kmycpu; [kside|]
  | |- runs _ _ _ => first [apply runs_gets | apply runs_modify]
  end; kred.
Ltac ksteps := repeat kstep.
