(* ===== verification/Pagetable.v ===== *)
(** * Page tables as trees of pages

    A page table in memory, read as a tree: [node m root path] is the page at
    the end of a path of indices, [pte_at m root path i] the entry with index
    [i] of the page at [path], and [pte_of m root va] the leaf entry of a
    virtual address.  [aspace] is the invariant of an address space and the
    allocator, and the lemmas say how it changes when an entry is written. *)
From S2P Require Import Prelude Memory Riscv State Spinlock Cstring Kalloc.

(** ** Reading a table *)
Definition idx (i : Z) : Prop := 0 <= i < 512.
Definition entry (m : memory) (pt i : Z) : Z := load64 m (pt + 8 * i).
Definition valid (e : Z) : bool := truth (Z.land e PTE_V).
Definition next (m : memory) (pt i : Z) : option Z :=
  let e := entry m pt i in if valid e then Some (PTE2PA e) else None.

Fixpoint node (m : memory) (pt : Z) (path : list Z) : option Z :=
  match path with
  | [] => Some pt
  | i :: path => match next m pt i with Some c => node m c path | None => None end
  end.

Definition pte_at (m : memory) (root : Z) (path : list Z) (i : Z) : Z :=
  match node m root path with Some p => entry m p i | None => 0 end.

Definition path_of (va : Z) : list Z := [PX 2 va; PX 1 va; PX 0 va].
Definition pte_of (m : memory) (root va : Z) : Z := pte_at m root [PX 2 va; PX 1 va] (PX 0 va).

(** A path to an interior page, and a path to a page that the table owns: the
    interior pages, and the mapped pages below [lim]. *)
Definition inner (path : list Z) : Prop := Forall idx path /\ (length path <= 2)%nat.
Definition owned (lim : Z) (path : list Z) : Prop :=
  inner path \/ exists va, 0 <= va < lim /\ path = path_of va.

Definition inner_page (m : memory) (root p : Z) : Prop :=
  exists path, inner path /\ node m root path = Some p.

Lemma PX_idx (level va : Z) : 0 <= level -> idx (PX level va).
Proof. apply PX_range. Qed.
#[local] Hint Resolve PX_idx : core.

Lemma inner_nil : inner [].
Proof. split; [constructor|simpl; lia]. Qed.

Lemma inner_va (va : Z) : inner [PX 2 va; PX 1 va].
Proof. split; [|simpl; lia]. repeat constructor; apply PX_idx; lia. Qed.
#[local] Hint Resolve inner_nil inner_va : core.

Lemma inner_snoc (path : list Z) (i : Z) :
  inner path -> idx i -> (length path < 2)%nat -> inner (path ++ [i]).
Proof.
  intros [Hf Hl] Hi Hlt. split; [apply Forall_app; auto|]. rewrite length_app. simpl. lia.
Qed.

Lemma inner_init (path : list Z) (i : Z) : inner (path ++ [i]) -> inner path /\ idx i /\ (length path < 2)%nat.
Proof.
  intros [Hf Hl]. apply Forall_app in Hf as [H1 H2]. rewrite length_app in Hl. simpl in Hl.
  split_and!; [split; [done|lia]|by apply Forall_cons_1 in H2 as [? _]|lia].
Qed.

Lemma node_app (m : memory) (pt : Z) (a b : list Z) :
  node m pt (a ++ b) = match node m pt a with Some c => node m c b | None => None end.
Proof.
  revert pt. induction a as [|i a IH]; intros pt; simpl; [done|].
  destruct (next m pt i); [apply IH|done].
Qed.

Lemma node_snoc (m : memory) (root : Z) (path : list Z) (i : Z) :
  node m root (path ++ [i]) =
    if valid (pte_at m root path i) then Some (PTE2PA (pte_at m root path i)) else None.
Proof.
  rewrite node_app. unfold pte_at. destruct (node m root path) as [p|]; [|done].
  simpl. unfold next. by destruct (valid (entry m p i)).
Qed.

Lemma node_va (m : memory) (root va : Z) :
  node m root (path_of va) =
    if valid (pte_of m root va) then Some (PTE2PA (pte_of m root va)) else None.
Proof. exact (node_snoc m root [PX 2 va; PX 1 va] (PX 0 va)). Qed.

Lemma path_of_inj (a b : Z) :
  0 <= a < MAXVA -> 0 <= b < MAXVA -> path_of a = path_of b -> a / PGSIZE = b / PGSIZE.
Proof. intros Ha Hb [= H2 H1 H0]. by apply PX_inj. Qed.

Lemma path_of_page (a b : Z) : a / PGSIZE = b / PGSIZE -> path_of a = path_of b.
Proof. intros H. unfold path_of. by rewrite !(PX_same_page _ a b) by done. Qed.

Lemma pte_of_page (m : memory) (root a b : Z) :
  a / PGSIZE = b / PGSIZE -> pte_of m root a = pte_of m root b.
Proof. intros H. unfold pte_of. by rewrite !(PX_same_page _ a b) by done. Qed.

Lemma owned_inner (lim : Z) (path : list Z) : inner path -> owned lim path.
Proof. by left. Qed.

Lemma owned_va (lim va : Z) : 0 <= va < lim -> owned lim (path_of va).
Proof. intros H. right. by exists va. Qed.
#[local] Hint Resolve owned_inner owned_va : core.

Lemma path_of_not_inner (va : Z) : ~ inner (path_of va).
Proof. intros [_ H]. simpl in H. lia. Qed.

(** ** Frames: which pages a run may have written *)
Definition frame (W : Z -> Prop) (m m' : memory) : Prop :=
  same_on (fun x => forall q, W q -> ~ in_page q x) m m'.

#[export] Instance frame_refl W : Reflexive (frame W).
Proof. intros m. apply same_on_refl. Qed.
#[export] Instance frame_trans W : Transitive (frame W).
Proof. intros m1 m2 m3. apply same_on_trans. Qed.

Lemma frame_mono (W W' : Z -> Prop) (m m' : memory) :
  frame W m m' -> (forall q, W q -> W' q) -> frame W' m m'.
Proof. intros H HW. eapply same_on_weaken; [|exact H]. intros x Hx q Hq. auto. Qed.

Lemma frame_page (m m' : memory) (p : Z) :
  same_on (fun x => ~ in_page p x) m m' -> frame (fun q => q = p) m m'.
Proof. intros H. eapply same_on_weaken; [|exact H]. intros x Hx. by apply Hx. Qed.

(** A page outside the frame keeps its contents. *)
Lemma frame_in_page (W : Z -> Prop) (m m' : memory) (p : Z) :
  frame W m m' -> p mod PGSIZE = 0 -> (forall q, W q -> q mod PGSIZE = 0) -> ~ W p ->
  same_on (in_page p) m m'.
Proof.
  intros H Hp HW Hn. eapply same_on_weaken; [|exact H]. intros x Hx q Hq Hin.
  apply Hn. by rewrite (pages_disjoint p q x Hp (HW q Hq) Hx Hin).
Qed.

Lemma entry_same (m m' : memory) (p i : Z) :
  same_on (in_page p) m m' -> idx i -> entry m' p i = entry m p i.
Proof.
  intros H Hi. apply (load64_same_on _ _ _ _ H). unfold idx, in_page, PGSIZE in *. lia.
Qed.

Lemma entry_store_same (m : memory) (p i v : Z) : is_u64 v -> entry (store64 m (p + 8 * i) v) p i = v.
Proof. intros Hv. unfold entry. by rewrite load64_store64_eq, u64_small. Qed.

Lemma entry_store_other (m : memory) (p i q j v : Z) :
  p mod PGSIZE = 0 -> q mod PGSIZE = 0 -> idx i -> idx j -> (q <> p \/ j <> i) ->
  entry (store64 m (p + 8 * i) v) q j = entry m q j.
Proof.
  intros Hp Hq Hi Hj Hne. unfold entry. apply load64_store64_ne.
  unfold idx, PGSIZE in *. apply Z.mod_divide in Hp as [a ->]; [|done].
  apply Z.mod_divide in Hq as [b ->]; [|done]. lia.
Qed.

Lemma store64_frame (m : memory) (p i v : Z) :
  idx i -> frame (fun q => q = p) m (store64 m (p + 8 * i) v).
Proof. intros Hi. apply frame_page, store64_page. unfold idx, PGSIZE in *. lia. Qed.

Lemma valid_0 : valid 0 = false.
Proof. done. Qed.

(** ** Writing one entry

    [m'] differs from [m], on the pages of the tree, only in the entry [i] of
    the page at [path], which becomes [v]; either the entry is a leaf entry,
    or it was invalid and now points to a page of zeros. *)
Section write.
Context (m m' : memory) (root : Z) (path : list Z) (i v : Z).
Hypothesis Hpath : inner path.
Hypothesis Hother : forall path' q j, inner path' -> idx j -> node m root path' = Some q ->
  path' ++ [j] <> path ++ [i] -> entry m' q j = entry m q j.
Hypothesis Hnew : forall q, node m root path = Some q -> entry m' q i = v.
Hypothesis Hnode : node m root path <> None.
Hypothesis Hkind : length path = 2%nat \/
  valid (pte_at m root path i) = false /\ valid v = true /\
  (forall j, idx j -> entry m' (PTE2PA v) j = 0).

Lemma node_write_other (path' : list Z) :
  inner path' -> ~ (path ++ [i]) `prefix_of` path' -> node m' root path' = node m root path'.
Proof using Hother.
  induction path' as [|j path' IH] using rev_ind; intros Hp Hn; [done|].
  apply inner_init in Hp as (Hp & Hj & _).
  assert (node m' root path' = node m root path') as E.
  { apply IH; [done|]. contradict Hn. by apply prefix_app_r. }
  rewrite !node_app, E. destruct (node m root path') as [q|] eqn:Eq; [|done].
  simpl. unfold next. rewrite (Hother path' q j); try done.
  intros Heq. apply Hn. by rewrite Heq.
Qed.

Lemma pte_at_write (path' : list Z) (j : Z) :
  inner path' -> idx j ->
  pte_at m' root path' j = if decide (path' ++ [j] = path ++ [i]) then v else pte_at m root path' j.
Proof using Hpath Hother Hnew Hnode Hkind.
  intros Hp Hj. destruct (decide ((path ++ [i]) `prefix_of` path')) as [Hpre|Hpre].
  - assert (node m root path' = None) as Hnone; [|assert (pte_at m' root path' j = 0) as Hz].
    + destruct Hpre as [r ->]. destruct Hp as [_ Hl]. rewrite !length_app in Hl. simpl in Hl.
      destruct Hkind as [?|(Hi & _ & _)]; [lia|]. by rewrite node_app, node_snoc, Hi.
    + destruct Hpre as [r ->]. destruct Hp as [Hf Hl]. rewrite !length_app in Hl. simpl in Hl.
      destruct Hkind as [?|(_ & Hv & Hc)]; [lia|].
      unfold pte_at. rewrite node_app, node_snoc.
      assert (pte_at m' root path i = v) as ->.
      { unfold pte_at. rewrite node_write_other; [|done|].
        - destruct (node m root path) as [q|] eqn:E; [|done]. by apply Hnew.
        - intros Hc'. apply prefix_length in Hc'. rewrite length_app in Hc'. simpl in Hc'. lia. }
      rewrite Hv. destruct r as [|k r]; simpl; [by apply Hc|].
      unfold next. rewrite Hc, valid_0; [done|].
      apply Forall_app in Hf as [_ Hf]. by apply Forall_cons_1 in Hf as [? _].
    + rewrite Hz. unfold pte_at. rewrite Hnone. destruct (decide _) as [E|]; [|done].
      exfalso. apply prefix_length in Hpre. apply (f_equal length) in E.
      rewrite !length_app in *. simpl in *. lia.
  - unfold pte_at at 1. rewrite node_write_other by done.
    destruct (decide (path' ++ [j] = path ++ [i])) as [E|E].
    + apply app_inj_tail in E as [-> ->].
      destruct (node m root path) as [q|] eqn:Eq; [|done]. by apply Hnew.
    + unfold pte_at. destruct (node m root path') as [q|] eqn:Eq; [|done]. by apply (Hother path').
Qed.
End write.

(** ** Address spaces *)
Section aspace.
Context {L : Linker}.

(** The pages of [R] are the free pages [fl], the loose pages [lo] (allocated,
    in the hands of the running code) and the pages that the table at [root]
    owns; no page has two of these roles, and no two paths of the table end
    in the same page.  Interior entries have no permission bits, leaf entries
    have some; the upper half of the root, for addresses from MAXVA on, is
    empty. *)
Record aspace (R : Z -> Prop) (lim root : Z) (h : heap) (fl lo : list Z) : Prop := {
  as_lim : lim <= MAXVA;
  as_aligned : lim mod PGSIZE = 0;
  as_heap : heap_ok h fl;
  as_nodup : NoDup (fl ++ lo);
  as_all : forall p, R p <->
    p ∈ fl ++ lo \/ exists path, owned lim path /\ node (mem h) root path = Some p;
  as_ok : forall p, R p -> page_ok p;
  as_excl : forall path p, owned lim path -> node (mem h) root path = Some p -> p ∉ fl ++ lo;
  as_inj : forall path path' p, owned lim path -> owned lim path' ->
    node (mem h) root path = Some p -> node (mem h) root path' = Some p -> path = path';
  as_flags : forall path i, inner path -> idx i -> valid (pte_at (mem h) root path i) = true ->
    PTE_FLAGS (pte_at (mem h) root path i) = PTE_V <-> (length path < 2)%nat;
  as_high : forall i, 256 <= i < 512 -> valid (pte_at (mem h) root [] i) = false;
}.

Section facts.
Context {R : Z -> Prop} {lim root : Z} {h : heap} {fl lo : list Z}.
Hypothesis Has : aspace R lim root h fl lo.

Lemma as_node_R (path : list Z) (p : Z) : owned lim path -> node (mem h) root path = Some p -> R p.
Proof using Has. intros Ho Hn. apply (as_all _ _ _ _ _ _ Has). right. by exists path. Qed.

Lemma as_node_ok (path : list Z) (p : Z) :
  owned lim path -> node (mem h) root path = Some p -> page_ok p.
Proof using Has. intros Ho Hn. by eapply (as_ok _ _ _ _ _ _ Has), as_node_R. Qed.

Lemma as_list_R (p : Z) : p ∈ fl ++ lo -> R p.
Proof using Has. intros H. apply (as_all _ _ _ _ _ _ Has). by left. Qed.

Lemma as_root_ok : page_ok root.
Proof using Has. apply (as_node_ok []); [by left|done]. Qed.

(** A page of the list is not an interior page. *)
Lemma as_inner_ne (path : list Z) (p c : Z) :
  inner path -> node (mem h) root path = Some p -> c ∈ fl ++ lo -> p <> c.
Proof using Has. intros Hi Hn Hc ->. eapply (as_excl _ _ _ _ _ _ Has); eauto. Qed.

End facts.

Lemma path_snoc (path : list Z) : path = [] \/ exists path' i, path = path' ++ [i].
Proof. destruct path as [|i path _] using rev_ind; eauto. Qed.

Lemma owned_init (lim : Z) (path : list Z) (i : Z) :
  owned lim (path ++ [i]) -> inner path /\ idx i.
Proof.
  intros [H|(va & _ & H)]; [by apply inner_init in H as (? & ? & _)|].
  change (path_of va) with ([PX 2 va; PX 1 va] ++ [PX 0 va]) in H.
  apply app_inj_tail in H as [-> ->]. split; [done|by apply PX_idx].
Qed.

Lemma node_change (m m' : memory) (root lim : Z) (k path : list Z) :
  (forall path' j, inner path' -> idx j -> path' ++ [j] <> k ->
     pte_at m' root path' j = pte_at m root path' j) ->
  owned lim path -> path <> k -> node m' root path = node m root path.
Proof.
  intros HT Ho Hne. destruct (path_snoc path) as [->|(path' & i & ->)]; [done|].
  apply owned_init in Ho as [Hi Hj]. by rewrite !node_snoc, HT.
Qed.

(** An entry is written and pages change hands: [occ] is the page the entry
    owned before, [occ'] the page it owns after, and the lists take up the
    difference. *)
Section change.
Context {R : Z -> Prop} {lim root : Z} {h h' : heap} {fl lo fl' lo' occ occ' : list Z}.
Context {path : list Z} {i v : Z}.
Hypothesis Has : aspace R lim root h fl lo.
Hypothesis HT : forall path' j, inner path' -> idx j -> pte_at (mem h') root path' j =
  if decide (path' ++ [j] = path ++ [i]) then v else pte_at (mem h) root path' j.
Hypothesis Hheap : heap_ok h' fl'.
Hypothesis Hocc : forall p, p ∈ occ <-> owned lim (path ++ [i]) /\ node (mem h) root (path ++ [i]) = Some p.
Hypothesis Hocc' : forall p, p ∈ occ' <-> owned lim (path ++ [i]) /\ node (mem h') root (path ++ [i]) = Some p.
Hypothesis Hnd : NoDup occ.
Hypothesis Hperm : occ ++ fl ++ lo ≡ₚ occ' ++ fl' ++ lo'.
Hypothesis Hflags : valid v = true -> (PTE_FLAGS v = PTE_V <-> (length path < 2)%nat).
Hypothesis Hlow : path = [] -> i < 256.

Lemma change_node (path' : list Z) : owned lim path' -> path' <> path ++ [i] ->
  node (mem h') root path' = node (mem h) root path'.
Proof using HT. apply node_change. intros p j Hp Hj Hne. by rewrite HT, decide_False. Qed.

(** A page of another path is in none of the lists. *)
Lemma change_other (path' : list Z) (p : Z) : owned lim path' -> path' <> path ++ [i] ->
  node (mem h') root path' = Some p -> p ∉ occ' ++ fl' ++ lo'.
Proof using Has HT Hocc Hperm.
  intros Ho Hne Hn. rewrite change_node in Hn by done. rewrite <- Hperm, elem_of_app, Hocc.
  intros [[Ho' Hn']|Hin].
  - apply Hne. by eapply (as_inj _ _ _ _ _ _ Has).
  - by eapply (as_excl _ _ _ _ _ _ Has).
Qed.

Lemma change_nodup : NoDup (occ' ++ fl' ++ lo').
Proof using Has Hocc Hnd Hperm.
  rewrite <- Hperm. apply list.NoDup_app. split_and!; [done| |apply Has].
  intros p Hp. apply Hocc in Hp as [Ho Hn]. by apply (as_excl _ _ _ _ _ _ Has _ _ Ho Hn).
Qed.

Lemma change_all (p : Z) : R p <->
  p ∈ fl' ++ lo' \/ exists path', owned lim path' /\ node (mem h') root path' = Some p.
Proof using Has HT Hocc Hocc' Hperm.
  rewrite (as_all _ _ _ _ _ _ Has). split.
  - intros [Hin|(path' & Ho & Hn)].
    + assert (p ∈ occ' ++ fl' ++ lo') as H by (rewrite <- Hperm; apply elem_of_app; by right).
      apply elem_of_app in H as [H|H]; [|by left]. apply Hocc' in H as [? ?]. right. eauto.
    + destruct (decide (path' = path ++ [i])) as [->|Hne].
      * assert (p ∈ occ' ++ fl' ++ lo') as H.
        { rewrite <- Hperm. apply elem_of_app. left. by apply Hocc. }
        apply elem_of_app in H as [H|H]; [|by left]. apply Hocc' in H as [? ?]. right. eauto.
      * right. exists path'. by rewrite change_node.
  - intros [Hin|(path' & Ho & Hn)].
    + assert (p ∈ occ ++ fl ++ lo) as H by (rewrite Hperm; apply elem_of_app; by right).
      apply elem_of_app in H as [H|H]; [|by left]. apply Hocc in H as [? ?]. right. eauto.
    + destruct (decide (path' = path ++ [i])) as [->|Hne].
      * assert (p ∈ occ ++ fl ++ lo) as H.
        { rewrite Hperm. apply elem_of_app. left. by apply Hocc'. }
        apply elem_of_app in H as [H|H]; [|by left]. apply Hocc in H as [? ?]. right. eauto.
      * rewrite change_node in Hn by done. right. eauto.
Qed.

Lemma aspace_change : aspace R lim root h' fl' lo'.
Proof using All.
  pose proof change_nodup as Hn'. apply list.NoDup_app in Hn' as (_ & Hd & Hn').
  split.
  - apply Has.
  - apply Has.
  - done.
  - done.
  - apply change_all.
  - apply Has.
  - intros path' p Ho Hn. destruct (decide (path' = path ++ [i])) as [->|Hne].
    + apply Hd. by apply Hocc'.
    + pose proof (change_other path' p Ho Hne Hn) as H. rewrite elem_of_app in H. tauto.
  - intros p1 p2 p Ho1 Ho2 Hn1 Hn2.
    destruct (decide (p1 = path ++ [i])) as [->|Hne1], (decide (p2 = path ++ [i])) as [->|Hne2]; [done| | |].
    + destruct (change_other p2 p Ho2 Hne2 Hn2). apply elem_of_app. left. by apply Hocc'.
    + destruct (change_other p1 p Ho1 Hne1 Hn1). apply elem_of_app. left. by apply Hocc'.
    + rewrite change_node in Hn1, Hn2 by done. by eapply (as_inj _ _ _ _ _ _ Has).
  - intros path' j Hp Hj. rewrite HT by done. destruct (decide _) as [E|E]; [|by apply Has].
    apply app_inj_tail in E as [-> _]. done.
  - intros j Hj. rewrite HT; [|done|unfold idx; lia]. destruct (decide _) as [E|E]; [|by apply Has].
    apply app_inj_tail in E as [<- ->]. specialize (Hlow eq_refl). lia.
Qed.
End change.

(** Nothing changes in the table when its interior pages keep their contents. *)
Lemma pte_at_same (m m' : memory) (root : Z) :
  (forall path p, inner path -> node m root path = Some p -> same_on (in_page p) m m') ->
  forall path j, inner path -> idx j -> pte_at m' root path j = pte_at m root path j.
Proof.
  intros H path. 
  assert (inner path -> node m' root path = node m root path) as Hn.
  { induction path as [|j path IH] using rev_ind; intros Hp; [done|].
    pose proof Hp as Hp'. apply inner_init in Hp as (Hp & Hj & _). specialize (IH Hp).
    rewrite !node_app, IH. destruct (node m root path) as [q|] eqn:E; [|done].
    simpl. unfold next. by rewrite (entry_same m m' q j) by eauto. }
  intros j Hp Hj. unfold pte_at. rewrite Hn by done.
  destruct (node m root path) as [q|] eqn:E; [|done]. apply entry_same; eauto.
Qed.

Lemma node_pte_same (m m' : memory) (root lim : Z) (path : list Z) :
  (forall path j, inner path -> idx j -> pte_at m' root path j = pte_at m root path j) ->
  owned lim path -> node m' root path = node m root path.
Proof.
  intros HT Ho. destruct (path_snoc path) as [->|(path' & i & ->)]; [done|].
  apply owned_init in Ho as [Hi Hj]. by rewrite !node_snoc, HT.
Qed.

Lemma aspace_same (R : Z -> Prop) (lim root : Z) (h h' : heap) (fl lo fl' lo' : list Z) :
  aspace R lim root h fl lo ->
  (forall path j, inner path -> idx j -> pte_at (mem h') root path j = pte_at (mem h) root path j) ->
  heap_ok h' fl' -> fl ++ lo ≡ₚ fl' ++ lo' -> aspace R lim root h' fl' lo'.
Proof.
  intros Has HT Hh Hp.
  assert (forall path, owned lim path -> node (mem h') root path = node (mem h) root path) as Hn
    by (intros; by eapply node_pte_same).
  destruct Has as [H1 H2 H3 H4 H5 H6 H7 H8 H9 H10]. split; try done.
  - by rewrite <- Hp.
  - intros p. rewrite H5, Hp. split; (intros [?|(path & Ho & E)]; [by left|right; exists path]).
    + by rewrite Hn. + by rewrite <- Hn.
  - intros path p Ho E. rewrite <- Hp. rewrite Hn in E by done. by eapply H7.
  - intros p1 p2 p Ho1 Ho2 E1 E2. rewrite Hn in E1, E2 by done. by eapply H8.
  - intros path i Hi Hj. rewrite HT by done. by apply H9.
  - intros i Hi. rewrite HT; [by apply H10|done|unfold idx; lia].
Qed.

(** ** What page-table code may write: free pages and interior pages *)
Definition tpage (root : Z) (h : heap) (fl : list Z) (q : Z) : Prop :=
  q ∈ fl \/ inner_page (mem h) root q.

Record grows (root : Z) (h : heap) (fl : list Z) (h' : heap) (fl' : list Z) : Prop := {
  gr_frame : frame (tpage root h fl) (mem h) (mem h');
  gr_pages : forall q, tpage root h' fl' q -> tpage root h fl q;
}.

Lemma grows_refl (root : Z) (h : heap) (fl : list Z) : grows root h fl h fl.
Proof. by split. Qed.

Lemma grows_trans (root : Z) (h1 h2 h3 : heap) (fl1 fl2 fl3 : list Z) :
  grows root h1 fl1 h2 fl2 -> grows root h2 fl2 h3 fl3 -> grows root h1 fl1 h3 fl3.
Proof.
  intros [F1 P1] [F2 P2]. split; [|auto]. etransitivity; [exact F1|]. eapply frame_mono; eauto.
Qed.

Lemma inner_page_same (m m' : memory) (root q : Z) :
  (forall path j, inner path -> idx j -> pte_at m' root path j = pte_at m root path j) ->
  inner_page m' root q -> inner_page m root q.
Proof.
  intros HT (path & Hi & Hn). exists path. split; [done|].
  by rewrite <- (node_pte_same m m' root 0 path HT (or_introl Hi)).
Qed.
End aspace.

(** ** The steps of the memory code *)
Section steps.
Context {L : Linker} {LOk : LinkerOk L}.

Lemma page_ok_aligned (p : Z) : page_ok p -> p mod PGSIZE = 0.
Proof. by intros [? _]. Qed.

Lemma page_ok_56 (p : Z) : page_ok p -> 0 <= p < 2 ^ 56.
Proof.
  intros H. apply page_ok_pos in H. change PHYSTOP with 0x88000000 in H.
  change KERNBASE with 0x80000000 in H. lia.
Qed.

Section one.
Context {R : Z -> Prop} {lim root : Z} {h : heap} {fl lo : list Z}.
Hypothesis Has : aspace R lim root h fl lo.

(** Writes to a page that is not interior. *)
Lemma as_same_outside (p : Z) (m' : memory) :
  page_ok p -> ~ inner_page (mem h) root p -> same_on (fun x => ~ in_page p x) (mem h) m' ->
  forall path j, inner path -> idx j -> pte_at m' root path j = pte_at (mem h) root path j.
Proof using Has.
  intros Hp Hnot Hs. apply pte_at_same. intros path q Hi Hn.
  eapply same_on_weaken; [|exact Hs]. intros x Hx Hx'. apply Hnot. exists path. split; [done|].
  rewrite Hn. f_equal. eapply pages_disjoint; [| |exact Hx|exact Hx'].
  - eapply page_ok_aligned, (as_node_ok Has); eauto.
  - apply Hp.
Qed.

Lemma as_list_not_inner (p : Z) : p ∈ fl ++ lo -> ~ inner_page (mem h) root p.
Proof using Has. intros Hin (path & Hi & Hn). by eapply (as_inner_ne Has). Qed.

Lemma as_list_ok (p : Z) : p ∈ fl ++ lo -> page_ok p.
Proof using Has. intros H. by eapply (as_ok _ _ _ _ _ _ Has), (as_list_R Has). Qed.

End one.

Lemma as_kalloc (R : Z -> Prop) (lim root : Z) (h : heap) (fl lo : list Z) (Q : Z -> heap -> Prop) :
  aspace R lim root h fl lo ->
  (fl = [] -> Q 0 h) ->
  (forall p fl' h', fl = p :: fl' -> aspace R lim root h' fl' (p :: lo) -> page_ok p ->
     (forall path j, inner path -> idx j -> pte_at (mem h') root path j = pte_at (mem h) root path j) ->
     grows root h fl h' fl' -> frame (fun q => q = p) (mem h) (mem h') -> Q p h') ->
  hwp kalloc h Q.
Proof using LOk.
  intros Has H0 H1. destruct fl as [|p fl']; [apply kalloc_none; [apply Has|auto]|].
  apply (kalloc_some h p fl'); [apply Has|]. intros h' Hs _ Hh.
  assert (p ∈ (p :: fl') ++ lo) as Hin by (apply elem_of_app; left; by left).
  pose proof (as_list_ok Has p Hin) as Hp.
  assert (forall path j, inner path -> idx j ->
            pte_at (mem h') root path j = pte_at (mem h) root path j) as HT.
  { by apply (as_same_outside Has p); [|apply (as_list_not_inner Has)|]. }
  apply (H1 p fl' h'); [reflexivity| |exact Hp|exact HT| |by apply frame_page].
  - eapply (aspace_same _ _ _ h); [exact Has|done|done|]. simpl. apply Permutation_middle.
  - split.
    + eapply frame_mono; [by apply frame_page|]. intros q ->. left. by left.
    + intros q [Hq|Hq]; [left; by right|right]. by eapply inner_page_same.
Qed.

Lemma as_kfree (R : Z -> Prop) (lim root : Z) (h : heap) (fl lo : list Z) (p : Z)
    (Q : unit -> heap -> Prop) :
  aspace R lim root h fl (p :: lo) ->
  (forall h', frame (fun q => q = p) (mem h) (mem h') -> aspace R lim root h' (p :: fl) lo ->
     (forall path j, inner path -> idx j -> pte_at (mem h') root path j = pte_at (mem h) root path j) ->
     Q tt h') ->
  hwp (kfree p) h Q.
Proof using LOk.
  intros Has HQ.
  assert (p ∈ fl ++ p :: lo) as Hin by (apply elem_of_app; right; by left).
  pose proof (as_list_ok Has p Hin) as Hp. pose proof (as_nodup _ _ _ _ _ _ Has) as Hn.
  rewrite <- Permutation_middle, list.NoDup_cons, elem_of_app in Hn.
  apply (kfree_ok h p fl); [apply Has|done|tauto|]. intros h' Hs Hh.
  assert (forall path j, inner path -> idx j ->
            pte_at (mem h') root path j = pte_at (mem h) root path j) as HT.
  { apply (as_same_outside Has p); [done|by apply (as_list_not_inner Has)|done]. }
  apply HQ; [by apply frame_page| |done].
  eapply (aspace_same _ _ _ h); [exact Has|done|done|]. by rewrite <- Permutation_middle.
Qed.

(** Writing to a loose page. *)
Lemma as_loose_write (R : Z -> Prop) (lim root : Z) (h : heap) (fl lo : list Z) (p : Z) (m' : memory) :
  aspace R lim root h fl lo -> p ∈ lo -> same_on (fun x => ~ in_page p x) (mem h) m' ->
  aspace R lim root (h <| mem := m' |>) fl lo /\
  (forall path j, inner path -> idx j -> pte_at m' root path j = pte_at (mem h) root path j).
Proof using LOk.
  intros Has Hin Hs. assert (p ∈ fl ++ lo) as Hin' by (apply elem_of_app; by right).
  pose proof (as_list_ok Has p Hin') as Hp.
  assert (forall path j, inner path -> idx j -> pte_at m' root path j = pte_at (mem h) root path j) as HT.
  { by apply (as_same_outside Has p); [|apply (as_list_not_inner Has)|]. }
  split; [|done]. eapply (aspace_same _ _ _ h); [exact Has|exact HT| |reflexivity].
  apply (heap_ok_write h fl p); [apply Has|by apply page_ok_aligned| |exact Hs].
  intros Hfl. pose proof (as_nodup _ _ _ _ _ _ Has) as Hn. apply list.NoDup_app in Hn as (_ & Hd & _).
  by apply (Hd p).
Qed.

Lemma as_zero (R : Z -> Prop) (lim root : Z) (h : heap) (fl lo : list Z) (p : Z)
    (Q : unit -> heap -> Prop) :
  aspace R lim root h fl lo -> p ∈ lo ->
  (forall h', aspace R lim root h' fl lo -> frame (fun q => q = p) (mem h) (mem h') ->
     (forall x, in_page p x -> byte_at (mem h') x = 0) ->
     (forall path j, inner path -> idx j -> pte_at (mem h') root path j = pte_at (mem h) root path j) ->
     Q tt h') ->
  hwp (memset_at p 0 PGSIZE) h Q.
Proof using LOk.
  intros Has Hin HQ. apply hwp_memset.
  destruct (as_loose_write R lim root h fl lo p (memset (mem h) p 0 PGSIZE)) as [Has' HT];
    [exact Has|exact Hin|apply memset_page|].
  apply HQ; [exact Has'|apply frame_page, memset_page|exact (fun x => memset_in_page _ _ 0 x)|exact HT].
Qed.

(** Storing to an entry of an interior page. *)
Section store.
Context {R : Z -> Prop} {lim root : Z} {h : heap} {fl lo : list Z} {path : list Z} {q i : Z}.
Hypothesis Has : aspace R lim root h fl lo.
Hypothesis Hpath : inner path.
Hypothesis Hi : idx i.
Hypothesis Hn : node (mem h) root path = Some q.

Lemma as_store_heap (v : Z) : heap_ok (h <| mem := store64 (mem h) (q + 8 * i) v |>) fl.
Proof using Has Hpath Hi Hn LOk.
  eapply (heap_ok_write h fl q); [apply Has| | |].
  - eapply page_ok_aligned, (as_node_ok Has); eauto.
  - intros Hin. eapply (as_excl _ _ _ _ _ _ Has); [by left|done|]. apply elem_of_app. by left.
  - apply store64_page. unfold idx, PGSIZE in *. lia.
Qed.

Lemma as_store_pte (v : Z) :
  is_u64 v ->
  (length path = 2%nat \/
   valid (entry (mem h) q i) = false /\ valid v = true /\ PTE2PA v ∈ fl ++ lo /\
   (forall x, in_page (PTE2PA v) x -> byte_at (mem h) x = 0)) ->
  forall path' j, inner path' -> idx j ->
    pte_at (store64 (mem h) (q + 8 * i) v) root path' j =
      if decide (path' ++ [j] = path ++ [i]) then v else pte_at (mem h) root path' j.
Proof using Has Hpath Hi Hn LOk.
  intros Hv Hk.
  assert (forall path' q', inner path' -> node (mem h) root path' = Some q' -> q' mod PGSIZE = 0) as Hal.
  { intros path' q' Hp' Hn'. eapply page_ok_aligned, (as_node_ok Has); eauto. }
  apply pte_at_write.
  - done.
  - intros path' q' j Hp' Hj Hn' Hne. apply entry_store_other; eauto.
    destruct (decide (q' = q)) as [->|]; [right|by left]. intros ->. apply Hne.
    f_equal. eapply (as_inj _ _ _ _ _ _ Has); eauto.
  - intros q' E. rewrite Hn in E. injection E as <-. by apply entry_store_same.
  - by rewrite Hn.
  - destruct Hk as [?|(Hz & Hvv & Hin & Hzero)]; [by left|right]. split_and!; [|done|].
    + unfold pte_at. by rewrite Hn.
    + intros j Hj. assert (PTE2PA v <> q) as Hne by (intros E; eapply (as_inner_ne Has); eauto).
      pose proof (page_ok_aligned _ (as_list_ok Has _ Hin)).
      rewrite entry_store_other; [|by eapply Hal|done|done|done|by left].
      apply load64_zero. intros x Hx. apply Hzero. unfold in_page, idx, PGSIZE in *. lia.
Qed.
End store.

Lemma leaf_u64 (pa perm : Z) :
  0 <= pa < 2 ^ 56 -> 0 <= perm < 1024 -> is_u64 (Z.lor (PA2PTE pa) perm).
Proof.
  intros Hpa Hp. rewrite lor_flags, PA2PTE_spec by done. unfold is_u64, PGSIZE. Z.div_mod_to_equations. lia.
Qed.

Lemma valid_flags (e : Z) : valid e = Z.testbit (PTE_FLAGS e) 0.
Proof.
  unfold valid, PTE_FLAGS. rewrite Z.land_spec. change (Z.testbit 1023 0) with true. rewrite andb_true_r.
  change PTE_V with (Z.ones 1). rewrite Z.land_ones by lia. change (2 ^ 1) with 2.
  rewrite Z.bit0_odd, Zodd_mod. unfold truth. pose proof (Z.mod_pos_bound e 2 ltac:(lia)).
  assert (e mod 2 = 0 \/ e mod 2 = 1) as [-> | ->] by lia; done.
Qed.

(** The leaf entries of two memories agree. *)
Definition same_leaves (root : Z) (m m' : memory) : Prop :=
  forall path j, inner path -> idx j -> length path = 2%nat -> pte_at m' root path j = pte_at m root path j.

Lemma same_leaves_trans (root : Z) (m1 m2 m3 : memory) :
  same_leaves root m1 m2 -> same_leaves root m2 m3 -> same_leaves root m1 m3.
Proof. intros H1 H2 path j Hp Hj Hl. by rewrite H2, H1. Qed.

Lemma same_leaves_pte (root : Z) (m m' : memory) (va : Z) :
  same_leaves root m m' -> pte_of m' root va = pte_of m root va.
Proof. intros H. apply H; [apply inner_va|by apply PX_idx|done]. Qed.

Lemma decide_snoc_path (path path' : list Z) (i j : Z) {A} (a b : A) :
  length path <> length path' -> (if decide (path' ++ [j] = path ++ [i]) then a else b) = b.
Proof. intros Hl. rewrite decide_False; [done|]. intros E. apply app_inj_tail in E as [-> _]. done. Qed.

Lemma inner_page_write (m m' : memory) (root : Z) (path : list Z) (i v x : Z) :
  (forall path' j, inner path' -> idx j -> pte_at m' root path' j =
     if decide (path' ++ [j] = path ++ [i]) then v else pte_at m root path' j) ->
  inner_page m' root x -> inner_page m root x \/ inner (path ++ [i]) /\ valid v = true /\ x = PTE2PA v.
Proof.
  intros HT (k & Hk & Hn). destruct (path_snoc k) as [->|(k' & j & ->)].
  { left. by exists []. }
  pose proof Hk as Hk'. apply inner_init in Hk' as (Hk' & Hj & _). rewrite node_snoc, HT in Hn by done.
  destruct (decide (k' ++ [j] = path ++ [i])) as [E|E].
  - right. rewrite <- E. destruct (valid v); by simplify_eq.
  - left. exists (k' ++ [j]). by rewrite node_snoc.
Qed.

(** Hang a loose page of zeros into the tree. *)
Lemma as_link (R : Z -> Prop) (lim root : Z) (h : heap) (fl lo : list Z) (path : list Z) (q i p : Z) :
  let m' := store64 (mem h) (q + 8 * i) (Z.lor (PA2PTE p) PTE_V) in
  aspace R lim root h fl (p :: lo) -> inner path -> (length path < 2)%nat -> idx i ->
  (path = [] -> i < 256) ->
  node (mem h) root path = Some q -> valid (entry (mem h) q i) = false ->
  (forall x, in_page p x -> byte_at (mem h) x = 0) ->
  aspace R lim root (h <| mem := m' |>) fl lo /\ node m' root (path ++ [i]) = Some p /\
  same_leaves root (mem h) m' /\ (forall x, inner_page m' root x -> inner_page (mem h) root x \/ x = p) /\
  (forall k, inner k -> (length k <= length path)%nat -> node m' root k = node (mem h) root k).
Proof using LOk.
  intros m' Has Hpath Hlen Hi Hlow Hn Hinv Hz.
  assert (p ∈ fl ++ p :: lo) as Hin by (apply elem_of_app; right; by left).
  pose proof (as_list_ok Has p Hin) as Hp. pose proof (page_ok_56 p Hp) as Hp56.
  pose proof (page_ok_aligned p Hp) as Hpa.
  set (v := Z.lor (PA2PTE p) PTE_V).
  assert (PTE2PA v = p) as Hv by (apply PTE2PA_build; done).
  assert (PTE_FLAGS v = PTE_V) as Hvf by (apply PTE_FLAGS_build; done).
  assert (valid v = true) as Hvv by (by rewrite valid_flags, Hvf).
  assert (is_u64 v) as Hvu by (apply leaf_u64; done).
  assert (forall path' j, inner path' -> idx j -> pte_at m' root path' j =
      if decide (path' ++ [j] = path ++ [i]) then v else pte_at (mem h) root path' j) as HT.
  { apply (as_store_pte Has Hpath Hi Hn v Hvu). right. by rewrite Hv. }
  assert (node m' root (path ++ [i]) = Some p) as Hnew.
  { by rewrite node_snoc, HT, decide_True, Hvv, Hv. }
  assert (inner (path ++ [i])) as Hk by (by apply inner_snoc).
  split_and!; [|done| | |].
  - apply (aspace_change (occ := []) (occ' := [p]) (path := path) (i := i) (v := v) Has).
    + exact HT.
    + by apply (as_store_heap Has Hpath Hi Hn).
    + intros x. split; [by intros ?%not_elem_of_nil|]. intros [_ E]. rewrite node_snoc in E.
      unfold pte_at in E. by rewrite Hn, Hinv in E.
    + intros x. rewrite list_elem_of_singleton. simpl. fold m'. rewrite Hnew. split; [|by intros [_ [= ->]]].
      intros ->. split; [by left|done].
    + constructor.
    + simpl. by rewrite <- Permutation_middle.
    + tauto.
    + done.
  - intros path' j Hp' Hj Hl. rewrite HT by done. apply decide_snoc_path. lia.
  - intros x Hx. apply (inner_page_write (mem h) m' root path i v x HT) in Hx as [?|(_ & _ & ->)]; auto.
  - intros k Hkk Hl. apply (node_change (mem h) m' root lim (path ++ [i])); [|by left|].
    + intros path' j Hp' Hj Hne. by rewrite HT, decide_False.
    + intros ->. rewrite length_app in Hl. simpl in Hl. lia.
Qed.

(** Writing a leaf entry, in a memory [m1] with the same table. *)
Section leaf.
Context {R : Z -> Prop} {lim root : Z} {h : heap} {fl lo : list Z} {va q : Z} {m1 : memory}.
Hypothesis Has : aspace R lim root h fl lo.
Hypothesis Hva : 0 <= va < MAXVA.
Hypothesis Hn : node (mem h) root [PX 2 va; PX 1 va] = Some q.
Hypothesis Hm1 : forall path j, inner path -> idx j -> pte_at m1 root path j = pte_at (mem h) root path j.

Lemma as_leaf_pte (v : Z) :
  is_u64 v -> forall path' j, inner path' -> idx j ->
    pte_at (store64 m1 (q + 8 * PX 0 va) v) root path' j =
      if decide (path' ++ [j] = [PX 2 va; PX 1 va] ++ [PX 0 va]) then v
      else pte_at (mem h) root path' j.
Proof using Has Hn Hm1 LOk.
  intros Hv path' j Hp' Hj. rewrite <- (Hm1 path' j Hp' Hj).
  assert (forall k, inner k -> node m1 root k = node (mem h) root k) as Hnode.
  { intros k Hk. apply (node_pte_same _ _ _ lim); [done|by left]. }
  assert (forall k x, inner k -> node m1 root k = Some x -> x mod PGSIZE = 0) as Hal.
  { intros k x Hk Hx. rewrite Hnode in Hx by done. eapply page_ok_aligned, (as_node_ok Has); eauto. }
  assert (node m1 root [PX 2 va; PX 1 va] = Some q) as Hq by (by rewrite Hnode).
  apply pte_at_write; try done.
  - intros k x b Hk Hb Hx Hne. apply entry_store_other; [by eauto|by eauto|by apply PX_idx|done|].
    destruct (decide (x = q)) as [->|]; [right|by left]. intros ->. apply Hne.
    f_equal. rewrite Hnode in Hx by done. eapply (as_inj _ _ _ _ _ _ Has); eauto.
  - intros x E. rewrite Hq in E. injection E as <-. by apply entry_store_same.
  - by rewrite Hq.
  - by left.
Qed.

Lemma as_leaf_va (v va' : Z) : is_u64 v -> 0 <= va' < MAXVA ->
  pte_of (store64 m1 (q + 8 * PX 0 va) v) root va' =
    if va' / PGSIZE =? va / PGSIZE then v else pte_of (mem h) root va'.
Proof using Has Hva Hn Hm1 LOk.
  intros Hv Hva'. unfold pte_of at 1. rewrite as_leaf_pte; [|done|apply inner_va|by apply PX_idx].
  destruct (Z.eqb_spec (va' / PGSIZE) (va / PGSIZE)) as [E|E].
  - rewrite decide_True; [done|]. by apply path_of_page.
  - rewrite decide_False; [done|]. intros E'. apply E. by apply path_of_inj.
Qed.

Lemma as_leaf_inner (v x : Z) : is_u64 v ->
  inner_page (store64 m1 (q + 8 * PX 0 va) v) root x -> inner_page (mem h) root x.
Proof using Has Hn Hm1 LOk.
  intros Hv Hx. eapply inner_page_write in Hx; [|by apply as_leaf_pte].
  destruct Hx as [?|([_ Hl] & _)]; [done|]. simpl in Hl. lia.
Qed.

Lemma as_node_leaf_new (v : Z) : is_u64 v ->
  node (store64 m1 (q + 8 * PX 0 va) v) root (path_of va) = if valid v then Some (PTE2PA v) else None.
Proof using Has Hva Hn Hm1 LOk. intros Hv. by rewrite node_va, as_leaf_va, Z.eqb_refl. Qed.

(** Pages change hands between the entry and the lists. *)
Lemma as_leaf_change (h1 : heap) (v : Z) (fl' lo' occ occ' : list Z) :
  is_u64 v -> mem h1 = store64 m1 (q + 8 * PX 0 va) v -> heap_ok h1 fl' ->
  (valid v = true -> PTE_FLAGS v <> PTE_V) ->
  (forall p, p ∈ occ <-> owned lim (path_of va) /\ node (mem h) root (path_of va) = Some p) ->
  (forall p, p ∈ occ' <-> owned lim (path_of va) /\ (if valid v then Some (PTE2PA v) else None) = Some p) ->
  NoDup occ -> occ ++ fl ++ lo ≡ₚ occ' ++ fl' ++ lo' ->
  aspace R lim root h1 fl' lo'.
Proof using Has Hva Hn Hm1 LOk.
  intros Hv Em Hh Hf Ho Ho' Hnd Hp.
  apply (aspace_change (occ := occ) (occ' := occ') (path := [PX 2 va; PX 1 va]) (i := PX 0 va) (v := v)
           (fl := fl) (lo := lo) (h := h)); try done.
  - rewrite Em. by apply as_leaf_pte.
  - intros p. rewrite Ho', Em.
    change ([PX 2 va; PX 1 va] ++ [PX 0 va]) with (path_of va). by rewrite as_node_leaf_new.
  - intros Hvv. simpl. split; [|lia]. intros E. by destruct (Hf Hvv).
Qed.
End leaf.

Lemma not_owned_va (lim va : Z) :
  lim mod PGSIZE = 0 -> lim <= MAXVA -> lim <= va < MAXVA -> 0 <= va -> ~ owned lim (path_of va).
Proof.
  intros Ha Hm Hva H0 [Hi|(va' & Hva' & E)]; [by eapply path_of_not_inner|].
  apply path_of_inj in E; [|lia|lia]. unfold PGSIZE in *.
  apply Z.mod_divide in Ha as [k ->]; [|done].
  assert (k <= va / 4096) by (apply Z.div_le_lower_bound; lia).
  assert (va' / 4096 < k) by (apply Z.div_lt_upper_bound; lia). lia.
Qed.

End steps.
