(* ===== verification/Vm.v ===== *)
(** * Page tables and user memory (kernel/vm.c)

    The Sv39 page-table code, on page tables that live in memory.  The theorems
    read a table as a tree of pages: [node m root path] is the page reached
    from the root by a path of indices.  [aspace] is the invariant of an
    address space together with the allocator: a fixed set of pages is split
    without overlap between the free list, the pages in the caller's hands, and
    the pages of the tree.  Every operation keeps the split and writes to no
    other page, which is what isolates one address space from the others. *)
From S2P Require Import Prelude Memory Riscv State Spinlock Cstring Kalloc.

Section vm.
Context {L : Linker}.

(** ** kernel/vm.c *)
Definition get_kernel_pagetable : M Z := gets (fun s => kernel_pagetable (k_heap s)).
Definition put_kernel_pagetable (p : Z) : M unit :=
  modify (fun s => s <| k_heap := (k_heap s) <| kernel_pagetable := p |> |>).
Definition w_satp (x : Z) : M unit := modify (fun s => s <| k_ctl := (k_ctl s) <| satp := x |> |>).

(** The loop of [walk], from a level down to the leaf level. *)
Fixpoint walk_from (levels : list Z) (pagetable va : Z) (alloc : bool) : M Z :=
  match levels with
  | [] => mret (pagetable + 8 * PX 0 va)
  | level :: levels =>
      let pte := pagetable + 8 * PX level va in
      e ← ld64 pte;
      if truth (Z.land e PTE_V) then walk_from levels (PTE2PA e) va alloc else
      if negb alloc then mret 0 else
      p ← kalloc;
      if p =? 0 then mret 0 else
      memset_at p 0 PGSIZE;;
      st64 pte (Z.lor (PA2PTE p) PTE_V);;
      walk_from levels p va alloc
  end.
Definition walk (pagetable va : Z) (alloc : bool) : M Z :=
  if MAXVA <=? va then panic "walk" else walk_from [2; 1] pagetable va alloc.

Definition walkaddr (pagetable va : Z) : M Z :=
  if MAXVA <=? va then mret 0 else
  pte ← walk pagetable va false;
  if pte =? 0 then mret 0 else
  e ← ld64 pte;
  if Z.land e PTE_V =? 0 then mret 0 else
  if Z.land e PTE_U =? 0 then mret 0 else
  mret (PTE2PA e).

Definition mappages (pagetable va size pa perm : Z) : M Z :=
  if size =? 0 then panic "mappages: size" else
  let a := PGROUNDDOWN va in
  let last := PGROUNDDOWN (u64 (va + size - 1)) in
  loop (fun '(a, pa) =>
    pte ← walk pagetable a true;
    if pte =? 0 then mret (inr (-1)) else
    e ← ld64 pte;
    if truth (Z.land e PTE_V) then panic "mappages: remap" else
    st64 pte (Z.lor (Z.lor (PA2PTE pa) perm) PTE_V);;
    if a =? last then mret (inr 0) else mret (inl (u64 (a + PGSIZE), u64 (pa + PGSIZE))))
  (a, pa).

Definition uvmunmap (pagetable va npages : Z) (do_free : bool) : M unit :=
  if negb (va mod PGSIZE =? 0) then panic "uvmunmap: not aligned" else
  loop (fun a =>
    if negb (a <? u64 (va + u64 (npages * PGSIZE))) then mret (inr tt) else
    pte ← walk pagetable a false;
    if pte =? 0 then panic "uvmunmap: walk" else
    e ← ld64 pte;
    if Z.land e PTE_V =? 0 then mret (inl (u64 (a + PGSIZE))) else
    if PTE_FLAGS e =? PTE_V then panic "uvmunmap: not a leaf" else
    (if do_free then kfree (PTE2PA e) else mret tt);;
    st64 pte 0;;
    mret (inl (u64 (a + PGSIZE))))
  va.

Definition uvmcreate : M Z :=
  pagetable ← kalloc;
  if pagetable =? 0 then mret 0 else
  memset_at pagetable 0 PGSIZE;;
  mret pagetable.

(** [src] is the contents of [initcode], an array of the kernel. *)
Definition uvminit (pagetable : Z) (src : list Z) : M unit :=
  if PGSIZE <=? Z.of_nat (length src) then panic "inituvm: more than a page" else
  p ← kalloc;
  memset_at p 0 PGSIZE;;
  mappages pagetable 0 PGSIZE p (Z.lor (Z.lor (Z.lor PTE_W PTE_R) PTE_X) PTE_U);;
  m ← get_mem;
  put_mem (store m p src).

Definition uvmdealloc (pagetable oldsz newsz : Z) : M Z :=
  if oldsz <=? newsz then mret oldsz else
  (if PGROUNDUP newsz <? PGROUNDUP oldsz then
     let npages := i32 (u64 (PGROUNDUP oldsz - PGROUNDUP newsz) / PGSIZE) in
     uvmunmap pagetable (PGROUNDUP newsz) (u64 npages) true
   else mret tt);;
  mret newsz.

Definition uvmalloc (pagetable oldsz newsz : Z) : M Z :=
  if newsz <? oldsz then mret oldsz else
  let oldsz := PGROUNDUP oldsz in
  loop (fun a =>
    if negb (a <? newsz) then mret (inr newsz) else
    p ← kalloc;
    if p =? 0 then
      uvmdealloc pagetable a oldsz;; mret (inr 0)
    else
    memset_at p 0 PGSIZE;;
    r ← mappages pagetable a PGSIZE p (Z.lor (Z.lor (Z.lor PTE_W PTE_X) PTE_R) PTE_U);
    if negb (r =? 0) then
      kfree p;; uvmdealloc pagetable a oldsz;; mret (inr 0)
    else mret (inl (u64 (a + PGSIZE))))
  oldsz.

(** The recursion of [freewalk].  A table that is not a cycle is no deeper
    than the number of pages of memory. *)
Fixpoint freewalk_rec (depth : nat) (pagetable : Z) : M unit :=
  match depth with
  | O => spin
  | S depth =>
      for_each (Z.of_nat <$> seq 0 512) (fun i =>
        pte ← ld64 (pagetable + 8 * i);
        if truth (Z.land pte PTE_V) && (Z.land pte (Z.lor (Z.lor PTE_R PTE_W) PTE_X) =? 0) then
          freewalk_rec depth (PTE2PA pte);;
          st64 (pagetable + 8 * i) 0
        else if truth (Z.land pte PTE_V) then panic "freewalk: leaf"
        else mret tt);;
      kfree pagetable
  end.
Definition freewalk (pagetable : Z) : M unit :=
  freewalk_rec (Z.to_nat ((PHYSTOP - KERNBASE) / PGSIZE)) pagetable.

Definition uvmfree (pagetable sz : Z) : M unit :=
  (if 0 <? sz then uvmunmap pagetable 0 (PGROUNDUP sz / PGSIZE) true else mret tt);;
  freewalk pagetable.

Definition uvmcopy (old new sz : Z) : M Z :=
  let err i := uvmunmap new 0 (i / PGSIZE) true;; mret (inr (-1)) in
  loop (fun i =>
    if negb (i <? sz) then mret (inr 0) else
    pte ← walk old i false;
    if pte =? 0 then panic "uvmcopy: pte should exist" else
    e ← ld64 pte;
    if Z.land e PTE_V =? 0 then mret (inl (u64 (i + PGSIZE))) else
    let pa := PTE2PA e in
    let flags := PTE_FLAGS e in
    p ← kalloc;
    if p =? 0 then err i else
    memmove_at p pa PGSIZE;;
    r ← mappages new i PGSIZE p flags;
    if negb (r =? 0) then kfree p;; err i else
    mret (inl (u64 (i + PGSIZE))))
  0.

Definition uvmclear (pagetable va : Z) : M unit :=
  pte ← walk pagetable va false;
  if pte =? 0 then panic "uvmclear" else
  e ← ld64 pte;
  st64 pte (Z.land e (Z.lnot PTE_U)).

(** The kernel side of a copy is a buffer of the kernel, given by its bytes:
    [src] is what [copyout] copies, and [copyin] and [copyinstr] return what
    they have written to [dst] with their result. *)
Definition copyout (pagetable dstva : Z) (src : list Z) : M Z :=
  loop (fun '(dstva, src) =>
    let len := Z.of_nat (length src) in
    if negb (0 <? len) then mret (inr 0) else
    let va0 := PGROUNDDOWN dstva in
    pa0 ← walkaddr pagetable va0;
    if pa0 =? 0 then mret (inr (-1)) else
    let n := PGSIZE - (dstva - va0) in
    let n := if len <? n then len else n in
    m ← get_mem;
    put_mem (store m (pa0 + (dstva - va0)) (take (Z.to_nat n) src));;
    mret (inl (u64 (va0 + PGSIZE), drop (Z.to_nat n) src)))
  (dstva, src).

Definition copyin (pagetable srcva len : Z) : M (Z * list Z) :=
  loop (fun '(dst, srcva, len) =>
    if negb (0 <? len) then mret (inr (0, dst)) else
    let va0 := PGROUNDDOWN srcva in
    pa0 ← walkaddr pagetable va0;
    if pa0 =? 0 then mret (inr (-1, dst)) else
    let n := PGSIZE - (srcva - va0) in
    let n := if len <? n then len else n in
    m ← get_mem;
    mret (inl (dst ++ load m (pa0 + (srcva - va0)) (Z.to_nat n), u64 (va0 + PGSIZE), len - n)))
  ([], srcva, len).

(** The inner loop of [copyinstr]: what it stores, and whether it met a nul. *)
Fixpoint copy_str (m : memory) (p : Z) (n : nat) : list Z * bool :=
  match n with
  | O => ([], false)
  | S n => if byte_at m p =? 0 then ([0], true)
           else let '(bs, got_null) := copy_str m (p + 1) n in (byte_at m p :: bs, got_null)
  end.

Definition copyinstr (pagetable srcva max : Z) : M (Z * list Z) :=
  loop (fun '(dst, srcva, max) =>
    if negb (0 <? max) then mret (inr (-1, dst)) else
    let va0 := PGROUNDDOWN srcva in
    pa0 ← walkaddr pagetable va0;
    if pa0 =? 0 then mret (inr (-1, dst)) else
    let n := PGSIZE - (srcva - va0) in
    let n := if max <? n then max else n in
    m ← get_mem;
    let '(bs, got_null) := copy_str m (pa0 + (srcva - va0)) (Z.to_nat n) in
    if got_null : bool then mret (inr (0, dst ++ bs))
    else mret (inl (dst ++ bs, u64 (va0 + PGSIZE), max - n)))
  ([], srcva, max).

(** ** The kernel's own page table *)
Definition kvmmap (kpgtbl va pa sz perm : Z) : M unit :=
  r ← mappages kpgtbl va sz pa perm;
  if negb (r =? 0) then panic "kvmmap" else mret tt.

(** kernel/proc.c *)
Definition proc_mapstacks (kpgtbl : Z) : M unit :=
  for_each (Z.of_nat <$> seq 0 NPROC) (fun i =>
    pa ← kalloc;
    if pa =? 0 then panic "kalloc" else
    kvmmap kpgtbl (KSTACK i) pa PGSIZE (Z.lor PTE_R PTE_W)).

Definition kvmmake : M Z :=
  kpgtbl ← kalloc;
  memset_at kpgtbl 0 PGSIZE;;
  kvmmap kpgtbl UART0 UART0 PGSIZE (Z.lor PTE_R PTE_W);;
  kvmmap kpgtbl VIRTIO0 VIRTIO0 PGSIZE (Z.lor PTE_R PTE_W);;
  kvmmap kpgtbl PLIC PLIC 0x400000 (Z.lor PTE_R PTE_W);;
  kvmmap kpgtbl KERNBASE KERNBASE (sym_etext - KERNBASE) (Z.lor PTE_R PTE_X);;
  kvmmap kpgtbl sym_etext sym_etext (PHYSTOP - sym_etext) (Z.lor PTE_R PTE_W);;
  kvmmap kpgtbl TRAMPOLINE sym_trampoline PGSIZE (Z.lor PTE_R PTE_X);;
  proc_mapstacks kpgtbl;;
  mret kpgtbl.

Definition kvminit : M unit := p ← kvmmake; put_kernel_pagetable p.
Definition kvminithart : M unit := p ← get_kernel_pagetable; w_satp (MAKE_SATP p).

End vm.
