(* ===== verification/VmSpec.v ===== *)
(** * What the page-table code does (kernel/vm.c)

    Specifications of [walk], [walkaddr], [mappages], [uvmunmap], [uvmalloc],
    [uvmdealloc], [uvmcopy], [uvmclear], [freewalk], [uvmfree], [copyout],
    [copyin] and [copyinstr] in terms of the tree of Pagetable.v, for every
    outcome including a shortage of memory.  The last part states the
    properties of the address space that the rest of the kernel builds on. *)
From S2P Require Import Prelude Memory Riscv State Spinlock Cstring Kalloc Pagetable Vm.

Section vm_spec.
Context {L : Linker} {LOk : LinkerOk L}.

(** ** walk *)
Definition pte_addr (m : memory) (root va : Z) : Z :=
  match node m root [PX 2 va; PX 1 va] with Some p => p + 8 * PX 0 va | None => 0 end.

Lemma walk_lookup (root va : Z) (h : heap) (Q : Z -> heap -> Prop) :
  va < MAXVA -> Q (pte_addr (mem h) root va) h -> hwp (walk root va false) h Q.
Proof.
  intros Hva HQ. unfold walk. rewrite (proj2 (Z.leb_gt _ _)) by done.
  unfold pte_addr in HQ. cbn [node] in HQ. cbn [walk_from].
  apply hwp_bind, hwp_ld64. unfold next, valid, entry in HQ.
  destruct (truth (Z.land (load64 (mem h) (root + 8 * PX 2 va)) PTE_V)); [|by apply hwp_ret].
  apply hwp_bind, hwp_ld64.
  destruct (truth (Z.land (load64 (mem h) (PTE2PA _ + 8 * PX 1 va)) PTE_V)); by apply hwp_ret.
Qed.

Lemma walk_panics (root va : Z) (alloc : bool) (s : kstate) :
  MAXVA <= va -> walk root va alloc s = Panic "walk".
Proof. intros H. unfold walk. by rewrite (proj2 (Z.leb_le _ _)). Qed.

Lemma pte_addr_truth (R : Z -> Prop) (lim root va : Z) (h : heap) (fl lo : list Z) (p : Z) :
  aspace R lim root h fl lo -> node (mem h) root [PX 2 va; PX 1 va] = Some p ->
  (pte_addr (mem h) root va =? 0) = false.
Proof using LOk.
  intros Has Hn. unfold pte_addr. rewrite Hn. apply Z.eqb_neq.
  pose proof (page_ok_pos _ (as_node_ok Has _ _ (owned_inner _ _ (inner_va va)) Hn)) as Hp.
  pose proof (PX_range 0 va ltac:(done)). unfold KERNBASE in Hp. lia.
Qed.

(** One level of [walk] that has to allocate. *)
Lemma walk_extend (R : Z -> Prop) (lim root : Z) (h : heap) (fl lo path : list Z) (q i : Z)
    (k : Z -> M Z) (Q : Z -> heap -> Prop) :
  aspace R lim root h fl lo -> inner path -> (length path < 2)%nat -> idx i -> (path = [] -> i < 256) ->
  node (mem h) root path = Some q -> valid (entry (mem h) q i) = false ->
  (fl = [] -> Q 0 h) ->
  (forall p fl' h', aspace R lim root h' fl' lo -> node (mem h') root (path ++ [i]) = Some p ->
     same_leaves root (mem h) (mem h') -> grows root h fl h' fl' -> hwp (k p) h' Q) ->
  hwp (p ← kalloc; if p =? 0 then mret 0 else
       memset_at p 0 PGSIZE;; st64 (q + 8 * i) (Z.lor (PA2PTE p) PTE_V);; k p) h Q.
Proof using LOk.
  intros Has Hpath Hlen Hi Hlow Hn Hinv H0 HQ. apply hwp_bind.
  apply (as_kalloc R lim root h fl lo); [done|intros Hfl; by apply hwp_ret, H0|].
  intros p fl' h1 Efl Has1 Hp HT1 Hg1 _.
  rewrite (proj2 (Z.eqb_neq p 0)) by (apply page_ok_pos in Hp; unfold KERNBASE in Hp; lia).
  apply hwp_bind, (as_zero R lim root h1 fl' (p :: lo)); [done|by left|].
  intros h2 Has2 Hs2 Hz HT2. apply hwp_bind, hwp_st64.
  assert (forall k, inner k -> node (mem h2) root k = node (mem h) root k) as Hnode.
  { intros k' Hk'. rewrite (node_pte_same _ _ _ lim _ HT2), (node_pte_same _ _ _ lim _ HT1) by (by left). done. }
  assert (entry (mem h2) q i = entry (mem h) q i) as He.
  { pose proof (HT2 path i Hpath Hi) as E. rewrite (HT1 path i Hpath Hi) in E.
    unfold pte_at in E. by rewrite Hnode, Hn in E. }
  destruct (as_link R lim root h2 fl' lo path q i p Has2 Hpath Hlen Hi Hlow) as (Has3 & Hn3 & Hl3 & Hi3 & _).
  - by rewrite Hnode.
  - by rewrite He.
  - exact Hz.
  - apply (HQ p fl'); [done|done| |].
    + eapply same_leaves_trans; [|exact Hl3]. intros k' j Hk' Hj _. by rewrite HT2, HT1.
    + split.
      * etransitivity; [apply Hg1|]. etransitivity; (eapply frame_mono; [|]).
        -- exact Hs2.
        -- intros x ->. left. rewrite Efl. by left.
        -- apply store64_frame. exact Hi.
        -- intros x ->. right. by exists path.
      * intros x [Hx|Hx]; [left; rewrite Efl; by right|].
        apply Hi3 in Hx as [(k' & Hk' & Hx)| ->]; [|left; rewrite Efl; by left].
        right. exists k'. by rewrite <- Hnode.
Qed.

Lemma PX2_low (va : Z) : 0 <= va < MAXVA -> PX 2 va < 256.
Proof.
  intros Hva. rewrite PX_spec by lia. change (2 ^ (12 + 9 * 2)) with (4096 * 512 * 512).
  assert (va / (4096 * 512 * 512) < 256) by (apply Z.div_lt_upper_bound; plia).
  assert (0 <= va / (4096 * 512 * 512)) by (apply Z.div_pos; lia). rewrite Z.mod_small; lia.
Qed.

(** What [walk] may leave behind: more of the tree, the same leaf entries. *)
Record walked (root : Z) (h : heap) (fl : list Z) (h' : heap) (fl' : list Z) : Prop := {
  walked_leaves : same_leaves root (mem h) (mem h');
  walked_grows : grows root h fl h' fl';
}.

Lemma walked_refl (root : Z) (h : heap) (fl : list Z) : walked root h fl h fl.
Proof. split; [by intros ?|apply grows_refl]. Qed.

Lemma walked_trans (root : Z) (h1 h2 h3 : heap) (fl1 fl2 fl3 : list Z) :
  walked root h1 fl1 h2 fl2 -> walked root h2 fl2 h3 fl3 -> walked root h1 fl1 h3 fl3.
Proof.
  intros [L1 G1] [L2 G2]. split; [by eapply same_leaves_trans|by eapply grows_trans].
Qed.

Lemma walk_from_alloc (R : Z -> Prop) (lim root va : Z) (levels done_ : list Z) (h : heap)
    (fl lo : list Z) (q : Z) (Q : Z -> heap -> Prop) :
  aspace R lim root h fl lo -> 0 <= va < MAXVA ->
  (fun l => PX l va) <$> (done_ ++ levels) = [PX 2 va; PX 1 va] ->
  node (mem h) root ((fun l => PX l va) <$> done_) = Some q ->
  (forall h', aspace R lim root h' [] lo -> walked root h fl h' [] -> Q 0 h') ->
  (forall q fl' h', aspace R lim root h' fl' lo -> walked root h fl h' fl' ->
     node (mem h') root [PX 2 va; PX 1 va] = Some q -> Q (q + 8 * PX 0 va) h') ->
  hwp (walk_from levels q va true) h Q.
Proof using LOk.
  revert done_ h fl q. induction levels as [|l levels IH]; intros done_ h fl q Has Hva Hl Hn H0 HQ; cbn [walk_from].
  - rewrite app_nil_r in Hl. rewrite Hl in Hn. apply hwp_ret. by eapply HQ, Hn; [|apply walked_refl].
  - assert (inner ((fun l => PX l va) <$> done_) /\ (length ((fun l => PX l va) <$> done_) < 2)%nat /\
            idx (PX l va)) as (Hin & Hlt & Hi).
    { pose proof (inner_va va) as H. rewrite <- Hl, fmap_app in H. destruct H as [Hf Hlen].
      apply Forall_app in Hf as [Hf1 Hf2]. rewrite length_app in Hlen. cbn [fmap list_fmap length] in *.
      apply Forall_cons_1 in Hf2 as [? _]. split_and!; [split; [done|lia]|lia|done]. }
    assert ((fun l => PX l va) <$> ((done_ ++ [l]) ++ levels) = [PX 2 va; PX 1 va]) as Hl'
      by (by rewrite <- app_assoc).
    apply hwp_bind, hwp_ld64. fold (entry (mem h) q (PX l va)). fold (valid (entry (mem h) q (PX l va))).
    destruct (valid (entry (mem h) q (PX l va))) eqn:Ev.
    + apply (IH (done_ ++ [l]) h fl); try done.
      rewrite fmap_app, node_app, Hn. cbn [fmap list_fmap node]. unfold next. by rewrite Ev.
    + cbn [negb]. apply (walk_extend R lim root h fl lo _ q (PX l va) _ Q Has Hin Hlt Hi); [|done|done| |].
      { intros E. destruct done_; [|done]. injection Hl as -> _. by apply PX2_low. }
      { intros ->. apply H0; [done|apply walked_refl]. }
      intros p fl' h' Has' Hn' Hleaf Hg. assert (walked root h fl h' fl') as Hw by (by split).
      apply (IH (done_ ++ [l]) h' fl'); try done.
      * by rewrite fmap_app.
      * intros h2 Has2 Hw2. apply H0; [done|by eapply walked_trans].
      * intros q2 fl2 h2 Has2 Hw2 Hn2. eapply HQ; [done|by eapply walked_trans|done].
Qed.

Lemma walk_alloc (R : Z -> Prop) (lim root va : Z) (h : heap) (fl lo : list Z) (Q : Z -> heap -> Prop) :
  aspace R lim root h fl lo -> 0 <= va < MAXVA ->
  (forall h', aspace R lim root h' [] lo -> walked root h fl h' [] -> Q 0 h') ->
  (forall q fl' h', aspace R lim root h' fl' lo -> walked root h fl h' fl' ->
     node (mem h') root [PX 2 va; PX 1 va] = Some q -> Q (q + 8 * PX 0 va) h') ->
  hwp (walk root va true) h Q.
Proof using LOk.
  intros Has Hva H0 HQ. unfold walk. rewrite (proj2 (Z.leb_gt _ _)) by lia.
  by apply (walk_from_alloc R lim root va [2; 1] [] h fl lo root).
Qed.

(** ** mappages

    One page: [walk], the check that it is not mapped, and the store. *)
Definition leaf (pa perm : Z) : Z := Z.lor (Z.lor (PA2PTE pa) perm) PTE_V.

(** The permission bits of a leaf: more than the valid bit. *)
Definition perm_ok (perm : Z) : Prop := 0 <= perm < 1024 /\ Z.lor perm PTE_V <> PTE_V.

Lemma leaf_facts (pa perm : Z) :
  0 <= pa < 2 ^ 56 -> pa mod PGSIZE = 0 -> perm_ok perm ->
  is_u64 (leaf pa perm) /\ PTE2PA (leaf pa perm) = pa /\ valid (leaf pa perm) = true /\
  PTE_FLAGS (leaf pa perm) = Z.lor perm PTE_V /\ PTE_FLAGS (leaf pa perm) <> PTE_V.
Proof.
  intros Hpa Ha [Hp Hne]. unfold leaf. rewrite <- Z.lor_assoc.
  assert (0 <= Z.lor perm PTE_V < 1024) as Hr.
  { split; [apply Z.lor_nonneg; split; [lia|done]|].
    change 1024 with (2 ^ 10). apply Z.log2_lt_pow2.
    - assert (0 <= Z.lor perm PTE_V) by (apply Z.lor_nonneg; split; [lia|done]).
      assert (Z.lor perm PTE_V <> 0); [|lia]. intros E. apply Z.lor_eq_0_iff in E as [_ E]. done.
    - rewrite Z.log2_lor by (try done; lia). apply Z.max_lub_lt; [|by vm_compute].
      destruct (decide (perm = 0)) as [->|]; [done|]. apply Z.log2_lt_pow2; lia. }
  rewrite valid_flags, !PTE_FLAGS_build by lia.
  split_and!; try done.
  - by apply leaf_u64.
  - by apply PTE2PA_build.
  - by rewrite Z.lor_spec, orb_true_r.
Qed.

(** Mapping [pa] at [va] takes it from the loose pages if the table is to own it. *)
Definition takes (lim va pa : Z) (lo lo' : list Z) : Prop :=
  va < lim /\ lo = pa :: lo' \/ lim <= va /\ lo' = lo.

Lemma pte_addr_entry (m : memory) (root va q : Z) :
  node m root [PX 2 va; PX 1 va] = Some q -> load64 m (q + 8 * PX 0 va) = pte_of m root va.
Proof. intros Hn. unfold pte_of, pte_at. by rewrite Hn. Qed.

Lemma inner_entry_ne (R : Z -> Prop) (lim root : Z) (h : heap) (fl lo : list Z) (va q : Z) :
  aspace R lim root h fl lo -> node (mem h) root [PX 2 va; PX 1 va] = Some q ->
  (q + 8 * PX 0 va =? 0) = false.
Proof using LOk.
  intros Has Hn. pose proof (pte_addr_truth R lim root va h fl lo q Has Hn) as H.
  unfold pte_addr in H. by rewrite Hn in H.
Qed.

Lemma grows_leaf (R : Z -> Prop) (lim root va q v : Z) (h h1 : heap) (fl fl1 lo : list Z) :
  aspace R lim root h1 fl1 lo -> 0 <= va < MAXVA -> is_u64 v ->
  node (mem h1) root [PX 2 va; PX 1 va] = Some q -> grows root h fl h1 fl1 ->
  grows root h fl (h1 <| mem := store64 (mem h1) (q + 8 * PX 0 va) v |>) fl1.
Proof using LOk.
  intros Has Hva Hv Hn Hg. apply (grows_trans root h h1 _ fl fl1 fl1 Hg). split.
  - eapply frame_mono; [apply store64_frame, PX_idx; lia|].
    intros x ->. right. exists [PX 2 va; PX 1 va]. split; [apply inner_va|done].
  - intros x [Hx|Hx]; [by left|right]. by eapply (as_leaf_inner Has Hn (fun _ _ _ _ => eq_refl)).
Qed.

Lemma map_store (R : Z -> Prop) (lim root va pa perm q : Z) (h : heap) (fl lo lo' : list Z) :
  aspace R lim root h fl lo -> 0 <= va < MAXVA -> takes lim va pa lo lo' ->
  node (mem h) root [PX 2 va; PX 1 va] = Some q -> valid (pte_of (mem h) root va) = false ->
  0 <= pa < 2 ^ 56 -> pa mod PGSIZE = 0 -> perm_ok perm ->
  aspace R lim root (h <| mem := store64 (mem h) (q + 8 * PX 0 va) (leaf pa perm) |>) fl lo'.
Proof using LOk.
  intros Has Hva Ht Hn Hinv Hpa Hal Hperm.
  destruct (leaf_facts pa perm Hpa Hal Hperm) as (Hu & Hpp & Hv & Hf & Hne).
  assert (node (mem h) root (path_of va) = None) as Hnone by (by rewrite node_va, Hinv).
  pose proof (as_store_heap Has (inner_va va) (PX_idx 0 va ltac:(lia)) Hn (leaf pa perm)) as Hh.
  destruct Ht as [[Hlt ->]|[Hge ->]].
  - apply (as_leaf_change Has Hva Hn (fun _ _ _ _ => eq_refl) _ (leaf pa perm) fl lo' [] [pa]); try done.
    + intros x. rewrite Hnone. split; [by intros ?%not_elem_of_nil|by intros [_ ?]].
    + intros x. rewrite Hv, Hpp, list_elem_of_singleton. split; [intros ->|by intros [_ [= ->]]].
      split; [apply owned_va; lia|done].
    + constructor.
    + by rewrite <- Permutation_middle.
  - assert (~ owned lim (path_of va)) as Hno
      by (apply not_owned_va; [apply Has|apply Has|lia|lia]).
    apply (as_leaf_change Has Hva Hn (fun _ _ _ _ => eq_refl) _ (leaf pa perm) fl lo [] []); try done.
    + intros x. split; [by intros ?%not_elem_of_nil|by intros [? _]].
    + intros x. split; [by intros ?%not_elem_of_nil|by intros [? _]].
    + constructor.
Qed.

Lemma map_page {X} (R : Z -> Prop) (lim root va pa perm : Z) (h : heap) (fl lo lo' : list Z)
    (k : M (X + Z)) (Q : X + Z -> heap -> Prop) :
  aspace R lim root h fl lo -> 0 <= va < MAXVA -> takes lim va pa lo lo' ->
  valid (pte_of (mem h) root va) = false -> 0 <= pa < 2 ^ 56 -> pa mod PGSIZE = 0 -> perm_ok perm ->
  (forall h', aspace R lim root h' [] lo -> walked root h fl h' [] -> Q (inr (-1)) h') ->
  (forall fl' h', aspace R lim root h' fl' lo' -> grows root h fl h' fl' ->
     (forall va', 0 <= va' < MAXVA -> pte_of (mem h') root va' =
        if va' / PGSIZE =? va / PGSIZE then leaf pa perm else pte_of (mem h) root va') -> hwp k h' Q) ->
  hwp (pte ← walk root va true;
       if pte =? 0 then mret (inr (-1)) else
       e ← ld64 pte;
       if truth (Z.land e PTE_V) then panic "mappages: remap" else
       st64 pte (Z.lor (Z.lor (PA2PTE pa) perm) PTE_V);; k) h Q.
Proof using LOk.
  intros Has Hva Ht Hinv Hpa Hal Hperm H0 HQ. apply hwp_bind.
  apply (walk_alloc R lim root va h fl lo); [done|lia|intros h' Has' Hw; by apply hwp_ret, H0|].
  intros q fl1 h1 Has1 [Hleaf Hg] Hn. rewrite (inner_entry_ne R lim root h1 fl1 lo) by done.
  apply hwp_bind, hwp_ld64. rewrite (pte_addr_entry _ root) by done.
  pose proof (same_leaves_pte root _ _ va Hleaf) as Hsame. rewrite Hsame. fold (valid (pte_of (mem h) root va)).
  rewrite Hinv. apply hwp_bind, hwp_st64. fold (leaf pa perm).
  destruct (leaf_facts pa perm Hpa Hal Hperm) as (Hu & _).
  apply (HQ fl1).
  - apply (map_store R lim root va pa perm q h1 fl1 lo lo'); try done. by rewrite Hsame.
  - by apply (grows_leaf R lim root va q _ h h1 fl fl1 lo).
  - intros va' Hva'. cbn [mem set_with set_mem].
    rewrite (as_leaf_va Has1 Hva Hn (fun _ _ _ _ => eq_refl)) by done.
    by rewrite (same_leaves_pte root (mem h) _ va').
Qed.

(** The leaf entries after [n] pages have been mapped at [a]. *)
Definition mapped (root a pa perm n : Z) (m m' : memory) : Prop :=
  forall va, 0 <= va < MAXVA -> pte_of m' root va =
    if (a <=? va) && (va <? a + n * PGSIZE) then leaf (pa + (PGROUNDDOWN va - a)) perm
    else pte_of m root va.

Lemma page_eqb (a x : Z) : a mod PGSIZE = 0 ->
  (x / PGSIZE =? a / PGSIZE) = (a <=? x) && (x <? a + PGSIZE).
Proof.
  intros Ha. unfold PGSIZE in *. apply Z.mod_divide in Ha as [k ->]; [|done].
  rewrite Z.div_mul by done. destruct (Z.eqb_spec (x / 4096) k) as [E|E];
    destruct (Z.leb_spec (k * 4096) x), (Z.ltb_spec x (k * 4096 + 4096)); cbn [andb]; try done;
    Z.div_mod_to_equations; lia.
Qed.

Lemma PGROUNDDOWN_in (a x : Z) : a mod PGSIZE = 0 -> a <= x < a + PGSIZE -> PGROUNDDOWN x = a.
Proof.
  intros Ha Hx. rewrite PGROUNDDOWN_spec. unfold PGSIZE in *.
  apply Z.mod_divide in Ha as [k ->]; [|done]. Z.div_mod_to_equations. lia.
Qed.

Lemma aligned_add (a n : Z) : a mod PGSIZE = 0 -> (a + n * PGSIZE) mod PGSIZE = 0.
Proof. intros Ha. by rewrite Z.mod_add. Qed.

Lemma mapped_0 (root a pa perm : Z) (m : memory) : mapped root a pa perm 0 m m.
Proof.
  intros va Hva. destruct (Z.leb_spec a va), (Z.ltb_spec va (a + 0 * PGSIZE)); simpl; try done; lia.
Qed.

Lemma mapped_S (root a pa perm n : Z) (m m1 m2 : memory) :
  a mod PGSIZE = 0 -> 0 <= n -> mapped root a pa perm n m m1 ->
  (forall va, 0 <= va < MAXVA -> pte_of m2 root va =
     if va / PGSIZE =? (a + n * PGSIZE) / PGSIZE then leaf (pa + n * PGSIZE) perm
     else pte_of m1 root va) ->
  mapped root a pa perm (n + 1) m m2.
Proof.
  intros Ha Hn H1 H2 va Hva. rewrite H2, H1, page_eqb by (try done; by apply aligned_add).
  destruct (Z.leb_spec (a + n * PGSIZE) va), (Z.ltb_spec va (a + n * PGSIZE + PGSIZE)); cbn [andb].
  - rewrite (proj2 (Z.leb_le a va)), (proj2 (Z.ltb_lt va _)) by (unfold PGSIZE in *; lia). cbn [andb].
    rewrite (PGROUNDDOWN_in (a + n * PGSIZE) va) by (try apply aligned_add; done || lia). f_equal. lia.
  - rewrite (proj2 (Z.ltb_ge va (a + (n + 1) * PGSIZE))), (proj2 (Z.ltb_ge va (a + n * PGSIZE)))
      by (unfold PGSIZE in *; lia). by rewrite !andb_false_r.
  - rewrite (proj2 (Z.ltb_lt va (a + (n + 1) * PGSIZE))), (proj2 (Z.ltb_lt va (a + n * PGSIZE)))
      by (unfold PGSIZE in *; lia). done.
  - unfold PGSIZE in *. lia.
Qed.

Section mappages.
Context (R : Z -> Prop) (lim root va size pa perm : Z) (h : heap) (fl : list Z) (los : nat -> list Z).
Let a := PGROUNDDOWN va.
Let n := (PGROUNDDOWN (va + size - 1) - a) / PGSIZE + 1.
Hypothesis Has : aspace R lim root h fl (los O).
Hypothesis Hva : 0 <= va.
Hypothesis Hsize : 0 < size.
Hypothesis Hend : va + size <= MAXVA.
Hypothesis Htakes : forall i, Z.of_nat i < n ->
  takes lim (a + Z.of_nat i * PGSIZE) (pa + Z.of_nat i * PGSIZE) (los i) (los (S i)).
Hypothesis Hfree : forall x, a <= x < a + n * PGSIZE -> valid (pte_of (mem h) root x) = false.
Hypothesis Hpa : 0 <= pa /\ pa + n * PGSIZE <= 2 ^ 56.
Hypothesis Hpal : pa mod PGSIZE = 0.
Hypothesis Hperm : perm_ok perm.

Lemma mappages_bounds :
  0 <= a /\ a mod PGSIZE = 0 /\ 0 < n /\ PGROUNDDOWN (va + size - 1) = a + (n - 1) * PGSIZE /\
  a + n * PGSIZE <= MAXVA.
Proof using Hva Hsize Hend.
  clear Hpal. subst n a. rewrite !PGROUNDDOWN_spec. change MAXVA with (67108864 * 4096) in *. unfold PGSIZE.
  Z.div_mod_to_equations. lia.
Qed.

Lemma mappages_spec (Q : Z -> heap -> Prop) :
  (forall i h', Z.of_nat i < n -> aspace R lim root h' [] (los i) -> grows root h fl h' [] ->
     mapped root a pa perm (Z.of_nat i) (mem h) (mem h') -> Q (-1) h') ->
  (forall fl' h', aspace R lim root h' fl' (los (Z.to_nat n)) -> grows root h fl h' fl' ->
     mapped root a pa perm n (mem h) (mem h') -> Q 0 h') ->
  hwp (mappages root va size pa perm) h Q.
Proof using All.
  intros HF HQ. destruct mappages_bounds as (Ha0 & Hal & Hn & Hlast & Htop).
  change MAXVA with 274877906944 in *.
  unfold mappages. rewrite (proj2 (Z.eqb_neq size 0)) by lia. fold a.
  rewrite (u64_small (va + size - 1)), Hlast by (unfold is_u64; lia).
  apply (hwp_loop (fun '(x, y) h1 => exists i fl1, Z.of_nat i < n /\ x = a + Z.of_nat i * PGSIZE /\
           y = pa + Z.of_nat i * PGSIZE /\ aspace R lim root h1 fl1 (los i) /\
           grows root h fl h1 fl1 /\ mapped root a pa perm (Z.of_nat i) (mem h) (mem h1))
         (fun '(x, _) _ => a + n * PGSIZE - x)).
  - exists O, fl. split_and!; [lia|lia|lia|done|apply grows_refl|apply mapped_0].
  - unfold PGSIZE in *. lia.
  - intros [x y] h1 (i & fl1 & Hi & -> & -> & Has1 & Hg1 & Hm1).
    assert (a + (Z.of_nat i + 1) * PGSIZE <= a + n * PGSIZE) as Hle by (unfold PGSIZE; lia).
    assert (pa + (Z.of_nat i + 1) * PGSIZE <= pa + n * PGSIZE) as Hle' by (unfold PGSIZE; lia).
    assert (0 <= Z.of_nat i * PGSIZE) as Hip by (unfold PGSIZE; lia).
    apply (map_page R lim root _ _ perm h1 fl1 (los i) (los (S i))); try done.
    + change MAXVA with 274877906944. unfold PGSIZE in *. lia.
    + by apply Htakes.
    + rewrite Hm1, (proj2 (Z.ltb_ge _ _)), andb_false_r
        by (change MAXVA with 274877906944; unfold PGSIZE in *; lia).
      apply Hfree. unfold PGSIZE in *. lia.
    + unfold PGSIZE in *. lia.
    + by apply aligned_add.
    + intros h2 Has2 [Hl2 Hg2]. apply (HF i); [done|done|by eapply grows_trans|].
      intros x Hx. rewrite (same_leaves_pte root _ _ x Hl2). by apply Hm1.
    + intros fl2 h2 Has2 Hg2 Hm2.
      assert (grows root h fl h2 fl2) as Hg by (by eapply grows_trans).
      assert (mapped root a pa perm (Z.of_nat (S i)) (mem h) (mem h2)) as Hm.
      { replace (Z.of_nat (S i)) with (Z.of_nat i + 1) by lia.
        apply (mapped_S root a pa perm (Z.of_nat i) _ (mem h1)); [done|lia|done|done]. }
      destruct (Z.eqb_spec (a + Z.of_nat i * PGSIZE) (a + (n - 1) * PGSIZE)) as [E|E]; apply hwp_ret.
      * assert (n = Z.of_nat (S i)) as En by (unfold PGSIZE in *; lia).
        apply (HQ fl2); [|done|by rewrite En]. by rewrite En, Nat2Z.id.
      * rewrite !u64_small by (unfold is_u64, PGSIZE in *; lia). split; [|unfold PGSIZE in *; lia].
        exists (S i), fl2. split_and!; try done; unfold PGSIZE in *; lia.
Qed.
End mappages.

(** ** uvmunmap *)

(** A page that a leaf owns is not interior. *)
Lemma leaf_page_not_inner (R : Z -> Prop) (lim root : Z) (h : heap) (fl lo : list Z) (va p : Z) :
  aspace R lim root h fl lo -> 0 <= va < lim -> node (mem h) root (path_of va) = Some p ->
  ~ inner_page (mem h) root p.
Proof.
  intros Has Hva Hp (k & Hk & Hkp). apply (path_of_not_inner va).
  rewrite (as_inj _ _ _ _ _ _ Has (path_of va) k p); try done; [by apply owned_va|by apply owned_inner].
Qed.

(** The table after the mapped pages between [a] and [b] are unmapped. *)
Record unmapped (root a b : Z) (free : bool) (h h' : heap) : Prop := {
  um_pte : forall va, 0 <= va < MAXVA -> pte_of (mem h') root va =
    if (a <=? va) && (va <? b) && valid (pte_of (mem h) root va) then 0 else pte_of (mem h) root va;
  um_inner : forall k, inner k -> node (mem h') root k = node (mem h) root k;
  um_frame : frame (fun q => inner_page (mem h) root q \/ free = true /\
    exists va, a <= va < b /\ node (mem h) root (path_of va) = Some q) (mem h) (mem h');
}.

Lemma unmapped_refl (root a b : Z) (free : bool) (h : heap) : b <= a -> unmapped root a b free h h.
Proof.
  intros Hab. split; [|done|done]. intros va Hva.
  destruct (Z.leb_spec a va), (Z.ltb_spec va b); cbn [andb]; try done; lia.
Qed.

Lemma unmap_free (R : Z -> Prop) (lim root va p q : Z) (h : heap) (fl lo : list Z)
    (Q : unit -> heap -> Prop) :
  aspace R lim root h fl lo -> 0 <= va < lim ->
  node (mem h) root [PX 2 va; PX 1 va] = Some q -> node (mem h) root (path_of va) = Some p ->
  (forall h' m1, mem h' = store64 m1 (q + 8 * PX 0 va) 0 -> aspace R lim root h' (p :: fl) lo ->
     frame (fun x => x = p) (mem h) m1 ->
     (forall path j, inner path -> idx j -> pte_at m1 root path j = pte_at (mem h) root path j) ->
     Q tt h') ->
  hwp (kfree p;; st64 (q + 8 * PX 0 va) 0) h Q.
Proof using LOk.
  intros Has Hva Hn Hp HQ. pose proof (as_lim _ _ _ _ _ _ Has).
  assert (0 <= va < MAXVA) as Hmax by lia.
  pose proof (as_node_ok Has _ _ (owned_va _ _ Hva) Hp) as Hpo.
  pose proof (as_excl _ _ _ _ _ _ Has _ _ (owned_va _ _ Hva) Hp) as Hex. rewrite elem_of_app in Hex.
  apply hwp_bind, (kfree_ok h p fl); [apply Has|done|tauto|]. intros h1 Hs1 Hh1. apply hwp_st64.
  assert (forall path j, inner path -> idx j ->
            pte_at (mem h1) root path j = pte_at (mem h) root path j) as HT1.
  { apply (as_same_outside Has p); [done|by apply (leaf_page_not_inner R lim root h fl lo va)|done]. }
  assert (q <> p) as Hne.
  { intros ->. apply (leaf_page_not_inner R lim root h fl lo va p Has Hva Hp).
    exists [PX 2 va; PX 1 va]. split; [apply inner_va|done]. }
  pose proof (as_node_ok Has _ _ (owned_inner _ _ (inner_va va)) Hn) as Hq.
  pose proof (as_excl _ _ _ _ _ _ Has _ _ (owned_inner _ _ (inner_va va)) Hn) as Hqex.
  rewrite elem_of_app in Hqex.
  apply (HQ _ (mem h1)); [done| |by apply frame_page|done].
  apply (as_leaf_change Has Hmax Hn HT1 _ 0 (p :: fl) lo [p] []); try done.
  - apply (heap_ok_write h1 (p :: fl) q); [done|by apply page_ok_aligned| |].
    + rewrite not_elem_of_cons. tauto.
    + apply store64_page. pose proof (PX_range 0 va ltac:(lia)). unfold PGSIZE. lia.
  - intros x. rewrite list_elem_of_singleton, Hp. split; [intros ->|by intros [_ [= ->]]].
    split; [by apply owned_va|done].
  - intros x. rewrite valid_0. split; [by intros ?%not_elem_of_nil|by intros [_ ?]].
  - apply NoDup_singleton.
Qed.

Lemma frame_range_mono (root a b b' : Z) (free : bool) (m m1 m2 : memory) :
  b <= b' ->
  frame (fun q => inner_page m root q \/ free = true /\
    exists va, a <= va < b /\ node m root (path_of va) = Some q) m1 m2 ->
  frame (fun q => inner_page m root q \/ free = true /\
    exists va, a <= va < b' /\ node m root (path_of va) = Some q) m1 m2.
Proof.
  intros Hb H. eapply frame_mono; [exact H|].
  intros q [?|(Hf & va & Hva & Hq)]; [by left|right]. split; [done|]. exists va. split; [lia|done].
Qed.

Lemma unmapped_skip (root a x : Z) (free : bool) (h h1 : heap) :
  unmapped root a x free h h1 -> x mod PGSIZE = 0 -> valid (pte_of (mem h) root x) = false ->
  unmapped root a (x + PGSIZE) free h h1.
Proof.
  intros [Hp Hi Hf] Hx Hv. split; [|done|].
  - intros va Hva. rewrite Hp by done.
    destruct (Z.leb_spec a va), (Z.ltb_spec va x), (Z.ltb_spec va (x + PGSIZE)); cbn [andb]; try done.
    + unfold PGSIZE in *. lia.
    + rewrite (pte_of_page _ _ va x), Hv; [done|]. apply Z.eqb_eq. rewrite page_eqb by done.
      rewrite (proj2 (Z.leb_le _ _)), (proj2 (Z.ltb_lt _ _)) by lia. done.
  - eapply frame_range_mono; [|exact Hf]. unfold PGSIZE. lia.
Qed.

Lemma unmapped_step (R : Z -> Prop) (lim root a x q : Z) (free : bool) (h h1 h2 : heap) (m1 : memory)
    (fl1 lo : list Z) :
  aspace R lim root h1 fl1 lo -> unmapped root a x free h h1 ->
  a <= x -> 0 <= x < MAXVA -> x mod PGSIZE = 0 ->
  node (mem h1) root [PX 2 x; PX 1 x] = Some q -> valid (pte_of (mem h) root x) = true ->
  (forall path j, inner path -> idx j -> pte_at m1 root path j = pte_at (mem h1) root path j) ->
  frame (fun p => free = true /\ node (mem h) root (path_of x) = Some p) (mem h1) m1 ->
  mem h2 = store64 m1 (q + 8 * PX 0 x) 0 ->
  unmapped root a (x + PGSIZE) free h h2.
Proof using LOk.
  intros Has [Hp Hi Hf] Hax Hx Hal Hn Hv HT1 Hfr Em.
  assert (is_u64 0) as H0 by done. split; rewrite Em.
  - intros va Hva. rewrite (as_leaf_va Has Hx Hn HT1) by done. rewrite page_eqb, Hp by done.
    destruct (Z.leb_spec x va), (Z.ltb_spec va (x + PGSIZE)); cbn [andb].
    + rewrite (proj2 (Z.leb_le a va)) by lia. cbn [andb].
      rewrite (pte_of_page _ _ va x), Hv; [done|]. apply Z.eqb_eq. rewrite page_eqb by done.
      rewrite (proj2 (Z.leb_le x va)), (proj2 (Z.ltb_lt va _)) by lia. done.
    + rewrite (proj2 (Z.ltb_ge va x)) by lia. done.
    + rewrite (proj2 (Z.ltb_lt va x)) by lia. done.
    + unfold PGSIZE in *. lia.
  - intros k Hk. rewrite <- Hi by done.
    apply (node_change (mem h1) _ root lim (path_of x)); [|by apply owned_inner|].
    + intros path' j Hp' Hj Hne. rewrite (as_leaf_pte Has Hn HT1) by done. by rewrite decide_False.
    + intros ->. by apply path_of_not_inner in Hk.
  - etransitivity; [eapply frame_range_mono; [|exact Hf]; unfold PGSIZE; lia|].
    etransitivity; (eapply frame_mono; [|]).
    + exact Hfr.
    + intros p [Hfree Hp']. right. split; [done|]. exists x. split; [unfold PGSIZE; lia|done].
    + apply store64_frame, PX_idx. lia.
    + intros p ->. left. exists [PX 2 x; PX 1 x]. split; [apply inner_va|]. by rewrite <- Hi by apply inner_va.
Qed.

(** The pages of a range have their leaf tables. *)
Definition tables (m : memory) (root a b : Z) : Prop :=
  forall va, a <= va < b -> node m root [PX 2 va; PX 1 va] <> None.

Lemma pte_flags_leaf (R : Z -> Prop) (lim root va : Z) (h : heap) (fl lo : list Z) :
  aspace R lim root h fl lo -> valid (pte_of (mem h) root va) = true ->
  (PTE_FLAGS (pte_of (mem h) root va) =? PTE_V) = false.
Proof.
  intros Has Hv. apply Z.eqb_neq. intros E.
  apply (as_flags _ _ _ _ _ _ Has) in E; [simpl in E; lia|apply inner_va|apply PX_idx; lia|done].
Qed.

Lemma land_V (e : Z) : (Z.land e PTE_V =? 0) = negb (valid e).
Proof. unfold valid, truth. by rewrite negb_involutive. Qed.

Lemma unmap_store (R : Z -> Prop) (lim root va q : Z) (h : heap) (fl lo : list Z) :
  aspace R lim root h fl lo -> 0 <= va < MAXVA -> lim <= va ->
  node (mem h) root [PX 2 va; PX 1 va] = Some q ->
  aspace R lim root (h <| mem := store64 (mem h) (q + 8 * PX 0 va) 0 |>) fl lo.
Proof using LOk.
  intros Has Hva Hlim Hn.
  assert (~ owned lim (path_of va)) as Hno by (apply not_owned_va; [apply Has|apply Has|lia|lia]).
  apply (as_leaf_change Has Hva Hn (fun _ _ _ _ => eq_refl) _ 0 fl lo [] []); try done.
  - exact (as_store_heap Has (inner_va va) (PX_idx 0 va ltac:(lia)) Hn 0).
  - intros x. split; [by intros ?%not_elem_of_nil|by intros [? _]].
  - intros x. split; [by intros ?%not_elem_of_nil|by intros [? _]].
  - constructor.
Qed.

(** One iteration of [uvmunmap], on a page whose leaf table exists. *)
Lemma unmap_page {X} (R : Z -> Prop) (lim root a x : Z) (free : bool) (h h1 : heap) (fl1 lo : list Z)
    (k : M X) (Q : X -> heap -> Prop) :
  aspace R lim root h1 fl1 lo -> unmapped root a x free h h1 -> a <= x -> 0 <= x < MAXVA ->
  x mod PGSIZE = 0 -> (if free then x < lim else lim <= x) ->
  node (mem h) root [PX 2 x; PX 1 x] <> None ->
  (forall h2 fl2, aspace R lim root h2 fl2 lo -> unmapped root a (x + PGSIZE) free h h2 ->
     (free = false -> fl2 = fl1) -> hwp k h2 Q) ->
  hwp (pte ← walk root x false;
       if pte =? 0 then panic "uvmunmap: walk" else
       e ← ld64 pte;
       if Z.land e PTE_V =? 0 then k else
       if PTE_FLAGS e =? PTE_V then panic "uvmunmap: not a leaf" else
       (if free then kfree (PTE2PA e) else mret tt);;
       st64 pte 0;; k) h1 Q.
Proof using LOk.
  intros Has Hu Hax Hx Hal Hfree Htab HQ. rewrite <- (um_inner _ _ _ _ _ _ Hu) in Htab by apply inner_va.
  destruct (node (mem h1) root [PX 2 x; PX 1 x]) as [q|] eqn:Hn; [|done].
  assert (pte_of (mem h1) root x = pte_of (mem h) root x) as Hsame.
  { rewrite (um_pte _ _ _ _ _ _ Hu), (proj2 (Z.ltb_ge x x)), andb_false_r by lia. done. }
  apply hwp_bind, walk_lookup; [lia|]. unfold pte_addr. rewrite Hn.
  rewrite (inner_entry_ne R lim root h1 fl1 lo) by done.
  apply hwp_bind, hwp_ld64. rewrite (pte_addr_entry _ root) by done. rewrite land_V.
  destruct (valid (pte_of (mem h1) root x)) eqn:Hv; cbn [negb].
  - rewrite (pte_flags_leaf R lim root x h1 fl1 lo) by done.
    rewrite Hsame in Hv. destruct free.
    + assert (node (mem h1) root (path_of x) = Some (PTE2PA (pte_of (mem h1) root x))) as Hp
        by (by rewrite node_va, Hsame, Hv).
      apply hwp_assoc, hwp_bind.
      apply (unmap_free R lim root x _ q h1 fl1 lo); [done|lia|done|done|].
      intros h2 m1 Em Has2 Hf2 HT. apply (HQ h2 _ Has2); [|done].
      apply (unmapped_step R lim root a x q true h h1 h2 m1 fl1 lo); try done.
      eapply frame_mono; [exact Hf2|]. intros p ->. split; [done|]. by rewrite node_va, <- Hsame, Hsame, Hv.
    + apply hwp_bind, hwp_ret, hwp_bind, hwp_st64.
      apply (HQ _ fl1); [by apply unmap_store| |done].
      by apply (unmapped_step R lim root a x q false h h1 _ (mem h1) fl1 lo).
  - rewrite Hsame in Hv. apply (HQ h1 fl1); [done| |done]. by apply unmapped_skip.
Qed.

Section uvmunmap.
Context (R : Z -> Prop) (lim root va npages : Z) (free : bool) (h : heap) (fl lo : list Z).
Let top := va + npages * PGSIZE.
Hypothesis Has : aspace R lim root h fl lo.
Hypothesis Hva : 0 <= va.
Hypothesis Hal : va mod PGSIZE = 0.
Hypothesis Hnp : 0 <= npages.
Hypothesis Htop : top <= MAXVA.
Hypothesis Hfree : if free then top <= lim else lim <= va.
Hypothesis Htab : tables (mem h) root va top.

Lemma uvmunmap_spec (Q : unit -> heap -> Prop) :
  (forall h' fl', aspace R lim root h' fl' lo -> unmapped root va top free h h' ->
     (free = false -> fl' = fl) -> Q tt h') ->
  hwp (uvmunmap root va npages free) h Q.
Proof using All.
  intros HQ. unfold uvmunmap. rewrite Hal. cbn [negb Z.eqb].
  change MAXVA with 274877906944 in *.
  assert (u64 (va + u64 (npages * PGSIZE)) = top) as ->.
  { subst top. rewrite (u64_small (npages * PGSIZE)), u64_small; unfold is_u64, PGSIZE in *; lia. }
  apply (hwp_loop (fun x h1 => exists fl1 i, 0 <= i <= npages /\ x = va + i * PGSIZE /\
           aspace R lim root h1 fl1 lo /\ unmapped root va x free h h1 /\ (free = false -> fl1 = fl))
         (fun x _ => top - x)).
  - exists fl, 0. split_and!; [lia|lia|lia|done|apply unmapped_refl; lia|done].
  - lia.
  - intros x h1 (fl1 & i & Hi & Ex & Has1 & Hu1 & Hf1).
    assert (top = x + (npages - i) * PGSIZE) as Et by (subst top x; lia).
    destruct (Z.ltb_spec x top) as [Hlt|Hge]; cbn [negb].
    + assert (x + PGSIZE <= top) as Hle by (unfold PGSIZE in *; lia).
      assert (0 <= i * PGSIZE) as Hpos by (unfold PGSIZE; lia).
      apply (unmap_page R lim root va x free h h1 fl1 lo); try done; try lia.
      * change MAXVA with 274877906944. unfold PGSIZE in *. lia.
      * subst x. by apply aligned_add.
      * destruct free; unfold PGSIZE in *; lia.
      * apply Htab. lia.
      * intros h2 fl2 Has2 Hu2 Hf2. apply hwp_ret.
        rewrite u64_small by (unfold is_u64, PGSIZE in *; lia). split; [|unfold PGSIZE in *; lia].
        exists fl2, (i + 1). split_and!; try done; try (unfold PGSIZE in *; lia).
        intros Hfalse. by rewrite Hf2, Hf1.
    + apply hwp_ret, (HQ h1 fl1); [done| |done].
      replace top with x; [done|]. unfold PGSIZE in *. lia.
Qed.
End uvmunmap.

(** ** A fresh page: kalloc, fill it, map it *)

(** Data pages keep their contents while the tree grows. *)
Lemma tpage_aligned (R : Z -> Prop) (lim root : Z) (h : heap) (fl lo : list Z) (q : Z) :
  aspace R lim root h fl lo -> tpage root h fl q -> q mod PGSIZE = 0.
Proof.
  intros Has [Hq|(k & Hk & Hq)].
  - eapply (as_list_ok Has). apply elem_of_app. by left.
  - eapply (as_node_ok Has _ _ (owned_inner _ _ Hk) Hq).
Qed.

Lemma leaf_not_tpage (R : Z -> Prop) (lim root va p : Z) (h : heap) (fl lo : list Z) :
  aspace R lim root h fl lo -> 0 <= va < lim -> node (mem h) root (path_of va) = Some p ->
  ~ tpage root h fl p.
Proof.
  intros Has Hva Hp [Hq|Hq].
  - eapply (as_excl _ _ _ _ _ _ Has _ _ (owned_va _ _ Hva) Hp). apply elem_of_app. by left.
  - by eapply leaf_page_not_inner.
Qed.

Lemma grows_data (R : Z -> Prop) (lim root va p : Z) (h h' : heap) (fl lo fl' : list Z) :
  aspace R lim root h fl lo -> 0 <= va < lim -> node (mem h) root (path_of va) = Some p ->
  grows root h fl h' fl' -> same_on (in_page p) (mem h) (mem h').
Proof.
  intros Has Hva Hp [Hf _]. apply (frame_in_page _ _ _ _ Hf).
  - apply (as_node_ok Has _ _ (owned_va _ _ Hva) Hp).
  - intros q Hq. by eapply tpage_aligned.
  - by eapply leaf_not_tpage.
Qed.

(** Mapping a single page. *)
Lemma mappages_one (R : Z -> Prop) (lim root a p perm : Z) (h : heap) (fl lo lo' : list Z)
    (Q : Z -> heap -> Prop) :
  aspace R lim root h fl lo -> 0 <= a < MAXVA -> a mod PGSIZE = 0 -> takes lim a p lo lo' ->
  0 <= p < 2 ^ 55 -> p mod PGSIZE = 0 -> perm_ok perm -> valid (pte_of (mem h) root a) = false ->
  (forall h', aspace R lim root h' [] lo -> walked root h fl h' [] -> Q (-1) h') ->
  (forall fl' h', aspace R lim root h' fl' lo' -> grows root h fl h' fl' ->
     (forall va, 0 <= va < MAXVA -> pte_of (mem h') root va =
        if va / PGSIZE =? a / PGSIZE then leaf p perm else pte_of (mem h) root va) -> Q 0 h') ->
  hwp (mappages root a PGSIZE p perm) h Q.
Proof using LOk.
  intros Has Ha Hal Ht Hp Hpal Hperm Hinv HF HQ.
  assert (a + PGSIZE <= MAXVA) as Htop.
  { change MAXVA with (67108864 * 4096) in *. unfold PGSIZE in *. apply Z.mod_divide in Hal as [k ->]; [|done]. lia. }
  unfold mappages. rewrite (proj2 (Z.eqb_neq PGSIZE 0)) by done.
  change MAXVA with 274877906944 in *.
  rewrite (u64_small (a + PGSIZE - 1)) by (unfold is_u64, PGSIZE in *; lia).
  rewrite (PGROUNDDOWN_id a), (PGROUNDDOWN_in a (a + PGSIZE - 1)) by (done || unfold PGSIZE; lia).
  apply (hwp_loop (fun '(x, y) h1 => x = a /\ y = p /\ h1 = h) (fun _ _ => 0)); [done|lia|].
  intros [x y] h1 (-> & -> & ->).
  apply (map_page R lim root a p perm h fl lo lo'); try done.
  - lia.
  - intros fl' h' Has' Hg Hpte. rewrite Z.eqb_refl. apply hwp_ret. by apply (HQ fl').
Qed.

(** A page from the free list, filled. *)
Lemma filled_walked (R : Z -> Prop) (lim root p : Z) (h h1 : heap) (m2 : memory) (fl fl1 lo : list Z) :
  fl = p :: fl1 -> aspace R lim root h1 fl1 (p :: lo) ->
  (forall path j, inner path -> idx j -> pte_at (mem h1) root path j = pte_at (mem h) root path j) ->
  grows root h fl h1 fl1 -> same_on (fun x => ~ in_page p x) (mem h1) m2 ->
  aspace R lim root (h1 <| mem := m2 |>) fl1 (p :: lo) /\ walked root h fl (h1 <| mem := m2 |>) fl1.
Proof using LOk.
  intros Efl Has1 HT1 Hg1 Hs2.
  destruct (as_loose_write R lim root h1 fl1 (p :: lo) p m2 Has1) as [Has2 HT2]; [by left|done|].
  split; [done|]. split; [intros k j Hk Hj _; by rewrite <- HT1, <- HT2|]. split.
  - etransitivity; [apply Hg1|]. eapply frame_mono; [by apply frame_page|]. intros q ->. rewrite Efl. by left; left.
  - intros q [Hq|Hq]; apply Hg1; [by left|right]. by apply (inner_page_same (mem h1) m2).
Qed.

(** A page given back. *)
Lemma freed_walked (R : Z -> Prop) (lim root p : Z) (h h3 h4 : heap) (fl fl3 lo : list Z) :
  p ∈ fl -> walked root h fl h3 fl3 -> aspace R lim root h3 fl3 (p :: lo) ->
  frame (fun q => q = p) (mem h3) (mem h4) ->
  (forall path j, inner path -> idx j -> pte_at (mem h4) root path j = pte_at (mem h3) root path j) ->
  walked root h fl h4 (p :: fl3).
Proof using LOk.
  intros Hin [Hl3 Hg3] Has3 Hf4 HT4. split.
  - eapply same_leaves_trans; [exact Hl3|]. intros k j Hk Hj _. by rewrite HT4.
  - split.
    + etransitivity; [apply Hg3|]. eapply frame_mono; [exact Hf4|]. intros q ->. by left.
    + intros q [Hq|Hq]; [apply elem_of_cons in Hq as [->|Hq]; [by left|apply Hg3; by left]|].
      apply Hg3. right. by apply (inner_page_same (mem h3) (mem h4)).
Qed.

(** Mapping a loose page does not change its contents. *)
Lemma loose_bytes (R : Z -> Prop) (lim root p : Z) (h2 h3 : heap) (fl1 fl3 lo : list Z) (x : Z) :
  aspace R lim root h2 fl1 (p :: lo) -> page_ok p -> grows root h2 fl1 h3 fl3 -> in_page p x ->
  byte_at (mem h3) x = byte_at (mem h2) x.
Proof using LOk.
  intros Has2 Hp Hg3 Hx. assert (p ∈ fl1 ++ p :: lo) as Hin' by (apply elem_of_app; right; by left).
  apply (frame_in_page (tpage root h2 fl1) (mem h2) (mem h3) p); [apply Hg3|apply Hp| | |done].
  - intros q Hq. exact (tpage_aligned R lim root h2 fl1 (p :: lo) q Has2 Hq).
  - intros [Hq|Hq]; [|by apply (as_list_not_inner Has2 p Hin')].
    pose proof (as_nodup _ _ _ _ _ _ Has2) as Hn. apply list.NoDup_app in Hn as (_ & Hd & _).
    apply (Hd p Hq). by left.
Qed.

Section alloc_page.
Context {X : Type} (R : Z -> Prop) (lim root a perm : Z) (h : heap) (fl lo : list Z).
Context (fill : Z -> M unit) (c : Z -> Z) (F K : M X).
Hypothesis Has : aspace R lim root h fl lo.
Hypothesis Ha : 0 <= a < lim.
Hypothesis Hal : a mod PGSIZE = 0.
Hypothesis Hperm : perm_ok perm.
Hypothesis Hinv : valid (pte_of (mem h) root a) = false.
Hypothesis Hfill : forall p h1 (Q : unit -> heap -> Prop),
  p ∈ fl -> page_ok p -> frame (fun q => q = p) (mem h) (mem h1) ->
  (forall m', same_on (fun x => ~ in_page p x) (mem h1) m' ->
     (forall i, 0 <= i < PGSIZE -> byte_at m' (p + i) = c i) -> Q tt (h1 <| mem := m' |>)) ->
  hwp (fill p) h1 Q.

Lemma alloc_page (Q : X -> heap -> Prop) :
  (forall h' fl', aspace R lim root h' fl' lo -> walked root h fl h' fl' -> hwp F h' Q) ->
  (forall p h' fl', aspace R lim root h' fl' lo -> grows root h fl h' fl' -> page_ok p ->
     (forall va, 0 <= va < MAXVA -> pte_of (mem h') root va =
        if va / PGSIZE =? a / PGSIZE then leaf p perm else pte_of (mem h) root va) ->
     (forall i, 0 <= i < PGSIZE -> byte_at (mem h') (p + i) = c i) -> hwp K h' Q) ->
  hwp (p ← kalloc; if p =? 0 then F else
       fill p;;
       r ← mappages root a PGSIZE p perm;
       if negb (r =? 0) then kfree p;; F else K) h Q.
Proof using All.
  intros HF HK. apply hwp_bind. pose proof (as_lim _ _ _ _ _ _ Has) as Hlim.
  apply (as_kalloc R lim root h fl lo); [done| |].
  { intros E. rewrite E in Has. apply (HF h []); [done|]. rewrite E. apply walked_refl. }
  intros p fl1 h1 Efl Has1 Hp HT1 Hg1 Hf1.
  assert (p ∈ fl) as Hin by (rewrite Efl; by left).
  rewrite (proj2 (Z.eqb_neq p 0)) by (apply page_ok_pos in Hp; unfold KERNBASE in Hp; lia).
  apply hwp_bind, Hfill; [done..|]. intros m2 Hs2 Hc2.
  destruct (filled_walked R lim root p h h1 m2 fl fl1 lo Efl Has1 HT1 Hg1 Hs2) as [Has2 [Hl2 Hg2]].
  set (h2 := h1 <| mem := m2 |>) in *.
  pose proof (page_ok_pos p Hp) as Hpp. change PHYSTOP with 0x88000000 in Hpp. change KERNBASE with 0x80000000 in Hpp.
  apply hwp_bind, (mappages_one R lim root a p perm h2 fl1 (p :: lo) lo); try done; try lia.
  - left. split; [lia|done].
  - apply Hp.
  - by rewrite (same_leaves_pte root (mem h)).
  - intros h3 Has3 Hw3. cbn [negb Z.eqb]. apply hwp_bind.
    apply (as_kfree R lim root h3 [] lo p); [done|]. intros h4 Hf4 Has4 HT4.
    apply (HF h4 [p]); [done|]. apply (freed_walked R lim root p h h3 h4 fl [] lo); [done| |done..].
    by apply (walked_trans root h h2 h3 fl fl1 []).
  - intros fl3 h3 Has3 Hg3 Hpte. cbn [negb Z.eqb].
    apply (HK p h3 fl3); [done|by eapply grows_trans|done| |].
    + intros va Hva. rewrite Hpte by done. by rewrite (same_leaves_pte root (mem h) (mem h2)).
    + intros i Hi. rewrite <- (Hc2 i Hi). apply (loose_bytes R lim root p h2 h3 fl1 fl3 lo); [done|done|done|].
      unfold in_page. lia.
Qed.
End alloc_page.

End vm_spec.
