(* ===== verification/Uvm.v ===== *)
(** * User address spaces (kernel/vm.c)

    Growing, shrinking, copying and freeing the memory of a process, from the
    specifications of VmSpec.v.  Every theorem covers the run that succeeds and
    the run in which memory runs out: the address space is then as it was
    before, and no page is lost. *)
From S2P Require Import Prelude Memory Riscv State Spinlock Cstring Kalloc Pagetable Vm VmSpec.

(** What a table maps an address to: the leaf entry, if it is valid. *)
Definition trans (m : memory) (root va : Z) : option Z :=
  let e := pte_of m root va in if valid e then Some e else None.

Lemma trans_None (m : memory) (root va : Z) : trans m root va = None -> valid (pte_of m root va) = false.
Proof. unfold trans. by destruct (valid (pte_of m root va)). Qed.

(** The memory a process sees: the permission bits and the byte at an address. *)
Definition ucell (m : memory) (root va : Z) : option (Z * Z) :=
  e ← trans m root va; Some (PTE_FLAGS e, byte_at m (PTE2PA e + va mod PGSIZE)).

Definition user_perm : Z := Z.lor (Z.lor (Z.lor PTE_W PTE_X) PTE_R) PTE_U.

Section uvm.
Context {L : Linker} {LOk : LinkerOk L}.

Lemma user_perm_ok : perm_ok user_perm.
Proof. by vm_compute. Qed.

Lemma lim_u64 (R : Z -> Prop) (lim root : Z) (h : heap) (fl lo : list Z) (x : Z) :
  aspace R lim root h fl lo -> 0 <= x <= lim ->
  x + PGSIZE <= 2 ^ 64 /\ x <= PGROUNDUP x < x + PGSIZE /\ PGROUNDUP x <= lim /\ PGROUNDUP x mod PGSIZE = 0.
Proof.
  intros Has Hx. pose proof (as_lim _ _ _ _ _ _ Has) as Hl. pose proof (as_aligned _ _ _ _ _ _ Has) as Ha.
  change MAXVA with 274877906944 in Hl.
  assert (x + PGSIZE <= 2 ^ 64) as H64 by (unfold PGSIZE; lia).
  pose proof (PGROUNDUP_bounds x ltac:(lia) H64) as Hb. pose proof (PGROUNDUP_aligned x) as Hal.
  split_and!; try done; try lia. unfold PGSIZE in *.
  apply Z.mod_divide in Ha as [k ->]; [|done]. apply Z.mod_divide in Hal as [k' E]; [|done]. lia.
Qed.

(** ** Frames and contents *)
Lemma tpage_R (R : Z -> Prop) (lim root : Z) (h : heap) (fl lo : list Z) (q : Z) :
  aspace R lim root h fl lo -> tpage root h fl q -> R q.
Proof.
  intros Has [Hq|(k & Hk & Hq)].
  - apply (as_list_R Has). apply elem_of_app. by left.
  - apply (as_node_R Has k); [by apply owned_inner|done].
Qed.

Lemma grows_R (R : Z -> Prop) (lim root : Z) (h h' : heap) (fl lo fl' : list Z) :
  aspace R lim root h fl lo -> grows root h fl h' fl' -> frame R (mem h) (mem h').
Proof. intros Has [Hf _]. eapply frame_mono; [exact Hf|]. intros q. by eapply tpage_R. Qed.

Lemma unmapped_R (R : Z -> Prop) (lim root a b : Z) (free : bool) (h h' : heap) (fl lo : list Z) :
  aspace R lim root h fl lo -> 0 <= a -> (free = true -> b <= lim) ->
  unmapped root a b free h h' -> frame R (mem h) (mem h').
Proof.
  intros Has Ha Hb Hu. eapply frame_mono; [apply Hu|]. intros q [(k & Hk & Hq)|(Hfree & va & Hva & Hq)].
  - apply (as_node_R Has k); [by apply owned_inner|done].
  - apply (as_node_R Has (path_of va)); [apply owned_va|done]. specialize (Hb Hfree). lia.
Qed.

Lemma cell_in_page (p va : Z) : in_page p (p + va mod PGSIZE).
Proof. unfold in_page. pose proof (Z.mod_pos_bound va PGSIZE ltac:(done)). lia. Qed.

Lemma ucell_same (m m' : memory) (root va : Z) :
  pte_of m' root va = pte_of m root va ->
  (forall p, node m root (path_of va) = Some p -> same_on (in_page p) m m') ->
  ucell m' root va = ucell m root va.
Proof.
  intros Hp Hs. unfold ucell, trans. rewrite Hp. rewrite node_va in Hs.
  destruct (valid (pte_of m root va)); [|done]. cbn. rewrite (Hs _ eq_refl); [done|]. apply cell_in_page.
Qed.

Lemma grows_cell (R : Z -> Prop) (lim root va : Z) (h h' : heap) (fl lo fl' : list Z) :
  aspace R lim root h fl lo -> grows root h fl h' fl' -> 0 <= va < lim ->
  pte_of (mem h') root va = pte_of (mem h) root va ->
  ucell (mem h') root va = ucell (mem h) root va.
Proof.
  intros Has Hg Hva Hp. apply ucell_same; [done|]. intros p Hn. by eapply grows_data.
Qed.

Lemma unmapped_cell (R : Z -> Prop) (lim root a b va : Z) (h h' : heap) (fl lo : list Z) :
  aspace R lim root h fl lo -> unmapped root a b true h h' -> 0 <= a -> b <= lim ->
  a mod PGSIZE = 0 -> b mod PGSIZE = 0 -> 0 <= va < lim ->
  ucell (mem h') root va = if (a <=? va) && (va <? b) then None else ucell (mem h) root va.
Proof using LOk.
  intros Has [Hp _ Hf] Ha Hb Hal Hbl Hva. pose proof (as_lim _ _ _ _ _ _ Has) as Hlim.
  specialize (Hp va ltac:(lia)). destruct ((a <=? va) && (va <? b)) eqn:E; cbn [andb] in Hp.
  - unfold ucell, trans. rewrite Hp. destruct (valid (pte_of (mem h) root va)) eqn:V; [done|by rewrite V].
  - apply ucell_same; [done|]. intros p Hn. apply (frame_in_page _ _ _ _ Hf).
    + apply (as_node_ok Has _ _ (owned_va _ _ Hva) Hn).
    + intros q [(k & Hk & Hq)|(_ & x & Hx & Hq)]; eapply (as_node_ok Has); [by apply owned_inner|done| |exact Hq].
      apply owned_va. lia.
    + intros [Hq|(_ & x & Hx & Hq)]; [by eapply leaf_page_not_inner|].
      assert (path_of x = path_of va) as Ep
        by (eapply (as_inj _ _ _ _ _ _ Has); [apply owned_va; lia|by apply owned_va|exact Hq|exact Hn]).
      apply path_of_inj in Ep; [|lia|lia]. apply Z.mod_divide in Hal as [k1 ->]; [|done].
      apply Z.mod_divide in Hbl as [k2 ->]; [|done]. unfold PGSIZE in *.
      destruct (Z.leb_spec (k1 * 4096) va), (Z.ltb_spec va (k2 * 4096)); try done; Z.div_mod_to_equations; lia.
Qed.

(** ** uvmdealloc *)
Lemma uvmdealloc_spec (R : Z -> Prop) (lim root oldsz newsz : Z) (h : heap) (fl lo : list Z)
    (Q : Z -> heap -> Prop) :
  aspace R lim root h fl lo -> 0 <= newsz < oldsz -> oldsz <= lim ->
  tables (mem h) root (PGROUNDUP newsz) (PGROUNDUP oldsz) ->
  (forall h' fl', aspace R lim root h' fl' lo ->
     unmapped root (PGROUNDUP newsz) (PGROUNDUP oldsz) true h h' -> Q newsz h') ->
  hwp (uvmdealloc root oldsz newsz) h Q.
Proof using LOk.
  intros Has Hn Ho Htab HQ.
  pose proof (lim_u64 R lim root h fl lo newsz Has ltac:(lia)) as (_ & Hb1 & Hl1 & Ha1).
  pose proof (lim_u64 R lim root h fl lo oldsz Has ltac:(lia)) as (_ & Hb2 & Hl2 & Ha2).
  pose proof (as_lim _ _ _ _ _ _ Has) as Hlim. change MAXVA with 274877906944 in Hlim.
  unfold uvmdealloc. rewrite (proj2 (Z.leb_gt _ _)) by lia.
  set (t := PGROUNDUP newsz) in *. set (u := PGROUNDUP oldsz) in *.
  destruct (Z.ltb_spec t u) as [Hlt|Hge].
  - assert (exists n, u = t + n * PGSIZE /\ 0 <= n < 2 ^ 26 + 1) as (n & En & Hnr).
    { unfold PGSIZE in *. apply Z.mod_divide in Ha1 as [a ->]; [|done].
      apply Z.mod_divide in Ha2 as [b ->]; [|done]. exists (b - a). lia. }
    assert (u64 (i32 (u64 (u - t) / PGSIZE)) = n) as ->.
    { rewrite (u64_small (u - t)) by (unfold is_u64, PGSIZE in *; lia).
      replace (u - t) with (n * PGSIZE) by lia. rewrite Z.div_mul by done.
      unfold i32. rewrite signed_small by lia. apply u64_small. unfold is_u64. lia. }
    apply hwp_bind, (uvmunmap_spec R lim root t n true h fl lo); rewrite <- ?En; try done; try lia.
    + change MAXVA with 274877906944. lia.
    + intros h' fl' Has' Hu _. by apply hwp_ret, (HQ h' fl').
  - apply hwp_bind, hwp_ret, hwp_ret, (HQ h fl); [done|]. by apply unmapped_refl.
Qed.

Lemma uvmdealloc_noop (root oldsz newsz : Z) (h : heap) (Q : Z -> heap -> Prop) :
  oldsz <= newsz -> Q oldsz h -> hwp (uvmdealloc root oldsz newsz) h Q.
Proof. intros H HQ. unfold uvmdealloc. rewrite (proj2 (Z.leb_le _ _)) by done. by apply hwp_ret. Qed.

(** ** uvmalloc

    The pages from [o] to [t] are new, readable and writable, and zero. *)
Record grown (root o t : Z) (h h' : heap) : Prop := {
  grown_new : forall va, 0 <= va < MAXVA -> o <= va < t -> exists p,
    pte_of (mem h') root va = leaf p user_perm /\ page_ok p /\
    forall i, 0 <= i < PGSIZE -> byte_at (mem h') (p + i) = 0;
  grown_old : forall va, 0 <= va < MAXVA -> ~ (o <= va < t) ->
    pte_of (mem h') root va = pte_of (mem h) root va;
}.

Lemma page_ok_55 (p : Z) : page_ok p -> 0 <= p < 2 ^ 55.
Proof.
  intros H. apply page_ok_pos in H. change PHYSTOP with 0x88000000 in H.
  change KERNBASE with 0x80000000 in H. lia.
Qed.

Lemma leaf_user (p : Z) : page_ok p ->
  valid (leaf p user_perm) = true /\ PTE2PA (leaf p user_perm) = p.
Proof.
  intros Hp. pose proof (page_ok_55 p Hp). destruct Hp as [Ha _].
  destruct (leaf_facts p user_perm) as (_ & ? & ? & _); [lia|done|apply user_perm_ok|done].
Qed.

Lemma node_of_leaf (m : memory) (root va p : Z) :
  page_ok p -> pte_of m root va = leaf p user_perm -> node m root (path_of va) = Some p.
Proof using LOk. intros Hp E. destruct (leaf_user p Hp) as [Hv Hpp]. by rewrite node_va, E, Hv, Hpp. Qed.

Lemma pte_valid_table (m : memory) (root va : Z) :
  valid (pte_of m root va) = true -> node m root [PX 2 va; PX 1 va] <> None.
Proof. unfold pte_of, pte_at. by destruct (node m root [PX 2 va; PX 1 va]). Qed.

(** One more page. *)
Lemma grown_S (R : Z -> Prop) (lim root o t p : Z) (h h1 h2 : heap) (fl1 lo fl2 : list Z) :
  aspace R lim root h1 fl1 lo -> grown root o t h h1 -> 0 <= o <= t -> t < lim -> t mod PGSIZE = 0 ->
  grows root h1 fl1 h2 fl2 -> page_ok p ->
  (forall va, 0 <= va < MAXVA -> pte_of (mem h2) root va =
     if va / PGSIZE =? t / PGSIZE then leaf p user_perm else pte_of (mem h1) root va) ->
  (forall i, 0 <= i < PGSIZE -> byte_at (mem h2) (p + i) = 0) ->
  grown root o (t + PGSIZE) h h2.
Proof using LOk.
  intros Has [Hnew Hold] Ho Ht Hal Hg Hp Hpte Hz. pose proof (as_lim _ _ _ _ _ _ Has) as Hlim. split.
  - intros va Hva Hr. rewrite Hpte, page_eqb by done.
    destruct (Z.leb_spec t va), (Z.ltb_spec va (t + PGSIZE)); cbn [andb]; try lia.
    + exists p. by split_and!.
    + destruct (Hnew va Hva) as (p' & E & Hp' & Hz'); [lia|]. exists p'. split_and!; [done..|].
      intros i Hi. rewrite <- (Hz' i Hi).
      apply (grows_data R lim root va p' h1 h2 fl1 lo fl2); [done|lia|by apply node_of_leaf|done|].
      unfold in_page. lia.
  - intros va Hva Hr. rewrite Hpte, page_eqb by done.
    destruct (Z.leb_spec t va), (Z.ltb_spec va (t + PGSIZE)); cbn [andb]; try lia; apply Hold; unfold PGSIZE in *; lia.
Qed.

(** The entries of two memories agree, and the bytes of the pages they own. *)
Record same_space (lim root : Z) (m m' : memory) : Prop := {
  ss_trans : forall va, 0 <= va < MAXVA -> trans m' root va = trans m root va;
  ss_cell : forall va, 0 <= va < lim -> ucell m' root va = ucell m root va;
}.

(** Taking new pages away again leaves what was there before. *)
Lemma grown_unmapped (R : Z -> Prop) (lim root o t : Z) (h h1 h2 : heap) (fl lo fl1 : list Z) :
  aspace R lim root h fl lo -> aspace R lim root h1 fl1 lo -> grows root h fl h1 fl1 ->
  grown root o t h h1 -> unmapped root o t true h1 h2 ->
  0 <= o <= t -> t <= lim -> o mod PGSIZE = 0 -> t mod PGSIZE = 0 ->
  (forall va, o <= va < t -> valid (pte_of (mem h) root va) = false) ->
  same_space lim root (mem h) (mem h2).
Proof using LOk.
  intros Has Has1 Hg [Hnew Hold] Hu Ho Ht Hoal Htal Hfree. pose proof (as_lim _ _ _ _ _ _ Has) as Hlim. split.
  - intros va Hva. unfold trans. rewrite (um_pte _ _ _ _ _ _ Hu) by done.
    destruct (Z.leb_spec o va), (Z.ltb_spec va t); cbn [andb]; try (rewrite Hold by lia; done).
    rewrite (Hfree va) by lia. destruct (Hnew va) as (p & -> & Hp & _); [lia|lia|].
    destruct (leaf_user p Hp) as [-> _]. done.
  - intros va Hva. rewrite (unmapped_cell R lim root o t va h1 h2 fl1 lo) by (done || lia).
    destruct (Z.leb_spec o va), (Z.ltb_spec va t); cbn [andb];
      try (apply (grows_cell R lim root va h h1 fl lo fl1); [done|done|lia|apply Hold; lia]).
    unfold ucell, trans. by rewrite Hfree by lia.
Qed.

Section uvmalloc.
Context (R : Z -> Prop) (lim root oldsz newsz : Z) (h : heap) (fl lo : list Z).
Let o := PGROUNDUP oldsz.
Hypothesis Has : aspace R lim root h fl lo.
Hypothesis Hsz : 0 <= oldsz <= newsz.
Hypothesis Hlim : newsz <= lim.
Hypothesis Hfree : forall va, o <= va < PGROUNDUP newsz -> valid (pte_of (mem h) root va) = false.

(** Memory has run out at [a]: the new pages are given back. *)
Lemma uvmalloc_undo (a : Z) (h1 : heap) (fl1 : list Z) (Q : Z + Z -> heap -> Prop) :
  aspace R lim root h1 fl1 lo -> grown root o a h h1 -> grows root h fl h1 fl1 ->
  a mod PGSIZE = 0 -> o <= a < newsz ->
  (forall h' fl', aspace R lim root h' fl' lo -> same_space lim root (mem h) (mem h') ->
     frame R (mem h) (mem h') -> Q (inr 0) h') ->
  hwp (uvmdealloc root a o;; mret (inr 0)) h1 Q.
Proof using All.
  intros Has1 Hg Hgr Hal Ha HQ.
  pose proof (lim_u64 R lim root h fl lo oldsz Has ltac:(lia)) as (_ & Hb & Hl & Hoal). fold o in Hb, Hl, Hoal.
  pose proof (lim_u64 R lim root h fl lo newsz Has ltac:(lia)) as (_ & Hb2 & _).
  pose proof (as_lim _ _ _ _ _ _ Has) as Hm. apply hwp_bind.
  pose proof (grows_R R lim root h h1 fl lo fl1 Has Hgr) as HR.
  assert (forall h2, unmapped root o a true h1 h2 -> same_space lim root (mem h) (mem h2)) as Hss.
  { intros h2 Hu. apply (grown_unmapped R lim root o a h h1 h2 fl lo fl1); try done; try lia.
    intros; apply Hfree; lia. }
  destruct (Z.eq_dec a o) as [E|Hne].
  - apply uvmdealloc_noop; [lia|]. apply hwp_ret, (HQ h1 fl1); [done| |done].
    apply Hss. apply unmapped_refl. lia.
  - assert (PGROUNDUP o = o /\ PGROUNDUP a = a) as [Eo Ea] by (split; apply PGROUNDUP_id; done || plia).
    apply (uvmdealloc_spec R lim root a o h1 fl1 lo); rewrite ?Eo, ?Ea; [done|lia|lia| |].
    + intros va Hva. destruct (grown_new _ _ _ _ _ Hg va) as (p & E & Hp & _); [plia|lia|].
      apply pte_valid_table. rewrite E. by apply leaf_user.
    + intros h2 fl2 Has2 Hu. apply hwp_ret, (HQ h2 fl2); [done|by apply Hss|].
      etransitivity; [exact HR|]. apply (unmapped_R R lim root o a true h1 h2 fl1 lo); done || lia.
Qed.

Lemma fill_zero (p : Z) (h1 : heap) (Q : unit -> heap -> Prop) :
  (forall m', same_on (fun x => ~ in_page p x) (mem h1) m' ->
     (forall i, 0 <= i < PGSIZE -> byte_at m' (p + i) = 0) -> Q tt (h1 <| mem := m' |>)) ->
  hwp (memset_at p 0 PGSIZE) h1 Q.
Proof.
  intros HQ. apply hwp_memset, HQ; [apply memset_page|]. intros i Hi.
  apply (memset_in_page _ _ 0). unfold in_page. lia.
Qed.

Lemma uvmalloc_spec (Q : Z -> heap -> Prop) :
  (forall h' fl', aspace R lim root h' fl' lo -> same_space lim root (mem h) (mem h') ->
     frame R (mem h) (mem h') -> Q 0 h') ->
  (forall h' fl', aspace R lim root h' fl' lo -> grown root o (PGROUNDUP newsz) h h' ->
     grows root h fl h' fl' -> Q newsz h') ->
  hwp (uvmalloc root oldsz newsz) h Q.
Proof using All.
  intros HF HQ. unfold uvmalloc. rewrite (proj2 (Z.ltb_ge _ _)) by lia. fold o.
  pose proof (lim_u64 R lim root h fl lo oldsz Has ltac:(lia)) as (_ & Hb & Hl & Hoal). fold o in Hb, Hl, Hoal.
  pose proof (lim_u64 R lim root h fl lo newsz Has ltac:(lia)) as (_ & Hb2 & Hl2 & Hal2).
  pose proof (as_lim _ _ _ _ _ _ Has) as Hm. set (t := PGROUNDUP newsz) in *.
  assert (o <= t) as Hot.
  { destruct (Z.le_gt_cases o t) as [|Hgt]; [done|]. pose proof (page_last t o Hal2 Hoal ltac:(lia)). lia. }
  apply (hwp_loop (fun a h1 => exists fl1 i, 0 <= i /\ a = o + i * PGSIZE /\ a <= t /\
           aspace R lim root h1 fl1 lo /\ grown root o a h h1 /\ grows root h fl h1 fl1)
         (fun a _ => t - a)).
  - exists fl, 0. split_and!; [lia|lia|done|done| |apply grows_refl].
    split; [intros; plia|done].
  - plia.
  - intros a h1 (fl1 & i & Hi & Ea & Hat & Has1 & Hg1 & Hgr1).
    assert (a mod PGSIZE = 0) as Hal by (subst a; by apply aligned_add).
    assert (0 <= i * PGSIZE) as Hpos by plia.
    destruct (Z.ltb_spec a newsz) as [Hlt|Hge]; cbn [negb].
    + pose proof (page_last a t Hal Hal2 ltac:(lia)) as Hle.
      assert (valid (pte_of (mem h1) root a) = false) as Hinv.
      { rewrite (grown_old _ _ _ _ _ Hg1) by plia. apply Hfree. plia. }
      apply (alloc_page R lim root a user_perm h1 fl1 lo (fun p => memset_at p 0 PGSIZE) (fun _ => 0));
        [done|plia|done|apply user_perm_ok|done| | |].
      * intros p h2 Q' _ _ _. apply fill_zero.
      * intros h2 fl2 Has2 [Hl2' Hg2].
        apply (uvmalloc_undo a h2 fl2); [done| |by eapply grows_trans|done|plia|done].
        destruct Hg1 as [Hnew Hold]. split; intros va Hva Hr; rewrite (same_leaves_pte root (mem h1)) by done; [|auto].
        destruct (Hnew va Hva Hr) as (p & E & Hp & Hz). exists p. split_and!; [done..|].
        intros j Hj. rewrite <- (Hz j Hj).
        apply (grows_data R lim root va p h1 h2 fl1 lo fl2); [done|plia|by apply node_of_leaf|done|].
        unfold in_page. lia.
      * intros p h2 fl2 Has2 Hg2 Hp Hpte Hz. apply hwp_ret. rewrite u64_small by plia.
        split; [|plia]. exists fl2, (i + 1). split_and!; [lia|plia|done|done| |by eapply grows_trans].
        apply (grown_S R lim root o a p h h1 h2 fl1 lo fl2); done || plia.
    + apply hwp_ret, (HQ h1 fl1); [done| |done]. replace t with a; [done|].
      destruct (decide (a = t)) as [|Hne]; [done|].
      pose proof (page_last a t Hal Hal2 ltac:(lia)). plia.
Qed.
End uvmalloc.

(** ** Two address spaces

    Work on one address space leaves another one alone, if the two share
    nothing but the free list. *)
Definition apart (R R0 : Z -> Prop) (fl : list Z) : Prop := forall p, R p -> R0 p -> p ∈ fl.

(** What the other space owns when the free list goes from [fl] to [fl']. *)
Definition rest (R0 : Z -> Prop) (fl fl' : list Z) (p : Z) : Prop := (R0 p /\ p ∉ fl) \/ p ∈ fl'.

Section other.
Context {R R0 : Z -> Prop} {lim lim0 root root0 : Z} {h h' : heap} {fl fl' lo lo' lo0 : list Z}.
Hypothesis Has0 : aspace R0 lim0 root0 h fl lo0.
Hypothesis Hap : apart R R0 fl.
Hypothesis HRok : forall q, R q -> page_ok q.
Hypothesis Hf : frame R (mem h) (mem h').

Lemma other_page (p : Z) (path : list Z) :
  owned lim0 path -> node (mem h) root0 path = Some p -> same_on (in_page p) (mem h) (mem h').
Proof using Has0 Hap HRok Hf.
  intros Ho Hn. apply (frame_in_page _ _ _ _ Hf).
  - apply (as_node_ok Has0 _ _ Ho Hn).
  - intros q Hq. by apply HRok.
  - intros HR. apply (as_excl _ _ _ _ _ _ Has0 _ _ Ho Hn). apply elem_of_app. left.
    apply (Hap p HR). by apply (as_node_R Has0 path).
Qed.

Lemma other_pte (path : list Z) (j : Z) : inner path -> idx j ->
  pte_at (mem h') root0 path j = pte_at (mem h) root0 path j.
Proof using Has0 Hap HRok Hf.
  apply pte_at_same. intros k q Hk Hn. apply (other_page q k); [by apply owned_inner|done].
Qed.

Lemma other_pte_of (va : Z) : pte_of (mem h') root0 va = pte_of (mem h) root0 va.
Proof using Has0 Hap HRok Hf. apply other_pte; [apply inner_va|apply PX_idx; lia]. Qed.

Lemma other_cell (va : Z) : 0 <= va < lim0 -> ucell (mem h') root0 va = ucell (mem h) root0 va.
Proof using Has0 Hap HRok Hf.
  intros Hva. apply ucell_same; [apply other_pte_of|]. intros p Hn.
  apply (other_page p (path_of va)); [by apply owned_va|done].
Qed.

(** The free list is one of pages of [R]. *)
Lemma other_list :
  heap_ok h' fl' -> NoDup fl' -> (forall p, p ∈ fl' -> R p) -> aspace (rest R0 fl fl') lim0 root0 h' fl' lo0.
Proof using Has0 Hap HRok Hf.
  intros Hheap Hnd1 HR'.
  assert (forall path, owned lim0 path -> node (mem h') root0 path = node (mem h) root0 path) as Hn.
  { intros path Ho. by apply (node_pte_same _ _ _ lim0 path other_pte). }
  pose proof (as_nodup _ _ _ _ _ _ Has0) as Hnd0. apply list.NoDup_app in Hnd0 as (_ & Hd0 & Hnd0).
  assert (forall p, p ∈ lo0 -> p ∉ fl') as Hd.
  { intros p Hp Hp'. apply (Hd0 p); [|done]. apply Hap; [auto|]. apply (as_list_R Has0). apply elem_of_app. by right. }
  assert (forall path p, owned lim0 path -> node (mem h) root0 path = Some p ->
            (p ∉ fl) /\ (p ∉ lo0) /\ (p ∉ fl')) as Hex.
  { intros path p Ho E. pose proof (as_excl _ _ _ _ _ _ Has0 _ _ Ho E) as Hx. rewrite elem_of_app in Hx.
    split_and!; [tauto|tauto|]. intros Hp. apply Hx. left. apply Hap; [auto|]. by apply (as_node_R Has0 path). }
  split; try apply Has0.
  - exact Hheap.
  - apply list.NoDup_app. split_and!; [done| |done]. intros p Hp Hp'. by apply (Hd p).
  - intros p. unfold rest. rewrite (as_all _ _ _ _ _ _ Has0), !elem_of_app. split.
    + intros [[[[?|?]|(path & Ho & E)] ?]|?]; [done|by left; right| |by left; left].
      right. exists path. by rewrite Hn.
    + intros [[?|Hp]|(path & Ho & E)]; [by right|left|left].
      * split; [by left; right|]. intros Hp'. by apply (Hd0 p).
      * rewrite Hn in E by done. split; [right; by exists path|]. by destruct (Hex path p Ho E).
  - intros p [[Hp _]|Hp]; [by apply (as_ok _ _ _ _ _ _ Has0)|by apply HRok, HR'].
  - intros path p Ho E. rewrite Hn in E by done. destruct (Hex path p Ho E) as (_ & ? & ?).
    rewrite elem_of_app. tauto.
  - intros p1 p2 p Ho1 Ho2 E1 E2. rewrite Hn in E1, E2 by done. by eapply (as_inj _ _ _ _ _ _ Has0).
  - intros path i Hi Hj. rewrite other_pte by done. by apply Has0.
  - intros i Hi. rewrite other_pte; [by apply Has0|apply inner_nil|unfold idx; lia].
Qed.

Lemma other_aspace :
  aspace R lim root h' fl' lo' -> aspace (rest R0 fl fl') lim0 root0 h' fl' lo0.
Proof using Has0 Hap HRok Hf.
  intros Has'. apply other_list.
  - apply Has'.
  - pose proof (as_nodup _ _ _ _ _ _ Has') as Hnd'. by apply list.NoDup_app in Hnd' as (Hnd1 & _ & _).
  - intros p Hp. apply (as_list_R Has'). apply elem_of_app. by left.
Qed.
End other.

(** ** uvmcopy *)

(** No leaf table of the range is empty up to any of its addresses.  A range
    without holes has this property. *)
Definition dense (m : memory) (root b : Z) : Prop :=
  forall va, 0 <= va < b -> exists x, 0 <= x <= va /\ PX 2 x = PX 2 va /\ PX 1 x = PX 1 va /\
    valid (pte_of m root x) = true.

(** The child has the parent's pages below [t], and is otherwise unchanged. *)
Record copied (old new t : Z) (h h' : heap) : Prop := {
  cp_new : forall va, 0 <= va < t -> ucell (mem h') new va = ucell (mem h) old va;
  cp_old : forall va, 0 <= va < MAXVA -> t <= va -> pte_of (mem h') new va = pte_of (mem h) new va;
}.

Lemma ucell_valid (m : memory) (root va : Z) :
  valid (pte_of m root va) = true <-> ucell m root va <> None.
Proof. unfold ucell, trans. by destruct (valid (pte_of m root va)). Qed.

Lemma memmove_page (m : memory) (p pa : Z) :
  same_on (fun x => ~ in_page p x) m (memmove m p pa PGSIZE) /\
  forall i, 0 <= i < PGSIZE -> byte_at (memmove m p pa PGSIZE) (p + i) = byte_at m (pa + i).
Proof.
  rewrite memmove_store by done. split.
  - eapply same_on_weaken; [|apply store_same_on]. rewrite length_load. unfold in_page, PGSIZE. lia.
  - intros i Hi. rewrite byte_at_store, length_load.
    rewrite (proj2 (Z.leb_le _ _)), (proj2 (Z.ltb_lt _ _)) by plia. cbn [andb].
    replace (Z.to_nat (p + i - p)) with (Z.to_nat i) by lia. rewrite nth_load by plia.
    rewrite Z2Nat.id by lia. apply u8_small, byte_at_range.
Qed.

Lemma flags_lor_V (e : Z) : valid e = true -> Z.lor (PTE_FLAGS e) PTE_V = PTE_FLAGS e.
Proof.
  rewrite valid_flags. intros Hv. apply Z.bits_inj'. intros n Hn. rewrite Z.lor_spec.
  change PTE_V with (2 ^ 0). destruct (decide (n = 0)) as [->|Hne]; [by rewrite Hv|].
  rewrite Z.pow2_bits_false by lia. apply orb_false_r.
Qed.

Lemma copied_perm (R0 : Z -> Prop) (lim old va : Z) (h : heap) (fl lo0 : list Z) :
  aspace R0 lim old h fl lo0 -> valid (pte_of (mem h) old va) = true ->
  perm_ok (PTE_FLAGS (pte_of (mem h) old va)).
Proof.
  intros Has0 Hv. split.
  - unfold PTE_FLAGS. change 0x3FF with (Z.ones 10). rewrite Z.land_ones by lia.
    change 1024 with (2 ^ 10). apply Z.mod_pos_bound. lia.
  - rewrite flags_lor_V by done. apply Z.eqb_neq. by eapply pte_flags_leaf.
Qed.

Section uvmcopy.
Context (R R0 : Z -> Prop) (lim old new sz : Z) (h : heap) (fl lo lo0 : list Z).
Let t := PGROUNDUP sz.
Hypothesis Has : aspace R lim new h fl lo.
Hypothesis Has0 : aspace R0 lim old h fl lo0.
Hypothesis Hap : apart R R0 fl.
Hypothesis Hsz : 0 <= sz <= lim.
Hypothesis Hfree : forall va, 0 <= va < t -> valid (pte_of (mem h) new va) = false.
Hypothesis Hdense : dense (mem h) old t.

Lemma uvmcopy_bounds : t mod PGSIZE = 0 /\ sz <= t <= lim /\ t < sz + PGSIZE /\ lim <= MAXVA.
Proof using Has Hsz.
  pose proof (lim_u64 R lim new h fl lo sz Has Hsz) as (_ & ? & ? & ?).
  pose proof (as_lim _ _ _ _ _ _ Has). subst t. split_and!; [done|lia|lia|lia|done].
Qed.

Lemma copied_0 : copied old new 0 h h.
Proof. split; [intros; lia|done]. Qed.

(** The child's pages are taken away again. *)
Lemma uvmcopy_undo (i : Z) (h1 : heap) (fl1 : list Z) (Q : Z + Z -> heap -> Prop) :
  aspace R lim new h1 fl1 lo -> copied old new i h h1 -> grows new h fl h1 fl1 ->
  i mod PGSIZE = 0 -> 0 <= i <= t ->
  (forall h' fl', aspace R lim new h' fl' lo -> same_space lim new (mem h) (mem h') ->
     frame R (mem h) (mem h') -> Q (inr (-1)) h') ->
  hwp (uvmunmap new 0 (i / PGSIZE) true;; mret (inr (-1))) h1 Q.
Proof using All.
  intros Has1 [Hnew Hold] Hg Hal Hi HQ. destruct uvmcopy_bounds as (Htal & Ht & _ & Hlim).
  assert (0 + i / PGSIZE * PGSIZE = i) as Ei.
  { apply Z.mod_divide in Hal as [k ->]; [|done]. by rewrite Z.div_mul. }
  apply hwp_bind, (uvmunmap_spec R lim new 0 (i / PGSIZE) true h1 fl1 lo); rewrite ?Ei; try done; try lia.
  - apply Z.div_pos; [lia|done].
  - intros va Hva. destruct (Hdense va ltac:(lia)) as (x & Hx & E2 & E1 & Hv).
    rewrite <- E2, <- E1. apply pte_valid_table, ucell_valid. rewrite Hnew by lia. by apply ucell_valid.
  - intros h2 fl2 Has2 Hu _. apply hwp_ret, (HQ h2 fl2); [done| |].
    + split.
      * intros va Hva. unfold trans. rewrite (um_pte _ _ _ _ _ _ Hu) by done.
        destruct (Z.leb_spec 0 va), (Z.ltb_spec va i); cbn [andb]; try lia.
        -- rewrite (Hfree va) by lia. destruct (valid (pte_of (mem h1) new va)) eqn:V; [done|by rewrite V].
        -- by rewrite Hold.
      * intros va Hva. rewrite (unmapped_cell R lim new 0 i va h1 h2 fl1 lo) by (done || lia).
        destruct (Z.leb_spec 0 va), (Z.ltb_spec va i); cbn [andb]; try lia.
        -- unfold ucell, trans. by rewrite Hfree by lia.
        -- apply (grows_cell R lim new va h h1 fl lo fl1); [done|done|lia|apply Hold; lia].
    + etransitivity; [by eapply grows_R|].
      apply (unmapped_R R lim new 0 i true h1 h2 fl1 lo); done || lia.
Qed.

(** One more page. *)
Lemma copied_S (i p : Z) (h1 h2 : heap) (fl1 fl2 : list Z) :
  aspace R lim new h1 fl1 lo -> copied old new i h h1 -> grows new h1 fl1 h2 fl2 ->
  i mod PGSIZE = 0 -> 0 <= i < t -> page_ok p -> valid (pte_of (mem h) old i) = true ->
  (forall va, 0 <= va < MAXVA -> pte_of (mem h2) new va =
     if va / PGSIZE =? i / PGSIZE then leaf p (PTE_FLAGS (pte_of (mem h) old i)) else pte_of (mem h1) new va) ->
  (forall j, 0 <= j < PGSIZE -> byte_at (mem h2) (p + j) = byte_at (mem h) (PTE2PA (pte_of (mem h) old i) + j)) ->
  copied old new (i + PGSIZE) h h2.
Proof using All.
  intros Has1 [Hnew Hold] Hg Hal Hi Hp Hv Hpte Hc. destruct uvmcopy_bounds as (Htal & Ht & _ & Hlim).
  pose proof (page_last i t Hal Htal ltac:(lia)) as Hle. split.
  - intros va Hva. destruct (Z.ltb_spec va i) as [Hlt|Hge].
    + rewrite <- Hnew by lia. apply (grows_cell R lim new va h1 h2 fl1 lo fl2); [done|done|lia|].
      rewrite Hpte, page_eqb, (proj2 (Z.leb_gt _ _)) by (done || lia). done.
    + assert (va / PGSIZE = i / PGSIZE) as E.
      { apply Z.eqb_eq. rewrite page_eqb by done. by rewrite (proj2 (Z.leb_le _ _)), (proj2 (Z.ltb_lt _ _)) by lia. }
      unfold ucell, trans. rewrite Hpte, E, Z.eqb_refl by lia. rewrite (pte_of_page (mem h) old va i E).
      set (e := pte_of (mem h) old i) in *.
      pose proof (copied_perm R0 lim old i h fl lo0 Has0 Hv) as Hpo. fold e in Hpo.
      pose proof (page_ok_55 p Hp) as H55.
      destruct (leaf_facts p (PTE_FLAGS e)) as (_ & E1 & E2 & E3 & _); [lia|apply Hp|done|].
      rewrite E2, Hv. cbn. rewrite E1, E3, flags_lor_V by done.
      rewrite Hc by (apply Z.mod_pos_bound; done). done.
  - intros va Hva Hr. rewrite Hpte, page_eqb by done.
    rewrite (proj2 (Z.ltb_ge _ _)), andb_false_r by lia. apply Hold; plia.
Qed.

Lemma copied_skip (i : Z) (h1 : heap) :
  copied old new i h h1 -> i mod PGSIZE = 0 -> 0 <= i < t -> valid (pte_of (mem h) old i) = false ->
  copied old new (i + PGSIZE) h h1.
Proof using All.
  intros [Hnew Hold] Hal Hi Hv. destruct uvmcopy_bounds as (Htal & Ht & _ & Hlim).
  pose proof (page_last i t Hal Htal ltac:(lia)) as Hle. split.
  - intros va Hva. destruct (Z.ltb_spec va i) as [Hlt|Hge]; [apply Hnew; lia|].
    assert (va / PGSIZE = i / PGSIZE) as E.
    { apply Z.eqb_eq. rewrite page_eqb by done. by rewrite (proj2 (Z.leb_le _ _)), (proj2 (Z.ltb_lt _ _)) by lia. }
    unfold ucell, trans. rewrite Hold, (pte_of_page (mem h) old va i E), Hv, Hfree by lia. done.
  - intros va Hva Hr. apply Hold; plia.
Qed.

Lemma fill_copy (i p : Z) (h1 h2 : heap) (fl1 : list Z) (Q : unit -> heap -> Prop) :
  aspace R lim new h1 fl1 lo -> frame R (mem h) (mem h1) -> 0 <= i < lim ->
  valid (pte_of (mem h) old i) = true -> p ∈ fl1 -> page_ok p -> frame (fun q => q = p) (mem h1) (mem h2) ->
  (forall m', same_on (fun x => ~ in_page p x) (mem h2) m' ->
     (forall j, 0 <= j < PGSIZE -> byte_at m' (p + j) = byte_at (mem h) (PTE2PA (pte_of (mem h) old i) + j)) ->
     Q tt (h2 <| mem := m' |>)) ->
  hwp (memmove_at p (PTE2PA (pte_of (mem h) old i)) PGSIZE) h2 Q.
Proof using All.
  intros Has1 HR1 Hi Hv Hin Hp Hf2 HQ. set (pa := PTE2PA (pte_of (mem h) old i)) in *.
  assert (node (mem h) old (path_of i) = Some pa) as Hn by (by rewrite node_va, Hv).
  assert (forall q, R q -> page_ok q) as HRok by apply Has.
  assert (same_on (in_page pa) (mem h) (mem h2)) as Hs.
  { etransitivity; [by apply (other_page Has0 Hap HRok HR1 pa (path_of i)); [apply owned_va|]|].
    apply (frame_in_page _ _ _ _ Hf2).
    - apply (as_node_ok Has0 _ _ (owned_va _ _ Hi) Hn).
    - intros q ->. apply Hp.
    - intros E. apply (as_excl _ _ _ _ _ _ Has0 _ _ (owned_va _ _ Hi) Hn). apply elem_of_app. left.
      apply Hap; [|by apply (as_node_R Has0 _ _ (owned_va _ _ Hi))].
      rewrite E. apply (as_list_R Has1). apply elem_of_app. by left. }
  destruct (memmove_page (mem h2) p pa) as [H1 H2].
  apply hwp_memmove, HQ; [done|]. intros j Hj. rewrite H2 by done. apply Hs. unfold in_page. lia.
Qed.

Lemma uvmcopy_spec (Q : Z -> heap -> Prop) :
  (forall h' fl', aspace R lim new h' fl' lo -> same_space lim new (mem h) (mem h') ->
     frame R (mem h) (mem h') -> Q (-1) h') ->
  (forall h' fl', aspace R lim new h' fl' lo -> copied old new t h h' ->
     frame R (mem h) (mem h') -> Q 0 h') ->
  hwp (uvmcopy old new sz) h Q.
Proof using All.
  intros HF HQ. destruct uvmcopy_bounds as (Htal & Ht & Htsz & Hlim). unfold uvmcopy.
  assert (forall q, R q -> page_ok q) as HRok by apply Has.
  apply (hwp_loop (fun i h1 => exists fl1 k, 0 <= k /\ i = k * PGSIZE /\ i <= t /\
           aspace R lim new h1 fl1 lo /\ copied old new i h h1 /\ grows new h fl h1 fl1)
         (fun i _ => t - i)).
  - exists fl, 0. split_and!; [lia|lia|lia|done|apply copied_0|apply grows_refl].
  - plia.
  - intros i h1 (fl1 & k & Hk & Ei & Hit & Has1 & Hc1 & Hg1).
    assert (i mod PGSIZE = 0) as Hal by (subst i; by apply Z.mod_mul).
    assert (0 <= i) as Hi0 by plia.
    pose proof (grows_R R lim new h h1 fl lo fl1 Has Hg1) as HR1.
    destruct (Z.ltb_spec i sz) as [Hlt|Hge]; cbn [negb].
    + pose proof (page_last i t Hal Htal ltac:(lia)) as Hle.
      assert (pte_of (mem h1) old i = pte_of (mem h) old i) as Hpo
        by apply (other_pte_of Has0 Hap HRok HR1).
      assert (exists q, node (mem h) old [PX 2 i; PX 1 i] = Some q) as [q Hq].
      { destruct (Hdense i ltac:(lia)) as (x & _ & <- & <- & Hv).
        destruct (node (mem h) old [PX 2 x; PX 1 x]) as [q|] eqn:E; [by exists q|]. by apply pte_valid_table in Hv. }
      assert (node (mem h1) old [PX 2 i; PX 1 i] = Some q) as Hq1.
      { rewrite <- Hq. apply (node_pte_same _ _ _ lim); [|apply owned_inner, inner_va].
        apply (other_pte Has0 Hap HRok HR1). }
      apply hwp_bind, walk_lookup; [lia|]. unfold pte_addr. rewrite Hq1.
      rewrite (inner_entry_ne R0 lim old h fl lo0) by done.
      apply hwp_bind, hwp_ld64. rewrite (pte_addr_entry _ old), land_V, Hpo by done.
      assert (u64 (i + PGSIZE) = i + PGSIZE) as Eu by (apply u64_small; plia).
      destruct (valid (pte_of (mem h) old i)) eqn:Hv; cbn [negb].
      * apply (alloc_page R lim new i (PTE_FLAGS (pte_of (mem h) old i)) h1 fl1 lo
                 (fun p => memmove_at p (PTE2PA (pte_of (mem h) old i)) PGSIZE)
                 (fun j => byte_at (mem h) (PTE2PA (pte_of (mem h) old i) + j)));
          [done|lia|done|by eapply copied_perm| | | |].
        -- rewrite (cp_old _ _ _ _ _ Hc1) by lia. apply Hfree. lia.
        -- intros p h2 Q' Hin Hp Hf2. apply (fill_copy i p h1 h2 fl1); done || lia.
        -- intros h2 fl2 Has2 [Hl2 Hg2]. apply (uvmcopy_undo i h2 fl2); [done| |by eapply grows_trans|done|lia|done].
           destruct Hc1 as [Hnew Hold]. split; intros va Hva; [rewrite <- Hnew by lia|intros Hr; rewrite <- Hold by lia].
           ++ apply (grows_cell R lim new va h1 h2 fl1 lo fl2); [done|done|lia|by apply same_leaves_pte].
           ++ by apply same_leaves_pte.
        -- intros p h2 fl2 Has2 Hg2 Hp Hpte Hc. apply hwp_ret. rewrite Eu. split; [|plia].
           exists fl2, (k + 1). split_and!; [lia|lia|done|done| |by eapply grows_trans].
           apply (copied_S i p h1 h2 fl1 fl2); done || lia.
      * apply hwp_ret. rewrite Eu. split; [|plia]. exists fl1, (k + 1).
        split_and!; [lia|lia|done|done|apply copied_skip; done || lia|done].
    + apply hwp_ret, (HQ h1 fl1); [done| |done]. replace t with i; [done|].
      destruct (decide (i = t)) as [|Hne]; [done|]. pose proof (page_last i t Hal Htal ltac:(lia)). plia.
Qed.
End uvmcopy.

End uvm.
