(* ===== verification/Freewalk.v ===== *)
(** * Freeing a page table (kernel/vm.c: freewalk, uvmfree)

    [freewalk] gives every page of a table without leaf mappings back to the
    allocator, children before parents, while the entries above still point
    to them.  [uvmfree] unmaps and frees the user pages first: after it the
    free list and the loose pages are all that is left of the address space. *)
From S2P Require Import Prelude Memory Riscv State Spinlock Cstring Kalloc Pagetable Vm VmSpec Uvm.

Definition indices : list Z := Z.of_nat <$> seq 0 512.

Lemma elem_of_indices (i : Z) : i ∈ indices <-> idx i.
Proof.
  unfold indices, idx. rewrite list_elem_of_fmap. split.
  - intros (n & -> & Hn). apply elem_of_seq in Hn. lia.
  - intros Hi. exists (Z.to_nat i). split; [lia|]. apply elem_of_seq. lia.
Qed.

Lemma NoDup_indices : NoDup indices.
Proof. apply NoDup_fmap_2; [intros ???; lia|]. apply NoDup_seq. Qed.

(** The pages of a table with [d] levels below the root page. *)
Fixpoint pages_of (d : nat) (m : memory) (p : Z) : list Z :=
  p :: match d with
       | O => []
       | S d => indices ≫= (fun i => match next m p i with Some c => pages_of d m c | None => [] end)
       end.

Definition kids (d : nat) (m : memory) (p i : Z) : list Z :=
  match next m p i with Some c => pages_of d m c | None => [] end.

(** No leaf mapping: only entries above the last level are valid, without
    permission bits. *)
Definition clean (d : nat) (m : memory) (p : Z) : Prop :=
  forall path q i, Forall idx path -> idx i -> (length path <= d)%nat -> node m p path = Some q ->
    valid (entry m q i) = true ->
    (length path < d)%nat /\ Z.land (entry m q i) (Z.lor (Z.lor PTE_R PTE_W) PTE_X) = 0.

Lemma elem_of_pages (d : nat) (m : memory) (p x : Z) :
  x ∈ pages_of d m p <-> exists path, Forall idx path /\ (length path <= d)%nat /\ node m p path = Some x.
Proof.
  revert p. induction d as [|d IH]; intros p; cbn [pages_of]; rewrite elem_of_cons.
  - split.
    + intros [->|?%not_elem_of_nil]; [|done]. by exists [].
    + intros (path & _ & Hl & Hn). destruct path; [|simpl in Hl; lia]. left. by injection Hn.
  - rewrite list_elem_of_bind. split.
    + intros [->|(i & Hx & Hi)]; [exists []; simpl; split_and!; [done|lia|done]|].
      apply elem_of_indices in Hi. destruct (next m p i) as [c|] eqn:E; [|by apply not_elem_of_nil in Hx].
      apply IH in Hx as (path & Hf & Hl & Hn). exists (i :: path).
      split_and!; [by apply Forall_cons_2|simpl; lia|simpl; by rewrite E].
    + intros ([|i path] & Hf & Hl & Hn); [left; by injection Hn|]. right.
      apply Forall_cons_1 in Hf as [Hi Hf]. simpl in Hl, Hn. exists i. split; [|by apply elem_of_indices].
      destruct (next m p i) as [c|]; [|done]. apply IH. exists path. split_and!; [done|lia|done].
Qed.

Lemma NoDup_pages (d : nat) (m : memory) (p : Z) :
  (forall path path' x, Forall idx path -> Forall idx path' -> (length path <= d)%nat ->
     (length path' <= d)%nat -> node m p path = Some x -> node m p path' = Some x -> path = path') ->
  NoDup (pages_of d m p).
Proof.
  revert p. induction d as [|d IH]; intros p Hinj; cbn [pages_of]; [apply NoDup_singleton|].
  apply NoDup_cons_2.
  - rewrite list_elem_of_bind. intros (i & Hx & Hi). apply elem_of_indices in Hi.
    destruct (next m p i) as [c|] eqn:E; [|by apply not_elem_of_nil in Hx].
    apply elem_of_pages in Hx as (path & Hf & Hl & Hn).
    enough (@nil Z = i :: path) by done.
    apply (Hinj _ _ p); simpl; try rewrite E; done || lia || by apply Forall_cons_2.
  - apply NoDup_bind; [| |apply NoDup_indices].
    + intros i j x Hi Hj Hxi Hxj. apply elem_of_indices in Hi, Hj.
      destruct (next m p i) as [c|] eqn:Ei; [|by apply not_elem_of_nil in Hxi].
      destruct (next m p j) as [c'|] eqn:Ej; [|by apply not_elem_of_nil in Hxj].
      apply elem_of_pages in Hxi as (p1 & Hf1 & Hl1 & Hn1).
      apply elem_of_pages in Hxj as (p2 & Hf2 & Hl2 & Hn2).
      enough (i :: p1 = j :: p2) by congruence.
      apply (Hinj _ _ x); simpl; try rewrite Ei; try rewrite Ej; done || lia || by apply Forall_cons_2.
    + intros i Hi. apply elem_of_indices in Hi. destruct (next m p i) as [c|] eqn:E; [|constructor].
      apply IH. intros p1 p2 x Hf1 Hf2 Hl1 Hl2 Hn1 Hn2.
      enough (i :: p1 = i :: p2) by congruence.
      apply (Hinj _ _ x); simpl; try rewrite E; done || lia || by apply Forall_cons_2.
Qed.

(** A table depends on its own pages only. *)
Lemma node_pages_same (d : nat) (m m' : memory) (p : Z) (path : list Z) :
  (forall q, q ∈ pages_of d m p -> same_on (in_page q) m m') ->
  Forall idx path -> (length path <= S d)%nat -> node m' p path = node m p path.
Proof.
  revert p d. induction path as [|i path IH]; intros p d Hs Hf Hl; [done|].
  apply Forall_cons_1 in Hf as [Hi Hf]. simpl in Hl. cbn [node].
  assert (next m' p i = next m p i) as E.
  { unfold next. rewrite (entry_same m m' p i); [done| |done]. apply Hs. destruct d; by left. }
  rewrite E. destruct (next m p i) as [c|] eqn:Ec; [|done].
  destruct d as [|d]; [by destruct path; [|simpl in Hl; lia]|].
  apply (IH c d); [|done|lia]. intros q Hq. apply Hs. cbn [pages_of]. apply elem_of_cons. right.
  apply list_elem_of_bind. exists i. split; [by rewrite Ec|by apply elem_of_indices].
Qed.

Lemma pages_of_same (d : nat) (m m' : memory) (p : Z) :
  (forall q, q ∈ pages_of d m p -> same_on (in_page q) m m') -> pages_of d m' p = pages_of d m p.
Proof.
  revert p. induction d as [|d IH]; intros p Hs; cbn [pages_of]; [done|]. f_equal.
  apply list_bind_ext_in. intros i Hi. pose proof Hi as Hi'. apply elem_of_indices in Hi.
  assert (next m' p i = next m p i) as ->.
  { unfold next. rewrite (entry_same m m' p i); [done| |done]. apply Hs. by left. }
  destruct (next m p i) as [c|] eqn:E; [|done]. apply IH. intros q Hq. apply Hs.
  cbn [pages_of]. apply elem_of_cons. right. apply list_elem_of_bind. exists i. by rewrite E.
Qed.

Lemma clean_same (d : nat) (m m' : memory) (p : Z) :
  (forall q, q ∈ pages_of d m p -> same_on (in_page q) m m') -> clean d m p -> clean d m' p.
Proof.
  intros Hs Hc path q i Hf Hi Hl Hn. rewrite (node_pages_same d m m' p path Hs Hf ltac:(lia)) in Hn.
  assert (entry m' q i = entry m q i) as ->; [|by apply (Hc path)].
  apply entry_same; [|done]. apply Hs, elem_of_pages. by exists path.
Qed.

Lemma clean_child (d : nat) (m : memory) (p i c : Z) :
  clean (S d) m p -> idx i -> next m p i = Some c -> clean d m c.
Proof.
  intros Hc Hi Hn path q j Hf Hj Hl Hp Hv.
  destruct (Hc (i :: path) q j) as [Hl' Hz];
    [by apply Forall_cons_2|done|simpl; lia|simpl; by rewrite Hn|done|]. simpl in Hl'. split; [lia|done].
Qed.

Section freewalk.
Context {L : Linker} {LOk : LinkerOk L}.

(** The body of the loop of [freewalk]. *)
Definition freewalk_body (depth : nat) (p i : Z) : M unit :=
  pte ← ld64 (p + 8 * i);
  if truth (Z.land pte PTE_V) && (Z.land pte (Z.lor (Z.lor PTE_R PTE_W) PTE_X) =? 0) then
    freewalk_rec depth (PTE2PA pte);;
    st64 (p + 8 * i) 0
  else if truth (Z.land pte PTE_V) then panic "freewalk: leaf"
  else mret tt.

Definition freewalk_ok (d : nat) : Prop := forall depth p h fl (Q : unit -> heap -> Prop),
  (d < depth)%nat -> heap_ok h fl -> clean d (mem h) p ->
  NoDup (pages_of d (mem h) p ++ fl) -> Forall page_ok (pages_of d (mem h) p) ->
  (forall h' fl', heap_ok h' fl' -> fl' ≡ₚ pages_of d (mem h) p ++ fl ->
     frame (fun q => q ∈ pages_of d (mem h) p) (mem h) (mem h') -> Q tt h') ->
  hwp (freewalk_rec depth p) h Q.

(** Disjoint pages do not notice each other's changes. *)
Lemma frame_list_same (ps : list Z) (m m' : memory) (q : Z) :
  frame (fun x => x ∈ ps) m m' -> Forall page_ok ps -> page_ok q -> q ∉ ps -> same_on (in_page q) m m'.
Proof.
  intros Hf Hps Hq Hn. apply (frame_in_page _ _ _ _ Hf); [apply Hq| |done].
  intros x Hx. by apply (proj1 (Forall_forall _ _) Hps x), list_elem_of_In.
Qed.

Lemma Forall_in (P : Z -> Prop) (l : list Z) (x : Z) : Forall P l -> x ∈ l -> P x.
Proof. intros Hf Hx. by apply (proj1 (Forall_forall _ _) Hf), list_elem_of_In. Qed.

(** What freeing the subtree [i] leaves of the others. *)
Section kids.
Context (d : nat) (p i c : Z) (js : list Z) (h h1 : heap).
Let m2 := store64 (mem h1) (p + 8 * i) 0.
Hypothesis Hc : next (mem h) p i = Some c.
Hypothesis Hi : idx i.
Hypothesis Hjs : Forall idx js.
Hypothesis Hnot : i ∉ js.
Hypothesis Hn : NoDup (p :: pages_of d (mem h) c ++ (js ≫= kids d (mem h) p)).
Hypothesis Hok : Forall page_ok (p :: pages_of d (mem h) c ++ (js ≫= kids d (mem h) p)).
Hypothesis Hf : frame (fun q => q ∈ pages_of d (mem h) c) (mem h) (mem h1).

Lemma kids_frame : frame (fun q => q ∈ p :: pages_of d (mem h) c) (mem h) m2.
Proof using Hi Hf.
  etransitivity; (eapply frame_mono; [|]).
  - exact Hf.
  - intros q Hq. by right.
  - apply store64_frame, Hi.
  - intros q ->. by left.
Qed.

Lemma kids_entry (j : Z) : j ∈ js -> entry m2 p j = entry (mem h) p j.
Proof using All.
  intros Hj. pose proof (Forall_in _ _ j Hjs Hj) as Hji.
  pose proof (Forall_in _ _ p Hok ltac:(by left)) as Hp.
  unfold m2. rewrite entry_store_other; [|apply Hp|apply Hp|done|done|right; by intros ->].
  apply entry_same; [|done]. apply (frame_list_same (pages_of d (mem h) c)); [done| |done|].
  - apply Forall_cons_1 in Hok as [_ Hok']. by apply Forall_app in Hok' as [? _].
  - apply list.NoDup_cons in Hn as [Hp' _]. rewrite elem_of_app in Hp'. tauto.
Qed.

Lemma kids_next (j : Z) : j ∈ js -> next m2 p j = next (mem h) p j.
Proof using All. intros Hj. unfold next. by rewrite kids_entry. Qed.

Lemma kids_page (j q : Z) : j ∈ js -> q ∈ kids d (mem h) p j -> same_on (in_page q) (mem h) m2.
Proof using All.
  intros Hj Hq. assert (q ∈ js ≫= kids d (mem h) p) as Hin by (apply list_elem_of_bind; by exists j).
  apply (frame_list_same (p :: pages_of d (mem h) c)).
  - apply kids_frame.
  - apply Forall_cons_1 in Hok as [? Hok']. apply Forall_app in Hok' as [? _]. by apply Forall_cons_2.
  - apply (Forall_in _ _ q Hok). right. apply elem_of_app. by right.
  - change (p :: pages_of d (mem h) c ++ (js ≫= kids d (mem h) p))
      with ((p :: pages_of d (mem h) c) ++ (js ≫= kids d (mem h) p)) in Hn.
    apply list.NoDup_app in Hn as (_ & Hd & _). intros Hq'. by apply (Hd q).
Qed.

Lemma kids_same : js ≫= kids d m2 p = js ≫= kids d (mem h) p.
Proof using All.
  apply list_bind_ext_in. intros j Hj. pose proof (kids_next j Hj) as E. pose proof (kids_page j) as Hpg.
  unfold kids in *. rewrite E. destruct (next (mem h) p j) as [c'|]; [|done].
  apply pages_of_same. intros q Hq. by apply Hpg.
Qed.

Lemma kids_clean (j c' : Z) : j ∈ js -> next (mem h) p j = Some c' ->
  clean d (mem h) c' -> clean d m2 c'.
Proof using All.
  intros Hj E. apply clean_same. intros q Hq. apply (kids_page j); [done|]. unfold kids. by rewrite E.
Qed.
End kids.

(** The entries of the list [js], one after the other. *)
Lemma freewalk_loop (d depth : nat) (p : Z) (js : list Z) (h : heap) (fl : list Z) (Q : unit -> heap -> Prop) :
  freewalk_ok d -> (d < depth)%nat -> heap_ok h fl -> NoDup js -> Forall idx js ->
  NoDup (p :: (js ≫= kids d (mem h) p) ++ fl) -> Forall page_ok (p :: (js ≫= kids d (mem h) p)) ->
  (forall j c, j ∈ js -> next (mem h) p j = Some c ->
     clean d (mem h) c /\ Z.land (entry (mem h) p j) (Z.lor (Z.lor PTE_R PTE_W) PTE_X) = 0) ->
  (forall h' fl', heap_ok h' fl' -> fl' ≡ₚ (js ≫= kids d (mem h) p) ++ fl ->
     frame (fun q => q ∈ p :: (js ≫= kids d (mem h) p)) (mem h) (mem h') -> Q tt h') ->
  hwp (for_each js (freewalk_body depth p)) h Q.
Proof using LOk.
  intros Hd Hdepth. revert h fl. induction js as [|i js IH]; intros h fl Hh Hnd Hidx Hn Hok Hcl HQ; cbn [for_each].
  { apply hwp_ret, (HQ h fl); done. }
  apply list.NoDup_cons in Hnd as [Hi Hnd]. apply Forall_cons_1 in Hidx as [Hii Hidx].
  change ((i :: js) ≫= kids d (mem h) p) with (kids d (mem h) p i ++ (js ≫= kids d (mem h) p)) in *.
  assert (forall j c, j ∈ js -> next (mem h) p j = Some c -> clean d (mem h) c /\
      Z.land (entry (mem h) p j) (Z.lor (Z.lor PTE_R PTE_W) PTE_X) = 0) as Hcl'
    by (intros; apply Hcl; [by right|done]).
  apply hwp_bind. unfold freewalk_body at 1. apply hwp_bind, hwp_ld64.
  fold (entry (mem h) p i). fold (valid (entry (mem h) p i)).
  destruct (valid (entry (mem h) p i)) eqn:Hv; cbn [andb].
  - set (c := PTE2PA (entry (mem h) p i)).
    assert (next (mem h) p i = Some c) as Hc by (unfold next; by rewrite Hv).
    assert (kids d (mem h) p i = pages_of d (mem h) c) as Ek by (unfold kids; by rewrite Hc).
    rewrite Ek in *. destruct (Hcl i c ltac:(by left) Hc) as [Hclc ->]. cbn [Z.eqb].
    assert (NoDup (p :: pages_of d (mem h) c ++ (js ≫= kids d (mem h) p))) as Hn1.
    { change (p :: ?x ++ fl) with ((p :: x) ++ fl) in Hn. by apply list.NoDup_app in Hn as (? & _). }
    apply hwp_bind, (Hd depth c h fl); [done|done|done| | |].
    + apply list.NoDup_cons in Hn as [_ Hn]. rewrite <- app_assoc in Hn.
      apply list.NoDup_app in Hn as (? & Hx & Hn). apply list.NoDup_app in Hn as (_ & _ & ?).
      apply list.NoDup_app. split_and!; [done| |done]. intros q Hq Hq'. apply (Hx q Hq).
      apply elem_of_app. by right.
    + apply Forall_cons_1 in Hok as [_ Hok]. by apply Forall_app in Hok as [? _].
    + intros h1 fl1 Hh1 Hp1 Hf1. apply hwp_st64.
      assert (NoDup (p :: (js ≫= kids d (mem h) p) ++ fl1)) as Hn2.
      { rewrite Hp1, Permutation_app_swap_app. by rewrite <- app_assoc in Hn. }
      pose proof (kids_same d p i c js h h1 Hc Hii Hidx Hi Hn1 Hok Hf1) as Eks.
      apply (IH (h1 <| mem := store64 (mem h1) (p + 8 * i) 0 |>) fl1); cbn [mem set_with set_mem];
        rewrite ?Eks; try done.
      * apply (heap_ok_write h1 fl1 p); [done|apply (Forall_in _ _ p Hok); by left| |].
        -- apply list.NoDup_cons in Hn2 as [Hp _]. rewrite elem_of_app in Hp. tauto.
        -- apply store64_page. unfold idx, PGSIZE in *. lia.
      * apply Forall_cons_1 in Hok as [? Hok]. apply Forall_app in Hok as [_ ?]. by apply Forall_cons_2.
      * intros j c' Hj E. rewrite (kids_next d p i c js h h1 Hc Hii Hidx Hi Hn1 Hok Hf1 j Hj) in E.
        rewrite (kids_entry d p i c js h h1 Hc Hii Hidx Hi Hn1 Hok Hf1 j Hj).
        destruct (Hcl' j c' Hj E) as [Hcc ->]. split; [|done]. by apply (kids_clean d p i c js h h1) with j.
      * intros h' fl' Hh' Hp' Hf'. apply (HQ h' fl'); [done| |].
        -- rewrite Hp', Hp1, Permutation_app_swap_app. by rewrite app_assoc.
        -- etransitivity; (eapply frame_mono; [|]).
           ++ by apply (kids_frame d p i c).
           ++ intros q Hq. apply elem_of_cons in Hq as [->|Hq]; [by left|]. right. apply elem_of_app. by left.
           ++ exact Hf'.
           ++ intros q Hq. apply elem_of_cons in Hq as [->|Hq]; [by left|]. right. apply elem_of_app. by right.
  - assert (kids d (mem h) p i = []) as Ek by (unfold kids, next; by rewrite Hv).
    rewrite Ek in *. apply hwp_ret. by apply (IH h fl).
Qed.

Lemma freewalk_empty (depth : nat) (p : Z) (js : list Z) (h : heap) (Q : unit -> heap -> Prop) :
  (forall j, j ∈ js -> valid (entry (mem h) p j) = false) -> Q tt h ->
  hwp (for_each js (freewalk_body depth p)) h Q.
Proof.
  intros Hv HQ. induction js as [|j js IH]; cbn [for_each]; [by apply hwp_ret|].
  apply hwp_bind. unfold freewalk_body at 1. apply hwp_bind, hwp_ld64.
  fold (entry (mem h) p j). fold (valid (entry (mem h) p j)). rewrite Hv by (by left). cbn [andb].
  apply hwp_ret, IH. intros k Hk. apply Hv. by right.
Qed.

Lemma freewalk_all (d : nat) : freewalk_ok d.
Proof using LOk.
  induction d as [|d IH]; intros depth p h fl Q Hd Hh Hc Hn Hok HQ;
    (destruct depth as [|depth]; [lia|]); cbn [freewalk_rec]; fold (freewalk_body depth p); apply hwp_bind.
  - apply freewalk_empty.
    + intros j Hj. apply elem_of_indices in Hj. destruct (valid (entry (mem h) p j)) eqn:V; [|done].
      destruct (Hc [] p j) as [Hl _]; simpl in *; try done. lia.
    + cbn [pages_of] in *. apply Forall_cons_1 in Hok as [Hp _].
      apply list.NoDup_cons in Hn as [Hp' Hn]. apply (kfree_ok h p fl); [done..|].
      intros h' Hs Hh'. apply (HQ h' (p :: fl)); [done|done|].
      eapply frame_mono; [by apply frame_page|]. intros q ->. by left.
  - apply (freewalk_loop d depth p indices h fl); try done; [lia|apply NoDup_indices| | |].
    + apply Forall_forall. intros j Hj. apply elem_of_indices. by apply list_elem_of_In.
    + intros j c Hj E. apply elem_of_indices in Hj. split; [by eapply clean_child|].
      unfold next in E. destruct (valid (entry (mem h) p j)) eqn:V; [|done].
      destruct (Hc [] p j) as [_ Hz]; simpl in *; try done; try lia.
    + change (p :: (indices ≫= kids d (mem h) p)) with (pages_of (S d) (mem h) p).
      intros h1 fl1 Hh1 Hp1 Hf1. pose proof (Forall_in _ _ p Hok ltac:(by left)) as Hpp.
      assert (p ∉ fl1) as Hnot.
      { rewrite Hp1. cbn [pages_of app] in Hn. by apply list.NoDup_cons in Hn as [? _]. }
      apply (kfree_ok h1 p fl1); [done..|]. intros h' Hs Hh'. apply (HQ h' (p :: fl1)); [done| |].
      * by rewrite Hp1.
      * etransitivity; [exact Hf1|]. eapply frame_mono; [by apply frame_page|]. intros q ->. by left.
Qed.

(** ** uvmfree *)
Lemma path_va (a b c : Z) : 0 <= a < 256 -> idx b -> idx c ->
  exists va, 0 <= va < MAXVA /\ path_of va = [a; b; c].
Proof.
  unfold idx. intros Ha Hb Hc. exists (((a * 512 + b) * 512 + c) * 4096). split; [plia|].
  unfold path_of. rewrite !PX_spec by lia.
  change (2 ^ (12 + 9 * 2)) with (4096 * 512 * 512). change (2 ^ (12 + 9 * 1)) with (4096 * 512).
  change (2 ^ (12 + 9 * 0)) with 4096. rewrite <- !Z.div_div by lia.
  rewrite !Z.div_mul by lia.
  rewrite (Z.div_add_l (a * 512 + b)), (Z.div_small c), Z.add_0_r by lia.
  rewrite (Z.div_add_l a), (Z.div_small b), Z.add_0_r by lia.
  rewrite (Z.mod_small a) by lia.
  by rewrite !(Z.add_comm (_ * 512)), !Z.mod_add, !Z.mod_small by lia.
Qed.

Lemma flags_V_rwx (e : Z) : PTE_FLAGS e = PTE_V -> Z.land e (Z.lor (Z.lor PTE_R PTE_W) PTE_X) = 0.
Proof.
  intros E. change (Z.lor (Z.lor PTE_R PTE_W) PTE_X) with (Z.land 0x3FF 14).
  rewrite Z.land_assoc. unfold PTE_FLAGS in E. by rewrite E.
Qed.

Lemma aspace_clean (R : Z -> Prop) (lim root : Z) (h : heap) (fl lo : list Z) :
  aspace R lim root h fl lo ->
  (forall va, 0 <= va < MAXVA -> valid (pte_of (mem h) root va) = false) -> clean 2 (mem h) root.
Proof.
  intros Has Hinv path q i Hf Hi Hl Hn Hv.
  assert (pte_at (mem h) root path i = entry (mem h) q i) as E by (unfold pte_at; by rewrite Hn).
  assert ((length path < 2)%nat) as Hlt.
  { destruct path as [|a [|b [|? ?]]]; simpl in *; try lia.
    apply Forall_cons_1 in Hf as [Ha Hf]. apply Forall_cons_1 in Hf as [Hb _].
    assert (a < 256) as Ha'.
    { destruct (Z.lt_ge_cases a 256) as [|Hge]; [done|].
      pose proof (as_high _ _ _ _ _ _ Has a ltac:(unfold idx in *; lia)) as Hx.
      unfold pte_at in Hx. cbn [node] in Hx. unfold next in Hn. by rewrite Hx in Hn. }
    destruct (path_va a b i) as (va & Hva & [= E2 E1 E0]); [unfold idx in *; lia|done|done|].
    specialize (Hinv va Hva). unfold pte_of in Hinv. rewrite E2, E1, E0, E, Hv in Hinv. done. }
  split; [done|]. apply flags_V_rwx. rewrite <- E in *.
  apply (as_flags _ _ _ _ _ _ Has path i); [by split|done|done|done].
Qed.

(** Every page of the address space is free afterwards, or still in hand. *)
Definition all_free (R : Z -> Prop) (h : heap) (fl lo : list Z) : Prop :=
  heap_ok h fl /\ NoDup (fl ++ lo) /\ forall p, R p <-> p ∈ fl ++ lo.

Lemma freewalk_spec (R : Z -> Prop) (lim root : Z) (h : heap) (fl lo : list Z) (Q : unit -> heap -> Prop) :
  aspace R lim root h fl lo ->
  (forall va, 0 <= va < MAXVA -> valid (pte_of (mem h) root va) = false) ->
  (forall h' fl', all_free R h' fl' lo -> frame R (mem h) (mem h') -> Q tt h') ->
  hwp (freewalk root) h Q.
Proof using LOk.
  intros Has Hinv HQ. unfold freewalk.
  assert (forall x, x ∈ pages_of 2 (mem h) root <-> inner_page (mem h) root x) as Hin.
  { intros x. rewrite elem_of_pages. unfold inner_page, inner. split; intros (path & H); exists path; tauto. }
  assert (forall x, inner_page (mem h) root x -> R x) as HR.
  { intros x (path & Hi & Hn). apply (as_node_R Has path); [by apply owned_inner|done]. }
  assert (NoDup (pages_of 2 (mem h) root)) as Hnd.
  { apply NoDup_pages. intros p1 p2 x Hf1 Hf2 Hl1 Hl2 Hn1 Hn2.
    apply (as_inj _ _ _ _ _ _ Has p1 p2 x); try done; apply owned_inner; by split. }
  assert (forall x, x ∈ pages_of 2 (mem h) root -> x ∉ fl ++ lo) as Hex.
  { intros x Hx. apply Hin in Hx as (path & Hi & Hn).
    apply (as_excl _ _ _ _ _ _ Has path); [by apply owned_inner|done]. }
  pose proof (as_nodup _ _ _ _ _ _ Has) as Hnfl.
  assert (NoDup (pages_of 2 (mem h) root ++ fl ++ lo)) as Hall by (apply list.NoDup_app; by split_and!).
  apply (freewalk_all 2 _ root h fl).
  - apply Nat2Z.inj_lt. rewrite Z2Nat.id; by vm_compute.
  - apply Has.
  - by eapply aspace_clean.
  - rewrite app_assoc in Hall. by apply list.NoDup_app in Hall as (? & _).
  - apply Forall_forall. intros x Hx. apply (as_ok _ _ _ _ _ _ Has), HR, Hin. by apply list_elem_of_In.
  - intros h' fl' Hh' Hp Hf. apply (HQ h' fl').
    + assert (fl' ++ lo ≡ₚ pages_of 2 (mem h) root ++ fl ++ lo) as Ep by (by rewrite Hp, <- app_assoc).
      split_and!; [done|by rewrite Ep|]. intros x. rewrite Ep, elem_of_app, Hin, (as_all _ _ _ _ _ _ Has).
      split; [|intros [(path & ? & ?)|?]; [right; exists path; split; [by apply owned_inner|done]|by left]].
      intros [?|(path & [Ho|(va & Hva & ->)] & Hn)]; [by right|left; by exists path|].
      rewrite node_va, Hinv in Hn; [done|]. pose proof (as_lim _ _ _ _ _ _ Has). lia.
    + eapply frame_mono; [exact Hf|]. intros q Hq. by apply HR, Hin.
Qed.

Lemma uvmfree_spec (R : Z -> Prop) (lim root sz : Z) (h : heap) (fl lo : list Z) (Q : unit -> heap -> Prop) :
  aspace R lim root h fl lo -> 0 <= sz <= lim -> tables (mem h) root 0 (PGROUNDUP sz) ->
  (forall va, 0 <= va < MAXVA -> PGROUNDUP sz <= va -> valid (pte_of (mem h) root va) = false) ->
  (forall h' fl', all_free R h' fl' lo -> frame R (mem h) (mem h') -> Q tt h') ->
  hwp (uvmfree root sz) h Q.
Proof using LOk.
  intros Has Hsz Htab Hout HQ. pose proof (lim_u64 R lim root h fl lo sz Has Hsz) as (_ & Hb & Hl & Hal).
  pose proof (as_lim _ _ _ _ _ _ Has) as Hlim. unfold uvmfree. apply hwp_bind.
  destruct (Z.ltb_spec 0 sz) as [Hpos|Hz].
  - assert (0 + PGROUNDUP sz / PGSIZE * PGSIZE = PGROUNDUP sz) as Ei.
    { pose proof (Z.div_mod (PGROUNDUP sz) PGSIZE ltac:(done)). lia. }
    apply (uvmunmap_spec R lim root 0 (PGROUNDUP sz / PGSIZE) true h fl lo); rewrite ?Ei; try done; try lia.
    + apply Z.div_pos; [lia|done].
    + intros h1 fl1 Has1 Hu _. apply (freewalk_spec R lim root h1 fl1 lo); [done| |].
      * intros va Hva. rewrite (um_pte _ _ _ _ _ _ Hu) by done.
        destruct (Z.leb_spec 0 va), (Z.ltb_spec va (PGROUNDUP sz)); cbn [andb]; try lia; [|by apply Hout].
        destruct (valid (pte_of (mem h) root va)) eqn:V; [done|by rewrite V].
      * intros h2 fl2 Hfr Hf. apply (HQ h2 fl2); [done|]. etransitivity; [|exact Hf].
        apply (unmapped_R R lim root 0 (PGROUNDUP sz) true h h1 fl lo); done || lia.
  - apply hwp_ret, (freewalk_spec R lim root h fl lo); [done| |done].
    intros va Hva. apply Hout; [done|]. assert (sz = 0) as -> by lia. by apply Z.le_trans with 0; [vm_compute|lia].
Qed.

End freewalk.
