(* ===== verification/Usercopy.v ===== *)
(** * Copying between kernel and user memory (kernel/vm.c)

    [copyout], [copyin] and [copyinstr] against the memory a process sees:
    [ubyte m root va] is the byte at a virtual address the process may access.
    They succeed exactly when every address of the range is accessible, and
    then read or write exactly these bytes. *)
From S2P Require Import Prelude Memory Riscv State Spinlock Cstring Kalloc Pagetable Vm VmSpec Uvm.

Definition user (e : Z) : bool := valid e && truth (Z.land e PTE_U).

Definition ubyte (m : memory) (root va : Z) : option Z :=
  if (va <? MAXVA) && user (pte_of m root va)
  then Some (byte_at m (PTE2PA (pte_of m root va) + va mod PGSIZE)) else None.

Section usercopy.
Context {L : Linker} {LOk : LinkerOk L}.

(** Pages that user code can access belong to the address space. *)
Definition user_below (lim root : Z) (m : memory) : Prop :=
  forall va, lim <= va < MAXVA -> 0 <= va -> user (pte_of m root va) = false.

Definition upage (m : memory) (root va : Z) : Z :=
  if (va <? MAXVA) && user (pte_of m root va) then PTE2PA (pte_of m root va) else 0.

Lemma walkaddr_spec (R : Z -> Prop) (lim root va : Z) (h : heap) (fl lo : list Z) (Q : Z -> heap -> Prop) :
  aspace R lim root h fl lo -> Q (upage (mem h) root va) h -> hwp (walkaddr root va) h Q.
Proof using LOk.
  intros Has HQ. unfold walkaddr, upage, user in *. destruct (Z.leb_spec MAXVA va) as [Hge|Hlt].
  { rewrite (proj2 (Z.ltb_ge _ _)) in HQ by done. by apply hwp_ret. }
  rewrite (proj2 (Z.ltb_lt _ _)) in HQ by done. cbn [andb] in HQ.
  apply hwp_bind, walk_lookup; [done|]. unfold pte_addr.
  destruct (node (mem h) root [PX 2 va; PX 1 va]) as [q|] eqn:Hn.
  - rewrite (inner_entry_ne R lim root h fl lo) by done.
    apply hwp_bind, hwp_ld64. rewrite (pte_addr_entry _ root), land_V by done.
    destruct (valid (pte_of (mem h) root va)); cbn [negb andb] in *; [|by apply hwp_ret].
    unfold truth in HQ. destruct (Z.land (pte_of (mem h) root va) PTE_U =? 0); by apply hwp_ret.
  - unfold pte_of, pte_at in HQ. rewrite Hn in HQ. by apply hwp_ret.
Qed.

Section space.
Context {R : Z -> Prop} {lim root : Z} {h : heap} {fl lo : list Z}.
Hypothesis Has : aspace R lim root h fl lo.
Hypothesis Hub : user_below lim root (mem h).

Lemma user_page (va : Z) : 0 <= va < MAXVA -> user (pte_of (mem h) root va) = true ->
  va < lim /\ page_ok (PTE2PA (pte_of (mem h) root va)) /\
  node (mem h) root (path_of va) = Some (PTE2PA (pte_of (mem h) root va)).
Proof using Has Hub.
  intros Hva Hu. assert (va < lim) as Hlt.
  { destruct (Z.lt_ge_cases va lim) as [|Hge]; [done|]. by rewrite Hub in Hu by lia. }
  assert (valid (pte_of (mem h) root va) = true) as Hv by (unfold user in Hu; by apply andb_true_iff in Hu as [? _]).
  assert (node (mem h) root (path_of va) = Some (PTE2PA (pte_of (mem h) root va))) as Hn by (by rewrite node_va, Hv).
  split_and!; [done| |done]. apply (as_node_ok Has (path_of va)); [apply owned_va; lia|done].
Qed.

(** [walkaddr] on the page of an address. *)
Lemma upage_zero (va : Z) : 0 <= va -> (upage (mem h) root (PGROUNDDOWN va) =? 0) = true <->
  ubyte (mem h) root va = None.
Proof using Has Hub LOk.
  intros H0. unfold upage, ubyte.
  pose proof (PGROUNDDOWN_bounds va) as Hb. pose proof (PGROUNDDOWN_aligned va) as Hal.
  assert ((PGROUNDDOWN va <? MAXVA) = (va <? MAXVA)) as ->.
  { destruct (Z.ltb_spec va MAXVA) as [Hlt|Hge]; [by apply Z.ltb_lt; lia|]. apply Z.ltb_ge.
    destruct (Z.le_gt_cases MAXVA (PGROUNDDOWN va)) as [|Hgt]; [done|].
    pose proof (page_last _ MAXVA Hal eq_refl Hgt). lia. }
  assert (0 <= PGROUNDDOWN va) as Hpos.
  { rewrite PGROUNDDOWN_spec. pose proof (Z.mod_le va PGSIZE H0 ltac:(done)). lia. }
  rewrite (pte_of_page (mem h) root (PGROUNDDOWN va) va).
  2:{ apply Z.eqb_eq. rewrite Z.eqb_sym, page_eqb by done. by rewrite (proj2 (Z.leb_le _ _)), (proj2 (Z.ltb_lt _ _)) by lia. }
  destruct (Z.ltb_spec va MAXVA); cbn [andb]; [|done].
  destruct (user (pte_of (mem h) root va)) eqn:U; [|done].
  destruct (user_page va) as (_ & Hp & _); [lia|done|]. apply page_ok_pos in Hp.
  rewrite (proj2 (Z.eqb_neq _ 0)) by plia. done.
Qed.

Lemma upage_eq (va : Z) : 0 <= va < MAXVA -> user (pte_of (mem h) root va) = true ->
  upage (mem h) root (PGROUNDDOWN va) = PTE2PA (pte_of (mem h) root va) /\ va - PGROUNDDOWN va = va mod PGSIZE.
Proof using Has Hub LOk.
  intros Hva Hu. pose proof (PGROUNDDOWN_bounds va) as Hb. pose proof (PGROUNDDOWN_aligned va) as Hal.
  unfold upage. rewrite (proj2 (Z.ltb_lt _ _)) by lia. rewrite (pte_of_page (mem h) root (PGROUNDDOWN va) va), Hu.
  - split; [done|]. rewrite PGROUNDDOWN_spec. lia.
  - apply Z.eqb_eq. rewrite Z.eqb_sym, page_eqb by done.
    by rewrite (proj2 (Z.leb_le _ _)), (proj2 (Z.ltb_lt _ _)) by lia.
Qed.
End space.

Lemma ubyte_Some (m : memory) (root va b : Z) :
  ubyte m root va = Some b -> va < MAXVA /\ user (pte_of m root va) = true /\
  b = byte_at m (PTE2PA (pte_of m root va) + va mod PGSIZE).
Proof.
  unfold ubyte. destruct (Z.ltb_spec va MAXVA); cbn [andb]; [|done].
  destruct (user (pte_of m root va)); [|done]. by intros [= <-].
Qed.

(** ** Runs of accessible bytes *)
Fixpoint ubytes (m : memory) (root va : Z) (n : nat) : option (list Z) :=
  match n with
  | O => Some []
  | S n => b ← ubyte m root va; bs ← ubytes m root (va + 1) n; Some (b :: bs)
  end.

Lemma ubytes_app (m : memory) (root va : Z) (n k : nat) :
  ubytes m root va (n + k) =
    (bs ← ubytes m root va n; cs ← ubytes m root (va + Z.of_nat n) k; Some (bs ++ cs)).
Proof.
  revert va. induction n as [|n IH]; intros va.
  - cbn [Nat.add ubytes mbind option_bind]. rewrite Z.add_0_r. by destruct (ubytes m root va k).
  - cbn [Nat.add ubytes]. destruct (ubyte m root va) as [b|]; [|done]. cbn [mbind option_bind].
    rewrite IH. replace (va + 1 + Z.of_nat n) with (va + Z.of_nat (S n)) by lia.
    destruct (ubytes m root (va + 1) n) as [bs|]; [|done]. cbn [mbind option_bind].
    by destruct (ubytes m root (va + Z.of_nat (S n)) k).
Qed.

Lemma ubytes_length (m : memory) (root va : Z) (n : nat) (bs : list Z) :
  ubytes m root va n = Some bs -> length bs = n.
Proof.
  revert va bs. induction n as [|n IH]; intros va bs; cbn [ubytes].
  - by intros [= <-].
  - destruct (ubyte m root va) as [b|]; [|done]. cbn. destruct (ubytes m root (va + 1) n) as [cs|] eqn:E; [|done].
    cbn. intros [= <-]. simpl. f_equal. by eapply IH.
Qed.

(** Within a page, a run of user bytes is a run of memory. *)
Lemma ubytes_page (m : memory) (root va : Z) (n : nat) :
  0 <= va < MAXVA -> user (pte_of m root va) = true -> va mod PGSIZE + Z.of_nat n <= PGSIZE ->
  ubytes m root va n = Some (load m (PTE2PA (pte_of m root va) + va mod PGSIZE) n).
Proof.
  revert va. induction n as [|n IH]; intros va Hva Hu Hn; [done|]. cbn [ubytes load].
  unfold ubyte at 1. rewrite (proj2 (Z.ltb_lt _ _)), Hu by lia. cbn [andb mbind option_bind].
  destruct n as [|n]; [done|].
  assert ((va + 1) mod PGSIZE = va mod PGSIZE + 1 /\ (va + 1) / PGSIZE = va / PGSIZE) as [Em Ed].
  { unfold PGSIZE in *. Z.div_mod_to_equations. lia. }
  assert (va + 1 < MAXVA) as Hlt.
  { change MAXVA with (67108864 * 4096) in *. unfold PGSIZE in *. Z.div_mod_to_equations. lia. }
  pose proof (pte_of_page m root (va + 1) va Ed) as Ep.
  rewrite IH, Ep, Em; [|lia|by rewrite Ep|lia]. cbn [mbind option_bind].
  do 3 f_equal. lia.
Qed.

Lemma ubytes_none (m : memory) (root va : Z) (n : nat) :
  (0 < n)%nat -> ubyte m root va = None -> ubytes m root va n = None.
Proof. intros Hn E. destruct n; [lia|]. cbn [ubytes]. by rewrite E. Qed.

(** The part of a run that lies in the first page. *)
Lemma chunk_bounds (va len : Z) : 0 <= va -> 0 < len ->
  let n := PGSIZE - (va - PGROUNDDOWN va) in let n := if len <? n then len else n in
  0 < n <= len /\ va mod PGSIZE + n <= PGSIZE /\ (n = len \/ PGROUNDDOWN va + PGSIZE = va + n).
Proof.
  intros Hva Hlen. rewrite PGROUNDDOWN_spec. pose proof (Z.mod_pos_bound va PGSIZE ltac:(done)).
  cbv zeta. destruct (Z.ltb_spec len (PGSIZE - (va - (va - va mod PGSIZE)))); lia.
Qed.

(** ** copyin *)
Lemma copyin_spec (R : Z -> Prop) (lim root srcva len : Z) (h : heap) (fl lo : list Z)
    (Q : Z * list Z -> heap -> Prop) :
  aspace R lim root h fl lo -> user_below lim root (mem h) -> is_u64 srcva -> 0 <= len < 2 ^ 64 ->
  (forall bs, ubytes (mem h) root srcva (Z.to_nat len) = Some bs -> Q (0, bs) h) ->
  (forall pre, ubytes (mem h) root srcva (Z.to_nat len) = None -> Q (-1, pre) h) ->
  hwp (copyin root srcva len) h Q.
Proof using LOk.
  intros Has Hub Hsrc Hlen HQ HF. unfold copyin.
  apply (hwp_loop (fun '(dst, va, n) h1 => h1 = h /\ 0 <= n <= len /\ 0 <= va /\
           ubytes (mem h) root srcva (Z.to_nat (len - n)) = Some dst /\ (n = 0 \/ va = srcva + (len - n)))
         (fun '(_, _, n) _ => n)).
  - rewrite Z.sub_diag. split_and!; try done; try (unfold is_u64 in *; lia).
  - lia.
  - intros [[dst va] n] h1 (-> & Hn & Hva & Hb & Hnv).
    destruct (Z.ltb_spec 0 n) as [Hpos|Hz]; cbn [negb].
    2:{ assert (n = 0) as -> by lia. rewrite Z.sub_0_r in Hb. by apply hwp_ret, HQ. }
    destruct Hnv as [?|Hnv]; [lia|].
    apply hwp_bind, (walkaddr_spec R lim root _ h fl lo); [done|].
    destruct (upage (mem h) root (PGROUNDDOWN va) =? 0) eqn:Hz.
    + apply (upage_zero Has Hub) in Hz; [|done]. apply hwp_ret, HF.
      replace (Z.to_nat len) with (Z.to_nat (len - n) + Z.to_nat n)%nat by lia.
      rewrite ubytes_app, Hb. cbn [mbind option_bind]. rewrite Z2Nat.id by lia.
      rewrite ubytes_none; [done|lia|]. by rewrite <- Hnv.
    + destruct (ubyte (mem h) root va) as [b|] eqn:Eb.
      2:{ apply (upage_zero Has Hub) in Eb; [congruence|done]. }
      apply ubyte_Some in Eb as (Hmax & Hu & _).
      destruct (upage_eq Has Hub va) as [-> Eoff]; [lia|done|].
      pose proof (chunk_bounds va n Hva Hpos) as Hch. cbv zeta in Hch. rewrite Eoff in *.
      set (k := if n <? PGSIZE - va mod PGSIZE then n else PGSIZE - va mod PGSIZE) in *.
      destruct Hch as (Hk & Hin & Hnext).
      apply hwp_bind, hwp_get_mem, hwp_ret. split; [|lia].
      pose proof (PGROUNDDOWN_bounds va) as Hpb.
      assert (0 <= PGROUNDDOWN va) as Hp0.
      { rewrite PGROUNDDOWN_spec. pose proof (Z.mod_le va PGSIZE Hva ltac:(done)). lia. }
      rewrite u64_small by plia. split_and!; try done; try plia.
      replace (Z.to_nat (len - (n - k))) with (Z.to_nat (len - n) + Z.to_nat k)%nat by lia.
      rewrite ubytes_app, Hb. cbn [mbind option_bind]. rewrite Z2Nat.id, <- Hnv by lia.
      rewrite ubytes_page; [done|lia|done|lia].
Qed.

(** ** copyout *)

(** The user's view after [bs] has been written at [d]. *)
Definition uwrite (root d : Z) (bs : list Z) (m m' : memory) : Prop :=
  forall va, 0 <= va -> ubyte m' root va =
    if (d <=? va) && (va <? d + Z.of_nat (length bs)) then Some (u8 (nth (Z.to_nat (va - d)) bs 0))
    else ubyte m root va.

Definition same_table (root : Z) (m m' : memory) : Prop :=
  forall path j, inner path -> idx j -> pte_at m' root path j = pte_at m root path j.

Lemma same_table_pte (root va : Z) (m m' : memory) :
  same_table root m m' -> pte_of m' root va = pte_of m root va.
Proof. intros H. apply H; [apply inner_va|apply PX_idx; lia]. Qed.

Lemma user_below_same (lim root : Z) (m m' : memory) :
  same_table root m m' -> user_below lim root m -> user_below lim root m'.
Proof. intros H Hub va Hva H0. rewrite (same_table_pte root va m m' H). by apply Hub. Qed.

Section store_user.
Context {R : Z -> Prop} {lim root : Z} {h : heap} {fl lo : list Z} {d : Z} {bs : list Z}.
Hypothesis Has : aspace R lim root h fl lo.
Hypothesis Hub : user_below lim root (mem h).
Hypothesis Hd : 0 <= d < MAXVA.
Hypothesis Hu : user (pte_of (mem h) root d) = true.
Hypothesis Hlen : d mod PGSIZE + Z.of_nat (length bs) <= PGSIZE.
Let p := PTE2PA (pte_of (mem h) root d).
Let m' := store (mem h) (p + d mod PGSIZE) bs.

Lemma store_user_same : same_on (fun x => ~ in_page p x) (mem h) m'.
Proof using Hlen.
  eapply same_on_weaken; [|apply store_same_on]. intros x Hx. cbv beta.
  pose proof (Z.mod_pos_bound d PGSIZE ltac:(done)). unfold in_page in Hx. lia.
Qed.

Lemma store_user_table : same_table root (mem h) m'.
Proof using Has Hub Hd Hu Hlen.
  destruct (user_page Has Hub d Hd Hu) as (Hlt & Hp & Hn).
  intros path j Hi Hj. apply (as_same_outside Has p m' Hp); [|apply store_user_same|done|done].
  apply (leaf_page_not_inner R lim root h fl lo d); [done|lia|done].
Qed.

Lemma store_user_aspace : aspace R lim root (h <| mem := m' |>) fl lo.
Proof using Has Hub Hd Hu Hlen.
  destruct (user_page Has Hub d Hd Hu) as (Hlt & Hp & Hn).
  apply (aspace_same R lim root h _ fl lo fl lo Has); [apply store_user_table| |done].
  apply (heap_ok_write h fl p); [apply Has|apply Hp| |apply store_user_same].
  pose proof (as_excl _ _ _ _ _ _ Has (path_of d) p ltac:(apply owned_va; lia) Hn) as Hx.
  rewrite elem_of_app in Hx. tauto.
Qed.

Lemma store_user_R : frame R (mem h) m'.
Proof using Has Hub Hd Hu Hlen.
  destruct (user_page Has Hub d Hd Hu) as (Hlt & Hp & Hn).
  eapply frame_mono; [apply frame_page, store_user_same|]. intros q ->.
  apply (as_node_R Has (path_of d)); [apply owned_va; lia|done].
Qed.

Lemma store_user_write : uwrite root d bs (mem h) m'.
Proof using Has Hub Hd Hu Hlen LOk.
  destruct (user_page Has Hub d Hd Hu) as (Hlt & Hp & Hn).
  intros va Hva. unfold ubyte. rewrite (same_table_pte root va _ _ store_user_table).
  pose proof (Z.mod_pos_bound d PGSIZE ltac:(done)) as Hdm.
  pose proof (Z.mod_pos_bound va PGSIZE ltac:(done)) as Hvm.
  destruct (decide (va / PGSIZE = d / PGSIZE)) as [E|E].
  - rewrite (pte_of_page _ _ _ _ E), Hu. fold p.
    assert (va - va mod PGSIZE = d - d mod PGSIZE) as Eb by (unfold PGSIZE in *; Z.div_mod_to_equations; lia).
    assert (va < MAXVA) as Hmax.
    { destruct Hp as [_ _]. change MAXVA with (67108864 * 4096) in *. unfold PGSIZE in *. Z.div_mod_to_equations. lia. }
    rewrite (proj2 (Z.ltb_lt va MAXVA)) by done. cbn [andb]. unfold m'. rewrite byte_at_store.
    destruct (Z.leb_spec d va), (Z.leb_spec (p + d mod PGSIZE) (p + va mod PGSIZE)); try lia;
      destruct (Z.ltb_spec va (d + Z.of_nat (length bs))),
        (Z.ltb_spec (p + va mod PGSIZE) (p + d mod PGSIZE + Z.of_nat (length bs))); try lia; cbn [andb]; try done.
    do 3 f_equal. lia.
  - destruct (Z.leb_spec d va), (Z.ltb_spec va (d + Z.of_nat (length bs))); cbn [andb].
    { exfalso. apply E. unfold PGSIZE in *. Z.div_mod_to_equations. lia. }
    all: destruct (Z.ltb_spec va MAXVA) as [Hmax|]; cbn [andb]; [|done].
    all: destruct (user (pte_of (mem h) root va)) eqn:Uv; [|done].
    all: destruct (user_page Has Hub va ltac:(lia) Uv) as (Hlt' & Hp' & Hn').
    all: f_equal; apply store_user_same; intros Hin.
    all: apply E; apply (path_of_inj va d); [lia|done|].
    all: apply (as_inj _ _ _ _ _ _ Has _ _ p); [apply owned_va; lia|apply owned_va; lia| |done].
    all: rewrite Hn'; f_equal; eapply pages_disjoint; [apply Hp'|apply Hp|apply cell_in_page|exact Hin].
Qed.
End store_user.

Lemma uwrite_app (root d : Z) (bs cs : list Z) (m m1 m2 : memory) :
  0 <= d -> uwrite root d bs m m1 -> uwrite root (d + Z.of_nat (length bs)) cs m1 m2 ->
  uwrite root d (bs ++ cs) m m2.
Proof.
  intros Hd H1 H2 va Hva. rewrite H2, H1, length_app by done.
  destruct (Z.leb_spec d va), (Z.leb_spec (d + Z.of_nat (length bs)) va); cbn [andb]; try lia.
  - destruct (Z.ltb_spec va (d + Z.of_nat (length bs) + Z.of_nat (length cs))),
      (Z.ltb_spec va (d + Z.of_nat (length bs + length cs))); try lia.
    + rewrite app_nth2 by lia. do 3 f_equal. lia.
    + by rewrite (proj2 (Z.ltb_ge va (d + Z.of_nat (length bs)))) by lia.
  - rewrite (proj2 (Z.ltb_lt va (d + Z.of_nat (length bs)))),
      (proj2 (Z.ltb_lt va (d + Z.of_nat (length bs + length cs)))) by lia.
    by rewrite app_nth1 by lia.
  - done.
Qed.

Lemma uwrite_nil (root d : Z) (m : memory) : uwrite root d [] m m.
Proof.
  intros va Hva. cbn [length]. destruct (Z.leb_spec d va), (Z.ltb_spec va (d + Z.of_nat 0)); cbn [andb]; try done; lia.
Qed.

Lemma ubytes_all (m : memory) (root va : Z) (n : nat) :
  (forall x, va <= x < va + Z.of_nat n -> ubyte m root x <> None) <-> ubytes m root va n <> None.
Proof.
  revert va. induction n as [|n IH]; intros va; cbn [ubytes]; [split; [done|intros _ x; lia]|].
  split.
  - intros H. specialize (IH (va + 1)). destruct (ubyte m root va) as [b|] eqn:E; [|destruct (H va); [lia|done]].
    cbn. destruct (ubytes m root (va + 1) n) eqn:E'; [done|].
    exfalso. apply IH; [|done]. intros x Hx. apply H. lia.
  - intros H x Hx. destruct (ubyte m root va) as [b|] eqn:E; [|done]. cbn in H.
    destruct (Z.eq_dec x va) as [->|]; [by rewrite E|]. apply (IH (va + 1)); [|lia].
    by destruct (ubytes m root (va + 1) n).
Qed.

Lemma rounddown_next (va : Z) : 0 <= va < MAXVA -> u64 (PGROUNDDOWN va + PGSIZE) = PGROUNDDOWN va + PGSIZE.
Proof.
  intros Hva. apply u64_small. rewrite PGROUNDDOWN_spec.
  pose proof (Z.mod_pos_bound va PGSIZE ltac:(done)). pose proof (Z.mod_le va PGSIZE ltac:(lia) ltac:(done)). plia.
Qed.

(** What [copyout] leaves of the address space. *)
Record wrote (R : Z -> Prop) (lim root d : Z) (bs : list Z) (fl lo : list Z) (h h' : heap) : Prop := {
  wr_aspace : aspace R lim root h' fl lo;
  wr_table : same_table root (mem h) (mem h');
  wr_bytes : uwrite root d bs (mem h) (mem h');
  wr_frame : frame R (mem h) (mem h');
}.

Lemma same_table_ubyte_None (root va : Z) (m m' : memory) :
  same_table root m m' -> ubyte m' root va = None <-> ubyte m root va = None.
Proof.
  intros H. unfold ubyte. rewrite (same_table_pte root va m m' H).
  by destruct ((va <? MAXVA) && user (pte_of m root va)).
Qed.

Section copyout.
Context (R : Z -> Prop) (lim root dstva : Z) (src : list Z) (h : heap) (fl lo : list Z).
Let len := Z.of_nat (length src).
Hypothesis Has : aspace R lim root h fl lo.
Hypothesis Hub : user_below lim root (mem h).
Hypothesis Hdst : is_u64 dstva.
Hypothesis Hlen : len < 2 ^ 64.

Lemma copyout_spec (Q : Z -> heap -> Prop) :
  (forall h', ubytes (mem h) root dstva (length src) <> None -> wrote R lim root dstva src fl lo h h' -> Q 0 h') ->
  (forall h' n, ubytes (mem h) root dstva (length src) = None -> (n < length src)%nat ->
     wrote R lim root dstva (take n src) fl lo h h' -> Q (-1) h') ->
  hwp (copyout root dstva src) h Q.
Proof using All.
  intros HQ HF. unfold copyout. unfold is_u64 in Hdst.
  apply (hwp_loop (fun '(va, bs) h1 => exists n : nat, (n <= length src)%nat /\ bs = drop n src /\ 0 <= va /\
           wrote R lim root dstva (take n src) fl lo h h1 /\
           (forall x, dstva <= x < dstva + Z.of_nat n -> ubyte (mem h) root x <> None) /\
           (bs = [] \/ va = dstva + Z.of_nat n))
         (fun '(_, bs) _ => Z.of_nat (length bs))).
  - exists O. split_and!; try done; try lia. split; [done|done|apply uwrite_nil|done].
  - done.
  - intros [va bs] h1 (n & Hn & Ebs & Hva & [Has1 Ht1 Hw1 Hf1] & Hacc & Hnv).
    assert (length bs = length src - n)%nat as Hlb by (by rewrite Ebs, length_drop).
    destruct (Z.ltb_spec 0 (Z.of_nat (length bs))) as [Hpos|Hz]; cbn [negb].
    2:{ assert (n = length src) as -> by lia. rewrite firstn_all in Hw1.
        apply hwp_ret, HQ; [|by split]. by apply ubytes_all. }
    destruct Hnv as [->|Hnv]; [simpl in Hpos; lia|].
    pose proof (user_below_same lim root _ _ Ht1 Hub) as Hub1.
    apply hwp_bind, (walkaddr_spec R lim root _ h1 fl lo); [done|].
    destruct (upage (mem h1) root (PGROUNDDOWN va) =? 0) eqn:Hz.
    + apply (upage_zero Has1 Hub1), (same_table_ubyte_None root va _ _ Ht1) in Hz; [|done].
      apply hwp_ret, (HF h1 n); [|lia|by split].
      destruct (ubytes (mem h) root dstva (length src)) eqn:E; [|done].
      exfalso. apply (proj2 (ubytes_all (mem h) root dstva (length src)) ltac:(by rewrite E) va); [lia|done].
    + destruct (ubyte (mem h1) root va) as [b|] eqn:Eb.
      2:{ apply (upage_zero Has1 Hub1) in Eb; [congruence|done]. }
      apply ubyte_Some in Eb as (Hmax & Hu & _).
      destruct (upage_eq Has1 Hub1 va) as [-> Eoff]; [lia|done|].
      pose proof (chunk_bounds va (Z.of_nat (length bs)) Hva Hpos) as Hch. cbv zeta in Hch. rewrite Eoff in *.
      set (k := if _ <? PGSIZE - va mod PGSIZE then _ else _) in *. destruct Hch as (Hk & Hin & Hnext).
      assert (length (take (Z.to_nat k) bs) = Z.to_nat k) as Htk by (rewrite length_take; lia).
      apply hwp_bind, hwp_get_mem, hwp_bind, hwp_put_mem, hwp_ret.
      rewrite rounddown_next by lia. split; [|rewrite length_drop; lia].
      assert (0 <= va < MAXVA) as Hvam by lia.
      assert (va mod PGSIZE + Z.of_nat (length (take (Z.to_nat k) bs)) <= PGSIZE) as Hfit by lia.
      pose proof (store_user_aspace Has1 Hub1 Hvam Hu Hfit) as Has2.
      pose proof (store_user_table Has1 Hub1 Hvam Hu Hfit) as Ht2.
      pose proof (store_user_write Has1 Hub1 Hvam Hu Hfit) as Hw2.
      pose proof (store_user_R Has1 Hub1 Hvam Hu Hfit) as Hf2.
      assert (take (n + Z.to_nat k) src = take n src ++ take (Z.to_nat k) bs) as Etk
        by (rewrite Ebs; symmetry; apply take_take_drop).
      assert (dstva + Z.of_nat (length (take n src)) = va) as Eva by (rewrite length_take; lia).
      exists (n + Z.to_nat k)%nat. split_and!.
      * lia.
      * by rewrite Ebs, drop_drop.
      * pose proof (PGROUNDDOWN_bounds va). lia.
      * split; [done|by intros path j Hi Hj; rewrite <- Ht1; [apply Ht2|..]| |by etransitivity].
        rewrite Etk. apply (uwrite_app root dstva _ _ (mem h) (mem h1)); [lia|done|]. by rewrite Eva.
      * intros x Hx. destruct (Z.lt_ge_cases x va) as [|Hge]; [apply Hacc; lia|].
        rewrite <- (same_table_ubyte_None root x _ _ Ht1).
        apply (proj2 (ubytes_all (mem h1) root va (Z.to_nat k))); [|lia].
        rewrite ubytes_page; [done|lia|done|lia].
      * destruct Hnext as [E|E]; [left|right; lia]. apply nil_length_inv. rewrite length_drop. lia.
Qed.
End copyout.

(** ** copyinstr *)

(** The user string at [va], with its nul, if it ends within [n] bytes. *)
Fixpoint ustr (m : memory) (root va : Z) (n : nat) : option (list Z) :=
  match n with
  | O => None
  | S n => b ← ubyte m root va;
           if b =? 0 then Some [0] else bs ← ustr m root (va + 1) n; Some (b :: bs)
  end.

Lemma copy_str_page (m : memory) (root va : Z) (n k : nat) :
  0 <= va < MAXVA -> user (pte_of m root va) = true -> va mod PGSIZE + Z.of_nat n <= PGSIZE ->
  let '(bs, got_null) := copy_str m (PTE2PA (pte_of m root va) + va mod PGSIZE) n in
  ustr m root va (n + k) =
    if got_null : bool then Some bs else (cs ← ustr m root (va + Z.of_nat n) k; Some (bs ++ cs)).
Proof.
  revert va. induction n as [|n IH]; intros va Hva Hu Hn; cbn [copy_str Nat.add ustr].
  { rewrite Z.add_0_r. by destruct (ustr m root va k). }
  unfold ubyte. rewrite (proj2 (Z.ltb_lt _ _)), Hu by lia. cbn [andb mbind option_bind].
  destruct (byte_at m (PTE2PA (pte_of m root va) + va mod PGSIZE) =? 0) eqn:Eb; [done|].
  destruct n as [|n].
  { cbn [copy_str Nat.add]. change (Z.of_nat 1) with 1. by destruct (ustr m root (va + 1) k). }
  assert ((va + 1) mod PGSIZE = va mod PGSIZE + 1 /\ (va + 1) / PGSIZE = va / PGSIZE) as [Em Ed].
  { unfold PGSIZE in *. Z.div_mod_to_equations. lia. }
  assert (va + 1 < MAXVA) as Hlt.
  { change MAXVA with (67108864 * 4096) in *. unfold PGSIZE in *. Z.div_mod_to_equations. lia. }
  pose proof (pte_of_page m root (va + 1) va Ed) as Ep.
  specialize (IH (va + 1) ltac:(lia) ltac:(by rewrite Ep) ltac:(lia)). rewrite Ep, Em in IH.
  replace (PTE2PA (pte_of m root va) + (va mod PGSIZE + 1))
    with (PTE2PA (pte_of m root va) + va mod PGSIZE + 1) in IH by lia.
  destruct (copy_str m (PTE2PA (pte_of m root va) + va mod PGSIZE + 1) (S n)) as [bs []]; rewrite IH; [done|].
  replace (va + 1 + Z.of_nat (S n)) with (va + Z.of_nat (S (S n))) by lia.
  by destruct (ustr m root (va + Z.of_nat (S (S n))) k).
Qed.

Lemma copyinstr_spec (R : Z -> Prop) (lim root srcva max : Z) (h : heap) (fl lo : list Z)
    (Q : Z * list Z -> heap -> Prop) :
  aspace R lim root h fl lo -> user_below lim root (mem h) -> is_u64 srcva -> 0 <= max < 2 ^ 64 ->
  (forall s, ustr (mem h) root srcva (Z.to_nat max) = Some s -> Q (0, s) h) ->
  (forall pre, ustr (mem h) root srcva (Z.to_nat max) = None -> Q (-1, pre) h) ->
  hwp (copyinstr root srcva max) h Q.
Proof using LOk.
  intros Has Hub Hsrc Hmax HQ HF. unfold copyinstr. unfold is_u64 in Hsrc.
  apply (hwp_loop (fun '(dst, va, n) h1 => h1 = h /\ 0 <= n <= max /\ 0 <= va /\
           ustr (mem h) root srcva (Z.to_nat max) =
             (cs ← ustr (mem h) root (srcva + (max - n)) (Z.to_nat n); Some (dst ++ cs)) /\
           (n = 0 \/ va = srcva + (max - n)))
         (fun '(_, _, n) _ => n)).
  - split_and!; try done; try lia. rewrite Z.sub_diag, Z.add_0_r. by destruct (ustr _ _ _ _).
  - lia.
  - intros [[dst va] n] h1 (-> & Hn & Hva & Hstr & Hnv).
    destruct (Z.ltb_spec 0 n) as [Hpos|Hz]; cbn [negb].
    2:{ assert (n = 0) as -> by lia. apply hwp_ret, HF. by rewrite Hstr. }
    destruct Hnv as [?|Hnv]; [lia|].
    apply hwp_bind, (walkaddr_spec R lim root _ h fl lo); [done|].
    destruct (upage (mem h) root (PGROUNDDOWN va) =? 0) eqn:Hz.
    + apply (upage_zero Has Hub) in Hz; [|done]. apply hwp_ret, HF. rewrite Hstr, <- Hnv.
      destruct (Z.to_nat n) as [|n'] eqn:En; [lia|]. cbn [ustr]. by rewrite Hz.
    + destruct (ubyte (mem h) root va) as [b|] eqn:Eb.
      2:{ apply (upage_zero Has Hub) in Eb; [congruence|done]. }
      apply ubyte_Some in Eb as (Hvm & Hu & _).
      destruct (upage_eq Has Hub va) as [-> Eoff]; [lia|done|].
      pose proof (chunk_bounds va n Hva Hpos) as Hch. cbv zeta in Hch. rewrite Eoff in *.
      set (k := if n <? PGSIZE - va mod PGSIZE then n else PGSIZE - va mod PGSIZE) in *.
      destruct Hch as (Hk & Hin & Hnext). apply hwp_bind, hwp_get_mem.
      pose proof (copy_str_page (mem h) root va (Z.to_nat k) (Z.to_nat (n - k)) ltac:(lia) Hu ltac:(lia)) as Hcs.
      replace (Z.to_nat k + Z.to_nat (n - k))%nat with (Z.to_nat n) in Hcs by lia.
      rewrite <- Hnv in Hstr. destruct (copy_str _ _ _) as [bs []]; rewrite Hcs in Hstr; cbn [mbind option_bind] in Hstr.
      * by apply hwp_ret, HQ.
      * apply hwp_ret. split; [|lia]. rewrite rounddown_next by lia.
        split_and!; try done; try lia.
        rewrite Hstr, Z2Nat.id by lia. replace (srcva + (max - (n - k))) with (va + k) by lia.
        destruct (ustr (mem h) root (va + k) (Z.to_nat (n - k))) as [cs|]; [|done].
        cbn. by rewrite app_assoc.
Qed.

End usercopy.
