(* ===== verification/AddressSpace.v ===== *)
(** * Properties of address spaces (kernel/vm.c)

    Creating an address space, and what the operations of vm.c do to it, in
    the form the rest of the kernel uses them: for every kernel state in which
    the allocator's lock is free, the call returns, and changes nothing but
    memory and the free list. *)
From S2P Require Import Prelude Memory Riscv State Spinlock Cstring Kalloc Pagetable Vm VmSpec Uvm Freewalk Usercopy.

Section space.
Context {L : Linker} {LOk : LinkerOk L}.

(** ** New address spaces *)
Definition zero_page (m : memory) (p : Z) : Prop := forall x, in_page p x -> byte_at m x = 0.

Lemma zero_entry (m : memory) (p i : Z) : zero_page m p -> idx i -> entry m p i = 0.
Proof. intros Hz Hi. apply load64_zero. intros x Hx. apply Hz. unfold in_page, idx, PGSIZE in *. lia. Qed.

Lemma zero_pte_at (m : memory) (root : Z) (path : list Z) (i : Z) :
  zero_page m root -> inner path -> idx i -> pte_at m root path i = 0.
Proof.
  intros Hz [Hf _] Hi. unfold pte_at. destruct path as [|j path]; [by apply zero_entry|].
  cbn [node]. unfold next. apply Forall_cons_1 in Hf as [Hj _]. by rewrite zero_entry.
Qed.

Lemma zero_node (m : memory) (root : Z) (path : list Z) (p : Z) (lim : Z) :
  zero_page m root -> owned lim path -> node m root path = Some p -> path = [] /\ p = root.
Proof.
  intros Hz Ho Hn. destruct path as [|j path]; [by injection Hn|]. exfalso.
  assert (idx j) as Hj.
  { destruct Ho as [[Hf _]|(va & _ & [= -> _])]; [by apply Forall_cons_1 in Hf as [? _]|by apply PX_idx]. }
  cbn [node] in Hn. unfold next in Hn. by rewrite zero_entry in Hn.
Qed.

Lemma aspace_fresh (lim root : Z) (h : heap) (fl lo : list Z) :
  heap_ok h fl -> NoDup (fl ++ root :: lo) -> Forall page_ok (root :: lo) -> zero_page (mem h) root ->
  lim <= MAXVA -> lim mod PGSIZE = 0 ->
  aspace (fun p => p ∈ fl ++ root :: lo) lim root h fl lo.
Proof.
  intros Hh Hn Hlo Hz Hlim Hal. pose proof Hn as Hn'. rewrite <- Permutation_middle in Hn'.
  apply list.NoDup_cons in Hn' as [Hnot Hnd]. split; try done.
  - intros p. rewrite <- Permutation_middle, elem_of_cons. split.
    + intros [->|?]; [right; exists []; split; [apply owned_inner, inner_nil|done]|by left].
    + intros [?|(path & Ho & E)]; [by right|]. left. by apply (zero_node _ _ _ _ lim Hz Ho E).
  - intros p Hp. apply elem_of_app in Hp as [Hp|Hp]; [|by apply (Forall_in _ _ p Hlo)].
    apply (Forall_in _ fl p); [apply Hh|done].
  - intros path p Ho E. by destruct (zero_node _ _ _ _ lim Hz Ho E) as [_ ->].
  - intros p1 p2 p Ho1 Ho2 E1 E2. destruct (zero_node _ _ _ _ lim Hz Ho1 E1) as [-> _].
    by destruct (zero_node _ _ _ _ lim Hz Ho2 E2) as [-> _].
  - intros path i Hp Hi. by rewrite zero_pte_at.
  - intros i Hi. rewrite zero_pte_at; [done|done|apply inner_nil|unfold idx; lia].
Qed.

Lemma zero_pte_of (m : memory) (root va : Z) : zero_page m root -> pte_of m root va = 0.
Proof. intros Hz. apply zero_pte_at; [done|apply inner_va|apply PX_idx; lia]. Qed.

(** A page for the root of a new table. *)
Lemma uvmcreate_spec (lim : Z) (h : heap) (fl lo : list Z) (Q : Z -> heap -> Prop) :
  heap_ok h fl -> NoDup (fl ++ lo) -> Forall page_ok lo -> lim <= MAXVA -> lim mod PGSIZE = 0 ->
  (fl = [] -> Q 0 h) ->
  (forall root fl' h', fl = root :: fl' -> aspace (fun p => p ∈ fl ++ lo) lim root h' fl' lo ->
     (forall va, pte_of (mem h') root va = 0) -> frame (fun q => q = root) (mem h) (mem h') -> Q root h') ->
  hwp uvmcreate h Q.
Proof using LOk.
  intros Hh Hn Hlo Hlim Hal H0 HQ. unfold uvmcreate. apply hwp_bind.
  destruct fl as [|root fl]; [apply kalloc_none; [done|]; by apply hwp_ret, H0|].
  apply (kalloc_some h root fl); [done|]. intros h1 Hs1 _ Hh1.
  pose proof (heap_pages _ _ Hh) as Hp. apply Forall_cons_1 in Hp as [Hroot _].
  rewrite (proj2 (Z.eqb_neq root 0)) by (apply page_ok_pos in Hroot; unfold KERNBASE in Hroot; lia).
  apply hwp_bind, hwp_memset, hwp_ret.
  assert (root ∉ fl) as Hnot.
  { apply list.NoDup_cons in Hn as [Hx _]. rewrite elem_of_app in Hx. tauto. }
  assert (zero_page (memset (mem h1) root 0 PGSIZE) root) as Hz by exact (fun x => memset_in_page _ _ 0 x).
  apply (HQ root fl); [done| |by intros va; apply zero_pte_of|].
  - pose proof (aspace_fresh lim root (h1 <| mem := memset (mem h1) root 0 PGSIZE |>) fl lo) as Hf.
    assert (aspace (fun p => p ∈ fl ++ root :: lo) lim root (h1 <| mem := memset (mem h1) root 0 PGSIZE |>) fl lo) as Has.
    { apply Hf; [|by rewrite <- Permutation_middle|by apply Forall_cons_2|exact Hz|done|done].
      apply (heap_ok_write h1 fl root); [done|apply Hroot|done|apply memset_page]. }
    destruct Has as [A1 A2 A3 A4 A5 A6 A7 A8 A9 A10]. split; try done.
    + intros p. rewrite <- A5, <- Permutation_middle. done.
    + intros p Hp. apply A6. by rewrite <- Permutation_middle.
  - apply frame_page. etransitivity; [exact Hs1|apply memset_page].
Qed.

(** ** What a process sees after each operation *)
Lemma grown_cell (R : Z -> Prop) (lim root o t va : Z) (h h' : heap) (fl lo fl' : list Z) :
  aspace R lim root h fl lo -> grows root h fl h' fl' -> grown root o t h h' -> 0 <= va < lim ->
  ucell (mem h') root va =
    if (o <=? va) && (va <? t) then Some (Z.lor user_perm PTE_V, 0) else ucell (mem h) root va.
Proof using LOk.
  intros Has Hg [Hnew Hold] Hva. pose proof (as_lim _ _ _ _ _ _ Has) as Hlim.
  destruct (Z.leb_spec o va), (Z.ltb_spec va t); cbn [andb];
    try (apply (grows_cell R lim root va h h' fl lo fl'); [done|done|done|apply Hold; lia]).
  destruct (Hnew va) as (p & E & Hp & Hz); [lia|lia|]. unfold ucell, trans. rewrite E.
  pose proof (page_ok_55 p Hp).
  destruct (leaf_facts p user_perm) as (_ & E1 & E2 & E3 & _); [lia|apply Hp|apply user_perm_ok|].
  rewrite E2. cbn [mbind option_bind]. rewrite E3, E1, Hz; [done|]. by apply Z.mod_pos_bound.
Qed.

Lemma ubytes_pointwise (m : memory) (root va : Z) (l : list Z) :
  (forall i : nat, (i < length l)%nat -> ubyte m root (va + Z.of_nat i) = Some (nth i l 0)) ->
  ubytes m root va (length l) = Some l.
Proof.
  revert va. induction l as [|b l IH]; intros va H; cbn [length ubytes]; [done|].
  pose proof (H O ltac:(simpl; lia)) as H0. rewrite Z.add_0_r in H0. rewrite H0. cbn [mbind option_bind].
  rewrite IH; [done|]. intros i Hi. specialize (H (S i) ltac:(simpl; lia)).
  by replace (va + Z.of_nat (S i)) with (va + 1 + Z.of_nat i) in H by lia.
Qed.

Lemma uwrite_read (root d : Z) (bs : list Z) (m m' : memory) :
  0 <= d -> uwrite root d bs m m' -> ubytes m' root d (length bs) = Some (u8 <$> bs).
Proof.
  intros Hd Hw. rewrite <- (length_fmap u8 bs). apply ubytes_pointwise. intros i Hi.
  rewrite length_fmap in Hi. rewrite Hw by lia.
  rewrite (proj2 (Z.leb_le _ _)), (proj2 (Z.ltb_lt _ _)) by lia. cbn [andb].
  replace (Z.to_nat (d + Z.of_nat i - d)) with i by lia. f_equal. change 0 with (u8 0) at 2. symmetry. apply map_nth.
Qed.

(** ** Properties *)
Section properties.
Context (R : Z -> Prop) (lim root : Z) (s : kstate) (fl lo : list Z).
Let m := mem (k_heap s).
Hypothesis Hready : kmem_ready s.
Hypothesis Has : aspace R lim root (k_heap s) fl lo.

(** [mappages] on a range that is not mapped either maps every page of the
    range to the corresponding page of physical memory and returns 0, or, when
    memory for the tree runs out, returns -1 with a prefix mapped.  No other
    translation changes, and only free pages and the table's own pages are
    written. *)
Theorem mappages_maps (va size pa perm : Z) :
  let a := PGROUNDDOWN va in let n := (PGROUNDDOWN (va + size - 1) - a) / PGSIZE + 1 in
  0 <= va -> 0 < size -> va + size <= MAXVA -> lim <= a ->
  0 <= pa -> pa mod PGSIZE = 0 -> pa + n * PGSIZE <= 2 ^ 56 -> perm_ok perm ->
  (forall x, a <= x < a + n * PGSIZE -> trans m root x = None) ->
  exists r k h' fl', mappages root va size pa perm s = Ret r (s <| k_heap := h' |>) /\
    aspace R lim root h' fl' lo /\ frame (tpage root (k_heap s) fl) m (mem h') /\
    (r = 0 /\ k = n \/ r = -1 /\ 0 <= k < n /\ fl' = []) /\
    (forall x, 0 <= x < MAXVA -> pte_of (mem h') root x =
       if (a <=? x) && (x <? a + k * PGSIZE) then leaf (pa + (PGROUNDDOWN x - a)) perm else pte_of m root x).
Proof using All.
  intros a n Hva Hsz Hend Hlim Hpa Hpal Hptop Hperm Hfree.
  assert (hwp (mappages root va size pa perm) (k_heap s) (fun r h' => exists k fl',
    aspace R lim root h' fl' lo /\ grows root (k_heap s) fl h' fl' /\
    (r = 0 /\ k = n \/ r = -1 /\ 0 <= k < n /\ fl' = []) /\ mapped root a pa perm k m (mem h'))) as Hw.
  { apply (mappages_spec R lim root va size pa perm (k_heap s) fl (fun _ => lo)); try done.
    - intros i Hi. right. split; [|done]. fold a. plia.
    - intros x Hx. by apply trans_None, Hfree.
    - intros i h' Hi Has' Hg Hm. exists (Z.of_nat i), []. split_and!; try done. right. split_and!; [done|lia|done|done].
    - intros fl' h' Has' Hg Hm. exists n, fl'. split_and!; try done. by left. }
  destruct (hwp_run _ _ _ Hw Hready) as (r & h' & E & k & fl' & Has' & Hg & Hr & Hm).
  exists r, k, h', fl'. split_and!; try done. apply Hg.
Qed.

(** [uvmalloc] grows a process from [oldsz] to [newsz]: either it returns
    [newsz], and the process sees new pages full of zeros, readable, writable
    and executable, from the end of the old memory on, and all else as before;
    or memory runs out, it returns 0, and the process sees what it saw before.
    No page is lost, and no page of another owner is written. *)
Theorem uvmalloc_grows (oldsz newsz : Z) :
  0 <= oldsz <= newsz -> newsz <= lim ->
  (forall va, PGROUNDUP oldsz <= va < PGROUNDUP newsz -> trans m root va = None) ->
  exists r h' fl', uvmalloc root oldsz newsz s = Ret r (s <| k_heap := h' |>) /\
    aspace R lim root h' fl' lo /\ frame R m (mem h') /\
    ((r = newsz /\ forall va, 0 <= va < lim -> ucell (mem h') root va =
        if (PGROUNDUP oldsz <=? va) && (va <? PGROUNDUP newsz) then Some (Z.lor user_perm PTE_V, 0)
        else ucell m root va) \/
     (r = 0 /\ forall va, 0 <= va < lim -> ucell (mem h') root va = ucell m root va)).
Proof using All.
  intros Hsz Hlim Hfree.
  assert (hwp (uvmalloc root oldsz newsz) (k_heap s) (fun r h' => exists fl',
    aspace R lim root h' fl' lo /\ frame R m (mem h') /\
    ((r = newsz /\ forall va, 0 <= va < lim -> ucell (mem h') root va =
        if (PGROUNDUP oldsz <=? va) && (va <? PGROUNDUP newsz) then Some (Z.lor user_perm PTE_V, 0)
        else ucell m root va) \/
     (r = 0 /\ forall va, 0 <= va < lim -> ucell (mem h') root va = ucell m root va)))) as Hw.
  { apply (uvmalloc_spec R lim root oldsz newsz (k_heap s) fl lo); try done.
    - intros va Hva. by apply trans_None, Hfree.
    - intros h' fl' Has' [_ Hc] Hf. exists fl'. split_and!; [done|done|]. by right.
    - intros h' fl' Has' Hg Hgr. exists fl'. split_and!; [done|by eapply grows_R|]. left. split; [done|].
      intros va Hva. by eapply (grown_cell R lim root). }
  destruct (hwp_run _ _ _ Hw Hready) as (r & h' & E & fl' & H). by exists r, h', fl'.
Qed.

(** [uvmdealloc] shrinks a process from [oldsz] to [newsz]: the pages
    beyond the new size are unmapped and free again, and the process sees all
    other memory as before. *)
Theorem uvmdealloc_shrinks (oldsz newsz : Z) :
  0 <= newsz < oldsz -> oldsz <= lim -> tables m root (PGROUNDUP newsz) (PGROUNDUP oldsz) ->
  exists h' fl', uvmdealloc root oldsz newsz s = Ret newsz (s <| k_heap := h' |>) /\
    aspace R lim root h' fl' lo /\ frame R m (mem h') /\
    (forall va, 0 <= va < lim -> ucell (mem h') root va =
       if (PGROUNDUP newsz <=? va) && (va <? PGROUNDUP oldsz) then None else ucell m root va).
Proof using All.
  intros Hn Ho Htab.
  destruct (lim_u64 R lim root (k_heap s) fl lo newsz Has ltac:(lia)) as (_ & Hb1 & Hl1 & Ha1).
  destruct (lim_u64 R lim root (k_heap s) fl lo oldsz Has ltac:(lia)) as (_ & Hb2 & Hl2 & Ha2).
  assert (hwp (uvmdealloc root oldsz newsz) (k_heap s) (fun r h' => r = newsz /\ exists fl',
    aspace R lim root h' fl' lo /\ unmapped root (PGROUNDUP newsz) (PGROUNDUP oldsz) true (k_heap s) h')) as Hw.
  { apply (uvmdealloc_spec R lim root oldsz newsz (k_heap s) fl lo); try done.
    intros h' fl' Has' Hu. split; [done|]. by exists fl'. }
  destruct (hwp_run _ _ _ Hw Hready) as (r & h' & E & -> & fl' & Has' & Hu).
  exists h', fl'. split_and!; [done|done| |].
  - apply (unmapped_R R lim root _ _ true (k_heap s) h' fl lo Has) in Hu; [done|lia|lia].
  - intros va Hva. apply (unmapped_cell R lim root _ _ va (k_heap s) h' fl lo); done || lia.
Qed.

(** C12. [uvmcopy] (fork's copy of memory), for a parent and a child that share
    nothing but the free list: either it returns 0 and the child sees, byte for
    byte and with the same permissions, what the parent sees up to its size;
    or memory runs out, it returns -1, and the child's table maps what it
    mapped before.  The parent sees the same memory as before in both cases. *)
Theorem uvmcopy_copies (R0 : Z -> Prop) (lo0 : list Z) (old sz : Z) :
  aspace R0 lim old (k_heap s) fl lo0 -> apart R R0 fl -> 0 <= sz <= lim ->
  (forall va, 0 <= va < PGROUNDUP sz -> trans m root va = None) -> dense m old (PGROUNDUP sz) ->
  exists r h' fl', uvmcopy old root sz s = Ret r (s <| k_heap := h' |>) /\
    aspace R lim root h' fl' lo /\ aspace (rest R0 fl fl') lim old h' fl' lo0 /\
    (forall va, 0 <= va < lim -> ucell (mem h') old va = ucell m old va) /\
    ((r = 0 /\ forall va, 0 <= va < PGROUNDUP sz -> ucell (mem h') root va = ucell m old va) \/
     (r = -1 /\ forall va, 0 <= va < MAXVA -> trans (mem h') root va = trans m root va)).
Proof using All.
  intros Has0 Hap Hsz Hfree Hdense.
  assert (hwp (uvmcopy old root sz) (k_heap s) (fun r h' => exists fl',
    aspace R lim root h' fl' lo /\ frame R m (mem h') /\
    ((r = 0 /\ forall va, 0 <= va < PGROUNDUP sz -> ucell (mem h') root va = ucell m old va) \/
     (r = -1 /\ forall va, 0 <= va < MAXVA -> trans (mem h') root va = trans m root va)))) as Hw.
  { apply (uvmcopy_spec R R0 lim old root sz (k_heap s) fl lo lo0); try done.
    - intros va Hva. by apply trans_None, Hfree.
    - intros h' fl' Has' [Ht _] Hf. exists fl'. split_and!; [done|done|]. by right.
    - intros h' fl' Has' [Hc _] Hf. exists fl'. split_and!; [done|done|]. by left. }
  destruct (hwp_run _ _ _ Hw Hready) as (r & h' & E & fl' & Has' & Hf & H).
  assert (forall q, R q -> page_ok q) as HRok by apply Has.
  exists r, h', fl'. split_and!; try done.
  - by apply (other_aspace (lim := lim) (root := root) (lo' := lo) Has0 Hap HRok Hf).
  - intros va Hva. by apply (other_cell Has0 Hap HRok Hf).
Qed.

(** C15. [uvmfree] gives a whole address space back: afterwards every page it
    had, the pages of the table included, is on the free list or in the
    caller's hands, once. *)
Theorem uvmfree_frees (sz : Z) :
  0 <= sz <= lim -> tables m root 0 (PGROUNDUP sz) ->
  (forall va, 0 <= va < MAXVA -> PGROUNDUP sz <= va -> trans m root va = None) ->
  exists h' fl', uvmfree root sz s = Ret tt (s <| k_heap := h' |>) /\
    heap_ok h' fl' /\ NoDup (fl' ++ lo) /\ (forall p, R p <-> p ∈ fl' ++ lo) /\ frame R m (mem h').
Proof using All.
  intros Hsz Htab Hout.
  assert (hwp (uvmfree root sz) (k_heap s) (fun _ h' => exists fl', all_free R h' fl' lo /\ frame R m (mem h'))) as Hw.
  { apply (uvmfree_spec R lim root sz (k_heap s) fl lo); try done.
    - intros va Hva Hge. by apply trans_None, Hout.
    - intros h' fl' Hall Hf. by exists fl'. }
  destruct (hwp_run _ _ _ Hw Hready) as ([] & h' & E & fl' & (H1 & H2 & H3) & Hf). by exists h', fl'.
Qed.

(** C16. [copyout] succeeds exactly when the process may access every byte of
    the destination; then it sees the new bytes there and everything else as
    before.  In every case its table is unchanged and nothing outside its
    address space is written. *)
Theorem copyout_writes (dstva : Z) (src : list Z) :
  user_below lim root m -> is_u64 dstva -> Z.of_nat (length src) < 2 ^ 64 ->
  exists r h', copyout root dstva src s = Ret r (s <| k_heap := h' |>) /\
    aspace R lim root h' fl lo /\ same_table root m (mem h') /\ frame R m (mem h') /\
    ((r = 0 /\ ubytes m root dstva (length src) <> None /\ forall va, 0 <= va -> ubyte (mem h') root va =
        if (dstva <=? va) && (va <? dstva + Z.of_nat (length src))
        then Some (u8 (nth (Z.to_nat (va - dstva)) src 0)) else ubyte m root va) \/
     (r = -1 /\ ubytes m root dstva (length src) = None)).
Proof using All.
  intros Hub Hd Hl.
  assert (hwp (copyout root dstva src) (k_heap s) (fun r h' =>
    aspace R lim root h' fl lo /\ same_table root m (mem h') /\ frame R m (mem h') /\
    ((r = 0 /\ ubytes m root dstva (length src) <> None /\ uwrite root dstva src m (mem h')) \/
     (r = -1 /\ ubytes m root dstva (length src) = None)))) as Hw.
  { apply (copyout_spec R lim root dstva src (k_heap s) fl lo); try done.
    - intros h' Hacc [H1 H2 H3 H4]. split_and!; try done. by left.
    - intros h' n Hacc Hn [H1 H2 H3 H4]. split_and!; try done. by right. }
  destruct (hwp_run _ _ _ Hw Hready) as (r & h' & E & H). by exists r, h'.
Qed.

(** C17. What [copyout] writes, [copyin] reads back: copying bytes out to memory
    a process may access and in again succeeds and returns the same bytes. *)
Theorem copyout_copyin (va : Z) (src : list Z) :
  user_below lim root m -> is_u64 va -> Z.of_nat (length src) < 2 ^ 64 -> Forall is_byte src ->
  ubytes m root va (length src) <> None ->
  exists h', (r ← copyout root va src; r' ← copyin root va (Z.of_nat (length src)); mret (r, r')) s
             = Ret (0, (0, src)) (s <| k_heap := h' |>).
Proof using All.
  intros Hub Hd Hl Hb Hacc.
  assert (hwp (r ← copyout root va src; r' ← copyin root va (Z.of_nat (length src)); mret (r, r')) (k_heap s)
            (fun r _ => r = (0, (0, src)))) as Hw.
  { apply hwp_bind, (copyout_spec R lim root va src (k_heap s) fl lo); try done.
    intros h' _ [H1 H2 H3 H4]. pose proof (user_below_same lim root _ _ H2 Hub) as Hub'.
    apply hwp_bind, (copyin_spec R lim root va _ h' fl lo); try done; [lia| |].
    all: rewrite Nat2Z.id, (uwrite_read root va src m (mem h')); [|unfold is_u64 in *; lia|done].
    - intros bs [= <-]. apply hwp_ret. do 2 f_equal.
      rewrite <- (list_fmap_id src) at 2. apply list_fmap_ext. intros i x Hx. apply u8_small.
      apply (Forall_in _ src); [done|]. by apply list_elem_of_lookup_2 in Hx.
    - done. }
  destruct (hwp_run _ _ _ Hw Hready) as (r & h' & E & ->). by exists h'.
Qed.

(** C18. [copyinstr] returns the string at a user address, terminator included,
    exactly when it ends within [max] bytes and the process may access all of
    it; otherwise it returns -1.  It writes no memory of the process. *)
Theorem copyinstr_reads (srcva max : Z) :
  user_below lim root m -> is_u64 srcva -> 0 <= max < 2 ^ 64 ->
  exists r dst, copyinstr root srcva max s = Ret (r, dst) s /\
    match ustr m root srcva (Z.to_nat max) with
    | Some str => r = 0 /\ dst = str
    | None => r = -1
    end.
Proof using All.
  intros Hub Hd Hm.
  assert (hwp (copyinstr root srcva max) (k_heap s) (fun '(r, dst) h' => h' = k_heap s /\
    match ustr m root srcva (Z.to_nat max) with Some str => r = 0 /\ dst = str | None => r = -1 end)) as Hw.
  { apply (copyinstr_spec R lim root srcva max (k_heap s) fl lo); try done.
    - intros str Hstr. split; [done|]. subst m. by rewrite Hstr.
    - intros pre Hstr. split; [done|]. subst m. by rewrite Hstr. }
  destruct (hwp_run _ _ _ Hw Hready) as ([r dst] & h' & E & -> & H). exists r, dst.
  by rewrite E, heap_put_same.
Qed.

End properties.

End space.

(** ** A small machine

    A kernel with eight free pages and an empty page table, and the same after
    a process has grown to two pages. *)
Module Demo.

#[local] Existing Instance demo_linker.
#[local] Existing Instance demo_linker_ok.

Definition root : Z := 0x80027000.
Definition free_pages : list Z := (fun i => 0x80028000 + PGSIZE * Z.of_nat i) <$> seq 0 8.
Definition pages (p : Z) : Prop := p ∈ free_pages ++ [root].

Fixpoint link (l : list Z) (m : memory) : memory :=
  match l with
  | p :: (q :: _) as l' => link l' (store64 m p q)
  | _ => m
  end.

Definition h0 : heap := Heap (link free_pages ∅) 0x80028000 0.
Definition s0 : kstate := blank boot_ctl h0.

Lemma ready (h : heap) : kmem_ready (blank boot_ctl h).
Proof. split; [exact boot_ctl_ok|reflexivity]. Qed.

Lemma free_ok (p : Z) : p ∈ free_pages -> page_ok p.
Proof.
  unfold free_pages. intros H. apply list_elem_of_fmap in H as (i & -> & Hi). apply elem_of_seq in Hi. split.
  - rewrite Z.mul_comm, Z.mod_add; done.
  - change PHYSTOP with 0x88000000. change sym_end with 0x80026280. unfold PGSIZE. lia.
Qed.

Lemma h0_ok : heap_ok h0 free_pages.
Proof.
  split.
  - vm_compute. repeat split.
  - apply (bool_decide_eq_true_1 _). vm_compute. reflexivity.
  - apply Forall_forall. intros p Hp. apply free_ok. by apply list_elem_of_In.
Qed.

Lemma link_zero (l : list Z) (m : memory) :
  Forall (fun p => 0x80028000 <= p) l -> zero_page m root -> zero_page (link l m) root.
Proof.
  revert m. induction l as [|p [|q l] IH]; intros m Hl Hz; [done|done|].
  apply Forall_cons_1 in Hl as [Hp Hl]. apply IH; [done|]. intros x Hx.
  rewrite (store64_same_on m p q); [by apply Hz|]. unfold in_page, root, PGSIZE in Hx. lia.
Qed.

Lemma zero0 : zero_page (mem h0) root.
Proof.
  apply link_zero; [|intros x _; reflexivity]. apply Forall_forall. intros p Hp.
  apply list_elem_of_In, list_elem_of_fmap in Hp as (i & -> & _). unfold PGSIZE. lia.
Qed.

Lemma root_ok : Forall page_ok [root].
Proof. apply Forall_cons_2; [|constructor]. split; [reflexivity|]. by vm_compute. Qed.

Lemma space0 : aspace pages TRAPFRAME root h0 free_pages [].
Proof.
  apply aspace_fresh.
  - exact h0_ok.
  - apply (bool_decide_eq_true_1 _). vm_compute. reflexivity.
  - exact root_ok.
  - exact zero0.
  - by vm_compute.
  - reflexivity.
Qed.

Lemma empty0 (va : Z) : trans (mem h0) root va = None.
Proof.
  unfold trans. rewrite zero_pte_of; [done|].
  exact zero0.
Qed.

Lemma mappages_maps_witness : exists r k h',
  mappages root UART0 PGSIZE UART0 (Z.lor PTE_R PTE_W) s0 = Ret r (s0 <| k_heap := h' |>) /\ 0 <= k <= 1.
Proof.
  assert (aspace pages 0 root h0 free_pages []) as Has.
  { apply aspace_fresh; [exact h0_ok|apply (bool_decide_eq_true_1 _); vm_compute; reflexivity|exact root_ok| |by vm_compute|done].
    exact zero0. }
  destruct (mappages_maps pages 0 root s0 free_pages [] (ready h0) Has UART0 PGSIZE UART0 (Z.lor PTE_R PTE_W))
    as (r & k & h' & fl' & E & _ & _ & Hr & _).
  1-8: by vm_compute.
  - intros x _. apply empty0.
  - exists r, k, h'. split; [exact E|].
    change ((PGROUNDDOWN (UART0 + PGSIZE - 1) - PGROUNDDOWN UART0) / PGSIZE + 1) with 1 in Hr. lia.
Defined.

Lemma uvmalloc_grows_witness : exists h',
  uvmalloc root 0 5000 s0 = Ret 5000 (s0 <| k_heap := h' |>) /\
  ucell (mem h') root 8191 = Some (Z.lor user_perm PTE_V, 0).
Proof.
  destruct (uvmalloc_grows pages TRAPFRAME root s0 free_pages [] (ready h0) space0 0 5000)
    as (r & h' & fl' & E & _ & _ & Hr); [lia|by vm_compute|intros va _; apply empty0|].
  assert (match uvmalloc root 0 5000 s0 with Ret r _ => r | _ => -1 end = 5000) as Er by (vm_compute; reflexivity).
  rewrite E in Er. subst r. exists h'. split; [exact E|].
  destruct Hr as [[_ H]|[Hbad _]]; [|discriminate Hbad]. rewrite H by (split; [lia|reflexivity]). reflexivity.
Defined.

(** After [uvmalloc]: two pages, at 0 and at 4096. *)
Lemma space1 : exists h1 fl1, aspace pages TRAPFRAME root h1 fl1 [] /\ grown root 0 8192 h0 h1.
Proof.
  assert (hwp (uvmalloc root 0 5000) h0 (fun r h' => r = 0 \/ exists fl',
    aspace pages TRAPFRAME root h' fl' [] /\ grown root 0 8192 h0 h')) as Hw.
  { apply (uvmalloc_spec pages TRAPFRAME root 0 5000 h0 free_pages []); [exact space0|lia|by vm_compute| | |].
    - intros va _. apply trans_None, empty0.
    - intros h' fl' _ _ _. by left.
    - intros h' fl' Has Hg _. right. by exists fl'. }
  destruct (hwp_run _ s0 _ Hw (ready h0)) as (r & h' & E & Hr).
  assert (match uvmalloc root 0 5000 s0 with Ret r _ => r | _ => -1 end = 5000) as Er by (vm_compute; reflexivity).
  rewrite E in Er. subst r. destruct Hr as [Hbad|(fl' & H)]; [discriminate Hbad|]. exists h', fl'. exact H.
Qed.

Section grown.
Context {h1 : heap}.
Hypothesis Hg : grown root 0 8192 h0 h1.

Lemma valid1 (va : Z) : 0 <= va < 8192 -> valid (pte_of (mem h1) root va) = true.
Proof using Hg.
  intros Hva. destruct (grown_new _ _ _ _ _ Hg va) as (p & -> & Hp & _); [plia|lia|]. by apply leaf_user.
Qed.

Lemma none1 (va : Z) : 0 <= va < MAXVA -> 8192 <= va -> pte_of (mem h1) root va = 0.
Proof using Hg.
  intros Hva Hge. rewrite (grown_old _ _ _ _ _ Hg) by lia. apply zero_pte_of.
  exact zero0.
Qed.

Lemma tables1 : tables (mem h1) root 0 8192.
Proof using Hg. intros va Hva. by apply pte_valid_table, valid1. Qed.

Lemma user1 (va : Z) : 0 <= va < 8192 -> ubyte (mem h1) root va = Some 0.
Proof using Hg.
  intros Hva. destruct (grown_new _ _ _ _ _ Hg va) as (p & E & Hp & Hz); [plia|lia|].
  pose proof (page_ok_55 p Hp).
  destruct (leaf_facts p user_perm) as (_ & E1 & E2 & E3 & _); [lia|apply Hp|apply user_perm_ok|].
  unfold ubyte, user. rewrite (proj2 (Z.ltb_lt va MAXVA)) by plia. rewrite E, E2. cbn [andb].
  assert (Z.land (leaf p user_perm) PTE_U = Z.land (PTE_FLAGS (leaf p user_perm)) PTE_U) as ->
    by (unfold PTE_FLAGS; rewrite <- Z.land_assoc; reflexivity).
  rewrite E3, E1. change (truth (Z.land (Z.lor user_perm PTE_V) PTE_U)) with true. cbv iota.
  rewrite Hz; [done|]. by apply Z.mod_pos_bound.
Qed.

Lemma below1 : user_below TRAPFRAME root (mem h1).
Proof using Hg.
  intros va Hva H0. rewrite none1; [done|lia|]. assert (8192 <= TRAPFRAME) by (by vm_compute). lia.
Qed.
End grown.

Lemma uvmdealloc_shrinks_witness : exists h1 h',
  uvmdealloc root 8192 100 (blank boot_ctl h1) = Ret 100 (blank boot_ctl h') /\
  ucell (mem h1) root 5000 <> None /\ ucell (mem h') root 5000 = None.
Proof.
  destruct space1 as (h1 & fl1 & Has & Hg). exists h1.
  destruct (uvmdealloc_shrinks pages TRAPFRAME root (blank boot_ctl h1) fl1 [] (ready h1) Has 8192 100)
    as (h' & fl' & E & _ & _ & H); [lia|by vm_compute| |].
  - intros va Hva. apply (tables1 Hg). change (PGROUNDUP 100) with 4096 in Hva.
    change (PGROUNDUP 8192) with 8192 in Hva. lia.
  - exists h'. split; [exact E|]. split.
    + apply ucell_valid. by apply (valid1 Hg).
    + rewrite H by (split; [lia|reflexivity]). reflexivity.
Defined.

Lemma uvmfree_frees_witness : exists h1 h' fl',
  uvmfree root 8192 (blank boot_ctl h1) = Ret tt (blank boot_ctl h') /\ (forall p, pages p <-> p ∈ fl' ++ []).
Proof.
  destruct space1 as (h1 & fl1 & Has & Hg). exists h1.
  destruct (uvmfree_frees pages TRAPFRAME root (blank boot_ctl h1) fl1 [] (ready h1) Has 8192)
    as (h' & fl' & E & _ & _ & H & _); [split; [lia|by vm_compute]|exact (tables1 Hg)| |].
  - intros va Hva Hge. unfold trans. by rewrite (none1 Hg).
  - exists h', fl'. split; [exact E|exact H].
Defined.

Lemma access1 (h1 : heap) (va : Z) (n : nat) :
  grown root 0 8192 h0 h1 -> 0 <= va -> va + Z.of_nat n <= 8192 -> ubytes (mem h1) root va n <> None.
Proof. intros Hg Hva Hn. apply ubytes_all. intros x Hx. rewrite (user1 Hg); [done|lia]. Qed.

Lemma copyout_writes_witness : exists h1 h',
  copyout root 4094 [1; 2; 3] (blank boot_ctl h1) = Ret 0 (blank boot_ctl h') /\
  ubyte (mem h') root 4096 = Some 3.
Proof.
  destruct space1 as (h1 & fl1 & Has & Hg). exists h1.
  destruct (copyout_writes pages TRAPFRAME root (blank boot_ctl h1) fl1 [] (ready h1) Has 4094 [1; 2; 3])
    as (r & h' & E & _ & _ & _ & [(-> & _ & H)|(_ & H)]); [exact (below1 Hg)|done|done| |].
  - exists h'. split; [exact E|]. rewrite H by lia. reflexivity.
  - exfalso. apply (access1 h1 4094 3) in Hg; [|lia|lia]. exact (Hg H).
Defined.

Lemma copyout_copyin_witness : exists h1 h',
  (r ← copyout root 4094 [1; 2; 3]; r' ← copyin root 4094 3; mret (r, r')) (blank boot_ctl h1)
  = Ret (0, (0, [1; 2; 3])) (blank boot_ctl h').
Proof.
  destruct space1 as (h1 & fl1 & Has & Hg). exists h1.
  apply (copyout_copyin pages TRAPFRAME root (blank boot_ctl h1) fl1 [] (ready h1) Has 4094 [1; 2; 3]);
    [exact (below1 Hg)|done|done|by repeat (apply Forall_cons_2; [done|])|by apply access1].
Defined.

Lemma copyinstr_reads_witness : exists h1,
  copyinstr root 100 16 (blank boot_ctl h1) = Ret (0, [0]) (blank boot_ctl h1).
Proof.
  destruct space1 as (h1 & fl1 & Has & Hg). exists h1.
  destruct (copyinstr_reads pages TRAPFRAME root (blank boot_ctl h1) fl1 [] (ready h1) Has 100 16)
    as (r & dst & E & H); [exact (below1 Hg)|done|done|].
  assert (ustr (mem h1) root 100 (Z.to_nat 16) = Some [0]) as Eu.
  { change (Z.to_nat 16) with 16%nat. cbn [ustr]. rewrite (user1 Hg 100) by lia. reflexivity. }
  change (mem (k_heap (blank boot_ctl h1))) with (mem h1) in H. rewrite Eu in H. destruct H as [-> ->]. exact E.
Defined.

(** A parent of two pages and a child with an empty table. *)
Definition parent_child (new : Z) (h2 : heap) : Prop := exists R R0 fl2,
  aspace R TRAPFRAME new h2 fl2 [] /\ aspace R0 TRAPFRAME root h2 fl2 [] /\ apart R R0 fl2 /\
  (forall va, trans (mem h2) new va = None) /\ dense (mem h2) root 8192.

Lemma space2 : exists new h2, parent_child new h2.
Proof.
  assert (hwp (r ← uvmalloc root 0 5000; n ← uvmcreate; mret (r, n)) h0 (fun '(r, n) h2 =>
    r = 0 \/ n = 0 \/ parent_child n h2)) as Hw.
  { apply hwp_bind, (uvmalloc_spec pages TRAPFRAME root 0 5000 h0 free_pages []); [exact space0|lia|by vm_compute| | |].
    - intros va _. apply trans_None, empty0.
    - intros h1 fl1 Has1 _ _. apply hwp_bind.
      apply (uvmcreate_spec TRAPFRAME h1 fl1 []); [apply Has1|apply Has1|constructor|by vm_compute|done| |].
      + intros _. apply hwp_ret. by left.
      + intros. apply hwp_ret. by left.
    - intros h1 fl1 Has1 Hg _. apply hwp_bind.
      apply (uvmcreate_spec TRAPFRAME h1 fl1 []); [apply Has1|apply Has1|constructor|by vm_compute|done| |].
      + intros _. apply hwp_ret. right. by left.
      + intros new fl2 h2 Efl Has2 Hz Hf. apply hwp_ret. right. right.
        set (R := fun p => p ∈ fl1 ++ []) in *.
        assert (apart R pages fl1) as Hap by (intros p Hp _; unfold R in Hp; by rewrite app_nil_r in Hp).
        assert (forall q, R q -> page_ok q) as HRok by apply Has2.
        assert (frame R (mem h1) (mem h2)) as HfR.
        { eapply frame_mono; [exact Hf|]. intros q ->. unfold R. rewrite Efl. by left. }
        exists R, (rest pages fl1 fl2), fl2. split_and!.
        * exact Has2.
        * exact (other_aspace (lim := TRAPFRAME) (root := new) (lo' := []) Has1 Hap HRok HfR Has2).
        * intros p Hp [[_ Hn]|Hp']; [|done]. unfold R in Hp. by rewrite app_nil_r in Hp.
        * intros va. unfold trans. by rewrite Hz.
        * intros va Hva. exists va. split_and!; [lia|lia|done|done|].
          rewrite (other_pte_of Has1 Hap HRok HfR). apply (valid1 Hg va Hva). }
  destruct (hwp_run _ s0 _ Hw (ready h0)) as ([r n] & h2 & E & Hr).
  assert (match (r ← uvmalloc root 0 5000; n ← uvmcreate; mret (r, n)) s0 with
          | Ret (r, n) _ => (r =? 0) || (n =? 0) | _ => true end = false) as Er by (vm_compute; reflexivity).
  rewrite E in Er. apply orb_false_elim in Er as [Er En]. rewrite Z.eqb_neq in Er, En.
  destruct Hr as [Hr|[Hr|Hr]]; [contradiction|contradiction|]. exists n, h2. exact Hr.
Qed.

Lemma uvmcopy_copies_witness : exists new h2 r h',
  uvmcopy root new 5000 (blank boot_ctl h2) = Ret r (blank boot_ctl h') /\
  (forall va, 0 <= va < TRAPFRAME -> ucell (mem h') root va = ucell (mem h2) root va).
Proof.
  destruct space2 as (new & h2 & R & R0 & fl2 & Has & Has0 & Hap & Hz & Hd). exists new, h2.
  destruct (uvmcopy_copies R TRAPFRAME new (blank boot_ctl h2) fl2 [] (ready h2) Has R0 [] root 5000)
    as (r & h' & fl' & E & _ & _ & H & _); [exact Has0|exact Hap|by vm_compute|intros va _; apply Hz|exact Hd|].
  exists r, h'. split; [exact E|exact H].
Defined.

End Demo.
