(* ===== verification/Proc.v ===== *)
(** * Processes and scheduling (kernel/proc.c)

    The process table: allocating and freeing a process, its page table,
    growing it, giving up the processor, sleeping and waking, killing and
    waiting.  [fork], [exit] and the first process use the file system too and
    are in Fork.v.

    A context switch hands the kernel state to the rest of the system: other
    processes and the scheduler run until this one is chosen again.  The class
    [Env] stands for what they do meanwhile, any function of the state and of
    the number of switches so far, and every function that may sleep takes it
    as an argument. *)
From S2P Require Import Prelude Memory Riscv State Spinlock Cstring Kalloc Vm.

#[export] Instance proc_inhabited : Inhabited proc :=
  populate (Proc UNUSED Ch0 0 0 0 None 0 0 0 0 (Context_ 0 0 []) [] None [] []).

(** What the rest of the system does: while process [p] does not run, and
    while the scheduler has handed the processor to process [p].  [None] is a
    switch that never comes back. *)
Class Env := {
  env_away : nat -> nat -> kstate -> option kstate;
  env_run : nat -> nat -> kstate -> option kstate;
}.

(** ** Accesses to the process table *)
Definition get_proc (p : nat) : M proc := gets (fun s => procs (k_pt s) !!! p).
Definition upd_proc (p : nat) (f : proc -> proc) : M unit :=
  modify (fun s => s <| k_pt := (k_pt s) <| procs := alter f p (procs (k_pt s)) |> |>).

Definition all_procs : list nat := seq 0 NPROC.

Definition myproc : M (option nat) :=
  push_off;;
  c ← mycpu;
  v ← get_cpu c;
  let p := c_proc v in
  pop_off;;
  mret p.

(** A pointer that is dereferenced: a null pointer faults in the kernel, and
    [kerneltrap] panics. *)
Definition deref (p : option nat) : M nat :=
  match p with Some p => mret p | None => panic "kerneltrap" end.
Definition curproc : M nat := p ← myproc; deref p.

Definition procinit : M unit :=
  put_lock L_pid initlock;;
  put_lock L_wait initlock;;
  for_each all_procs (fun p =>
    put_lock (L_proc p) initlock;;
    upd_proc p (fun v => v <| p_kstack := KSTACK (Z.of_nat p) |>)).

Definition allocpid : M Z :=
  acquire L_pid;;
  pid ← gets (fun s => nextpid (k_pt s));
  modify (fun s => s <| k_pt := (k_pt s) <| nextpid := i32 (pid + 1) |> |>);;
  release L_pid;;
  mret pid.

(** ** Giving up the processor *)
Section switching.
Context {E : Env}.

(** [swtch], from a process to the scheduler and, in the end, back. *)
Definition swtch (p : nat) : M unit := fun s =>
  match env_away (k_switches s) p (s <| k_switches := S (k_switches s) |>) with
  | Some s' => Ret tt s'
  | None => Blocked
  end.
(** [swtch], from the scheduler to a process and back. *)
Definition swtch_to (p : nat) : M unit := fun s =>
  match env_run (k_switches s) p (s <| k_switches := S (k_switches s) |>) with
  | Some s' => Ret tt s'
  | None => Blocked
  end.

Definition sched : M unit :=
  p ← curproc;
  h ← holding (L_proc p);
  if negb h then panic "sched p->lock" else
  c ← mycpu;
  v ← get_cpu c;
  if negb (c_noff v =? 1) then panic "sched locks" else
  pr ← get_proc p;
  if bool_decide (p_state pr = RUNNING) then panic "sched running" else
  i ← intr_get;
  if i : bool then panic "sched interruptible" else
  c ← mycpu;
  v ← get_cpu c;
  let intena := c_intena v in
  swtch p;;
  c ← mycpu;
  v ← get_cpu c;
  put_cpu c (v <| c_intena := intena |>).

Definition yield : M unit :=
  p ← curproc;
  acquire (L_proc p);;
  upd_proc p (fun v => v <| p_state := RUNNABLE |>);;
  sched;;
  release (L_proc p).

Definition sleep (ch : chan) (lk : lock_id) : M unit :=
  p ← curproc;
  acquire (L_proc p);;
  release lk;;
  upd_proc p (fun v => v <| p_chan := ch |>);;
  upd_proc p (fun v => v <| p_state := SLEEPING |>);;
  sched;;
  upd_proc p (fun v => v <| p_chan := Ch0 |>);;
  release (L_proc p);;
  acquire lk.

(** One round of [scheduler] over the process table, on processor [c]. *)
Definition scheduler_round (c : nat) : M unit :=
  intr_on;;
  for_each all_procs (fun p =>
    acquire (L_proc p);;
    pr ← get_proc p;
    (if bool_decide (p_state pr = RUNNABLE) then
       upd_proc p (fun v => v <| p_state := RUNNING |>);;
       v ← get_cpu c;
       put_cpu c (v <| c_proc := Some p |>);;
       swtch_to p;;
       v ← get_cpu c;
       put_cpu c (v <| c_proc := None |>)
     else mret tt);;
    release (L_proc p)).
Definition scheduler : M unit :=
  c ← mycpu;
  v ← get_cpu c;
  put_cpu c (v <| c_proc := None |>);;
  loop (fun _ => scheduler_round c;; mret (inl tt)) tt.

End switching.

Definition wakeup (ch : chan) : M unit :=
  for_each all_procs (fun p =>
    me ← myproc;
    if bool_decide (Some p = me) then mret tt else
    acquire (L_proc p);;
    pr ← get_proc p;
    (if bool_decide (p_state pr = SLEEPING) && bool_decide (p_chan pr = ch)
     then upd_proc p (fun v => v <| p_state := RUNNABLE |>) else mret tt);;
    release (L_proc p)).

Definition kill (pid : Z) : M Z :=
  r ← for_until all_procs (fun p =>
    acquire (L_proc p);;
    pr ← get_proc p;
    if p_pid pr =? pid then
      upd_proc p (fun v => v <| p_killed := 1 |>);;
      (if bool_decide (p_state pr = SLEEPING)
       then upd_proc p (fun v => v <| p_state := RUNNABLE |>) else mret tt);;
      release (L_proc p);;
      mret (Some 0)
    else release (L_proc p);; mret None);
  mret (default (-1) r).

(** ** Memory of a process *)
Section memory.
Context {L : Linker}.

Definition proc_pagetable (p : nat) : M Z :=
  pagetable ← uvmcreate;
  if pagetable =? 0 then mret 0 else
  r ← mappages pagetable TRAMPOLINE PGSIZE sym_trampoline (Z.lor PTE_R PTE_X);
  if r <? 0 then uvmfree pagetable 0;; mret 0 else
  pr ← get_proc p;
  r ← mappages pagetable TRAPFRAME PGSIZE (p_trapframe pr) (Z.lor PTE_R PTE_W);
  if r <? 0 then
    uvmunmap pagetable TRAMPOLINE 1 false;;
    uvmfree pagetable 0;;
    mret 0
  else mret pagetable.

Definition proc_freepagetable (pagetable sz : Z) : M unit :=
  uvmunmap pagetable TRAMPOLINE 1 false;;
  uvmunmap pagetable TRAPFRAME 1 false;;
  uvmfree pagetable sz.

Definition freeproc (p : nat) : M unit :=
  pr ← get_proc p;
  (if truth (p_trapframe pr) then kfree (p_trapframe pr) else mret tt);;
  upd_proc p (fun v => v <| p_trapframe := 0 |>);;
  pr ← get_proc p;
  (if truth (p_pagetable pr) then proc_freepagetable (p_pagetable pr) (p_sz pr) else mret tt);;
  upd_proc p (fun v => v <| p_pagetable := 0 |> <| p_sz := 0 |> <| p_pid := 0 |>
    <| p_parent := None |> <| p_name := <[ 0%nat := 0 ]> (p_name v) |> <| p_chan := Ch0 |>
    <| p_killed := 0 |> <| p_xstate := 0 |> <| p_state := UNUSED |>).

Definition allocproc : M (option nat) :=
  found ← for_until all_procs (fun p =>
    acquire (L_proc p);;
    pr ← get_proc p;
    if bool_decide (p_state pr = UNUSED) then mret (Some p)
    else release (L_proc p);; mret None);
  match found with
  | None => mret None
  | Some p =>
      pid ← allocpid;
      upd_proc p (fun v => v <| p_pid := pid |>);;
      upd_proc p (fun v => v <| p_state := USED |>);;
      tf ← kalloc;
      upd_proc p (fun v => v <| p_trapframe := tf |>);;
      if tf =? 0 then freeproc p;; release (L_proc p);; mret None else
      pagetable ← proc_pagetable p;
      upd_proc p (fun v => v <| p_pagetable := pagetable |>);;
      if pagetable =? 0 then freeproc p;; release (L_proc p);; mret None else
      upd_proc p (fun v => v <| p_context := Context_ sym_forkret (p_kstack v + PGSIZE) (replicate 12 0) |>);;
      mret (Some p)
  end.

(** [sz] is a [uint]: sizes and sums are cut to 32 bits. *)
Definition growproc (n : Z) : M Z :=
  p ← curproc;
  pr ← get_proc p;
  let sz := u32 (p_sz pr) in
  if 0 <? n then
    sz ← uvmalloc (p_pagetable pr) sz (u32 (sz + n));
    let sz := u32 sz in
    if sz =? 0 then mret (-1) else
    upd_proc p (fun v => v <| p_sz := sz |>);; mret 0
  else if n <? 0 then
    sz ← uvmdealloc (p_pagetable pr) sz (u32 (sz + n));
    upd_proc p (fun v => v <| p_sz := u32 sz |>);; mret 0
  else
    upd_proc p (fun v => v <| p_sz := sz |>);; mret 0.

(** ** Copies to and from a user or a kernel address *)

(** A destination: a user address, a kernel address, or a variable of the
    caller, which takes the bytes from the result of the copying function. *)
Inductive dest := ToUser (va : Z) | ToKernel (pa : Z) | ToVar.
(** A source: a user address, or the bytes at a kernel address. *)
Inductive source := FromUser (va : Z) | FromKernel (bs : list Z).

Definition either_copyout (d : dest) (src : list Z) : M Z :=
  p ← myproc;
  match d with
  | ToUser va =>
      p ← deref p;
      pr ← get_proc p;
      copyout (p_pagetable pr) va src
  | ToKernel pa => m ← get_mem; put_mem (store m pa src);; mret 0
  | ToVar => mret 0
  end.

Definition either_copyin (s : source) (len : Z) : M (Z * list Z) :=
  p ← myproc;
  match s with
  | FromUser va =>
      p ← deref p;
      pr ← get_proc p;
      copyin (p_pagetable pr) va len
  | FromKernel bs => mret (0, take (Z.to_nat len) bs)
  end.

Definition dest_add (d : dest) (n : Z) : dest :=
  match d with ToUser va => ToUser (u64 (va + n)) | ToKernel pa => ToKernel (u64 (pa + n)) | ToVar => ToVar end.
Definition source_add (s : source) (n : Z) : source :=
  match s with FromUser va => FromUser (u64 (va + n)) | FromKernel bs => FromKernel (drop (Z.to_nat n) bs) end.

(** ** Parents and children *)
Definition reparent (p : nat) : M unit :=
  for_each all_procs (fun pp =>
    pr ← get_proc pp;
    if bool_decide (p_parent pr = Some p) then
      i ← gets (fun s => initproc (k_pt s));
      upd_proc pp (fun v => v <| p_parent := i |>);;
      match i with Some i => wakeup (ChProc i) | None => wakeup Ch0 end
    else mret tt).

Context {E : Env}.

(** The scan of [wait] over the table: a child that has exited ([inl], with
    the result of [wait]) or whether there are children at all ([inr]). *)
Definition wait_scan (p : nat) (addr : Z) : M (Z + bool) :=
  loop (fun '(np, havekids) =>
    if negb (np <? NPROC)%nat then mret (inr (inr havekids)) else
    pr ← get_proc np;
    if negb (bool_decide (p_parent pr = Some p)) then mret (inl (S np, havekids)) else
    acquire (L_proc np);;
    pr ← get_proc np;
    if bool_decide (p_state pr = ZOMBIE) then
      let pid := p_pid pr in
      me ← get_proc p;
      r ← (if negb (addr =? 0) then copyout (p_pagetable me) addr (le_split 4 (p_xstate pr))
           else mret 0);
      if r <? 0 then release (L_proc np);; release L_wait;; mret (inr (inl (-1))) else
      freeproc np;;
      release (L_proc np);;
      release L_wait;;
      mret (inr (inl pid))
    else
    release (L_proc np);;
    mret (inl (S np, true))) (O, false).

Definition wait (addr : Z) : M Z :=
  p ← curproc;
  acquire L_wait;;
  loop (fun _ : unit =>
    r ← wait_scan p addr;
    match r with
    | inl v => mret (inr v)
    | inr havekids =>
        pr ← get_proc p;
        if negb havekids || truth (p_killed pr) then release L_wait;; mret (inr (-1)) else
        sleep (ChProc p) L_wait;;
        mret (inl tt)
    end) tt.

End memory.
