(* ===== verification/ProcSpec.v ===== *)
(** * Waking, killing and scheduling (theorems on kernel/proc.c)

    [wakeup] makes exactly the processes that sleep on the channel runnable,
    [kill] marks the first process with the pid, one round of the scheduler
    runs every runnable process, and [sleep] gives up its lock and takes it
    again around the switch.  How the steps of [sleep] and [wakeup] on several
    harts interleave is the subject of [SleepWake]. *)
From S2P Require Import Prelude Memory Riscv State Spinlock Kalloc Steps Vm Proc.

(** The process on this processor. *)
Definition cur (c : ctl) : option nat := c_proc (this_cpu c).

Lemma cur_pushed (c : ctl) : cpu_ok c -> cur (pushed c) = cur c.
Proof.
  intros Hc. unfold cur, this_cpu. change (hart (pushed c)) with (hart c).
  cbn [pushed cpus set_with set_cpus set_sstatus]. by rewrite this_cpu_insert.
Qed.

Lemma cur_locked (l : lock_id) (c : ctl) : cpu_ok c -> cur (locked_ctl l c) = cur c.
Proof. exact (cur_pushed c). Qed.

Section steps.
Context {h : heap} {pt : ptable} {ft : ftable} {fs : fsys} {vd : vdisk} {dev : devs} {n : nat}.

Lemma kmyproc (c : ctl) (Q : option nat -> kstate -> Prop) :
  cpu_ok c -> Q (cur c) (KState c h pt ft fs vd dev n) ->
  runs myproc (KState c h pt ft fs vd dev n) Q.
Proof.
  intros Hc HQ. unfold myproc. apply runs_bind. eapply runs_eq; [by apply push_off_spec|]. kred.
  do 4 kstep. kstep. eapply runs_eq; [by apply (pop_off_spec _ c)|]. kred.
  kstep. change (Q (cur (pushed c)) (KState c h pt ft fs vd dev n)). by rewrite cur_pushed.
Qed.

Lemma kcurproc (c : ctl) (p : nat) (Q : nat -> kstate -> Prop) :
  cpu_ok c -> cur c = Some p -> Q p (KState c h pt ft fs vd dev n) ->
  runs curproc (KState c h pt ft fs vd dev n) Q.
Proof.
  intros Hc Hp HQ. unfold curproc. kstep. apply kmyproc; [done|]. rewrite Hp. by kstep.
Qed.

End steps.

(** ** wakeup *)
Definition wake (ch : chan) (v : proc) : proc :=
  if bool_decide (p_state v = SLEEPING) && bool_decide (p_chan v = ch)
  then v <| p_state := RUNNABLE |> else v.

(** The table after a wakeup of the processes from number [k] on. *)
Definition woken (ch : chan) (me : option nat) (k : nat) (ps : list proc) : list proc :=
  imap (fun i v => if bool_decide (Some i = me) || bool_decide (k <= i)%nat then v else wake ch v) ps.

Lemma lookup_woken (ch : chan) (me : option nat) (k i : nat) (ps : list proc) :
  woken ch me k ps !! i =
    (fun v => if bool_decide (Some i = me) || bool_decide (k <= i)%nat then v else wake ch v) <$> ps !! i.
Proof. unfold woken. by rewrite list_lookup_imap. Qed.

Lemma woken_0 (ch : chan) (me : option nat) (ps : list proc) : woken ch me 0 ps = ps.
Proof.
  apply list_eq. intros i. rewrite lookup_woken. rewrite (bool_decide_true (0 <= i)%nat) by lia.
  rewrite orb_true_r. by destruct (ps !! i).
Qed.

Lemma woken_S (ch : chan) (me : option nat) (k : nat) (ps : list proc) :
  woken ch me (S k) ps =
    if bool_decide (Some k = me) then woken ch me k ps else alter (wake ch) k (woken ch me k ps).
Proof.
  apply list_eq. intros i. rewrite lookup_woken. destruct (decide (i = k)) as [->|Hne].
  - rewrite (bool_decide_false (S k <= k)%nat) by lia. rewrite orb_false_r.
    destruct (bool_decide (Some k = me)) eqn:B.
    + rewrite lookup_woken, B. done.
    + rewrite list_lookup_alter_eq, lookup_woken, B, (bool_decide_true (k <= k)%nat) by lia.
      by destruct (ps !! k).
  - replace (bool_decide (S k <= i)%nat) with (bool_decide (k <= i)%nat) by (apply bool_decide_ext; lia).
    destruct (bool_decide (Some k = me)); [by rewrite lookup_woken|].
    by rewrite list_lookup_alter_ne, lookup_woken.
Qed.

Definition wake_all (ch : chan) (me : option nat) (ps : list proc) : list proc :=
  imap (fun i v => if bool_decide (Some i = me) then v else wake ch v) ps.

Lemma woken_all (ch : chan) (me : option nat) (ps : list proc) :
  length ps = NPROC -> woken ch me NPROC ps = wake_all ch me ps.
Proof.
  intros Hl. apply list_eq. intros i. rewrite lookup_woken. unfold wake_all. rewrite list_lookup_imap.
  destruct (ps !! i) as [v|] eqn:E; [|done]. cbn. apply lookup_lt_Some in E.
  rewrite (bool_decide_false (NPROC <= i)%nat) by lia. by rewrite orb_false_r.
Qed.

Lemma lookup_wake_all (ch : chan) (me : option nat) (ps : list proc) (i : nat) :
  wake_all ch me ps !! i = (fun v => if bool_decide (Some i = me) then v else wake ch v) <$> ps !! i.
Proof. unfold wake_all. by rewrite list_lookup_imap. Qed.

Lemma length_wake_all (ch : chan) (me : option nat) (ps : list proc) :
  length (wake_all ch me ps) = length ps.
Proof. unfold wake_all. apply length_imap. Qed.

Lemma set_procs_id (pt : ptable) : pt <| procs := procs pt |> = pt.
Proof. by destruct pt. Qed.

Lemma set_procs_twice (pt : ptable) (a b : list proc) : pt <| procs := a |> <| procs := b |> = pt <| procs := b |>.
Proof. by destruct pt. Qed.

Section wakeup.
Context {h : heap} {pt : ptable} {ft : ftable} {fs : fsys} {vd : vdisk} {dev : devs} {n : nat}.

(** One step of the loop of [wakeup]. *)
Lemma wake_step (ch : chan) (c : ctl) (i : nat) (ps : list proc) (Q : unit -> kstate -> Prop) :
  cpu_ok c -> (forall i, lock_free (L_proc i) c) ->
  Q tt (KState c h (pt <| procs := alter (wake ch) i ps |>) ft fs vd dev n) ->
  runs (acquire (L_proc i);;
        pr ← get_proc i;
        (if bool_decide (p_state pr = SLEEPING) && bool_decide (p_chan pr = ch)
         then upd_proc i (fun v => v <| p_state := RUNNABLE |>) else mret tt);;
        release (L_proc i)) (KState c h (pt <| procs := ps |>) ft fs vd dev n) Q.
Proof.
  intros Hc Hf HQ. do 2 kstep. kstep. kstep. kstep.
  assert (forall ps', ps' = alter (wake ch) i ps ->
    runs (release (L_proc i)) (KState (locked_ctl (L_proc i) c) h (pt <| procs := ps' |>) ft fs vd dev n) Q) as Hr.
  { intros ps' ->. apply krelease; [done|by apply Hf|done]. }
  cbn [procs set_with set_procs].
  destruct (bool_decide (p_state (ps !!! i) = SLEEPING) && bool_decide (p_chan (ps !!! i) = ch)) eqn:B.
  - apply runs_modify. kred. apply (Hr (alter _ i ps)). apply alter_ext_total. unfold wake. by rewrite B.
  - apply runs_ret. apply (Hr ps). symmetry. apply alter_id_total. unfold wake. by rewrite B.
Qed.

Lemma kwakeup (ch : chan) (c : ctl) (Q : unit -> kstate -> Prop) :
  cpu_ok c -> (forall i, lock_free (L_proc i) c) -> length (procs pt) = NPROC ->
  Q tt (KState c h (pt <| procs := wake_all ch (cur c) (procs pt) |>) ft fs vd dev n) ->
  runs (wakeup ch) (KState c h pt ft fs vd dev n) Q.
Proof.
  intros Hc Hf Hl HQ. unfold wakeup, all_procs.
  apply (runs_for_each (fun l s => exists k, l = seq k (NPROC - k) /\ (k <= NPROC)%nat /\
    s = KState c h (pt <| procs := woken ch (cur c) k (procs pt) |>) ft fs vd dev n)).
  - exists 0%nat. split_and!; [done|lia|]. by rewrite woken_0, set_procs_id.
  - intros i l s (k & E & Hk & ->). destruct (NPROC - k)%nat as [|j] eqn:Ej; [discriminate E|].
    cbn [seq] in E. injection E as -> ->. kstep. apply kmyproc; [done|].
    destruct (bool_decide (Some k = cur c)) eqn:B.
    + kstep. exists (S k). rewrite woken_S, B. split_and!; [f_equal; lia|lia|done].
    + apply wake_step; [done..|]. exists (S k). rewrite woken_S, B. split_and!; [f_equal; lia|lia|done].
  - intros s (k & E & Hk & ->). destruct (NPROC - k)%nat as [|j] eqn:Ej; [|discriminate E].
    replace k with NPROC by lia. by rewrite woken_all.
Qed.

End wakeup.

Definition procs_ok (pt : ptable) : Prop := length (procs pt) = NPROC.

(** What a wakeup may have done to the process table. *)
Definition wakes (ch : chan) (me : option nat) (pt pt' : ptable) : Prop :=
  pt' = pt \/ pt' = pt <| procs := wake_all ch me (procs pt) |>.

Lemma wake_idem (ch : chan) (v : proc) : wake ch (wake ch v) = wake ch v.
Proof.
  unfold wake. destruct (bool_decide (p_state v = SLEEPING) && bool_decide (p_chan v = ch)) eqn:B; [|by rewrite B].
  cbn. done.
Qed.

Lemma wake_all_idem (ch : chan) (me : option nat) (ps : list proc) :
  wake_all ch me (wake_all ch me ps) = wake_all ch me ps.
Proof.
  apply list_eq. intros i. rewrite !lookup_wake_all. destruct (ps !! i) as [v|]; [|done]. cbn.
  destruct (bool_decide (Some i = me)); [done|]. by rewrite wake_idem.
Qed.

Lemma wakes_refl (ch : chan) (me : option nat) (pt : ptable) : wakes ch me pt pt.
Proof. by left. Qed.

Lemma wakes_step (ch : chan) (me : option nat) (pt pt' : ptable) :
  wakes ch me pt pt' -> wakes ch me pt (pt' <| procs := wake_all ch me (procs pt') |>).
Proof.
  intros [->| ->]; right; [done|]. rewrite set_procs_twice. cbn [procs set_with set_procs].
  by rewrite wake_all_idem.
Qed.

Lemma wakes_ok (ch : chan) (me : option nat) (pt pt' : ptable) :
  wakes ch me pt pt' -> procs_ok pt -> procs_ok pt'.
Proof. unfold procs_ok. intros [->| ->]; [done|]. cbn. by rewrite length_wake_all. Qed.

Lemma lookup_total_proc (pt : ptable) (i : nat) :
  procs_ok pt -> (i < NPROC)%nat -> procs pt !! i = Some (procs pt !!! i).
Proof. intros Hp Hi. apply list_lookup_lookup_total_lt. by rewrite Hp. Qed.

(** [wakeup] wakes exactly the right processes: it returns with every
    process other than the caller that sleeps on the channel made runnable,
    and every other process, every lock and everything else as it was. *)
Theorem wakeup_wakes (ch : chan) (s : kstate) :
  cpu_ok (k_ctl s) -> (forall i, lock_free (L_proc i) (k_ctl s)) -> procs_ok (k_pt s) ->
  exists ps, wakeup ch s = Ret tt (s <| k_pt := (k_pt s) <| procs := ps |> |>) /\
    length ps = NPROC /\
    forall i v, procs (k_pt s) !! i = Some v ->
      (p_state v = SLEEPING /\ p_chan v = ch /\ cur (k_ctl s) <> Some i ->
         ps !! i = Some (v <| p_state := RUNNABLE |>)) /\
      (~ (p_state v = SLEEPING /\ p_chan v = ch /\ cur (k_ctl s) <> Some i) -> ps !! i = Some v).
Proof.
  destruct s as [c h pt ft fs vd dev n]. cbn [k_ctl k_pt]. intros Hc Hf Hl.
  exists (wake_all ch (cur c) (procs pt)). split; [|split].
  - assert (runs (wakeup ch) (KState c h pt ft fs vd dev n) (fun _ s' =>
      s' = KState c h (pt <| procs := wake_all ch (cur c) (procs pt) |>) ft fs vd dev n)) as H
      by (by apply kwakeup).
    apply runs_inv in H as ([] & s' & E & ->). exact E.
  - by rewrite length_wake_all.
  - intros i v Hv. rewrite lookup_wake_all, Hv. cbn. unfold wake. split.
    + intros (H1 & H2 & H3). rewrite bool_decide_false by congruence. by rewrite !bool_decide_true.
    + intros Hn. destruct (bool_decide_reflect (Some i = cur c)) as [|H3]; [done|].
      destruct (bool_decide_reflect (p_state v = SLEEPING)) as [H1|]; [|done].
      destruct (bool_decide_reflect (p_chan v = ch)) as [H2|]; [|done].
      contradict Hn. split_and!; [done|done|congruence].
Qed.

(** ** kill *)
Definition killed (v : proc) : proc :=
  let v := v <| p_killed := 1 |> in
  if bool_decide (p_state v = SLEEPING) then v <| p_state := RUNNABLE |> else v.

Lemma runs_kill (pid : Z) (c : ctl) h pt ft fs vd dev n (Q : Z -> kstate -> Prop) :
  cpu_ok c -> (forall i, lock_free (L_proc i) c) -> procs_ok pt ->
  ((forall i v, procs pt !! i = Some v -> p_pid v <> pid) ->
     Q (-1) (KState c h pt ft fs vd dev n)) ->
  (forall i v, procs pt !! i = Some v -> p_pid v = pid ->
     (forall j w, (j < i)%nat -> procs pt !! j = Some w -> p_pid w <> pid) ->
     Q 0 (KState c h (pt <| procs := alter killed i (procs pt) |>) ft fs vd dev n)) ->
  runs (kill pid) (KState c h pt ft fs vd dev n) Q.
Proof.
  intros Hc Hf Hl Hnone Hsome. unfold kill, all_procs. kstep.
  apply (runs_for_until (fun l s => exists k, l = seq k (NPROC - k) /\ (k <= NPROC)%nat /\
    (forall j w, (j < k)%nat -> procs pt !! j = Some w -> p_pid w <> pid) /\
    s = KState c h pt ft fs vd dev n)).
  - exists 0%nat. split_and!; [done|lia|lia|done].
  - intros i l s (k & E & Hk & Hlt & ->). destruct (NPROC - k)%nat as [|j] eqn:Ej; [discriminate E|].
    cbn [seq] in E. injection E as -> ->.
    pose proof (lookup_total_proc pt k Hl ltac:(lia)) as Hv.
    kstep. apply kacquire; [done|by apply Hf|]. kstep. kstep.
    destruct (Z.eqb_spec (p_pid (procs pt !!! k)) pid) as [Hp|Hp].
    + assert (alter killed k (procs pt) =
        if bool_decide (p_state (procs pt !!! k) = SLEEPING)
        then alter (fun v => v <| p_state := RUNNABLE |>) k (alter (fun v => v <| p_killed := 1 |>) k (procs pt))
        else alter (fun v => v <| p_killed := 1 |>) k (procs pt)) as Ek.
      { destruct (bool_decide _) eqn:B; rewrite ?list_alter_alter_eq; apply alter_ext_total;
          unfold killed; cbn [p_state set_with set_p_killed compose]; by rewrite B. }
      specialize (Hsome k _ Hv Hp Hlt). rewrite Ek in Hsome.
      destruct (bool_decide _); ksteps; exact Hsome.
    + ksteps. exists (S k). split_and!; [f_equal; lia|lia| |done].
      intros j' w Hj Hw. destruct (decide (j' = k)) as [->|]; [|apply (Hlt j'); [lia|done]].
      rewrite Hv in Hw. by injection Hw as <-.
  - intros s (k & E & Hk & Hlt & ->). destruct (NPROC - k)%nat as [|j] eqn:Ej; [|discriminate E].
    kstep. apply Hnone. intros i v Hv. apply (Hlt i); [|done]. apply lookup_lt_Some in Hv. unfold procs_ok in Hl. lia.
Qed.

(** [kill] marks the first process of the table with the given pid, and
    wakes it when it sleeps, so that it can notice; it returns 0 and changes
    nothing else.  When there is no such process it returns -1 and changes
    nothing. *)
Theorem kill_marks (pid : Z) (s : kstate) :
  cpu_ok (k_ctl s) -> (forall i, lock_free (L_proc i) (k_ctl s)) -> procs_ok (k_pt s) ->
  runs (kill pid) s (fun r s' =>
    (r = -1 /\ s' = s /\ forall i v, procs (k_pt s) !! i = Some v -> p_pid v <> pid) \/
    (r = 0 /\ exists i v v', procs (k_pt s) !! i = Some v /\ p_pid v = pid /\
       (forall j w, (j < i)%nat -> procs (k_pt s) !! j = Some w -> p_pid w <> pid) /\
       s' = s <| k_pt := (k_pt s) <| procs := <[ i := v' ]> (procs (k_pt s)) |> |> /\
       p_killed v' = 1 /\ p_state v' = (if decide (p_state v = SLEEPING) then RUNNABLE else p_state v) /\
       v' <| p_killed := p_killed v |> <| p_state := p_state v |> = v)).
Proof.
  destruct s as [c h pt ft fs vd dev n]. cbn [k_ctl k_pt]. intros Hc Hf Hl.
  apply runs_kill; [done..| |].
  - intros Hno. by left.
  - intros i v Hv Hp Hlt. right. split; [done|]. exists i, v, (killed v). split_and!; [done..| | | |].
    + rewrite list_insert_alter. rewrite (alter_ext_total killed (fun _ => killed v)); [done|].
      by rewrite (list_lookup_total_correct _ _ _ Hv).
    + unfold killed. by destruct (bool_decide _).
    + unfold killed. cbn. by case_bool_decide; case_decide.
    + unfold killed. destruct (bool_decide _); by destruct v.
Qed.

(** ** Sleeping *)

(** No lock is held and the nesting depth is zero: where a process may sleep. *)
Definition idle (c : ctl) : Prop := calm c /\ c_noff (this_cpu c) = 0.

Lemma idle_calm (c : ctl) : idle c -> calm c.
Proof. by intros [? _]. Qed.
#[export] Hint Resolve idle_calm : kernel.

Lemma this_cpu_pushed (c : ctl) :
  cpu_ok c -> this_cpu (pushed c) = (this_cpu c) <| c_noff := c_noff (this_cpu c) + 1 |>.
Proof. intros Hc. exact (this_cpu_insert c _ Hc). Qed.

Lemma pushed_twice (c : ctl) (a b : lock_id) :
  locked_ctl a (locked_ctl b c) = (pushed (pushed c)) <| locks :=
    <[ a := Spinlock 1 (Some (hart c)) ]> (<[ b := Spinlock 1 (Some (hart c)) ]> (locks c)) |>.
Proof. by destruct c. Qed.

Lemma locked_comm (c : ctl) (a b : lock_id) :
  a <> b -> locked_ctl a (locked_ctl b c) = locked_ctl b (locked_ctl a c).
Proof. intros Hne. rewrite !pushed_twice. by rewrite insert_insert_ne. Qed.

(** A control state with the interrupt flag set to [b], outside any critical
    section. *)
Definition with_sie (b : bool) (c : ctl) : ctl :=
  c <| sstatus := (if b then Z.lor (Z.land (sstatus c) (Z.lnot SSTATUS_SIE)) SSTATUS_SIE
                   else Z.land (sstatus c) (Z.lnot SSTATUS_SIE)) |>
    <| cpus := <[ hart c := (this_cpu c) <| c_intena := Z.b2z b |> ]> (cpus c) |>.

Lemma this_cpu_with_sie (b : bool) (c : ctl) :
  cpu_ok c -> this_cpu (with_sie b c) = (this_cpu c) <| c_intena := Z.b2z b |>.
Proof. intros Hc. exact (this_cpu_insert c _ Hc). Qed.

Lemma sie_with_sie (b : bool) (c : ctl) : sie (with_sie b c) = b.
Proof.
  unfold sie, with_sie. cbn [sstatus set_with set_sstatus set_cpus]. rewrite sie_testbit. destruct b.
  - by rewrite Z.lor_spec, testbit_sie, orb_true_r.
  - apply sie_cleared.
Qed.

Lemma idle_with_sie (b : bool) (c : ctl) : idle c -> idle (with_sie b c).
Proof.
  intros [[Hc Hl] Hn]. pose proof (this_cpu_with_sie b c Hc) as E.
  split; [split|]; [|done|by rewrite E].
  split; rewrite ?E; rewrite ?sie_with_sie; cbn [c_noff c_intena set_with set_c_intena].
  - apply Hc.
  - cbn [with_sie cpus set_with set_cpus]. rewrite length_insert. apply Hc.
  - lia.
  - cbn [with_sie sstatus set_with set_sstatus set_cpus]. pose proof (cpu_sstatus c Hc). destruct b.
    + apply Z.lor_nonneg. split; [|done]. apply Z.land_nonneg. by left.
    + apply Z.land_nonneg. by left.
  - lia.
  - done.
Qed.

Lemma cur_with_sie (b : bool) (c : ctl) : cpu_ok c -> cur (with_sie b c) = cur c.
Proof. intros Hc. unfold cur. by rewrite this_cpu_with_sie. Qed.

(** Restoring [intena] inside the critical section. *)
Lemma locked_with_sie (l : lock_id) (b : bool) (c : ctl) :
  cpu_ok c ->
  (locked_ctl l c) <| cpus := <[ hart c := (this_cpu (locked_ctl l c)) <| c_intena := Z.b2z b |> ]>
    (cpus (locked_ctl l c)) |> = locked_ctl l (with_sie b c).
Proof.
  intros Hc. change (this_cpu (locked_ctl l c)) with (this_cpu (pushed c)). rewrite this_cpu_pushed by done.
  unfold locked_ctl, pushed. rewrite this_cpu_with_sie by done.
  change (hart (with_sie b c)) with (hart c).
  cbn [with_sie cpus sstatus locks set_with set_cpus set_sstatus set_locks].
  rewrite !list_insert_insert_eq.
  replace (Z.land (if b then _ else _) (Z.lnot SSTATUS_SIE))
    with (Z.land (sstatus c) (Z.lnot SSTATUS_SIE)); [by destruct c|].
  apply Z.bits_inj'. intros i Hi. destruct b.
  - rewrite !land_lnot_sie, Z.lor_spec, land_lnot_sie, testbit_sie by done.
    destruct (Z.eqb_spec i 1); simpl; rewrite ?andb_false_r, ?andb_true_r, ?orb_false_r; done.
  - rewrite !land_lnot_sie by done. by destruct (Z.testbit (sstatus c) i), (i =? 1).
Qed.

Lemma kholding (l : lock_id) (c : ctl) h pt ft fs vd dev n (Q : bool -> kstate -> Prop) :
  cpu_ok c -> Q true (KState (locked_ctl l c) h pt ft fs vd dev n) ->
  runs (holding l) (KState (locked_ctl l c) h pt ft fs vd dev n) Q.
Proof.
  intros Hc HQ. eapply runs_eq; [apply holding_spec, locked_ctl_ok, Hc|].
  unfold lock_of. cbn [k_ctl locked_ctl locks set_with set_locks]. rewrite lookup_insert_eq.
  cbn [default locked lk_cpu]. by rewrite bool_decide_true.
Qed.

Lemma kintr_get (c : ctl) h pt ft fs vd dev n (Q : bool -> kstate -> Prop) :
  Q (sie c) (KState c h pt ft fs vd dev n) -> runs intr_get (KState c h pt ft fs vd dev n) Q.
Proof. intros HQ. unfold intr_get, r_sstatus. by ksteps. Qed.

(** The lock of process [p] as the processor that runs it holds it. *)
Definition at_sched (p : nat) (c : ctl) : Prop := idle c /\ cur c = Some p.

Section sched.
Context {E : Env}.
Context {h : heap} {pt : ptable} {ft : ftable} {fs : fsys} {vd : vdisk} {dev : devs} {n : nat}.

(** [sched] hands the state to the rest of the system, and comes back with
    the interrupt flag the thread had. *)
Lemma ksched (p : nat) (c : ctl) (Q : unit -> kstate -> Prop) :
  at_sched p c -> p_state (procs pt !!! p) <> RUNNING ->
  (exists s' c', env_away n p (KState (locked_ctl (L_proc p) c) h pt ft fs vd dev (S n)) = Some s' /\
     at_sched p c' /\ k_ctl s' = locked_ctl (L_proc p) c' /\
     Q tt (s' <| k_ctl := locked_ctl (L_proc p) (with_sie (sie c) c') |>)) ->
  runs sched (KState (locked_ctl (L_proc p) c) h pt ft fs vd dev n) Q.
Proof.
  intros [[Hcalm Hn] Hp] Hst (s' & c' & Ee & [[Hcalm' Hn'] Hp'] & Ec & HQ).
  pose proof (calm_ok _ Hcalm) as Hc. pose proof (calm_ok _ Hcalm') as Hc'.
  unfold sched. kstep. eapply kcurproc; [kside|by rewrite cur_locked|].
  kstep. apply kholding; [done|]. cbn [negb]. do 4 kstep.
  change (cpus (locked_ctl (L_proc p) c) !!! hart (locked_ctl (L_proc p) c)) with (this_cpu (pushed c)).
  rewrite this_cpu_pushed, Hn by done. cbn [c_noff set_with set_c_noff]. change (negb (0 + 1 =? 1)) with false. cbv iota.
  do 2 kstep. rewrite bool_decide_false by done. kstep. apply kintr_get.
  rewrite (cpu_off (locked_ctl (L_proc p) c)); [|kside|].
  2: { change (this_cpu (locked_ctl (L_proc p) c)) with (this_cpu (pushed c)).
       rewrite this_cpu_pushed by done. cbn [c_noff set_with set_c_noff]. lia. }
  do 4 kstep. kstep. eapply runs_eq.
  { exact (f_equal (fun o => match o with Some s => Ret tt s | None => Blocked end) Ee). }
  destruct s' as [c1 h' pt' ft' fs' vd' dev' n']. cbn [k_ctl] in Ec. subst c1.
  do 4 kstep. kstep.
  change (cpus (locked_ctl (L_proc p) c) !!! hart (locked_ctl (L_proc p) c)) with (this_cpu (pushed c)).
  change (cpus (locked_ctl (L_proc p) c') !!! hart (locked_ctl (L_proc p) c'))
    with (this_cpu (locked_ctl (L_proc p) c')).
  change (hart (locked_ctl (L_proc p) c')) with (hart c').
  rewrite (this_cpu_pushed c) by done. cbn [c_intena set_with set_c_noff].
  rewrite (cpu_intena c Hc Hn). rewrite locked_with_sie by done. exact HQ.
Qed.

End sched.

(** The process table while process [p] sleeps on [ch]. *)
Definition asleep (p : nat) (ch : chan) (pt : ptable) : ptable :=
  pt <| procs := alter (fun v => v <| p_chan := ch |> <| p_state := SLEEPING |>) p (procs pt) |>.
Definition tidy (p : nat) (pt : ptable) : ptable :=
  pt <| procs := alter (fun v => v <| p_chan := Ch0 |>) p (procs pt) |>.

Section sleep.
Context {E : Env}.
Context {h : heap} {pt : ptable} {ft : ftable} {fs : fsys} {vd : vdisk} {dev : devs} {n : nat}.

Lemma ksleep (ch : chan) (lk : lock_id) (p : nat) (c : ctl) (Q : unit -> kstate -> Prop) :
  at_sched p c -> lk <> L_proc p -> (p < length (procs pt))%nat ->
  (exists s' c', env_away n p (KState (locked_ctl (L_proc p) c) h (asleep p ch pt) ft fs vd dev (S n)) = Some s' /\
     at_sched p c' /\ k_ctl s' = locked_ctl (L_proc p) c' /\
     Q tt (s' <| k_ctl := locked_ctl lk (with_sie (sie c) c') |> <| k_pt := tidy p (k_pt s') |>)) ->
  runs (sleep ch lk) (KState (locked_ctl lk c) h pt ft fs vd dev n) Q.
Proof.
  intros Hs Hne Hlt (s' & c' & Ee & Hs' & Ec & HQ).
  pose proof Hs as [[Hcalm Hn] Hp]. pose proof Hs' as [[Hcalm' Hn'] Hp'].
  assert (idle (with_sie (sie c) c')) as [Hcalm2 _] by (by apply idle_with_sie).
  unfold sleep. kstep. eapply kcurproc; [kside|rewrite cur_locked by kside; done|].
  kstep. kstep. kstep. rewrite (locked_comm c (L_proc p) lk) by done. kstep. do 4 kstep.
  kstep. rewrite set_procs_twice. cbn [procs set_with set_procs]. rewrite list_alter_alter_eq.
  apply ksched; [exact Hs| |].
  { cbn [procs set_with set_procs]. rewrite list_lookup_total_alter_eq by exact Hlt. intros Hbad. discriminate Hbad. }
  exists s', c'. split; [exact Ee|split; [exact Hs'|split; [exact Ec|]]].
  destruct s' as [c1 h' pt' ft' fs' vd' dev' n']. kred. cbn [k_ctl] in Ec. subst c1.
  ksteps. exact HQ.
Qed.

Lemma kyield (p : nat) (c : ctl) (Q : unit -> kstate -> Prop) :
  at_sched p c -> (p < length (procs pt))%nat ->
  (exists s' c', env_away n p (KState (locked_ctl (L_proc p) c) h
       (pt <| procs := alter (fun v => v <| p_state := RUNNABLE |>) p (procs pt) |>) ft fs vd dev (S n)) = Some s' /\
     at_sched p c' /\ k_ctl s' = locked_ctl (L_proc p) c' /\
     Q tt (s' <| k_ctl := with_sie (sie c) c' |>)) ->
  runs yield (KState c h pt ft fs vd dev n) Q.
Proof.
  intros Hs Hlt (s' & c' & Ee & Hs' & Ec & HQ).
  pose proof Hs as [[Hcalm Hn] Hp]. pose proof Hs' as [[Hcalm' Hn'] Hp'].
  assert (idle (with_sie (sie c) c')) as [Hcalm2 _] by (by apply idle_with_sie).
  unfold yield. kstep. eapply kcurproc; [kside|done|]. kstep. kstep. kstep. kstep. kstep.
  apply ksched; [exact Hs| |].
  { cbn [procs set_with set_procs]. rewrite list_lookup_total_alter_eq by exact Hlt. intros Hbad. discriminate Hbad. }
  exists s', c'. split; [exact Ee|split; [exact Hs'|split; [exact Ec|]]].
  destruct s' as [c1 h' pt' ft' fs' vd' dev' n']. kred. cbn [k_ctl] in Ec. subst c1.
  kstep. exact HQ.
Qed.

End sleep.

(** C20. [sleep] releases the lock and sleeps in one step, as far as the rest
    of the system can tell, and takes the lock back: the processor is given up
    in a state in which the process is marked as sleeping on the channel, the
    lock [lk] is free again and the only lock held is the process's own; when
    the process is resumed, on whatever processor, [sleep] returns with [lk]
    held there, no other lock, and the interrupt flag the thread had before. *)
Theorem sleep_atomic {E : Env} (ch : chan) (lk : lock_id) (p : nat) (c c' : ctl) (s away back : kstate) :
  k_ctl s = locked_ctl lk c -> at_sched p c -> lk <> L_proc p -> (p < length (procs (k_pt s)))%nat ->
  away = s <| k_ctl := locked_ctl (L_proc p) c |> <| k_pt := asleep p ch (k_pt s) |>
           <| k_switches := S (k_switches s) |> ->
  env_away (k_switches s) p away = Some back ->
  k_ctl back = locked_ctl (L_proc p) c' -> at_sched p c' ->
  (lock_free lk (k_ctl away) /\ p_state (procs (k_pt away) !!! p) = SLEEPING /\
   p_chan (procs (k_pt away) !!! p) = ch) /\
  exists c2, sleep ch lk s = Ret tt (back <| k_ctl := locked_ctl lk c2 |> <| k_pt := tidy p (k_pt back) |>) /\
    at_sched p c2 /\ hart c2 = hart c' /\ sie c2 = sie c.
Proof.
  destruct s as [c0 h pt ft fs vd dev n]. cbn [k_ctl k_pt k_switches]. intros -> Hs Hne Hlt -> Ee Ec Hs'.
  split.
  - cbn [k_ctl k_pt set_with set_k_ctl set_k_pt set_k_switches asleep procs set_procs].
    rewrite list_lookup_total_alter_eq by exact Hlt.
    split; [|split; reflexivity]. apply locked_ctl_free; [congruence|]. apply calm_free, Hs.
  - exists (with_sie (sie c) c'). pose proof Hs' as [Hi Hp'].
    split; [|split; [split|split]].
    + assert (runs (sleep ch lk) (KState (locked_ctl lk c) h pt ft fs vd dev n) (fun _ s' =>
        s' = back <| k_ctl := locked_ctl lk (with_sie (sie c) c') |> <| k_pt := tidy p (k_pt back) |>)) as H.
      { apply (ksleep ch lk p c); [exact Hs|exact Hne|exact Hlt|]. exists back, c'.
        split; [exact Ee|split; [exact Hs'|split; [exact Ec|reflexivity]]]. }
      apply runs_inv in H as ([] & s' & E' & ->). exact E'.
    + by apply idle_with_sie.
    + rewrite cur_with_sie; [exact Hp'|]. apply calm_ok, Hi.
    + reflexivity.
    + apply sie_with_sie.
Qed.

(** ** Fields of a process that others leave alone *)
Lemma proc_wake_all {B} (g : proc -> B) (ch : chan) (me : option nat) (j : nat) (ps : list proc) :
  (forall v st, g (v <| p_state := st |>) = g v) -> g (wake_all ch me ps !!! j) = g (ps !!! j).
Proof.
  intros Hg. rewrite !list_lookup_total_alt, lookup_wake_all. destruct (ps !! j) as [v|]; [|done]. cbn.
  destruct (bool_decide (Some j = me)); [done|]. unfold wake. case_match; [apply Hg|done].
Qed.

(** What may happen to the entry of a process while it sleeps. *)
Definition same_proc (p : nat) (pt pt' : ptable) : Prop :=
  exists st ch, procs pt' !!! p = (procs pt !!! p) <| p_state := st |> <| p_chan := ch |>.

Lemma same_proc_refl (p : nat) (pt : ptable) : same_proc p pt pt.
Proof. exists (p_state (procs pt !!! p)), (p_chan (procs pt !!! p)). by destruct (procs pt !!! p). Qed.

Lemma same_proc_trans (p : nat) (pt pt1 pt2 : ptable) : same_proc p pt pt1 -> same_proc p pt1 pt2 -> same_proc p pt pt2.
Proof. intros (a & b & E1) (a' & b' & E2). exists a', b'. rewrite E2, E1. by destruct (procs pt !!! p). Qed.

(** A field other than the state and the channel. *)
Lemma same_proc_field {B} (g : proc -> B) (p : nat) (pt pt' : ptable) :
  (forall v st ch, g (v <| p_state := st |> <| p_chan := ch |>) = g v) -> same_proc p pt pt' ->
  g (procs pt' !!! p) = g (procs pt !!! p).
Proof. intros Hg (st & ch & ->). apply Hg. Qed.

Lemma same_proc_wakes (p : nat) (ch : chan) (me : option nat) (pt pt' : ptable) :
  wakes ch me pt pt' -> same_proc p pt pt'.
Proof.
  intros [->| ->]; [apply same_proc_refl|]. unfold same_proc. cbn [procs set_with set_procs].
  rewrite !list_lookup_total_alt, lookup_wake_all. destruct (procs pt !! p) as [v|]; cbn.
  - unfold wake. repeat case_match.
    + exists (p_state v), (p_chan v). by destruct v.
    + exists RUNNABLE, (p_chan v). by destruct v.
    + exists (p_state v), (p_chan v). by destruct v.
  - by exists (p_state inhabitant), (p_chan inhabitant).
Qed.

Lemma same_proc_alter (p : nat) (pt : ptable) (f : proc -> proc) :
  (forall v, exists st ch, f v = v <| p_state := st |> <| p_chan := ch |>) ->
  same_proc p pt (pt <| procs := alter f p (procs pt) |>).
Proof.
  intros Hf. unfold same_proc. cbn [procs set_with set_procs]. rewrite !list_lookup_total_alt, list_lookup_alter_eq.
  destruct (procs pt !! p) as [v|]; cbn; [apply Hf|by exists (p_state inhabitant), (p_chan inhabitant)].
Qed.

Lemma same_proc_asleep (p : nat) (ch : chan) (pt : ptable) : same_proc p pt (asleep p ch pt).
Proof. apply same_proc_alter. intros v. exists SLEEPING, ch. by destruct v. Qed.

Lemma same_proc_tidy (p : nat) (pt : ptable) : same_proc p pt (tidy p pt).
Proof. apply same_proc_alter. intros v. exists (p_state v), Ch0. by destruct v. Qed.

(** ** The theorems on a small process table *)

(** Processor 2 runs process 0; process 1 (pid 7) sleeps on the ticks. *)
Definition demo_ctl : ctl := boot_ctl <| cpus := <[ 2%nat := Cpu (Some 0%nat) 0 1 ]> (cpus boot_ctl) |>.
Definition demo_proc (st : procstate) (ch : chan) (pid : Z) : proc :=
  Proc st ch 0 0 pid None 0 0 0 0 (Context_ 0 0 []) [] None (replicate 16 0) [].
Definition demo_pt : ptable :=
  Ptable (demo_proc RUNNING Ch0 3 :: demo_proc SLEEPING ChTicks 7 :: replicate 62 (demo_proc UNUSED Ch0 0))
    (Some 0%nat) 8 0 0.
Definition demo_state (c : ctl) : kstate := (blank c (Heap ∅ 0 0)) <| k_pt := demo_pt |>.

Lemma demo_ctl_ok : cpu_ok demo_ctl.
Proof. by split; vm_compute. Qed.

Lemma demo_idle : idle demo_ctl.
Proof. split; [split; [exact demo_ctl_ok|reflexivity]|reflexivity]. Qed.

Lemma wakeup_wakes_witness : exists ps,
  wakeup ChTicks (demo_state demo_ctl) =
    Ret tt ((demo_state demo_ctl) <| k_pt := demo_pt <| procs := ps |> |>) /\
  ps !! 0%nat = Some (demo_proc RUNNING Ch0 3) /\ ps !! 1%nat = Some (demo_proc RUNNABLE ChTicks 7).
Proof.
  destruct (wakeup_wakes ChTicks (demo_state demo_ctl)) as (ps & E & _ & H).
  - exact demo_ctl_ok.
  - intros i. reflexivity.
  - reflexivity.
  - exists ps. split; [exact E|]. split.
    + apply (H 0%nat (demo_proc RUNNING Ch0 3) eq_refl). intros (Hbad & _). discriminate Hbad.
    + apply (H 1%nat (demo_proc SLEEPING ChTicks 7) eq_refl).
      split; [reflexivity|split; [reflexivity|discriminate]].
Defined.

Lemma kill_marks_witness :
  runs (kill 7) (demo_state demo_ctl) (fun r s' => r = 0 \/ r = -1).
Proof.
  eapply runs_mono; [apply kill_marks|].
  - exact demo_ctl_ok.
  - intros i. reflexivity.
  - reflexivity.
  - intros r s' [[H _]|[H _]]; [right|left]; exact H.
Defined.

(** The rest of the system runs process [p] again. *)
Definition demo_env : Env := {|
  env_away _ p s := Some (s <| k_pt := (k_pt s) <| procs :=
    alter (fun v => v <| p_state := RUNNING |>) p (procs (k_pt s)) |> |>);
  env_run _ p s := None |}.

Lemma sleep_atomic_witness : exists s' c2,
  sleep (E := demo_env) ChLog L_log (demo_state (locked_ctl L_log demo_ctl)) = Ret tt s' /\
  k_ctl s' = locked_ctl L_log c2 /\ at_sched 0 c2.
Proof.
  edestruct (sleep_atomic (E := demo_env) ChLog L_log 0 demo_ctl demo_ctl
    (demo_state (locked_ctl L_log demo_ctl))) as [_ (c2 & E & H & _)].
  - reflexivity.
  - split; [exact demo_idle|reflexivity].
  - discriminate.
  - vm_compute. lia.
  - reflexivity.
  - reflexivity.
  - reflexivity.
  - split; [exact demo_idle|reflexivity].
  - eexists _, c2. split; [exact E|split; [reflexivity|exact H]].
Defined.
