(* ===== verification/UserMem.v ===== *)
(** * Copies to and from the running process (theorems on kernel/proc.c)

    The rules for [copyin], [copyout], [either_copyin] and [either_copyout] in
    kernel code that runs on behalf of a process: they see its memory through
    [ubytes], and fail exactly where the process may not access it. *)
From S2P Require Import Prelude Memory Riscv State Spinlock Kalloc Steps Pagetable Vm VmSpec Uvm Usercopy AddressSpace Proc ProcSpec.

Section umem.
Context {L : Linker} {LOk : LinkerOk L}.

(** [root] is a well-formed address space of the heap. *)
Definition uspace (root : Z) (h : heap) : Prop :=
  exists R lim fl lo, aspace R lim root h fl lo /\ user_below lim root (mem h).

(** The heap after [bs] has been written at [va]. *)
Record uput (root va : Z) (bs : list Z) (h h' : heap) : Prop := {
  up_space : uspace root h';
  up_table : same_table root (mem h) (mem h');
  up_bytes : uwrite root va bs (mem h) (mem h');
}.

Lemma uput_nil (root va : Z) (h : heap) : uspace root h -> uput root va [] h h.
Proof. intros Hu. split; [done|done|apply uwrite_nil]. Qed.

Lemma uput_app (root va : Z) (bs cs : list Z) (h h1 h2 : heap) :
  0 <= va -> uput root va bs h h1 -> uput root (va + Z.of_nat (length bs)) cs h1 h2 ->
  uput root va (bs ++ cs) h h2.
Proof.
  intros Hva [_ T1 B1] [S2 T2 B2]. split; [done| |by eapply uwrite_app].
  intros path j Hi Hj. rewrite T2, T1 by done. done.
Qed.

(** What the process may access does not change. *)
Lemma uput_access (root va : Z) (bs : list Z) (h h' : heap) (x : Z) (n : nat) :
  uput root va bs h h' -> ubytes (mem h') root x n <> None <-> ubytes (mem h) root x n <> None.
Proof.
  intros [_ T _]. rewrite <- !ubytes_all. setoid_rewrite (same_table_ubyte_None root _ _ _ T). done.
Qed.

Context {pt : ptable} {ft : ftable} {fs : fsys} {vd : vdisk} {dev : devs} {n : nat}.

Lemma kcopyout (root va : Z) (bs : list Z) (c : ctl) (h : heap) (Q : Z -> kstate -> Prop) :
  cpu_ok c -> lock_free L_kmem c -> uspace root h -> is_u64 va -> Z.of_nat (length bs) < 2 ^ 64 ->
  (forall h', ubytes (mem h) root va (length bs) <> None -> uput root va bs h h' ->
     Q 0 (KState c h' pt ft fs vd dev n)) ->
  (forall h' k, ubytes (mem h) root va (length bs) = None -> (k < length bs)%nat ->
     uput root va (take k bs) h h' -> Q (-1) (KState c h' pt ft fs vd dev n)) ->
  runs (copyout root va bs) (KState c h pt ft fs vd dev n) Q.
Proof using LOk.
  intros Hc Hf (R & lim & fl & lo & Has & Hub) Hva Hlen HQ HF.
  apply (kheap _ c (fun r h' => Q r (KState c h' pt ft fs vd dev n))); [done..| |done].
  assert (forall l h', wrote R lim root va l fl lo h h' -> uput root va l h h') as Hw.
  { intros l h' [W1 W2 W3 W4]. split; [|done|done]. exists R, lim, fl, lo. split; [done|].
    by apply (user_below_same lim root (mem h)). }
  apply (copyout_spec R lim root va bs h fl lo); [done..| |].
  - intros h' Ha Hwr. apply HQ; [done|by apply Hw].
  - intros h' k Ha Hk Hwr. apply (HF h' k); [done|done|by apply Hw].
Qed.

Lemma kcopyin (root va len : Z) (c : ctl) (h : heap) (Q : Z * list Z -> kstate -> Prop) :
  cpu_ok c -> lock_free L_kmem c -> uspace root h -> is_u64 va -> 0 <= len < 2 ^ 64 ->
  (forall bs, ubytes (mem h) root va (Z.to_nat len) = Some bs -> Q (0, bs) (KState c h pt ft fs vd dev n)) ->
  (forall pre, ubytes (mem h) root va (Z.to_nat len) = None -> Q (-1, pre) (KState c h pt ft fs vd dev n)) ->
  runs (copyin root va len) (KState c h pt ft fs vd dev n) Q.
Proof using LOk.
  intros Hc Hf (R & lim & fl & lo & Has & Hub) Hva Hlen HQ HF.
  apply (kheap _ c (fun r h' => h' = h /\ Q r (KState c h pt ft fs vd dev n))); [done..| |].
  - apply (copyin_spec R lim root va len h fl lo); [done..| |].
    + intros bs E. split; [done|by apply HQ].
    + intros pre E. split; [done|by apply HF].
  - intros r h' [-> HQ']. exact HQ'.
Qed.

(** For the process that runs. *)
Definition uroot (p : nat) (pt : ptable) : Z := p_pagetable (procs pt !!! p).

Lemma keither_copyout (p : nat) (va : Z) (bs : list Z) (c : ctl) (h : heap) (Q : Z -> kstate -> Prop) :
  cpu_ok c -> lock_free L_kmem c -> cur c = Some p -> uspace (uroot p pt) h -> is_u64 va ->
  Z.of_nat (length bs) < 2 ^ 64 ->
  (forall h', ubytes (mem h) (uroot p pt) va (length bs) <> None -> uput (uroot p pt) va bs h h' ->
     Q 0 (KState c h' pt ft fs vd dev n)) ->
  (forall h' k, ubytes (mem h) (uroot p pt) va (length bs) = None -> (k < length bs)%nat ->
     uput (uroot p pt) va (take k bs) h h' -> Q (-1) (KState c h' pt ft fs vd dev n)) ->
  runs (either_copyout (ToUser va) bs) (KState c h pt ft fs vd dev n) Q.
Proof using LOk.
  intros Hc Hf Hp Hu Hva Hl HQ HF. unfold either_copyout. kstep. apply kmyproc; [done|]. rewrite Hp.
  unfold deref. ksteps. by apply kcopyout.
Qed.

Lemma keither_copyin (p : nat) (va len : Z) (c : ctl) (h : heap) (Q : Z * list Z -> kstate -> Prop) :
  cpu_ok c -> lock_free L_kmem c -> cur c = Some p -> uspace (uroot p pt) h -> is_u64 va -> 0 <= len < 2 ^ 64 ->
  (forall bs, ubytes (mem h) (uroot p pt) va (Z.to_nat len) = Some bs -> Q (0, bs) (KState c h pt ft fs vd dev n)) ->
  (forall pre, ubytes (mem h) (uroot p pt) va (Z.to_nat len) = None -> Q (-1, pre) (KState c h pt ft fs vd dev n)) ->
  runs (either_copyin (FromUser va) len) (KState c h pt ft fs vd dev n) Q.
Proof using LOk.
  intros Hc Hf Hp Hu Hva Hl HQ HF. unfold either_copyin. kstep. apply kmyproc; [done|]. rewrite Hp.
  unfold deref. ksteps. by apply kcopyin.
Qed.

(** An accessible range lies in the address space. *)
Lemma access_range (m : memory) (root va : Z) (k : nat) :
  ubytes m root va k <> None -> (0 < k)%nat -> va + Z.of_nat k <= MAXVA.
Proof.
  rewrite <- ubytes_all. intros Ha Hk. destruct (ubyte m root (va + Z.of_nat k - 1)) as [b|] eqn:E.
  - apply ubyte_Some in E as (E & _). lia.
  - destruct (Ha (va + Z.of_nat k - 1)); [lia|done].
Qed.

Lemma access_sub (m : memory) (root va : Z) (i k j : nat) :
  ubytes m root va k <> None -> (i + j <= k)%nat -> ubytes m root (va + Z.of_nat i) j <> None.
Proof. rewrite <- !ubytes_all. intros Ha Hij x Hx. apply Ha. lia. Qed.

End umem.

Lemma ubytes_at (m : memory) (root va : Z) (n i : nat) (bs : list Z) :
  ubytes m root va n = Some bs -> (i < n)%nat -> ubytes m root (va + Z.of_nat i) 1 = Some [bs !!! i].
Proof.
  revert va bs i. induction n as [|n IH]; intros va bs i; [lia|]. cbn [ubytes].
  destruct (ubyte m root va) as [b|] eqn:Eb; [|done]. cbn [mbind option_bind].
  destruct (ubytes m root (va + 1) n) as [cs|] eqn:Ec; [|done]. cbn [mbind option_bind].
  intros [= <-] Hi. destruct i as [|i].
  - rewrite Z.add_0_r, Eb. done.
  - replace (va + Z.of_nat (S i)) with (va + 1 + Z.of_nat i) by lia. exact (IH _ cs i Ec ltac:(lia)).
Qed.

(** ** A process with two pages of zeros *)
Definition user_pt : ptable :=
  demo_pt <| procs := alter (fun v => v <| p_pagetable := Demo.root |> <| p_sz := 8192 |>) 0%nat (procs demo_pt) |>.

Lemma user_demo : exists h, uspace (L := demo_linker) Demo.root h /\
  forall va n, 0 <= va -> va + Z.of_nat n <= 8192 -> ubytes (mem h) Demo.root va n = Some (replicate n 0).
Proof.
  destruct Demo.space1 as (h1 & fl1 & Has & Hg). exists h1. split.
  - exists Demo.pages, TRAPFRAME, fl1, []. split; [exact Has|exact (Demo.below1 Hg)].
  - intros va n Hva. revert va Hva. induction n as [|n IH]; intros va Hva Hn; [done|]. cbn [ubytes].
    rewrite (Demo.user1 Hg) by lia. cbn [mbind option_bind]. rewrite IH by lia. done.
Qed.
