(* ===== verification/ProcMem.v ===== *)
(** * The memory of a process

    What [proc_pagetable], [proc_freepagetable], [allocproc] and [freeproc] do
    to the pages of the machine: every page a process gets comes from the free
    list, and goes back there when the process is given up. *)
From S2P Require Import Prelude Memory Riscv State Spinlock Kalloc Steps Pagetable Vm VmSpec Uvm Freewalk AddressSpace Proc ProcSpec.

Section procmem.
Context {L : Linker} {LOk : LinkerOk L}.

(** A process with the page table [root] and the trapframe page [tf]: below
    [TRAPFRAME] the table owns its pages; trampoline and trapframe are mapped
    for the kernel, and the trapframe page is held through [tf]. *)
Record puser (R : Z -> Prop) (root tf : Z) (h : heap) (fl : list Z) : Prop := {
  pu_space : aspace R TRAPFRAME root h fl [tf];
  pu_tramp : pte_of (mem h) root TRAMPOLINE = leaf sym_trampoline (Z.lor PTE_R PTE_X);
  pu_tf : pte_of (mem h) root TRAPFRAME = leaf tf (Z.lor PTE_R PTE_W);
}.

Lemma trampoline_pa : 0 <= sym_trampoline /\ sym_trampoline + PGSIZE <= 2 ^ 56 /\ sym_trampoline mod PGSIZE = 0.
Proof using LOk.
  pose proof trampoline_bounds as H1. pose proof etext_bounds as H2. pose proof end_bounds as H3.
  change KERNBASE with 2147483648 in *. change PHYSTOP with 2281701376 in *.
  split_and!; [lia|plia|apply trampoline_aligned].
Qed.

Lemma leaf_valid (pa perm : Z) : 0 <= pa < 2 ^ 56 -> pa mod PGSIZE = 0 -> perm_ok perm -> valid (leaf pa perm) = true.
Proof. intros H1 H2 H3. apply (leaf_facts pa perm H1 H2 H3). Qed.

(** ** One page at the top of the address space *)
Lemma map_top (R : Z -> Prop) (root va pa perm : Z) (h : heap) (fl lo : list Z) (Q : Z -> heap -> Prop) :
  aspace R TRAPFRAME root h fl lo -> TRAPFRAME <= va -> va mod PGSIZE = 0 -> va + PGSIZE <= MAXVA ->
  (forall x, va <= x < va + PGSIZE -> valid (pte_of (mem h) root x) = false) ->
  0 <= pa /\ pa + PGSIZE <= 2 ^ 56 -> pa mod PGSIZE = 0 -> perm_ok perm ->
  (forall h' , aspace R TRAPFRAME root h' [] lo -> frame R (mem h) (mem h') ->
     (forall x, 0 <= x < MAXVA -> pte_of (mem h') root x = pte_of (mem h) root x) -> Q (-1) h') ->
  (forall h' fl', aspace R TRAPFRAME root h' fl' lo -> frame R (mem h) (mem h') ->
     (forall x, 0 <= x < MAXVA -> pte_of (mem h') root x =
        if (va <=? x) && (x <? va + PGSIZE) then leaf pa perm else pte_of (mem h) root x) -> Q 0 h') ->
  hwp (mappages root va PGSIZE pa perm) h Q.
Proof using LOk.
  intros Has Hva Hal Hend Hfree Hpa Hpal Hperm HQ1 HQ2.
  assert (0 <= TRAPFRAME) by (by vm_compute).
  assert (PGROUNDDOWN va = va) as Ed by (apply PGROUNDDOWN_in; [done|plia]).
  assert (PGROUNDDOWN (va + PGSIZE - 1) = va) as Ee by (apply PGROUNDDOWN_in; [done|plia]).
  apply (mappages_spec R TRAPFRAME root va PGSIZE pa perm h fl (fun _ => lo)); rewrite ?Ee, ?Ed, ?Z.sub_diag, ?Z.div_0_l by done;
    try done; try plia.
  - intros i Hi. right. split; [unfold PGSIZE; lia|done].
  - intros i h' Hi Has' Hg Hm. apply HQ1; [done|by eapply grows_R|]. intros x Hx. rewrite Hm by done.
    destruct (Z.leb_spec va x); cbn [andb]; [|done].
    rewrite (proj2 (Z.ltb_ge _ _)) by (unfold PGSIZE; lia). done.
  - intros fl' h' Has' Hg Hm. apply (HQ2 h' fl'); [done|by eapply grows_R|]. intros x Hx. rewrite Hm by done.
    replace (va + (0 + 1) * PGSIZE) with (va + PGSIZE) by lia.
    destruct (Z.leb_spec va x), (Z.ltb_spec x (va + PGSIZE)); cbn [andb]; try done.
    rewrite (PGROUNDDOWN_in va x) by (done || lia). f_equal. lia.
Qed.

Lemma unmap_top (R : Z -> Prop) (root va : Z) (h : heap) (fl lo : list Z) (Q : unit -> heap -> Prop) :
  aspace R TRAPFRAME root h fl lo -> TRAPFRAME <= va -> va mod PGSIZE = 0 -> va + PGSIZE <= MAXVA ->
  valid (pte_of (mem h) root va) = true ->
  (forall h', aspace R TRAPFRAME root h' fl lo -> frame R (mem h) (mem h') ->
     (forall k, inner k -> node (mem h') root k = node (mem h) root k) ->
     (forall x, 0 <= x < MAXVA -> pte_of (mem h') root x =
        if (va <=? x) && (x <? va + PGSIZE) then 0 else pte_of (mem h) root x) -> Q tt h') ->
  hwp (uvmunmap root va 1 false) h Q.
Proof using LOk.
  intros Has Hva Hal Hend Hv HQ. assert (0 <= TRAPFRAME) by (by vm_compute).
  assert (forall x, va <= x < va + PGSIZE -> pte_of (mem h) root x = pte_of (mem h) root va) as Hpg.
  { intros x Hx. apply pte_of_page. apply Z.eqb_eq. rewrite page_eqb by done. lia. }
  apply (uvmunmap_spec R TRAPFRAME root va 1 false h fl lo); try done; try plia.
  - intros x Hx. apply pte_valid_table. rewrite Hpg by plia. done.
  - intros h' fl' Has' Hu Hfl. rewrite (Hfl eq_refl) in Has'. apply HQ; [done| |apply Hu|].
    + apply (unmapped_R R TRAPFRAME root va (va + 1 * PGSIZE) false h h' fl lo); done || plia.
    + intros x Hx. rewrite (um_pte _ _ _ _ _ _ Hu) by done. replace (va + 1 * PGSIZE) with (va + PGSIZE) by lia.
      destruct (Z.leb_spec va x), (Z.ltb_spec x (va + PGSIZE)); cbn [andb]; try done.
      by rewrite Hpg, Hv by lia.
Qed.

Lemma top_bounds : TRAMPOLINE = TRAPFRAME + PGSIZE /\ TRAMPOLINE + PGSIZE = MAXVA /\ 0 <= TRAPFRAME /\
  TRAMPOLINE mod PGSIZE = 0 /\ TRAPFRAME mod PGSIZE = 0.
Proof. by vm_compute. Qed.

Lemma perm_rx : perm_ok (Z.lor PTE_R PTE_X).
Proof. by vm_compute. Qed.
Lemma perm_rw : perm_ok (Z.lor PTE_R PTE_W).
Proof. by vm_compute. Qed.

(** ** A page table of a process is given up *)
Lemma proc_freepagetable_spec (R : Z -> Prop) (root sz : Z) (h : heap) (fl lo : list Z) (Q : unit -> heap -> Prop) :
  aspace R TRAPFRAME root h fl lo ->
  valid (pte_of (mem h) root TRAMPOLINE) = true -> valid (pte_of (mem h) root TRAPFRAME) = true ->
  0 <= sz <= TRAPFRAME -> tables (mem h) root 0 (PGROUNDUP sz) ->
  (forall va, PGROUNDUP sz <= va < TRAPFRAME -> valid (pte_of (mem h) root va) = false) ->
  (forall h' fl', all_free R h' fl' lo -> frame R (mem h) (mem h') -> Q tt h') ->
  hwp (proc_freepagetable root sz) h Q.
Proof using LOk.
  intros Has V1 V2 Hsz Htab Hno HQ. destruct top_bounds as (B1 & B2 & B3 & B4 & B5). unfold proc_freepagetable.
  apply hwp_bind, (unmap_top R root TRAMPOLINE h fl lo); [done|plia|done|lia|done|].
  intros h1 Has1 F1 N1 P1. apply hwp_bind, (unmap_top R root TRAPFRAME h1 fl lo); [done|lia|done|plia| |].
  { rewrite P1 by plia. rewrite (proj2 (Z.leb_gt _ _)) by plia. done. }
  intros h2 Has2 F2 N2 P2. apply (uvmfree_spec R TRAPFRAME root sz h2 fl lo); [done|done| | |].
  - intros va Hva. rewrite N2, N1 by apply inner_va. by apply Htab.
  - intros va Hva Hup. rewrite P2, P1 by done.
    destruct (Z.leb_spec TRAPFRAME va), (Z.ltb_spec va (TRAPFRAME + PGSIZE)); cbn [andb]; try done; try lia.
    + rewrite (proj2 (Z.leb_le _ _)), (proj2 (Z.ltb_lt _ _)) by lia. done.
    + rewrite (proj2 (Z.leb_gt _ _)) by plia. apply Hno. lia.
  - intros h' fl' Hall F3. apply (HQ h' fl'); [done|]. etransitivity; [exact F1|]. by etransitivity.
Qed.

(** ** A page table for a new process *)
Section pagetable.
Context (p : nat) (tf : Z) (c : ctl) (h : heap) (pt : ptable) (ft : ftable) (fs : fsys) (vd : vdisk) (dev : devs) (n : nat) (fl : list Z).
Let R (q : Z) : Prop := q ∈ fl ++ [tf].
Hypothesis Hc : cpu_ok c.
Hypothesis Hk : lock_free L_kmem c.
Hypothesis Hh : heap_ok h fl.
Hypothesis Hnd : NoDup (fl ++ [tf]).
Hypothesis Htf : page_ok tf.
Hypothesis Hp : p_trapframe (procs pt !!! p) = tf.

(** An empty table is freed again. *)
Lemma free_empty (root : Z) (h1 : heap) (fl1 : list Z) (Q : unit -> heap -> Prop) :
  aspace R TRAPFRAME root h1 fl1 [tf] -> frame R (mem h) (mem h1) ->
  (forall x, 0 <= x < MAXVA -> valid (pte_of (mem h1) root x) = false) ->
  (forall h' fl', all_free R h' fl' [tf] -> frame R (mem h) (mem h') -> Q tt h') ->
  hwp (uvmfree root 0) h1 Q.
Proof using LOk.
  intros Has F HV HQ. apply (uvmfree_spec R TRAPFRAME root 0 h1 fl1 [tf]); [done|by vm_compute| | |].
  - change (PGROUNDUP 0) with 0. intros va Hva. lia.
  - intros va Hva _. by apply HV.
  - intros h' fl' Ha F'. apply (HQ h' fl'); [done|by etransitivity].
Qed.

(** Only the trampoline is mapped. *)
Definition tramp_only (root : Z) (m : memory) : Prop :=
  forall x, 0 <= x < MAXVA -> pte_of m root x = if TRAMPOLINE <=? x then leaf sym_trampoline (Z.lor PTE_R PTE_X) else 0.

Lemma map_trampoline (root : Z) (h1 : heap) (fl1 : list Z) :
  aspace R TRAPFRAME root h1 fl1 [tf] -> (forall va, pte_of (mem h1) root va = 0) ->
  hwp (mappages root TRAMPOLINE PGSIZE sym_trampoline (Z.lor PTE_R PTE_X)) h1 (fun r h2 => exists fl2,
    aspace R TRAPFRAME root h2 fl2 [tf] /\ frame R (mem h1) (mem h2) /\
    (r = -1 /\ (forall x, 0 <= x < MAXVA -> pte_of (mem h2) root x = 0) \/ r = 0 /\ tramp_only root (mem h2))).
Proof using LOk.
  intros Has1 Hz1. destruct top_bounds as (B1 & B2 & B3 & B4 & B5). destruct trampoline_pa as (T1 & T2 & T3).
  apply (map_top R root TRAMPOLINE _ _ h1 fl1 [tf]); try done; try plia.
  - intros x _. by rewrite Hz1.
  - intros h' Has F HP. exists []. split_and!; [done|done|]. left. split; [done|]. intros x Hx. by rewrite HP.
  - intros h' fl' Has F HP. exists fl'. split_and!; [done|done|]. right. split; [done|]. intros x Hx. rewrite HP, Hz1 by done.
    rewrite (proj2 (Z.ltb_lt x _)) by lia. by rewrite andb_true_r.
Qed.

Lemma map_trapframe (root : Z) (h2 : heap) (fl2 : list Z) :
  aspace R TRAPFRAME root h2 fl2 [tf] -> tramp_only root (mem h2) ->
  hwp (mappages root TRAPFRAME PGSIZE tf (Z.lor PTE_R PTE_W)) h2 (fun r h3 => exists fl3,
    aspace R TRAPFRAME root h3 fl3 [tf] /\ frame R (mem h2) (mem h3) /\
    (r = -1 /\ tramp_only root (mem h3) \/
     r = 0 /\ puser R root tf h3 fl3 /\ forall va, 0 <= va < TRAPFRAME -> valid (pte_of (mem h3) root va) = false)).
Proof using LOk Htf.
  intros Has2 Ht. destruct top_bounds as (B1 & B2 & B3 & B4 & B5).
  pose proof (page_ok_56 _ Htf) as Tf1. pose proof (page_ok_aligned _ Htf) as Tf2.
  apply (map_top R root TRAPFRAME _ _ h2 fl2 [tf]); try done; try plia.
  - intros x Hx. rewrite Ht, (proj2 (Z.leb_gt _ _)) by plia. done.
  - clear -Tf1 Tf2. split; [lia|]. apply Z.mod_divide in Tf2 as [k ->]; plia.
  - intros h' Has F HP. exists []. split_and!; [done|done|]. left. split; [done|]. intros x Hx. by rewrite HP, Ht.
  - intros h' fl' Has F HP. exists fl'. split_and!; [done|done|]. right. split_and!; [done| |].
    + split; [done| |].
      * rewrite HP, (proj2 (Z.ltb_ge TRAMPOLINE _)), andb_false_r, Ht, (proj2 (Z.leb_le _ _)) by plia. done.
      * rewrite HP, (proj2 (Z.ltb_lt TRAPFRAME _)), (proj2 (Z.leb_le _ _)) by plia. done.
    + intros va Hva. rewrite HP, (proj2 (Z.leb_gt _ _)) by plia. cbn [andb]. rewrite Ht, (proj2 (Z.leb_gt _ _)) by plia. done.
Qed.

Lemma undo_trampoline (root : Z) (h3 : heap) (fl3 : list Z) :
  aspace R TRAPFRAME root h3 fl3 [tf] -> frame R (mem h) (mem h3) -> tramp_only root (mem h3) ->
  hwp (uvmunmap root TRAMPOLINE 1 false;; uvmfree root 0) h3 (fun _ h' => exists fl', all_free R h' fl' [tf] /\ frame R (mem h) (mem h')).
Proof using LOk.
  intros Has3 F3 Ht. destruct top_bounds as (B1 & B2 & B3 & B4 & B5). destruct trampoline_pa as (T1 & T2 & T3).
  apply hwp_bind, (unmap_top R root TRAMPOLINE h3 fl3 [tf]); [done|plia|done|lia| |].
  - rewrite Ht, (proj2 (Z.leb_le _ _)) by plia. apply leaf_valid; [unfold PGSIZE in T2; lia|done|apply perm_rx].
  - intros h4 Has4 F4 _ P4. apply (free_empty root h4 fl3); [done|by etransitivity| |intros h' fl' ? ?; by exists fl'].
    intros x Hx. rewrite P4, Ht by done. destruct (Z.leb_spec TRAMPOLINE x); cbn [andb]; [|done].
    by rewrite (proj2 (Z.ltb_lt _ _)) by lia.
Qed.

Lemma kproc_pagetable (Q : Z -> kstate -> Prop) :
  (forall h' fl', all_free R h' fl' [tf] -> frame R (mem h) (mem h') -> Q 0 (KState c h' pt ft fs vd dev n)) ->
  (forall root h' fl', page_ok root -> puser R root tf h' fl' -> frame R (mem h) (mem h') ->
     (forall va, 0 <= va < TRAPFRAME -> valid (pte_of (mem h') root va) = false) -> Q root (KState c h' pt ft fs vd dev n)) ->
  runs (proc_pagetable p) (KState c h pt ft fs vd dev n) Q.
Proof using All.
  intros HQ0 HQ1. unfold proc_pagetable.
  apply runs_bind, (kheap _ _ (fun root h1 => root = 0 /\ h1 = h \/ page_ok root /\ exists fl1, aspace R TRAPFRAME root h1 fl1 [tf] /\
      (forall va, pte_of (mem h1) root va = 0) /\ frame R (mem h) (mem h1))); [done|done| |].
  { apply (uvmcreate_spec TRAPFRAME h fl [tf]); [done|done|by constructor|by vm_compute|done| |].
    - intros ->. by left.
    - intros root fl' h' Efl Has Hz F. right. split; [by eapply as_root_ok|]. exists fl'. split_and!; [done|done|].
      eapply frame_mono; [exact F|]. intros q ->. unfold R. rewrite Efl. set_solver. }
  intros root h1 [[-> ->]|(Hroot & fl1 & Has1 & Hz1 & F1)].
  { change (0 =? 0) with true. apply runs_ret, (HQ0 h fl); [|done]. by split_and!. }
  rewrite (proj2 (Z.eqb_neq _ _)) by (pose proof (page_ok_truth _ Hroot) as Ht; unfold truth in Ht; intros ->; done).
  apply runs_bind. eapply (kheap _ _ _ _ Hc Hk (map_trampoline root h1 fl1 Has1 Hz1)).
  intros r h2 (fl2 & Has2 & F2 & [[-> P2]|[-> P2]]).
  { change (-1 <? 0) with true. apply runs_bind, (kheap _ _ (fun _ h' => exists fl', all_free R h' fl' [tf] /\ frame R (mem h) (mem h'))); [done|done| |].
    - apply (free_empty root h2 fl2); [done|by etransitivity| |intros h' fl' ? ?; by exists fl'].
      intros x Hx. by rewrite P2.
    - intros [] h' (fl' & Ha & F). apply runs_ret. by apply (HQ0 h' fl'). }
  change (0 <? 0) with false. cbv beta iota. kstep. kstep. rewrite Hp.
  apply runs_bind. eapply (kheap _ _ _ _ Hc Hk (map_trapframe root h2 fl2 Has2 P2)).
  intros r h3 (fl3 & Has3 & F3 & [[-> P3]|(-> & Hu & Hno)]).
  - change (-1 <? 0) with true. cbv beta iota. apply runs_assoc, runs_bind.
    eapply (kheap _ _ _ _ Hc Hk (undo_trampoline root h3 fl3 Has3 ltac:(etransitivity; [exact F1|by etransitivity]) P3)).
    intros [] h' (fl' & Ha & F). apply runs_ret. by apply (HQ0 h' fl').
  - change (0 <? 0) with false. cbv beta iota. apply runs_ret. apply (HQ1 root h3 fl3); try done.
    etransitivity; [exact F1|by etransitivity].
Qed.
End pagetable.
(** ** One slot of the process table *)
Definition with_proc (pt : ptable) (i : nat) (v : proc) : ptable := pt <| procs := <[ i := v ]> (procs pt) |>.

Lemma with_proc_same (pt : ptable) (i : nat) : with_proc pt i (procs pt !!! i) = pt.
Proof.
  pose proof (alter_insert_total id i (procs pt)) as E. rewrite (alter_id_total id) in E by done.
  change (id ?x) with x in E. unfold with_proc. rewrite <- E. by destruct pt.
Qed.

Lemma with_proc_other (pt : ptable) (i j : nat) (v : proc) : j <> i -> procs (with_proc pt i v) !!! j = procs pt !!! j.
Proof. intros Hj. apply list_lookup_total_insert_ne. congruence. Qed.

Section slot.
Context {c : ctl} {h : heap} {pt : ptable} {ft : ftable} {fs : fsys} {vd : vdisk} {dev : devs} {n : nat}.
Context (i : nat) (v : proc).
Hypothesis Hi : (i < length (procs pt))%nat.

Lemma with_proc_at : procs (with_proc pt i v) !!! i = v.
Proof using Hi. by apply list_lookup_total_insert_eq. Qed.

Lemma kget_slot (Q : proc -> kstate -> Prop) :
  Q v (KState c h (with_proc pt i v) ft fs vd dev n) -> runs (get_proc i) (KState c h (with_proc pt i v) ft fs vd dev n) Q.
Proof using Hi. intros HQ. apply runs_gets. cbn [k_pt]. by rewrite with_proc_at. Qed.

Lemma kupd_slot (f : proc -> proc) (Q : unit -> kstate -> Prop) :
  Q tt (KState c h (with_proc pt i (f v)) ft fs vd dev n) -> runs (upd_proc i f) (KState c h (with_proc pt i v) ft fs vd dev n) Q.
Proof using Hi.
  intros HQ. apply runs_modify. kred. replace ((with_proc pt i v) <| procs := _ |>) with (with_proc pt i (f v)); [done|].
  rewrite alter_insert_total, with_proc_at. unfold with_proc. cbn. by rewrite list_insert_insert_eq.
Qed.

Lemma kget_other (j : nat) (Q : proc -> kstate -> Prop) :
  j <> i -> Q (procs pt !!! j) (KState c h (with_proc pt i v) ft fs vd dev n) ->
  runs (get_proc j) (KState c h (with_proc pt i v) ft fs vd dev n) Q.
Proof. intros Hj HQ. apply runs_gets. cbn [k_pt]. by rewrite with_proc_other. Qed.
End slot.

(** ** Giving a process up *)
Definition freed (v : proc) : proc :=
  v <| p_trapframe := 0 |> <| p_pagetable := 0 |> <| p_sz := 0 |> <| p_pid := 0 |>
    <| p_parent := None |> <| p_name := <[ 0%nat := 0 ]> (p_name v) |> <| p_chan := Ch0 |>
    <| p_killed := 0 |> <| p_xstate := 0 |> <| p_state := UNUSED |>.

Section freeproc.
Context {c : ctl} {pt : ptable} {ft : ftable} {fs : fsys} {vd : vdisk} {dev : devs} {n : nat}.
Context (i : nat) (v : proc).
Hypothesis Hi : (i < length (procs pt))%nat.
Hypothesis Hc : cpu_ok c.
Hypothesis Hk : lock_free L_kmem c.

(** The second half of [freeproc]. *)
Lemma kfreeproc_table (h : heap) (P : heap -> Prop) (Q : unit -> kstate -> Prop) :
  (if truth (p_pagetable v) then hwp (proc_freepagetable (p_pagetable v) (p_sz v)) h (fun _ => P) else P h) ->
  (forall h', P h' -> Q tt (KState c h' (with_proc pt i (freed v)) ft fs vd dev n)) ->
  runs (pr ← get_proc i;
        (if truth (p_pagetable pr) then proc_freepagetable (p_pagetable pr) (p_sz pr) else mret tt);;
        upd_proc i (fun v => v <| p_pagetable := 0 |> <| p_sz := 0 |> <| p_pid := 0 |>
          <| p_parent := None |> <| p_name := <[ 0%nat := 0 ]> (p_name v) |> <| p_chan := Ch0 |>
          <| p_killed := 0 |> <| p_xstate := 0 |> <| p_state := UNUSED |>))
    (KState c h (with_proc pt i (v <| p_trapframe := 0 |>)) ft fs vd dev n) Q.
Proof using Hi Hc Hk.
  intros HP HQ. apply runs_bind, kget_slot; [done|].
  change (p_pagetable (v <| p_trapframe := 0 |>)) with (p_pagetable v).
  change (p_sz (v <| p_trapframe := 0 |>)) with (p_sz v). apply runs_bind. destruct (truth (p_pagetable v)).
  - eapply kheap; [done|done|exact HP|]. intros [] h' HP'. apply kupd_slot; [done|]. by apply HQ.
  - apply runs_ret, kupd_slot; [done|]. by apply HQ.
Qed.

(** A process without memory. *)
Lemma kfreeproc_bare (h : heap) (Q : unit -> kstate -> Prop) :
  p_trapframe v = 0 -> p_pagetable v = 0 -> Q tt (KState c h (with_proc pt i (freed v)) ft fs vd dev n) ->
  runs (freeproc i) (KState c h (with_proc pt i v) ft fs vd dev n) Q.
Proof using Hi Hc Hk.
  intros Ht Hp HQ. unfold freeproc. apply runs_bind, kget_slot; [done|]. rewrite Ht.
  change (truth 0) with false. apply runs_bind, runs_ret, runs_bind, kupd_slot; [done|].
  apply (kfreeproc_table h (fun h' => h' = h)); [by rewrite Hp|]. by intros h' ->.
Qed.

(** A process with a trapframe but no page table. *)
Lemma kfreeproc_trapframe (h : heap) (fl : list Z) (Q : unit -> kstate -> Prop) :
  heap_ok h fl -> page_ok (p_trapframe v) -> p_trapframe v ∉ fl -> p_pagetable v = 0 ->
  (forall h', heap_ok h' (p_trapframe v :: fl) -> frame (fun q => q = p_trapframe v) (mem h) (mem h') ->
     Q tt (KState c h' (with_proc pt i (freed v)) ft fs vd dev n)) ->
  runs (freeproc i) (KState c h (with_proc pt i v) ft fs vd dev n) Q.
Proof using Hi Hc Hk LOk.
  intros Hh Ht Hn Hp HQ. unfold freeproc. apply runs_bind, kget_slot; [done|]. rewrite (page_ok_truth _ Ht).
  apply runs_bind. eapply (kheap _ _ (fun _ h' => heap_ok h' (p_trapframe v :: fl) /\ frame (fun q => q = p_trapframe v) (mem h) (mem h'))); [done|done| |].
  - apply (kfree_ok h (p_trapframe v) fl); [done|done|done|]. intros h' Hs Hh'. split; [done|by apply frame_page].
  - intros [] h' [Hh' F]. apply runs_bind, kupd_slot; [done|].
    apply (kfreeproc_table h' (fun h2 => h2 = h')); [by rewrite Hp|]. intros h2 ->. by apply HQ.
Qed.

(** A process with its memory: all its pages are free again. *)
Lemma kfreeproc (R : Z -> Prop) (h : heap) (fl : list Z) (Q : unit -> kstate -> Prop) :
  puser R (p_pagetable v) (p_trapframe v) h fl ->
  0 <= p_sz v <= TRAPFRAME -> tables (mem h) (p_pagetable v) 0 (PGROUNDUP (p_sz v)) ->
  (forall va, PGROUNDUP (p_sz v) <= va < TRAPFRAME -> valid (pte_of (mem h) (p_pagetable v) va) = false) ->
  (forall h' fl', all_free R h' fl' [] -> frame R (mem h) (mem h') ->
     Q tt (KState c h' (with_proc pt i (freed v)) ft fs vd dev n)) ->
  runs (freeproc i) (KState c h (with_proc pt i v) ft fs vd dev n) Q.
Proof using Hi Hc Hk LOk.
  intros [Has Ptr Ptf] Hsz Htab Hno HQ. set (tf := p_trapframe v) in *. set (root := p_pagetable v) in *.
  pose proof (as_root_ok Has) as Hroot. assert (page_ok tf) as Htf by (apply (as_list_ok Has); set_solver).
  destruct trampoline_pa as (T1 & T2 & T3). pose proof (page_ok_56 _ Htf) as Tf1. pose proof (page_ok_aligned _ Htf) as Tf2.
  unfold freeproc. apply runs_bind, kget_slot; [done|]. fold tf. rewrite (page_ok_truth _ Htf).
  apply runs_bind. eapply (kheap _ _ (fun _ h' => frame R (mem h) (mem h') /\ aspace R TRAPFRAME root h' (tf :: fl) [] /\
    forall path j, inner path -> idx j -> pte_at (mem h') root path j = pte_at (mem h) root path j)); [done|done| |].
  { apply (as_kfree R TRAPFRAME root h fl [] tf); [done|]. intros h' F Has' HP. split_and!; [|done|done].
    eapply frame_mono; [exact F|]. intros q ->. apply (as_list_R Has). set_solver. }
  intros [] h1 (F1 & Has1 & HP). apply runs_bind, kupd_slot; [done|].
  assert (forall va, pte_of (mem h1) root va = pte_of (mem h) root va) as HP'.
  { intros va. apply HP; [apply inner_va|apply PX_idx; lia]. }
  apply (kfreeproc_table h1 (fun h' => exists fl', all_free R h' fl' [] /\ frame R (mem h) (mem h'))).
  - fold root. rewrite (page_ok_truth _ Hroot). apply (proc_freepagetable_spec R root (p_sz v) h1 (tf :: fl) []); [done| | |done| | |].
    + rewrite HP', Ptr. apply leaf_valid; [unfold PGSIZE in T2; lia|done|apply perm_rx].
    + rewrite HP', Ptf. apply leaf_valid; [lia|done|apply perm_rw].
    + intros va Hva. rewrite (node_pte_same _ _ _ TRAPFRAME _ HP) by apply owned_inner, inner_va. by apply Htab.
    + intros va Hva. rewrite HP'. by apply Hno.
    + intros h' fl' Ha F. exists fl'. split; [done|by etransitivity].
  - intros h' (fl' & Ha & F). by apply (HQ h' fl').
Qed.
End freeproc.

Lemma aspace_ext (R R' : Z -> Prop) (lim root : Z) (h : heap) (fl lo : list Z) :
  (forall q, R q <-> R' q) -> aspace R lim root h fl lo -> aspace R' lim root h fl lo.
Proof. intros E []. split; try done; intros q; rewrite <- E; auto. Qed.

Lemma puser_ext (R R' : Z -> Prop) (root tf : Z) (h : heap) (fl : list Z) :
  (forall q, R q <-> R' q) -> puser R root tf h fl -> puser R' root tf h fl.
Proof. intros E []. split; [by eapply aspace_ext|done|done]. Qed.

(** ** A new process *)

(** The first unused slot. *)
Definition first_unused (ps : list proc) (i : nat) : Prop :=
  (i < NPROC)%nat /\ p_state (ps !!! i) = UNUSED /\ forall j, (j < i)%nat -> p_state (ps !!! j) <> UNUSED.

Definition fresh (v : proc) (pid root tf : Z) : proc :=
  v <| p_pid := pid |> <| p_state := USED |> <| p_trapframe := tf |> <| p_pagetable := root |>
    <| p_context := Context_ sym_forkret (p_kstack v + PGSIZE) (replicate 12 0) |>.

Section allocproc.
Context (c : ctl) (h : heap) (pt : ptable) (ft : ftable) (fs : fsys) (vd : vdisk) (dev : devs) (n : nat) (fl : list Z).
Let pt1 : ptable := pt <| nextpid := i32 (nextpid pt + 1) |>.
Let R (q : Z) : Prop := q ∈ fl.
Hypothesis Hc : calm c.
Hypothesis Hp : procs_ok pt.
Hypothesis Hh : heap_ok h fl.

Lemma kfind_unused (Q : option nat -> kstate -> Prop) :
  ((forall i, (i < NPROC)%nat -> p_state (procs pt !!! i) <> UNUSED) -> Q None (KState c h pt ft fs vd dev n)) ->
  (forall i, first_unused (procs pt) i -> Q (Some i) (KState (locked_ctl (L_proc i) c) h pt ft fs vd dev n)) ->
  runs (for_until all_procs (fun p =>
    acquire (L_proc p);;
    pr ← get_proc p;
    if bool_decide (p_state pr = UNUSED) then mret (Some p)
    else release (L_proc p);; mret None)) (KState c h pt ft fs vd dev n) Q.
Proof using Hc.
  intros HQ0 HQ1.
  apply (runs_for_until (fun l s => s = KState c h pt ft fs vd dev n /\ exists k, l = seq k (NPROC - k) /\ (k <= NPROC)%nat /\
    forall j, (j < k)%nat -> p_state (procs pt !!! j) <> UNUSED)).
  - split; [done|]. exists 0%nat. split_and!; [done|lia|]. intros j Hj. lia.
  - intros i l s (-> & k & El & Hk & Hlow). destruct (decide (k = NPROC)) as [->|Hne]; [by rewrite Nat.sub_diag in El|].
    replace (NPROC - k)%nat with (S (NPROC - S k)) in El by lia. injection El as -> ->.
    kstep. kstep. kstep. kstep. case_bool_decide as Hs.
    + apply runs_ret, HQ1. split_and!; [lia|done|done].
    + kstep. kstep. kstep. split; [done|]. exists (S k). split_and!; [done|lia|]. intros j Hj.
      destruct (decide (j = k)) as [->|]; [done|]. apply Hlow. lia.
  - intros s (-> & k & El & Hk & Hlow). apply HQ0. intros i Hi. apply Hlow.
    destruct (NPROC - k)%nat eqn:E; [lia|done].
Qed.

(** What [allocproc] leaves: memory in the hands of the new process, or, when
    it runs out, every page free again and the slot unused; its old context is
    left there. *)
Definition no_slot : Prop := forall i, (i < NPROC)%nat -> p_state (procs pt !!! i) <> UNUSED.
Definition gave_up (s : kstate) : Prop :=
  exists i h' fl' ctx, first_unused (procs pt) i /\ all_free R h' fl' [] /\ frame R (mem h) (mem h') /\
    s = KState c h' (with_proc pt1 i (freed ((procs pt !!! i) <| p_context := ctx |>))) ft fs vd dev n.

Lemma kalloc_frame : hwp kalloc h (fun tf h1 => tf = 0 /\ fl = [] /\ h1 = h \/
  page_ok tf /\ exists fl1, fl = tf :: fl1 /\ heap_ok h1 fl1 /\ frame (fun q => q = tf) (mem h) (mem h1)).
Proof using Hh LOk.
  destruct fl as [|tf fl1]; [apply kalloc_none; [done|by left]|]. apply (kalloc_some h tf fl1); [done|].
  intros h1 Hs _ Hh1. right. pose proof (heap_pages _ _ Hh) as Hpg. apply Forall_cons_1 in Hpg as [Hpp _].
  split; [done|]. exists fl1. split_and!; [done|done|by apply frame_page].
Qed.

Hypothesis Hidle : forall i, (i < NPROC)%nat -> p_state (procs pt !!! i) = UNUSED -> p_pagetable (procs pt !!! i) = 0.

Lemma kallocproc (Q : option nat -> kstate -> Prop) :
  (no_slot -> Q None (KState c h pt ft fs vd dev n)) ->
  (forall s, gave_up s -> Q None s) ->
  (forall i root tf h' fl', first_unused (procs pt) i -> puser R root tf h' fl' -> frame R (mem h) (mem h') ->
     (forall va, 0 <= va < TRAPFRAME -> valid (pte_of (mem h') root va) = false) ->
     Q (Some i) (KState (locked_ctl (L_proc i) c) h' (with_proc pt1 i (fresh (procs pt !!! i) (nextpid pt) root tf)) ft fs vd dev n)) ->
  runs allocproc (KState c h pt ft fs vd dev n) Q.
Proof using All.
  intros HQ0 HQ1 HQ2. unfold allocproc. apply runs_bind, kfind_unused; [by intros; apply runs_ret, HQ0|].
  intros i Hi. set (v0 := procs pt !!! i). pose proof Hi as (Hlt & Hst & _). pose proof (Hidle i Hlt Hst) as Hpg. fold v0 in Hpg.
  assert (i < length (procs pt1))%nat as Hlen by (unfold pt1; cbn; by rewrite Hp).
  set (c' := locked_ctl (L_proc i) c).
  assert (cpu_ok c') as Hc' by (unfold c'; kside). assert (lock_free L_kmem c') as Hk' by (unfold c'; kside).
  unfold allocpid. apply runs_bind. do 8 kstep. fold c'. fold pt1.
  replace pt1 with (with_proc pt1 i v0) at 1 by apply (with_proc_same pt1).
  apply runs_bind, kupd_slot; [done|]. apply runs_bind, kupd_slot; [done|]. apply runs_bind.
  eapply (kheap _ _ _ _ Hc' Hk' kalloc_frame).
  intros tf h1 [(-> & Efl & ->)|(Htf & fl1 & Efl & Hh1 & F1)]; apply runs_bind, kupd_slot; try done.
  { change (0 =? 0) with true. cbv beta iota. apply runs_bind, kfreeproc_bare; [done|done|done|done|done|].
    kstep. kstep. kstep. apply HQ1. exists i, h, fl, (p_context v0). split_and!; [done| |done|reflexivity]. split; [done|]. rewrite app_nil_r. split; [apply Hh|done]. }
  rewrite (proj2 (Z.eqb_neq tf 0)) by (intros ->; by apply page_ok_truth in Htf). cbv beta iota.
  pose proof (heap_nodup _ _ Hh) as Hnd. rewrite Efl, list.NoDup_cons in Hnd. destruct Hnd as [Hnotin Hnd].
  assert (forall q, q ∈ fl1 ++ [tf] <-> R q) as HR by (intros q; unfold R; rewrite Efl; set_solver).
  assert (frame R (mem h) (mem h1)) as F1' by (eapply frame_mono; [exact F1|]; intros q ->; apply HR; set_solver).
  apply runs_bind, (kproc_pagetable i tf c' h1 _ ft fs vd dev n fl1); try done.
  { apply list.NoDup_app. split_and!; [done|set_solver|apply NoDup_singleton]. }
  { by rewrite with_proc_at. }
  - intros h2 fl2 (Hh2 & Hnd2 & Hall2) F2. apply runs_bind, kupd_slot; [done|]. change (0 =? 0) with true. cbv beta iota.
    apply runs_bind, (kfreeproc_trapframe _ _ Hlen Hc' Hk' h2 fl2); try done.
    { cbn. apply list.NoDup_app in Hnd2 as (_ & Hd & _). set_solver. }
    intros h3 Hh3 F3. kstep. kstep. kstep. apply HQ1. exists i, h3, (tf :: fl2), (p_context v0). split_and!; [done| | |reflexivity].
    + split; [done|]. rewrite app_nil_r. split; [apply Hh3|]. intros q. rewrite <- HR, Hall2. set_solver.
    + etransitivity; [exact F1'|]. etransitivity; (eapply frame_mono; [eassumption|]); intros q Hq; apply HR; set_solver.
  - intros root h2 fl2 Hroot Hu F2 Hno. apply runs_bind, kupd_slot; [done|].
    rewrite (proj2 (Z.eqb_neq root 0)) by (intros ->; by apply page_ok_truth in Hroot). cbv beta iota.
    apply runs_bind, kupd_slot; [done|]. apply runs_ret. apply (HQ2 i root tf h2 fl2); [done| | |done].
    + apply (puser_ext _ _ _ _ _ _ HR Hu).
    + etransitivity; [exact F1'|]. eapply frame_mono; [exact F2|]. intros q Hq. by apply HR.
Qed.
End allocproc.
End procmem.
