(* ===== verification/Plic.v ===== *)
(** * Device registers and the interrupt controller (kernel/plic.c)

    A device register is read through the class [Hw], which gives the value of
    every read by its number and address, and written by adding the address
    and value to the record of writes [mmio].  The class stands for the
    hardware; the theorems hold for any behaviour of it that they do not
    exclude by a hypothesis. *)
From S2P Require Import Prelude Memory Riscv State Spinlock.

Class Hw := { hw_read : nat -> Z -> Z }.

Section registers.
Context {H : Hw}.

Definition rdreg (a : Z) : M Z :=
  n ← gets (fun s => reads (k_dev s));
  modify (fun s => s <| k_dev := (k_dev s) <| reads := S n |> |>);;
  mret (hw_read n a).
Definition wrreg (a v : Z) : M unit :=
  modify (fun s => s <| k_dev := (k_dev s) <| mmio := (a, v) :: mmio (k_dev s) |> |>).

Definition rd32 (a : Z) : M Z := v ← rdreg a; mret (u32 v).
Definition wr32 (a v : Z) : M unit := wrreg a (u32 v).

(** ** kernel/memlayout.h *)
Definition PLIC_SENABLE (hart : Z) : Z := PLIC + 0x2080 + hart * 0x100.
Definition PLIC_SPRIORITY (hart : Z) : Z := PLIC + 0x201000 + hart * 0x2000.
Definition PLIC_SCLAIM (hart : Z) : Z := PLIC + 0x201004 + hart * 0x2000.

(** ** kernel/plic.c *)
Definition plicinit : M unit :=
  wr32 (PLIC + UART0_IRQ * 4) 1;;
  wr32 (PLIC + VIRTIO0_IRQ * 4) 1.

Definition plicinithart : M unit :=
  hart ← cpuid;
  wr32 (PLIC_SENABLE hart) (Z.lor (Z.shiftl 1 UART0_IRQ) (Z.shiftl 1 VIRTIO0_IRQ));;
  wr32 (PLIC_SPRIORITY hart) 0.

Definition plic_claim : M Z :=
  hart ← cpuid;
  irq ← rd32 (PLIC_SCLAIM hart);
  mret (i32 irq).

Definition plic_complete (irq : Z) : M unit :=
  hart ← cpuid;
  wr32 (PLIC_SCLAIM hart) irq.

End registers.
