(* ===== verification/Console.v ===== *)
(** * The UART, formatted output and the console (kernel/uart.c, printf.c, console.c)

    The UART driver has a transmit ring buffer; the console edits a line of
    input in place and hands out whole lines. *)
From S2P Require Import Prelude Memory Riscv State Spinlock Kalloc Vm Proc Plic.

Definition get_dev : M devs := gets k_dev.
Definition upd_dev (f : devs -> devs) : M unit := modify (fun s => s <| k_dev := f (k_dev s) |>).

(** ** kernel/uart.c *)
Definition RHR : Z := 0.
Definition THR : Z := 0.
Definition IER : Z := 1.
Definition IER_RX_ENABLE : Z := Z.shiftl 1 0.
Definition IER_TX_ENABLE : Z := Z.shiftl 1 1.
Definition FCR : Z := 2.
Definition FCR_FIFO_ENABLE : Z := Z.shiftl 1 0.
Definition FCR_FIFO_CLEAR : Z := Z.shiftl 3 1.
Definition LCR : Z := 3.
Definition LCR_EIGHT_BITS : Z := Z.shiftl 3 0.
Definition LCR_BAUD_LATCH : Z := Z.shiftl 1 7.
Definition LSR : Z := 5.
Definition LSR_TX_IDLE : Z := Z.shiftl 1 5.
Definition UART_TX_BUF_SIZE : Z := 32.
Definition Reg (reg : Z) : Z := UART0 + reg.

Section uart.
Context {E : Env} {H : Hw}.

Definition ReadReg (reg : Z) : M Z := v ← rdreg (Reg reg); mret (u8 v).
Definition WriteReg (reg v : Z) : M unit := wrreg (Reg reg) (u8 v).

Definition uartinit : M unit :=
  WriteReg IER 0x00;;
  WriteReg LCR LCR_BAUD_LATCH;;
  WriteReg 0 0x03;;
  WriteReg 1 0x00;;
  WriteReg LCR LCR_EIGHT_BITS;;
  WriteReg FCR (Z.lor FCR_FIFO_ENABLE FCR_FIFO_CLEAR);;
  WriteReg IER (Z.lor IER_TX_ENABLE IER_RX_ENABLE);;
  put_lock L_uart initlock.

Definition uartstart : M unit :=
  loop (fun _ : unit =>
    d ← get_dev;
    if uart_tx_w d =? uart_tx_r d then mret (inr tt) else
    lsr ← ReadReg LSR;
    if Z.land lsr LSR_TX_IDLE =? 0 then mret (inr tt) else
    let c := uart_tx_buf d !!! Z.to_nat (uart_tx_r d mod UART_TX_BUF_SIZE) in
    upd_dev (fun d => d <| uart_tx_r := u64 (uart_tx_r d + 1) |>);;
    wakeup ChUart;;
    WriteReg THR c;;
    mret (inl tt)) tt.

Definition uartputc (c : Z) : M unit :=
  acquire L_uart;;
  d ← get_dev;
  if truth (panicked d) then spin else
  loop (fun _ : unit =>
    d ← get_dev;
    if uart_tx_w d =? u64 (uart_tx_r d + UART_TX_BUF_SIZE) then
      sleep ChUart L_uart;; mret (inl tt)
    else
      upd_dev (fun d => d <| uart_tx_buf :=
        <[ Z.to_nat (uart_tx_w d mod UART_TX_BUF_SIZE) := u8 c ]> (uart_tx_buf d) |>);;
      upd_dev (fun d => d <| uart_tx_w := u64 (uart_tx_w d + 1) |>);;
      uartstart;;
      release L_uart;;
      mret (inr tt)) tt.

Definition uartputc_sync (c : Z) : M unit :=
  push_off;;
  d ← get_dev;
  if truth (panicked d) then spin else
  loop (fun _ : unit =>
    lsr ← ReadReg LSR;
    if Z.land lsr LSR_TX_IDLE =? 0 then mret (inl tt) else mret (inr tt)) tt;;
  WriteReg THR c;;
  pop_off.

Definition uartgetc : M Z :=
  lsr ← ReadReg LSR;
  if truth (Z.land lsr 0x01) then ReadReg RHR else mret (-1).

(** ** kernel/console.c: output *)
Definition BACKSPACE : Z := 0x100.
(** [C('D')] is the control character, [x - '@']. *)
Definition C (x : Z) : Z := x - 64.
Definition INPUT_BUF : Z := 128.

Definition consputc (c : Z) : M unit :=
  if c =? BACKSPACE then uartputc_sync 8;; uartputc_sync 32;; uartputc_sync 8
  else uartputc_sync c.

(** ** kernel/printf.c *)
Definition digits : list Z := bytes_of "0123456789abcdef".

(** The digits of [x], least significant first; ten are enough for 32 bits
    in base 10 and eight in base 16. *)
Fixpoint int_digits (fuel : nat) (x base : Z) : list Z :=
  match fuel with
  | O => []
  | S fuel => digits !!! Z.to_nat (x mod base) ::
              (if x / base =? 0 then [] else int_digits fuel (x / base) base)
  end.
(** What [printint] leaves in [buf], from the first character printed. *)
Definition printint_chars (xx base : Z) (sign : bool) : list Z :=
  let neg := sign && (xx <? 0) in
  let x := u32 (if neg then - xx else xx) in
  rev (int_digits 32 x base ++ (if neg then [45] else [])).
Definition printint (xx base : Z) (sign : bool) : M unit :=
  for_each (printint_chars xx base sign) consputc.

Definition printptr_chars (x : Z) : list Z :=
  48 :: 120 :: ((fun i => digits !!! Z.to_nat (Z.shiftr (u64 (Z.shiftl x (4 * Z.of_nat i))) 60)) <$> seq 0 16).
Definition printptr (x : Z) : M unit := for_each (printptr_chars x) consputc.

(** An argument after the format: an integer or pointer, or a string. *)
Inductive vararg := VInt (x : Z) | VStr (s : option (list Z)).

(** The loop of [printf] over the format.  A missing argument, or one of the
    wrong type, is undefined in C; the model stops there. *)
Fixpoint printf_loop (fmt : list Z) (ap : list vararg) : M unit :=
  match fmt with
  | [] => mret tt
  | c :: fmt =>
      if negb (c =? 37) then consputc c;; printf_loop fmt ap else
      match fmt with
      | [] => mret tt
      | c :: fmt =>
          if c =? 100 then
            match ap with VInt x :: ap => printint (i32 x) 10 true;; printf_loop fmt ap | _ => spin end
          else if c =? 120 then
            match ap with VInt x :: ap => printint (i32 x) 16 true;; printf_loop fmt ap | _ => spin end
          else if c =? 112 then
            match ap with VInt x :: ap => printptr (u64 x);; printf_loop fmt ap | _ => spin end
          else if c =? 115 then
            match ap with
            | VStr s :: ap => for_each (default (bytes_of "(null)") s) consputc;; printf_loop fmt ap
            | _ => spin
            end
          else if c =? 37 then consputc 37;; printf_loop fmt ap
          else consputc 37;; consputc c;; printf_loop fmt ap
      end
  end.

Definition printf (fmt : list Z) (ap : list vararg) : M unit :=
  d ← get_dev;
  let locking := truth (pr_locking d) in
  (if locking then acquire L_pr else mret tt);;
  printf_loop fmt ap;;
  (if locking then release L_pr else mret tt).

Definition printfinit : M unit :=
  put_lock L_pr initlock;;
  upd_dev (fun d => d <| pr_locking := 1 |>).

(** kernel/proc.c *)
Definition state_name (st : procstate) : list Z :=
  match st with
  | UNUSED => bytes_of "unused"
  | SLEEPING => bytes_of "sleep "
  | RUNNABLE => bytes_of "runble"
  | RUNNING => bytes_of "run   "
  | ZOMBIE => bytes_of "zombie"
  | USED => bytes_of "???"
  end.
Definition procdump : M unit :=
  printf [10] [];;
  for_each all_procs (fun p =>
    pr ← get_proc p;
    if bool_decide (p_state pr = UNUSED) then mret tt else
    printf (bytes_of "%d %s %s")
      [VInt (p_pid pr); VStr (Some (state_name (p_state pr))); VStr (Some (cstr (p_name pr)))];;
    printf [10] []).

(** ** kernel/console.c: reading, writing and editing *)
Context {L : Linker}.

Definition consolewrite (src : source) (n : Z) : M Z :=
  loop (fun i =>
    if negb (i <? n) then mret (inr i) else
    r ← either_copyin (source_add src i) 1;
    if r.1 =? -1 then mret (inr i) else
    uartputc (r.2 !!! O);;
    mret (inl (i + 1))) 0.

(** The wait for input: [true] when the process was killed meanwhile, with
    the lock released. *)
Definition cons_wait : M bool :=
  loop (fun _ : unit =>
    d ← get_dev;
    if negb (cons_r d =? cons_w d) then mret (inr false) else
    p ← curproc;
    pr ← get_proc p;
    if truth (p_killed pr) then release L_cons;; mret (inr true) else
    sleep ChCons L_cons;;
    mret (inl tt)) tt.

Definition consoleread (dst : dest) (n : Z) : M Z :=
  let target := u32 n in
  acquire L_cons;;
  r ← loop (fun '(dst, n) =>
    if negb (0 <? n) then mret (inr (Some n)) else
    killed ← cons_wait;
    if killed : bool then mret (inr None) else
    d ← get_dev;
    let c := cons_buf d !!! Z.to_nat (cons_r d mod INPUT_BUF) in
    upd_dev (fun d => d <| cons_r := u32 (cons_r d + 1) |>);;
    if c =? C 68 then
      (if n <? target then upd_dev (fun d => d <| cons_r := u32 (cons_r d - 1) |>) else mret tt);;
      mret (inr (Some n))
    else
    r ← either_copyout dst [c];
    if r =? -1 then mret (inr (Some n)) else
    if c =? 10 then mret (inr (Some (n - 1))) else
    mret (inl (dest_add dst 1, n - 1))) (dst, n);
  match r with
  | None => mret (-1)
  | Some n => release L_cons;; mret (i32 (target - n))
  end.

Definition consoleintr (c : Z) : M unit :=
  acquire L_cons;;
  (if c =? C 80 then procdump
   else if c =? C 85 then
     loop (fun _ : unit =>
       d ← get_dev;
       if negb (cons_e d =? cons_w d) &&
          negb (cons_buf d !!! Z.to_nat (u32 (cons_e d - 1) mod INPUT_BUF) =? 10) then
         upd_dev (fun d => d <| cons_e := u32 (cons_e d - 1) |>);;
         consputc BACKSPACE;;
         mret (inl tt)
       else mret (inr tt)) tt
   else if (c =? C 72) || (c =? 0x7f) then
     d ← get_dev;
     if negb (cons_e d =? cons_w d) then
       upd_dev (fun d => d <| cons_e := u32 (cons_e d - 1) |>);;
       consputc BACKSPACE
     else mret tt
   else
     d ← get_dev;
     if negb (c =? 0) && (u32 (cons_e d - cons_r d) <? INPUT_BUF) then
       let c := if c =? 13 then 10 else c in
       consputc c;;
       upd_dev (fun d => d <| cons_buf := <[ Z.to_nat (cons_e d mod INPUT_BUF) := u8 c ]> (cons_buf d) |>);;
       upd_dev (fun d => d <| cons_e := u32 (cons_e d + 1) |>);;
       d ← get_dev;
       if (c =? 10) || (c =? C 68) || (cons_e d =? u32 (cons_r d + INPUT_BUF)) then
         upd_dev (fun d => d <| cons_w := cons_e d |>);;
         wakeup ChCons
       else mret tt
     else mret tt);;
  release L_cons.

Definition consoleinit : M unit :=
  put_lock L_cons initlock;;
  uartinit;;
  upd_dev (fun d => d <| devsw := <[ 1%nat := DevConsole ]> (devsw d) |>).

Definition uartintr : M unit :=
  loop (fun _ : unit =>
    c ← uartgetc;
    if c =? -1 then mret (inr tt) else
    consoleintr c;; mret (inl tt)) tt;;
  acquire L_uart;;
  uartstart;;
  release L_uart.

End uart.
