(* ===== verification/ConsoleSpec.v ===== *)
(** * Theorems on the UART, formatted output and the console

    The transmit buffer of the UART is a first-in first-out queue, whatever
    the hardware does; what [printint] prints reads back as the number; and
    the console hands out exactly the line that was typed and edited. *)
From S2P Require Import Prelude Memory Ring Riscv State Spinlock Kalloc Steps Pagetable Vm VmSpec Uvm Usercopy AddressSpace Proc ProcSpec UserMem Plic Console.

(** ** The UART *)

(** The bytes sent so far, and the bytes in the transmit buffer. *)
Definition sent (d : devs) : list Z := rev (snd <$> filter (fun e => e.1 = Reg THR) (mmio d)).
Definition tx_count (d : devs) : nat := Z.to_nat ((uart_tx_w d - uart_tx_r d) mod 2 ^ 64).
Definition pending (d : devs) : list Z := ring UART_TX_BUF_SIZE (uart_tx_buf d) (uart_tx_r d) (tx_count d).

Record uart_ok (d : devs) : Prop := {
  uart_len : length (uart_tx_buf d) = Z.to_nat UART_TX_BUF_SIZE;
  uart_w : is_u64 (uart_tx_w d);
  uart_r : is_u64 (uart_tx_r d);
  uart_count : Z.of_nat (tx_count d) <= UART_TX_BUF_SIZE;
  uart_bytes : Forall is_byte (uart_tx_buf d);
}.

Lemma tx_empty (d : devs) : uart_ok d -> uart_tx_w d = uart_tx_r d <-> tx_count d = 0%nat.
Proof.
  intros Hd. pose proof (count_zero (2 ^ 64) (uart_tx_w d) (uart_tx_r d) ltac:(lia) (uart_w d Hd) (uart_r d Hd)) as H.
  unfold tx_count. pose proof (Z.mod_pos_bound (uart_tx_w d - uart_tx_r d) (2 ^ 64) ltac:(lia)). rewrite <- H. lia.
Qed.

Lemma tx_count_eq (d : devs) : (uart_tx_w d - uart_tx_r d) mod 2 ^ 64 = Z.of_nat (tx_count d).
Proof.
  unfold tx_count. pose proof (Z.mod_pos_bound (uart_tx_w d - uart_tx_r d) (2 ^ 64) ltac:(lia)). lia.
Qed.

Lemma buf_size_div : (UART_TX_BUF_SIZE | 2 ^ 64).
Proof. exists (2 ^ 59). reflexivity. Qed.

(** Moving one byte from the buffer to the register. *)
Definition send_one (c : Z) (k : nat) (d : devs) : devs :=
  d <| reads := k |> <| uart_tx_r := u64 (uart_tx_r d + 1) |> <| mmio := (Reg THR, c) :: mmio d |>.

Lemma send_one_ok (d : devs) (k : nat) :
  uart_ok d -> tx_count d <> 0%nat ->
  let c := uart_tx_buf d !!! Z.to_nat (uart_tx_r d mod UART_TX_BUF_SIZE) in
  let d' := send_one (u8 c) k d in
  uart_ok d' /\ tx_count d = S (tx_count d') /\ sent d' ++ pending d' = sent d ++ pending d.
Proof.
  intros Hd Hn c d'. pose proof Hd as [Hl Hw Hr Hc Hb].
  destruct (tx_count d) as [|m] eqn:Em; [done|].
  assert (tx_count d' = m) as Em'.
  { unfold tx_count, d', send_one. cbn [uart_tx_w uart_tx_r set_with set_uart_tx_r set_mmio set_reads].
    unfold u64. rewrite (count_pop (2 ^ 64) _ _ m); [lia|lia| |unfold UART_TX_BUF_SIZE in Hc; lia].
    by rewrite tx_count_eq, Em. }
  assert (u8 c = c) as Ec.
  { apply u8_small. unfold c. apply (proj1 (Forall_lookup _ _) Hb (Z.to_nat (uart_tx_r d mod UART_TX_BUF_SIZE))).
    apply list_lookup_lookup_total_lt. rewrite Hl.
    pose proof (Z.mod_pos_bound (uart_tx_r d) UART_TX_BUF_SIZE ltac:(done)). lia. }
  split; [split|split].
  - exact Hl.
  - exact Hw.
  - apply u64_range.
  - rewrite Em'. lia.
  - exact Hb.
  - by rewrite Em'.
  - unfold pending. rewrite Em, Em'. rewrite ring_pop.
    unfold d', send_one. cbn [uart_tx_buf uart_tx_r set_with set_uart_tx_r set_mmio set_reads].
    change (u64 (uart_tx_r d + 1)) with ((uart_tx_r d + 1) mod 2 ^ 64). rewrite (ring_wrap UART_TX_BUF_SIZE ltac:(done) _ _ _ _ buf_size_div) by lia.
    unfold sent. cbn [mmio set_with set_mmio set_uart_tx_r set_reads]. rewrite filter_cons_True by done.
    cbn [fmap list_fmap snd rev]. rewrite <- (assoc_L app). fold c. by rewrite Ec.
Qed.

Section uart.
Context {E : Env} {H : Hw}.

Definition LSR_idle (k : nat) : Prop := Z.land (u8 (hw_read k (Reg LSR))) LSR_TX_IDLE <> 0.

(** The effect of [uartstart] on the devices: it only moves bytes out. *)
Record started (d d' : devs) : Prop := {
  started_ok : uart_ok d';
  started_fifo : sent d' ++ pending d' = sent d ++ pending d;
  started_same : exists m k r, d' = d <| mmio := m |> <| reads := k |> <| uart_tx_r := r |>;
  started_le : (tx_count d' <= tx_count d)%nat;
}.

Lemma started_refl (d : devs) : uart_ok d -> started d d.
Proof. intros Hd. split; [done|done| |done]. exists (mmio d), (reads d), (uart_tx_r d). by destruct d. Qed.

Lemma started_reads (d d' : devs) (k : nat) : started d d' -> started d (d' <| reads := k |>).
Proof.
  intros [Hok Hf (m & j & r & ->) Hle]. split; [by destruct Hok; split|exact Hf| |exact Hle].
  by exists m, k, r.
Qed.

Lemma started_send (d d' : devs) (k : nat) :
  started d d' -> tx_count d' <> 0%nat ->
  started d (send_one (u8 (uart_tx_buf d' !!! Z.to_nat (uart_tx_r d' mod UART_TX_BUF_SIZE))) k d').
Proof.
  intros [Hok Hf (m & j & r & ->) Hle] Hn.
  destruct (send_one_ok _ k Hok Hn) as (Hok' & Ec & Ef). split.
  - exact Hok'.
  - by rewrite Ef.
  - eexists _, _, _. reflexivity.
  - lia.
Qed.

Lemma kuartstart (c : ctl) h pt ft fs vd dev n (Q : unit -> kstate -> Prop) :
  cpu_ok c -> (forall i, lock_free (L_proc i) c) -> procs_ok pt -> uart_ok dev ->
  (forall pt' dev', wakes ChUart (cur c) pt pt' -> started dev dev' ->
     ((forall k, LSR_idle k) -> pending dev' = []) ->
     Q tt (KState c h pt' ft fs vd dev' n)) ->
  runs uartstart (KState c h pt ft fs vd dev n) Q.
Proof.
  intros Hc Hf Hp Hd HQ. unfold uartstart.
  apply (runs_loop
    (fun _ s => exists pt' dev', s = KState c h pt' ft fs vd dev' n /\
       wakes ChUart (cur c) pt pt' /\ started dev dev')
    (fun _ s => Z.of_nat (tx_count (k_dev s)))).
  - exists pt, dev. split_and!; [done|apply wakes_refl|by apply started_refl].
  - pose proof (uart_count dev Hd). cbn [k_dev]. unfold UART_TX_BUF_SIZE in *. lia.
  - intros [] s (pt' & d & -> & Hw & Hs). pose proof (started_ok _ _ Hs) as Hok.
    pose proof (tx_empty d Hok) as He. do 2 kstep.
    destruct (Z.eqb_spec (uart_tx_w d) (uart_tx_r d)) as [Ew|Ew].
    { kstep. apply HQ; [done..|]. intros _. unfold pending. by rewrite (proj1 He Ew). }
    unfold ReadReg, rdreg. do 7 kstep.
    destruct (Z.eqb_spec (Z.land (u8 (hw_read (reads d) (Reg LSR))) LSR_TX_IDLE) 0) as [El|El].
    { kstep. apply HQ; [done|by apply started_reads|]. intros Hidle. by destruct (Hidle (reads d)). }
    assert (tx_count d <> 0%nat) as Hn by (by rewrite <- He).
    do 3 kstep. apply kwakeup; [done|done|by eapply wakes_ok|]. unfold WriteReg, wrreg. ksteps.
    pose proof (send_one_ok d (S (reads d)) Hok Hn) as (_ & Ecnt & _).
    pose proof (started_send dev d (S (reads d)) Hs Hn) as Hs'.
    split; [eexists _, _; split; [reflexivity|]; split; [by apply wakes_step|exact Hs']|].
    split; [lia|]. rewrite Ecnt. apply inj_lt, Nat.lt_succ_diag_r.
Qed.

Lemma tx_room (d : devs) : uart_ok d ->
  uart_tx_w d = u64 (uart_tx_r d + UART_TX_BUF_SIZE) <-> Z.of_nat (tx_count d) = UART_TX_BUF_SIZE.
Proof.
  intros Hd. rewrite <- tx_count_eq. symmetry.
  apply count_full; [lia|done|apply Hd|apply Hd].
Qed.

(** Putting a byte into the buffer. *)
Definition put_one (c : Z) (d : devs) : devs :=
  d <| uart_tx_buf := <[ Z.to_nat (uart_tx_w d mod UART_TX_BUF_SIZE) := u8 c ]> (uart_tx_buf d) |>
    <| uart_tx_w := u64 (uart_tx_w d + 1) |>.

Lemma put_one_ok (c : Z) (d : devs) :
  uart_ok d -> Z.of_nat (tx_count d) < UART_TX_BUF_SIZE ->
  uart_ok (put_one c d) /\ tx_count (put_one c d) = S (tx_count d) /\
  sent (put_one c d) ++ pending (put_one c d) = (sent d ++ pending d) ++ [u8 c].
Proof.
  intros Hd Hn. pose proof Hd as [Hl Hw Hr Hc Hb].
  assert (tx_count (put_one c d) = S (tx_count d)) as En.
  { unfold tx_count at 1, put_one. cbn [uart_tx_w uart_tx_r set_with set_uart_tx_w set_uart_tx_buf].
    unfold u64. rewrite (count_push (2 ^ 64) _ _ (tx_count d)); [lia|lia|apply tx_count_eq|].
    unfold UART_TX_BUF_SIZE in Hn. lia. }
  split; [split|split; [done|]].
  - cbn. by rewrite length_insert.
  - apply u64_range.
  - exact Hr.
  - rewrite En. lia.
  - cbn. by apply Forall_insert; [|apply u8_range].
  - unfold pending. rewrite En. unfold sent, put_one.
    cbn [mmio uart_tx_buf uart_tx_r set_with set_uart_tx_w set_uart_tx_buf].
    rewrite <- (assoc_L app). f_equal. rewrite <- (ring_push UART_TX_BUF_SIZE ltac:(done)) by done.
    do 3 f_equal. apply (slot_eq _ (2 ^ 64)); [done|apply buf_size_div|lia|apply tx_count_eq].
Qed.

(** A byte goes in at the end of the queue. *)
Lemma kuartputc (x : Z) (c : ctl) h pt ft fs vd dev n (Q : unit -> kstate -> Prop) :
  calm c -> procs_ok pt -> uart_ok dev -> panicked dev = 0 -> Z.of_nat (tx_count dev) < UART_TX_BUF_SIZE ->
  (forall pt' dev', wakes ChUart (cur c) pt pt' -> started (put_one x dev) dev' ->
     ((forall k, LSR_idle k) -> pending dev' = []) ->
     Q tt (KState c h pt' ft fs vd dev' n)) ->
  runs (uartputc x) (KState c h pt ft fs vd dev n) Q.
Proof.
  intros Hc Hp Hd Hpan Hn HQ. destruct (put_one_ok x dev Hd Hn) as (Hok & _ & _).
  unfold uartputc. do 4 kstep. rewrite Hpan. change (truth 0) with false. cbv iota.
  apply (runs_loop (fun _ s => s = KState (locked_ctl L_uart c) h pt ft fs vd dev n) (fun _ _ => 0)); [done|lia|].
  intros [] s ->. do 2 kstep.
  destruct (Z.eqb_spec (uart_tx_w dev) (u64 (uart_tx_r dev + UART_TX_BUF_SIZE))) as [Ef|_].
  { apply tx_room in Ef; [|done]. lia. }
  do 5 kstep. apply kuartstart; [kside|kside|done|exact Hok|].
  intros pt' dev' Hw Hs Hi. rewrite cur_locked in Hw by kside. ksteps. by apply HQ.
Qed.

End uart.

(** The transmit buffer of the UART is a queue: after any characters are
    written, as long as they fit the buffer, what has been sent followed by
    what still waits is what it was before followed by the new characters, in
    order, none lost, added or repeated, whatever the line status register
    says at each look.  When the UART is always ready, nothing is left
    waiting. *)
Theorem uart_fifo {E : Env} {H : Hw} (cs : list Z) (s : kstate) :
  calm (k_ctl s) -> procs_ok (k_pt s) -> uart_ok (k_dev s) -> panicked (k_dev s) = 0 ->
  Z.of_nat (tx_count (k_dev s) + length cs) <= UART_TX_BUF_SIZE ->
  runs (for_each cs uartputc) s (fun _ s' =>
    uart_ok (k_dev s') /\ k_ctl s' = k_ctl s /\
    sent (k_dev s') ++ pending (k_dev s') = sent (k_dev s) ++ pending (k_dev s) ++ (u8 <$> cs) /\
    ((forall k, LSR_idle k) -> cs <> [] -> pending (k_dev s') = [])).
Proof.
  destruct s as [c h pt ft fs vd dev n]. cbn [k_ctl k_pt k_dev]. intros Hc Hp Hd Hpan Hroom.
  apply (runs_for_each (fun l s => exists before pt' d, cs = before ++ l /\
    s = KState c h pt' ft fs vd d n /\ procs_ok pt' /\ uart_ok d /\ panicked d = 0 /\
    Z.of_nat (tx_count d + length l) <= UART_TX_BUF_SIZE /\
    sent d ++ pending d = sent dev ++ pending dev ++ (u8 <$> before) /\
    ((forall k, LSR_idle k) -> before <> [] -> pending d = []))).
  - exists [], pt, dev. split_and!; try done. by rewrite fmap_nil, app_nil_r.
  - intros x l s (before & pt' & d & -> & -> & Hp' & Hd' & Hpan' & Hroom' & Hf & _).
    cbn [length] in Hroom'. destruct (put_one_ok x d Hd' ltac:(lia)) as (_ & Ecnt & Eput).
    apply kuartputc; [done..|lia|]. intros pt2 d2 Hw Hs Hidle. destruct Hs as [Hok2 Hf2 (m & k & r & Ed) Hle].
    assert (panicked d2 = 0) as Hpan2 by (by rewrite Ed).
    exists (before ++ [x]), pt2, d2. split_and!; [by rewrite <- (assoc_L app)|reflexivity|by eapply wakes_ok|done|done|lia| |].
    + rewrite Hf2, Eput, Hf, fmap_app, !(assoc_L app). done.
    + intros Hi _. by apply Hidle.
  - intros s (before & pt' & d & -> & -> & _ & Hd' & _ & _ & Hf & Hidle). rewrite app_nil_r in *. done.
Qed.

(** The hardware is ready at every third look only. *)
Definition demo_hw : Hw := {| hw_read n _ := if (Z.of_nat n mod 3 =? 2) then 0x20 else 0 |}.
Definition demo_devs : devs := Devs [] 0 (replicate 32 0) (2 ^ 64 - 2) (2 ^ 64 - 2) [] 0 0 0 0 0 [] 0.

Lemma demo_uart_ok : uart_ok demo_devs.
Proof. split; [done|by vm_compute|by vm_compute|by vm_compute|]. apply Forall_replicate. unfold is_byte. lia. Qed.

Lemma uart_fifo_witness :
  let s := (demo_state demo_ctl) <| k_dev := demo_devs |> in
  runs (for_each [104; 105; 33; 10] (uartputc (E := demo_env) (H := demo_hw))) s (fun _ s' =>
    sent (k_dev s') ++ pending (k_dev s') = [104; 105; 33; 10]).
Proof.
  eapply runs_mono; [apply (uart_fifo (E := demo_env) (H := demo_hw))|].
  - split; [exact demo_ctl_ok|reflexivity].
  - reflexivity.
  - exact demo_uart_ok.
  - reflexivity.
  - vm_compute. discriminate.
  - intros [] s' (_ & _ & E & _). rewrite E. reflexivity.
Defined.

(** ** Output without the buffer *)

(** The UART gets ready again and again. *)
Definition responsive {H : Hw} : Prop :=
  forall k, exists j, (k <= j)%nat /\ Z.of_nat j - Z.of_nat k < 2 ^ 63 /\ LSR_idle j.

Section sync.
Context {H : Hw}.
Hypothesis Hresp : responsive.

(** The devices after [cs] have been written to the transmit register. *)
Definition printed (cs : list Z) (d d' : devs) : Prop :=
  exists k, d' = d <| reads := k |> <| mmio := rev ((fun x => (Reg THR, u8 x)) <$> cs) ++ mmio d |>.

Lemma printed_nil (d : devs) : printed [] d d.
Proof. exists (reads d). by destruct d. Qed.

Lemma printed_app (cs cs' : list Z) (d d1 d2 : devs) :
  printed cs d d1 -> printed cs' d1 d2 -> printed (cs ++ cs') d d2.
Proof.
  intros (k & ->) (k' & ->). exists k'. rewrite fmap_app, rev_app_distr, <- (assoc_L app). by destruct d.
Qed.

Lemma printed_sent (cs : list Z) (d d' : devs) : printed cs d d' -> sent d' = sent d ++ (u8 <$> cs).
Proof.
  intros (k & ->). unfold sent. cbn [mmio set_with set_mmio set_reads].
  induction cs as [|x cs IH] using rev_ind; [by rewrite app_nil_r|].
  rewrite !fmap_app, rev_app_distr. cbn [fmap list_fmap rev app]. rewrite filter_cons_True by done.
  cbn [fmap list_fmap snd rev]. by rewrite IH, <- (assoc_L app).
Qed.

Lemma kuartputc_sync (x : Z) (c : ctl) h pt ft fs vd dev n (Q : unit -> kstate -> Prop) :
  cpu_ok c -> panicked dev = 0 ->
  (forall dev', printed [x] dev dev' -> Q tt (KState c h pt ft fs vd dev' n)) ->
  runs (uartputc_sync x) (KState c h pt ft fs vd dev n) Q.
Proof.
  intros Hc Hp HQ. unfold uartputc_sync. do 4 kstep.
  rewrite Hp. change (truth 0) with false. cbv iota. kstep.
  destruct (Hresp (reads dev)) as (j & Hj & Hb & Hidle).
  apply (runs_loop
    (fun _ s => exists k, s = KState (pushed c) h pt ft fs vd (dev <| reads := k |>) n /\ (k <= j)%nat)
    (fun _ s => Z.of_nat j - Z.of_nat (reads (k_dev s)))).
  - exists (reads dev). split; [by destruct dev|done].
  - cbn [k_dev]. lia.
  - intros [] s (k & -> & Hk). unfold ReadReg, rdreg. do 7 kstep. cbn [reads set_with set_reads].
    destruct (Z.eqb_spec (Z.land (u8 (hw_read k (Reg LSR))) LSR_TX_IDLE) 0) as [El|El]; kstep.
    + assert (k <> j) by (intros ->; by apply Hidle).
      split; [exists (S k); split; [by destruct dev|lia]|]. cbn [k_dev reads set_with set_reads]. lia.
    + unfold WriteReg, wrreg. ksteps. apply HQ. exists (S k). by destruct dev.
Qed.

(** What a character puts on the line; [BACKSPACE] rubs one out. *)
Definition echo (c : Z) : list Z := if c =? BACKSPACE then [8; 32; 8] else [c].

Lemma kconsputc (x : Z) (c : ctl) h pt ft fs vd dev n (Q : unit -> kstate -> Prop) :
  cpu_ok c -> panicked dev = 0 ->
  (forall dev', printed (echo x) dev dev' -> Q tt (KState c h pt ft fs vd dev' n)) ->
  runs (consputc x) (KState c h pt ft fs vd dev n) Q.
Proof.
  intros Hc Hp HQ. unfold consputc, echo in *. destruct (x =? BACKSPACE); [|by apply kuartputc_sync].
  kstep. apply kuartputc_sync; [done..|]. intros d1 P1. kstep.
  apply kuartputc_sync; [done|by destruct P1 as (? & ->)|]. intros d2 P2.
  apply kuartputc_sync; [done|by destruct P1 as (? & ->), P2 as (? & ->)|]. intros d3 P3.
  apply HQ. exact (printed_app [8] [32; 8] _ _ _ P1 (printed_app [32] [8] _ _ _ P2 P3)).
Qed.

Lemma kprint (cs : list Z) (c : ctl) h pt ft fs vd dev n (Q : unit -> kstate -> Prop) :
  cpu_ok c -> panicked dev = 0 ->
  (forall dev', printed (cs ≫= echo) dev dev' -> Q tt (KState c h pt ft fs vd dev' n)) ->
  runs (for_each cs consputc) (KState c h pt ft fs vd dev n) Q.
Proof.
  intros Hc Hp HQ.
  apply (runs_for_each (fun l s => exists before d, cs = before ++ l /\
    s = KState c h pt ft fs vd d n /\ printed (before ≫= echo) dev d)).
  - exists [], dev. split_and!; [done|done|apply printed_nil].
  - intros x l s (before & d & -> & -> & P). apply kconsputc; [done|by destruct P as (? & ->)|].
    intros d' P'. exists (before ++ [x]), d'. split_and!; [by rewrite <- (assoc_L app)|done|].
    rewrite bind_app. apply (printed_app _ _ _ d); [done|]. cbn. by rewrite app_nil_r.
  - intros s (before & d & -> & -> & P). rewrite app_nil_r in *. by apply HQ.
Qed.
End sync.

(** ** Numbers, printed and read back *)

(** A reader of numbers: the value of a digit, of a string of digits, most
    significant first, and of an optional sign before them. *)
Definition digit_value (c : Z) : Z := if c <? 58 then c - 48 else c - 97 + 10.
Definition digits_value (base : Z) (l : list Z) : Z := fold_left (fun v c => v * base + digit_value c) l 0.
Definition number_value (base : Z) (l : list Z) : Z :=
  match l with
  | 45 :: l => - digits_value base l
  | l => digits_value base l
  end.

Lemma digit_ok (x : Z) : 0 <= x < 16 ->
  digit_value (digits !!! Z.to_nat x) = x /\ 48 <= digits !!! Z.to_nat x < 128.
Proof.
  intros Hx. assert (In x (Z.of_nat <$> seq 0 16)) as Hin.
  { apply list_elem_of_In, list_elem_of_fmap. exists (Z.to_nat x). split; [lia|]. apply elem_of_seq. lia. }
  cbn in Hin. destruct_or! Hin; subst; try done; by vm_compute.
Qed.

Lemma int_digits_value (fuel : nat) (x base : Z) :
  2 <= base <= 16 -> 0 <= x < base ^ Z.of_nat fuel -> digits_value base (rev (int_digits fuel x base)) = x.
Proof.
  intros Hb. revert x. induction fuel as [|fuel IH]; intros x Hx; [cbn in *; lia|].
  pose proof (Z.mod_pos_bound x base ltac:(lia)). pose proof (Z.div_mod x base ltac:(lia)) as Ediv.
  cbn [int_digits rev]. unfold digits_value. rewrite fold_left_app. cbn [fold_left].
  rewrite (proj1 (digit_ok (x mod base) ltac:(lia))).
  destruct (Z.eqb_spec (x / base) 0) as [E|E]; [cbn; nia|].
  fold (digits_value base (rev (int_digits fuel (x / base) base))). rewrite IH; [nia|].
  rewrite Nat2Z.inj_succ, Z.pow_succ_r in Hx by lia.
  split; [apply Z.div_pos; lia|]. apply Z.div_lt_upper_bound; lia.
Qed.

Lemma int_digits_length (fuel m : nat) (x base : Z) :
  2 <= base -> 0 <= x < base ^ Z.of_nat (S m) -> (length (int_digits fuel x base) <= S m)%nat.
Proof.
  intros Hb. revert m x. induction fuel as [|fuel IH]; intros m x Hx; cbn [int_digits length]; [lia|].
  destruct (Z.eqb_spec (x / base) 0) as [E|E]; [cbn; lia|]. destruct m as [|m].
  - exfalso. apply E. apply Z.div_small. rewrite Z.pow_1_r in Hx. lia.
  - apply le_n_S. apply IH. rewrite Nat2Z.inj_succ, Z.pow_succ_r in Hx by lia.
    split; [apply Z.div_pos; lia|]. apply Z.div_lt_upper_bound; lia.
Qed.

Lemma int_digits_chars (fuel : nat) (x base : Z) :
  2 <= base <= 16 -> 0 <= x -> Forall (fun c => 48 <= c < 128) (int_digits fuel x base).
Proof.
  intros Hb. revert x. induction fuel as [|fuel IH]; intros x Hx; cbn [int_digits]; [done|].
  pose proof (Z.mod_pos_bound x base ltac:(lia)). constructor; [apply digit_ok; lia|].
  destruct (x / base =? 0); [done|]. apply IH. apply Z.div_pos; lia.
Qed.

Lemma unsigned_value (base : Z) (l : list Z) :
  Forall (fun c => 48 <= c < 128) l -> number_value base (rev l) = digits_value base (rev l).
Proof.
  intros Hl. apply List.Forall_rev in Hl. unfold number_value. destruct (rev l) as [|c cs]; [done|].
  inversion_clear Hl. destruct (Z.eq_dec c 45); [lia|]. by repeat case_match; subst.
Qed.

Lemma printint_value (xx base : Z) :
  2 <= base <= 16 -> - 2 ^ 31 <= xx < 2 ^ 31 -> number_value base (printint_chars xx base true) = xx.
Proof.
  intros Hb Hx. assert (2 ^ 32 <= base ^ Z.of_nat 32) as Hp.
  { change (Z.of_nat 32) with 32. apply Z.pow_le_mono_l. lia. }
  unfold printint_chars. rewrite andb_true_l. destruct (Z.ltb_spec xx 0) as [Hn|Hn].
  - rewrite rev_app_distr. cbn [rev app number_value].
    rewrite (u32_small (- xx)) by (unfold is_u32; lia). rewrite int_digits_value by lia. lia.
  - rewrite app_nil_r, (u32_small xx) by (unfold is_u32; lia).
    rewrite unsigned_value by (apply int_digits_chars; lia). apply int_digits_value; lia.
Qed.

Lemma printint_length (xx base : Z) (m : nat) :
  2 <= base <= 16 -> - 2 ^ 31 <= xx < 2 ^ 31 -> 2 ^ 31 < base ^ Z.of_nat (S m) ->
  (length (printint_chars xx base true) <= S (S m))%nat.
Proof.
  intros Hb Hx Hm. unfold printint_chars. rewrite length_rev, length_app, andb_true_l.
  destruct (Z.ltb_spec xx 0) as [Hn|Hn]; rewrite u32_small by (unfold is_u32; lia); cbn [length].
  - pose proof (int_digits_length 32 m (- xx) base). lia.
  - pose proof (int_digits_length 32 m xx base). lia.
Qed.

Lemma printint_plain (xx base : Z) (sign : bool) :
  2 <= base <= 16 -> Forall (fun c => 45 <= c < 128) (printint_chars xx base sign).
Proof.
  intros Hb. unfold printint_chars. apply List.Forall_rev, Forall_app. split.
  - eapply List.Forall_impl; [|apply int_digits_chars; [done|apply u32_range]]. cbn. lia.
  - destruct (sign && (xx <? 0)); repeat constructor; lia.
Qed.

Lemma plain_echo (cs : list Z) : Forall (fun c => 45 <= c < 128) cs -> u8 <$> (cs ≫= echo) = cs.
Proof.
  induction 1 as [|c cs Hc _ IH]; [done|]. cbn [mbind list_bind]. rewrite fmap_app, IH.
  unfold echo. destruct (Z.eqb_spec c BACKSPACE) as [->|_]; [unfold BACKSPACE in Hc; lia|].
  cbn. rewrite u8_small by (unfold is_byte; lia). done.
Qed.

(** What [printint] prints reads back: with a UART that gets ready again
    and again, printing any [int] in base 10 or 16 ends, sends characters that
    a reader of signed numbers takes back to the number, the smallest one
    included, and never needs more than the sixteen bytes of its buffer. *)
Theorem printint_reads_back {H : Hw} (xx base : Z) (s : kstate) :
  responsive -> cpu_ok (k_ctl s) -> panicked (k_dev s) = 0 ->
  - 2 ^ 31 <= xx < 2 ^ 31 -> base = 10 \/ base = 16 ->
  (length (printint_chars xx base true) <= 16)%nat /\
  runs (printint xx base true) s (fun _ s' => exists l,
    sent (k_dev s') = sent (k_dev s) ++ l /\ number_value base l = xx /\ k_ctl s' = k_ctl s).
Proof.
  destruct s as [c h pt ft fs vd dev n]. cbn [k_ctl k_dev]. intros Hr Hc Hp Hx Hb.
  assert (2 <= base <= 16) as Hb' by (destruct Hb; lia). split.
  - assert (2 ^ 31 < base ^ Z.of_nat 10) as Hm by (by destruct Hb as [->| ->]).
    pose proof (printint_length xx base 9 Hb' Hx Hm). lia.
  - apply (kprint Hr); [done..|]. intros d P. exists (printint_chars xx base true). cbn [k_dev k_ctl].
    split_and!; [|by apply printint_value|done].
    rewrite (printed_sent _ _ _ P). by rewrite plain_echo by (by apply printint_plain).
Qed.

Lemma demo_responsive : responsive (H := demo_hw).
Proof.
  intros k. exists (k + (2 - k mod 3))%nat. pose proof (Nat.mod_upper_bound k 3 ltac:(lia)).
  pose proof (Nat.div_mod k 3 ltac:(lia)). split_and!; [lia|lia|]. unfold LSR_idle. cbn [hw_read demo_hw].
  replace (Z.of_nat (k + (2 - k mod 3)) mod 3) with 2; [done|].
  apply (Z.mod_unique _ _ (Z.of_nat (k / 3))); lia.
Qed.

Lemma printint_reads_back_witness :
  let s := (demo_state demo_ctl) <| k_dev := demo_devs |> in
  printint_chars (- 2 ^ 31) 10 true = bytes_of "-2147483648" /\
  runs (printint (H := demo_hw) (- 2 ^ 31) 10 true) s (fun _ s' => number_value 10 (sent (k_dev s')) = - 2 ^ 31).
Proof.
  intros s. split; [reflexivity|].
  eapply runs_mono; [refine (proj2 (printint_reads_back (H := demo_hw) (- 2 ^ 31) 10 s _ _ _ _ _))|].
  - exact demo_responsive.
  - exact demo_ctl_ok.
  - reflexivity.
  - lia.
  - by left.
  - intros [] s' (l & El & Ev & _). rewrite El. exact Ev.
Defined.

(** ** printf *)

(** The text of a format with its arguments, when they fit it. *)
Fixpoint format (fmt : list Z) (ap : list vararg) : option (list Z) :=
  match fmt with
  | [] => Some []
  | c :: fmt =>
      if negb (c =? 37) then (c ::.) <$> format fmt ap else
      match fmt with
      | [] => Some []
      | c :: fmt =>
          if c =? 100 then match ap with VInt x :: ap => (printint_chars (i32 x) 10 true ++.) <$> format fmt ap | _ => None end
          else if c =? 120 then match ap with VInt x :: ap => (printint_chars (i32 x) 16 true ++.) <$> format fmt ap | _ => None end
          else if c =? 112 then match ap with VInt x :: ap => (printptr_chars (u64 x) ++.) <$> format fmt ap | _ => None end
          else if c =? 115 then
            match ap with VStr s :: ap => (default (bytes_of "(null)") s ++.) <$> format fmt ap | _ => None end
          else if c =? 37 then (37 ::.) <$> format fmt ap
          else (fun l => 37 :: c :: l) <$> format fmt ap
      end
  end.

(** [m] prints [cs] and does nothing else, where [F] holds. *)
Definition prints {H : Hw} (F : ctl -> Prop) (m : M unit) (cs : list Z) : Prop :=
  forall (c : ctl) h pt ft fs vd dev n (Q : unit -> kstate -> Prop),
  cpu_ok c -> F c -> panicked dev = 0 ->
  (forall dev', printed (cs ≫= echo) dev dev' -> Q tt (KState c h pt ft fs vd dev' n)) ->
  runs m (KState c h pt ft fs vd dev n) Q.

Create HintDb prints.

Section printf.
Context {H : Hw}.
Hypothesis Hresp : responsive.

Lemma printed_alive (cs : list Z) (d d' : devs) : printed cs d d' -> panicked d' = panicked d.
Proof. by intros (k & ->). Qed.

Lemma prints_bind (F : ctl -> Prop) (m m' : M unit) (cs cs' : list Z) :
  prints F m cs -> prints F m' cs' -> prints F (m;; m') (cs ++ cs').
Proof.
  intros Hm Hm' c h pt ft fs vd dev n Q Hc Hf Hp HQ. kstep. apply Hm; [done..|]. intros d P.
  apply Hm'; [done|done|by rewrite (printed_alive _ _ _ P)|]. intros d' P'. apply HQ.
  rewrite bind_app. by eapply printed_app.
Qed.

Lemma prints_ret (F : ctl -> Prop) : prints F (mret tt) [].
Proof. intros c h pt ft fs vd dev n Q _ _ _ HQ. kstep. apply HQ, printed_nil. Qed.

Lemma prints_char (F : ctl -> Prop) (x : Z) : prints F (consputc x) [x].
Proof using Hresp.
  intros c h pt ft fs vd dev n Q Hc _ Hp HQ. apply (kconsputc Hresp); [done..|]. intros d P. apply HQ.
  cbn. by rewrite app_nil_r.
Qed.

Lemma prints_all (F : ctl -> Prop) (cs : list Z) : prints F (for_each cs consputc) cs.
Proof using Hresp. intros c h pt ft fs vd dev n Q Hc _ Hp HQ. by apply (kprint Hresp). Qed.

Hint Resolve prints_bind prints_ret prints_char prints_all : prints.

Lemma prints_then F (m m' : M unit) (cs : list Z) (o : option (list Z)) (f : list Z -> list Z) (l : list Z) :
  (forall r, f r = cs ++ r) -> prints F m cs -> (forall r, o = Some r -> prints F m' r) -> f <$> o = Some l ->
  prints F (m;; m') l.
Proof.
  intros Hf Hm Hm' E. apply fmap_Some in E as (r & -> & ->). rewrite Hf. auto with prints.
Qed.

(** The loop of [printf] prints the formatted text. *)
Lemma prints_format F (fmt : list Z) (ap : list vararg) (cs : list Z) :
  format fmt ap = Some cs -> prints F (printf_loop fmt ap) cs.
Proof using Hresp.
  remember (length fmt) as k eqn:Ek. revert fmt ap cs Ek. induction (lt_wf k) as [k _ IH].
  intros fmt ap cs ->. destruct fmt as [|x fmt]; cbn [format printf_loop]; [intros [= <-]; auto with prints|].
  destruct (negb (x =? 37)).
  { apply (prints_then _ _ _ [x]); [done|auto with prints|]. intros r. apply (IH (length fmt)); [cbn; lia|done]. }
  destruct fmt as [|y fmt]; [intros [= <-]; auto with prints|].
  assert (forall m pre f ap', (forall r, f r = pre ++ r) -> prints F m pre -> f <$> format fmt ap' = Some cs ->
    prints F (m;; printf_loop fmt ap') cs) as Hgo.
  { intros m pre f ap' Hf Hm. apply (prints_then _ _ _ pre); [done|done|].
    intros r. apply (IH (length fmt)); [cbn; lia|done]. }
  repeat case_match; try done; try (eapply Hgo; [intros; reflexivity|apply prints_all]);
    try (eapply (Hgo _ [_]); [intros; reflexivity|apply prints_char]).
  intros E. apply fmap_Some in E as (r & Er & ->). change (37 :: y :: r) with ([37] ++ [y] ++ r).
  apply prints_bind; [auto with prints|]. apply prints_bind; [auto with prints|].
  apply (IH (length fmt)) with (ap := ap); [cbn; lia|done|done].
Qed.

Lemma prints_printf (fmt : list Z) (ap : list vararg) (cs : list Z) :
  format fmt ap = Some cs -> prints (lock_free L_pr) (printf fmt ap) cs.
Proof using Hresp.
  intros E c h pt ft fs vd dev n Q Hc Hf Hp HQ. unfold printf. do 2 kstep.
  destruct (truth (pr_locking dev)).
  - do 3 kstep. apply (prints_format (fun _ => True) _ _ _ E); [kside|done|done|]. intros d P. kstep. by apply HQ.
  - do 3 kstep. apply (prints_format (fun _ => True) _ _ _ E); [done|done|done|]. intros d P. kstep. by apply HQ.
Qed.

(** The listing of the processes, whatever it is, is all that [procdump]
    changes. *)
Lemma kprocdump (c : ctl) h pt ft fs vd dev n (Q : unit -> kstate -> Prop) :
  cpu_ok c -> lock_free L_pr c -> panicked dev = 0 ->
  (forall cs dev', printed (cs ≫= echo) dev dev' -> Q tt (KState c h pt ft fs vd dev' n)) ->
  runs procdump (KState c h pt ft fs vd dev n) Q.
Proof using Hresp.
  intros Hc Hf Hp HQ. unfold procdump. kstep. apply (prints_printf _ _ [10]); [done..|]. intros d0 P0.
  apply (runs_for_each (fun _ s => exists cs d, s = KState c h pt ft fs vd d n /\ printed (cs ≫= echo) dev d)).
  - by exists [10], d0.
  - intros i l s (cs & d & -> & P). do 2 kstep.
    destruct (bool_decide (p_state (procs pt !!! i) = UNUSED)); [kstep; by exists cs, d|].
    assert (panicked d = 0) as Hd by (by rewrite (printed_alive _ _ _ P)).
    kstep. eapply prints_printf; [reflexivity|done..|]. intros d1 P1.
    assert (panicked d1 = 0) as Hd1 by (by rewrite (printed_alive _ _ _ P1)).
    apply (prints_printf _ _ [10]); [done..|]. intros d2 P2.
    eexists _, d2. split; [done|]. pose proof (printed_app _ _ _ _ _ (printed_app _ _ _ _ _ P P1) P2) as P3.
    rewrite <- !bind_app in P3. exact P3.
  - intros s (cs & d & -> & P). by eapply HQ.
Qed.
End printf.

(** ** The console *)

(** What the console promises: a line of input that can be edited, after the
    characters that readers may have. *)
Record line := Line { ready : list Z; edit : list Z }.

Definition ends_line (c : Z) : bool := (c =? 10) || (c =? C 68).

Definition typed (c : Z) (l : line) : line :=
  if c =? C 80 then l
  else if c =? C 85 then Line (ready l) []
  else if (c =? C 72) || (c =? 0x7f) then Line (ready l) (take (length (edit l) - 1) (edit l))
  else if negb (c =? 0) && (Z.of_nat (length (ready l ++ edit l)) <? INPUT_BUF) then
    let c := if c =? 13 then 10 else c in
    let e := edit l ++ [u8 c] in
    if ends_line c || (Z.of_nat (length (ready l ++ e)) =? INPUT_BUF) then Line (ready l ++ e) []
    else Line (ready l) e
  else l.

(** The ring buffer and its three counters hold a line. *)
Record cons_rep (d : devs) (l : line) : Prop := {
  cr_len : length (cons_buf d) = Z.to_nat INPUT_BUF;
  cr_r : is_u32 (cons_r d);
  cr_w : cons_w d = u32 (cons_r d + Z.of_nat (length (ready l)));
  cr_e : cons_e d = u32 (cons_r d + Z.of_nat (length (ready l ++ edit l)));
  cr_room : Z.of_nat (length (ready l ++ edit l)) <= INPUT_BUF;
  cr_ring : ring INPUT_BUF (cons_buf d) (cons_r d) (length (ready l ++ edit l)) = ready l ++ edit l;
  cr_edit : 10 ∉ edit l;
}.

Lemma input_div : (INPUT_BUF | 2 ^ 32).
Proof. exists (2 ^ 25). reflexivity. Qed.

Section rep.
Context {d : devs} {l : line}.
Hypothesis Hd : cons_rep d l.

Lemma rep_count : u32 (cons_e d - cons_r d) = Z.of_nat (length (ready l ++ edit l)).
Proof using Hd.
  rewrite (cr_e _ _ Hd). unfold u32. rewrite Zminus_mod_idemp_l.
  replace (cons_r d + Z.of_nat (length (ready l ++ edit l)) - cons_r d)
    with (Z.of_nat (length (ready l ++ edit l))) by lia.
  pose proof (cr_room _ _ Hd). unfold INPUT_BUF in *. apply Z.mod_small. lia.
Qed.

Lemma rep_edit : u32 (cons_e d - cons_w d) = Z.of_nat (length (edit l)).
Proof using Hd.
  rewrite (cr_e _ _ Hd), (cr_w _ _ Hd), length_app. unfold u32. rewrite <- Zminus_mod.
  pose proof (cr_room _ _ Hd) as Hr. rewrite length_app in Hr. unfold INPUT_BUF in Hr.
  rewrite Z.mod_small; lia.
Qed.

Lemma rep_empty : (cons_e d =? cons_w d) = bool_decide (edit l = []).
Proof using Hd.
  assert (is_u32 (cons_e d) /\ is_u32 (cons_w d)) as [He Hw].
  { rewrite (cr_e _ _ Hd), (cr_w _ _ Hd). split; apply u32_range. }
  pose proof (count_zero (2 ^ 32) (cons_e d) (cons_w d) ltac:(done) He Hw) as Hz. pose proof rep_edit as E.
  unfold u32 in E. rewrite E in Hz. destruct (edit l) as [|x e].
  - rewrite bool_decide_true by done. by apply Z.eqb_eq, Hz.
  - rewrite bool_decide_false by done. apply Z.eqb_neq. rewrite <- Hz. cbn [length]. lia.
Qed.

Lemma rep_full : Z.of_nat (length (ready l ++ edit l)) < INPUT_BUF ->
  (u32 (cons_e d + 1) =? u32 (cons_r d + INPUT_BUF)) = (Z.of_nat (S (length (ready l ++ edit l))) =? INPUT_BUF).
Proof using Hd.
  intros Hn. unfold INPUT_BUF in *.
  pose proof (count_full (2 ^ 32) (u32 (cons_e d + 1)) (cons_r d) 128 ltac:(done) ltac:(done)
    (u32_range _) (cr_r _ _ Hd)) as Hf.
  unfold u32 in *. rewrite (count_push _ _ _ (length (ready l ++ edit l))) in Hf; [|done|apply rep_count|lia].
  apply Bool.eq_iff_eq_true. by rewrite !Z.eqb_eq, Hf.
Qed.

Lemma rep_before : u32 (cons_e d - 1) = u32 (cons_r d + (Z.of_nat (length (ready l ++ edit l)) - 1)).
Proof using Hd.
  rewrite (cr_e _ _ Hd). unfold u32. rewrite Zminus_mod_idemp_l. f_equal. lia.
Qed.

(** The last character typed, and the line without it. *)
Lemma rep_last (e : list Z) (x : Z) :
  edit l = e ++ [x] ->
  cons_buf d !!! Z.to_nat (u32 (cons_e d - 1) mod INPUT_BUF) = x /\
  cons_rep (d <| cons_e := u32 (cons_e d - 1) |>) (Line (ready l) e).
Proof using Hd.
  intros Ee. pose proof Hd as [Hl Hr Hw He Hroom Hring Hed].
  rewrite Ee, (assoc_L app) in Hring, Hroom. rewrite length_app in Hring, Hroom. cbn [length] in *.
  rewrite Nat.add_1_r, ring_snoc in Hring. apply app_inj_tail in Hring as [Hring Hx].
  rewrite rep_before, Ee, (assoc_L app), (length_app (ready l ++ e)). cbn [length].
  replace (Z.of_nat (length (ready l ++ e) + 1) - 1) with (Z.of_nat (length (ready l ++ e))) by lia.
  split.
  - rewrite <- Hx. do 2 f_equal. unfold u32. apply Z.mod_mod_divide, input_div.
  - split; cbn [cons_buf cons_r cons_w cons_e ready edit set_with set_cons_e]; [done..|lia|done|].
    intros Hin. apply Hed. rewrite Ee. set_solver.
Qed.

(** A character more, that ends the line or not. *)
Lemma rep_put (x : Z) (commit : bool) :
  Z.of_nat (length (ready l ++ edit l)) < INPUT_BUF -> (x = 10 -> commit = true) ->
  let d' := d <| cons_buf := <[ Z.to_nat (cons_e d mod INPUT_BUF) := x ]> (cons_buf d) |>
              <| cons_e := u32 (cons_e d + 1) |> in
  cons_rep (if commit then d' <| cons_w := cons_e d' |> else d')
           (if commit then Line (ready l ++ edit l ++ [x]) [] else Line (ready l) (edit l ++ [x])).
Proof using Hd.
  intros Hn Hx d'. pose proof Hd as [Hl Hr Hw He Hroom Hring Hed].
  assert (cons_e d mod INPUT_BUF = (cons_r d + Z.of_nat (length (ready l ++ edit l))) mod INPUT_BUF) as Eslot.
  { rewrite He. unfold u32. apply Z.mod_mod_divide, input_div. }
  assert (ring INPUT_BUF (cons_buf d') (cons_r d) (S (length (ready l ++ edit l))) = ready l ++ edit l ++ [x]) as Hring'.
  { cbn [d' cons_buf set_with set_cons_buf set_cons_e]. rewrite Eslot.
    rewrite ring_push by done. by rewrite Hring, (assoc_L app). }
  assert (u32 (cons_e d + 1) = u32 (cons_r d + Z.of_nat (S (length (ready l ++ edit l))))) as Ee.
  { rewrite He. unfold u32. rewrite Zplus_mod_idemp_l. f_equal. lia. }
  assert (length (ready l ++ edit l ++ [x]) = S (length (ready l ++ edit l))) as Elen.
  { rewrite (assoc_L app), length_app. cbn. lia. }
  assert (length (cons_buf d') = Z.to_nat INPUT_BUF) as Hl'.
  { cbn [d' cons_buf set_with set_cons_buf set_cons_e]. by rewrite length_insert. }
  destruct commit; split; cbn [ready edit]; rewrite ?app_nil_r, ?Elen; try done; try lia.
  - apply not_elem_of_nil.
  - rewrite not_elem_of_app, list_elem_of_singleton. split; [done|]. intros <-. by specialize (Hx eq_refl).
Qed.

End rep.

Lemma rep_printed (cs : list Z) (d d' : devs) (l : line) : printed cs d d' -> cons_rep d l -> cons_rep d' l.
Proof. intros (k & ->) [? ? ? ? ? ? ?]. by split. Qed.

Section console.
Context {H : Hw}.
Hypothesis Hresp : responsive.

(** The kill-line loop empties the line being edited. *)
Lemma kill_line (c : ctl) h pt ft fs vd dev n (l : line) (Q : unit -> kstate -> Prop) :
  cpu_ok c -> cons_rep dev l -> panicked dev = 0 ->
  (forall dev', cons_rep dev' (Line (ready l) []) -> panicked dev' = 0 -> Q tt (KState c h pt ft fs vd dev' n)) ->
  runs (loop (fun _ : unit =>
       d ← get_dev;
       if negb (cons_e d =? cons_w d) &&
          negb (cons_buf d !!! Z.to_nat (u32 (cons_e d - 1) mod INPUT_BUF) =? 10) then
         upd_dev (fun d => d <| cons_e := u32 (cons_e d - 1) |>);;
         consputc BACKSPACE;;
         mret (inl tt)
       else mret (inr tt)) tt) (KState c h pt ft fs vd dev n) Q.
Proof using Hresp.
  intros Hc Hd Hp HQ.
  apply (runs_loop
    (fun _ s => exists d e, s = KState c h pt ft fs vd d n /\ cons_rep d (Line (ready l) e) /\ panicked d = 0)
    (fun _ s => u32 (cons_e (k_dev s) - cons_w (k_dev s)))).
  - exists dev, (edit l). split_and!; [done|by destruct l|done].
  - pose proof (u32_range (cons_e dev - cons_w dev)). cbn [k_dev]. unfold is_u32 in *. lia.
  - intros [] s (d & e & -> & Hr & Hpd). do 2 kstep. rewrite (rep_empty Hr). cbn [edit].
    destruct e as [|x e _] using rev_ind.
    { rewrite bool_decide_true by done. cbn [negb andb]. kstep. by apply HQ. }
    rewrite bool_decide_false by (by destruct e). cbn [negb andb].
    destruct (rep_last Hr e x eq_refl) as [Ex Hr']. rewrite Ex.
    assert (x <> 10) as Hx by (intros ->; apply (cr_edit _ _ Hr); set_solver).
    rewrite (proj2 (Z.eqb_neq _ _)) by done. cbn [negb].
    do 3 kstep. apply (kconsputc Hresp); [done|exact Hpd|]. intros d' P. kstep.
    pose proof (rep_printed _ _ _ _ P Hr') as Hr2.
    split; [exists d', e; split_and!; [done|done|by rewrite (printed_alive _ _ _ P)]|].
    cbn [k_dev]. rewrite (rep_edit Hr), (rep_edit Hr2). cbn [edit]. rewrite length_app. cbn [length]. lia.
Qed.

Lemma kconsoleintr (x : Z) (l : line) (c : ctl) h pt ft fs vd dev n (Q : unit -> kstate -> Prop) :
  is_byte x -> calm c -> procs_ok pt -> cons_rep dev l -> panicked dev = 0 ->
  (forall pt' dev', wakes ChCons (cur c) pt pt' -> cons_rep dev' (typed x l) -> panicked dev' = 0 ->
     Q tt (KState c h pt' ft fs vd dev' n)) ->
  runs (consoleintr x) (KState c h pt ft fs vd dev n) Q.
Proof using Hresp.
  intros Hb Hc Hp Hd Hpan HQ. unfold consoleintr, typed in *. do 3 kstep.
  destruct (x =? C 80).
  { apply (kprocdump Hresp); [kside|kside|done|]. intros cs d P. kstep.
    apply HQ; [apply wakes_refl|by eapply rep_printed|by rewrite (printed_alive _ _ _ P)]. }
  destruct (x =? C 85).
  { apply (kill_line _ _ _ _ _ _ _ _ l); [kside|done|done|]. intros d Hr Hpd. kstep.
    apply HQ; [apply wakes_refl|done|done]. }
  destruct ((x =? C 72) || (x =? 127)).
  { do 2 kstep. rewrite (rep_empty Hd). destruct (edit l) as [|y e _] eqn:Ee using rev_ind.
    - rewrite bool_decide_true by done. cbn [negb]. do 2 kstep.
      apply HQ; [apply wakes_refl| |done]. destruct l. cbn in *. by subst.
    - rewrite bool_decide_false by (by destruct e). cbn [negb]. do 2 kstep.
      destruct (rep_last Hd e y Ee) as [_ Hr]. apply (kconsputc Hresp); [kside|exact Hpan|]. intros d P. kstep.
      apply HQ; [apply wakes_refl| |by rewrite (printed_alive _ _ _ P)].
      rewrite length_app, Nat.add_sub, take_app_length. by eapply rep_printed. }
  do 2 kstep. rewrite (rep_count Hd).
  destruct (negb (x =? 0) && (Z.of_nat (length (ready l ++ edit l)) <? INPUT_BUF)) eqn:B.
  2:{ do 2 kstep. by apply HQ; [apply wakes_refl| |]. }
  apply andb_true_iff in B as [_ Hroom%Z.ltb_lt].
  set (y := if x =? 13 then 10 else x) in *. kstep. apply (kconsputc Hresp); [kside|done|]. intros d P.
  pose proof (rep_printed _ _ _ _ P Hd) as Hr. assert (panicked d = 0) as Hpd by (by rewrite (printed_alive _ _ _ P)).
  do 6 kstep. assert (u8 y = y) as Ey by (apply u8_small; unfold y, is_byte in *; destruct (x =? 13); lia).
  set (commit := ends_line y || (Z.of_nat (S (length (ready l ++ edit l))) =? INPUT_BUF)).
  cbn [cons_e cons_r set_with set_cons_e set_cons_buf]. rewrite (rep_full Hr Hroom). fold (ends_line y). fold commit.
  rewrite (assoc_L app), (length_app (ready l ++ edit l)), Nat.add_1_r in HQ. fold commit in HQ.
  assert (u8 y = 10 -> commit = true) as Hcom by (rewrite Ey; intros E; unfold commit, ends_line; by rewrite E).
  pose proof (rep_put Hr (u8 y) commit Hroom Hcom) as Hr'. rewrite <- (assoc_L app) in HQ. destruct commit.
  - do 2 kstep. apply kwakeup; [kside|kside|done|]. kstep. apply HQ; [|exact Hr'|exact Hpd].
    rewrite cur_locked by kside. right. done.
  - do 2 kstep. apply HQ; [apply wakes_refl|exact Hr'|exact Hpd].
Qed.
End console.

(** C25. The console edits lines: typing any characters leaves its ring buffer
    and its three counters, which wrap around, holding exactly what an editor
    of lines makes of them, with backspace, kill-line, end-of-file, carriage
    return and a full buffer, and readers get only what is committed. *)
Theorem consoleintr_edits {H : Hw} (cs : list Z) (l : line) (s : kstate) :
  responsive -> Forall is_byte cs -> calm (k_ctl s) -> procs_ok (k_pt s) ->
  cons_rep (k_dev s) l -> panicked (k_dev s) = 0 ->
  runs (for_each cs consoleintr) s (fun _ s' =>
    cons_rep (k_dev s') (fold_left (fun l c => typed c l) cs l) /\ k_ctl s' = k_ctl s).
Proof.
  destruct s as [c h pt ft fs vd dev n]. cbn [k_ctl k_pt k_dev]. intros Hresp Hb Hc Hp Hd Hpan.
  apply (runs_for_each (fun rest s => exists before pt' d, cs = before ++ rest /\
    s = KState c h pt' ft fs vd d n /\ procs_ok pt' /\ panicked d = 0 /\
    cons_rep d (fold_left (fun l c => typed c l) before l))).
  - by exists [], pt, dev.
  - intros x rest s (before & pt' & d & -> & -> & Hp' & Hpd & Hr).
    apply Forall_app in Hb as [_ Hx]. inversion_clear Hx.
    apply (kconsoleintr Hresp _ (fold_left (fun l c => typed c l) before l)); [done..|].
    intros pt2 d2 Hw Hr2 Hpd2. exists (before ++ [x]), pt2, d2.
    split_and!; [by rewrite <- (assoc_L app)|done|by eapply wakes_ok|done|by rewrite fold_left_app].
  - intros s (before & pt' & d & -> & -> & _ & _ & Hr). by rewrite app_nil_r.
Qed.

Definition cons_devs : devs := demo_devs <| cons_buf := replicate 128 0 |>
  <| cons_r := 2 ^ 32 - 2 |> <| cons_w := 2 ^ 32 - 2 |> <| cons_e := 2 ^ 32 - 2 |>.

Lemma cons_devs_rep : cons_rep cons_devs (Line [] []).
Proof. split; try (by vm_compute). apply not_elem_of_nil. Qed.

(** Two characters, a backspace, the kill-line key, then a line. *)
Lemma consoleintr_edits_witness :
  let s := (demo_state demo_ctl) <| k_dev := cons_devs |> in
  runs (for_each [97; 98; 127; 21; 108; 115; 8; 115; 13; 99] (consoleintr (H := demo_hw))) s (fun _ s' =>
    cons_rep (k_dev s') (Line [108; 115; 10] [99])).
Proof.
  eapply runs_mono; [apply (consoleintr_edits (H := demo_hw) _ (Line [] []))|].
  - exact demo_responsive.
  - repeat constructor; by vm_compute.
  - split; [exact demo_ctl_ok|reflexivity].
  - reflexivity.
  - exact cons_devs_rep.
  - reflexivity.
  - intros [] s' [Hr _]. exact Hr.
Defined.

(** What a read of at most [n] characters takes from what is ready: up to the
    end of a line, or up to an end-of-file mark, which stays for the next
    reader when something came before it. *)
Fixpoint take_line (first : bool) (n : nat) (q : list Z) : list Z * list Z :=
  match n, q with
  | S n, c :: q' =>
      if c =? C 68 then ([], if first then q' else q)
      else if c =? 10 then ([c], q')
      else let r := take_line false n q' in (c :: r.1, r.2)
  | _, _ => ([], q)
  end.
(** The read does not have to wait. *)
Definition line_ready (n : nat) (q : list Z) : bool := existsb ends_line q || bool_decide (n <= length q)%nat.

Lemma rep_next (d : devs) (x : Z) (q e : list Z) :
  cons_rep d (Line (x :: q) e) ->
  cons_buf d !!! Z.to_nat (cons_r d mod INPUT_BUF) = x /\ cons_r d <> cons_w d /\
  cons_rep (d <| cons_r := u32 (cons_r d + 1) |>) (Line q e).
Proof.
  intros Hd. pose proof Hd as [Hl Hr Hw He Hroom Hring Hed]. cbn [ready edit app length] in *.
  rewrite ring_pop in Hring. injection Hring as Hx Hring. split_and!; [done| |].
  - rewrite Hw. unfold INPUT_BUF in Hroom. unfold is_u32, u32 in *. rewrite length_app in Hroom. intros E.
    assert ((cons_r d + Z.of_nat (S (length q)) - cons_r d) mod 2 ^ 32 = 0) as Ez.
    { rewrite Zminus_mod, <- E, (Z.mod_small (cons_r d)), Z.sub_diag by done. done. }
    replace (cons_r d + Z.of_nat (S (length q)) - cons_r d) with (Z.of_nat (S (length q))) in Ez by lia.
    rewrite Z.mod_small in Ez by lia. lia.
  - split; cbn [ready edit cons_buf cons_r cons_w cons_e set_with set_cons_r]; [done|apply u32_range| | |lia| |done].
    + rewrite Hw. unfold u32. rewrite Zplus_mod_idemp_l. f_equal. lia.
    + rewrite He. unfold u32. rewrite Zplus_mod_idemp_l. f_equal. lia.
    + unfold u32. by rewrite (ring_wrap INPUT_BUF ltac:(done) _ _ _ _ input_div) by done.
Qed.

Lemma rep_unread (d : devs) (l : line) :
  cons_rep d l -> d <| cons_r := u32 (cons_r d + 1) |> <| cons_r := u32 (u32 (cons_r d + 1) - 1) |> = d.
Proof.
  intros Hd. pose proof (cr_r _ _ Hd) as Hr. unfold u32. rewrite Zminus_mod_idemp_l, Z.add_simpl_r.
  rewrite Z.mod_small by apply Hr. by destruct d.
Qed.

Section read.
Context {E : Env} {L : Linker} {LOk : LinkerOk L}.
Context (p : nat) (va : Z) (q e : list Z) (N : nat) (c : ctl) (h : heap) (pt : ptable) (ft : ftable) (fs : fsys)
  (vd : vdisk) (sw : nat).
Hypothesis Hc : calm c.
Hypothesis Hcur : cur c = Some p.
Hypothesis Hva : 0 <= va.
Hypothesis Hacc : ubytes (mem h) (uroot p pt) va N <> None.

(** Where the loop of [consoleread] stands: [pre] has been delivered. *)
Record reading (x : dest * Z) (pre q1 : list Z) (h1 : heap) (d : devs) : Prop := {
  rd_dst : x = (ToUser (u64 (va + Z.of_nat (length pre))), Z.of_nat (N - length pre));
  rd_len : (length pre <= N)%nat;
  rd_out : take_line true N q =
    let r := take_line (bool_decide (pre = [])) (N - length pre) q1 in (pre ++ r.1, r.2);
  rd_put : uput (uroot p pt) va pre h h1;
  rd_rep : cons_rep d (Line q1 e);
  rd_ready : line_ready (N - length pre) q1 = true;
}.

(** One more character has been read. *)
Lemma reading_next x pre y q1 h1 h2 d :
  reading x pre (y :: q1) h1 d -> (length pre < N)%nat -> ends_line y = false ->
  uput (uroot p pt) (va + Z.of_nat (length pre)) [y] h1 h2 ->
  reading (dest_add x.1 1, x.2 - 1) (pre ++ [y]) q1 h2 (d <| cons_r := u32 (cons_r d + 1) |>).
Proof using Hva.
  intros [Ed Hl Ho Hp Hr Hy] Hlt Hend Hput. destruct (rep_next _ _ _ _ Hr) as (_ & _ & Hr').
  assert (length (pre ++ [y]) = S (length pre)) as El by (rewrite length_app; cbn; lia).
  unfold ends_line in Hend. apply orb_false_iff in Hend as [H1 H2].
  split; rewrite ?El; [| lia | |by eapply uput_app|done|].
  - rewrite Ed. cbn [fst snd dest_add]. f_equal; [|lia]. f_equal. unfold u64. rewrite Zplus_mod_idemp_l. f_equal. lia.
  - rewrite Ho. replace (N - length pre)%nat with (S (N - S (length pre))) by lia. cbn [take_line].
    rewrite H1, H2. cbn [fst snd]. rewrite (bool_decide_false (pre ++ [y] = [])) by (by destruct pre).
    by rewrite <- (assoc_L app).
  - unfold line_ready in *. cbn [existsb length] in Hy. unfold ends_line in Hy at 1. rewrite H1, H2 in Hy.
    cbn [orb] in Hy. apply orb_true_iff in Hy as [->|Hy%bool_decide_eq_true]; [done|].
    rewrite (bool_decide_true (N - S (length pre) <= length q1)%nat) by lia. apply orb_true_r.
Qed.

Lemma kcons_wait (c' : ctl) h1 d (Q : bool -> kstate -> Prop) :
  cons_r d <> cons_w d -> Q false (KState c' h1 pt ft fs vd d sw) -> runs cons_wait (KState c' h1 pt ft fs vd d sw) Q.
Proof.
  intros Hne HQ. unfold cons_wait. apply (runs_loop (fun _ s => s = KState c' h1 pt ft fs vd d sw) (fun _ _ => 0));
    [done|lia|]. intros [] s ->. do 2 kstep. rewrite (proj2 (Z.eqb_neq _ _)) by done. cbn [negb]. by kstep.
Qed.

Lemma kconsoleread (dev : devs) (Q : Z -> kstate -> Prop) :
  uspace (uroot p pt) h -> cons_rep dev (Line q e) -> line_ready N q = true -> Z.of_nat N < 2 ^ 31 -> va < 2 ^ 64 ->
  (forall h' dev', let r := take_line true N q in
     uput (uroot p pt) va r.1 h h' -> cons_rep dev' (Line r.2 e) ->
     Q (Z.of_nat (length r.1)) (KState c h' pt ft fs vd dev' sw)) ->
  runs (consoleread (ToUser va) (Z.of_nat N)) (KState c h pt ft fs vd dev sw) Q.
Proof using LOk Hc Hcur Hva Hacc.
  intros Hu Hd Hy HN H64 HQ. unfold consoleread. do 3 kstep.
  rewrite (u32_small (Z.of_nat N)) by (unfold is_u32; lia).
  assert (forall out rest h1 d m, take_line true N q = (out, rest) -> uput (uroot p pt) va out h h1 ->
    cons_rep d (Line rest e) -> m = Z.of_nat N - Z.of_nat (length out) -> (length out <= N)%nat ->
    runs (release L_cons;; mret (i32 (Z.of_nat N - m))) (KState (locked_ctl L_cons c) h1 pt ft fs vd d sw) Q) as Hend.
  { intros out rest h1 d m Ho Hp Hr -> Hl. rewrite Ho in HQ. do 3 kstep.
    replace (Z.of_nat N - (Z.of_nat N - Z.of_nat (length out))) with (Z.of_nat (length out)) by lia.
    rewrite i32_small by lia. by apply HQ. }
  apply (runs_loop
    (fun x s => exists pre q1 h1 d, s = KState (locked_ctl L_cons c) h1 pt ft fs vd d sw /\ reading x pre q1 h1 d)
    (fun x _ => x.2)).
  - exists [], q, h, dev. split; [done|]. split; cbn [length]; rewrite ?Nat.sub_0_r, ?Z.add_0_r; try done.
    + by rewrite u64_small.
    + lia.
    + cbn. by destruct (take_line true N q).
    + by apply uput_nil.
  - cbn. lia.
  - intros x s (pre & q1 & h1 & d & -> & Hrd). pose proof Hrd as [-> Hl Ho Hput Hr Hyr].
    destruct (Z.ltb_spec 0 (Z.of_nat (N - length pre))) as [Hlt|Hge]; cbn [negb].
    2:{ kstep. replace (N - length pre)%nat with 0%nat in Ho by lia. cbn [take_line fst snd] in Ho.
        rewrite app_nil_r in Ho. apply (Hend _ _ _ _ _ Ho Hput Hr); lia. }
    destruct q1 as [|y q1]; [unfold line_ready in Hyr; cbn in Hyr; apply bool_decide_eq_true in Hyr; lia|].
    destruct (rep_next _ _ _ _ Hr) as (Ey & Hne & Hr'). kstep. apply kcons_wait; [done|]. ksteps. rewrite Ey.
    replace (N - length pre)%nat with (S (N - S (length pre))) in Ho by lia. cbn [take_line] in Ho.
    destruct (y =? C 68) eqn:E68.
    { kstep. destruct (Z.ltb_spec (Z.of_nat (N - length pre)) (Z.of_nat N)) as [Hfirst|Hnot].
      - do 1 kstep. cbn [cons_r set_with set_cons_r]. rewrite (rep_unread d _ Hr).
        rewrite bool_decide_false in Ho by (intros ->; cbn [length] in *; lia). cbn [fst snd] in Ho.
        rewrite app_nil_r in Ho. apply (Hend _ _ _ _ _ Ho Hput Hr); lia.
      - do 1 kstep. assert (pre = []) as -> by (destruct pre; [done|cbn [length] in *; lia]).
        apply (Hend [] q1 _ _ _ Ho Hput Hr'); cbn [length]; lia. }
    kstep.
    assert (ubytes (mem h1) (uroot p pt) (va + Z.of_nat (length pre)) 1 <> None) as Ha.
    { apply (uput_access _ _ _ _ _ _ _ Hput). apply (access_sub _ _ _ _ N); [done|lia]. }
    pose proof (access_range _ _ _ _ Hacc ltac:(lia)) as Hmax.
    rewrite (u64_small (va + Z.of_nat (length pre))) by (unfold is_u64; plia).
    apply (keither_copyout p); [kside|kside|by rewrite cur_locked by kside|apply Hput| |done| |intros h2 k Hnone; done].
    { unfold is_u64. plia. }
    intros h2 _ Hput2. change (0 =? -1) with false. cbv iota.
    destruct (y =? 10) eqn:E10; kstep.
    + cbn [fst snd] in Ho. eapply (Hend _ _ _ _ _ Ho); [by eapply uput_app|exact Hr'| |];
        rewrite length_app; cbn [length]; lia.
    + assert (ends_line y = false) as Hey by (unfold ends_line; by rewrite E10, E68).
      pose proof (reading_next _ _ _ _ _ _ _ Hrd ltac:(lia) Hey Hput2) as Hn. cbn [fst snd] in Hn.
      rewrite (u64_small (va + Z.of_nat (length pre))) in Hn by (unfold is_u64; plia).
      split; [by eexists _, _, h2, _|]. cbn. lia.
Qed.
End read.

(** C26. A read of the console that finds enough input delivers, without
    waiting, one line at most: the characters up to and with the newline, or
    up to an end-of-file mark, or as many as asked for; they are in the memory
    of the process and nothing else of it changes, and the mark stays for the
    next read exactly when it came after something. *)
Theorem consoleread_line {E : Env} {L : Linker} {LOk : LinkerOk L} (va : Z) (N p : nat) (l : line) (s : kstate) :
  calm (k_ctl s) -> cur (k_ctl s) = Some p -> is_u64 va -> Z.of_nat N < 2 ^ 31 ->
  uspace (uroot p (k_pt s)) (k_heap s) -> ubytes (mem (k_heap s)) (uroot p (k_pt s)) va N <> None ->
  cons_rep (k_dev s) l -> line_ready N (ready l) = true ->
  runs (consoleread (ToUser va) (Z.of_nat N)) s (fun r s' => let (out, rest) := take_line true N (ready l) in
    r = Z.of_nat (length out) /\ uput (uroot p (k_pt s)) va out (k_heap s) (k_heap s') /\
    cons_rep (k_dev s') (Line rest (edit l)) /\ k_ctl s' = k_ctl s).
Proof.
  destruct s as [c h pt ft fs vd dev n], l as [q e]. cbn [k_ctl k_pt k_dev k_heap ready edit].
  intros Hc Hp Hva HN Hu Ha Hd Hy.
  apply (kconsoleread p va q e N c h pt); [done|done|apply Hva|done..|apply Hva|].
  intros h' dev' r Hput Hr. subst r. destruct (take_line true N q) as [out rest]. done.
Qed.

Definition line_devs : devs := cons_devs <| cons_buf := [10; 99] ++ replicate 124 0 ++ [108; 115] |>
  <| cons_r := 2 ^ 32 - 2 |> <| cons_w := 1 |> <| cons_e := 2 |>.

Lemma line_devs_rep : cons_rep line_devs (Line [108; 115; 10] [99]).
Proof. split; try (by vm_compute). cbn [edit]. by rewrite list_elem_of_singleton. Qed.

Lemma consoleread_line_witness : exists h,
  let s := KState demo_ctl h user_pt (k_ft (demo_state demo_ctl)) (k_fs (demo_state demo_ctl))
             (k_vd (demo_state demo_ctl)) line_devs 0 in
  runs (consoleread (E := demo_env) (ToUser 4094) 100) s (fun r s' =>
    r = 3 /\ uput (L := demo_linker) Demo.root 4094 [108; 115; 10] h (k_heap s')).
Proof.
  destruct user_demo as (h & Hu & Hb). exists h. intros s.
  eapply runs_mono; [apply (consoleread_line (E := demo_env) (L := demo_linker)
    (LOk := demo_linker_ok) 4094 100 0 (Line [108; 115; 10] [99]) s)|].
  - split; [exact demo_ctl_ok|reflexivity].
  - reflexivity.
  - done.
  - lia.
  - exact Hu.
  - change (ubytes (mem h) Demo.root 4094 100 <> None). rewrite Hb by lia. discriminate.
  - exact line_devs_rep.
  - reflexivity.
  - intros r s' (-> & Hp & _). split; [reflexivity|exact Hp].
Defined.
