(* ===== verification/Virtio.v ===== *)
(** * The disk driver (kernel/virtio_disk.c)

    The driver shares three structures with the device: a table of [NUM]
    descriptors, the ring of requests made available, and the ring of requests
    the device has used.  A transfer takes three descriptors, puts the head of
    the chain into the first ring, and sleeps until the interrupt handler says
    that the buffer is no longer in the hands of the disk. *)
From S2P Require Import Prelude Memory Riscv State Spinlock Kalloc Vm Proc Plic.

(** ** kernel/virtio.h *)
Definition VIRTIO_MMIO_MAGIC_VALUE : Z := 0x000.
Definition VIRTIO_MMIO_VERSION : Z := 0x004.
Definition VIRTIO_MMIO_DEVICE_ID : Z := 0x008.
Definition VIRTIO_MMIO_VENDOR_ID : Z := 0x00c.
Definition VIRTIO_MMIO_DEVICE_FEATURES : Z := 0x010.
Definition VIRTIO_MMIO_DRIVER_FEATURES : Z := 0x020.
Definition VIRTIO_MMIO_GUEST_PAGE_SIZE : Z := 0x028.
Definition VIRTIO_MMIO_QUEUE_SEL : Z := 0x030.
Definition VIRTIO_MMIO_QUEUE_NUM_MAX : Z := 0x034.
Definition VIRTIO_MMIO_QUEUE_NUM : Z := 0x038.
Definition VIRTIO_MMIO_QUEUE_PFN : Z := 0x040.
Definition VIRTIO_MMIO_QUEUE_NOTIFY : Z := 0x050.
Definition VIRTIO_MMIO_INTERRUPT_STATUS : Z := 0x060.
Definition VIRTIO_MMIO_INTERRUPT_ACK : Z := 0x064.
Definition VIRTIO_MMIO_STATUS : Z := 0x070.
Definition VIRTIO_CONFIG_S_ACKNOWLEDGE : Z := 1.
Definition VIRTIO_CONFIG_S_DRIVER : Z := 2.
Definition VIRTIO_CONFIG_S_DRIVER_OK : Z := 4.
Definition VIRTIO_CONFIG_S_FEATURES_OK : Z := 8.
Definition VIRTIO_BLK_F_RO : Z := 5.
Definition VIRTIO_BLK_F_SCSI : Z := 7.
Definition VIRTIO_BLK_F_CONFIG_WCE : Z := 11.
Definition VIRTIO_BLK_F_MQ : Z := 12.
Definition VIRTIO_F_ANY_LAYOUT : Z := 27.
Definition VIRTIO_RING_F_INDIRECT_DESC : Z := 28.
Definition VIRTIO_RING_F_EVENT_IDX : Z := 29.
Definition NUM : Z := 8.
Definition VRING_DESC_F_NEXT : Z := 1.
Definition VRING_DESC_F_WRITE : Z := 2.
Definition VIRTIO_BLK_T_IN : Z := 0.
Definition VIRTIO_BLK_T_OUT : Z := 1.

#[export] Instance buf_inhabited : Inhabited buf :=
  populate (Buf 0 0 0 0 (Sleeplock 0 0) 0 0 0 []).
#[export] Instance virtq_desc_inhabited : Inhabited virtq_desc := populate (VirtqDesc Dma0 0 0 0).
#[export] Instance vinfo_inhabited : Inhabited vinfo := populate (Vinfo None 0).
#[export] Instance virtio_blk_req_inhabited : Inhabited virtio_blk_req := populate (VirtioBlkReq 0 0 0).

Definition get_buf (b : nat) : M buf := gets (fun s => bufs (k_fs s) !!! b).
Definition upd_buf (b : nat) (f : buf -> buf) : M unit :=
  modify (fun s => s <| k_fs := (k_fs s) <| bufs := alter f b (bufs (k_fs s)) |> |>).
Definition get_vd : M vdisk := gets k_vd.
Definition upd_vd (f : vdisk -> vdisk) : M unit := modify (fun s => s <| k_vd := f (k_vd s) |>).
Definition upd_desc (i : Z) (f : virtq_desc -> virtq_desc) : M unit :=
  upd_vd (fun d => d <| vd_desc := alter f (Z.to_nat i) (vd_desc d) |>).
Definition upd_info (i : Z) (f : vinfo -> vinfo) : M unit :=
  upd_vd (fun d => d <| vd_info := alter f (Z.to_nat i) (vd_info d) |>).

(** ** kernel/virtio_disk.c *)
Section virtio.
Context {L : Linker} {E : Env} {H : Hw}.

Definition R (r : Z) : Z := VIRTIO0 + r.

Definition virtio_disk_init : M unit :=
  put_lock L_vdisk initlock;;
  magic ← rd32 (R VIRTIO_MMIO_MAGIC_VALUE);
  if negb (magic =? 0x74726976) then panic "could not find virtio disk" else
  version ← rd32 (R VIRTIO_MMIO_VERSION);
  if negb (version =? 1) then panic "could not find virtio disk" else
  device ← rd32 (R VIRTIO_MMIO_DEVICE_ID);
  if negb (device =? 2) then panic "could not find virtio disk" else
  vendor ← rd32 (R VIRTIO_MMIO_VENDOR_ID);
  if negb (vendor =? 0x554d4551) then panic "could not find virtio disk" else
  let status := VIRTIO_CONFIG_S_ACKNOWLEDGE in
  wr32 (R VIRTIO_MMIO_STATUS) status;;
  let status := Z.lor status VIRTIO_CONFIG_S_DRIVER in
  wr32 (R VIRTIO_MMIO_STATUS) status;;
  features ← rd32 (R VIRTIO_MMIO_DEVICE_FEATURES);
  let features := fold_left (fun f bit => Z.land f (Z.lnot (Z.shiftl 1 bit)))
    [VIRTIO_BLK_F_RO; VIRTIO_BLK_F_SCSI; VIRTIO_BLK_F_CONFIG_WCE; VIRTIO_BLK_F_MQ;
     VIRTIO_F_ANY_LAYOUT; VIRTIO_RING_F_EVENT_IDX; VIRTIO_RING_F_INDIRECT_DESC] features in
  wr32 (R VIRTIO_MMIO_DRIVER_FEATURES) features;;
  let status := Z.lor status VIRTIO_CONFIG_S_FEATURES_OK in
  wr32 (R VIRTIO_MMIO_STATUS) status;;
  let status := Z.lor status VIRTIO_CONFIG_S_DRIVER_OK in
  wr32 (R VIRTIO_MMIO_STATUS) status;;
  wr32 (R VIRTIO_MMIO_GUEST_PAGE_SIZE) PGSIZE;;
  wr32 (R VIRTIO_MMIO_QUEUE_SEL) 0;;
  max ← rd32 (R VIRTIO_MMIO_QUEUE_NUM_MAX);
  if max =? 0 then panic "virtio disk has no queue 0" else
  if max <? NUM then panic "virtio disk max queue too short" else
  wr32 (R VIRTIO_MMIO_QUEUE_NUM) NUM;;
  let n := Z.to_nat NUM in
  upd_vd (fun d => d <| vd_desc := replicate n (VirtqDesc Dma0 0 0 0) |>
    <| avail_idx := 0 |> <| avail_ring := replicate n 0 |>
    <| dev_used_idx := 0 |> <| used_ring := replicate n 0 |>);;
  wr32 (R VIRTIO_MMIO_QUEUE_PFN) (Z.shiftr sym_vdisk_pages PGSHIFT);;
  upd_vd (fun d => d <| vd_free := replicate n 1 |>).

Definition alloc_desc : M Z :=
  r ← for_until (Z.of_nat <$> seq 0 (Z.to_nat NUM)) (fun i =>
    d ← get_vd;
    if truth (vd_free d !!! Z.to_nat i) then
      upd_vd (fun d => d <| vd_free := <[ Z.to_nat i := 0 ]> (vd_free d) |>);;
      mret (Some i)
    else mret None);
  mret (default (-1) r).

Definition free_desc (i : Z) : M unit :=
  if NUM <=? i then panic "free_desc 1" else
  d ← get_vd;
  if truth (vd_free d !!! Z.to_nat i) then panic "free_desc 2" else
  upd_desc i (fun _ => VirtqDesc Dma0 0 0 0);;
  upd_vd (fun d => d <| vd_free := <[ Z.to_nat i := 1 ]> (vd_free d) |>);;
  wakeup ChDiskFree.

Definition free_chain (i : Z) : M unit :=
  loop (fun i =>
    d ← get_vd;
    let flag := d_flags (vd_desc d !!! Z.to_nat i) in
    let nxt := d_next (vd_desc d !!! Z.to_nat i) in
    free_desc i;;
    if truth (Z.land flag VRING_DESC_F_NEXT) then mret (inl nxt) else mret (inr tt)) i.

(** The three indices, or [None] when there are not enough free descriptors
    (the ones found are given back). *)
Definition alloc3_desc : M (option (Z * Z * Z)) :=
  i0 ← alloc_desc;
  if i0 <? 0 then mret None else
  i1 ← alloc_desc;
  if i1 <? 0 then free_desc i0;; mret None else
  i2 ← alloc_desc;
  if i2 <? 0 then free_desc i0;; free_desc i1;; mret None else
  mret (Some (i0, i1, i2)).

Definition virtio_disk_rw (b : nat) (write : bool) : M unit :=
  v ← get_buf b;
  let sector := u32 (b_blockno v * (BSIZE / 512)) in
  acquire L_vdisk;;
  idx ← loop (fun _ : unit =>
    r ← alloc3_desc;
    match r with
    | Some idx => mret (inr idx)
    | None => sleep ChDiskFree L_vdisk;; mret (inl tt)
    end) tt;
  let '(i0, i1, i2) := idx in
  upd_vd (fun d => d <| vd_ops := <[ Z.to_nat i0 :=
    VirtioBlkReq (if write then VIRTIO_BLK_T_OUT else VIRTIO_BLK_T_IN) 0 sector ]> (vd_ops d) |>);;
  upd_desc i0 (fun _ => VirtqDesc (DmaOp (Z.to_nat i0)) 16 VRING_DESC_F_NEXT i1);;
  upd_desc i1 (fun _ => VirtqDesc (DmaData b) BSIZE
    (Z.lor (if write then 0 else VRING_DESC_F_WRITE) VRING_DESC_F_NEXT) i2);;
  upd_info i0 (fun v => v <| in_status := 0xff |>);;
  upd_desc i2 (fun _ => VirtqDesc (DmaStatus (Z.to_nat i0)) 1 VRING_DESC_F_WRITE 0);;
  upd_buf b (fun v => v <| b_disk := 1 |>);;
  upd_info i0 (fun v => v <| in_b := Some b |>);;
  upd_vd (fun d => d <| avail_ring := <[ Z.to_nat (avail_idx d mod NUM) := i0 ]> (avail_ring d) |>);;
  upd_vd (fun d => d <| avail_idx := u16 (avail_idx d + 1) |>);;
  wr32 (R VIRTIO_MMIO_QUEUE_NOTIFY) 0;;
  loop (fun _ : unit =>
    v ← get_buf b;
    if b_disk v =? 1 then sleep (ChBuf b) L_vdisk;; mret (inl tt) else mret (inr tt)) tt;;
  upd_info i0 (fun v => v <| in_b := None |>);;
  free_chain i0;;
  release L_vdisk.

Definition virtio_disk_intr : M unit :=
  acquire L_vdisk;;
  st ← rd32 (R VIRTIO_MMIO_INTERRUPT_STATUS);
  wr32 (R VIRTIO_MMIO_INTERRUPT_ACK) (Z.land st 0x3);;
  loop (fun _ : unit =>
    d ← get_vd;
    if vd_used_idx d =? dev_used_idx d then mret (inr tt) else
    let id := used_ring d !!! Z.to_nat (vd_used_idx d mod NUM) in
    let i := vd_info d !!! Z.to_nat id in
    if negb (in_status i =? 0) then panic "virtio_disk_intr status" else
    b ← deref (in_b i);
    upd_buf b (fun v => v <| b_disk := 0 |>);;
    wakeup (ChBuf b);;
    upd_vd (fun d => d <| vd_used_idx := u16 (vd_used_idx d + 1) |>);;
    mret (inl tt)) tt;;
  release L_vdisk.

End virtio.
