(* ===== verification/VirtioSpec.v ===== *)
(** * Disk transfers (theorems on kernel/virtio_disk.c)

    [virtio_disk_rw] hands the device a request in the form the virtio
    specification asks for, and with a device that serves such a request, and
    [virtio_disk_intr] called when it has, the block is transferred and all
    descriptors are free again. *)
From S2P Require Import Prelude Memory Riscv State Spinlock Kalloc Steps Vm Proc ProcSpec Plic Virtio.

(** ** Descriptors *)

(** The driver's own state when no request is under way. *)
Record vd_idle (vd : vdisk) : Prop := {
  vi_desc : length (vd_desc vd) = Z.to_nat NUM;
  vi_ring : length (avail_ring vd) = Z.to_nat NUM;
  vi_used : length (used_ring vd) = Z.to_nat NUM;
  vi_info : length (vd_info vd) = Z.to_nat NUM;
  vi_ops : length (vd_ops vd) = Z.to_nat NUM;
  vi_free : vd_free vd = replicate (Z.to_nat NUM) 1;
  vi_avail : 0 <= avail_idx vd < 2 ^ 16;
  vi_served : avail_idx vd = dev_used_idx vd;
  vi_seen : vd_used_idx vd = dev_used_idx vd;
}.

Section steps.
Context {E : Env}.
Context {h : heap} {ft : ftable} {fs : fsys} {dev : devs} {n : nat}.

(** The first free descriptor is taken. *)
Lemma kalloc_desc (k : nat) (rest : list Z) (c : ctl) (pt : ptable) (vd : vdisk) (Q : Z -> kstate -> Prop) :
  vd_free vd = replicate k 0 ++ 1 :: rest -> (k < Z.to_nat NUM)%nat ->
  Q (Z.of_nat k) (KState c h pt ft fs (vd <| vd_free := replicate (S k) 0 ++ rest |>) dev n) ->
  runs alloc_desc (KState c h pt ft fs vd dev n) Q.
Proof.
  intros Ef Hk HQ. unfold alloc_desc. kstep.
  apply (runs_for_until (fun l s => s = KState c h pt ft fs vd dev n /\
    exists j, l = Z.of_nat <$> seq j (Z.to_nat NUM - j) /\ (j <= k)%nat)).
  - split; [done|]. exists 0%nat. split; [by rewrite Nat.sub_0_r|lia].
  - intros x l s (-> & j & El & Hj). replace (Z.to_nat NUM - j)%nat with (S (Z.to_nat NUM - S j)) in El by lia.
    cbn [seq fmap list_fmap] in El. injection El as -> ->. do 2 kstep. rewrite Nat2Z.id.
    destruct (decide (j = k)) as [->|Hne].
    + assert (vd_free vd !!! k = 1) as ->.
      { rewrite Ef, lookup_total_app_r; rewrite length_replicate; [|lia]. by rewrite Nat.sub_diag. }
      change (truth 1) with true. ksteps. cbn [default].
      replace (<[k:=0]> (vd_free vd)) with (replicate (S k) 0 ++ rest); [done|].
      rewrite Ef, insert_app_r_alt; rewrite length_replicate; [|lia]. rewrite Nat.sub_diag.
      cbn [insert list_insert]. by rewrite replicate_S_end, <- (assoc_L app).
    + assert (vd_free vd !!! j = 0) as ->.
      { rewrite Ef, lookup_total_app_l by (rewrite length_replicate; lia). apply lookup_total_replicate_2. lia. }
      change (truth 0) with false. kstep. split; [done|]. exists (S j). split; [done|lia].
  - intros s (_ & j & El & Hj). exfalso. apply (f_equal length) in El. rewrite length_fmap, length_seq in El.
    cbn [length] in El. lia.
Qed.

Lemma kalloc3_desc (c : ctl) (pt : ptable) (vd : vdisk) (Q : option (Z * Z * Z) -> kstate -> Prop) :
  vd_free vd = replicate (Z.to_nat NUM) 1 ->
  Q (Some (0, 1, 2)) (KState c h pt ft fs (vd <| vd_free := [0; 0; 0; 1; 1; 1; 1; 1] |>) dev n) ->
  runs alloc3_desc (KState c h pt ft fs vd dev n) Q.
Proof.
  intros Ef HQ. unfold alloc3_desc. kstep. apply (kalloc_desc 0 (replicate 7 1)); [done|by vm_compute; lia|].
  change (Z.of_nat 0 <? 0) with false. cbv iota. kstep. apply (kalloc_desc 1 (replicate 6 1)); [done|by vm_compute; lia|].
  change (Z.of_nat 1 <? 0) with false. cbv iota. kstep. apply (kalloc_desc 2 (replicate 5 1)); [done|by vm_compute; lia|].
  change (Z.of_nat 2 <? 0) with false. cbv iota. kstep. exact HQ.
Qed.

(** A descriptor in use is cleared and given back. *)
Lemma kfree_desc (i : Z) (c : ctl) (pt : ptable) (vd : vdisk) (Q : unit -> kstate -> Prop) :
  cpu_ok c -> (forall i, lock_free (L_proc i) c) -> procs_ok pt ->
  0 <= i < NUM -> vd_free vd !!! Z.to_nat i = 0 ->
  (forall pt', wakes ChDiskFree (cur c) pt pt' ->
     Q tt (KState c h pt' ft fs (vd <| vd_desc := alter (fun _ => VirtqDesc Dma0 0 0 0) (Z.to_nat i) (vd_desc vd) |>
                             <| vd_free := <[ Z.to_nat i := 1 ]> (vd_free vd) |>) dev n)) ->
  runs (free_desc i) (KState c h pt ft fs vd dev n) Q.
Proof.
  intros Hc Hf Hp Hi Ef HQ. unfold free_desc. rewrite (proj2 (Z.leb_gt _ _)) by lia. do 2 kstep.
  rewrite Ef. change (truth 0) with false. cbv iota. do 4 kstep. apply kwakeup; [done..|].
  apply HQ. by right.
Qed.

Definition free3 (vd : vdisk) : vdisk :=
  vd <| vd_desc := VirtqDesc Dma0 0 0 0 :: VirtqDesc Dma0 0 0 0 :: VirtqDesc Dma0 0 0 0 :: drop 3 (vd_desc vd) |>
     <| vd_free := replicate (Z.to_nat NUM) 1 |>.

(** The chain of descriptors 0, 1 and 2. *)
Lemma kfree_chain (a0 a1 a2 : dma) (l0 l1 l2 f1 : Z) (rest : list virtq_desc) (c : ctl) (pt : ptable) (vd : vdisk)
    (Q : unit -> kstate -> Prop) :
  cpu_ok c -> (forall i, lock_free (L_proc i) c) -> procs_ok pt ->
  vd_free vd = [0; 0; 0; 1; 1; 1; 1; 1] ->
  vd_desc vd = VirtqDesc a0 l0 VRING_DESC_F_NEXT 1 :: VirtqDesc a1 l1 f1 2 ::
               VirtqDesc a2 l2 VRING_DESC_F_WRITE 0 :: rest ->
  truth (Z.land f1 VRING_DESC_F_NEXT) = true ->
  (forall pt', wakes ChDiskFree (cur c) pt pt' -> Q tt (KState c h pt' ft fs (free3 vd) dev n)) ->
  runs (free_chain 0) (KState c h pt ft fs vd dev n) Q.
Proof.
  intros Hc Hf Hp Ef Ed Hf1 HQ. unfold free_chain.
  set (vd1 := vd <| vd_desc := VirtqDesc Dma0 0 0 0 :: drop 1 (vd_desc vd) |>
                 <| vd_free := [1; 0; 0; 1; 1; 1; 1; 1] |>).
  set (vd2 := vd <| vd_desc := VirtqDesc Dma0 0 0 0 :: VirtqDesc Dma0 0 0 0 :: drop 2 (vd_desc vd) |>
                 <| vd_free := [1; 1; 0; 1; 1; 1; 1; 1] |>).
  apply (runs_loop (fun i s => exists pt', s = KState c h pt' ft fs
    (if i =? 0 then vd else if i =? 1 then vd1 else vd2) dev n /\
    wakes ChDiskFree (cur c) pt pt' /\ (i = 0 \/ i = 1 \/ i = 2)) (fun i _ => 2 - i)).
  - exists pt. split; [done|]. split; [apply wakes_refl|by left].
  - lia.
  - intros i s (pt' & -> & Hw & Hi). pose proof (wakes_ok _ _ _ _ Hw Hp) as Hp'.
    assert (forall v v', vd_free v !!! Z.to_nat i = 0 ->
      v <| vd_desc := alter (fun _ => VirtqDesc Dma0 0 0 0) (Z.to_nat i) (vd_desc v) |>
        <| vd_free := <[ Z.to_nat i := 1 ]> (vd_free v) |> = v' ->
      forall Q', (forall pt2, wakes ChDiskFree (cur c) pt pt2 -> Q' tt (KState c h pt2 ft fs v' dev n)) ->
      runs (free_desc i) (KState c h pt' ft fs v dev n) Q') as Hfree.
    { intros v v' Hv <- Q' HQ'. apply kfree_desc; [done|done|done| |done|].
      - unfold NUM. lia.
      - intros pt2 Hw2. apply HQ'. destruct Hw as [->| ->]; [done|]. destruct Hw2 as [->| ->]; [by right|].
        right. rewrite set_procs_twice. cbn [procs set_with set_procs]. by rewrite wake_all_idem. }
    do 2 kstep. destruct Hi as [->|[->| ->]]; kstep.
    + apply (Hfree vd vd1); [by rewrite Ef|unfold vd1; by rewrite Ed, Ef|]. intros pt2 Hw2.
      change (0 =? 0) with true. cbv iota. rewrite Ed.
      change ((VirtqDesc a0 l0 VRING_DESC_F_NEXT 1 :: _) !!! Z.to_nat 0) with (VirtqDesc a0 l0 VRING_DESC_F_NEXT 1).
      change (truth (Z.land (d_flags _) VRING_DESC_F_NEXT)) with true. cbv iota. kstep.
      split; [exists pt2; split; [done|split; [done|by right; left]]|cbn; lia].
    + apply (Hfree vd1 vd2); [done|unfold vd1, vd2; cbn; by rewrite Ed|]. intros pt2 Hw2.
      change (1 =? 0) with false. change (1 =? 1) with true. cbv iota.
      change (vd_desc vd1 !!! Z.to_nat 1) with (drop 1 (vd_desc vd) !!! 0%nat). rewrite Ed. cbn [drop d_flags d_next].
      change ((VirtqDesc a1 l1 f1 2 :: _) !!! 0%nat) with (VirtqDesc a1 l1 f1 2). cbn [d_flags d_next]. rewrite Hf1. kstep.
      split; [exists pt2; split; [done|split; [done|by right; right]]|lia].
    + apply (Hfree vd2 (free3 vd)); [done|unfold free3, vd2; cbn; by rewrite Ed|]. intros pt2 Hw2.
      change (2 =? 0) with false. change (2 =? 1) with false. cbv iota.
      change (vd_desc vd2 !!! Z.to_nat 2) with (drop 2 (vd_desc vd) !!! 0%nat). rewrite Ed. cbn [drop d_flags d_next].
      change ((VirtqDesc a2 l2 VRING_DESC_F_WRITE 0 :: _) !!! 0%nat) with (VirtqDesc a2 l2 VRING_DESC_F_WRITE 0).
      change (truth (Z.land (d_flags _) VRING_DESC_F_NEXT)) with false. cbv iota. kstep. by apply HQ.
Qed.
End steps.

(** ** Requests *)

(** The request at the head of the queue, as the device sees it: a chain of
    three descriptors, for the command, the data and the status. *)
Record posted (vd : vdisk) (b : nat) (write : bool) (sector head : Z) : Prop := {
  po_head : avail_ring vd !!! Z.to_nat (dev_used_idx vd mod NUM) = head;
  po_next : avail_idx vd = u16 (dev_used_idx vd + 1);
  po_range : 0 <= head < NUM;
  po_chain : exists i1 i2,
    vd_desc vd !! Z.to_nat head = Some (VirtqDesc (DmaOp (Z.to_nat head)) 16 VRING_DESC_F_NEXT i1) /\
    vd_desc vd !! Z.to_nat i1 = Some (VirtqDesc (DmaData b) BSIZE
      (Z.lor (if write then 0 else VRING_DESC_F_WRITE) VRING_DESC_F_NEXT) i2) /\
    vd_desc vd !! Z.to_nat i2 = Some (VirtqDesc (DmaStatus (Z.to_nat head)) 1 VRING_DESC_F_WRITE 0);
  po_op : vd_ops vd !! Z.to_nat head =
    Some (VirtioBlkReq (if write then VIRTIO_BLK_T_OUT else VIRTIO_BLK_T_IN) 0 sector);
  po_info : vd_info vd !! Z.to_nat head = Some (Vinfo (Some b) 0xff);
  po_seen : vd_used_idx vd = dev_used_idx vd;
  po_lens : length (used_ring vd) = Z.to_nat NUM /\ 0 <= dev_used_idx vd < 2 ^ 16;
}.

(** What the device does with it, and what the interrupt handler then does:
    the block is transferred, the status is 0, the head is in the used ring,
    the buffer belongs to the kernel again. *)
Definition served_vd (head : Z) (vd : vdisk) : vdisk :=
  vd <| used_ring := <[ Z.to_nat (dev_used_idx vd mod NUM) := head ]> (used_ring vd) |>
     <| dev_used_idx := u16 (dev_used_idx vd + 1) |>
     <| vd_used_idx := u16 (vd_used_idx vd + 1) |>
     <| vd_info := alter (fun v => v <| in_status := 0 |>) (Z.to_nat head) (vd_info vd) |>.
Definition transferred (b : nat) (write : bool) (blk : Z) (fs : fsys) : fsys :=
  if write then
    let d := b_data (bufs fs !!! b) in
    fs <| disk := <[ blk := d ]> (disk fs) |> <| writes := (blk, d) :: writes fs |>
  else fs <| bufs := alter (fun v => v <| b_data := disk fs !!! blk |>) b (bufs fs) |>.
Definition set_disk_flag (b : nat) (x : Z) (fs : fsys) : fsys :=
  fs <| bufs := alter (fun v => v <| b_disk := x |>) b (bufs fs) |>.

(** The rest of the system serves the disk requests of process [p], and leaves
    the file system and the memory of the process alone meanwhile. *)
Definition disk_serves {E : Env} (p : nat) : Prop := forall n s c b write blk head,
  k_ctl s = locked_ctl (L_proc p) c -> at_sched p c -> procs_ok (k_pt s) ->
  p_state (procs (k_pt s) !!! p) = SLEEPING -> p_chan (procs (k_pt s) !!! p) = ChBuf b ->
  posted (k_vd s) b write (blk * 2) head -> 0 <= blk -> is_Some (disk (k_fs s) !! blk) ->
  b_disk (bufs (k_fs s) !!! b) = 1 -> (b < length (bufs (k_fs s)))%nat ->
  exists s' c', env_away n p s = Some s' /\ k_ctl s' = locked_ctl (L_proc p) c' /\ at_sched p c' /\
    procs_ok (k_pt s') /\ same_proc p (k_pt s) (k_pt s') /\ k_heap s' = k_heap s /\ k_ft s' = k_ft s /\
    k_fs s' = set_disk_flag b 0 (transferred b write blk (k_fs s)) /\ k_vd s' = served_vd head (k_vd s).

Section rw.
Context {L : Linker} {E : Env} {H : Hw}.
Context (p : nat).
Hypothesis Hp : (p < NPROC)%nat.
Hypothesis Henv : disk_serves p.

(** The driver's state with the request in place. *)
Definition request_vd (b : nat) (write : bool) (sector : Z) (vd : vdisk) : vdisk :=
  vd <| vd_free := [0; 0; 0; 1; 1; 1; 1; 1] |>
     <| vd_ops := <[ 0%nat := VirtioBlkReq (if write then VIRTIO_BLK_T_OUT else VIRTIO_BLK_T_IN) 0 sector ]> (vd_ops vd) |>
     <| vd_desc := VirtqDesc (DmaOp 0) 16 VRING_DESC_F_NEXT 1 ::
          VirtqDesc (DmaData b) BSIZE (Z.lor (if write then 0 else VRING_DESC_F_WRITE) VRING_DESC_F_NEXT) 2 ::
          VirtqDesc (DmaStatus 0) 1 VRING_DESC_F_WRITE 0 :: drop 3 (vd_desc vd) |>
     <| vd_info := <[ 0%nat := Vinfo (Some b) 0xff ]> (vd_info vd) |>
     <| avail_ring := <[ Z.to_nat (avail_idx vd mod NUM) := 0 ]> (avail_ring vd) |>
     <| avail_idx := u16 (avail_idx vd + 1) |>.

Lemma request_posted (b : nat) (write : bool) (sector : Z) (vd : vdisk) :
  vd_idle vd -> posted (request_vd b write sector vd) b write sector 0.
Proof.
  intros [H1 H2 H3 H4 H5 H6 H7 H8 H9]. unfold request_vd. split; cbn.
  - rewrite H8. apply list_lookup_total_insert_eq. rewrite H2.
    pose proof (Z.mod_pos_bound (dev_used_idx vd) NUM ltac:(done)). lia.
  - by rewrite H8.
  - done.
  - by exists 1, 2.
  - by rewrite list_lookup_insert_eq by (rewrite H5; vm_compute; lia).
  - by rewrite list_lookup_insert_eq by (rewrite H4; vm_compute; lia).
  - done.
  - split; [done|]. by rewrite <- H8.
Qed.

(** Waiting for the disk. *)
Lemma kdisk_wait (b : nat) (write : bool) (blk head : Z) (c : ctl) h pt ft fs vd dev n (Q : unit -> kstate -> Prop) :
  at_sched p c -> procs_ok pt -> posted vd b write (blk * 2) head -> 0 <= blk ->
  is_Some (disk fs !! blk) -> (b < length (bufs fs))%nat -> b_disk (bufs fs !!! b) = 1 ->
  (forall c' pt' dev' n', at_sched p c' -> procs_ok pt' -> same_proc p pt pt' ->
     Q tt (KState (locked_ctl L_vdisk c') h pt' ft (set_disk_flag b 0 (transferred b write blk fs))
       (served_vd head vd) dev' n')) ->
  runs (loop (fun _ : unit =>
    v ← get_buf b;
    if b_disk v =? 1 then sleep (ChBuf b) L_vdisk;; mret (inl tt) else mret (inr tt)) tt)
    (KState (locked_ctl L_vdisk c) h pt ft fs vd dev n) Q.
Proof using Hp Henv.
  intros Hs Hprocs Hpo Hblk Hdisk Hb Hflag HQ.
  assert (b_disk (bufs (set_disk_flag b 0 (transferred b write blk fs)) !!! b) = 0) as Hzero.
  { unfold set_disk_flag, transferred. destruct write; cbn [bufs set_with set_bufs set_disk set_writes];
      by rewrite list_lookup_total_alter_eq by (rewrite ?length_alter; exact Hb). }
  apply (runs_loop (fun _ s => s = KState (locked_ctl L_vdisk c) h pt ft fs vd dev n \/
    exists c' pt' dev' n', at_sched p c' /\ procs_ok pt' /\ same_proc p pt pt' /\
      s = KState (locked_ctl L_vdisk c') h pt' ft (set_disk_flag b 0 (transferred b write blk fs)) (served_vd head vd) dev' n')
    (fun _ s => b_disk (bufs (k_fs s) !!! b))); [by left|cbn [k_fs]; lia|].
  intros [] s [->|(c' & pt' & dev' & n' & Hs' & Hp' & Hsame & ->)].
  - do 2 kstep. rewrite Hflag. change (1 =? 1) with true. cbv iota. kstep.
    apply (ksleep _ _ p); [done|done|by rewrite Hprocs|].
    edestruct (Henv n (KState (locked_ctl (L_proc p) c) h (asleep p (ChBuf b) pt) ft fs vd dev (S n)) c b write blk head)
      as (s' & c' & Ee & Ec & Hs' & Hp' & Hsame & Eh & Eft & Efs & Evd); try done.
    { unfold procs_ok in *. cbn. by rewrite length_alter. }
    1,2: cbn [k_pt asleep procs set_with set_procs]; by rewrite list_lookup_total_alter_eq by (by rewrite Hprocs).
    exists s', c'. split; [exact Ee|split; [exact Hs'|split; [exact Ec|]]]. kstep. destruct s' as [c1 h' pt' ft' fs' vd' dev' n'].
    kred. cbn [k_heap k_ft k_fs k_vd k_pt] in *. subst h' ft' fs' vd'. split.
    + right. exists (with_sie (sie c) c'), (tidy p pt'), dev', n'. split; [|split; [|split; [|done]]].
      * destruct Hs' as [Hi Hc']. split; [by apply idle_with_sie|]. by rewrite cur_with_sie by (apply calm_ok, Hi).
      * unfold procs_ok in *. cbn. by rewrite length_alter.
      * eapply same_proc_trans; [|apply same_proc_tidy]. eapply same_proc_trans; [apply same_proc_asleep|exact Hsame].
    + rewrite Hzero. lia.
  - do 2 kstep. rewrite Hzero. change (0 =? 1) with false. cbv iota. kstep. by apply HQ.
Qed.

Lemma kdisk_rw (b : nat) (write : bool) (blk : Z) (c : ctl) h pt ft fs vd dev n (Q : unit -> kstate -> Prop) :
  at_sched p c -> procs_ok pt -> vd_idle vd ->
  b_blockno (bufs fs !!! b) = blk -> 0 <= blk < 2 ^ 31 -> is_Some (disk fs !! blk) -> (b < length (bufs fs))%nat ->
  (forall c' pt' vd' dev' n', at_sched p c' -> procs_ok pt' -> same_proc p pt pt' -> vd_idle vd' ->
     Q tt (KState c' h pt' ft (set_disk_flag b 0 (transferred b write blk (set_disk_flag b 1 fs))) vd' dev' n')) ->
  runs (virtio_disk_rw b write) (KState c h pt ft fs vd dev n) Q.
Proof using Hp Henv.
  intros Hs Hprocs Hvd Eblk Hblk Hdisk Hb HQ. pose proof Hs as [[Hcalm Hn] Hcur]. pose proof Hvd as [V1 V2 V3 V4 V5 V6 V7 V8 V9].
  unfold virtio_disk_rw. do 2 kstep. rewrite Eblk.
  assert (u32 (blk * (BSIZE / 512)) = blk * 2) as -> by (change (BSIZE / 512) with 2; apply u32_small; unfold is_u32; lia).
  do 3 kstep.
  apply (runs_loop (fun _ s => s = KState (locked_ctl L_vdisk c) h pt ft fs vd dev n) (fun _ _ => 0)); [done|lia|].
  intros [] s ->. kstep. apply kalloc3_desc; [done|]. kstep.
  assert (exists d0 d1 d2 rest, vd_desc vd = d0 :: d1 :: d2 :: rest) as (d0 & d1 & d2 & rest & Ed).
  { destruct (vd_desc vd) as [|? [|? [|? ?]]]; try done. by eexists _, _, _, _. }
  assert (exists i0 irest, vd_info vd = i0 :: irest) as (i0 & irest & Ei).
  { destruct (vd_info vd); [done|]. by eexists _, _. }
  unfold upd_desc, upd_info, upd_vd, upd_buf, wr32, wrreg. do 19 kstep. kstep.
  match goal with |- runs _ (KState _ _ _ _ _ ?v ?d _) _ =>
    replace v with (request_vd b write (blk * 2) vd); [generalize d; intros dev1|] end.
  2:{ unfold request_vd. destruct vd. cbn in Ed, Ei |- *. by rewrite Ed, Ei. }
  kstep. fold (set_disk_flag b 1 fs). apply (kdisk_wait b write blk 0); [done|done|by apply request_posted|lia|done| | |].
  1,2: cbn [set_disk_flag bufs set_with set_bufs]; rewrite ?length_alter, ?list_lookup_total_alter_eq by done; done.
  clear Hcalm Hn Hcur. intros c' pt' dev' n' Hs' Hp' Hsame. pose proof Hs' as [[Hcalm Hn] Hcur]. do 3 kstep.
  eapply kfree_chain; [kside|intros i; kside|done|reflexivity|reflexivity|by destruct write|].
  intros pt2 Hw. kstep. apply HQ; [done|by eapply wakes_ok|eapply same_proc_trans; [done|by eapply same_proc_wakes]|].
  split; cbn; rewrite ?length_alter, ?length_insert, ?length_drop; try done.
  - by rewrite V1.
  - unfold u16. apply Z.mod_pos_bound. lia.
  - by rewrite V8.
  - by rewrite V9.
Qed.
End rw.

(** ** The interrupt handler *)

(** The rings after the device has served the request [head]. *)
Definition device_done (head : Z) (vd : vdisk) : vdisk :=
  vd <| used_ring := <[ Z.to_nat (dev_used_idx vd mod NUM) := head ]> (used_ring vd) |>
     <| dev_used_idx := u16 (dev_used_idx vd + 1) |>
     <| vd_info := alter (fun v => v <| in_status := 0 |>) (Z.to_nat head) (vd_info vd) |>.

Lemma kdisk_intr {H : Hw} (b : nat) (write : bool) (sector head : Z) (c : ctl) h pt ft fs vd dev n
    (Q : unit -> kstate -> Prop) :
  calm c -> procs_ok pt -> posted vd b write sector head ->
  (forall dev', Q tt (KState c h (pt <| procs := wake_all (ChBuf b) (cur c) (procs pt) |>) ft (set_disk_flag b 0 fs)
     (served_vd head vd) dev' n)) ->
  runs virtio_disk_intr (KState c h pt ft fs (device_done head vd) dev n) Q.
Proof.
  intros Hc Hprocs [P1 P2 P3 P4 P5 P6 P7 [P8 P9]] HQ.
  unfold virtio_disk_intr, rd32, wr32, rdreg, wrreg. do 12 kstep.
  match goal with |- runs _ (KState _ _ _ _ _ _ ?d _) _ => generalize d; intros dev1 end.
  pose proof (Z.mod_pos_bound (dev_used_idx vd) NUM ltac:(done)) as Hm.
  assert (served_vd head vd = (device_done head vd) <| vd_used_idx := u16 (vd_used_idx vd + 1) |>) as Esv by (by destruct vd).
  assert (u16 (dev_used_idx vd + 1) <> dev_used_idx vd) as Hne.
  { unfold u16. intros E. destruct (Z.eq_dec (dev_used_idx vd + 1) (2 ^ 16)) as [E2|E2].
    - rewrite E2 in E. rewrite Z.mod_same in E by done. lia.
    - rewrite Z.mod_small in E by lia. lia. }
  assert (used_ring (device_done head vd) !!! Z.to_nat (vd_used_idx (device_done head vd) mod NUM) = head) as Eid.
  { cbn [device_done used_ring vd_used_idx set_with set_used_ring set_dev_used_idx set_vd_info].
    rewrite P7. apply list_lookup_total_insert_eq. rewrite P8. lia. }
  assert (vd_info (device_done head vd) !!! Z.to_nat head = Vinfo (Some b) 0) as Einfo.
  { cbn [device_done vd_info set_with set_used_ring set_dev_used_idx set_vd_info].
    apply list_lookup_total_correct. rewrite list_lookup_alter_eq, P6. done. }
  apply (runs_loop (fun _ s => s = KState (locked_ctl L_vdisk c) h pt ft fs (device_done head vd) dev1 n \/
    s = KState (locked_ctl L_vdisk c) h (pt <| procs := wake_all (ChBuf b) (cur c) (procs pt) |>) ft
          (set_disk_flag b 0 fs) (served_vd head vd) dev1 n)
    (fun _ s => if vd_used_idx (k_vd s) =? dev_used_idx (k_vd s) then 0 else 1)); [by left|destruct (_ =? _); lia|].
  intros [] s [->| ->].
  - do 2 kstep. assert ((vd_used_idx (device_done head vd) =? dev_used_idx (device_done head vd)) = false) as ->.
    { apply Z.eqb_neq. cbn. rewrite P7. congruence. }
    rewrite Eid, Einfo. cbn [in_status in_b]. change (negb (0 =? 0)) with false. cbv iota. unfold deref. do 5 kstep.
    apply kwakeup; [kside|intros i; kside|done|]. rewrite cur_locked by kside. do 2 kstep.
    change (vd_used_idx (device_done head vd)) with (vd_used_idx vd). rewrite <- Esv. split; [by right|]. cbn [k_vd].
    replace (vd_used_idx (served_vd head vd)) with (dev_used_idx (served_vd head vd)); [rewrite Z.eqb_refl; lia|].
    cbn. by rewrite P7.
  - do 2 kstep. replace (vd_used_idx (served_vd head vd)) with (dev_used_idx (served_vd head vd)) by (cbn; by rewrite P7).
    rewrite Z.eqb_refl. do 2 kstep. apply HQ.
Qed.

(** ** The transfer of a block *)

(** The flag goes up and down again. *)
Lemma transferred_flag (b : nat) (write : bool) (blk : Z) (fs : fsys) :
  b_disk (bufs fs !!! b) = 0 ->
  set_disk_flag b 0 (transferred b write blk (set_disk_flag b 1 fs)) = transferred b write blk fs.
Proof.
  intros Hz. destruct fs as [dk wr bs lg sb0 it]. unfold transferred, set_disk_flag. cbn [bufs] in Hz.
  assert (forall f, (forall v, b_disk v = 0 -> f v = v) -> alter f b bs = bs) as Hid.
  { intros f Hf. apply alter_id_total. by apply Hf. }
  destruct write; cbn [bufs disk writes set_with set_bufs set_disk set_writes].
  - rewrite (proj_alter b_data), list_alter_alter_eq by done. rewrite Hid; [done|]. intros v Hv.
    destruct v. cbn in *. by subst.
  - rewrite !list_alter_alter_eq. rewrite (alter_ext_total _ (fun v => v <| b_data := dk !!! blk |>)); [done|].
    destruct (bs !!! b). cbn in *. by subst.
Qed.

(** C22. A disk transfer does what it is for: with a device and an interrupt
    handler that serve a well-formed request, [virtio_disk_rw] returns with
    the block's contents in the buffer (read) or the buffer's contents on disk
    (write), the buffer not in the hands of the disk, all eight descriptors
    free and the rings in step, and nothing else of the file system or of
    memory changed. *)
Theorem disk_transfer {E : Env} (p b : nat) (write : bool) (s : kstate) :
  (p < NPROC)%nat -> disk_serves p ->
  let fs := k_fs s in let blk := b_blockno (bufs fs !!! b) in
  at_sched p (k_ctl s) -> procs_ok (k_pt s) -> vd_idle (k_vd s) -> b_disk (bufs fs !!! b) = 0 ->
  0 <= blk < 2 ^ 31 -> is_Some (disk fs !! blk) -> (b < length (bufs fs))%nat ->
  runs (virtio_disk_rw b write) s (fun _ s' =>
    k_fs s' = transferred b write blk fs /\ k_heap s' = k_heap s /\ k_ft s' = k_ft s /\
    same_proc p (k_pt s) (k_pt s') /\ vd_idle (k_vd s') /\ at_sched p (k_ctl s')).
Proof.
  destruct s as [c h pt ft fs vd dev n]. cbn [k_ctl k_pt k_fs k_vd k_heap k_ft]. intros Hp Henv Hs Hprocs Hvd Hflag Hblk Hdisk Hb.
  apply (kdisk_rw p Hp Henv b write (b_blockno (bufs fs !!! b))); [done..|].
  intros c' pt' vd' dev' n' Hs' Hp' Hsame Hvd'. cbn [k_ctl k_pt k_fs k_vd k_heap k_ft]. split_and!; try done.
  apply transferred_flag. done.
Qed.

(** ** A machine with one disk

    The device works off the request at the head of the queue, the interrupt
    handler runs, and the process that waits is scheduled again. *)
Definition quiet_hw : Hw := {| hw_read _ _ := 1 |}.
Definition device (s : kstate) : kstate :=
  let vd := k_vd s in
  let head := avail_ring vd !!! Z.to_nat (dev_used_idx vd mod NUM) in
  let op := vd_ops vd !!! Z.to_nat head in
  let d1 := vd_desc vd !!! Z.to_nat (d_next (vd_desc vd !!! Z.to_nat head)) in
  match d_addr d1 with
  | DmaData b => s <| k_fs := transferred b (r_type op =? VIRTIO_BLK_T_OUT) (r_sector op / 2) (k_fs s) |>
                   <| k_vd := device_done head vd |>
  | _ => s
  end.
Definition machine_env : Env := {|
  env_away _ p s :=
    match virtio_disk_intr (H := quiet_hw) ((device s) <| k_ctl := demo_ctl |>) with
    | Ret _ s1 => Some (s1 <| k_ctl := k_ctl s |> <| k_pt := (k_pt s1) <| procs :=
        alter (fun v => v <| p_state := RUNNING |>) p (procs (k_pt s1)) |> |>)
    | _ => None
    end;
  env_run _ p s := None |}.

Lemma device_posted (s : kstate) (b : nat) (write : bool) (blk head : Z) :
  posted (k_vd s) b write (blk * 2) head ->
  device s = s <| k_fs := transferred b write blk (k_fs s) |> <| k_vd := device_done head (k_vd s) |>.
Proof.
  intros [P1 P2 P3 (i1 & i2 & C0 & C1 & C2) P5 P6 P7 P8]. unfold device. rewrite P1.
  rewrite (list_lookup_total_correct _ _ _ C0), (list_lookup_total_correct _ _ _ P5). cbn [d_next r_type r_sector].
  rewrite (list_lookup_total_correct _ _ _ C1). cbn [d_addr]. rewrite Z.div_mul by done. by destruct write.
Qed.

Lemma machine_serves (p : nat) : disk_serves (E := machine_env) p.
Proof.
  intros n s c b write blk head Ec Hs Hprocs Est Ech Hpo Hblk Hdisk Hflag Hb.
  assert (runs (virtio_disk_intr (H := quiet_hw)) ((device s) <| k_ctl := demo_ctl |>) (fun _ s1 => exists dev',
    s1 = KState demo_ctl (k_heap s) ((k_pt s) <| procs := wake_all (ChBuf b) (cur demo_ctl) (procs (k_pt s)) |>) (k_ft s)
           (set_disk_flag b 0 (transferred b write blk (k_fs s))) (served_vd head (k_vd s)) dev' (k_switches s))) as Hrun.
  { rewrite (device_posted s b write blk head) by exact Hpo. destruct s as [c0 h pt ft fs vd dev k]. kred.
    eapply (kdisk_intr b write (blk * 2) head); [split; [exact demo_ctl_ok|reflexivity]|exact Hprocs|exact Hpo|].
    intros dev'. by exists dev'. }
  apply runs_inv in Hrun as ([] & s1 & E1 & dev' & ->). eexists _, c. split; [cbn; rewrite E1; reflexivity|].
  split; [exact Ec|]. split; [exact Hs|]. split; [|split; [|done]].
  - unfold procs_ok in *. kred. cbn. by rewrite length_alter, length_wake_all.
  - kred. eapply same_proc_trans; [apply (same_proc_wakes p (ChBuf b) (cur demo_ctl)); by right|].
    apply same_proc_alter. intros v. exists RUNNING, (p_chan v). by destruct v.
Qed.

(** Block 5 into buffer 2 of that machine, and back. *)
Definition demo_block (x : Z) : list Z := replicate 1024 x.
Definition demo_bufs : list buf :=
  (fun i => Buf 0 0 1 (Z.of_nat i + 3) (Sleeplock 0 0) 1 0 0 (demo_block 9)) <$> seq 0 31.
Definition demo_vd : vdisk :=
  Vdisk (replicate 8 (VirtqDesc Dma0 0 0 0)) 65535 (replicate 8 0) 65535 (replicate 8 0) (replicate 8 1) 65535
    (replicate 8 (Vinfo None 0)) (replicate 8 (VirtioBlkReq 0 0 0)).
Definition disk_state : kstate :=
  let s := demo_state demo_ctl in
  s <| k_vd := demo_vd |> <| k_fs := (k_fs s) <| bufs := demo_bufs |> <| disk := {[ 5 := demo_block 7 ]} |> |>.

Lemma disk_transfer_witness :
  runs (virtio_disk_rw (E := machine_env) 2 false) disk_state (fun _ s' =>
    b_data (bufs (k_fs s') !!! 2%nat) = demo_block 7 /\ vd_idle (k_vd s')).
Proof.
  eapply runs_mono; [apply (disk_transfer (E := machine_env) 0 2 false)|].
  - vm_compute. lia.
  - exact (machine_serves 0).
  - split; [exact demo_idle|reflexivity].
  - reflexivity.
  - by split; vm_compute.
  - reflexivity.
  - by vm_compute.
  - by exists (demo_block 7).
  - vm_compute. lia.
  - intros [] s' (Efs & _ & _ & _ & Hvd & _). split; [|exact Hvd]. rewrite Efs. reflexivity.
Defined.
