(* ===== verification/Sleeplock.v ===== *)
(** * Sleep locks (kernel/sleeplock.c)

    A sleep lock is a word protected by a spin lock; a process that finds it
    taken sleeps until the holder releases it.  The kernel has one in every
    buffer and in every in-memory inode. *)
From S2P Require Import Prelude Memory Riscv State Spinlock Proc Plic Virtio.

(** The address of a sleep lock. *)
Inductive slid := SlBuf (b : nat) | SlInode (i : nat).

#[export] Instance inode_inhabited : Inhabited inode :=
  populate (Inode 0 0 0 (Sleeplock 0 0) 0 0 0 0 0 0 []).

Definition get_inode (i : nat) : M inode := gets (fun s => itable (k_fs s) !!! i).
Definition upd_inode (i : nat) (f : inode -> inode) : M unit :=
  modify (fun s => s <| k_fs := (k_fs s) <| itable := alter f i (itable (k_fs s)) |> |>).

(** The spin lock inside a sleep lock, and the sleep lock as a channel. *)
Definition sl_lk (l : slid) : lock_id := match l with SlBuf b => L_buf b | SlInode i => L_inode i end.
Definition sl_chan (l : slid) : chan :=
  match l with SlBuf b => ChBufLock b | SlInode i => ChInodeLock i end.
Definition get_sl (l : slid) : M sleeplock :=
  match l with
  | SlBuf b => v ← get_buf b; mret (b_lock v)
  | SlInode i => v ← get_inode i; mret (i_lock v)
  end.
Definition upd_sl (l : slid) (f : sleeplock -> sleeplock) : M unit :=
  match l with
  | SlBuf b => upd_buf b (fun v => v <| b_lock := f (b_lock v) |>)
  | SlInode i => upd_inode i (fun v => v <| i_lock := f (i_lock v) |>)
  end.

(** ** kernel/sleeplock.c *)
Section sleeplocks.
Context {E : Env}.

Definition initsleeplock (l : slid) : M unit :=
  put_lock (sl_lk l) initlock;;
  upd_sl l (fun v => v <| sl_locked := 0 |>);;
  upd_sl l (fun v => v <| sl_pid := 0 |>).

Definition acquiresleep (l : slid) : M unit :=
  acquire (sl_lk l);;
  loop (fun _ : unit =>
    v ← get_sl l;
    if truth (sl_locked v) then sleep (sl_chan l) (sl_lk l);; mret (inl tt) else mret (inr tt)) tt;;
  upd_sl l (fun v => v <| sl_locked := 1 |>);;
  p ← curproc;
  pr ← get_proc p;
  upd_sl l (fun v => v <| sl_pid := p_pid pr |>);;
  release (sl_lk l).

Definition releasesleep (l : slid) : M unit :=
  acquire (sl_lk l);;
  upd_sl l (fun v => v <| sl_locked := 0 |>);;
  upd_sl l (fun v => v <| sl_pid := 0 |>);;
  wakeup (sl_chan l);;
  release (sl_lk l).

Definition holdingsleep (l : slid) : M bool :=
  acquire (sl_lk l);;
  v ← get_sl l;
  r ← (if truth (sl_locked v) then
         p ← curproc; pr ← get_proc p; mret (sl_pid v =? p_pid pr)
       else mret false);
  release (sl_lk l);;
  mret r.

End sleeplocks.
