(* ===== verification/SleepWake.v ===== *)
(** * Sleeping and waking on several harts (kernel/proc.c, kernel/sleeplock.c)

    The code by which processes wait for each other, at the grain of its single
    statements: [acquiresleep] and [releasesleep] on any sleep lock, [sleep],
    [wakeup] with its loop over the process table, [yield] after a timer
    interrupt, [sched], and the scheduler of each hart.  Any number of harts
    take their steps in any order.  The process table, the channels and the
    sleep locks are those of [State] and [Sleeplock]; the statements are those
    of [Proc.sleep], [Proc.wakeup], [Proc.sched], [Proc.yield] and
    [Sleeplock.acquiresleep], which run one after the other there.

    [acquire] is one step here: it takes the lock or stays where it is (the
    accesses to the word of a lock are interleaved in [Spinlock.Harts]).  The
    process that a hart runs is its [c->proc].  The checks by which [acquire],
    [release] and [sched] panic are made, and shown never to fire. *)
From S2P Require Import Prelude Memory Riscv State Spinlock Proc Plic Virtio Sleeplock.

Module SleepWake.

#[export] Instance slid_eq_dec : EqDecision slid.
Proof. solve_decision. Defined.

(** ** Where a process is in its code *)
Inductive acquiresleep_pc :=
  | A_lock      (* acquire(&lk->lk) *)
  | A_while     (* while (lk->locked) *)
  | A_take      (* lk->locked = 1 *)
  | A_pid       (* lk->pid = myproc()->pid *)
  | A_unlock.   (* release(&lk->lk) *)
Inductive releasesleep_pc :=
  | R_lock      (* acquire(&lk->lk) *)
  | R_clear     (* lk->locked = 0 *)
  | R_pid       (* lk->pid = 0 *)
  | R_unlock.   (* release(&lk->lk) *)
Inductive sleep_pc :=
  | S_plock     (* acquire(&p->lock) *)
  | S_release   (* release(lk) *)
  | S_chan      (* p->chan = chan *)
  | S_state     (* p->state = SLEEPING *)
  | S_sched     (* sched() *)
  | S_tidy      (* p->chan = 0 *)
  | S_punlock   (* release(&p->lock) *)
  | S_relock.   (* acquire(lk) *)
Inductive wakeup_pc :=
  | W_for       (* p < &proc[NPROC]; if (p != myproc()) *)
  | W_lock      (* acquire(&p->lock) *)
  | W_test      (* if (p->state == SLEEPING && p->chan == chan) p->state = RUNNABLE *)
  | W_unlock.   (* release(&p->lock); p++ *)
Inductive yield_pc :=
  | Y_lock      (* acquire(&p->lock) *)
  | Y_state     (* p->state = RUNNABLE *)
  | Y_sched     (* sched() *)
  | Y_unlock.   (* release(&p->lock) *)

(** [Sleep l] is the call in [acquiresleep] of [l], [Wakeup l] the one in
    [releasesleep] of [l]; [Yield] keeps the place of the interrupt. *)
Inductive pc :=
  | Idle
  | Acquiresleep (l : slid) (k : acquiresleep_pc)
  | Releasesleep (l : slid) (k : releasesleep_pc)
  | Sleep (l : slid) (k : sleep_pc)
  | Wakeup (l : slid) (i : nat) (k : wakeup_pc)
  | Yield (k : yield_pc) (back : pc)
  | Panicked.

(** A hart is at process [q] of the loop of its scheduler, or runs [q]. *)
Inductive hpc :=
  | H_lock (q : nat)     (* acquire(&p->lock) *)
  | H_test (q : nat)     (* if (p->state == RUNNABLE) *)
  | H_run (q : nat)      (* in swtch: process q runs *)
  | H_unlock (q : nat)   (* c->proc = 0; release(&p->lock); p++ *)
  | H_panicked.

(** ** The state: locks with the hart that holds them, the depth of [push_off]
    of each hart, sleep locks, the process table *)
Record state := State {
  lk : lock_id -> option nat;
  noff : nat -> Z;
  sl : slid -> sleeplock;
  ps : nat -> proc;
  at_p : nat -> pc;
  at_h : nat -> hpc;
}.

Definition upd_p (q : nat) (f : proc -> proc) (s : state) : state :=
  State (lk s) (noff s) (sl s) (<[ q := f (ps s q) ]> (ps s)) (at_p s) (at_h s).
Definition upd_l (l : slid) (f : sleeplock -> sleeplock) (s : state) : state :=
  State (lk s) (noff s) (<[ l := f (sl s l) ]> (sl s)) (ps s) (at_p s) (at_h s).
Definition goto (q : nat) (k : pc) (s : state) : state :=
  State (lk s) (noff s) (sl s) (ps s) (<[ q := k ]> (at_p s)) (at_h s).
Definition goto_h (h : nat) (k : hpc) (s : state) : state :=
  State (lk s) (noff s) (sl s) (ps s) (at_p s) (<[ h := k ]> (at_h s)).

Definition spin_acquire (h : nat) (L : lock_id) (next panic : state -> state) (s : state) : state :=
  match lk s L with
  | None => next (State (<[ L := Some h ]> (lk s)) (<[ h := noff s h + 1 ]> (noff s)) (sl s) (ps s) (at_p s) (at_h s))
  | Some h' => if decide (h' = h) then panic s else s
  end.
Definition spin_release (h : nat) (L : lock_id) (next panic : state -> state) (s : state) : state :=
  if negb (bool_decide (lk s L = Some h)) then panic s else
  if noff s h <? 1 then panic s else
  next (State (<[ L := None ]> (lk s)) (<[ h := noff s h - 1 ]> (noff s)) (sl s) (ps s) (at_p s) (at_h s)).

(** [sched]: gives the hart back to its scheduler, which is after its [swtch];
    the process goes on at [back] when it runs again.  Interrupts are off while
    [noff] is positive, so the last check of [sched] follows from its second. *)
Definition switch_back (h q : nat) (back : pc) (s : state) : state :=
  if negb (bool_decide (lk s (L_proc q) = Some h)) then goto q Panicked s else
  if negb (noff s h =? 1) then goto q Panicked s else
  if bool_decide (p_state (ps s q) = RUNNING) then goto q Panicked s else
  goto_h h (H_unlock q) (goto q back s).

(** ** The steps of process [q], which runs on hart [h] *)
Definition sleep_step (h q : nat) (l : slid) (k : sleep_pc) (s : state) : state :=
  let panic := goto q Panicked in
  match k with
  | S_plock => spin_acquire h (L_proc q) (goto q (Sleep l S_release)) panic s
  | S_release => spin_release h (sl_lk l) (goto q (Sleep l S_chan)) panic s
  | S_chan => goto q (Sleep l S_state) (upd_p q (fun v => v <| p_chan := sl_chan l |>) s)
  | S_state => goto q (Sleep l S_sched) (upd_p q (fun v => v <| p_state := SLEEPING |>) s)
  | S_sched => switch_back h q (Sleep l S_tidy) s
  | S_tidy => goto q (Sleep l S_punlock) (upd_p q (fun v => v <| p_chan := Ch0 |>) s)
  | S_punlock => spin_release h (L_proc q) (goto q (Sleep l S_relock)) panic s
  | S_relock => spin_acquire h (sl_lk l) (goto q (Acquiresleep l A_while)) panic s
  end.

Definition wakeup_step (h q : nat) (l : slid) (i : nat) (k : wakeup_pc) (s : state) : state :=
  let panic := goto q Panicked in
  match k with
  | W_for =>
      if decide (i < NPROC)%nat then
        if decide (i <> q) then goto q (Wakeup l i W_lock) s else goto q (Wakeup l (S i) W_for) s
      else goto q (Releasesleep l R_unlock) s
  | W_lock => spin_acquire h (L_proc i) (goto q (Wakeup l i W_test)) panic s
  | W_test =>
      goto q (Wakeup l i W_unlock)
        (if bool_decide (p_state (ps s i) = SLEEPING) && bool_decide (p_chan (ps s i) = sl_chan l)
         then upd_p i (fun v => v <| p_state := RUNNABLE |>) s else s)
  | W_unlock => spin_release h (L_proc i) (goto q (Wakeup l (S i) W_for)) panic s
  end.

Definition acquiresleep_step (h q : nat) (l : slid) (k : acquiresleep_pc) (s : state) : state :=
  let panic := goto q Panicked in
  match k with
  | A_lock => spin_acquire h (sl_lk l) (goto q (Acquiresleep l A_while)) panic s
  | A_while => if truth (sl_locked (sl s l)) then goto q (Sleep l S_plock) s else goto q (Acquiresleep l A_take) s
  | A_take => goto q (Acquiresleep l A_pid) (upd_l l (fun v => v <| sl_locked := 1 |>) s)
  | A_pid => goto q (Acquiresleep l A_unlock) (upd_l l (fun v => v <| sl_pid := p_pid (ps s q) |>) s)
  | A_unlock => spin_release h (sl_lk l) (goto q Idle) panic s
  end.

Definition releasesleep_step (h q : nat) (l : slid) (k : releasesleep_pc) (s : state) : state :=
  let panic := goto q Panicked in
  match k with
  | R_lock => spin_acquire h (sl_lk l) (goto q (Releasesleep l R_clear)) panic s
  | R_clear => goto q (Releasesleep l R_pid) (upd_l l (fun v => v <| sl_locked := 0 |>) s)
  | R_pid => goto q (Wakeup l 0 W_for) (upd_l l (fun v => v <| sl_pid := 0 |>) s)
  | R_unlock => spin_release h (sl_lk l) (goto q Idle) panic s
  end.

Definition yield_step (h q : nat) (k : yield_pc) (back : pc) (s : state) : state :=
  let panic := goto q Panicked in
  match k with
  | Y_lock => spin_acquire h (L_proc q) (goto q (Yield Y_state back)) panic s
  | Y_state => goto q (Yield Y_sched back) (upd_p q (fun v => v <| p_state := RUNNABLE |>) s)
  | Y_sched => switch_back h q (Yield Y_unlock back) s
  | Y_unlock => spin_release h (L_proc q) (goto q back) panic s
  end.

Definition process_step (h q : nat) (s : state) : state :=
  match at_p s q with
  | Acquiresleep l k => acquiresleep_step h q l k s
  | Releasesleep l k => releasesleep_step h q l k s
  | Sleep l k => sleep_step h q l k s
  | Wakeup l i k => wakeup_step h q l i k s
  | Yield k back => yield_step h q k back s
  | Idle | Panicked => s
  end.

(** The next process of the scheduler's loop. *)
Definition after (q : nat) : nat := if decide (S q < NPROC)%nat then S q else 0.

Definition scheduler_step (h : nat) (s : state) : state :=
  let panic := goto_h h H_panicked in
  match at_h s h with
  | H_lock q => spin_acquire h (L_proc q) (goto_h h (H_test q)) panic s
  | H_test q =>
      if bool_decide (p_state (ps s q) = RUNNABLE)
      then goto_h h (H_run q) (upd_p q (fun v => v <| p_state := RUNNING |>) s)
      else goto_h h (H_unlock q) s
  | H_run q => process_step h q s
  | H_unlock q => spin_release h (L_proc q) (goto_h h (H_lock (after q))) panic s
  | H_panicked => s
  end.

(** ** Runs: which hart goes next, and what it does *)

(** A hart makes the next step of its code; or the process it runs, outside of
    the code above, calls [acquiresleep] or [releasesleep]; or a timer
    interrupt, which needs that interrupts are on, makes that process yield. *)
Inductive act := Next | Call_acquiresleep (l : slid) | Call_releasesleep (l : slid) | Timer.

Definition interruptible (k : pc) : bool :=
  match k with
  | Idle | Acquiresleep _ A_lock | Releasesleep _ R_lock | Sleep _ S_relock => true
  | _ => false
  end.

Definition step (h : nat) (a : act) (s : state) : state :=
  match a, at_h s h with
  | Next, _ => scheduler_step h s
  | Call_acquiresleep l, H_run q => match at_p s q with Idle => goto q (Acquiresleep l A_lock) s | _ => s end
  | Call_releasesleep l, H_run q => match at_p s q with Idle => goto q (Releasesleep l R_lock) s | _ => s end
  | Timer, H_run q => if interruptible (at_p s q) && (noff s h =? 0) then goto q (Yield Y_lock (at_p s q)) s else s
  | _, _ => s
  end.

(** At first the harts are in their schedulers and no process has run: it
    starts where [forkret] releases its lock. *)
Definition init (table : nat -> proc) : state :=
  State (fun _ => None) (fun _ => 0) (fun _ => Sleeplock 0 0) table (fun _ => Yield Y_unlock Idle) (fun _ => H_lock 0).
Definition fresh (table : nat -> proc) : Prop := forall q, p_state (table q) = RUNNABLE \/ p_state (table q) = UNUSED.

Inductive reachable : state -> Prop :=
  | reach_init table : fresh table -> reachable (init table)
  | reach_step h a s : reachable s -> reachable (step h a s).

(** ** The invariant *)

(** The spin locks that a process holds at a place in its code. *)
Definition locks_at (q : nat) (k : pc) : list lock_id :=
  match k with
  | Idle | Panicked | Acquiresleep _ A_lock | Releasesleep _ R_lock | Sleep _ S_relock | Yield Y_lock _ => []
  | Acquiresleep l _ | Releasesleep l _ | Sleep l S_plock | Wakeup l _ (W_for | W_lock) => [sl_lk l]
  | Sleep l S_release => [L_proc q; sl_lk l]
  | Sleep _ _ | Yield _ _ => [L_proc q]
  | Wakeup l i (W_test | W_unlock) => [L_proc i; sl_lk l]
  end.
Definition locks_of (s : state) (h : nat) : list lock_id :=
  match at_h s h with
  | H_lock _ | H_panicked => []
  | H_test q | H_unlock q => [L_proc q]
  | H_run q => locks_at q (at_p s q)
  end.

(** The entry of a process that runs, and of one that does not. *)
Definition on_ok (k : pc) (v : proc) : Prop :=
  match k with
  | Sleep l S_sched => p_state v = SLEEPING /\ p_chan v = sl_chan l
  | Sleep l S_state => p_state v = RUNNING /\ p_chan v = sl_chan l
  | Yield Y_sched back => p_state v = RUNNABLE /\ interruptible back = true
  | Yield _ back => p_state v = RUNNING /\ interruptible back = true
  | Panicked => False
  | _ => p_state v = RUNNING
  end.
Definition off_ok (k : pc) (v : proc) : Prop :=
  match k with
  | Sleep l S_tidy => p_state v = RUNNABLE \/ p_state v = SLEEPING /\ p_chan v = sl_chan l
  | Yield Y_unlock back => (p_state v = RUNNABLE \/ p_state v = UNUSED) /\ interruptible back = true
  | _ => False
  end.

(** A process that has found [l] locked and is not awake again. *)
Definition waits (k : pc) (v : proc) (l : slid) : Prop :=
  match k with
  | Sleep l' (S_plock | S_release | S_chan | S_state | S_sched) => l' = l
  | Sleep l' S_tidy => l' = l /\ p_state v = SLEEPING
  | _ => False
  end.

(** The code at [k] still comes to process [p] with a wakeup on [l]. *)
Definition will_wake (k : pc) (l : slid) (p : nat) : Prop :=
  match k with
  | Releasesleep l' R_pid => l' = l
  | Wakeup l' i (W_for | W_lock | W_test) => l' = l /\ (i <= p)%nat
  | Wakeup l' i W_unlock => l' = l /\ (i < p)%nat
  | _ => False
  end.
Definition pending (s : state) (l : slid) (p : nat) : Prop :=
  exists h q, at_h s h = H_run q /\ will_wake (at_p s q) l p.

Record locks_ok (lk : lock_id -> option nat) (noff : nat -> Z) (held : nat -> list lock_id) : Prop := {
  lo_lk : forall L h, lk L = Some h <-> L ∈ held h;
  lo_noff : forall h, noff h = Z.of_nat (length (held h));
  lo_nodup : forall h, NoDup (held h);
}.

Record inv (s : state) : Prop := {
  inv_locks : locks_ok (lk s) (noff s) (locks_of s);
  inv_once : forall h h' q, at_h s h = H_run q -> at_h s h' = H_run q -> h = h';
  inv_proc : forall q, (exists h, at_h s h = H_run q) /\ on_ok (at_p s q) (ps s q) \/
    (forall h, at_h s h <> H_run q) /\ off_ok (at_p s q) (ps s q);
  inv_waits : forall p l, waits (at_p s p) (ps s p) l -> truth (sl_locked (sl s l)) = true \/ pending s l p;
  inv_table : forall q, (NPROC <= q)%nat -> at_p s q = Yield Y_unlock Idle;
  inv_hart : forall h, match at_h s h with H_lock q | H_test q | H_run q | H_unlock q => (q < NPROC)%nat | H_panicked => False end;
}.

(** ** Taking and releasing locks *)
Lemma sl_lk_proc (l : slid) (q : nat) : sl_lk l <> L_proc q.
Proof. by destruct l. Qed.
Lemma sl_lk_inj (l l' : slid) : sl_lk l = sl_lk l' -> l = l'.
Proof. by destruct l, l'; intros [= ->]. Qed.
Lemma sl_chan_inj (l l' : slid) : sl_chan l = sl_chan l' -> l = l'.
Proof. by destruct l, l'; intros [= ->]. Qed.

Section locks.
Context {lk : lock_id -> option nat} {noff : nat -> Z} {held held' : nat -> list lock_id} (h : nat).
Hypothesis Hok : locks_ok lk noff held.
Hypothesis Hother : forall h', h' <> h -> held' h' = held h'.

Lemma locks_keep : held' h = held h -> locks_ok lk noff held'.
Proof using Hok Hother.
  intros Hh. assert (forall h', held' h' = held h') as He by (intros h'; destruct (decide (h' = h)) as [->|]; auto).
  destruct Hok as [H1 H2 H3]. split; intros; rewrite He; auto.
Qed.

Lemma locks_take (L : lock_id) : lk L = None -> held' h = L :: held h ->
  locks_ok (<[ L := Some h ]> lk) (<[ h := noff h + 1 ]> noff) held'.
Proof using Hok Hother.
  intros HL Hh. destruct Hok as [H1 H2 H3].
  assert (forall h', L ∉ held h') as Hno by (intros h'; rewrite <- H1; congruence). split.
  - intros L' h'. destruct (decide (h' = h)) as [->|Hne]; [rewrite Hh, elem_of_cons|rewrite Hother by done];
      (destruct (decide (L' = L)) as [->|HL']; [rewrite fn_lookup_insert|rewrite fn_lookup_insert_ne, H1 by done]); try tauto.
    split; [congruence|]. intros Hin. by apply Hno in Hin.
  - intros h'. destruct (decide (h' = h)) as [->|Hne]; [rewrite fn_lookup_insert, Hh, H2; cbn; lia|].
    by rewrite fn_lookup_insert_ne, Hother by done.
  - intros h'. destruct (decide (h' = h)) as [->|Hne]; [rewrite Hh; by constructor|by rewrite Hother].
Qed.

Lemma locks_drop (L : lock_id) : held h ≡ₚ L :: held' h ->
  lk L = Some h /\ 1 <= noff h /\ locks_ok (<[ L := None ]> lk) (<[ h := noff h - 1 ]> noff) held'.
Proof using Hok Hother.
  intros Hh. destruct Hok as [H1 H2 H3]. pose proof (H3 h) as Hnd. rewrite Hh in Hnd. apply list.NoDup_cons in Hnd as [Hni Hnd].
  assert (L ∈ held h) as Hin by (rewrite Hh; by left). assert (lk L = Some h) as HL by (by apply H1).
  split; [done|]. split; [rewrite H2, Hh; cbn; lia|]. split.
  - intros L' h'. destruct (decide (h' = h)) as [->|Hne]; [|rewrite Hother by done];
      (destruct (decide (L' = L)) as [->|HL']; [rewrite fn_lookup_insert|rewrite fn_lookup_insert_ne, H1 by done]); try done.
    + rewrite Hh, elem_of_cons. tauto.
    + split; [done|]. intros Hin'. apply H1 in Hin'. congruence.
  - intros h'. destruct (decide (h' = h)) as [->|Hne]; [rewrite fn_lookup_insert, H2, Hh; cbn; lia|].
    by rewrite fn_lookup_insert_ne, Hother by done.
  - intros h'. destruct (decide (h' = h)) as [->|Hne]; [done|by rewrite Hother].
Qed.
End locks.

Lemma locks_excl (lk : lock_id -> option nat) noff held (L : lock_id) (h h' : nat) :
  locks_ok lk noff held -> L ∈ held h -> L ∈ held h' -> h = h'.
Proof. intros [H1 _ _] A%H1 B%H1. congruence. Qed.

(** ** A step of the process that a hart runs *)
Lemma waits_not_waking (k : pc) (v : proc) (l l' : slid) (i : nat) : waits k v l -> will_wake k l' i -> False.
Proof. by destruct k as [| | | | | |]. Qed.

Section thread.
Context (s : state) (Hi : inv s) (h q : nat) (Hq : at_h s h = H_run q).

Lemma other_thread (h' q' : nat) : at_h s h' = H_run q' -> h' <> h -> q' <> q.
Proof using Hi Hq. intros Hh Hne ->. apply Hne. by apply (inv_once _ Hi _ _ q). Qed.

Lemma locks_running : locks_of s h = locks_at q (at_p s q).
Proof using Hq. unfold locks_of. by rewrite Hq. Qed.

Section moves.
Context (lk' : lock_id -> option nat) (noff' : nat -> Z) (sl' : slid -> sleeplock) (ps' : nat -> proc) (k : pc).
Let s' : state := State lk' noff' sl' ps' (<[ q := k ]> (at_p s)) (at_h s).

Lemma moved_locks : (forall h', h' <> h -> locks_of s' h' = locks_of s h') /\ locks_of s' h = locks_at q k.
Proof using Hi Hq.
  split; unfold locks_of; cbn [at_p at_h s'].
  - intros h' Hne. destruct (at_h s h') as [| |q'| |] eqn:E; try done.
    rewrite fn_lookup_insert_ne; [done|]. intros <-. by apply (other_thread _ _ E Hne).
  - by rewrite Hq, fn_lookup_insert.
Qed.

(** A process whose lock the hart holds does not run elsewhere, and sleeps only
    at the end of [sched]. *)
Lemma sleeper_off (i : nat) : i <> q -> p_state (ps s i) = SLEEPING -> L_proc i ∈ locks_of s h ->
  (forall h', at_h s h' <> H_run i) /\ exists l, at_p s i = Sleep l S_tidy.
Proof using Hi Hq.
  intros Hne Hs HL. destruct (inv_proc _ Hi i) as [[[h' Hh] Ho]|[Hoff Ho]].
  - exfalso. assert (L_proc i ∈ locks_of s h') as HL'.
    { unfold locks_of. rewrite Hh. destruct (at_p s i) as [| | |l []| |[] ?|]; cbn in *; try (by left); try congruence; destruct Ho; congruence. }
    pose proof (locks_excl _ _ _ _ _ _ (inv_locks _ Hi) HL HL') as <-. rewrite Hq in Hh. congruence.
  - split; [done|]. destruct (at_p s i) as [| | |l []| |[] ?|]; try done; [by exists l|]. by destruct Ho as [[] _]; congruence.
Qed.

(** What the step must show: the locks, the entry of [q], what it does to the
    entries of others, and that nobody who waits is forgotten. *)
Lemma inv_moved :
  locks_ok lk' noff' (locks_of s') -> on_ok k (ps' q) ->
  (forall i, i <> q -> ps' i = ps s i \/
     p_state (ps s i) = SLEEPING /\ ps' i = (ps s i) <| p_state := RUNNABLE |> /\ L_proc i ∈ locks_of s h) ->
  (forall l, waits k (ps' q) l -> truth (sl_locked (sl' l)) = true \/ waits (at_p s q) (ps s q) l) ->
  (forall l, truth (sl_locked (sl s l)) = true -> truth (sl_locked (sl' l)) = true \/ forall i, will_wake k l i) ->
  (forall l i, i <> q -> (i < NPROC)%nat -> ps' i = ps s i -> waits (at_p s i) (ps s i) l -> will_wake (at_p s q) l i -> will_wake k l i) ->
  inv s'.
Proof using Hi Hq.
  intros Hlk Hon Hps Hself Hsl Hwake. pose proof (inv_hart _ Hi h) as Hqn. rewrite Hq in Hqn.
  split; cbn [lk noff sl ps at_p at_h s'].
  - exact Hlk.
  - apply (inv_once _ Hi).
  - intros q'. destruct (decide (q' = q)) as [->|Hne]; [rewrite fn_lookup_insert; left; eauto|]. rewrite fn_lookup_insert_ne by done.
    destruct (Hps q' Hne) as [->|(Hs & -> & HL)]; [apply (inv_proc _ Hi)|]. right.
    destruct (sleeper_off q' Hne Hs HL) as [Hoff [l ->]]. split; [done|]. by left.
  - intros i l Hw. assert (waits k (ps' q) l /\ i = q \/ i <> q /\ ps' i = ps s i /\ waits (at_p s i) (ps s i) l) as Hcase.
    { destruct (decide (i = q)) as [->|Hne]; [rewrite fn_lookup_insert in Hw; by left|right]. rewrite fn_lookup_insert_ne in Hw by done.
      split; [done|]. destruct (Hps i Hne) as [Hp|(Hs & Hp & HL)]; [by rewrite Hp in *|]. exfalso.
      destruct (sleeper_off i Hne Hs HL) as [_ [l' E]]. rewrite Hp, E in Hw. by destruct Hw. }
    assert (truth (sl_locked (sl' l)) = true \/ waits (at_p s i) (ps s i) l) as [?|Hold]; [|by left|].
    { destruct Hcase as [[Hk ->]|(_ & _ & ?)]; auto. }
    destruct (inv_waits _ Hi _ _ Hold) as [HL|(h' & q' & Hh & Hww)].
    + destruct (Hsl l HL) as [?|Hall]; [by left|right]. exists h, q. cbn [at_h at_p s']. rewrite fn_lookup_insert. auto.
    + right. exists h', q'. cbn [at_h at_p s']. split; [done|]. destruct (decide (q' = q)) as [->|Hne]; [|by rewrite fn_lookup_insert_ne].
      rewrite fn_lookup_insert. destruct Hcase as [[_ ->]|(Hne & Hp & _)]; [by destruct (waits_not_waking _ _ _ _ _ Hold Hww)|].
      apply (Hwake l i); try done. destruct (decide (i < NPROC)%nat) as [|Hge]; [done|].
      rewrite (inv_table _ Hi) in Hold by lia. done.
  - intros q' Hge. rewrite fn_lookup_insert_ne by lia. by apply (inv_table _ Hi).
  - apply (inv_hart _ Hi).
Qed.
End moves.

(** A step that changes neither the locks nor the table nor the sleep locks. *)
Definition quiet (k : pc) : Prop :=
  on_ok k (ps s q) /\ (forall l, waits k (ps s q) l -> waits (at_p s q) (ps s q) l) /\
  forall l i, i <> q -> (i < NPROC)%nat -> will_wake (at_p s q) l i -> will_wake k l i.

Lemma inv_quiet (lk' : lock_id -> option nat) (noff' : nat -> Z) (k : pc) :
  quiet k -> locks_ok lk' noff' (locks_of (State lk' noff' (sl s) (ps s) (<[ q := k ]> (at_p s)) (at_h s))) ->
  inv (State lk' noff' (sl s) (ps s) (<[ q := k ]> (at_p s)) (at_h s)).
Proof using Hi Hq. intros (H1 & H2 & H3) Hlk. apply inv_moved; auto. Qed.

Lemma inv_place (k : pc) : quiet k -> locks_at q k = locks_at q (at_p s q) -> inv (goto q k s).
Proof using Hi Hq.
  intros Hk Hl. apply inv_quiet; [done|]. destruct (moved_locks (lk s) (noff s) (sl s) (ps s) k) as [H1 H2].
  apply (locks_keep h (inv_locks _ Hi)); [done|]. by rewrite H2, locks_running.
Qed.

Lemma inv_acquire (L : lock_id) (k : pc) (f : state -> state) :
  quiet k -> locks_at q k = L :: locks_at q (at_p s q) -> L ∉ locks_at q (at_p s q) -> inv (spin_acquire h L (goto q k) f s).
Proof using Hi Hq.
  intros Hk Hl Hnew. unfold spin_acquire. destruct (lk s L) as [h'|] eqn:E.
  - destruct (decide (h' = h)) as [->|]; [|done]. apply (lo_lk _ _ _ (inv_locks _ Hi)) in E. by rewrite locks_running in E.
  - apply inv_quiet; [done|]. edestruct moved_locks as [H1 H2].
    apply (locks_take h (inv_locks _ Hi)); [done|done|]. by rewrite H2, Hl, locks_running.
Qed.

Lemma inv_release (L : lock_id) (k : pc) (f : state -> state) :
  quiet k -> locks_at q (at_p s q) ≡ₚ L :: locks_at q k -> inv (spin_release h L (goto q k) f s).
Proof using Hi Hq.
  intros Hk Hl. edestruct (moved_locks (<[ L := None ]> (lk s)) (<[ h := noff s h - 1 ]> (noff s)) (sl s) (ps s) k) as [H1 H2].
  destruct (locks_drop h (inv_locks _ Hi) H1 L) as (E & Hn & Hok); [by rewrite H2, locks_running|].
  unfold spin_release. rewrite bool_decide_true by done. rewrite (proj2 (Z.ltb_ge _ _)) by lia. cbn [negb]. by apply inv_quiet.
Qed.

(** A step that changes the entry of [q], or a sleep lock. *)
Lemma inv_store (sl' : slid -> sleeplock) (ps' : nat -> proc) (k : pc) :
  (forall i, i <> q -> ps' i = ps s i) -> locks_at q k = locks_at q (at_p s q) -> on_ok k (ps' q) ->
  (forall l, waits k (ps' q) l -> waits (at_p s q) (ps s q) l) ->
  (forall l, truth (sl_locked (sl s l)) = true -> truth (sl_locked (sl' l)) = true \/ forall i, will_wake k l i) ->
  (forall l i, will_wake (at_p s q) l i -> will_wake k l i) ->
  inv (State (lk s) (noff s) sl' ps' (<[ q := k ]> (at_p s)) (at_h s)).
Proof using Hi Hq.
  intros Hps Hl Hon Hw Hsl Hww. apply inv_moved; auto.
  edestruct moved_locks as [H1 H2]. apply (locks_keep h (inv_locks _ Hi)); [done|]. by rewrite H2, locks_running.
Qed.

(** Back to the scheduler. *)
Lemma inv_sched (back : pc) :
  locks_at q (at_p s q) = [L_proc q] -> p_state (ps s q) <> RUNNING -> off_ok back (ps s q) ->
  (forall l, waits back (ps s q) l -> waits (at_p s q) (ps s q) l) -> (forall l i, ~ will_wake (at_p s q) l i) ->
  inv (switch_back h q back s).
Proof using Hi Hq.
  intros Hl Hst Hoff Hw Hww. pose proof (inv_locks _ Hi) as Hlk. unfold switch_back.
  assert (L_proc q ∈ locks_of s h) as HL by (rewrite locks_running, Hl; by left). pose proof HL as HL'. apply (lo_lk _ _ _ Hlk) in HL'.
  rewrite bool_decide_true by done. rewrite (proj2 (Z.eqb_eq _ _)) by (by rewrite (lo_noff _ _ _ Hlk), locks_running, Hl).
  rewrite bool_decide_false by done. cbn [negb]. pose proof (inv_hart _ Hi h) as Hqn. rewrite Hq in Hqn.
  assert (forall h' q', <[ h := H_unlock q ]> (at_h s) h' = H_run q' -> h' <> h /\ at_h s h' = H_run q' /\ q' <> q) as Hrun.
  { intros h' q' Hh. destruct (decide (h' = h)) as [->|Hne]; [by rewrite fn_lookup_insert in Hh|]. rewrite fn_lookup_insert_ne in Hh by done.
    split_and!; [done|done|]. by apply (other_thread h'). }
  split; cbn [lk noff sl ps at_p at_h goto goto_h].
  - apply (locks_keep h Hlk); unfold locks_of; cbn [at_p at_h goto goto_h].
    + intros h' Hne. rewrite fn_lookup_insert_ne by done. destruct (at_h s h') as [| |q'| |] eqn:E; try done.
      rewrite fn_lookup_insert_ne; [done|]. intros <-. by apply (other_thread _ _ E Hne).
    + by rewrite fn_lookup_insert, Hq, Hl.
  - intros h1 h2 q' (_ & H1 & _)%Hrun (_ & H2 & _)%Hrun. by apply (inv_once _ Hi _ _ q').
  - intros q'. destruct (decide (q' = q)) as [->|Hne].
    + right. rewrite fn_lookup_insert. split; [|done]. by intros h' (_ & _ & ?)%Hrun.
    + rewrite fn_lookup_insert_ne by done. destruct (inv_proc _ Hi q') as [[[h' Hh] Ho]|[Hno Ho]]; [left|right]; (split; [|done]).
      * exists h'. rewrite fn_lookup_insert_ne; [done|]. intros ->. congruence.
      * intros h' (_ & Hh & _)%Hrun. by apply (Hno h').
  - intros i l Hwi. assert (waits (at_p s i) (ps s i) l) as Hold.
    { destruct (decide (i = q)) as [->|Hne]; [rewrite fn_lookup_insert in Hwi; auto|by rewrite fn_lookup_insert_ne in Hwi]. }
    destruct (inv_waits _ Hi _ _ Hold) as [?|(h' & q' & Hh & Hwk)]; [by left|right].
    destruct (decide (q' = q)) as [->|Hne]; [by apply Hww in Hwk|]. exists h', q'. cbn [at_p at_h goto goto_h].
    rewrite !fn_lookup_insert_ne; [done|done|]. intros ->. congruence.
  - intros q' Hge. rewrite fn_lookup_insert_ne by lia. by apply (inv_table _ Hi).
  - intros h'. destruct (decide (h' = h)) as [->|Hne]; [by rewrite fn_lookup_insert|rewrite fn_lookup_insert_ne by done; apply (inv_hart _ Hi)].
Qed.

(** ** The functions of a process *)
Ltac here E := unfold quiet; rewrite ?E; cbn; rewrite ?fn_lookup_insert;
  try (intros ? ?; rewrite fn_lookup_insert_ne by done); try done; auto; try (apply not_elem_of_nil).

Lemma on_running : on_ok (at_p s q) (ps s q).
Proof using Hi Hq. destruct (inv_proc _ Hi q) as [[_ Ho]|[Hno _]]; [done|]. by destruct (Hno h). Qed.

Lemma inv_sleep_step (l : slid) (k : sleep_pc) : at_p s q = Sleep l k -> inv (sleep_step h q l k s).
Proof using Hi Hq.
  intros E. pose proof on_running as Ho. rewrite E in Ho. destruct k; cbn [sleep_step].
  - apply inv_acquire; here E. intros ?%list_elem_of_singleton. by apply (sl_lk_proc l q).
  - apply inv_release; here E. by rewrite Permutation_swap.
  - apply inv_store; here E.
  - destruct Ho. apply inv_store; here E.
  - destruct Ho. apply inv_sched; here E; [congruence|]. by intros l' [-> _].
  - apply inv_store; here E.
  - apply inv_release; here E.
  - apply inv_acquire; here E.
Qed.

Lemma inv_acquiresleep_step (l : slid) (k : acquiresleep_pc) : at_p s q = Acquiresleep l k -> inv (acquiresleep_step h q l k s).
Proof using Hi Hq.
  intros E. pose proof on_running as Ho. rewrite E in Ho. destruct k; cbn [acquiresleep_step].
  - apply inv_acquire; here E.
  - destruct (truth (sl_locked (sl s l))) eqn:Et; [|apply inv_place; here E].
    apply inv_moved; here E; [|by intros l' <-; left]. edestruct moved_locks as [H1 H2].
    apply (locks_keep h (inv_locks _ Hi)); [done|]. by rewrite H2, locks_running, E.
  - apply inv_store; here E. intros l' Ht. left. destruct (decide (l' = l)) as [->|]; [by rewrite fn_lookup_insert|by rewrite fn_lookup_insert_ne].
  - apply inv_store; here E. intros l' Ht. left. destruct (decide (l' = l)) as [->|]; [by rewrite fn_lookup_insert|by rewrite fn_lookup_insert_ne].
  - apply inv_release; here E.
Qed.

Lemma inv_releasesleep_step (l : slid) (k : releasesleep_pc) : at_p s q = Releasesleep l k -> inv (releasesleep_step h q l k s).
Proof using Hi Hq.
  intros E. pose proof on_running as Ho. rewrite E in Ho. destruct k; cbn [releasesleep_step].
  - apply inv_acquire; here E.
  - apply inv_store; here E. intros l' Ht. destruct (decide (l' = l)) as [->|]; [by right|left; by rewrite fn_lookup_insert_ne].
  - apply inv_store; here E.
    + intros l' Ht. left. destruct (decide (l' = l)) as [->|]; [by rewrite fn_lookup_insert|by rewrite fn_lookup_insert_ne].
    + intros l' i ->. split; [done|lia].
  - apply inv_release; here E.
Qed.

Lemma inv_yield_step (k : yield_pc) (back : pc) : at_p s q = Yield k back -> inv (yield_step h q k back s).
Proof using Hi Hq.
  intros E. pose proof on_running as Ho. rewrite E in Ho. destruct k; cbn [yield_step]; destruct Ho as [Ho Hb].
  - apply inv_acquire; here E.
  - apply inv_store; here E.
  - apply inv_sched; here E. congruence.
  - apply inv_release; unfold quiet; rewrite ?E; by destruct back as [|? []|? []|? []| | |].
Qed.

(** A process that waits for [l], seen with its lock and that of [l] held, is
    asleep on [l]. *)
Lemma waits_asleep (i : nat) (l : slid) : i <> q -> L_proc i ∈ locks_of s h -> sl_lk l ∈ locks_of s h ->
  waits (at_p s i) (ps s i) l -> p_state (ps s i) = SLEEPING /\ p_chan (ps s i) = sl_chan l.
Proof using Hi Hq.
  intros Hne H1 H2 Hw. destruct (inv_proc _ Hi i) as [[[h' Hh] Ho]|[_ Ho]].
  - exfalso. assert (forall L, L ∈ locks_of s h -> L ∈ locks_at i (at_p s i) -> False) as Hex.
    { intros L HL HL'. assert (L ∈ locks_of s h') as HL2 by (unfold locks_of; by rewrite Hh).
      pose proof (locks_excl _ _ _ _ _ _ (inv_locks _ Hi) HL HL2) as <-. rewrite Hq in Hh. congruence. }
    destruct (at_p s i) as [| | |l' []| | |]; cbn in *; try done; subst; try (apply (Hex (L_proc i)); [done|by left]).
    apply (Hex (sl_lk l)); [done|by left].
  - destruct (at_p s i) as [| | |l' []| | |]; cbn in *; try done. destruct Hw as [-> Hs]. destruct Ho as [?|?]; [congruence|done].
Qed.

Lemma inv_wakeup_step (l : slid) (i : nat) (k : wakeup_pc) : at_p s q = Wakeup l i k -> inv (wakeup_step h q l i k s).
Proof using Hi Hq.
  intros E. pose proof on_running as Ho. rewrite E in Ho. destruct k; cbn [wakeup_step].
  - destruct (decide (i < NPROC)%nat) as [Hlt|Hge]; [destruct (decide (i <> q)) as [Hne|Heq]|]; apply inv_place; here E.
    + split_and!; [done|done|]. intros l' j Hj _ [-> ?]. apply dec_stable in Heq. split; [done|lia].
    + split_and!; [done|done|]. intros l' j _ Hj [-> ?]. lia.
  - apply inv_acquire; here E. intros Hin%list_elem_of_singleton. by apply (sl_lk_proc l i).
  - assert (L_proc i ∈ locks_of s h /\ sl_lk l ∈ locks_of s h) as [HL1 HL2].
    { rewrite locks_running, E. split; [by left|right; by left]. }
    assert (forall ps', locks_ok (lk s) (noff s) (locks_of (State (lk s) (noff s) (sl s) ps' (<[ q := Wakeup l i W_unlock ]> (at_p s)) (at_h s)))) as Hlk.
    { intros ps'. edestruct moved_locks as [H1 H2]. apply (locks_keep h (inv_locks _ Hi)); [done|]. by rewrite H2, locks_running, E. }
    destruct (bool_decide (p_state (ps s i) = SLEEPING) && _) eqn:Eb.
    + apply andb_true_iff in Eb as [Hs _]. apply bool_decide_eq_true in Hs. assert (i <> q) as Hne by (cbn in Ho; congruence).
      apply inv_moved; here E; [by rewrite fn_lookup_insert_ne| |].
      * intros j Hj. destruct (decide (j = i)) as [->|]; [right; by rewrite fn_lookup_insert|left; by rewrite fn_lookup_insert_ne].
      * intros l' j _ _ Hp _ [-> Hij]. split; [done|]. destruct (decide (j = i)) as [->|]; [|lia].
        rewrite fn_lookup_insert in Hp. apply (f_equal p_state) in Hp. cbn in Hp. congruence.
    + apply inv_moved; here E. intros l' j Hj _ _ Hw [<- Hij]. split; [done|]. destruct (decide (j = i)) as [->|]; [|lia].
      destruct (waits_asleep i l Hj HL1 HL2 Hw). by rewrite !bool_decide_true in Eb.
  - apply inv_release; here E.
Qed.

Lemma inv_process_step : inv (process_step h q s).
Proof using Hi Hq.
  unfold process_step. destruct (at_p s q) as [|l k|l k|l k|l i k|k back|] eqn:E; [done|..|done].
  - by apply inv_acquiresleep_step.
  - by apply inv_releasesleep_step.
  - by apply inv_sleep_step.
  - by apply inv_wakeup_step.
  - by apply inv_yield_step.
Qed.
End thread.

(** ** A step of the scheduler *)
Section hart.
Context (s : state) (Hi : inv s) (h : nat) (Hno : forall q, at_h s h <> H_run q).

(** Moves of a hart that runs no process before or after. *)
Lemma inv_hart_move (lk' : lock_id -> option nat) (noff' : nat -> Z) (k : hpc) :
  let s' := State lk' noff' (sl s) (ps s) (at_p s) (<[ h := k ]> (at_h s)) in
  match k with H_lock q | H_test q | H_unlock q => (q < NPROC)%nat | _ => False end -> locks_ok lk' noff' (locks_of s') -> inv s'.
Proof using Hi Hno.
  intros s' Hk Hlk. assert (forall h' q, <[ h := k ]> (at_h s) h' = H_run q <-> at_h s h' = H_run q) as Hrun.
  { intros h' q. destruct (decide (h' = h)) as [->|Hne]; [rewrite fn_lookup_insert|by rewrite fn_lookup_insert_ne].
    split; [intros ->; done|]. by intros ?%Hno. }
  split; cbn [lk noff sl ps at_p at_h s'].
  - exact Hlk.
  - intros h1 h2 q. rewrite !Hrun. apply (inv_once _ Hi).
  - intros q. destruct (inv_proc _ Hi q) as [[[h' Hh] Ho]|[Hn Ho]]; [left|right]; (split; [|done]).
    + exists h'. by apply Hrun.
    + intros h'. rewrite Hrun. apply Hn.
  - intros p l Hw. destruct (inv_waits _ Hi p l Hw) as [?|(h' & q & Hh & Hwk)]; [by left|right]. exists h', q. split; [by apply Hrun|done].
  - apply (inv_table _ Hi).
  - intros h'. destruct (decide (h' = h)) as [->|Hne]; [rewrite fn_lookup_insert; by destruct k|].
    rewrite fn_lookup_insert_ne by done. apply (inv_hart _ Hi).
Qed.

Lemma hart_locks (lk' : lock_id -> option nat) (noff' : nat -> Z) (k : hpc) :
  let s' := State lk' noff' (sl s) (ps s) (at_p s) (<[ h := k ]> (at_h s)) in
  (forall h', h' <> h -> locks_of s' h' = locks_of s h') /\
  locks_of s' h = match k with H_lock _ | H_panicked => [] | H_test q | H_unlock q => [L_proc q] | H_run q => locks_at q (at_p s q) end.
Proof.
  split; unfold locks_of; cbn [at_p at_h].
  - intros h' Hne. by rewrite fn_lookup_insert_ne.
  - by rewrite fn_lookup_insert.
Qed.

Lemma inv_lock (q : nat) : at_h s h = H_lock q -> inv (spin_acquire h (L_proc q) (goto_h h (H_test q)) (goto_h h H_panicked) s).
Proof using Hi Hno.
  intros E. pose proof (inv_hart _ Hi h) as Hq. rewrite E in Hq. assert (locks_of s h = []) as El by (unfold locks_of; by rewrite E).
  unfold spin_acquire. destruct (lk s (L_proc q)) as [h'|] eqn:EL.
  - destruct (decide (h' = h)) as [->|]; [|done]. apply (lo_lk _ _ _ (inv_locks _ Hi)) in EL. rewrite El in EL. by apply not_elem_of_nil in EL.
  - apply inv_hart_move; [done|]. edestruct hart_locks as [H1 H2]. apply (locks_take h (inv_locks _ Hi)); [done|done|]. by rewrite H2, El.
Qed.

Lemma after_lt (q : nat) : (after q < NPROC)%nat.
Proof. unfold after. case_decide; [done|]. unfold NPROC. lia. Qed.

Lemma inv_unlock (q : nat) : at_h s h = H_unlock q -> inv (spin_release h (L_proc q) (goto_h h (H_lock (after q))) (goto_h h H_panicked) s).
Proof using Hi Hno.
  intros E. assert (locks_of s h = [L_proc q]) as El by (unfold locks_of; by rewrite E).
  edestruct (hart_locks (<[ L_proc q := None ]> (lk s)) (<[ h := noff s h - 1 ]> (noff s)) (H_lock (after q))) as [H1 H2].
  destruct (locks_drop h (inv_locks _ Hi) H1 (L_proc q)) as (EL & Hn & Hok); [by rewrite H2, El|].
  unfold spin_release. rewrite bool_decide_true by done. rewrite (proj2 (Z.ltb_ge _ _)) by lia. cbn [negb].
  apply inv_hart_move; [apply after_lt|done].
Qed.

(** The scheduler starts or resumes a process. *)
Lemma inv_switch (q : nat) : at_h s h = H_test q -> p_state (ps s q) = RUNNABLE ->
  inv (goto_h h (H_run q) (upd_p q (fun v => v <| p_state := RUNNING |>) s)).
Proof using Hi Hno.
  intros E Hs. pose proof (inv_hart _ Hi h) as Hqn. rewrite E in Hqn.
  assert (locks_of s h = [L_proc q]) as El by (unfold locks_of; by rewrite E).
  assert ((forall h', at_h s h' <> H_run q) /\ off_ok (at_p s q) (ps s q)) as [Hoff Hok].
  { destruct (inv_proc _ Hi q) as [[[h' Hh] Ho]|?]; [exfalso|done].
    assert (L_proc q ∈ locks_of s h') as HL'.
    { unfold locks_of. rewrite Hh. destruct (at_p s q) as [| | |l []| |[] ?|]; cbn in *; try (by left); try congruence; destruct Ho; congruence. }
    assert (L_proc q ∈ locks_of s h) as HL by (rewrite El; by left).
    pose proof (locks_excl _ _ _ _ _ _ (inv_locks _ Hi) HL HL') as <-. congruence. }
  assert (locks_at q (at_p s q) = [L_proc q] /\ on_ok (at_p s q) ((ps s q) <| p_state := RUNNING |>) /\
    forall l, ~ waits (at_p s q) ((ps s q) <| p_state := RUNNING |>) l) as (Hl & Hon & Hw).
  { destruct (at_p s q) as [| | |l []| |[] ?|]; try done; (split; [done|split]); try done.
    - by intros l' [_ ?].
    - by destruct Hok.
    - by intros l' ?. }
  assert (forall h', h' <> h -> <[ h := H_run q ]> (at_h s) h' = at_h s h') as Hne by (intros h' ?; by rewrite fn_lookup_insert_ne).
  split; cbn [lk noff sl ps at_p at_h goto_h upd_p].
  - apply (locks_keep h (inv_locks _ Hi)); unfold locks_of; cbn [at_p at_h goto_h upd_p].
    + intros h' Hh. by rewrite Hne.
    + by rewrite fn_lookup_insert, Hl, E.
  - intros h1 h2 q'. destruct (decide (h1 = h)) as [->|H1], (decide (h2 = h)) as [->|H2]; rewrite ?fn_lookup_insert, ?Hne by done; try done.
    + intros [= <-] Hh. by apply Hoff in Hh.
    + intros Hh [= <-]. by apply Hoff in Hh.
    + apply (inv_once _ Hi).
  - intros q'. destruct (decide (q' = q)) as [->|Hq'].
    + left. rewrite fn_lookup_insert. split; [exists h; by rewrite fn_lookup_insert|done].
    + rewrite fn_lookup_insert_ne by done. destruct (inv_proc _ Hi q') as [[[h' Hh] Ho]|[Hn Ho]]; [left|right]; (split; [|done]).
      * exists h'. rewrite Hne; [done|]. intros ->. congruence.
      * intros h'. destruct (decide (h' = h)) as [->|]; [rewrite fn_lookup_insert; congruence|by rewrite Hne].
  - intros p l Hp. destruct (decide (p = q)) as [->|Hpq]; [rewrite fn_lookup_insert in Hp; by apply Hw in Hp|].
    rewrite fn_lookup_insert_ne in Hp by done. destruct (inv_waits _ Hi p l Hp) as [?|(h' & q' & Hh & Hwk)]; [by left|right].
    exists h', q'. split; [|done]. cbn [at_h goto_h upd_p]. rewrite Hne; [done|]. intros ->. congruence.
  - apply (inv_table _ Hi).
  - intros h'. destruct (decide (h' = h)) as [->|]; [by rewrite fn_lookup_insert|rewrite Hne by done; apply (inv_hart _ Hi)].
Qed.
End hart.

Lemma inv_scheduler_step (h : nat) (s : state) : inv s -> inv (scheduler_step h s).
Proof.
  intros Hi. pose proof (inv_hart _ Hi h) as Hh. unfold scheduler_step. destruct (at_h s h) as [q|q|q|q|] eqn:E; [..|done].
  - apply inv_lock; [done|congruence|done].
  - case_bool_decide; [apply inv_switch; [done|congruence|done|done]|]. apply inv_hart_move; [done|congruence|done|].
    edestruct hart_locks as [H1 H2]. apply (locks_keep h (inv_locks _ Hi)); [done|]. rewrite H2. unfold locks_of. by rewrite E.
  - by apply inv_process_step.
  - apply inv_unlock; [done|congruence|done].
Qed.

Lemma step_ok (h : nat) (a : act) (s : state) : inv s -> inv (step h a s).
Proof.
  intros Hi. unfold step. destruct a as [|l|l|]; [by apply inv_scheduler_step|..]; destruct (at_h s h) as [| |q| |] eqn:E; try done.
  - destruct (at_p s q) eqn:Ep; try done. pose proof (on_running s Hi h q E) as Ho. rewrite Ep in Ho.
    apply (inv_place s Hi h q E); unfold quiet; rewrite Ep; done.
  - destruct (at_p s q) eqn:Ep; try done. pose proof (on_running s Hi h q E) as Ho. rewrite Ep in Ho.
    apply (inv_place s Hi h q E); unfold quiet; rewrite Ep; done.
  - destruct (interruptible (at_p s q)) eqn:Eb; [|done]. destruct (noff s h =? 0); [|done]. pose proof (on_running s Hi h q E) as Ho.
    apply (inv_place s Hi h q E); unfold quiet; destruct (at_p s q) as [|? []|? []|? []| | |]; done.
Qed.

Lemma reachable_ok (s : state) : reachable s -> inv s.
Proof.
  induction 1 as [table Hf|h a s _ IH]; [|by apply step_ok]. split; cbn; try done.
  - split; cbn; try done; [|constructor]. intros L h. split; [done|]. by intros ?%not_elem_of_nil.
  - intros q. right. split; [done|]. split; [apply Hf|done].
  - unfold NPROC. lia.
Qed.

(** ** Sleepers are woken, and then get the lock *)

(** Hart [h] makes [n] steps while the others stand still. *)
Definition alone (h n : nat) (s : state) : state := Nat.iter n (step h Next) s.

Lemma asleep_waits (s : state) (p : nat) : inv s -> p_state (ps s p) = SLEEPING ->
  exists l, (at_p s p = Sleep l S_sched \/ at_p s p = Sleep l S_tidy) /\ p_chan (ps s p) = sl_chan l /\ waits (at_p s p) (ps s p) l.
Proof.
  intros Hi Hs. destruct (inv_proc _ Hi p) as [[_ Ho]|[_ Ho]].
  - destruct (at_p s p) as [| | |l []| |[] ?|]; cbn in Ho; try congruence; try (destruct Ho; congruence). exists l. destruct Ho. cbn. auto.
  - destruct (at_p s p) as [| | |l []| |[] ?|]; cbn in Ho; try done.
    + exists l. destruct Ho as [?|[_ ?]]; [congruence|]. cbn. auto.
    + destruct Ho as [[|] _]; congruence.
Qed.

(** A wakeup on its way holds the spin lock of the sleep lock. *)
Lemma waking_locks (s : state) (h q : nat) (l : slid) (p : nat) : at_h s h = H_run q -> will_wake (at_p s q) l p -> sl_lk l ∈ locks_of s h.
Proof.
  intros Hh Hw. unfold locks_of. rewrite Hh.
  destruct (at_p s q) as [| |? []| |? ? []| |]; cbn in *; try done; try (subst; by left); destruct Hw as [-> _]; (by left) || (right; by left).
Qed.

Lemma sleeper_runnable (s : state) (p : nat) (l : slid) : inv s -> at_p s p = Sleep l S_tidy -> sl_locked (sl s l) = 0 ->
  lk s (L_proc p) = None -> lk s (sl_lk l) = None -> p_state (ps s p) = RUNNABLE.
Proof.
  intros Hi Hp Hz Hlp Hll. pose proof (lo_lk _ _ _ (inv_locks _ Hi)) as Hlk. destruct (inv_proc _ Hi p) as [[[h Hh] _]|[_ Ho]].
  - assert (lk s (L_proc p) = Some h); [|congruence]. apply Hlk. unfold locks_of. rewrite Hh, Hp. by left.
  - rewrite Hp in Ho. destruct Ho as [?|[Hs _]]; [done|]. destruct (inv_waits _ Hi p l) as [Ht|(h & q & Hh & Hw)]; [by rewrite Hp|by rewrite Hz in Ht|].
    assert (lk s (sl_lk l) = Some h); [|congruence]. apply Hlk. by apply (waking_locks s h q l p).
Qed.

Lemma alone_S (h n : nat) (s : state) : alone h (S n) s = alone h n (step h Next s).
Proof. apply Nat.iter_succ_r. Qed.

(** The next step of hart [h], evaluated with the facts in the context. *)
Ltac run_step :=
  rewrite alone_S; unfold step, scheduler_step, process_step;
  cbn [lk noff sl ps at_p at_h goto goto_h upd_p upd_l]; rewrite ?fn_lookup_insert;
  unfold acquiresleep_step, sleep_step, spin_acquire, spin_release;
  cbn [lk noff sl ps at_p at_h goto goto_h upd_p upd_l]; rewrite ?fn_lookup_insert.

Lemma sleeper_takes (s : state) (h p : nat) (l : slid) : inv s -> at_h s h = H_lock p -> at_p s p = Sleep l S_tidy ->
  sl_locked (sl s l) = 0 -> lk s (L_proc p) = None -> lk s (sl_lk l) = None ->
  let s' := alone h 9 s in
  at_h s' h = H_run p /\ at_p s' p = Idle /\ sl s' l = Sleeplock 1 (p_pid (ps s p)) /\ p_state (ps s' p) = RUNNING.
Proof.
  intros Hi Hh Hp Hz Hlp Hll s'. pose proof (sleeper_runnable s p l Hi Hp Hz Hlp Hll) as Hs.
  pose proof (lo_noff _ _ _ (inv_locks _ Hi) h) as Hn. unfold locks_of in Hn. rewrite Hh in Hn. cbn in Hn.
  assert (sl_lk l <> L_proc p) as Hne by apply sl_lk_proc. subst s'.
  run_step. rewrite Hh, Hlp.
  run_step. rewrite bool_decide_true by done.
  run_step. rewrite Hp.
  run_step. rewrite bool_decide_true, Hn by done. change (Z.of_nat 0 + 1 <? 1) with false. cbv iota. cbn [negb].
  run_step. rewrite !fn_lookup_insert_ne, Hll by done.
  run_step. rewrite Hz. change (truth 0) with false. cbv iota.
  run_step.
  run_step.
  run_step. rewrite bool_decide_true by done. change (Z.of_nat 0 + 1 - 1 + 1 <? 1) with false. cbv iota. cbn [negb].
  cbn [alone Nat.iter nat_rect goto lk noff sl ps at_p at_h]. by rewrite !fn_lookup_insert.
Qed.

(** C19. No wakeup is lost.  However the harts interleave their steps through
    [acquiresleep], [releasesleep], [sleep], [wakeup], [yield] and their
    schedulers: a process that sleeps has the sleep lock it wants in its
    channel, and if that lock is free a [releasesleep] of it is on its way: it
    holds the lock's spin lock and has not yet passed the process in the loop
    of [wakeup].  So nobody sleeps for ever on a lock that is free.  A process
    in [sleep], when the lock is free and no spin lock is in its way, takes the
    lock with its own steps as soon as a scheduler comes to it.  And none of
    the checks of [acquire], [release] and [sched] ever fails. *)
Theorem no_lost_wakeup (s : state) : reachable s ->
  (forall p, p_state (ps s p) = SLEEPING -> exists l,
     (at_p s p = Sleep l S_sched \/ at_p s p = Sleep l S_tidy) /\ p_chan (ps s p) = sl_chan l /\
     (sl_locked (sl s l) = 0 -> exists h q, at_h s h = H_run q /\ will_wake (at_p s q) l p /\ lk s (sl_lk l) = Some h)) /\
  (forall h p l, at_h s h = H_lock p -> at_p s p = Sleep l S_tidy -> sl_locked (sl s l) = 0 ->
     lk s (L_proc p) = None -> lk s (sl_lk l) = None ->
     let s' := alone h 9 s in
     at_h s' h = H_run p /\ at_p s' p = Idle /\ sl s' l = Sleeplock 1 (p_pid (ps s p)) /\ p_state (ps s' p) = RUNNING) /\
  (forall h q, at_h s h = H_run q -> at_p s q <> Panicked) /\ (forall h, at_h s h <> H_panicked).
Proof.
  intros Hr. pose proof (reachable_ok _ Hr) as Hi. split_and!.
  - intros p Hs. destruct (asleep_waits s p Hi Hs) as (l & Hp & Hc & Hw). exists l. split_and!; [done|done|]. intros Hz.
    destruct (inv_waits _ Hi p l Hw) as [Hl|(h & q & Hh & Hwk)]; [by rewrite Hz in Hl|].
    exists h, q. split_and!; [done|done|]. apply (lo_lk _ _ _ (inv_locks _ Hi)). by apply (waking_locks s h q l p).
  - intros h p l. by apply sleeper_takes.
  - intros h q Hh E. pose proof (on_running s Hi h q Hh) as Ho. by rewrite E in Ho.
  - intros h E. pose proof (inv_hart _ Hi h) as Hh. by rewrite E in Hh.
Qed.

(** ** Two processes and two harts

    Process 0 on hart 0 holds the lock of buffer 3; process 1 on hart 1 goes to
    sleep on it; process 0 releases it. *)
Definition table (q : nat) : proc :=
  Proc (if decide (q < 2)%nat then RUNNABLE else UNUSED) Ch0 0 0 (10 + Z.of_nat q) None 0 0 0 0 (Context_ 0 0 []) [] None [] [].
Definition run (tr : list (nat * act)) (s : state) : state := fold_left (fun s '(h, a) => step h a s) tr s.
Definition steps (h n : nat) : list (nat * act) := replicate n (h, Next).
Definition release_begins : list (nat * act) :=
  steps 0 3 ++ [(0%nat, Call_acquiresleep (SlBuf 3))] ++ steps 0 5 ++
  steps 1 6 ++ [(1%nat, Call_acquiresleep (SlBuf 3))] ++ steps 1 7 ++
  [(0%nat, Call_releasesleep (SlBuf 3))] ++ steps 0 2.
(** The rest of [releasesleep], and a round of the scheduler of hart 1. *)
Definition release_ends : list (nat * act) := steps 1 1 ++ steps 0 256 ++ steps 1 189.

Lemma reachable_run (tr : list (nat * act)) (s : state) : reachable s -> reachable (run tr s).
Proof. revert s. induction tr as [|[h a] tr IH]; intros s Hs; [done|]. cbn. apply IH. by constructor. Qed.

Lemma fresh_table : fresh table.
Proof. intros q. unfold table. cbn. case_decide; auto. Qed.

Lemma no_lost_wakeup_witness :
  let s1 := run release_begins (init table) in let s2 := run release_ends s1 in
  (p_state (ps s1 1) = SLEEPING /\ sl_locked (sl s1 (SlBuf 3)) = 0 /\
   exists h q, at_h s1 h = H_run q /\ will_wake (at_p s1 q) (SlBuf 3) 1 /\ lk s1 (L_buf 3) = Some h) /\
  (at_p s2 1 = Sleep (SlBuf 3) S_tidy /\ sl (alone 1 9 s2) (SlBuf 3) = Sleeplock 1 11).
Proof.
  intros s1 s2. assert (reachable s1) as H1 by (apply reachable_run, reach_init, fresh_table).
  assert (reachable s2) as H2 by (by apply reachable_run). split.
  - destruct (no_lost_wakeup s1 H1) as [Hw _]. split; [vm_compute; reflexivity|]. split; [vm_compute; reflexivity|].
    destruct (Hw 1%nat) as (l & _ & Hc & Hl); [vm_compute; reflexivity|]. assert (l = SlBuf 3) as -> by (apply sl_chan_inj; rewrite <- Hc; vm_compute; reflexivity).
    apply Hl. vm_compute. reflexivity.
  - destruct (no_lost_wakeup s2 H2) as (_ & Hp & _). split; [vm_compute; reflexivity|].
    destruct (Hp 1%nat 1%nat (SlBuf 3)) as (_ & _ & E & _); [vm_compute; reflexivity..|].
    rewrite E. vm_compute. reflexivity.
Defined.

End SleepWake.
