(* ===== verification/FsLogic.v ===== *)
(** * A program logic for the file system

    Code of the buffer cache, the log and the inodes runs on behalf of one
    process, and touches the file system [k_fs], at times memory, and a few
    spin locks.  [fwp m w R] says that [m], started in the world [w] (the
    locks held, the heap, the file table and the file system), ends with a
    result and a world that satisfy [R], whatever the rest of the kernel state
    is.  The process waits for the disk only, which serves its requests. *)
From S2P Require Import Prelude Memory Riscv State Spinlock Kalloc Steps Vm Proc ProcSpec Plic Virtio VirtioSpec Sleeplock.

Record world := World {
  w_locks : list lock_id;
  w_heap : heap;
  w_ft : ftable;
  w_fs : fsys;
}.

(** The locks held, the last one taken first, over the processor without them. *)
Fixpoint held (ls : list lock_id) (c : ctl) : ctl :=
  match ls with l :: ls => locked_ctl l (held ls c) | [] => c end.

Lemma held_ok (ls : list lock_id) (c : ctl) : cpu_ok c -> cpu_ok (held ls c) /\ cur (held ls c) = cur c.
Proof.
  intros Hc. induction ls as [|l ls [IH1 IH2]]; [done|]. cbn [held]. split; [kside|]. by rewrite cur_locked.
Qed.

Lemma held_free (ls : list lock_id) (c : ctl) (l : lock_id) : calm c -> l ∉ ls -> lock_free l (held ls c).
Proof.
  intros Hc. induction ls as [|l' ls IH]; intros Hl; cbn [held]; [kside|].
  apply not_elem_of_cons in Hl as [Hne Hl]. apply locked_ctl_free; auto.
Qed.

Section fwp.
Context {E : Env}.
Context (p : nat) (pr : proc).

(** [s] is the world [w], seen by process [p] whose entry is [pr]. *)
Record inw (w : world) (s : kstate) : Prop := {
  in_ctl : exists c, k_ctl s = held (w_locks w) c /\ at_sched p c;
  in_procs : procs_ok (k_pt s);
  in_proc : exists st ch, procs (k_pt s) !!! p = pr <| p_state := st |> <| p_chan := ch |>;
  in_heap : k_heap s = w_heap w;
  in_ft : k_ft s = w_ft w;
  in_fs : k_fs s = w_fs w;
  in_vd : vd_idle (k_vd s);
}.

Definition fwp {A} (m : M A) (w : world) (R : A -> world -> Prop) : Prop :=
  forall s, inw w s -> runs m s (fun a s' => exists w', inw w' s' /\ R a w').

Lemma fwp_ret {A} (a : A) w (R : A -> world -> Prop) : R a w -> fwp (mret a) w R.
Proof. intros HR s Hs. apply runs_ret. by exists w. Qed.

Lemma fwp_bind {A B} (m : M A) (k : A -> M B) w (R : B -> world -> Prop) :
  fwp m w (fun a w' => fwp (k a) w' R) -> fwp (a ← m; k a) w R.
Proof.
  intros Hm s Hs. apply runs_bind. eapply runs_mono; [by apply Hm|]. intros a s1 (w1 & H1 & Hk). by apply Hk.
Qed.

Lemma fwp_mono {A} (m : M A) w (R R' : A -> world -> Prop) :
  fwp m w R -> (forall a w', R a w' -> R' a w') -> fwp m w R'.
Proof. intros Hm HR s Hs. eapply runs_mono; [by apply Hm|]. intros a s' (w' & ? & ?). exists w'. auto. Qed.

Lemma fwp_loop {X B} (I : X -> world -> Prop) (f : X -> fsys -> Z) (body : X -> M (X + B))
    (x : X) (w : world) (R : B -> world -> Prop) :
  I x w -> f x (w_fs w) < 2 ^ 64 ->
  (forall x w, I x w -> fwp (body x) w (fun r w' =>
     match r with inl x' => I x' w' /\ 0 <= f x' (w_fs w') < f x (w_fs w) | inr v => R v w' end)) ->
  fwp (loop body x) w R.
Proof.
  intros HI Hf Hb s Hs.
  apply (runs_loop (fun x s' => exists w', inw w' s' /\ I x w') (fun x s' => f x (k_fs s'))).
  - by exists w.
  - by rewrite (in_fs _ _ Hs).
  - intros x1 s1 (w1 & H1 & HI1). eapply runs_mono; [by apply (Hb x1 w1)|].
    intros [x2|v] s2 (w2 & H2 & HR); [|by exists w2]. destruct HR as [HI2 Hlt].
    split; [by exists w2|]. by rewrite (in_fs _ _ H2), (in_fs _ _ H1).
Qed.

Lemma fwp_for_each {X} (I : list X -> world -> Prop) (l : list X) (body : X -> M unit) (w : world)
    (R : unit -> world -> Prop) :
  I l w -> (forall x l w, I (x :: l) w -> fwp (body x) w (fun _ w' => I l w')) -> (forall w, I [] w -> R tt w) ->
  fwp (for_each l body) w R.
Proof.
  intros HI Hb HR s Hs. apply (runs_for_each (fun l s => exists w, inw w s /\ I l w)); [by exists w| |].
  - intros x l1 s1 (w1 & H1 & HI1). by apply (Hb x l1 w1).
  - intros s1 (w1 & H1 & HI1). exists w1. auto.
Qed.

(** ** The file system *)
Section steps.
Context {lk : list lock_id} {h : heap} {ft : ftable} {fs : fsys}.
Let w := World lk h ft fs.

(** Changing the file system changes nothing else. *)
Lemma inw_fs (s : kstate) (fs' : fsys) :
  inw w s -> inw (World lk h ft fs') (s <| k_fs := fs' |>).
Proof. destruct s. intros [? ? ? ? ? ? ?]. by split. Qed.

Lemma fwp_modify_fs (f : fsys -> fsys) (g : kstate -> kstate) (R : unit -> world -> Prop) :
  (forall s, g s = s <| k_fs := f (k_fs s) |>) -> R tt (World lk h ft (f fs)) -> fwp (modify g) w R.
Proof.
  intros Hg HR s Hs. apply runs_modify. rewrite Hg. exists (World lk h ft (f fs)). split; [|done].
  rewrite (in_fs _ _ Hs). by apply inw_fs.
Qed.

Lemma fwp_gets_fs {A} (f : fsys -> A) (g : kstate -> A) (R : A -> world -> Prop) :
  (forall s, g s = f (k_fs s)) -> R (f fs) w -> fwp (gets g) w R.
Proof. intros Hg HR s Hs. apply runs_gets. rewrite Hg, (in_fs _ _ Hs). by exists w. Qed.

Lemma fwp_get_buf (b : nat) (R : buf -> world -> Prop) : R (bufs fs !!! b) w -> fwp (get_buf b) w R.
Proof. by apply (fwp_gets_fs (fun fs => bufs fs !!! b)). Qed.
Lemma fwp_get_inode (i : nat) (R : inode -> world -> Prop) : R (itable fs !!! i) w -> fwp (get_inode i) w R.
Proof. by apply (fwp_gets_fs (fun fs => itable fs !!! i)). Qed.
Lemma fwp_upd_buf (b : nat) (f : buf -> buf) (R : unit -> world -> Prop) :
  R tt (World lk h ft (fs <| bufs := alter f b (bufs fs) |>)) -> fwp (upd_buf b f) w R.
Proof. by apply (fwp_modify_fs (fun fs => fs <| bufs := alter f b (bufs fs) |>)). Qed.
Lemma fwp_upd_inode (i : nat) (f : inode -> inode) (R : unit -> world -> Prop) :
  R tt (World lk h ft (fs <| itable := alter f i (itable fs) |>)) -> fwp (upd_inode i f) w R.
Proof. by apply (fwp_modify_fs (fun fs => fs <| itable := alter f i (itable fs) |>)). Qed.
End steps.

(** ** Locks *)
Section locks.
Context {h : heap} {ft : ftable} {fs : fsys}.

Lemma inw_open (lk : list lock_id) (s : kstate) : inw (World lk h ft fs) s ->
  exists c pt vd dev n, s = KState (held lk c) h pt ft fs vd dev n /\ at_sched p c /\ procs_ok pt /\
    (exists st ch, procs pt !!! p = pr <| p_state := st |> <| p_chan := ch |>) /\ vd_idle vd.
Proof.
  destruct s as [c0 h0 pt ft0 fs0 vd dev n]. intros [(c & E1 & Hc) H2 H3 H4 H5 H6 H7]. cbn in *. subst.
  by exists c, pt, vd, dev, n.
Qed.

Lemma inw_close (lk : list lock_id) (c : ctl) pt vd dev n :
  at_sched p c -> procs_ok pt -> (exists st ch, procs pt !!! p = pr <| p_state := st |> <| p_chan := ch |>) ->
  vd_idle vd -> inw (World lk h ft fs) (KState (held lk c) h pt ft fs vd dev n).
Proof. intros. split; try done. by exists c. Qed.

Lemma fwp_acquire (l : lock_id) (ls : list lock_id) (R : unit -> world -> Prop) :
  l ∉ ls -> R tt (World (l :: ls) h ft fs) -> fwp (acquire l) (World ls h ft fs) R.
Proof.
  intros Hl HR s Hs. apply inw_open in Hs as (c & pt & vd & dev & n & -> & Hc & Hp & Hpr & Hvd).
  pose proof Hc as [[Hcalm Hn] Hcur]. destruct (held_ok ls c (calm_ok _ Hcalm)) as [Hok _].
  apply kacquire; [done|by apply held_free|]. eexists. split; [|exact HR]. by apply (inw_close (l :: ls)).
Qed.

Lemma fwp_release (l : lock_id) (ls : list lock_id) (R : unit -> world -> Prop) :
  l ∉ ls -> R tt (World ls h ft fs) -> fwp (release l) (World (l :: ls) h ft fs) R.
Proof.
  intros Hl HR s Hs. apply inw_open in Hs as (c & pt & vd & dev & n & -> & Hc & Hp & Hpr & Hvd). cbn [held].
  pose proof Hc as [[Hcalm Hn] Hcur]. destruct (held_ok ls c (calm_ok _ Hcalm)) as [Hok _].
  apply krelease; [done|by apply held_free|]. eexists. split; [|exact HR]. by apply (inw_close ls).
Qed.

Lemma fwp_wakeup (ls : list lock_id) (ch : chan) (R : unit -> world -> Prop) :
  (forall i, L_proc i ∉ ls) -> R tt (World ls h ft fs) -> fwp (wakeup ch) (World ls h ft fs) R.
Proof.
  intros Hl HR s Hs. apply inw_open in Hs as (c & pt & vd & dev & n & -> & Hc & Hp & (st & ch0 & Hpr) & Hvd).
  pose proof Hc as [[Hcalm Hn] Hcur]. destruct (held_ok ls c (calm_ok _ Hcalm)) as [Hok _].
  apply kwakeup; [done|intros i; by apply held_free|done|]. eexists. split; [|exact HR]. apply inw_close; [done| | |done].
  - unfold procs_ok in *. cbn. by rewrite length_wake_all.
  - destruct (same_proc_wakes p ch (cur (held ls c)) pt _ (or_intror eq_refl)) as (st' & ch' & Es).
    exists st', ch'. rewrite Es, Hpr. done.
Qed.

Lemma fwp_curproc (ls : list lock_id) (R : nat -> world -> Prop) :
  R p (World ls h ft fs) -> fwp curproc (World ls h ft fs) R.
Proof.
  intros HR s Hs. pose proof Hs as Hs'. apply inw_open in Hs as (c & pt & vd & dev & n & -> & Hc & Hp & Hpr & Hvd).
  pose proof Hc as [[Hcalm Hn] Hcur]. destruct (held_ok ls c (calm_ok _ Hcalm)) as [Hok Ec].
  apply (kcurproc _ p); [done|by rewrite Ec|by eexists].
Qed.

Lemma fwp_get_proc (lk : list lock_id) (R : proc -> world -> Prop) :
  (forall st ch, R (pr <| p_state := st |> <| p_chan := ch |>) (World lk h ft fs)) ->
  fwp (get_proc p) (World lk h ft fs) R.
Proof. intros HR s Hs. apply runs_gets. destruct (in_proc _ _ Hs) as (st & ch & ->). by eexists. Qed.
End locks.
End fwp.

(** ** Automation *)
Ltac unlocked :=
  first [assumption | repeat (apply not_elem_of_cons; split; [discriminate|]); first [assumption | apply not_elem_of_nil]].
Ltac fstep :=
  lazymatch goal with
  | |- fwp _ _ (mbind _ _) _ _ => apply fwp_bind
  | |- fwp _ _ (mret _) _ _ => apply fwp_ret
  | |- fwp _ _ (get_buf _) _ _ => apply fwp_get_buf
  | |- fwp _ _ (upd_buf _ _) _ _ => apply fwp_upd_buf
  | |- fwp _ _ (get_inode _) _ _ => apply fwp_get_inode
  | |- fwp _ _ (upd_inode _ _) _ _ => apply fwp_upd_inode
  | |- fwp _ _ (acquire _) _ _ => apply fwp_acquire; [unlocked|]
  | |- fwp _ _ (release _) _ _ => apply fwp_release; [unlocked|]
  | |- fwp _ _ (wakeup _) _ _ => apply fwp_wakeup; [intros ?; unlocked|]
  | |- fwp _ _ curproc _ _ => apply fwp_curproc
  end; cbv beta.
Ltac fsteps := repeat fstep.

(** ** Sleep locks *)
Definition sl_of (l : slid) (fs : fsys) : sleeplock :=
  match l with SlBuf b => b_lock (bufs fs !!! b) | SlInode i => i_lock (itable fs !!! i) end.
Definition sl_set (l : slid) (v : sleeplock) (fs : fsys) : fsys :=
  match l with
  | SlBuf b => fs <| bufs := alter (fun x => x <| b_lock := v |>) b (bufs fs) |>
  | SlInode i => fs <| itable := alter (fun x => x <| i_lock := v |>) i (itable fs) |>
  end.

Section sleeplock.
Context {E : Env}.
Context {p : nat} {pr : proc} {h : heap} {ft : ftable}.

Lemma fwp_get_sl (l : slid) lk fs (R : sleeplock -> world -> Prop) :
  R (sl_of l fs) (World lk h ft fs) -> fwp p pr (get_sl l) (World lk h ft fs) R.
Proof. intros HR. unfold get_sl. destruct l; fsteps; exact HR. Qed.

Definition sl_alter (l : slid) (f : sleeplock -> sleeplock) (fs : fsys) : fsys :=
  match l with
  | SlBuf b => fs <| bufs := alter (fun x => x <| b_lock := f (b_lock x) |>) b (bufs fs) |>
  | SlInode i => fs <| itable := alter (fun x => x <| i_lock := f (i_lock x) |>) i (itable fs) |>
  end.

Lemma fwp_upd_sl (l : slid) (f : sleeplock -> sleeplock) lk fs (R : unit -> world -> Prop) :
  R tt (World lk h ft (sl_alter l f fs)) -> fwp p pr (upd_sl l f) (World lk h ft fs) R.
Proof. intros HR. unfold upd_sl. destruct l; fstep; exact HR. Qed.

Lemma sl_alter_twice (l : slid) (a b : Z) (fs : fsys) :
  sl_alter l (fun v => v <| sl_pid := b |>) (sl_alter l (fun v => v <| sl_locked := a |>) fs) =
  sl_set l (Sleeplock a b) fs.
Proof.
  destruct fs as [d w bs lg sp it], l as [i|i]; cbn [sl_alter sl_set bufs itable set_with set_bufs set_itable];
    rewrite list_alter_alter_eq; do 2 f_equal; done.
Qed.

(** A sleep lock that is free is taken without sleeping, also with other
    locks held. *)
Lemma fwp_acquiresleep_held (l : slid) (ls : list lock_id) fs (R : unit -> world -> Prop) :
  sl_lk l ∉ ls -> sl_locked (sl_of l fs) = 0 -> R tt (World ls h ft (sl_set l (Sleeplock 1 (p_pid pr)) fs)) ->
  fwp p pr (acquiresleep l) (World ls h ft fs) R.
Proof.
  intros Hls Hz HR. unfold acquiresleep. do 3 fstep.
  apply (fwp_loop p pr (fun _ w => w = World (sl_lk l :: ls) h ft fs) (fun _ _ => 0)); [done|lia|].
  intros [] w ->. fstep. apply fwp_get_sl. rewrite Hz. change (truth 0) with false. cbv iota. do 2 fstep.
  apply fwp_upd_sl. do 3 fstep. apply fwp_get_proc. intros st ch. fstep. apply fwp_upd_sl.
  rewrite sl_alter_twice. fstep. exact HR.
Qed.

Lemma fwp_acquiresleep (l : slid) fs (R : unit -> world -> Prop) :
  sl_locked (sl_of l fs) = 0 -> R tt (World [] h ft (sl_set l (Sleeplock 1 (p_pid pr)) fs)) ->
  fwp p pr (acquiresleep l) (World [] h ft fs) R.
Proof. apply fwp_acquiresleep_held, not_elem_of_nil. Qed.

Lemma fwp_releasesleep (l : slid) fs (R : unit -> world -> Prop) :
  R tt (World [] h ft (sl_set l (Sleeplock 0 0) fs)) -> fwp p pr (releasesleep l) (World [] h ft fs) R.
Proof.
  intros HR. unfold releasesleep. do 3 fstep. apply fwp_upd_sl. fstep. apply fwp_upd_sl. fstep.
  apply fwp_wakeup; [intros ?; destruct l; unlocked|]. rewrite sl_alter_twice. fstep. exact HR.
Qed.

Lemma fwp_holdingsleep (l : slid) fs (R : bool -> world -> Prop) :
  R (truth (sl_locked (sl_of l fs)) && (sl_pid (sl_of l fs) =? p_pid pr)) (World [] h ft fs) ->
  fwp p pr (holdingsleep l) (World [] h ft fs) R.
Proof.
  intros HR. unfold holdingsleep. do 3 fstep. apply fwp_get_sl. fstep.
  destruct (truth (sl_locked (sl_of l fs))).
  - do 2 fstep. fstep. apply fwp_get_proc. intros st ch. do 4 fstep. exact HR.
  - do 4 fstep. exact HR.
Qed.
End sleeplock.

(** ** The disk *)
Section disk.
Context {E : Env}.
Context {p : nat} {pr : proc} {h : heap} {ft : ftable}.
Hypothesis Hp : (p < NPROC)%nat.
Hypothesis Henv : disk_serves p.

Lemma fwp_disk_rw (b : nat) (write : bool) fs (R : unit -> world -> Prop) :
  let blk := b_blockno (bufs fs !!! b) in
  0 <= blk < 2 ^ 31 -> is_Some (disk fs !! blk) -> (b < length (bufs fs))%nat -> b_disk (bufs fs !!! b) = 0 ->
  R tt (World [] h ft (transferred b write blk fs)) ->
  fwp p pr (virtio_disk_rw b write) (World [] h ft fs) R.
Proof using Hp Henv.
  intros blk Hblk Hd Hb Hz HR s Hs. apply inw_open in Hs as (c & pt & vd & dev & n & -> & Hc & Hpt & (st & ch & Hpr) & Hvd).
  cbn [held]. apply (kdisk_rw p Hp Henv b write blk); [done..|]. intros c' pt' vd' dev' n' Hc' Hpt' (st' & ch' & Hs) Hvd'.
  rewrite transferred_flag by done. eexists. split; [|exact HR]. apply (inw_close p pr []); [done|done| |done].
  exists st', ch'. rewrite Hs, Hpr. done.
Qed.
End disk.
