(* ===== verification/Bio.v ===== *)
(** * The buffer cache (kernel/bio.c)

    [NBUF] buffers on a doubly linked list, most recently used first.  The
    links are indices; index [NBUF] is the list head. *)
From S2P Require Import Prelude Memory Riscv State Spinlock Proc Plic Virtio Sleeplock.

Definition bhead : nat := NBUF.

Section bio.
Context {L : Linker} {E : Env} {H : Hw}.

Definition binit : M unit :=
  put_lock L_bcache initlock;;
  upd_buf bhead (fun v => v <| b_prev := bhead |>);;
  upd_buf bhead (fun v => v <| b_next := bhead |>);;
  for_each (seq 0 NBUF) (fun b =>
    h ← get_buf bhead;
    upd_buf b (fun v => v <| b_next := b_next h |>);;
    upd_buf b (fun v => v <| b_prev := bhead |>);;
    initsleeplock (SlBuf b);;
    h ← get_buf bhead;
    upd_buf (b_next h) (fun v => v <| b_prev := b |>);;
    upd_buf bhead (fun v => v <| b_next := b |>)).

Definition bget (dev blockno : Z) : M nat :=
  acquire L_bcache;;
  h ← get_buf bhead;
  cached ← loop (fun b =>
    if bool_decide (b = bhead) then mret (inr None) else
    v ← get_buf b;
    if (b_dev v =? dev) && (b_blockno v =? blockno) then
      upd_buf b (fun v => v <| b_refcnt := u32 (b_refcnt v + 1) |>);;
      release L_bcache;;
      acquiresleep (SlBuf b);;
      mret (inr (Some b))
    else mret (inl (b_next v))) (b_next h);
  match cached with
  | Some b => mret b
  | None =>
      h ← get_buf bhead;
      loop (fun b =>
        if bool_decide (b = bhead) then panic "bget: no buffers" else
        v ← get_buf b;
        if b_refcnt v =? 0 then
          upd_buf b (fun v => v <| b_dev := dev |>);;
          upd_buf b (fun v => v <| b_blockno := blockno |>);;
          upd_buf b (fun v => v <| b_valid := 0 |>);;
          upd_buf b (fun v => v <| b_refcnt := 1 |>);;
          release L_bcache;;
          acquiresleep (SlBuf b);;
          mret (inr b)
        else mret (inl (b_prev v))) (b_prev h)
  end.

Definition bread (dev blockno : Z) : M nat :=
  b ← bget dev blockno;
  v ← get_buf b;
  (if negb (truth (b_valid v)) then
     virtio_disk_rw b false;;
     upd_buf b (fun v => v <| b_valid := 1 |>)
   else mret tt);;
  mret b.

Definition bwrite (b : nat) : M unit :=
  h ← holdingsleep (SlBuf b);
  if negb h then panic "bwrite" else
  virtio_disk_rw b true.

Definition brelse (b : nat) : M unit :=
  h ← holdingsleep (SlBuf b);
  if negb h then panic "brelse" else
  releasesleep (SlBuf b);;
  acquire L_bcache;;
  upd_buf b (fun v => v <| b_refcnt := u32 (b_refcnt v - 1) |>);;
  v ← get_buf b;
  (if b_refcnt v =? 0 then
     upd_buf (b_next v) (fun w => w <| b_prev := b_prev v |>);;
     v ← get_buf b;
     upd_buf (b_prev v) (fun w => w <| b_next := b_next v |>);;
     h ← get_buf bhead;
     upd_buf b (fun v => v <| b_next := b_next h |>);;
     upd_buf b (fun v => v <| b_prev := bhead |>);;
     h ← get_buf bhead;
     upd_buf (b_next h) (fun w => w <| b_prev := b |>);;
     upd_buf bhead (fun w => w <| b_next := b |>)
   else mret tt);;
  release L_bcache.

Definition bpin (b : nat) : M unit :=
  acquire L_bcache;;
  upd_buf b (fun v => v <| b_refcnt := u32 (b_refcnt v + 1) |>);;
  release L_bcache.

Definition bunpin (b : nat) : M unit :=
  acquire L_bcache;;
  upd_buf b (fun v => v <| b_refcnt := u32 (b_refcnt v - 1) |>);;
  release L_bcache.

End bio.
