(* ===== verification/BioSpec.v ===== *)
(** * The buffer cache (theorems on kernel/bio.c)

    The cache keeps at most one buffer for a block, on a doubly linked list
    that the operations keep intact.  To its clients it shows, for every
    block, the contents [V], the number of references [K] and whether it is
    locked; a block without references is on disk as it is shown. *)
From S2P Require Import Prelude Memory Riscv State Spinlock Kalloc Steps Vm Proc ProcSpec Plic Virtio VirtioSpec Sleeplock FsLogic Bio.

(** ** Doubly linked lists

    The list is given by its two functions to the next and the previous
    element. *)
Fixpoint linked (nx pv : nat -> nat) (l : list nat) : Prop :=
  match l with
  | a :: (b :: _) as l' => nx a = b /\ pv b = a /\ linked nx pv l'
  | _ => True
  end.

Definition upd (f : nat -> nat) (a x : nat) : nat -> nat := fun y => if bool_decide (y = a) then x else f y.

Lemma upd_eq (f : nat -> nat) (a x : nat) : upd f a x a = x.
Proof. unfold upd. by rewrite bool_decide_true. Qed.
Lemma upd_ne (f : nat -> nat) (a x y : nat) : y <> a -> upd f a x y = f y.
Proof. intros Hne. unfold upd. by rewrite bool_decide_false. Qed.

Section linked.
Context {nx pv : nat -> nat}.

Lemma linked_app (l l' : list nat) (x : nat) :
  linked nx pv (l ++ x :: l') <-> linked nx pv (l ++ [x]) /\ linked nx pv (x :: l').
Proof.
  induction l as [|a l IH]; [cbn; tauto|]. cbn [app].
  destruct l as [|b l]; cbn [app linked] in *; [tauto|]. rewrite IH. tauto.
Qed.

(** Only the next of the elements but the last, and the previous of the
    elements but the first, matter. *)
Lemma linked_ext (nx' pv' : nat -> nat) (a z : nat) (l : list nat) :
  (forall x, x ∈ a :: l -> nx' x = nx x) -> (forall x, x ∈ l ++ [z] -> pv' x = pv x) ->
  linked nx pv (a :: l ++ [z]) -> linked nx' pv' (a :: l ++ [z]).
Proof.
  revert a. induction l as [|b l IH]; intros a Hn Hp; cbn [app linked].
  - intros (H1 & H2 & _). rewrite Hn, Hp by set_solver. done.
  - intros (H1 & H2 & H3). rewrite Hn, Hp by set_solver. split_and!; [done|done|].
    apply IH; [| |exact H3]; intros x Hx; [apply Hn|apply Hp]; by right.
Qed.
End linked.

(** The rest of a list, after the element at its front has changed. *)
Lemma linked_rest (nx pv nx' pv' : nat -> nat) (y h : nat) (l m : list nat) :
  l ++ [h] = y :: m -> NoDup l -> h ∉ l ->
  (forall z, z ∈ l -> nx' z = nx z) -> (forall z, z ∈ l ++ [h] -> z <> y -> pv' z = pv z) ->
  linked nx pv (y :: m) -> linked nx' pv' (y :: m).
Proof.
  intros Ey Hnd Hh Hn Hp Hl. destruct l as [|z l]; cbn [app] in Ey; injection Ey as <- <-; [done|].
  revert Hl. apply linked_ext; [exact Hn|]. intros x Hx. apply Hp; [by right|]. intros ->.
  apply list.NoDup_cons in Hnd as [Hz _]. apply elem_of_app in Hx as [Hx|Hx%list_elem_of_singleton]; [done|].
  apply Hh. rewrite Hx. by left.
Qed.

(** The six assignments of [brelse] move an element to the front. *)
Lemma linked_front (nx pv : nat -> nat) (h b : nat) (l1 l2 : list nat) :
  linked nx pv (h :: l1 ++ b :: l2 ++ [h]) -> NoDup (h :: l1 ++ b :: l2) ->
  let pv1 := upd pv (nx b) (pv b) in
  let nx1 := upd nx (pv1 b) (nx b) in
  let nx2 := upd nx1 b (nx1 h) in
  let pv2 := upd pv1 b h in
  let pv3 := upd pv2 (nx2 h) b in
  let nx3 := upd nx2 h b in
  linked nx3 pv3 (h :: b :: l1 ++ l2 ++ [h]).
Proof.
  intros Hl Hnd pv1 nx1 nx2 pv2 pv3 nx3.
  apply list.NoDup_cons in Hnd as [Hh Hnd]. apply list.NoDup_app in Hnd as (Hnd1 & Hd & Hnd2).
  apply list.NoDup_cons in Hnd2 as [Hb2 Hnd2]. rewrite elem_of_app, elem_of_cons in Hh.
  assert (b <> h) as Hbh by (intros ->; tauto). assert (b ∉ l1) as Hb1 by (intros Hin; apply (Hd b Hin); by left).
  change (h :: l1 ++ b :: l2 ++ [h]) with ((h :: l1) ++ b :: l2 ++ [h]) in Hl. apply linked_app in Hl as [Hf Hl2].
  assert (exists y m2, l2 ++ [h] = y :: m2 /\ (y ∉ l1) /\ y <> b /\ nx b = y /\ pv y = b /\ linked nx pv (y :: m2))
    as (y & m2 & Ey & Hy1 & Hyb & Nb & Py & Hlk).
  { destruct l2 as [|y l2]; cbn [app linked] in Hl2; [exists h, []|exists y, (l2 ++ [h])]; split_and!; try done; try tauto.
    - intros Hin. apply (Hd y Hin). right. by left.
    - intros ->. apply Hb2. by left. }
  assert (pv1 b = pv b) as Epb by (unfold pv1; rewrite Nb; by apply upd_ne).
  assert (nx2 h = nx1 h) as Eh by (by apply upd_ne).
  assert (forall z, z <> h -> z <> b -> z <> pv b -> nx3 z = nx z) as Hn3.
  { intros z H1 H2 H3. unfold nx3, nx2, nx1. rewrite Epb, !upd_ne by done. done. }
  assert (forall z, z <> b -> z <> y -> z <> nx1 h -> pv3 z = pv z) as Hp3.
  { intros z H1 H2 H3. unfold pv3, pv2, pv1. rewrite Eh, Nb, !upd_ne by done. done. }
  assert (forall z, z ∈ l2 ++ [h] -> (z ∉ l1) /\ z <> b) as Hl2'.
  { intros z [Hz|Hz%list_elem_of_singleton]%elem_of_app.
    - split; [|intros ->; done]. intros Hin. apply (Hd z Hin). by right.
    - subst z. split; [tauto|congruence]. }
  assert (nx3 h = b) as N3h by apply upd_eq. assert (nx3 b = nx1 h) as N3b.
  { unfold nx3, nx2. rewrite upd_ne, upd_eq by done. done. }
  rewrite Ey. destruct l1 as [|a l1].
  - destruct Hf as (Nh & Pb & _). rewrite Pb in *.
    assert (nx1 h = y) as N1 by (unfold nx1; by rewrite Epb, upd_eq). cbn [app].
    split; [done|]. split; [unfold pv3, pv2; by rewrite Eh, N1, upd_ne, upd_eq by done|].
    split; [by rewrite N3b|]. split; [unfold pv3; by rewrite Eh, N1, upd_eq|].
    apply (linked_rest nx pv _ _ y h l2 m2); [done|done|tauto| | |done].
    + intros z Hz. destruct (Hl2' z) as [_ Hzb]; [apply elem_of_app; by left|].
      apply Hn3; [intros ->; tauto|done|intros ->; tauto].
    + intros z Hz Hzy. apply Hp3; [by apply Hl2'|done|by rewrite N1].
  - destruct Hf as (Nh & Pa & Hf). destruct (exists_last (l := a :: l1) ltac:(done)) as (l3 & x & Ex).
    change ((a :: l1) ++ y :: m2) with (a :: (l1 ++ y :: m2)). split; [done|].
    assert (x ∈ a :: l1) as Hx by (rewrite Ex; apply elem_of_app; right; by left).
    assert (x <> h) as Hxh by (intros ->; tauto). assert (a ∈ a :: l1) as Ha by (by left).
    change ((fix app (l m : list nat) {struct l} : list nat := match l with [] => m | a0 :: l4 => a0 :: app l4 m end) l1 [b])
      with (l1 ++ [b]) in Hf.
    assert (linked nx pv (l3 ++ [x]) /\ nx x = b /\ pv b = x) as (Hf3 & Nx & Px).
    { change (a :: l1 ++ [b]) with ((a :: l1) ++ [b]) in Hf. rewrite Ex, <- (assoc_L app) in Hf. cbn [app] in Hf.
      apply linked_app in Hf as [Hf (Nx & Px & _)]. done. }
    rewrite Px in *. assert (nx1 h = a) as N1 by (unfold nx1; by rewrite Epb, upd_ne).
    split; [unfold pv3, pv2; rewrite Eh, N1, upd_ne, upd_eq; [done|intros ->; done]|].
    split; [by rewrite N3b|]. split; [unfold pv3; by rewrite Eh, N1, upd_eq|].
    change (a :: (l1 ++ y :: m2)) with ((a :: l1) ++ y :: m2). rewrite Ex, <- (assoc_L app). cbn [app].
    apply linked_app. split.
    + destruct l3 as [|a' l4]; [done|]. cbn [app] in Ex. injection Ex as <- El1. subst l1.
      apply list.NoDup_cons in Hnd1 as [Ha4 Hnd1]. apply list.NoDup_app in Hnd1 as (_ & Hx4 & _).
      assert (forall z, z ∈ a :: l4 ++ [x] -> z <> h /\ z <> b /\ z <> y) as Hin.
      { intros z Hz. split_and!; intros ->; tauto. }
      revert Hf3. apply linked_ext.
      * intros z Hz. destruct (Hin z) as (? & ? & ?); [rewrite app_comm_cons; apply elem_of_app; by left|].
        apply Hn3; [done|done|]. intros ->. apply elem_of_cons in Hz as [->|Hz]; [|by apply (Hx4 _ Hz); left].
        apply Ha4, elem_of_app. right. by left.
      * intros z Hz. destruct (Hin z) as (? & ? & ?); [by right|]. apply Hp3; [done|done|]. rewrite N1. by intros ->.
    + split; [unfold nx3, nx2, nx1; rewrite Epb, upd_ne, upd_ne, upd_eq; [done|intros ->; done|done]|].
      split; [unfold pv3, pv2, pv1; rewrite Eh, N1, upd_ne, upd_ne, Nb, Px, upd_eq; [done|done|intros ->; done]|].
      apply (linked_rest nx pv _ _ y h l2 m2); [done|done|tauto| | |done].
      * intros z Hz. destruct (Hl2' z) as [Hz1 Hzb]; [apply elem_of_app; by left|].
        apply Hn3; [intros ->; tauto|done|intros ->; done].
      * intros z Hz Hzy. destruct (Hl2' z Hz) as [Hz1 Hzb]. apply Hp3; [done|done|rewrite N1; intros ->; done].
Qed.

(** How much of the list is left from an element on. *)
Fixpoint left_from (b : nat) (l : list nat) : nat :=
  match l with [] => 0 | x :: l' => if bool_decide (x = b) then length l else left_from b l' end.

Lemma left_from_app (l1 l2 : list nat) (b : nat) : (b ∉ l1) -> left_from b (l1 ++ l2) = left_from b l2.
Proof.
  induction l1 as [|x l1 IH]; intros Hb; [done|]. cbn [app left_from].
  rewrite bool_decide_false by (intros ->; apply Hb; by left). apply IH. intros Hin. apply Hb. by right.
Qed.

Lemma left_from_bound (b : nat) (l : list nat) : (left_from b l <= length l)%nat.
Proof. induction l as [|x l IH]; cbn; [lia|]. case_match; cbn; lia. Qed.

Definition first (l : list nat) : nat := match l with [] => bhead | b :: _ => b end.

(** Walking a duplicate-free list that ends at the head. *)
Lemma left_from_next (l l1 l2 : list nat) (b : nat) :
  NoDup l -> bhead ∉ l -> l = l1 ++ b :: l2 -> (left_from (first l2) l < left_from b l)%nat.
Proof.
  intros Hnd Hh ->. apply list.NoDup_app in Hnd as (Hnd1 & Hd & Hnd2).
  assert (b ∉ l1) as Hb1 by (intros Hin; apply (Hd b Hin); by left).
  rewrite (left_from_app l1 (b :: l2) b) by done. cbn [left_from]. rewrite bool_decide_true by done. cbn [length].
  destruct l2 as [|x l2]; cbn [first].
  - assert (left_from bhead (l1 ++ [b]) = 0)%nat as ->; [|lia]. clear Hnd1 Hd Hnd2 Hb1.
    induction (l1 ++ [b]) as [|y l IH]; [done|]. cbn. rewrite bool_decide_false by (intros ->; apply Hh; by left).
    apply IH. intros Hin. apply Hh. by right.
  - apply list.NoDup_cons in Hnd2 as [Hb Hnd2]. rewrite left_from_app.
    2:{ intros Hin. apply (Hd x Hin). right. by left. }
    cbn [left_from]. rewrite bool_decide_false by (intros ->; apply Hb; by left).
    pose proof (left_from_bound x (x :: l2)). cbn [left_from length] in *. lia.
Qed.

Lemma linked_rev (nx pv : nat -> nat) (l : list nat) : linked nx pv l -> linked pv nx (rev l).
Proof.
  induction l as [|a [|b l] IH]; [done|done|]. intros (H1 & H2 & H3). specialize (IH H3).
  cbn [rev] in *. rewrite <- (assoc_L app). cbn [app]. apply linked_app. split; [exact IH|]. done.
Qed.

(** The element after another, or the head at the end. *)
Lemma linked_next (nx pv : nat -> nat) (l1 l2 : list nat) (b : nat) :
  linked nx pv (bhead :: (l1 ++ b :: l2) ++ [bhead]) -> nx b = first l2.
Proof.
  intros Hl. rewrite <- (assoc_L app) in Hl. cbn [app] in Hl.
  rewrite app_comm_cons in Hl. apply linked_app in Hl as [_ Hl].
  destruct l2 as [|y l2]; cbn [app linked] in Hl; apply Hl.
Qed.

Lemma linked_first (nx pv : nat -> nat) (l : list nat) : linked nx pv (bhead :: l ++ [bhead]) -> nx bhead = first l.
Proof. destruct l as [|y l]; cbn [app linked]; intros Hl; apply Hl. Qed.

(** ** What the cache shows *)
Section cache.
Context {L : Linker} {E : Env} {H : Hw}.
Context (dv size : Z) (p : nat) (pr : proc).

Record buf_ok (V : Z -> list Z) (K : Z -> Z) (lk : Z -> bool) (v : buf) : Prop := {
  bo_disk : b_disk v = 0;
  bo_other : b_dev v <> dv -> b_refcnt v = 0 /\ b_lock v = Sleeplock 0 0;
  bo_range : b_dev v = dv -> 0 <= b_blockno v < size;
  bo_refs : b_dev v = dv -> b_refcnt v = K (b_blockno v);
  bo_lock : b_dev v = dv -> b_lock v = if lk (b_blockno v) then Sleeplock 1 (p_pid pr) else Sleeplock 0 0;
  bo_valid : b_dev v = dv -> b_valid v = 1;
  bo_data : b_dev v = dv -> b_data v = V (b_blockno v);
}.

Definition lru_ok (bs : list buf) (lru : list nat) : Prop :=
  lru ≡ₚ seq 0 NBUF /\
  linked (fun i => b_next (bs !!! i)) (fun i => b_prev (bs !!! i)) (bhead :: lru ++ [bhead]).

Record cache (fs : fsys) (V : Z -> list Z) (K : Z -> Z) (lk : Z -> bool) : Prop := {
  ca_len : length (bufs fs) = S NBUF;
  ca_lru : exists lru, lru_ok (bufs fs) lru;
  ca_buf : forall i, (i < NBUF)%nat -> buf_ok V K lk (bufs fs !!! i);
  ca_unique : forall i j, (i < NBUF)%nat -> (j < NBUF)%nat -> b_dev (bufs fs !!! i) = dv -> b_dev (bufs fs !!! j) = dv ->
    b_blockno (bufs fs !!! i) = b_blockno (bufs fs !!! j) -> i = j;
  ca_pos : forall blk, 0 <= K blk;
  ca_refs : forall blk, K blk <> 0 -> exists i, (i < NBUF)%nat /\ b_dev (bufs fs !!! i) = dv /\ b_blockno (bufs fs !!! i) = blk;
  ca_clean : forall blk, 0 <= blk < size -> K blk = 0 -> disk fs !! blk = Some (V blk);
  ca_dom : forall blk, 0 <= blk < size -> is_Some (disk fs !! blk);
  ca_lk : forall blk, lk blk = true -> K blk <> 0;
}.

(** Buffer [b] is the one of block [blk]. *)
Definition handle (fs : fsys) (b : nat) (blk : Z) : Prop :=
  (b < NBUF)%nat /\ b_dev (bufs fs !!! b) = dv /\ b_blockno (bufs fs !!! b) = blk.

(** Fewer blocks are referenced than there are buffers. *)
Definition few (K : Z -> Z) : Prop :=
  exists l : list Z, (forall blk, K blk <> 0 -> blk ∈ l) /\ (length l < NBUF)%nat.

Definition bump (K : Z -> Z) (blk d : Z) : Z -> Z := fun x => if x =? blk then K x + d else K x.
Definition flip (lk : Z -> bool) (blk : Z) (v : bool) : Z -> bool := fun x => if x =? blk then v else lk x.

(** Only buffers change, and those of referenced blocks stay theirs. *)
Definition stays (K : Z -> Z) (fs fs' : fsys) : Prop :=
  fs' = fs <| bufs := bufs fs' |> /\ forall b blk, handle fs b blk -> K blk <> 0 -> handle fs' b blk.

Lemma stays_alter (K : Z -> Z) (fs : fsys) (f : buf -> buf) (b : nat) :
  (forall v, b_dev (f v) = b_dev v /\ b_blockno (f v) = b_blockno v) -> stays K fs (fs <| bufs := alter f b (bufs fs) |>).
Proof.
  intros Hf. split; [done|]. intros b' blk (Hb & Hd & Hn) _. split; [done|]. cbn [bufs set_with set_bufs].
  rewrite (proj_alter b_dev), (proj_alter b_blockno) by apply Hf. done.
Qed.

(** ** Changing one buffer *)
Lemma bufs_lookup (bs : list buf) (b i : nat) (v : buf) :
  length bs = S NBUF -> (b < NBUF)%nat -> alter (fun _ => v) b bs !!! i = if bool_decide (i = b) then v else bs !!! i.
Proof.
  intros Hl Hb. case_bool_decide as Hi.
  - subst i. rewrite list_lookup_total_alter_eq by lia. done.
  - rewrite !list_lookup_total_alt, list_lookup_alter_ne by done. done.
Qed.

(** ** Changing links *)
Definition nexts (bs : list buf) (i : nat) : nat := b_next (bs !!! i).
Definition prevs (bs : list buf) (i : nat) : nat := b_prev (bs !!! i).

Lemma nexts_set (bs : list buf) (a x i : nat) :
  (a < length bs)%nat -> nexts (alter (fun v => v <| b_next := x |>) a bs) i = upd (nexts bs) a x i.
Proof.
  intros Ha. unfold nexts, upd. case_bool_decide as Hi.
  - subst i. by rewrite list_lookup_total_alter_eq.
  - by rewrite !list_lookup_total_alt, list_lookup_alter_ne.
Qed.

Lemma prevs_set (bs : list buf) (a x i : nat) :
  (a < length bs)%nat -> prevs (alter (fun v => v <| b_prev := x |>) a bs) i = upd (prevs bs) a x i.
Proof.
  intros Ha. unfold prevs, upd. case_bool_decide as Hi.
  - subst i. by rewrite list_lookup_total_alter_eq.
  - by rewrite !list_lookup_total_alt, list_lookup_alter_ne.
Qed.

(** Equal but for the links. *)
Definition relinked (bs bs' : list buf) : Prop :=
  length bs' = length bs /\ forall i, exists a c, bs' !!! i = (bs !!! i) <| b_prev := a |> <| b_next := c |>.

Lemma relinked_refl (bs : list buf) : relinked bs bs.
Proof. split; [done|]. intros i. exists (b_prev (bs !!! i)), (b_next (bs !!! i)). by destruct (bs !!! i). Qed.

Lemma relinked_alter (bs bs' : list buf) (f : buf -> buf) (j : nat) :
  (forall v, exists a c, f v = v <| b_prev := a |> <| b_next := c |>) ->
  relinked bs bs' -> relinked bs (alter f j bs').
Proof.
  intros Hf [Hl Hr]. split; [by rewrite length_alter|]. intros i. destruct (Hr i) as (a & c & Ei).
  rewrite list_lookup_total_alt. destruct (decide (i = j)) as [->|Hne].
  - rewrite list_lookup_alter_eq. destruct (bs' !! j) as [v|] eqn:Ev; cbn.
    + apply list_lookup_total_correct in Ev. rewrite Ei in Ev. destruct (Hf v) as (a' & c' & ->). exists a', c'.
      rewrite <- Ev. by destruct (bs !!! j).
    + exists a, c. rewrite <- Ei, list_lookup_total_alt, Ev. done.
  - rewrite list_lookup_alter_ne by done. rewrite <- list_lookup_total_alt. by exists a, c.
Qed.

Lemma relinked_prev (bs bs' : list buf) (j x : nat) :
  relinked bs bs' -> relinked bs (alter (fun v => v <| b_prev := x |>) j bs').
Proof. apply relinked_alter. intros v. exists x, (b_next v). by destruct v. Qed.

Lemma relinked_next (bs bs' : list buf) (j x : nat) :
  relinked bs bs' -> relinked bs (alter (fun v => v <| b_next := x |>) j bs').
Proof. apply relinked_alter. intros v. exists (b_prev v), x. by destruct v. Qed.

(** Nobody has the block. *)
Definition uncached (fs : fsys) (blk : Z) : Prop :=
  forall i, (i < NBUF)%nat -> ~ (b_dev (bufs fs !!! i) = dv /\ b_blockno (bufs fs !!! i) = blk).

Lemma lru_ok_links (bs bs' : list buf) (lru : list nat) :
  (forall i, b_next (bs' !!! i) = b_next (bs !!! i) /\ b_prev (bs' !!! i) = b_prev (bs !!! i)) ->
  lru_ok bs lru -> lru_ok bs' lru.
Proof.
  intros Hl [Hp Hk]. split; [done|]. revert Hk. apply linked_ext; intros i _; apply Hl.
Qed.

Lemma cache_change (fs fs' : fsys) (V V' : Z -> list Z) (K K' : Z -> Z) (lk lk' : Z -> bool) (b : nat) (v' : buf) :
  let v := bufs fs !!! b in let blk := b_blockno v' in
  cache fs V K lk -> (b < NBUF)%nat -> bufs fs' = alter (fun _ => v') b (bufs fs) ->
  b_next v' = b_next v -> b_prev v' = b_prev v -> b_dev v' = dv -> buf_ok V' K' lk' v' ->
  (forall x, x <> blk -> V' x = V x /\ K' x = K x /\ lk' x = lk x /\ disk fs' !! x = disk fs !! x) ->
  b_dev v = dv /\ b_blockno v = blk \/ b_refcnt v = 0 /\ uncached fs blk ->
  0 <= K' blk -> (K' blk = 0 -> disk fs' !! blk = Some (V' blk)) -> is_Some (disk fs' !! blk) ->
  (lk' blk = true -> K' blk <> 0) -> cache fs' V' K' lk'.
Proof.
  intros v blk [C1 [lru C2] C3 C4 C5 C6 C7 C8 C9] Hb Ebs En Ep Ed Hok Hsame Hold Hpos Hclean Hsome Hlk.
  assert (forall i, bufs fs' !!! i = if bool_decide (i = b) then v' else bufs fs !!! i) as Hi.
  { intros i. rewrite Ebs. by apply bufs_lookup. }
  assert (forall i, (i < NBUF)%nat -> i <> b -> b_dev (bufs fs !!! i) = dv -> b_blockno (bufs fs !!! i) <> blk) as Hother.
  { intros i Hlt Hne Hdv Heq. destruct Hold as [[Hd Hn]|[_ Hun]]; [|by apply (Hun i)].
    apply Hne. apply C4; [done|done|done|done|]. fold v. congruence. }
  split.
  - by rewrite Ebs, length_alter.
  - exists lru. revert C2. apply lru_ok_links. intros i. rewrite Hi. case_bool_decide; [subst; done|done].
  - intros i Hlt. rewrite Hi. case_bool_decide as Hib; [done|]. destruct (C3 i Hlt) as [O1 O2 O3 O4 O5 O6 O7].
    split; [done|done|done| | |done|].
    all: intros Hd; destruct (Hsame _ (Hother i Hlt Hib Hd)) as (HV & HK & Hl & _).
    + rewrite HK. by apply O4.
    + rewrite Hl. by apply O5.
    + rewrite HV. by apply O7.
  - intros i j Hi' Hj'. rewrite !Hi. repeat case_bool_decide; intros Hd1 Hd2 He; try congruence.
    + exfalso. by apply (Hother j).
    + exfalso. by apply (Hother i).
    + by apply C4.
  - intros x. destruct (Z.eq_dec x blk) as [->|Hne]; [done|]. destruct (Hsame x Hne) as (_ & -> & _). apply C5.
  - intros x Hx. destruct (Z.eq_dec x blk) as [->|Hne].
    + exists b. rewrite Hi, bool_decide_true by done. done.
    + destruct (Hsame x Hne) as (_ & HK & _). rewrite HK in Hx. destruct (C6 x Hx) as (i & Hlt & Hd & Hn).
      exists i. rewrite Hi, bool_decide_false; [done|]. intros ->. fold v in Hd, Hn.
      destruct Hold as [[_ Hold]|[Hold _]]; [congruence|]. apply Hx.
      destruct (C3 b Hb) as [_ _ _ O4 _ _ _]. fold v in O4. rewrite <- Hn, <- O4 by done. done.
  - intros x Hx Hz. destruct (Z.eq_dec x blk) as [->|Hne]; [auto|].
    destruct (Hsame x Hne) as (-> & HK & _ & ->). rewrite HK in Hz. by apply C7.
  - intros x Hx. destruct (Z.eq_dec x blk) as [->|Hne]; [done|]. destruct (Hsame x Hne) as (_ & _ & _ & ->). by apply C8.
  - intros x Hx. destruct (Z.eq_dec x blk) as [->|Hne]; [auto|].
    destruct (Hsame x Hne) as (_ & -> & Hl & _). rewrite Hl in Hx. by apply C9.
Qed.

(** ** Looking for a buffer *)
Lemma lru_facts (lru : list nat) :
  lru ≡ₚ seq 0 NBUF -> NoDup lru /\ (bhead ∉ lru) /\ forall i, i ∈ lru <-> (i < NBUF)%nat.
Proof.
  intros Hp. assert (forall i, i ∈ lru <-> (i < NBUF)%nat) as Hin.
  { intros i. rewrite Hp, elem_of_seq. lia. }
  split_and!; [rewrite Hp; apply NoDup_seq| |done]. rewrite Hin. unfold bhead. lia.
Qed.

Section walk.
Context {h : heap} {ft : ftable} {fs : fsys} {lock : list lock_id}.
Let w := World lock h ft fs.

(** A walk along the list, in one direction or the other. *)
Lemma fwp_walk {B} (l : list nat) (next : buf -> nat) (test : buf -> bool) (stop : M (nat + B))
    (found : nat -> M (nat + B)) (R : B -> world -> Prop) :
  NoDup l -> bhead ∉ l -> length l = NBUF ->
  (forall l1 b l2, l = l1 ++ b :: l2 -> next (bufs fs !!! b) = first l2) ->
  (forall b, b ∈ l -> test (bufs fs !!! b) = true ->
     fwp p pr (found b) w (fun r w' => exists v, r = inr v /\ R v w')) ->
  ((forall b, b ∈ l -> test (bufs fs !!! b) = false) -> fwp p pr stop w (fun r w' => exists v, r = inr v /\ R v w')) ->
  fwp p pr (loop (fun b =>
    if bool_decide (b = bhead) then stop else
    v ← get_buf b;
    if test v then found b else mret (inl (next v))) (first l)) w R.
Proof.
  intros Hnd Hh Hlen Hnx Hfound Hstop.
  apply (fwp_loop p pr (fun b w' => w' = w /\ exists l1 l2, l = l1 ++ l2 /\ b = first l2 /\
      forall x, x ∈ l1 -> test (bufs fs !!! x) = false)
    (fun b _ => Z.of_nat (left_from b l))).
  - split; [done|]. exists [], l. split_and!; [done|done|]. intros x Hx. by apply not_elem_of_nil in Hx.
  - pose proof (left_from_bound (first l) l). rewrite Hlen in *. unfold NBUF in *. lia.
  - intros b w' (-> & l1 & l2 & El & -> & Hl1). destruct l2 as [|b l2]; cbn [first].
    + rewrite bool_decide_true by done. eapply fwp_mono; [apply Hstop|].
      * intros b Hb. apply Hl1. by rewrite El, app_nil_r in Hb.
      * intros r w' (v & -> & HR). exact HR.
    + assert (b ∈ l) as Hb by (rewrite El; apply elem_of_app; right; by left).
      rewrite bool_decide_false by (intros ->; done). do 2 fstep. destruct (test (bufs fs !!! b)) eqn:Ht.
      * eapply fwp_mono; [by apply Hfound|]. intros r w' (v & -> & HR). exact HR.
      * fstep. rewrite (Hnx l1 b l2 El). split; [|split; [lia|]].
        -- split; [done|]. exists (l1 ++ [b]), l2. split_and!; [by rewrite <- (assoc_L app)|done|].
           intros x [Hx|Hx%list_elem_of_singleton]%elem_of_app; [by apply Hl1|by subst].
        -- apply inj_lt. by apply (left_from_next l l1 l2).
Qed.
End walk.

(** Some buffer is free when few blocks are referenced. *)
Lemma few_free (fs : fsys) V K lk :
  cache fs V K lk -> few K -> exists i, (i < NBUF)%nat /\ b_refcnt (bufs fs !!! i) = 0.
Proof.
  intros Hc (l & Hl & Hlen).
  destruct (existsb (fun i => b_refcnt (bufs fs !!! i) =? 0) (seq 0 NBUF)) eqn:He.
  { apply existsb_exists in He as (i & Hi%in_seq & Hz%Z.eqb_eq). exists i. split; [lia|done]. }
  exfalso. assert (forall i, (i < NBUF)%nat -> b_refcnt (bufs fs !!! i) <> 0) as Hnz.
  { intros i Hi Hz. rewrite <- not_true_iff_false in He. apply He, existsb_exists. exists i.
    split; [apply in_seq; lia|by apply Z.eqb_eq]. }
  assert (forall i, (i < NBUF)%nat -> b_dev (bufs fs !!! i) = dv) as Hdv.
  { intros i Hi. destruct (Z.eq_dec (b_dev (bufs fs !!! i)) dv) as [|Hne]; [done|].
    destruct (bo_other _ _ _ _ (ca_buf _ _ _ _ Hc i Hi) Hne) as [Hz _]. by destruct (Hnz i Hi). }
  set (bl := (fun i => b_blockno (bufs fs !!! i)) <$> seq 0 NBUF).
  assert (NoDup bl) as Hnd.
  { apply NoDup_fmap_2_strong; [|apply NoDup_seq]. intros i j Hi%elem_of_seq Hj%elem_of_seq Heq.
    apply (ca_unique _ _ _ _ Hc); [lia|lia|apply Hdv; lia|apply Hdv; lia|done]. }
  assert (bl ⊆+ l) as Hsub.
  { apply NoDup_submseteq; [done|]. intros x Hx. apply list_elem_of_fmap in Hx as (i & -> & Hi%elem_of_seq).
    apply Hl. rewrite <- (bo_refs _ _ _ _ (ca_buf _ _ _ _ Hc i ltac:(lia))) by (apply Hdv; lia). apply Hnz. lia. }
  apply submseteq_length in Hsub. unfold bl in Hsub. rewrite length_fmap, length_seq in Hsub. lia.
Qed.

(** ** bget *)
Definition hit_buf (v : buf) : buf :=
  v <| b_refcnt := u32 (b_refcnt v + 1) |> <| b_lock := Sleeplock 1 (p_pid pr) |>.
Definition miss_buf (blk : Z) (v : buf) : buf :=
  v <| b_dev := dv |> <| b_blockno := blk |> <| b_valid := 0 |> <| b_refcnt := 1 |>
    <| b_lock := Sleeplock 1 (p_pid pr) |>.

Lemma fwp_bget (blk : Z) (fs : fsys) (V : Z -> list Z) (K : Z -> Z) (lk : Z -> bool) h ft (R : nat -> world -> Prop) :
  cache fs V K lk -> 0 <= blk < size -> lk blk = false -> K blk <> 0 \/ few K ->
  (forall b, handle fs b blk -> R b (World [] h ft (fs <| bufs := alter hit_buf b (bufs fs) |>))) ->
  (forall b, (b < NBUF)%nat -> b_refcnt (bufs fs !!! b) = 0 -> uncached fs blk ->
     R b (World [] h ft (fs <| bufs := alter (miss_buf blk) b (bufs fs) |>))) ->
  fwp p pr (bget dv blk) (World [] h ft fs) R.
Proof.
  intros Hc Hblk Hlk Hroom Hhit Hmiss. pose proof Hc as [C1 [lru [Hperm Hlink]] C3 C4 C5 C6 C7 C8 C9].
  destruct (lru_facts lru Hperm) as (Hnd & Hh & Hin).
  assert (length lru = NBUF) as Hlen by (by rewrite Hperm, length_seq).
  unfold bget. do 5 fstep. rewrite (linked_first _ _ _ Hlink).
  apply (fwp_walk lru b_next (fun v => (b_dev v =? dv) && (b_blockno v =? blk)));
    [done|done|done|intros l1 b l2 ->; by apply (linked_next _ _ l1) in Hlink| |].
  - intros b Hb Ht. apply Hin in Hb. apply andb_true_iff in Ht as [Hd%Z.eqb_eq Hn%Z.eqb_eq].
    do 4 fstep. apply fwp_bind, fwp_acquiresleep.
    { cbn [sl_of bufs set_with set_bufs]. rewrite (proj_alter (fun v => sl_locked (b_lock v))) by done.
      destruct (C3 b Hb) as [_ _ _ _ O5 _ _]. rewrite O5, Hn, Hlk by done. done. }
    fstep. exists (Some b). split; [done|]. fstep. cbn [sl_set bufs set_with set_bufs]. rewrite list_alter_alter_eq.
    by apply (Hhit b).
  - intros Hnone. fstep. exists None. split; [done|]. do 2 fstep.
    assert (uncached fs blk) as Hun.
    { intros i Hi [Hd Hn]. specialize (Hnone i (proj2 (Hin i) Hi)). cbv beta in Hnone.
      rewrite Hd, Hn, !Z.eqb_refl in Hnone. done. }
    apply linked_rev in Hlink. cbn [rev] in Hlink. rewrite rev_app_distr in Hlink. cbn [rev app] in Hlink.
    rewrite (linked_first _ _ _ Hlink). clear Hnd Hh Hin Hnone.
    destruct (lru_facts (rev lru)) as (Hnd & Hh & Hin); [by rewrite <- Permutation_rev|].
    apply (fwp_walk (rev lru) b_prev (fun v => b_refcnt v =? 0)).
    + done.
    + done.
    + by rewrite length_rev.
    + intros l1 b l2 El. rewrite El in Hlink. by apply (linked_next _ _ l1) in Hlink.
    + intros b Hb Ht%Z.eqb_eq. assert (b < NBUF)%nat as Hlt by (by apply Hin).
      do 10 fstep. apply fwp_bind, fwp_acquiresleep.
      { cbn [sl_of bufs set_with set_bufs]. rewrite !(proj_alter (fun v => sl_locked (b_lock v))) by done.
        destruct (Z.eq_dec (b_dev (bufs fs !!! b)) dv) as [Hd|Hd].
        - destruct (C3 b Hlt) as [_ _ _ O4 O5 _ _]. rewrite O5 by done. destruct (lk (b_blockno (bufs fs !!! b))) eqn:Hl; [|done].
          apply C9 in Hl. by rewrite <- O4 in Hl.
        - destruct (bo_other _ _ _ _ (C3 b Hlt) Hd) as [_ ->]. done. }
      fstep. exists b. split; [done|]. cbn [sl_set bufs set_with set_bufs]. rewrite !list_alter_alter_eq.
      by apply (Hmiss b).
    + intros Hall. exfalso. destruct Hroom as [Hk|Hfew].
      * destruct (C6 blk Hk) as (i & Hi & Hd & Hn). by apply (Hun i Hi).
      * destruct (few_free fs V K lk Hc Hfew) as (i & Hi & Hz). specialize (Hall i (proj2 (Hin i) Hi)). cbv beta in Hall.
        by rewrite Hz in Hall.
Qed.

Lemma alter_const (f : buf -> buf) (b : nat) (bs : list buf) : alter f b bs = alter (fun _ => f (bs !!! b)) b bs.
Proof. by apply alter_ext_total. Qed.

Lemma bump_ne (K : Z -> Z) (blk d x : Z) : x <> blk -> bump K blk d x = K x.
Proof. intros Hne. unfold bump. by rewrite (proj2 (Z.eqb_neq _ _) Hne). Qed.
Lemma bump_eq (K : Z -> Z) (blk d : Z) : bump K blk d blk = K blk + d.
Proof. unfold bump. by rewrite Z.eqb_refl. Qed.
Lemma flip_ne (lk : Z -> bool) (blk x : Z) (v : bool) : x <> blk -> flip lk blk v x = lk x.
Proof. intros Hne. unfold flip. by rewrite (proj2 (Z.eqb_neq _ _) Hne). Qed.
Lemma flip_eq (lk : Z -> bool) (blk : Z) (v : bool) : flip lk blk v blk = v.
Proof. unfold flip. by rewrite Z.eqb_refl. Qed.

(** The buffer of a block, taken. *)
Lemma cache_take (fs fs' : fsys) V K lk (b : nat) (v' : buf) (blk : Z) :
  let v := bufs fs !!! b in
  cache fs V K lk -> (b < NBUF)%nat -> 0 <= blk < size -> fs' = fs <| bufs := alter (fun _ => v') b (bufs fs) |> ->
  v' = Buf 1 0 dv blk (Sleeplock 1 (p_pid pr)) (K blk + 1) (b_prev v) (b_next v) (V blk) ->
  b_dev v = dv /\ b_blockno v = blk \/ b_refcnt v = 0 /\ uncached fs blk ->
  cache fs' V (bump K blk 1) (flip lk blk true) /\ handle fs' b blk /\ stays K fs fs'.
Proof.
  intros v Hc Hb Hblk -> Ev Hold. split; [|split].
  - apply (cache_change fs _ V V K _ lk _ b v'); rewrite ?Ev; cbn [b_next b_prev b_dev b_blockno]; try done.
    + split; cbn; rewrite ?bump_eq, ?flip_eq; done.
    + intros x Hx. by rewrite bump_ne, flip_ne.
    + rewrite bump_eq. pose proof (ca_pos _ _ _ _ Hc blk). lia.
    + rewrite bump_eq. pose proof (ca_pos _ _ _ _ Hc blk). lia.
    + by apply (ca_dom _ _ _ _ Hc).
    + rewrite bump_eq. pose proof (ca_pos _ _ _ _ Hc blk). lia.
  - split; [done|]. cbn [bufs set_with set_bufs]. rewrite bufs_lookup, bool_decide_true by (done || apply Hc). by rewrite Ev.
  - split; [done|]. intros b' blk' (Hb' & Hd & Hn) Hk. split; [done|]. cbn [bufs set_with set_bufs].
    rewrite bufs_lookup by (done || apply Hc). case_bool_decide as Hbb; [|done]. subst b'. fold v in Hd, Hn.
    destruct Hold as [[_ Hb2]|[Hz _]]; [rewrite Ev; cbn; split; congruence|].
    destruct Hk. pose proof (bo_refs _ _ _ _ (ca_buf _ _ _ _ Hc b Hb) Hd) as Hr. fold v in Hr. congruence.
Qed.

Lemma buf_eta (v : buf) (blk : Z) V K lk :
  buf_ok V K lk v -> b_dev v = dv -> b_blockno v = blk -> 0 <= K blk < 2 ^ 32 - 1 ->
  hit_buf v = Buf 1 0 dv blk (Sleeplock 1 (p_pid pr)) (K blk + 1) (b_prev v) (b_next v) (V blk).
Proof.
  intros [O1 O2 O3 O4 O5 O6 O7] Hd Hn HK. destruct v as [x1 x2 x3 x4 x5 x6 x7 x8 x9]. unfold hit_buf. cbn in *.
  subst x3 x4. rewrite O4, O6, O7, O1 by done. rewrite u32_small by (unfold is_u32; lia). done.
Qed.

Hypothesis Hp : (p < NPROC)%nat.
Hypothesis Henv : disk_serves p.
Hypothesis Hsize : size <= 2 ^ 31.

(** [bread] gives the contents that the cache shows, and takes the block. *)
Lemma fwp_bread (blk : Z) (fs : fsys) V K lk h ft (R : nat -> world -> Prop) :
  cache fs V K lk -> 0 <= blk < size -> lk blk = false -> K blk <> 0 \/ few K -> K blk < 2 ^ 32 - 1 ->
  (forall b fs', cache fs' V (bump K blk 1) (flip lk blk true) -> handle fs' b blk ->
     stays K fs fs' -> R b (World [] h ft fs')) ->
  fwp p pr (bread dv blk) (World [] h ft fs) R.
Proof using Hp Henv Hsize.
  intros Hc Hblk Hlk Hroom HK HR. pose proof (ca_pos _ _ _ _ Hc blk) as Hpos. pose proof (ca_len _ _ _ _ Hc) as Hlen.
  unfold bread. fstep. apply (fwp_bget blk fs V K lk); [done..| |].
  - intros b (Hb & Hd & Hn). pose proof (ca_buf _ _ _ _ Hc b Hb) as Hok.
    do 2 fstep. cbn [bufs set_with set_bufs]. rewrite list_lookup_total_alter_eq by lia.
    assert (b_valid (hit_buf (bufs fs !!! b)) = 1) as -> by (cbn; by apply (bo_valid _ _ _ _ Hok)).
    change (truth 1) with true. cbn [negb]. do 3 fstep. rewrite (alter_const hit_buf).
    destruct (cache_take fs _ V K lk b (hit_buf (bufs fs !!! b)) blk Hc Hb Hblk eq_refl) as (Hc' & Hh' & Hs').
    + apply (buf_eta _ blk V K lk); [done|done|done|lia].
    + by left.
    + by apply HR.
  - intros b Hb Hz Hun. do 2 fstep. cbn [bufs set_with set_bufs]. rewrite list_lookup_total_alter_eq by lia.
    change (b_valid (miss_buf blk (bufs fs !!! b))) with 0. change (truth 0) with false. cbn [negb]. do 2 fstep.
    assert (K blk = 0) as HK0.
    { destruct (Z.eq_dec (K blk) 0) as [|Hne]; [done|].
      destruct (ca_refs _ _ _ _ Hc blk Hne) as (i & Hi & Hd & Hn). by destruct (Hun i Hi). }
    pose proof (ca_clean _ _ _ _ Hc blk Hblk HK0) as Hdisk.
    assert (bufs (fs <| bufs := alter (miss_buf blk) b (bufs fs) |>) !!! b = miss_buf blk (bufs fs !!! b)) as Ev.
    { cbn [bufs set_with set_bufs]. by rewrite list_lookup_total_alter_eq by lia. }
    apply (fwp_disk_rw Hp Henv); rewrite ?Ev; cbn [b_blockno b_disk miss_buf disk set_with set_bufs bufs]; [|done| | |].
    + cbn. lia.
    + rewrite length_alter. lia.
    + cbn. apply (ca_buf _ _ _ _ Hc b Hb).
    + do 2 fstep. unfold transferred. cbn [bufs disk set_with set_bufs].
      rewrite !list_alter_alter_eq, (alter_const _ b (bufs fs)).
      match goal with |- context [alter (fun _ => ?v) b (bufs fs)] =>
        destruct (cache_take fs _ V K lk b v blk Hc Hb Hblk eq_refl) as (Hc' & Hh' & Hs'); [| |by apply HR] end.
      * unfold miss_buf. cbn. rewrite (lookup_total_correct _ _ _ Hdisk).
        pose proof (bo_disk _ _ _ _ (ca_buf _ _ _ _ Hc b Hb)) as Hdz. rewrite HK0.
        destruct (bufs fs !!! b). cbn in Hdz |- *. by subst.
      * by right.
Qed.

(** ** Using a buffer *)
Definition put (V : Z -> list Z) (blk : Z) (d : list Z) : Z -> list Z := fun x => if x =? blk then d else V x.

Lemma put_ne V (blk x : Z) d : x <> blk -> put V blk d x = V x.
Proof. intros Hne. unfold put. by rewrite (proj2 (Z.eqb_neq _ _) Hne). Qed.
Lemma put_eq V (blk : Z) d : put V blk d blk = d.
Proof. unfold put. by rewrite Z.eqb_refl. Qed.

(** A change of a buffer in use that keeps its place. *)
Lemma cache_update (fs fs' : fsys) V V' K K' lk lk' (b : nat) (blk : Z) (f : buf -> buf) :
  cache fs V K lk -> handle fs b blk -> bufs fs' = alter f b (bufs fs) ->
  (forall x, x <> blk -> V' x = V x /\ K' x = K x /\ lk' x = lk x /\ disk fs' !! x = disk fs !! x) ->
  (forall v, b_next (f v) = b_next v /\ b_prev (f v) = b_prev v /\ b_dev (f v) = b_dev v /\ b_blockno (f v) = b_blockno v /\
     b_valid (f v) = b_valid v /\ b_disk (f v) = b_disk v) ->
  (let v := bufs fs !!! b in b_refcnt (f v) = K' blk /\
     b_lock (f v) = (if lk' blk then Sleeplock 1 (p_pid pr) else Sleeplock 0 0) /\ b_data (f v) = V' blk) ->
  0 <= K' blk -> (K' blk = 0 -> disk fs' !! blk = Some (V' blk)) -> is_Some (disk fs' !! blk) ->
  (lk' blk = true -> K' blk <> 0) -> cache fs' V' K' lk' /\ handle fs' b blk.
Proof.
  intros Hc (Hb & Hd & Hn) Ebs Hsame Hf (Hr & Hl & Hda) Hpos Hcl Hso Hlk.
  destruct (Hf (bufs fs !!! b)) as (F1 & F2 & F3 & F4 & F5 & F6). rewrite alter_const in Ebs. split.
  - apply (cache_change fs fs' V V' K K' lk lk' b (f (bufs fs !!! b))); rewrite ?F4, ?Hn; try done; [by rewrite F3| |by left].
    destruct (ca_buf _ _ _ _ Hc b Hb) as [O1 O2 O3 O4 O5 O6 O7].
    split; rewrite ?F3, ?F4, ?F5, ?F6, ?Hn; try done. by rewrite Hn in O3.
  - split; [done|]. rewrite Ebs, bufs_lookup, bool_decide_true by (done || apply Hc). by rewrite F3, F4.
Qed.

Lemma stays_relink (K : Z -> Z) (fs fs1 : fsys) (bs : list buf) :
  stays K fs fs1 -> relinked (bufs fs1) bs -> stays K fs (fs1 <| bufs := bs |>).
Proof.
  intros [Efs Hst] [_ Hrel]. split; [by rewrite Efs|]. intros b blk Hh Hk. destruct (Hst b blk Hh Hk) as (H1 & H2 & H3).
  split; [done|]. cbn [bufs set_with set_bufs]. destruct (Hrel b) as (x & y & ->). done.
Qed.

Lemma cache_relink (fs : fsys) V K lk (bs' : list buf) (lru' : list nat) :
  cache fs V K lk -> relinked (bufs fs) bs' -> lru_ok bs' lru' -> cache (fs <| bufs := bs' |>) V K lk.
Proof.
  intros [C1 C2 C3 C4 C5 C6 C7 C8 C9] [Hl Hr] Hlru.
  assert (forall i, b_dev (bs' !!! i) = b_dev (bufs fs !!! i) /\ b_blockno (bs' !!! i) = b_blockno (bufs fs !!! i)) as Hsame.
  { intros i. by destruct (Hr i) as (a & c & ->). }
  split; cbn [bufs disk set_with set_bufs]; try done.
  - by rewrite Hl.
  - by exists lru'.
  - intros i Hi. destruct (Hr i) as (a & c & ->). by destruct (C3 i Hi); split.
  - intros i j Hi Hj. destruct (Hsame i) as [-> ->], (Hsame j) as [-> ->]. by apply C4.
  - intros x Hx. destruct (C6 x Hx) as (i & Hi & Hd & Hn). exists i. by destruct (Hsame i) as [-> ->].
Qed.

(** All links lead to buffers. *)
Definition in_range (f : nat -> nat) : Prop := forall i, (i < S NBUF)%nat -> (f i < S NBUF)%nat.

Lemma upd_in_range (f : nat -> nat) (a x : nat) : in_range f -> (x < S NBUF)%nat -> in_range (upd f a x).
Proof. intros Hf Hx i Hi. unfold upd. case_bool_decide; [done|by apply Hf]. Qed.

Lemma upd_ext (f g : nat -> nat) (a a' x x' i : nat) :
  (forall j, f j = g j) -> a = a' -> x = x' -> upd f a x i = upd g a' x' i.
Proof. intros Hf -> ->. unfold upd. by rewrite Hf. Qed.

Lemma linked_range (nx pv : nat -> nat) (lru : list nat) :
  lru ≡ₚ seq 0 NBUF -> linked nx pv (bhead :: lru ++ [bhead]) -> in_range nx.
Proof.
  intros Hperm Hlink. destruct (lru_facts lru Hperm) as (Hnd & Hh & Hin).
  assert (forall l1 l2, lru = l1 ++ l2 -> (first l2 < S NBUF)%nat) as Hfirst.
  { intros l1 [|x l2] ->; cbn [first]; [unfold bhead; lia|]. pose proof (proj1 (Hin x)) as Hx.
    specialize (Hx ltac:(apply elem_of_app; right; by left)). lia. }
  intros i Hi. destruct (decide (i = bhead)) as [->|Hne].
  - rewrite (linked_first _ _ _ Hlink). by apply (Hfirst []).
  - assert (i ∈ lru) as Hil by (apply Hin; unfold bhead in Hne; lia).
    apply list_elem_of_split in Hil as (l1 & l2 & ->). rewrite (linked_next _ _ _ _ _ Hlink).
    apply (Hfirst (l1 ++ [i])). by rewrite <- (assoc_L app).
Qed.

(** The moves of [brelse] are those of [linked_front]. *)
Lemma lru_front (bs : list buf) (lru : list nat) (b : nat) :
  length bs = S NBUF -> lru_ok bs lru -> (b < NBUF)%nat ->
  let bs1 := alter (fun w => w <| b_prev := prevs bs b |>) (nexts bs b) bs in
  let bs2 := alter (fun w => w <| b_next := nexts bs1 b |>) (prevs bs1 b) bs1 in
  let bs3 := alter (fun w => w <| b_next := nexts bs2 bhead |>) b bs2 in
  let bs4 := alter (fun w => w <| b_prev := bhead |>) b bs3 in
  let bs5 := alter (fun w => w <| b_prev := b |>) (nexts bs4 bhead) bs4 in
  let bs6 := alter (fun w => w <| b_next := b |>) bhead bs5 in
  relinked bs bs6 /\ exists lru', lru_ok bs6 lru'.
Proof.
  intros Hlen [Hperm Hlink] Hb bs1 bs2 bs3 bs4 bs5 bs6. split.
  { apply relinked_next, relinked_prev, relinked_prev, relinked_next, relinked_next, relinked_prev, relinked_refl. }
  pose proof (linked_range _ _ _ Hperm Hlink : in_range (nexts bs)) as Rn.
  assert (in_range (prevs bs)) as Rp.
  { apply linked_rev in Hlink. cbn [rev] in Hlink. rewrite rev_app_distr in Hlink.
    apply (linked_range _ _ (rev lru)) in Hlink; [done|]. by rewrite <- Permutation_rev. }
  set (pv1 := upd (prevs bs) (nexts bs b) (prevs bs b)). set (nx1 := upd (nexts bs) (pv1 b) (nexts bs b)).
  set (nx2 := upd nx1 b (nx1 bhead)). set (pv2 := upd pv1 b bhead).
  assert (in_range pv1) as R1 by (apply upd_in_range; [done|apply Rp; lia]).
  assert (in_range nx1) as R2 by (apply upd_in_range; [done|apply Rn; lia]).
  assert (in_range nx2) as R3 by (apply upd_in_range; [done|apply R2; unfold bhead; lia]).
  assert (length bs1 = S NBUF /\ length bs2 = S NBUF /\ length bs3 = S NBUF /\ length bs4 = S NBUF /\
    length bs5 = S NBUF) as (L1 & L2 & L3 & L4 & L5).
  { unfold bs5, bs4, bs3, bs2, bs1. by rewrite !length_alter. }
  assert (forall i, prevs bs1 i = pv1 i) as P1.
  { intros i. unfold bs1. rewrite prevs_set; [done|]. rewrite Hlen. apply Rn. lia. }
  assert (forall i, nexts bs1 i = nexts bs i) as N1 by (intros i; by apply (proj_alter b_next)).
  assert (forall i, nexts bs2 i = nx1 i) as N2.
  { intros i. unfold bs2. rewrite nexts_set; [by apply upd_ext|]. rewrite L1, P1. apply R1. lia. }
  assert (forall i, prevs bs2 i = pv1 i) as P2 by (intros i; rewrite <- P1; by apply (proj_alter b_prev)).
  assert (forall i, nexts bs4 i = nx2 i) as N4.
  { intros i. unfold bs4. transitivity (nexts bs3 i); [by apply (proj_alter b_next)|].
    unfold bs3. rewrite nexts_set by lia. by apply upd_ext. }
  assert (forall i, prevs bs4 i = pv2 i) as P4.
  { intros i. unfold bs4. rewrite prevs_set by lia. apply upd_ext; [|done|done]. intros j. rewrite <- P2.
    by apply (proj_alter b_prev). }
  assert (forall i, prevs bs6 i = upd pv2 (nx2 bhead) b i) as P6.
  { intros i. transitivity (prevs bs5 i); [by apply (proj_alter b_prev)|]. unfold bs5.
    rewrite prevs_set; [by apply upd_ext|]. rewrite L4, N4. apply R3. unfold bhead. lia. }
  assert (forall i, nexts bs6 i = upd nx2 bhead b i) as N6.
  { intros i. unfold bs6. rewrite nexts_set by (unfold bhead; lia). apply upd_ext; [|done|done].
    intros j. rewrite <- N4. by apply (proj_alter b_next). }
  destruct (lru_facts lru Hperm) as (Hnd & Hh & Hin). apply Hin, list_elem_of_split in Hb as (l1 & l2 & ->).
  exists (b :: l1 ++ l2). split; [by rewrite <- Hperm, Permutation_middle|].
  rewrite <- (assoc_L app) in Hlink.
  pose proof (linked_front (nexts bs) (prevs bs) bhead b l1 l2 Hlink ltac:(by apply list.NoDup_cons)) as Hfront.
  rewrite (assoc_L app l1 l2) in Hfront. revert Hfront.
  apply (linked_ext _ _ bhead bhead (b :: l1 ++ l2)); intros x _; [apply N6|apply P6].
Qed.

Section use.
Context {fs : fsys} {V : Z -> list Z} {K : Z -> Z} {lk : Z -> bool} {b : nat} {blk : Z} {h : heap} {ft : ftable}.
Hypothesis Hc : cache fs V K lk.
Hypothesis Hh : handle fs b blk.

Lemma handle_ok : let v := bufs fs !!! b in
  0 <= blk < size /\ b_refcnt v = K blk /\ b_data v = V blk /\ b_disk v = 0 /\ is_Some (disk fs !! blk) /\
  b_lock v = (if lk blk then Sleeplock 1 (p_pid pr) else Sleeplock 0 0).
Proof using Hc Hh.
  destruct Hh as (Hb & Hd & Hn). destruct (ca_buf _ _ _ _ Hc b Hb) as [O1 O2 O3 O4 O5 O6 O7]. cbv zeta.
  rewrite <- Hn.
  split_and!; [by apply O3|by apply O3|by apply O4|by apply O7|done|apply (ca_dom _ _ _ _ Hc); by apply O3|by apply O5].
Qed.

(** Writing into a locked buffer. *)
Lemma cache_write (f : buf -> buf) (d : list Z) :
  lk blk = true -> (forall v, exists d', f v = v <| b_data := d' |>) -> b_data (f (bufs fs !!! b)) = d ->
  let fs' := fs <| bufs := alter f b (bufs fs) |> in
  cache fs' (put V blk d) K lk /\ handle fs' b blk.
Proof using Hc Hh.
  intros Hl Hf Hd. destruct handle_ok as (Hblk & Hr & Hda & _ & Hso & Hlo). pose proof (ca_lk _ _ _ _ Hc blk Hl) as HK.
  eapply (cache_update fs _ V _ K K lk lk b blk f); try done.
  - intros x Hx. by rewrite put_ne.
  - intros v. by destruct (Hf v) as (d' & ->).
  - cbv zeta. rewrite put_eq. split_and!; [| |done].
    + destruct (Hf (bufs fs !!! b)) as (d' & ->). exact Hr.
    + destruct (Hf (bufs fs !!! b)) as (d' & ->). exact Hlo.
  - apply Hc.
Qed.

(** The block on disk. *)
Definition on_disk (fs : fsys) (blk : Z) (d : list Z) : fsys :=
  fs <| disk := <[ blk := d ]> (disk fs) |> <| writes := (blk, d) :: writes fs |>.

Lemma fwp_bwrite (R : unit -> world -> Prop) :
  lk blk = true ->
  (let fs' := on_disk fs blk (V blk) in cache fs' V K lk -> handle fs' b blk -> R tt (World [] h ft fs')) ->
  fwp p pr (bwrite b) (World [] h ft fs) R.
Proof using Hc Hh Hp Henv Hsize.
  intros Hl HR. destruct handle_ok as (Hblk & Hr & Hda & Hdz & Hso & Hlo). destruct Hh as (Hb & Hd & Hn).
  unfold bwrite. fstep. apply fwp_holdingsleep. cbn [sl_of]. rewrite Hlo, Hl. cbn [sl_locked sl_pid].
  change (truth 1) with true. rewrite Z.eqb_refl. cbn [andb negb].
  apply (fwp_disk_rw Hp Henv); rewrite ?Hn; [lia|done|rewrite (ca_len _ _ _ _ Hc); lia|done|].
  unfold transferred. rewrite Hda. apply HR; [|done].
  destruct Hc as [C1 C2 C3 C4 C5 C6 C7 C8 C9]. split; try done; cbn [on_disk disk set_with set_disk set_writes].
  - intros x Hx Hz. destruct (Z.eq_dec x blk) as [->|Hne].
    + by rewrite lookup_insert_eq.
    + rewrite lookup_insert_ne by done. by apply C7.
  - intros x Hx. destruct (Z.eq_dec x blk) as [->|Hne].
    + by rewrite lookup_insert_eq.
    + rewrite lookup_insert_ne by done. by apply C8.
Qed.

Lemma fwp_bpin (ls : list lock_id) (R : unit -> world -> Prop) :
  L_bcache ∉ ls -> K blk < 2 ^ 32 - 1 ->
  (forall fs', cache fs' V (bump K blk 1) lk -> handle fs' b blk -> stays K fs fs' ->
     R tt (World ls h ft fs')) ->
  fwp p pr (bpin b) (World ls h ft fs) R.
Proof using Hc Hh Hp Henv Hsize.
  intros Hls HK HR. destruct handle_ok as (Hblk & Hr & Hda & Hdz & Hso & Hlo). pose proof (ca_pos _ _ _ _ Hc blk).
  unfold bpin. set (f := fun v : buf => _). do 5 fstep.
  destruct (cache_update fs (fs <| bufs := alter f b (bufs fs) |>) V V K (bump K blk 1) lk lk b blk f) as [Hc' Hh'];
    [done|done|reflexivity| | | | | | | |by apply HR; [| |apply stays_alter]];
    try done; cbn [disk set_with set_bufs].
  - intros x Hx. by rewrite (bump_ne K blk 1).
  - cbv zeta. rewrite (bump_eq K). cbn. rewrite Hr, u32_small by (unfold is_u32; lia). done.
  - rewrite (bump_eq K). lia.
  - rewrite (bump_eq K). lia.
  - rewrite (bump_eq K). lia.
Qed.

Lemma fwp_bunpin (R : unit -> world -> Prop) :
  K blk < 2 ^ 32 -> 1 <= K blk -> (K blk = 1 -> lk blk = false /\ disk fs !! blk = Some (V blk)) ->
  (forall fs', cache fs' V (bump K blk (-1)) lk -> handle fs' b blk -> stays K fs fs' ->
     R tt (World [] h ft fs')) ->
  fwp p pr (bunpin b) (World [] h ft fs) R.
Proof using Hc Hh Hp Henv Hsize.
  intros HK H1 Hcl HR. destruct handle_ok as (Hblk & Hr & Hda & Hdz & Hso & Hlo).
  unfold bunpin. set (f := fun v : buf => _). do 5 fstep.
  destruct (cache_update fs (fs <| bufs := alter f b (bufs fs) |>) V V K (bump K blk (-1)) lk lk b blk f) as [Hc' Hh'];
    [done|done|reflexivity| | | | | | | |by apply HR; [| |apply stays_alter]];
    try done; cbn [disk set_with set_bufs].
  - intros x Hx. by rewrite (bump_ne K blk (-1)).
  - cbv zeta. rewrite (bump_eq K). cbn. rewrite Hr, u32_small by (unfold is_u32; lia). split_and!; [lia|done|done].
  - rewrite (bump_eq K). lia.
  - rewrite (bump_eq K). intros Hz. apply Hcl. lia.
  - rewrite (bump_eq K). intros Hl Hz. destruct Hcl as [Hl' _]; [lia|]. congruence.
Qed.

(** [brelse] gives the block back; a block without references must be on disk. *)
Lemma fwp_brelse (R : unit -> world -> Prop) :
  K blk < 2 ^ 32 -> lk blk = true -> (K blk = 1 -> disk fs !! blk = Some (V blk)) ->
  (forall fs', cache fs' V (bump K blk (-1)) (flip lk blk false) -> stays K fs fs' ->
     R tt (World [] h ft fs')) ->
  fwp p pr (brelse b) (World [] h ft fs) R.
Proof using Hc Hh Hp Henv Hsize.
  intros HK Hl Hcl HR. destruct handle_ok as (Hblk & Hr & Hda & Hdz & Hso & Hlo).
  pose proof (ca_lk _ _ _ _ Hc blk Hl) as HK0. pose proof (ca_pos _ _ _ _ Hc blk) as Hpos.
  pose proof (ca_len _ _ _ _ Hc) as Hlen. pose proof Hh as (Hb & Hd & Hn).
  unfold brelse. fstep. apply fwp_holdingsleep. cbn [sl_of]. rewrite Hlo, Hl. cbn [sl_locked sl_pid].
  change (truth 1) with true. rewrite Z.eqb_refl. cbn [andb negb]. fstep. apply fwp_releasesleep.
  cbn [sl_set]. do 5 fstep. cbn [bufs set_with set_bufs]. rewrite list_alter_alter_eq.
  set (f := _ ∘ _ : buf -> buf). set (fs1 := fs <| bufs := alter f b (bufs fs) |>).
  destruct (cache_update fs fs1 V V K (bump K blk (-1)) lk (flip lk blk false) b blk f) as [Hc1 Hh1];
    try done; cbn [fs1 disk set_with set_bufs].
  { intros x Hx. by rewrite (bump_ne K), flip_ne. }
  { cbv zeta. rewrite (bump_eq K), flip_eq. cbn. rewrite Hr, u32_small by (unfold is_u32; lia). split_and!; [lia|done|done]. }
  { rewrite (bump_eq K). lia. }
  { rewrite (bump_eq K). intros Hz. apply Hcl. lia. }
  { by rewrite flip_eq. }
  change (fs <| bufs := alter (fun x => x <| b_lock := Sleeplock 0 0 |>) b (bufs fs) |> <| bufs := alter f b (bufs fs) |>)
    with fs1. do 2 fstep. destruct (b_refcnt (bufs fs1 !!! b) =? 0); [|do 2 fstep; by apply HR; [|apply stays_alter]].
  destruct (ca_lru _ _ _ _ Hc1) as (lru & Hlru).
  destruct (lru_front (bufs fs1) lru b) as (Hrel & lru' & Hlru'); [apply Hc1|done|done|].
  fsteps. apply HR; [exact (cache_relink fs1 _ _ _ _ lru' Hc1 Hrel Hlru')|].
  exact (stays_relink K fs fs1 _ (stays_alter K fs f b ltac:(done)) Hrel).
Qed.
End use.
End cache.

(** ** The cache at boot *)
Lemma linked_insert (nx pv : nat -> nat) (h b : nat) (l : list nat) :
  linked nx pv (h :: l ++ [h]) -> NoDup (h :: l) -> b ∉ h :: l ->
  let nx1 := upd nx b (nx h) in
  linked (upd nx1 h b) (upd (upd pv b h) (nx1 h) b) (h :: b :: l ++ [h]).
Proof.
  intros Hl Hnd Hb nx1. assert (b <> h) as Hbh by (intros ->; apply Hb; by left).
  assert (exists y m, l ++ [h] = y :: m /\ y <> b /\ nx h = y /\ linked nx pv (y :: m)) as (y & m & Ey & Hyb & Nh & Hlk).
  { destruct l as [|y l]; cbn [app linked] in Hl; [exists h, []|exists y, (l ++ [h])]; split_and!; try done; try tauto.
    intros ->. apply Hb. right. by left. }
  assert (nx1 h = y) as N1 by (unfold nx1; by rewrite upd_ne).
  apply list.NoDup_cons in Hnd as [Hh Hnd]. rewrite Ey, N1. unfold nx1. rewrite Nh.
  split; [by rewrite upd_eq|]. split; [by rewrite upd_ne, upd_eq by done|].
  split; [by rewrite upd_ne, upd_eq by done|]. split; [by rewrite upd_eq|].
  apply (linked_rest nx pv _ _ y h l m); [done|done|done| | |done].
  + intros z Hz. rewrite !upd_ne; [done| |].
    * intros ->. apply Hb. by right.
    * by intros ->.
  + intros z Hz Hzy. rewrite !upd_ne; [done| |done]. intros ->. apply Hb.
    apply elem_of_app in Hz as [Hz|Hz%list_elem_of_singleton]; [by right|subst; by left].
Qed.

(** A buffer that has never been used. *)
Definition new_buf (v : buf) : Prop :=
  b_disk v = 0 /\ b_dev v = 0 /\ b_refcnt v = 0 /\ b_lock v = Sleeplock 0 0.

(** The buffers after [k] turns of the loop of [binit]. *)
Record ring_of (k : nat) (bs : list buf) : Prop := {
  ri_len : length bs = S NBUF;
  ri_new : forall i, (i < NBUF)%nat -> new_buf (bs !!! i);
  ri_link : linked (nexts bs) (prevs bs) (bhead :: rev (seq 0 k) ++ [bhead]);
}.

Lemma new_alter (bs : list buf) (f : buf -> buf) (j : nat) :
  (forall v, new_buf v -> new_buf (f v)) -> (forall i, (i < NBUF)%nat -> new_buf (bs !!! i)) ->
  forall i, (i < NBUF)%nat -> new_buf (alter f j bs !!! i).
Proof.
  intros Hf Hb i Hi. specialize (Hb i Hi). rewrite list_lookup_total_alt in Hb |- *.
  destruct (decide (i = j)) as [->|Hne].
  - rewrite list_lookup_alter_eq. destruct (bs !! j) as [v|]; cbn in *; [by apply Hf|done].
  - by rewrite list_lookup_alter_ne.
Qed.

Lemma ring_step (k : nat) (bs : list buf) :
  ring_of k bs -> (k < NBUF)%nat ->
  let bs1 := alter (fun v => v <| b_next := nexts bs bhead |>) k bs in
  let bs2 := alter (fun v => v <| b_prev := bhead |>) k bs1 in
  let bs3 := alter (fun v => v <| b_lock := (b_lock v) <| sl_locked := 0 |> |>) k bs2 in
  let bs4 := alter (fun v => v <| b_lock := (b_lock v) <| sl_pid := 0 |> |>) k bs3 in
  let bs5 := alter (fun v => v <| b_prev := k |>) (nexts bs4 bhead) bs4 in
  let bs6 := alter (fun v => v <| b_next := k |>) bhead bs5 in
  ring_of (S k) bs6.
Proof.
  intros [Hlen Hnew Hlink] Hk bs1 bs2 bs3 bs4 bs5 bs6.
  assert (forall i, i ∈ bhead :: rev (seq 0 k) -> (i < S NBUF)%nat) as Hr.
  { intros i [->|Hi]%elem_of_cons; [unfold bhead; lia|]. apply list_elem_of_In, in_rev, in_seq in Hi. lia. }
  assert (nexts bs bhead < S NBUF)%nat as Hb.
  { rewrite (linked_first _ _ _ Hlink). destruct (rev (seq 0 k)) as [|x l] eqn:El; cbn [first]; [unfold bhead; lia|].
    apply Hr. right. by left. }
  assert (length bs1 = S NBUF /\ length bs2 = S NBUF /\ length bs4 = S NBUF /\ length bs5 = S NBUF) as (L1 & L2 & L4 & L5).
  { unfold bs5, bs4, bs3, bs2, bs1. by rewrite !length_alter. }
  set (nx1 := upd (nexts bs) k (nexts bs bhead)).
  assert (forall i, nexts bs4 i = nx1 i) as N4.
  { intros i. unfold nexts, bs4, bs3, bs2. rewrite !(proj_alter b_next) by done. apply nexts_set. lia. }
  assert (forall i, prevs bs4 i = upd (prevs bs) k bhead i) as P4.
  { intros i. unfold prevs, bs4, bs3. rewrite !(proj_alter b_prev) by done.
    transitivity (upd (prevs bs1) k bhead i); [apply prevs_set; lia|]. apply upd_ext; [|done|done].
    intros j. by apply (proj_alter b_prev). }
  assert (nx1 bhead < S NBUF)%nat as Hb1 by (unfold nx1, upd; case_bool_decide; done).
  split.
  - unfold bs6. by rewrite length_alter.
  - repeat apply new_alter; try done; unfold new_buf; intros v (H1 & H2 & H3 & H4); cbn; rewrite ?H4; done.
  - rewrite seq_S, rev_app_distr. cbn [rev app Nat.add].
    assert (NoDup (bhead :: rev (seq 0 k))) as Hnd.
    { apply list.NoDup_cons. split.
      - intros Hin. apply list_elem_of_In, in_rev, in_seq in Hin. unfold bhead in Hin. lia.
      - rewrite <- Permutation_rev. apply NoDup_seq. }
    assert (k ∉ bhead :: rev (seq 0 k)) as Hnk.
    { intros [Hin|Hin]%elem_of_cons; [unfold bhead in Hin; lia|]. apply list_elem_of_In, in_rev, in_seq in Hin. lia. }
    generalize (linked_insert (nexts bs) (prevs bs) bhead k (rev (seq 0 k)) Hlink Hnd Hnk). cbv zeta. fold nx1.
    apply (linked_ext _ _ bhead bhead (k :: rev (seq 0 k))); intros x _.
    + unfold bs6. rewrite nexts_set by (unfold bhead; lia). apply upd_ext; [|done|done].
      intros j. rewrite <- N4. by apply (proj_alter b_next).
    + transitivity (prevs bs5 x); [by apply (proj_alter b_prev)|]. unfold bs5.
      rewrite prevs_set; [by apply upd_ext|]. by rewrite L4, N4.
Qed.

(** Steps of code that only changes buffers. *)
Ltac bstep :=
  lazymatch goal with
  | |- runs (mbind _ _) _ _ => apply runs_bind
  | |- runs (get_buf _) _ _ => apply runs_gets
  | |- runs (upd_buf _ _) _ _ => apply runs_modify
  end; kred.

Lemma kbinit (c : ctl) h pt ft fs vd dev n (Q : unit -> kstate -> Prop) :
  calm c -> length (bufs fs) = S NBUF -> (forall i, (i < NBUF)%nat -> new_buf (bufs fs !!! i)) ->
  (forall bs, ring_of NBUF bs -> Q tt (KState c h pt ft (fs <| bufs := bs |>) vd dev n)) ->
  runs binit (KState c h pt ft fs vd dev n) Q.
Proof.
  intros Hc Hlen Hnew HQ. unfold binit. kstep. apply kinitlock; [done|].
  do 4 bstep. cbn [bufs set_with set_bufs].
  set (bs0 := alter _ bhead (alter _ bhead (bufs fs))).
  apply (runs_for_each (fun l s => exists k bs, l = seq k (NBUF - k) /\ (k <= NBUF)%nat /\ ring_of k bs /\
    s = KState c h pt ft (fs <| bufs := bs |>) vd dev n)).
  - exists 0%nat. eexists. split; [by rewrite Nat.sub_0_r|]. split; [lia|]. split; [|reflexivity].
    unfold bs0. split.
    + by rewrite !length_alter.
    + apply new_alter; [done|]. by apply new_alter.
    + assert (bhead < S NBUF)%nat by (unfold bhead; lia). split; [|split; [|done]].
      * unfold nexts. rewrite list_lookup_total_alter_eq by (rewrite !length_alter; lia). done.
      * unfold prevs. rewrite (proj_alter b_prev), list_lookup_total_alter_eq by (done || lia). done.
  - intros x l s (k & bs & El & Hk & Hr & ->).
    assert (k <> NBUF) as Hne by (intros ->; by rewrite Nat.sub_diag in El).
    replace (NBUF - k)%nat with (S (NBUF - S k)) in El by lia. cbn [seq] in El. injection El as -> ->.
    do 6 bstep. unfold initsleeplock, upd_sl. do 2 bstep. apply kinitlock; [done|]. repeat bstep.
    exists (S k). eexists. split; [done|]. split; [lia|]. split; [|reflexivity].
    exact (ring_step k bs Hr ltac:(lia)).
  - intros s (k & bs & El & Hk & Hr & ->). assert (k = NBUF) as ->.
    { apply (f_equal length) in El. rewrite length_seq in El. cbn [length] in El. lia. }
    by apply HQ.
Qed.

Lemma ring_cache (dv size : Z) (pr : proc) (fs : fsys) :
  ring_of NBUF (bufs fs) -> dv <> 0 -> (forall blk, 0 <= blk < size -> is_Some (disk fs !! blk)) ->
  cache dv size pr fs (fun blk => disk fs !!! blk) (fun _ => 0) (fun _ => false).
Proof.
  intros [Hlen Hnew Hlink] Hdv Hdisk.
  assert (forall i, (i < NBUF)%nat -> b_dev (bufs fs !!! i) <> dv) as Hno.
  { intros i Hi. destruct (Hnew i Hi) as (_ & -> & _). congruence. }
  split; try done.
  - exists (rev (seq 0 NBUF)). split; [by rewrite <- Permutation_rev|exact Hlink].
  - intros i Hi. specialize (Hno i Hi). destruct (Hnew i Hi) as (H1 & H2 & H3 & H4). by split.
  - intros i j Hi Hj Hd. by destruct (Hno i).
  - intros blk Hblk _. destruct (Hdisk blk Hblk) as (d & Hd). by rewrite Hd, (lookup_total_correct _ _ _ Hd).
Qed.

(** ** The cache against a plain array of blocks *)
Inductive bop := BRead (blk : Z) | BWrite (blk : Z) (d : list Z).
Definition bop_block (o : bop) : Z := match o with BRead blk => blk | BWrite blk _ => blk end.

Section ops.
Context {E : Env}.

(** What a client does to read a block, and to write one. *)
Definition do_op (dv : Z) (o : bop) : M (list Z) :=
  match o with
  | BRead blk => b ← bread dv blk; v ← get_buf b; brelse b;; mret (b_data v)
  | BWrite blk d => b ← bread dv blk; upd_buf b (fun v => v <| b_data := d |>);; bwrite b;; brelse b;; mret d
  end.
Fixpoint do_ops (dv : Z) (ops : list bop) : M (list (list Z)) :=
  match ops with
  | [] => mret []
  | o :: ops => r ← do_op dv o; rs ← do_ops dv ops; mret (r :: rs)
  end.
End ops.

(** The same on an array. *)
Definition plain_op (V : Z -> list Z) (o : bop) : list Z * (Z -> list Z) :=
  match o with BRead blk => (V blk, V) | BWrite blk d => (d, put V blk d) end.
Fixpoint plain_ops (V : Z -> list Z) (ops : list bop) : list (list Z) * (Z -> list Z) :=
  match ops with
  | [] => ([], V)
  | o :: ops => let (r, V) := plain_op V o in let (rs, V) := plain_ops V ops in (r :: rs, V)
  end.

Section refine.
Context {E : Env}.
Context (dv size : Z) (p : nat) (pr : proc).
Hypothesis Hp : (p < NPROC)%nat.
Hypothesis Henv : disk_serves p.
Hypothesis Hsize : size <= 2 ^ 31.

(** No block is in use. *)
Definition at_rest (fs : fsys) (V : Z -> list Z) : Prop :=
  exists K lk, cache dv size pr fs V K lk /\ (forall x, K x = 0) /\ (forall x, lk x = false).

Lemma few_none (K : Z -> Z) : (forall x, K x = 0) -> few K.
Proof. intros HK. exists []. split; [intros x Hx; by destruct (Hx (HK x))|cbn; unfold NBUF; lia]. Qed.

Lemma fwp_do_op (o : bop) fs V h ft (R : list Z -> world -> Prop) :
  at_rest fs V -> 0 <= bop_block o < size ->
  (forall fs', at_rest fs' (plain_op V o).2 -> R (plain_op V o).1 (World [] h ft fs')) ->
  fwp p pr (do_op dv o) (World [] h ft fs) R.
Proof using Hp Henv Hsize.
  intros (K & lk & Hc & HK & Hlk) Hblk HR.
  assert (forall blk fs' V', cache dv size pr fs' V' (bump (bump K blk 1) blk (-1)) (flip (flip lk blk true) blk false) ->
    at_rest fs' V') as Hrest.
  { intros blk fs' V' Hc'. eexists _, _. split; [exact Hc'|]. split; intros x; unfold bump, flip.
    - destruct (x =? blk); rewrite HK; lia.
    - by destruct (x =? blk). }
  destruct o as [blk|blk d]; cbn [do_op bop_block plain_op fst snd] in *; fstep.
  all: apply (fwp_bread dv size p pr Hp Henv Hsize blk fs V K lk);
    [done|done|done|right; by apply few_none|rewrite HK; lia|]; intros b fs1 Hc1 Hh1 [Efs1 _].
  - destruct (handle_ok dv size pr Hc1 Hh1) as (_ & _ & Hda & _ & _ & _). fsteps. rewrite Hda.
    apply (fwp_brelse dv size p pr Hp Henv Hsize Hc1 Hh1); [rewrite bump_eq, HK; lia|by rewrite flip_eq| |].
    + intros _. rewrite Efs1. cbn [disk set_with set_bufs]. by apply (ca_clean _ _ _ _ _ _ _ Hc).
    + intros fs2 Hc2 _. fstep. by apply HR, (Hrest blk).
  - fsteps. edestruct (cache_write dv size pr Hc1 Hh1 (fun v => v <| b_data := d |>) d) as [Hc2 Hh2].
    { by rewrite flip_eq. }
    { intros v. by exists d. }
    { done. }
    apply (fwp_bwrite dv size p pr Hp Henv Hsize Hc2 Hh2); [by rewrite flip_eq|]. intros fs3 Hc3 Hh3. fstep.
    apply (fwp_brelse dv size p pr Hp Henv Hsize Hc3 Hh3); [rewrite bump_eq, HK; lia|by rewrite flip_eq| |].
    + intros _. unfold fs3. cbn [on_disk disk set_with set_disk set_writes]. by rewrite lookup_insert_eq.
    + intros fs4 Hc4 _. fstep. by apply HR, (Hrest blk).
Qed.

Lemma fwp_do_ops (ops : list bop) fs V h ft (R : list (list Z) -> world -> Prop) :
  at_rest fs V -> Forall (fun o => 0 <= bop_block o < size) ops ->
  (forall fs', at_rest fs' (plain_ops V ops).2 -> R (plain_ops V ops).1 (World [] h ft fs')) ->
  fwp p pr (do_ops dv ops) (World [] h ft fs) R.
Proof using Hp Henv Hsize.
  intros Hr Hops. revert fs V R Hr. induction Hops as [|o ops Ho _ IH]; intros fs V R Hr HR; cbn [do_ops plain_ops] in *.
  - fstep. by apply HR.
  - fstep. apply (fwp_do_op o fs V); [done|done|]. intros fs1 Hr1. fstep. apply (IH fs1 _ _ Hr1). intros fs2 Hr2.
    destruct (plain_op V o) as [r V1]. cbn [fst snd] in *. destruct (plain_ops V1 ops) as [rs V2]. fstep. by apply HR.
Qed.
End refine.

(** C21. The buffer cache is transparent: after [binit], any reads and writes of
    blocks through the cache give the results they would give on a plain
    array of blocks, the disk ends up with exactly the array's contents, and
    the cache is again at rest, with its list intact, one buffer at most for
    a block and no block in use. *)
Theorem bcache_transparent {E : Env} (dv size : Z) (p : nat) (ops : list bop) (boot : kstate) :
  (p < NPROC)%nat -> disk_serves p -> dv <> 0 -> size <= 2 ^ 31 ->
  calm (k_ctl boot) -> length (bufs (k_fs boot)) = S NBUF ->
  (forall i, (i < NBUF)%nat -> new_buf (bufs (k_fs boot) !!! i)) ->
  (forall blk, 0 <= blk < size -> is_Some (disk (k_fs boot) !! blk)) ->
  Forall (fun o => 0 <= bop_block o < size) ops ->
  exists s1, binit boot = Ret tt s1 /\
  forall pr h ft s, inw p pr (World [] h ft (k_fs s1)) s ->
  runs (do_ops dv ops) s (fun r s' => let V := fun blk => disk (k_fs boot) !!! blk in
    r = (plain_ops V ops).1 /\ at_rest dv size pr (k_fs s') (plain_ops V ops).2 /\
    forall blk, 0 <= blk < size -> disk (k_fs s') !! blk = Some ((plain_ops V ops).2 blk)).
Proof.
  intros Hp Henv Hdv Hsize Hcalm Hlen Hnew Hdisk Hops. destruct boot as [c h0 pt ft0 fs vd dev n]. cbn [k_ctl k_fs] in *.
  assert (runs binit (KState c h0 pt ft0 fs vd dev n) (fun _ s1 => exists bs, ring_of NBUF bs /\ k_fs s1 = fs <| bufs := bs |>)) as Hb.
  { apply kbinit; [done..|]. intros bs Hr. by exists bs. }
  apply runs_inv in Hb as ([] & s1 & Eb & bs & Hr & Efs). exists s1. split; [exact Eb|]. clear Eb. intros pr h ft s Hs. rewrite Efs in Hs.
  eapply runs_mono; [apply (fwp_do_ops dv size p pr Hp Henv Hsize ops (fs <| bufs := bs |>) (fun blk => disk fs !!! blk) h ft
    (fun r w => r = (plain_ops (fun blk => disk fs !!! blk) ops).1 /\
       at_rest dv size pr (w_fs w) (plain_ops (fun blk => disk fs !!! blk) ops).2)); [|done|done|exact Hs]|].
  - exists (fun _ => 0), (fun _ => false).
    split; [exact (ring_cache dv size pr (fs <| bufs := bs |>) Hr Hdv Hdisk)|done].
  - intros r s' (w & Hw & -> & Hrest). rewrite (in_fs _ _ _ _ Hw). split; [done|]. split; [done|].
    destruct Hrest as (K & lk & Hc & HK & _). intros blk Hblk. by apply (ca_clean _ _ _ _ _ _ _ Hc).
Qed.

(** A machine with a disk of eight blocks. *)
Definition demo_fs : fsys :=
  let fs := k_fs (demo_state demo_ctl) in
  fs <| bufs := replicate 31 (Buf 0 0 0 0 (Sleeplock 0 0) 0 0 0 (demo_block 0)) |>
     <| disk := list_to_map ((fun i => (Z.of_nat i, demo_block (Z.of_nat i))) <$> seq 0 8) |>.
Definition bio_state (c : ctl) (fs : fsys) : kstate :=
  (demo_state c) <| k_vd := demo_vd |> <| k_fs := fs |>.

Lemma demo_blocks (blk : Z) : 0 <= blk < 8 -> is_Some (disk demo_fs !! blk).
Proof.
  intros Hb. assert (blk ∈ Z.of_nat <$> seq 0 8) as Hin.
  { apply list_elem_of_fmap. exists (Z.to_nat blk). split; [lia|]. apply elem_of_seq. lia. }
  cbn in Hin. repeat (apply elem_of_cons in Hin as [->|Hin]; [by eexists|]). by apply not_elem_of_nil in Hin.
Qed.

Lemma demo_inw (pr : proc) (h : heap) (ft : ftable) (fs : fsys) :
  pr = procs demo_pt !!! 0%nat ->
  inw 0 pr (World [] h ft fs) ((bio_state demo_ctl fs) <| k_heap := h |> <| k_ft := ft |>).
Proof.
  intros ->. split; try done.
  - exists demo_ctl. split; [done|]. split; [exact demo_idle|reflexivity].
  - by exists RUNNING, Ch0.
Qed.

Lemma bcache_transparent_witness :
  exists s1, binit (bio_state boot_ctl demo_fs) = Ret tt s1 /\
  runs (do_ops (E := machine_env) 1 [BRead 3; BWrite 3 (demo_block 77); BRead 4; BRead 3]) (bio_state demo_ctl (k_fs s1))
    (fun r s' => r = [demo_block 3; demo_block 77; demo_block 4; demo_block 77] /\ disk (k_fs s') !! 3 = Some (demo_block 77)).
Proof.
  destruct (bcache_transparent (E := machine_env) 1 8 0 [BRead 3; BWrite 3 (demo_block 77); BRead 4; BRead 3]
    (bio_state boot_ctl demo_fs)) as (s1 & Eb & Hrun).
  - vm_compute. lia.
  - exact (machine_serves 0).
  - discriminate.
  - lia.
  - split; [exact boot_ctl_ok|reflexivity].
  - reflexivity.
  - intros i Hi. change (bufs (k_fs (bio_state boot_ctl demo_fs))) with
      (replicate 31 (Buf 0 0 0 0 (Sleeplock 0 0) 0 0 0 (demo_block 0))).
    rewrite lookup_total_replicate_2 by (unfold NBUF in Hi; lia). by split_and!.
  - exact demo_blocks.
  - repeat constructor; cbn; lia.
  - exists s1. split; [exact Eb|]. clear Eb.
    specialize (Hrun (procs demo_pt !!! 0%nat) (Heap ∅ 0 0) (k_ft (demo_state demo_ctl)) (bio_state demo_ctl (k_fs s1))
      (demo_inw _ _ _ _ eq_refl)).
    eapply runs_mono; [exact Hrun|]. intros r s' (-> & _ & Hd). split; [reflexivity|]. rewrite Hd by lia. reflexivity.
Defined.
