(* ===== verification/Log.v ===== *)
(** * The log (kernel/log.c)

    Transactions on disk blocks.  The on-disk log is a header block, which
    lists the home blocks of a committed transaction, followed by their new
    contents. *)
From S2P Require Import Prelude Memory Riscv State Spinlock Proc Plic Virtio Sleeplock Bio.

Definition get_log : M logstate := gets (fun s => log (k_fs s)).
Definition upd_log (f : logstate -> logstate) : M unit :=
  modify (fun s => s <| k_fs := (k_fs s) <| log := f (log (k_fs s)) |> |>).

(** A 32-bit word of a block, by its index. *)
Definition word (data : list Z) (i : nat) : Z := le_combine (slice data (4 * i) 4).
Definition set_word (data : list Z) (i : nat) (v : Z) : list Z := splice data (4 * i) (le_split 4 v).

Section log.
Context {L : Linker} {E : Env} {H : Hw}.

(** [memmove(dbuf->data, lbuf->data, BSIZE)], between two buffers. *)
Definition copy_buf (dst src : nat) : M unit :=
  v ← get_buf src;
  upd_buf dst (fun w => w <| b_data := b_data v |>).

Definition install_trans (recovering : bool) : M unit :=
  loop (fun tail =>
    l ← get_log;
    if negb (tail <? lh_n l) then mret (inr tt) else
    lbuf ← bread (u32 (log_dev l)) (u32 (log_start l + tail + 1));
    l ← get_log;
    dbuf ← bread (u32 (log_dev l)) (u32 (lh_block l !!! Z.to_nat tail));
    copy_buf dbuf lbuf;;
    bwrite dbuf;;
    (if negb recovering then bunpin dbuf else mret tt);;
    brelse lbuf;;
    brelse dbuf;;
    mret (inl (tail + 1))) 0.

Definition read_head : M unit :=
  l ← get_log;
  b ← bread (u32 (log_dev l)) (u32 (log_start l));
  v ← get_buf b;
  let lh := b_data v in
  upd_log (fun l => l <| lh_n := i32 (word lh 0) |>);;
  l ← get_log;
  for_each (seq 0 (Z.to_nat (lh_n l))) (fun i =>
    upd_log (fun l => l <| lh_block := <[ i := i32 (word lh (S i)) ]> (lh_block l) |>));;
  brelse b.

Definition write_head : M unit :=
  l ← get_log;
  b ← bread (u32 (log_dev l)) (u32 (log_start l));
  l ← get_log;
  upd_buf b (fun v => v <| b_data := set_word (b_data v) 0 (lh_n l) |>);;
  for_each (seq 0 (Z.to_nat (lh_n l))) (fun i =>
    upd_buf b (fun v => v <| b_data := set_word (b_data v) (S i) (lh_block l !!! i) |>));;
  bwrite b;;
  brelse b.

Definition recover_from_log : M unit :=
  read_head;;
  install_trans true;;
  upd_log (fun l => l <| lh_n := 0 |>);;
  write_head.

Definition initlog (dev : Z) (sb : superblock) : M unit :=
  if BSIZE <=? 4 + 4 * LOGSIZE then panic "initlog: too big logheader" else
  put_lock L_log initlock;;
  upd_log (fun l => l <| log_start := i32 (sb_logstart sb) |>);;
  upd_log (fun l => l <| log_size := i32 (sb_nlog sb) |>);;
  upd_log (fun l => l <| log_dev := dev |>);;
  recover_from_log.

Definition begin_op : M unit :=
  acquire L_log;;
  loop (fun _ : unit =>
    l ← get_log;
    if truth (log_committing l) then sleep ChLog L_log;; mret (inl tt)
    else if LOGSIZE <? lh_n l + (log_outstanding l + 1) * MAXOPBLOCKS then
      sleep ChLog L_log;; mret (inl tt)
    else
      upd_log (fun l => l <| log_outstanding := log_outstanding l + 1 |>);;
      release L_log;;
      mret (inr tt)) tt.

Definition write_log : M unit :=
  loop (fun tail =>
    l ← get_log;
    if negb (tail <? lh_n l) then mret (inr tt) else
    to ← bread (u32 (log_dev l)) (u32 (log_start l + tail + 1));
    l ← get_log;
    from ← bread (u32 (log_dev l)) (u32 (lh_block l !!! Z.to_nat tail));
    copy_buf to from;;
    bwrite to;;
    brelse from;;
    brelse to;;
    mret (inl (tail + 1))) 0.

Definition commit : M unit :=
  l ← get_log;
  if 0 <? lh_n l then
    write_log;;
    write_head;;
    install_trans false;;
    upd_log (fun l => l <| lh_n := 0 |>);;
    write_head
  else mret tt.

Definition end_op : M unit :=
  acquire L_log;;
  upd_log (fun l => l <| log_outstanding := log_outstanding l - 1 |>);;
  l ← get_log;
  if truth (log_committing l) then panic "log.committing" else
  do_commit ← (if log_outstanding l =? 0 then
      upd_log (fun l => l <| log_committing := 1 |>);; mret true
    else wakeup ChLog;; mret false);
  release L_log;;
  if do_commit : bool then
    commit;;
    acquire L_log;;
    upd_log (fun l => l <| log_committing := 0 |>);;
    wakeup ChLog;;
    release L_log
  else mret tt.

(** The index of the first of the [n] logged blocks that is [blockno], or [n]. *)
Fixpoint log_slot (blocks : list Z) (n : nat) (blockno : Z) : nat :=
  match n, blocks with
  | S n, b :: blocks => if u32 b =? blockno then O else S (log_slot blocks n blockno)
  | _, _ => O
  end.

Definition log_write (b : nat) : M unit :=
  acquire L_log;;
  l ← get_log;
  if (LOGSIZE <=? lh_n l) || (log_size l - 1 <=? lh_n l) then panic "too big a transaction" else
  if log_outstanding l <? 1 then panic "log_write outside of trans" else
  v ← get_buf b;
  let i := log_slot (lh_block l) (Z.to_nat (lh_n l)) (b_blockno v) in
  upd_log (fun l => l <| lh_block := <[ i := i32 (b_blockno v) ]> (lh_block l) |>);;
  (if Z.of_nat i =? lh_n l then
     bpin b;;
     upd_log (fun l => l <| lh_n := lh_n l + 1 |>)
   else mret tt);;
  release L_log.

End log.
