(* ===== verification/LogSpec.v ===== *)
(** * Crash safety of the log (theorems on kernel/log.c)

    A transaction is the list of home blocks that [log_write] has pinned in
    the cache.  [commit] makes it reach the disk through the log; the disk may
    stop after any of its writes.  Starting again, [initlog] brings the home
    blocks to what they were before the transaction or to what they are after
    it, and the write of the header is the point where the one becomes the
    other. *)
From S2P Require Import Prelude Memory Riscv State Spinlock Kalloc Steps Vm Proc ProcSpec Plic Virtio VirtioSpec Sleeplock FsLogic Bio BioSpec Log.

(** ** Words of a block *)
Section words.
Context {d : list Z}.
Hypothesis Hd : length d = 1024%nat.

Lemma length_set_word (i : nat) (v : Z) : (i < 256)%nat -> length (set_word d i v) = 1024%nat.
Proof using Hd. intros Hi. unfold set_word. rewrite length_splice; [done|]. rewrite length_le_split. lia. Qed.

Lemma word_set_eq (i : nat) (v : Z) : (i < 256)%nat -> word (set_word d i v) i = u32 v.
Proof using Hd.
  intros Hi. unfold word, set_word. pose proof (slice_splice_eq d (le_split 4 v) (4 * i)) as Hs.
  rewrite length_le_split in Hs. rewrite Hs by lia. by rewrite le_combine_split.
Qed.

Lemma word_set_ne (i j : nat) (v : Z) : (i < 256)%nat -> i <> j -> word (set_word d i v) j = word d j.
Proof using Hd.
  intros Hi Hne. unfold word, set_word. rewrite slice_splice_ne; [done|rewrite length_le_split; lia|].
  rewrite length_le_split. lia.
Qed.
End words.

(** The header block that lists the blocks [bl], written over [d]. *)
Definition header (bl : list Z) (d : list Z) : list Z :=
  fold_left (fun d i => set_word d (S i) (bl !!! i)) (seq 0 (length bl)) (set_word d 0 (Z.of_nat (length bl))).

(** The blocks that a header lists. *)
Definition listed (d : list Z) : list Z := (fun i => word d (S i)) <$> seq 0 (Z.to_nat (word d 0)).

Lemma header_words (bl d : list Z) (n : nat) :
  length d = 1024%nat -> (n <= length bl)%nat -> (length bl < 255)%nat ->
  let d' := fold_left (fun d i => set_word d (S i) (bl !!! i)) (seq 0 n) d in
  length d' = 1024%nat /\ word d' 0 = word d 0 /\ forall i, (i < n)%nat -> word d' (S i) = u32 (bl !!! i).
Proof.
  intros Hd. induction n as [|n IH]; intros Hn Hb; [split_and!; [done|done|intros; lia]|].
  cbv zeta. rewrite seq_S, fold_left_app. cbn [fold_left Nat.add].
  destruct IH as (H1 & H2 & H3); [lia|done|]. split_and!.
  - apply length_set_word; [done|lia].
  - rewrite word_set_ne by (done || lia). done.
  - intros i Hi. destruct (decide (i = n)) as [->|].
    + apply word_set_eq; [done|lia].
    + rewrite word_set_ne by (done || lia). apply H3. lia.
Qed.

Lemma header_spec (bl d : list Z) :
  length d = 1024%nat -> (length bl < 255)%nat -> Forall is_u32 bl ->
  length (header bl d) = 1024%nat /\ word (header bl d) 0 = Z.of_nat (length bl) /\ listed (header bl d) = bl.
Proof.
  intros Hd Hb Hu. unfold header.
  destruct (header_words bl (set_word d 0 (Z.of_nat (length bl))) (length bl)) as (H1 & H2 & H3);
    [apply length_set_word; [done|lia]|lia|done|].
  fold (header bl d) in *. rewrite word_set_eq in H2 by (done || lia).
  rewrite u32_small in H2 by (unfold is_u32; lia). split_and!; [done|done|].
  unfold listed. rewrite H2, Nat2Z.id. apply list_eq. intros i. rewrite list_lookup_fmap.
  destruct (decide (i < length bl)%nat) as [Hi|Hi].
  - rewrite lookup_seq_lt by done. cbn [fmap option_fmap option_map Nat.add]. rewrite H3 by done.
    destruct (lookup_lt_is_Some_2 bl i Hi) as [x Hx]. rewrite (list_lookup_total_correct _ _ _ Hx), Hx.
    rewrite u32_small; [done|]. by eapply (Forall_lookup_1 _ _ _ _ Hu).
  - rewrite lookup_seq_ge by lia. symmetry. apply lookup_ge_None. lia.
Qed.

(** ** Sequences of writes *)
Definition replay (D : gmap Z (list Z)) (ws : list (Z * list Z)) : gmap Z (list Z) :=
  fold_left (fun D w => <[ w.1 := w.2 ]> D) ws D.
Definition shown (V : Z -> list Z) (ws : list (Z * list Z)) : Z -> list Z :=
  fold_left (fun V w => put V w.1 w.2) ws V.

Lemma replay_app D ws ws' : replay D (ws ++ ws') = replay (replay D ws) ws'.
Proof. apply fold_left_app. Qed.
Lemma shown_app V ws ws' : shown V (ws ++ ws') = shown (shown V ws) ws'.
Proof. apply fold_left_app. Qed.

Lemma replay_other D ws (x : Z) : x ∉ ws.*1 -> replay D ws !! x = D !! x.
Proof.
  revert D. induction ws as [|w ws IH]; intros D Hx; [done|]. cbn [replay fold_left fmap list_fmap] in *.
  apply not_elem_of_cons in Hx as [Hx1 Hx2]. fold (replay (<[ w.1 := w.2 ]> D) ws). rewrite IH by done.
  by rewrite lookup_insert_ne.
Qed.

Lemma shown_other V ws (x : Z) : x ∉ ws.*1 -> shown V ws x = V x.
Proof.
  revert V. induction ws as [|w ws IH]; intros V Hx; [done|]. cbn [shown fold_left fmap list_fmap] in *.
  apply not_elem_of_cons in Hx as [Hx1 Hx2]. fold (shown (put V w.1 w.2) ws). rewrite IH by done. by rewrite put_ne.
Qed.

(** Distinct blocks [f i], each written with [g i]. *)
Lemma replay_map D (f : nat -> Z) (g : nat -> list Z) (l : list nat) (i : nat) :
  NoDup (f <$> l) -> i ∈ l -> replay D ((fun i => (f i, g i)) <$> l) !! f i = Some (g i).
Proof.
  revert D. induction l as [|j l IH]; intros D Hnd Hi; [by apply not_elem_of_nil in Hi|].
  cbn [fmap list_fmap] in *. apply list.NoDup_cons in Hnd as [Hj Hnd].
  change (replay D _) with (replay (<[ f j := g j ]> D) ((fun i => (f i, g i)) <$> l)).
  apply elem_of_cons in Hi as [->|Hi]; [|by apply IH].
  rewrite replay_other; [by rewrite lookup_insert_eq|]. rewrite <- list_fmap_compose. exact Hj.
Qed.

Lemma shown_map V (f : nat -> Z) (g : nat -> list Z) (l : list nat) (i : nat) :
  NoDup (f <$> l) -> i ∈ l -> shown V ((fun i => (f i, g i)) <$> l) (f i) = g i.
Proof.
  revert V. induction l as [|j l IH]; intros V Hnd Hi; [by apply not_elem_of_nil in Hi|].
  cbn [fmap list_fmap] in *. apply list.NoDup_cons in Hnd as [Hj Hnd].
  change (shown V _) with (shown (put V (f j) (g j)) ((fun i => (f i, g i)) <$> l)).
  apply elem_of_cons in Hi as [->|Hi]; [|by apply IH].
  rewrite shown_other; [by rewrite put_eq|]. rewrite <- list_fmap_compose. exact Hj.
Qed.

Lemma shown_self V (g : Z -> list Z) (l : list Z) (x : Z) : x ∈ l -> shown V ((fun x => (x, g x)) <$> l) x = g x.
Proof.
  revert V. induction l as [|y l IH]; intros V Hx; [by apply not_elem_of_nil in Hx|].
  change (shown V _) with (shown (put V y (g y)) ((fun x => (x, g x)) <$> l)).
  destruct (decide (x ∈ l)) as [Hl|Hl]; [by apply IH|]. apply elem_of_cons in Hx as [->|Hx]; [|done].
  rewrite shown_other; [by rewrite put_eq|]. rewrite <- list_fmap_compose. cbn. by rewrite list_fmap_id.
Qed.

Lemma replay_self D (g : Z -> list Z) (l : list Z) (x : Z) : x ∈ l -> replay D ((fun x => (x, g x)) <$> l) !! x = Some (g x).
Proof.
  revert D. induction l as [|y l IH]; intros D Hx; [by apply not_elem_of_nil in Hx|].
  change (replay D _) with (replay (<[ y := g y ]> D) ((fun x => (x, g x)) <$> l)).
  destruct (decide (x ∈ l)) as [Hl|Hl]; [by apply IH|]. apply elem_of_cons in Hx as [->|Hx]; [|done].
  rewrite replay_other; [by rewrite lookup_insert_eq|]. rewrite <- list_fmap_compose. cbn. by rewrite list_fmap_id.
Qed.

(** ** The log over the cache *)
Definition nolock : Z -> bool := fun _ => false.
Definition pinned (bl : list Z) (x : Z) : Z := if decide (x ∈ bl) then 1 else 0.

(** [fs'] is [fs] after the writes [ws], but for the cache. *)
Record did (fs : fsys) (ws : list (Z * list Z)) (fs' : fsys) : Prop := {
  did_disk : disk fs' = replay (disk fs) ws;
  did_writes : writes fs' = rev ws ++ writes fs;
  did_log : log fs' = log fs;
  did_rest : sb fs' = sb fs /\ itable fs' = itable fs;
}.

(** The same, but for the log too. *)
Definition wrote (fs : fsys) (ws : list (Z * list Z)) (fs' : fsys) : Prop :=
  disk fs' = replay (disk fs) ws /\ writes fs' = rev ws ++ writes fs /\ sb fs' = sb fs /\ itable fs' = itable fs.

Lemma did_wrote (fs fs' : fsys) ws : did fs ws fs' -> wrote fs ws fs'.
Proof. by intros [? ? _ [? ?]]. Qed.

Lemma wrote_trans (fs fs1 fs2 : fsys) ws ws' : wrote fs ws fs1 -> wrote fs1 ws' fs2 -> wrote fs (ws ++ ws') fs2.
Proof.
  intros (A1 & A2 & A3 & A4) (B1 & B2 & B3 & B4). split; [by rewrite B1, A1, replay_app|].
  split; [by rewrite B2, A2, rev_app_distr, app_assoc|]. split; congruence.
Qed.

Lemma did_refl (fs : fsys) : did fs [] fs.
Proof. by split. Qed.

Lemma did_trans (fs fs1 fs2 : fsys) ws ws' : did fs ws fs1 -> did fs1 ws' fs2 -> did fs (ws ++ ws') fs2.
Proof.
  intros [A1 A2 A3 [A4 A5]] [B1 B2 B3 [B4 B5]]. split.
  - by rewrite B1, A1, replay_app.
  - by rewrite B2, A2, rev_app_distr, app_assoc.
  - congruence.
  - split; congruence.
Qed.

Lemma did_bufs (fs fs1 fs2 : fsys) ws : did fs ws fs1 -> fs2 = fs1 <| bufs := bufs fs2 |> -> did fs ws fs2.
Proof. intros [A1 A2 A3 [A4 A5]] E2. split; rewrite E2; done. Qed.

Lemma did_write (fs fs1 : fsys) ws (blk : Z) (d : list Z) : did fs ws fs1 -> did fs (ws ++ [(blk, d)]) (on_disk fs1 blk d).
Proof. intros Hd. apply (did_trans _ fs1); [done|]. by split. Qed.

Section logspec.
Context {E : Env}.
Context (dv size start : Z) (p : nat) (pr : proc).
Context {h : heap} {ft : ftable}.

#[local] Abbreviation cache := (cache dv size pr).
#[local] Abbreviation handle := (handle dv).
#[local] Abbreviation here := (World [] h ft).

Lemma fwp_get_log lk fs (R : logstate -> world -> Prop) :
  R (log fs) (World lk h ft fs) -> fwp p pr get_log (World lk h ft fs) R.
Proof. by apply (fwp_gets_fs p pr log). Qed.
Lemma fwp_upd_log lk fs (f : logstate -> logstate) (R : unit -> world -> Prop) :
  R tt (World lk h ft (fs <| log := f (log fs) |>)) -> fwp p pr (upd_log f) (World lk h ft fs) R.
Proof. by apply (fwp_modify_fs p pr (fun fs => fs <| log := f (log fs) |>)). Qed.

Lemma cache_ext fs V V' K K' lk lk' :
  cache fs V K lk -> (forall x, V' x = V x) -> (forall x, K' x = K x) -> (forall x, lk' x = lk x) -> cache fs V' K' lk'.
Proof.
  intros [C1 C2 C3 C4 C5 C6 C7 C8 C9] HV HK Hl. split; try done.
  - intros i Hi. destruct (C3 i Hi). split; intros; rewrite ?HV, ?HK, ?Hl; auto.
  - intros x. rewrite HK. apply C5.
  - intros x. rewrite HK. apply C6.
  - intros x. rewrite HK, HV. apply C7.
  - intros x. rewrite HK, Hl. apply C9.
Qed.

(** Copying between two buffers in use. *)
Lemma fwp_copy_buf (bd bs : nat) (dst src : Z) fs V K lk (R : unit -> world -> Prop) :
  cache fs V K lk -> handle fs bd dst -> handle fs bs src -> lk dst = true ->
  (forall fs', cache fs' (put V dst (V src)) K lk -> (forall b x, handle fs b x -> handle fs' b x) ->
     fs' = fs <| bufs := bufs fs' |> -> R tt (here fs')) ->
  fwp p pr (copy_buf bd bs) (here fs) R.
Proof.
  intros Hc Hd Hs Hl HR. destruct (handle_ok dv size pr Hc Hs) as (_ & _ & Hda & _).
  unfold copy_buf. fsteps. rewrite Hda.
  destruct (cache_write dv size pr Hc Hd (fun w => w <| b_data := V src |>) (V src)) as [Hc' _]; [done|by eexists|done|].
  apply HR; [done| |done]. intros b x (H1 & H2 & H3). split; [done|]. cbn [bufs set_with set_bufs].
  rewrite (proj_alter b_dev), (proj_alter b_blockno) by done. done.
Qed.

(** The log region and a transaction fit the disk and the cache. *)
Record fits (bl : list Z) : Prop := {
  fi_start : 0 <= start;
  fi_size : start + Z.of_nat (length bl) < size;
  fi_bufs : (length bl < NBUF)%nat;
  fi_nodup : NoDup bl;
  fi_home : forall x, x ∈ bl -> 0 <= x < size /\ ~ start <= x <= start + Z.of_nat (length bl);
}.

Record log_is (bl : list Z) (l : logstate) : Prop := {
  li_dev : log_dev l = dv;
  li_start : log_start l = start;
  li_n : lh_n l = Z.of_nat (length bl);
  li_blocks : take (length bl) (lh_block l) = bl;
  li_room : length (lh_block l) = Z.to_nat LOGSIZE;
}.

Lemma log_block (bl : list Z) (l : logstate) (i : nat) :
  log_is bl l -> (i < length bl)%nat -> lh_block l !!! i = bl !!! i.
Proof.
  intros Hl Hi. rewrite <- (li_blocks _ _ Hl) at 1. rewrite !list_lookup_total_alt, lookup_take_lt by done. done.
Qed.

Lemma elem_block (bl : list Z) (i : nat) : (i < length bl)%nat -> bl !!! i ∈ bl.
Proof. intros Hi. by apply list_elem_of_lookup_total_2. Qed.

Lemma few_pinned (bl : list Z) (K : Z -> Z) :
  (length bl < NBUF)%nat -> (forall x, K x <> 0 -> x ∈ bl) -> few K.
Proof. intros Hb HK. by exists bl. Qed.

(** The writes of [write_log] and of [install_trans], in order. *)
Definition log_writes (V : Z -> list Z) (bl : list Z) (n : nat) : list (Z * list Z) :=
  (fun i => (start + Z.of_nat i + 1, V (bl !!! i))) <$> seq 0 n.
Definition home_writes (V : Z -> list Z) (bl : list Z) (n : nat) : list (Z * list Z) :=
  (fun i => (bl !!! i, V (start + Z.of_nat i + 1))) <$> seq 0 n.

Lemma log_writes_S V bl n : log_writes V bl (S n) = log_writes V bl n ++ [(start + Z.of_nat n + 1, V (bl !!! n))].
Proof. unfold log_writes. by rewrite seq_S, fmap_app. Qed.
Lemma home_writes_S V bl n : home_writes V bl (S n) = home_writes V bl n ++ [(bl !!! n, V (start + Z.of_nat n + 1))].
Proof. unfold home_writes. by rewrite seq_S, fmap_app. Qed.

Lemma log_writes_blocks V bl n x : x ∈ (log_writes V bl n).*1 -> start + 1 <= x <= start + Z.of_nat n.
Proof.
  unfold log_writes. rewrite <- list_fmap_compose. intros (i & -> & Hi%elem_of_seq)%list_elem_of_fmap. cbn. lia.
Qed.
Lemma home_writes_blocks V bl n x : (n <= length bl)%nat -> x ∈ (home_writes V bl n).*1 -> x ∈ bl.
Proof.
  unfold home_writes. rewrite <- list_fmap_compose. intros Hn (i & -> & Hi%elem_of_seq)%list_elem_of_fmap.
  apply elem_block. lia.
Qed.

Lemma pinned_range (bl : list Z) (x : Z) : 0 <= pinned bl x <= 1.
Proof. unfold pinned. case_decide; lia. Qed.
Lemma pinned_in (bl : list Z) (x : Z) : x ∈ bl -> pinned bl x = 1.
Proof. intros Hx. unfold pinned. by rewrite decide_True. Qed.
Lemma pinned_out (bl : list Z) (x : Z) : x ∉ bl -> pinned bl x = 0.
Proof. intros Hx. unfold pinned. by rewrite decide_False. Qed.
Lemma pinned_few (bl : list Z) : (length bl < NBUF)%nat -> few (pinned bl).
Proof. intros Hb. apply (few_pinned bl); [done|]. intros x. unfold pinned. by case_decide. Qed.

(** The references on the blocks still to go home. *)
Definition left_pinned (recovering : bool) (bl : list Z) : Z -> Z :=
  if recovering then fun _ => 0 else pinned bl.

Lemma left_pinned_next (recovering : bool) (x : Z) (bl : list Z) :
  NoDup (x :: bl) -> left_pinned recovering (x :: bl) x = (if recovering then 0 else 1) /\
  forall y, left_pinned recovering bl y = bump (left_pinned recovering (x :: bl)) x (- left_pinned recovering (x :: bl) x) y.
Proof.
  intros [Hx _]%list.NoDup_cons. unfold left_pinned. destruct recovering.
  { split; [done|]. intros y. unfold bump. by destruct (y =? x). }
  rewrite pinned_in by left. split; [done|]. intros y. unfold bump. destruct (Z.eqb_spec y x) as [->|Hne].
  - rewrite pinned_out, pinned_in by (done || left). done.
  - unfold pinned. repeat case_decide; try done.
    + exfalso. auto using list_elem_of_further.
    + by exfalso; apply elem_of_cons in H0 as [|].
Qed.

Lemma left_few (recovering : bool) (bl : list Z) : (length bl < NBUF)%nat -> few (left_pinned recovering bl).
Proof. intros Hb. destruct recovering; [by exists []; split; [|unfold NBUF; cbn; lia]|by apply pinned_few]. Qed.

Lemma log_shown V (bl : list Z) (i : nat) :
  (i < length bl)%nat -> shown V (log_writes V bl (length bl)) (start + Z.of_nat i + 1) = V (bl !!! i).
Proof.
  intros Hi. apply (shown_map V (fun i => start + Z.of_nat i + 1) (fun i => V (bl !!! i))); [|apply elem_of_seq; lia].
  apply NoDup_fmap_2_strong; [|apply NoDup_seq]. intros; lia.
Qed.

Lemma home_writes_logged V V1 (bl : list Z) :
  (forall i, (i < length bl)%nat -> V1 (start + Z.of_nat i + 1) = V (bl !!! i)) ->
  home_writes V1 bl (length bl) = (fun x => (x, V x)) <$> bl.
Proof.
  intros HV. apply list_eq. intros i. unfold home_writes. rewrite !list_lookup_fmap.
  destruct (decide (i < length bl)%nat) as [Hi|Hi].
  - rewrite lookup_seq_lt by done. destruct (lookup_lt_is_Some_2 bl i Hi) as [x Hx]. rewrite Hx.
    cbn. by rewrite HV, (list_lookup_total_correct _ _ _ Hx).
  - rewrite lookup_seq_ge by lia. by rewrite (lookup_ge_None_2 bl i) by lia.
Qed.

Hypothesis Hp : (p < NPROC)%nat.
Hypothesis Henv : disk_serves p.
Hypothesis Hsize : size <= 2 ^ 31.
Hypothesis Hdv : 0 < dv < 2 ^ 31.

(** One block of the transaction goes into the log. *)
Lemma fwp_log_block {A} (src dst : Z) (i : nat) (m : M A) fs V K (R : A -> world -> Prop) :
  u32 (log_dev (log fs)) = dv -> u32 (lh_block (log fs) !!! i) = src ->
  cache fs V K nolock -> 0 <= src < size -> 0 <= dst < size -> few K -> K dst = 0 -> K src = 1 ->
  (forall fs', cache fs' (put V dst (V src)) K nolock -> did fs [(dst, V src)] fs' -> fwp p pr m (here fs') R) ->
  fwp p pr (to ← bread dv dst;
            l ← get_log;
            from ← bread (u32 (log_dev l)) (u32 (lh_block l !!! i));
            copy_buf to from;;
            bwrite to;;
            brelse from;;
            brelse to;;
            m) (here fs) R.
Proof using Hp Henv Hsize.
  intros Hdev Hsrc Hc Hs Hd Hfew Kd Ks HR. assert (src <> dst) as Hne by (intros ->; lia).
  fstep. apply (fwp_bread dv size p pr Hp Henv Hsize dst fs V K nolock);
    [done|done|done|by right|lia|]. intros to fs1 Hc1 Hh1 [E1 S1].
  fstep. apply fwp_get_log. replace (log fs1) with (log fs) by (by rewrite E1). rewrite Hdev, Hsrc.
  fstep. apply (fwp_bread dv size p pr Hp Henv Hsize src fs1 _ _ _ _ _ _ Hc1);
    [done|by rewrite flip_ne|left; rewrite bump_ne by done; lia|rewrite bump_ne by done; lia|].
  intros from' fs2 Hc2 Hh2 [E2 S2].
  assert (handle fs2 to dst) as Ht2 by (apply S2; [done|rewrite bump_eq; lia]).
  fstep. apply (fwp_copy_buf to from' dst src fs2 _ _ _ _ Hc2); [done|done|by rewrite flip_ne, flip_eq by done|].
  intros fs3 Hc3 S3 E3. fstep. pose proof (S3 _ _ Ht2) as Ht3. pose proof (S3 _ _ Hh2) as Hh3.
  apply (fwp_bwrite dv size p pr Hp Henv Hsize Hc3 Ht3); [by rewrite flip_ne, flip_eq by done|].
  rewrite put_eq. intros fs4 Hc4 Ht4. assert (handle fs4 from' src) as Hh4 by exact Hh3.
  fstep. apply (fwp_brelse dv size p pr Hp Henv Hsize Hc4 Hh4); [rewrite bump_eq, bump_ne by done; lia|by rewrite flip_eq| |].
  { rewrite bump_eq, bump_ne by done. lia. }
  intros fs5 Hc5 [E5 S5].
  assert (handle fs5 to dst) as Ht5 by (apply S5; [done|rewrite bump_ne, bump_eq by done; lia]).
  fstep. apply (fwp_brelse dv size p pr Hp Henv Hsize Hc5 Ht5);
    [rewrite !bump_ne, bump_eq by done; lia|by rewrite !flip_ne, flip_eq by done| |].
  { intros _. rewrite E5, put_eq. unfold fs4. cbn [on_disk disk set_with set_disk set_writes set_bufs]. by rewrite lookup_insert_eq. }
  intros fs6 Hc6 [E6 S6]. apply HR.
  - apply (cache_ext _ _ _ _ _ _ _ Hc6); [done| |]; intros x; unfold bump, flip.
    + destruct (Z.eqb_spec x dst), (Z.eqb_spec x src); lia.
    + by destruct (x =? dst), (x =? src).
  - apply (did_bufs _ fs5); [|done]. apply (did_bufs _ fs4); [|done]. apply (did_write fs fs3 []).
    apply (did_bufs _ fs2); [|done]. apply (did_bufs _ fs1); [|done]. by apply (did_bufs _ fs); [apply did_refl|].
Qed.

Lemma log_ids (bl : list Z) (l : logstate) (i : nat) :
  fits bl -> log_is bl l -> (i < length bl)%nat ->
  u32 (log_dev l) = dv /\ u32 (log_start l + Z.of_nat i + 1) = start + Z.of_nat i + 1 /\
  u32 (lh_block l !!! i) = bl !!! i.
Proof using Hdv Hsize.
  clear Hp Henv. intros [F1 F2 F3 F4 F5] Hl Hi. rewrite (log_block bl l i), (li_dev _ _ Hl), (li_start _ _ Hl) by done.
  destruct (F5 _ (elem_block bl i Hi)). rewrite !u32_small by (unfold is_u32; lia). done.
Qed.

Lemma fwp_write_log (bl : list Z) fs V (R : unit -> world -> Prop) :
  fits bl -> log_is bl (log fs) -> cache fs V (pinned bl) nolock ->
  (forall fs', let ws := log_writes V bl (length bl) in
     cache fs' (shown V ws) (pinned bl) nolock -> did fs ws fs' -> R tt (here fs')) ->
  fwp p pr write_log (here fs) R.
Proof using Hp Henv Hsize Hdv.
  intros Hf Hl Hc HR. unfold write_log. pose proof Hf as [F1 F2 F3 F4 F5].
  apply (fwp_loop p pr (fun tail w => exists k fs', tail = Z.of_nat k /\ (k <= length bl)%nat /\ w = here fs' /\
      cache fs' (shown V (log_writes V bl k)) (pinned bl) nolock /\ did fs (log_writes V bl k) fs')
    (fun tail _ => Z.of_nat (length bl) - tail)).
  { exists 0%nat, fs. split_and!; [done|lia|done|done|apply did_refl]. }
  { unfold NBUF in *. lia. }
  intros tail w (k & fs1 & -> & Hk & -> & Hc1 & Hd1). fstep. apply fwp_get_log.
  rewrite (did_log _ _ _ Hd1), (li_n _ _ Hl).
  destruct (Z.ltb_spec (Z.of_nat k) (Z.of_nat (length bl))) as [Hlt|Hge]; cbn [negb].
  2: { fstep. assert (k = length bl) as -> by lia. by apply HR. }
  destruct (log_ids bl (log fs) k Hf Hl) as (I1 & I2 & I3); [lia|]. rewrite I1, I2.
  destruct (F5 _ (elem_block bl k ltac:(lia))) as [B1 B2].
  assert (shown V (log_writes V bl k) (bl !!! k) = V (bl !!! k)) as EV.
  { apply shown_other. intros Hin%log_writes_blocks. lia. }
  rewrite Nat2Z.id. apply (fwp_log_block (bl !!! k) (start + Z.of_nat k + 1) k _ fs1 _ _ _) with (3 := Hc1);
    [by rewrite (did_log _ _ _ Hd1)|by rewrite (did_log _ _ _ Hd1)|lia|lia|by apply pinned_few| | |].
  - apply pinned_out. intros Hin%F5. lia.
  - apply pinned_in, elem_block. lia.
  - intros fs2 Hc2 Hd2. fstep. split; [|lia]. exists (S k), fs2. rewrite log_writes_S, shown_app. rewrite EV in *.
    split_and!; [lia|lia|done|done|by apply (did_trans _ fs1)].
Qed.

(** One block goes home. *)
Lemma fwp_install_block {A} (recovering : bool) (src dst : Z) (i : nat) (m : M A) fs V K (R : A -> world -> Prop) :
  u32 (log_dev (log fs)) = dv -> u32 (lh_block (log fs) !!! i) = dst ->
  cache fs V K nolock -> 0 <= src < size -> 0 <= dst < size -> src <> dst -> few K ->
  K dst <> 0 \/ few (bump K src 1) -> K src = 0 -> K dst = (if recovering then 0 else 1) ->
  (forall fs', cache fs' (put V dst (V src)) (bump K dst (- K dst)) nolock -> did fs [(dst, V src)] fs' ->
     fwp p pr m (here fs') R) ->
  fwp p pr (lbuf ← bread dv src;
            l ← get_log;
            dbuf ← bread (u32 (log_dev l)) (u32 (lh_block l !!! i));
            copy_buf dbuf lbuf;;
            bwrite dbuf;;
            (if negb recovering then bunpin dbuf else mret tt);;
            brelse lbuf;;
            brelse dbuf;;
            m) (here fs) R.
Proof using Hp Henv Hsize.
  intros Hdev Hdst Hc Hs Hd Hne Hfew Hroom Ks Kd HR.
  fstep. apply (fwp_bread dv size p pr Hp Henv Hsize src fs V K nolock);
    [done|done|done|by right|lia|]. intros lb fs1 Hc1 Hh1 [E1 S1].
  fstep. apply fwp_get_log. replace (log fs1) with (log fs) by (by rewrite E1). rewrite Hdev, Hdst.
  fstep. apply (fwp_bread dv size p pr Hp Henv Hsize dst fs1 _ _ _ _ _ _ Hc1);
    [done|by rewrite flip_ne|destruct Hroom; [left; by rewrite bump_ne|by right]|rewrite bump_ne by done; destruct recovering; lia|].
  intros db fs2 Hc2 Hh2 [E2 S2].
  assert (handle fs2 lb src) as Ht2 by (apply S2; [done|rewrite bump_eq; lia]).
  fstep. apply (fwp_copy_buf db lb dst src fs2 _ _ _ _ Hc2); [done|done|by rewrite flip_eq|].
  intros fs3 Hc3 S3 E3. fstep. pose proof (S3 _ _ Ht2) as Ht3. pose proof (S3 _ _ Hh2) as Hh3.
  apply (fwp_bwrite dv size p pr Hp Henv Hsize Hc3 Hh3); [by rewrite flip_eq|].
  rewrite put_eq. intros fs4 Hc4 Hh4. assert (handle fs4 lb src) as Ht4 by exact Ht3. fstep.
  assert (did fs [(dst, V src)] fs4) as Hd4.
  { apply (did_write fs fs3 []). apply (did_bufs _ fs2); [|done]. apply (did_bufs _ fs1); [|done].
    by apply (did_bufs _ fs); [apply did_refl|]. }
  set (K4 := bump (bump K src 1) dst (1 - K dst)).
  assert (K4 src = 1 /\ K4 dst = 1) as [K4s K4d].
  { unfold K4. rewrite bump_ne, !bump_eq by done. rewrite bump_ne by done. lia. }
  assert (fwp p pr (if negb recovering then bunpin db else mret tt) (here fs4) (fun _ w => exists fs5, w = here fs5 /\
    cache fs5 (put V dst (V src)) K4 (flip (flip nolock src true) dst true) /\ handle fs5 lb src /\ handle fs5 db dst /\
    fs5 = fs4 <| bufs := bufs fs5 |>)) as Hunpin.
  { destruct recovering; cbn [negb].
    - fstep. exists fs4. split_and!; try done.
      apply (cache_ext _ _ _ _ _ _ _ Hc4); [done| |done]. intros x. unfold K4. rewrite Kd, Z.sub_0_r. done.
    - apply (fwp_bunpin dv size p pr Hp Henv Hsize Hc4 Hh4); rewrite ?bump_eq, ?bump_ne by done; [lia|lia|lia|].
      intros fs5 Hc5 Hh5 [E5 S5]. exists fs5. split_and!; try done; [|apply S5; [done|rewrite bump_ne, bump_eq by done; lia]].
      apply (cache_ext _ _ _ _ _ _ _ Hc5); [done| |done]. intros x. unfold K4, bump.
      destruct (Z.eqb_spec x dst), (Z.eqb_spec x src); lia. }
  eapply fwp_mono; [exact Hunpin|]. intros _ w (fs5 & -> & Hc5 & Ht5 & Hh5 & E5). clear Hunpin. fstep.
  apply (fwp_brelse dv size p pr Hp Henv Hsize Hc5 Ht5); [lia|by rewrite flip_ne, flip_eq by done| |].
  { intros _. rewrite put_ne by done. rewrite E5. cbn [disk set_with set_bufs]. rewrite (did_disk _ _ _ Hd4). cbn [replay fold_left fst snd].
    rewrite lookup_insert_ne by done. by apply (ca_clean _ _ _ _ _ _ _ Hc). }
  intros fs6 Hc6 [E6 S6]. fstep.
  assert (handle fs6 db dst) as Hh6 by (apply S6; [done|lia]).
  apply (fwp_brelse dv size p pr Hp Henv Hsize Hc6 Hh6); rewrite ?bump_ne, ?flip_ne, ?flip_eq by done; [lia|done| |].
  { intros _. rewrite put_eq, E6, E5. cbn [disk set_with set_bufs]. rewrite (did_disk _ _ _ Hd4). cbn [replay fold_left fst snd].
    by rewrite lookup_insert_eq. }
  intros fs7 Hc7 [E7 _]. apply HR.
  - apply (cache_ext _ _ _ _ _ _ _ Hc7); [done| |]; intros x; unfold K4, bump, flip.
    + destruct (Z.eqb_spec x dst), (Z.eqb_spec x src); lia.
    + by destruct (x =? dst), (x =? src).
  - apply (did_bufs _ fs6); [|done]. apply (did_bufs _ fs5); [|done]. by apply (did_bufs _ fs4).
Qed.

Lemma fwp_install_trans (recovering : bool) (bl : list Z) fs V (R : unit -> world -> Prop) :
  fits bl -> log_is bl (log fs) -> cache fs V (left_pinned recovering bl) nolock ->
  (forall fs', let ws := home_writes V bl (length bl) in
     cache fs' (shown V ws) (fun _ => 0) nolock -> did fs ws fs' -> R tt (here fs')) ->
  fwp p pr (install_trans recovering) (here fs) R.
Proof using Hp Henv Hsize Hdv.
  intros Hf Hl Hc HR. unfold install_trans. pose proof Hf as [F1 F2 F3 F4 F5].
  apply (fwp_loop p pr (fun tail w => exists k fs', tail = Z.of_nat k /\ (k <= length bl)%nat /\ w = here fs' /\
      cache fs' (shown V (home_writes V bl k)) (left_pinned recovering (drop k bl)) nolock /\ did fs (home_writes V bl k) fs')
    (fun tail _ => Z.of_nat (length bl) - tail)).
  { exists 0%nat, fs. split_and!; [done|lia|done|done|apply did_refl]. }
  { unfold NBUF in *. lia. }
  intros tail w (k & fs1 & -> & Hk & -> & Hc1 & Hd1). fstep. apply fwp_get_log.
  rewrite (did_log _ _ _ Hd1), (li_n _ _ Hl).
  destruct (Z.ltb_spec (Z.of_nat k) (Z.of_nat (length bl))) as [Hlt|Hge]; cbn [negb].
  2: { fstep. assert (k = length bl) as -> by lia. apply HR; [|done].
       apply (cache_ext _ _ _ _ _ _ _ Hc1); [done| |done]. intros x. rewrite drop_all. by destruct recovering. }
  destruct (log_ids bl (log fs) k Hf Hl) as (I1 & I2 & I3); [lia|]. rewrite I1, I2.
  assert (bl !! k = Some (bl !!! k)) as Hbk by (apply list_lookup_lookup_total_lt; lia).
  destruct (F5 _ (elem_block bl k ltac:(lia))) as [B1 B2].
  pose proof (drop_S bl _ _ Hbk) as Edrop.
  assert (NoDup (drop k bl)) as Hnd by (rewrite <- (take_drop k bl) in F4; by apply list.NoDup_app in F4 as (_ & _ & F4)).
  rewrite Edrop in Hnd, Hc1. destruct (left_pinned_next recovering _ _ Hnd) as [Kd Knext].
  assert (forall x, x ∈ bl !!! k :: drop (S k) bl -> x ∈ bl) as Hsub.
  { intros x Hx. rewrite <- Edrop in Hx. rewrite <- (take_drop k bl). apply elem_of_app. by right. }
  assert (left_pinned recovering (bl !!! k :: drop (S k) bl) (start + Z.of_nat k + 1) = 0) as Ks.
  { destruct recovering; [done|]. apply pinned_out. intros Hin%Hsub%F5. lia. }
  assert (shown V (home_writes V bl k) (start + Z.of_nat k + 1) = V (start + Z.of_nat k + 1)) as EV.
  { apply shown_other. intros Hin%home_writes_blocks%F5; lia. }
  rewrite Nat2Z.id.
  apply (fwp_install_block recovering (start + Z.of_nat k + 1) (bl !!! k) k _ fs1 _ _ _) with (3 := Hc1);
    [by rewrite (did_log _ _ _ Hd1)|by rewrite (did_log _ _ _ Hd1)|lia|lia|lia| | |done|done|].
  - apply left_few. rewrite <- Edrop, length_drop. lia.
  - destruct recovering; [right|left; rewrite Kd; lia]. exists [start + Z.of_nat k + 1].
    split; [|unfold NBUF; cbn; lia]. intros x. unfold bump. cbn [left_pinned]. destruct (Z.eqb_spec x (start + Z.of_nat k + 1)); [subst; left|done].
  - intros fs2 Hc2 Hd2. fstep. split; [|lia]. exists (S k), fs2. rewrite home_writes_S, shown_app. rewrite EV in *.
    split_and!; [lia|lia|done| |by apply (did_trans _ fs1)]. by apply (cache_ext _ _ _ _ _ _ _ Hc2).
Qed.

Lemma put_again V (blk : Z) (d d' : list Z) (x : Z) : put V blk d' x = put (put V blk d) blk d' x.
Proof. unfold put. by destruct (x =? blk). Qed.

(** The loop of [write_head]: the header in the buffer of its block. *)
Lemma fwp_header_loop (bl : list Z) (l : logstate) (b : nat) fs V K lk (R : unit -> world -> Prop) :
  log_is bl l -> cache fs V K lk -> handle fs b start -> lk start = true ->
  (forall fs', cache fs' (put V start (fold_left (fun d i => set_word d (S i) (bl !!! i)) (seq 0 (length bl)) (V start))) K lk ->
     handle fs' b start -> fs' = fs <| bufs := bufs fs' |> -> R tt (here fs')) ->
  fwp p pr (for_each (seq 0 (length bl)) (fun i =>
    upd_buf b (fun v => v <| b_data := set_word (b_data v) (S i) (lh_block l !!! i) |>))) (here fs) R.
Proof.
  intros Hl Hc Hh Hlk HR. set (d k := fold_left (fun d i => set_word d (S i) (bl !!! i)) (seq 0 k) (V start)).
  apply (fwp_for_each p pr (fun r w => exists k fs', r = seq k (length bl - k) /\ (k <= length bl)%nat /\ w = here fs' /\
    cache fs' (put V start (d k)) K lk /\ handle fs' b start /\ fs' = fs <| bufs := bufs fs' |>)).
  - exists 0%nat, fs. split_and!; [f_equal; lia|lia|done| |done|by destruct fs].
    apply (cache_ext _ _ _ _ _ _ _ Hc); [|done|done]. intros x. unfold put, d. cbn. by destruct (Z.eqb_spec x start) as [->|].
  - intros i r w (k & fs1 & Er & Hk & -> & Hc1 & Hh1 & E1).
    destruct (length bl - k)%nat as [|m] eqn:Em; [done|]. injection Er as -> ->.
    rewrite (log_block bl l k) by (done || lia). fstep.
    destruct (handle_ok dv size pr Hc1 Hh1) as (_ & _ & Hda & _). rewrite put_eq in Hda.
    edestruct (cache_write dv size pr Hc1 Hh1 (fun v => v <| b_data := set_word (b_data v) (S k) (bl !!! k) |>) (d (S k))) as [Hc2 Hh2].
    { done. }
    { intros v. by eexists. }
    { change (set_word (b_data (bufs fs1 !!! b)) (S k) (bl !!! k) = d (S k)). rewrite Hda. unfold d. by rewrite seq_S, fold_left_app. }
    exists (S k), (fs1 <| bufs := alter (fun v => v <| b_data := set_word (b_data v) (S k) (bl !!! k) |>) b (bufs fs1) |>).
    split_and!; [f_equal; lia|lia|done| |done|by rewrite E1].
    apply (cache_ext _ _ _ _ _ _ _ Hc2); [|done|done]. intros x. apply put_again.
  - intros w (k & fs1 & Er & Hk & -> & Hc1 & Hh1 & E1). assert (k = length bl) as ->.
    { destruct (length bl - k)%nat eqn:?; [lia|done]. }
    by apply HR.
Qed.

Lemma fwp_write_head (bl : list Z) fs V K (R : unit -> world -> Prop) :
  0 <= start < size -> log_is bl (log fs) -> cache fs V K nolock -> few K -> K start = 0 ->
  (forall fs', let d := header bl (V start) in
     cache fs' (put V start d) K nolock -> did fs [(start, d)] fs' -> R tt (here fs')) ->
  fwp p pr write_head (here fs) R.
Proof using Hp Henv Hsize Hdv.
  intros Hs Hl Hc Hfew HK HR. unfold write_head. fstep. apply fwp_get_log.
  rewrite (li_dev _ _ Hl), (li_start _ _ Hl), !u32_small by (unfold is_u32; lia).
  fstep. apply (fwp_bread dv size p pr Hp Henv Hsize start fs V K nolock); [done|done|done|by right|lia|].
  intros b fs1 Hc1 Hh1 [E1 S1]. fstep. apply fwp_get_log. assert (log fs1 = log fs) as El by (by rewrite E1).
  rewrite El, (li_n _ _ Hl), Nat2Z.id. do 2 fstep.
  destruct (handle_ok dv size pr Hc1 Hh1) as (_ & _ & Hda & _).
  edestruct (cache_write dv size pr Hc1 Hh1 (fun v => v <| b_data := set_word (b_data v) 0 (Z.of_nat (length bl)) |>)) as [Hc2 Hh2].
  { by rewrite flip_eq. }
  { intros v. by eexists. }
  { cbn. rewrite Hda. done. }
  fstep. apply (fwp_header_loop bl (log fs) b _ _ _ _ _ Hl Hc2 Hh2); [by rewrite flip_eq|].
  rewrite put_eq. fold (header bl (V start)). intros fs3 Hc3 Hh3 E3. fstep.
  apply (fwp_bwrite dv size p pr Hp Henv Hsize Hc3 Hh3); [by rewrite flip_eq|]. rewrite put_eq. intros fs4 Hc4 Hh4.
  apply (fwp_brelse dv size p pr Hp Henv Hsize Hc4 Hh4); rewrite ?bump_eq, ?flip_eq; [lia|done| |].
  { intros _. rewrite put_eq. unfold fs4. cbn [on_disk disk set_with set_disk set_writes]. by rewrite lookup_insert_eq. }
  intros fs5 Hc5 [E5 _]. apply HR.
  - apply (cache_ext _ _ _ _ _ _ _ Hc5); intros x; [apply put_again| |]; unfold bump, flip.
    + destruct (x =? start); lia.
    + by destruct (x =? start).
  - apply (did_bufs _ fs4); [|done]. apply (did_write fs fs3 []). apply (did_bufs _ fs1); [|by rewrite E3].
    by apply (did_bufs _ fs); [apply did_refl|].
Qed.

Lemma cache_log fs (l : logstate) V K lk : cache fs V K lk -> cache (fs <| log := l |>) V K lk.
Proof. intros [C1 C2 C3 C4 C5 C6 C7 C8 C9]. by split. Qed.

Lemma log_is_cleared (bl : list Z) (l : logstate) : log_is bl l -> log_is [] (l <| lh_n := 0 |>).
Proof. intros [L1 L2 L3 L4 L5]. by split. Qed.

(** The writes of [commit]: the log, the header, the home blocks, the header
    again. *)
Definition commit_writes (V : Z -> list Z) (bl : list Z) : list (Z * list Z) :=
  let hd := header bl (V start) in
  log_writes V bl (length bl) ++ [(start, hd)] ++ ((fun x => (x, V x)) <$> bl) ++ [(start, header [] hd)].

Lemma fwp_commit (bl : list Z) fs V (R : unit -> world -> Prop) :
  bl <> [] -> fits bl -> log_is bl (log fs) -> cache fs V (pinned bl) nolock ->
  (forall fs' V', cache fs' V' (fun _ => 0) nolock -> log fs' = (log fs) <| lh_n := 0 |> ->
     (forall x, ~ start <= x <= start + Z.of_nat (length bl) -> V' x = V x) ->
     wrote fs (commit_writes V bl) fs' -> R tt (here fs')) ->
  fwp p pr commit (here fs) R.
Proof using Hp Henv Hsize Hdv.
  intros Hne Hf Hl Hc HR. pose proof Hf as [F1 F2 F3 F4 F5]. unfold commit. fstep. apply fwp_get_log.
  assert (start ∉ bl) as Hst by (intros Hin%F5; lia).
  assert (0 < Z.of_nat (length bl)) as Hpos by (destruct bl; [done|cbn; lia]).
  rewrite (li_n _ _ Hl), (proj2 (Z.ltb_lt _ _)) by done.
  fstep. apply (fwp_write_log bl fs V); [done..|]. cbv zeta. intros fs1 Hc1 Hd1.
  assert (shown V (log_writes V bl (length bl)) start = V start) as Es.
  { apply shown_other. intros Hin%log_writes_blocks. lia. }
  fstep. apply (fwp_write_head bl fs1 _ _) with (3 := Hc1); [lia|by rewrite (did_log _ _ _ Hd1)|by apply pinned_few|by apply pinned_out|].
  rewrite Es. cbv zeta. intros fs2 Hc2 Hd2. fstep.
  apply (fwp_install_trans false bl fs2 _) with (3 := Hc2); [done|by rewrite (did_log _ _ _ Hd2), (did_log _ _ _ Hd1)|].
  rewrite (home_writes_logged V) by (intros i Hi; rewrite put_ne by lia; by apply log_shown).
  cbv zeta. intros fs3 Hc3 Hd3. fstep. apply fwp_upd_log.
  assert (log fs3 = log fs) as El by (by rewrite (did_log _ _ _ Hd3), (did_log _ _ _ Hd2), (did_log _ _ _ Hd1)).
  rewrite El. pose proof (log_is_cleared _ _ Hl) as Hl0.
  assert (forall x, x ∉ bl -> shown (put (shown V (log_writes V bl (length bl))) start (header bl (V start))) ((fun x => (x, V x)) <$> bl) x
    = put (shown V (log_writes V bl (length bl))) start (header bl (V start)) x) as Eh.
  { intros x Hx. apply shown_other. rewrite <- list_fmap_compose. cbn. by rewrite list_fmap_id. }
  apply (fwp_write_head [] _ _ _) with (3 := cache_log _ ((log fs) <| lh_n := 0 |>) _ _ _ Hc3); [lia|done|exact (left_few true [] ltac:(unfold NBUF; cbn; lia))|done|].
  rewrite (Eh start Hst), put_eq. cbv zeta. intros fs4 Hc4 Hd4. eapply HR; [exact Hc4|by rewrite (did_log _ _ _ Hd4)| |].
  - intros x Hx. rewrite put_ne by lia. destruct (decide (x ∈ bl)) as [Hin|Hin].
    + by apply shown_self.
    + rewrite Eh, put_ne by (done || lia). apply shown_other. intros Hin'%log_writes_blocks. lia.
  - unfold commit_writes. cbv zeta. apply (wrote_trans _ fs1); [by apply did_wrote|].
    apply (wrote_trans _ fs2); [by apply did_wrote|]. apply (wrote_trans _ fs3); [by apply did_wrote|].
    exact (did_wrote _ _ _ Hd4).
Qed.

(** ** Recovery *)
Definition ops_of (l : logstate) : Z * Z * Z := (log_size l, log_outstanding l, log_committing l).

Record log_at (l : logstate) : Prop := {
  la_dev : log_dev l = dv;
  la_start : log_start l = start;
  la_room : length (lh_block l) = Z.to_nat LOGSIZE;
}.

(** The loop of [read_head]. *)
Lemma fwp_read_loop (d : list Z) (n : nat) fs (R : unit -> world -> Prop) :
  (n <= length (lh_block (log fs)))%nat ->
  (forall bs, length bs = length (lh_block (log fs)) -> take n bs = (fun i => i32 (word d (S i))) <$> seq 0 n ->
     R tt (here (fs <| log := (log fs) <| lh_block := bs |> |>))) ->
  fwp p pr (for_each (seq 0 n) (fun i =>
    upd_log (fun l => l <| lh_block := <[ i := i32 (word d (S i)) ]> (lh_block l) |>))) (here fs) R.
Proof.
  intros Hn HR. apply (fwp_for_each p pr (fun r w => exists k bs, r = seq k (n - k) /\ (k <= n)%nat /\
    length bs = length (lh_block (log fs)) /\ take k bs = (fun i => i32 (word d (S i))) <$> seq 0 k /\
    w = here (fs <| log := (log fs) <| lh_block := bs |> |>))).
  - exists 0%nat, (lh_block (log fs)). split_and!; [f_equal; lia|lia|done|done|]. by destruct fs as [? ? ? [] ? ?].
  - intros i r w (k & bs & Er & Hk & Hl & Ht & ->). destruct (n - k)%nat as [|m] eqn:Em; [done|].
    injection Er as -> ->. apply fwp_upd_log. exists (S k), (<[ k := i32 (word d (S k)) ]> bs). split_and!.
    + f_equal. lia.
    + lia.
    + by rewrite length_insert.
    + rewrite (take_S_r _ _ (i32 (word d (S k)))) by (apply list_lookup_insert_eq; lia).
      rewrite take_insert_ge, Ht, seq_S, fmap_app by lia. done.
    + done.
  - intros w (k & bs & Er & Hk & Hl & Ht & ->). assert (k = n) as -> by (destruct (n - k)%nat eqn:?; [lia|done]).
    by apply HR.
Qed.

Lemma fwp_read_head (bl : list Z) fs V (R : unit -> world -> Prop) :
  0 <= start < size -> log_at (log fs) -> cache fs V (fun _ => 0) nolock ->
  word (V start) 0 = Z.of_nat (length bl) -> listed (V start) = bl -> (length bl < NBUF)%nat ->
  (forall x, x ∈ bl -> 0 <= x < size) ->
  (forall fs', cache fs' V (fun _ => 0) nolock -> log_is bl (log fs') -> ops_of (log fs') = ops_of (log fs) ->
     wrote fs [] fs' -> R tt (here fs')) ->
  fwp p pr read_head (here fs) R.
Proof using Hp Henv Hsize Hdv.
  intros Hs [L1 L2 L3] Hc Hw Hls Hn Hbl HR. unfold read_head. fstep. apply fwp_get_log.
  rewrite L1, L2, !u32_small by (unfold is_u32; lia). fstep.
  apply (fwp_bread dv size p pr Hp Henv Hsize start fs V (fun _ => 0) nolock);
    [done|done|done|right; exact (left_few true [] ltac:(unfold NBUF; cbn; lia))|lia|].
  intros b fs1 Hc1 Hh1 [E1 S1]. assert (log fs1 = log fs) as El by (by rewrite E1).
  destruct (handle_ok dv size pr Hc1 Hh1) as (_ & _ & Hda & _). do 2 fstep. rewrite Hda, Hw, i32_small by (unfold NBUF in *; lia).
  fstep. apply fwp_upd_log. fstep. apply fwp_get_log. cbn [log lh_n set_with set_log set_lh_n]. rewrite Nat2Z.id.
  fstep. apply fwp_read_loop; cbn [log lh_block set_with set_log set_lh_n]; rewrite El, L3; [change (Z.to_nat LOGSIZE) with NBUF; lia|].
  intros bs Hlen Htake.
  assert (forall fs2, fs2 = fs1 <| log := log fs2 |> -> cache fs2 V (bump (fun _ => 0) start 1) (flip nolock start true)) as Hcl.
  { intros fs2 ->. by apply cache_log. }
  match goal with |- fwp _ _ _ (here ?f) _ => set (fs2 := f) end.
  assert (cache fs2 V (bump (fun _ => 0) start 1) (flip nolock start true)) as Hc2 by (by apply Hcl).
  apply (fwp_brelse dv size p pr Hp Henv Hsize Hc2 (Hh1 : handle fs2 b start)); rewrite ?bump_eq, ?flip_eq; [lia|done| |].
  { intros _. unfold fs2. cbn [disk set_with set_log]. rewrite E1. by apply (ca_clean _ _ _ _ _ _ _ Hc). }
  intros fs3 Hc3 [E3 _]. apply HR.
  - apply (cache_ext _ _ _ _ _ _ _ Hc3); [done| |]; intros x; unfold bump, flip; by destruct (x =? start).
  - rewrite E3. unfold fs2. cbn [log set_with set_log set_lh_n set_lh_block set_bufs].
    split; cbn; [done|done|done| |done]. rewrite Htake. transitivity (listed (V start)); [|exact Hls]. unfold listed. rewrite Hw, Nat2Z.id.
    apply list_fmap_ext. intros i x [-> Hi]%lookup_seq. apply i32_small. change (0 + i)%nat with i.
    assert (word (V start) (S i) ∈ bl) as Hin%Hbl; [|lia]. rewrite <- Hls. unfold listed. apply list_elem_of_fmap. exists i.
    split; [done|]. rewrite Hw, Nat2Z.id. apply elem_of_seq. lia.
  - rewrite E3. unfold fs2. done.
  - rewrite E3. unfold fs2, wrote. cbn [disk writes set_with set_log set_bufs]. by rewrite E1.
Qed.

(** What recovery makes of a disk. *)
Definition recover_writes (V : Z -> list Z) (bl : list Z) : list (Z * list Z) :=
  home_writes V bl (length bl) ++ [(start, header [] (V start))].

Lemma fwp_recover (bl : list Z) fs V (R : unit -> world -> Prop) :
  fits bl -> log_at (log fs) -> cache fs V (fun _ => 0) nolock ->
  word (V start) 0 = Z.of_nat (length bl) -> listed (V start) = bl ->
  (forall fs', cache fs' (shown V (recover_writes V bl)) (fun _ => 0) nolock -> log_is [] (log fs') ->
     ops_of (log fs') = ops_of (log fs) -> wrote fs (recover_writes V bl) fs' -> R tt (here fs')) ->
  fwp p pr recover_from_log (here fs) R.
Proof using Hp Henv Hsize Hdv.
  intros Hf Hl Hc Hw Hls HR. pose proof Hf as [F1 F2 F3 F4 F5]. unfold recover_from_log.
  fstep. apply (fwp_read_head bl fs V); [lia|done..|by intros x [? _]%F5|]. intros fs1 Hc1 Hl1 O1 D1.
  fstep. apply (fwp_install_trans true bl fs1 V); [done..|]. cbv zeta. intros fs2 Hc2 Hd2.
  fstep. apply fwp_upd_log. rewrite (did_log _ _ _ Hd2). pose proof (log_is_cleared _ _ Hl1) as Hl0.
  apply (fwp_write_head [] _ _ _) with (3 := cache_log _ ((log fs1) <| lh_n := 0 |>) _ _ _ Hc2);
    [lia|done|exact (left_few true [] ltac:(unfold NBUF; cbn; lia))|done|].
  rewrite shown_other by (intros Hin%home_writes_blocks%F5; lia). cbv zeta. intros fs3 Hc3 Hd3.
  apply HR; [by unfold recover_writes; rewrite shown_app|by rewrite (did_log _ _ _ Hd3)|by rewrite (did_log _ _ _ Hd3), <- O1|].
  apply (wrote_trans _ fs1 _ []); [done|]. apply (wrote_trans _ fs2); [by apply did_wrote|]. exact (did_wrote _ _ _ Hd3).
Qed.

Lemma fwp_initlock (l : lock_id) fs (R : unit -> world -> Prop) :
  R tt (here fs) -> fwp p pr (put_lock l initlock) (here fs) R.
Proof.
  intros HR s Hs. apply inw_open in Hs as (c & pt & vd & dev & n & -> & Hc & Hpt & Hpr & Hvd). cbn [held].
  pose proof Hc as [[Hcalm Hn] Hcur]. apply kinitlock; [done|]. eexists. split; [|exact HR]. by apply (inw_close p pr []).
Qed.

Lemma fwp_initlog (sb : superblock) (bl : list Z) fs V (R : unit -> world -> Prop) :
  sb_logstart sb = start -> fits bl -> length (lh_block (log fs)) = Z.to_nat LOGSIZE -> cache fs V (fun _ => 0) nolock ->
  word (V start) 0 = Z.of_nat (length bl) -> listed (V start) = bl ->
  (forall fs', cache fs' (shown V (recover_writes V bl)) (fun _ => 0) nolock -> log_is [] (log fs') ->
     ops_of (log fs') = (i32 (sb_nlog sb), log_outstanding (log fs), log_committing (log fs)) ->
     wrote fs (recover_writes V bl) fs' -> R tt (here fs')) ->
  fwp p pr (initlog dv sb) (here fs) R.
Proof using Hp Henv Hsize Hdv.
  intros Hsb Hf Hl Hc Hw Hls HR. unfold initlog. change (BSIZE <=? 4 + 4 * LOGSIZE) with false. cbv iota.
  pose proof (fi_start _ Hf). pose proof (fi_size _ Hf).
  fstep. apply fwp_initlock. do 3 (fstep; apply fwp_upd_log). cbn [log set_with set_log].
  rewrite Hsb, (i32_small start) by lia. apply (fwp_recover bl _ V); [done| |by do 3 apply (cache_log _ _ _ _ _)|done|done|done].
  split; [done|done|exact Hl].
Qed.

End logspec.

(** ** Crashes *)
Lemma replay_some D ws (x : Z) : is_Some (D !! x) -> is_Some (replay D ws !! x).
Proof.
  revert D. induction ws as [|w ws IH]; intros D Hx; [done|]. apply (IH (<[ w.1 := w.2 ]> D)).
  destruct (decide (w.1 = x)) as [->|]; [by rewrite lookup_insert_eq|by rewrite lookup_insert_ne].
Qed.

Section crash.
Context (size start : Z) (bl : list Z) (V : Z -> list Z) (D : gmap Z (list Z)).
Hypothesis Hf : fits size start bl.

#[local] Abbreviation n := (length bl).

(** The disk when [commit] is stopped after [k] writes. *)
Definition crashed (k : nat) : gmap Z (list Z) := replay D (take k (commit_writes start V bl)).

(** What its header lists. *)
Definition survivors (k : nat) : list Z := if decide (n < k <= 2 * n + 1)%nat then bl else [].

Lemma length_log_writes : length (log_writes start V bl n) = n.
Proof. unfold log_writes. by rewrite length_fmap, length_seq. Qed.

Lemma crashed_cases (k : nat) :
  (k <= n)%nat /\ crashed k = replay D (take k (log_writes start V bl n)) \/
  (n < k <= 2 * n + 1)%nat /\ crashed k =
    replay (<[ start := header bl (V start) ]> (replay D (log_writes start V bl n))) (take (k - n - 1) ((fun x => (x, V x)) <$> bl)) \/
  (2 * n + 1 < k)%nat /\ crashed k = <[ start := header [] (header bl (V start)) ]>
    (replay (<[ start := header bl (V start) ]> (replay D (log_writes start V bl n))) ((fun x => (x, V x)) <$> bl)).
Proof.
  unfold crashed, commit_writes. cbv zeta. rewrite take_app, length_log_writes, replay_app.
  destruct (decide (k <= n)%nat) as [Hk|Hk].
  { left. split; [done|]. replace (k - n)%nat with 0%nat by lia. done. }
  rewrite take_ge by (rewrite length_log_writes; lia).
  destruct (k - n)%nat as [|m] eqn:Em; [lia|]. cbn [app take].
  right. change (replay ?D ((start, ?d) :: ?l)) with (replay (<[ start := d ]> D) l). rewrite take_app, length_fmap.
  destruct (decide (m <= n)%nat) as [Hm|Hm]; [left|right]; split; try lia.
  - replace (m - n)%nat with 0%nat by lia. cbn [take]. rewrite app_nil_r. by replace (S m - 1)%nat with m by lia.
  - rewrite (take_ge _ m) by (rewrite length_fmap; lia). destruct (m - n)%nat as [|j] eqn:Ej; [lia|]. cbn [take].
    destruct j; cbn [take]; by rewrite replay_app.
Qed.
(** The header of the crashed disk lists all of the transaction or nothing. *)
Lemma start_not_in : start ∉ bl.
Proof using Hf. intros Hin%(fi_home _ _ _ Hf). lia. Qed.

Lemma start_other (ws : list (Z * list Z)) : (forall x, x ∈ ws.*1 -> x ∈ bl) -> start ∉ ws.*1.
Proof using Hf. intros Hws Hin%Hws. by apply start_not_in. Qed.

Lemma take_blocks {A} (l : list A) (m : nat) (x : A) : x ∈ take m l -> x ∈ l.
Proof. intros Hx. rewrite <- (take_drop m l). apply elem_of_app. by left. Qed.

Lemma self_blocks (m : nat) (x : Z) : x ∈ (take m ((fun x => (x, V x)) <$> bl)).*1 -> x ∈ bl.
Proof. rewrite <- fmap_take, <- list_fmap_compose. cbn. rewrite list_fmap_id. apply take_blocks. Qed.

Lemma log_take_blocks (m : nat) (x : Z) :
  x ∈ (take m (log_writes start V bl n)).*1 -> start + 1 <= x <= start + Z.of_nat n.
Proof. rewrite fmap_take. intros Hx%take_blocks%log_writes_blocks. done. Qed.

Lemma bl_u32 : size <= 2 ^ 31 -> Forall is_u32 bl.
Proof using Hf. intros Hs. apply list.Forall_forall. intros x [Hx _]%(fi_home _ _ _ Hf). unfold is_u32. lia. Qed.

Lemma fits_survivors (k : nat) : fits size start (survivors k).
Proof using Hf.
  unfold survivors. case_decide; [done|]. pose proof Hf as [F1 F2 F3 F4 F5].
  split; [done|cbn; lia|unfold NBUF; cbn; lia|constructor|]. intros x Hx. by apply not_elem_of_nil in Hx.
Qed.

Hypothesis Hclean : forall x, 0 <= x < size -> x ∉ bl -> D !! x = Some (V x).
Hypothesis Hlen : length (V start) = 1024%nat.
Hypothesis Hempty : word (V start) 0 = 0.

Lemma crashed_header (k : nat) :
  size <= 2 ^ 31 -> exists d, crashed k !! start = Some d /\ length d = 1024%nat /\
    word d 0 = Z.of_nat (length (survivors k)) /\ listed d = survivors k.
Proof using Hf Hclean Hlen Hempty.
  intros Hs. pose proof Hf as [F1 F2 F3 F4 F5].
  destruct (header_spec bl (V start) Hlen) as (H1 & H2 & H3); [unfold NBUF in *; lia|by apply bl_u32|].
  assert (listed (V start) = []) as Hls by (unfold listed; by rewrite Hempty).
  unfold survivors. destruct (crashed_cases k) as [[Hk ->]|[[Hk ->]|[Hk ->]]].
  - rewrite decide_False by lia. exists (V start). split_and!; try done.
    rewrite replay_other by (intros Hin%log_take_blocks; lia). apply Hclean; [lia|apply start_not_in].
  - rewrite decide_True by lia. exists (header bl (V start)). split_and!; try done.
    rewrite replay_other by (apply start_other, self_blocks). apply lookup_insert_eq.
  - rewrite decide_False by lia. exists (header [] (header bl (V start))). rewrite lookup_insert_eq.
    destruct (header_spec [] (header bl (V start)) H1) as (J1 & J2 & J3); [cbn; lia|constructor|]. done.
Qed.

(** After recovery the home blocks are the old ones or the new ones. *)
Lemma crashed_home (k : nat) (x : Z) :
  0 <= x < size -> ~ start <= x <= start + Z.of_nat n ->
  replay (crashed k) (recover_writes start (fun y => crashed k !!! y) (survivors k)) !! x =
  if decide (k <= n)%nat then D !! x else Some (V x).
Proof using Hf Hclean.
  clear Hlen Hempty. intros Hx Hout. pose proof Hf as [F1 F2 F3 F4 F5].
  assert (forall D', replay D' (recover_writes start (fun y => crashed k !!! y) []) !! x = D' !! x) as Hnone.
  { intros D'. apply replay_other. cbn. rewrite list_elem_of_singleton. lia. }
  unfold survivors. destruct (crashed_cases k) as [[Hk Ek]|[[Hk Ek]|[Hk Ek]]].
  - rewrite decide_False, decide_True, Hnone, Ek by lia. apply replay_other. intros Hin%log_take_blocks. lia.
  - rewrite decide_True, decide_False by lia. unfold recover_writes.
    assert (forall i, (i < n)%nat -> (crashed k !!! (start + Z.of_nat i + 1)) = V (bl !!! i)) as Hlog.
    { intros i Hi. apply lookup_total_correct. rewrite Ek.
      rewrite replay_other by (intros Hin%self_blocks%F5; lia). rewrite lookup_insert_ne by lia.
      apply (replay_map D (fun i => start + Z.of_nat i + 1) (fun i => V (bl !!! i))); [|apply elem_of_seq; lia].
      apply NoDup_fmap_2_strong; [|apply NoDup_seq]. intros; lia. }
    rewrite (home_writes_logged start V), replay_app by done.
    rewrite (replay_other _ [_]) by (cbn; rewrite list_elem_of_singleton; lia).
    destruct (decide (x ∈ bl)) as [Hin|Hin]; [by apply replay_self|].
    rewrite replay_other by (by rewrite <- list_fmap_compose; cbn; rewrite list_fmap_id). rewrite Ek.
    rewrite replay_other by (by intros Hin'%self_blocks). rewrite lookup_insert_ne by lia.
    rewrite replay_other by (intros Hin'%log_writes_blocks; lia). by apply Hclean.
  - rewrite decide_False, decide_False, Hnone, Ek by lia. rewrite lookup_insert_ne by lia.
    destruct (decide (x ∈ bl)) as [Hin|Hin]; [by apply replay_self|].
    rewrite replay_other by (by rewrite <- list_fmap_compose; cbn; rewrite list_fmap_id).
    rewrite lookup_insert_ne by lia. rewrite replay_other by (intros Hin'%log_writes_blocks; lia). by apply Hclean.
Qed.
End crash.

(** ** Transactions *)
Definition log_add (bl : list Z) (blk : Z) : list Z := if decide (blk ∈ bl) then bl else bl ++ [blk].

Lemma log_slot_spec (bl rest : list Z) (blk : Z) :
  Forall is_u32 bl -> let i := log_slot (bl ++ rest) (length bl) blk in
  (i < length bl)%nat /\ bl !!! i = blk \/ i = length bl /\ blk ∉ bl.
Proof.
  induction 1 as [|b bl Hb _ IH]; cbn [length app log_slot]; [right; split; [by destruct rest|apply not_elem_of_nil]|].
  rewrite u32_small by done. destruct (Z.eqb_spec b blk) as [->|Hne]; [left; split; [lia|done]|].
  destruct IH as [[H1 H2]|[H1 H2]]; [left|right]; (split; [lia|]); [exact H2|]. apply not_elem_of_cons. by split.
Qed.

Section transaction.
Context {E : Env}.
Context (dv size start nlog : Z) (p : nat) (pr : proc).
Context {h : heap} {ft : ftable}.

#[local] Abbreviation cache := (cache dv size pr).
#[local] Abbreviation handle := (handle dv).
#[local] Abbreviation here := (World [] h ft).

(** The log during a transaction of [ops] system calls that has logged [bl]. *)
Record logging (ops : Z) (bl : list Z) (l : logstate) : Prop := {
  lo_is : log_is dv start bl l;
  lo_size : log_size l = nlog;
  lo_ops : log_outstanding l = ops;
  lo_calm : log_committing l = 0;
}.

(** A block of the file system proper. *)
Definition home (x : Z) : Prop := 0 <= x < size /\ ~ start <= x < start + nlog.

Definition logged (ups : list (Z * list Z)) (bl : list Z) : list Z := fold_left (fun bl u => log_add bl u.1) ups bl.

Lemma logged_spec (ups : list (Z * list Z)) (bl : list Z) :
  Forall (fun u => home u.1) ups -> Forall home bl -> NoDup bl ->
  Forall home (logged ups bl) /\ NoDup (logged ups bl) /\ (length (logged ups bl) <= length bl + length ups)%nat.
Proof.
  revert bl. induction ups as [|u ups IH]; intros bl Hu Hb Hnd; [split_and!; [done|done|cbn; lia]|].
  inversion_clear Hu as [|? ? Hu1 Hu2]. cbn [logged fold_left length]. fold (logged ups (log_add bl u.1)).
  destruct (IH (log_add bl u.1)) as (H1 & H2 & H3); [done| | |].
  - unfold log_add. destruct (decide _); [done|]. apply Forall_app. split; [done|]. constructor; [done|constructor].
  - unfold log_add. destruct (decide _) as [|Hx]; [done|]. apply list.NoDup_app. split_and!; [done| |apply NoDup_singleton].
    intros x Hx' ->%list_elem_of_singleton. done.
  - split_and!; [done|done|]. unfold log_add in H3 |- *. destruct (decide _); [|rewrite length_app in H3; cbn in H3]; lia.
Qed.

Lemma logged_in (ups : list (Z * list Z)) (bl : list Z) (x : Z) : x ∈ bl \/ x ∈ ups.*1 -> x ∈ logged ups bl.
Proof.
  revert bl. induction ups as [|u ups IH]; intros bl Hx; cbn [logged fold_left fmap list_fmap] in *.
  { destruct Hx as [Hx|Hx]; [done|by apply not_elem_of_nil in Hx]. }
  apply IH. unfold log_add. destruct Hx as [Hx|[->|Hx]%elem_of_cons]; [left|left|by right].
  - destruct (decide _); [done|]. apply elem_of_app. by left.
  - destruct (decide _); [done|]. apply elem_of_app. right. by left.
Qed.

Lemma fits_logged (bl : list Z) :
  Forall home bl -> NoDup bl -> Z.of_nat (length bl) <= MAXOPBLOCKS -> MAXOPBLOCKS < nlog -> 0 <= start -> start + nlog <= size ->
  fits size start bl.
Proof.
  intros Hb Hnd Hn Hnl Hs Hs2. unfold MAXOPBLOCKS in *. split; [done|lia|unfold NBUF; lia|done|].
  intros x Hx. rewrite list.Forall_forall in Hb. destruct (Hb x Hx) as [H1 H2]. split; [done|lia].
Qed.

Hypothesis Hp : (p < NPROC)%nat.
Hypothesis Henv : disk_serves p.
Hypothesis Hsize : size <= 2 ^ 31.
Hypothesis Hdv : 0 < dv < 2 ^ 31.

Lemma log_write_at (bl : list Z) (blk : Z) (l : logstate) :
  Forall (fun x => 0 <= x < size) bl -> 0 <= blk < size -> (length bl < Z.to_nat LOGSIZE)%nat -> log_is dv start bl l ->
  let i := log_slot (lh_block l) (length bl) blk in
  let l' := l <| lh_block := <[ i := i32 blk ]> (lh_block l) |> in
  if decide (blk ∈ bl) then Z.of_nat i <> lh_n l /\ log_is dv start bl l'
  else Z.of_nat i = lh_n l /\ log_is dv start (bl ++ [blk]) (l' <| lh_n := lh_n l + 1 |>).
Proof using Hsize.
  clear Hp Henv. intros Hbl Hblk Hroom [L1 L2 L3 L4 L5] i l'.
  assert (Forall is_u32 bl) as Hu by (eapply list.Forall_impl; [exact Hbl|]; intros x Hx; cbv beta in Hx; unfold is_u32; lia).
  assert (exists rest, lh_block l = bl ++ rest) as [rest Eb].
  { exists (drop (length bl) (lh_block l)). rewrite <- L4 at 1. symmetry. apply take_drop. }
  assert (length rest = Z.to_nat LOGSIZE - length bl)%nat as Hrest by (rewrite <- L5, Eb, length_app; lia).
  pose proof (log_slot_spec bl rest blk Hu) as Hslot. cbv zeta in Hslot. rewrite <- Eb in Hslot. fold i in Hslot.
  unfold l'. clearbody i. clear l'. rewrite L3. destruct Hslot as [[H1 H2]|[-> H2]].
  - rewrite decide_True by (rewrite <- H2; by apply elem_block). split; [lia|].
    split; cbn; [done|done|done| |by rewrite length_insert].
    rewrite i32_small, Eb, insert_app_l by lia. rewrite list_insert_id by (rewrite <- H2; by apply list_lookup_lookup_total_lt).
    apply take_app_length.
  - rewrite decide_False by done. split; [done|]. destruct rest as [|y rest]; [cbn in Hrest; lia|].
    assert (<[ length bl := i32 blk ]> (lh_block l) = (bl ++ [blk]) ++ rest) as Ei.
    { rewrite Eb, i32_small, <- app_assoc by lia. pose proof (insert_app_r bl (y :: rest) 0 blk) as Hi.
      rewrite Nat.add_0_r in Hi. exact Hi. }
    split; cbn; [done|done|rewrite length_app; cbn; lia| |by rewrite length_insert].
    rewrite Ei. apply take_app_length.
Qed.

Lemma fwp_log_write (b : nat) (blk ops : Z) (bl : list Z) fs V K lk (R : unit -> world -> Prop) :
  cache fs V K lk -> handle fs b blk -> K blk < 2 ^ 32 - 1 ->
  Forall (fun x => 0 <= x < size) bl -> logging ops bl (log fs) -> 1 <= ops ->
  Z.of_nat (length bl) < LOGSIZE -> Z.of_nat (length bl) < nlog - 1 ->
  (forall fs', cache fs' V (bump K blk (if decide (blk ∈ bl) then 0 else 1)) lk ->
     (forall b x, handle fs b x -> K x <> 0 -> handle fs' b x) ->
     logging ops (log_add bl blk) (log fs') -> fs' = fs <| bufs := bufs fs' |> <| log := log fs' |> -> R tt (here fs')) ->
  fwp p pr (log_write b) (here fs) R.
Proof using Hp Henv Hsize.
  intros Hc Hh HK Hbl Hl Hops Hn1 Hn2 HR. pose proof (lo_is _ _ _ Hl) as Hi.
  destruct (handle_ok dv size pr Hc Hh) as (Hblk & _ & _ & _). pose proof Hh as (_ & _ & Hno).
  unfold log_write. do 2 fstep. fstep. apply fwp_get_log.
  rewrite (li_n _ _ _ _ Hi), (lo_size _ _ _ Hl), (lo_ops _ _ _ Hl).
  rewrite (proj2 (Z.leb_gt LOGSIZE _)), (proj2 (Z.leb_gt (nlog - 1) _)), (proj2 (Z.ltb_ge ops 1)) by lia. cbn [orb].
  do 2 fstep. rewrite Hno, Nat2Z.id. fstep. apply fwp_upd_log.
  pose proof (log_write_at bl blk (log fs) Hbl Hblk ltac:(unfold LOGSIZE, MAXOPBLOCKS in *; lia) Hi) as Hw. cbv zeta in Hw.
  rewrite (li_n _ _ _ _ Hi) in Hw. set (i := log_slot _ _ _) in *. clearbody i. unfold log_add in HR.
  assert (forall x, (log fs) <| lh_block := <[ i := i32 blk ]> (lh_block (log fs)) |> = x ->
    log_size x = nlog /\ log_outstanding x = ops /\ log_committing x = 0) as Hx.
  { intros x <-. cbn. split_and!; [apply (lo_size _ _ _ Hl)|apply (lo_ops _ _ _ Hl)|apply (lo_calm _ _ _ Hl)]. }
  set (l1 := (log fs) <| lh_block := _ |>) in *. destruct (Hx l1 eq_refl) as (X1 & X2 & X3). fstep.
  destruct (decide (blk ∈ bl)) as [Hin|Hin]; destruct Hw as [Hw1 Hw2].
  - rewrite (proj2 (Z.eqb_neq _ _)) by done. do 2 fstep. apply HR; [|done|by split|by destruct fs].
    apply cache_log. apply (cache_ext _ _ _ _ _ _ _ _ _ _ Hc); [done| |done]. intros x. unfold bump. destruct (x =? blk); lia.
  - rewrite Hw1, Z.eqb_refl. fstep.
    set (fs1 := fs <| log := l1 |>). assert (handle fs1 b blk) as Hh1 by exact Hh.
    apply (fwp_bpin dv size p pr Hp Henv Hsize (cache_log _ _ _ fs l1 _ _ _ Hc) Hh1);
      [unlocked|done|]. intros fs2 Hc2 Hh2 [E2 S2]. apply fwp_upd_log. fstep. rewrite E2. cbn [log set_with set_log set_bufs].
    apply HR; [by apply cache_log; rewrite <- E2|rewrite E2 in S2; exact S2| |done].
    cbn [log set_with set_log]. split; [|done..]. replace (lh_n l1) with (Z.of_nat (length bl)); [done|].
    symmetry. apply (li_n _ _ _ _ Hi).
Qed.

(** [begin_op] on a log that nobody uses. *)
Lemma fwp_begin_op fs (R : unit -> world -> Prop) :
  logging 0 [] (log fs) ->
  (forall l, logging 1 [] l -> R tt (here (fs <| log := l |>))) -> fwp p pr begin_op (here fs) R.
Proof.
  intros Hl HR. destruct Hl as [Hi L1 L2 L3]. unfold begin_op. do 2 fstep.
  apply (fwp_loop p pr (fun _ w => w = World [L_log] h ft fs) (fun _ _ => 0)); [done|lia|].
  intros [] w ->. fstep. apply fwp_get_log. rewrite L3, L2, (li_n _ _ _ _ Hi). change (truth 0) with false.
  change (LOGSIZE <? Z.of_nat (length []) + (0 + 1) * MAXOPBLOCKS) with false. cbv iota.
  fstep. apply fwp_upd_log. do 3 fstep. apply HR. destruct Hi. split; [by split|done|cbn; lia|done].
Qed.

(** The update of a block within a transaction. *)
Definition update (u : Z * list Z) : M unit :=
  b ← bread dv u.1;
  upd_buf b (fun v => v <| b_data := u.2 |>);;
  log_write b;;
  brelse b.

Lemma fwp_update (u : Z * list Z) (bl : list Z) fs V (R : unit -> world -> Prop) :
  home u.1 -> Forall home bl -> cache fs V (pinned bl) nolock -> logging 1 bl (log fs) ->
  Z.of_nat (length bl) < MAXOPBLOCKS -> MAXOPBLOCKS < nlog ->
  (forall fs', cache fs' (put V u.1 u.2) (pinned (log_add bl u.1)) nolock -> logging 1 (log_add bl u.1) (log fs') ->
     wrote fs [] fs' -> R tt (here fs')) ->
  fwp p pr (update u) (here fs) R.
Proof using Hp Henv Hsize.
  intros Hu Hbl Hc Hl Hn Hnl HR. unfold MAXOPBLOCKS in *. unfold update. destruct u as [blk d]. cbn [fst snd] in *.
  pose proof (pinned_range bl blk) as Hpr. destruct Hu as [Hu1 Hu2].
  fstep. apply (fwp_bread dv size p pr Hp Henv Hsize blk fs V (pinned bl) nolock); [done|done|done| |lia|].
  { right. apply pinned_few. unfold NBUF. lia. }
  intros b fs1 Hc1 Hh1 [E1 _]. do 2 fstep.
  edestruct (cache_write dv size pr Hc1 Hh1 (fun v => v <| b_data := d |>) d) as [Hc2 Hh2];
    [by rewrite flip_eq|by eexists|done|].
  match goal with |- fwp _ _ _ (here ?f) _ => set (fs2 := f) in * end. fstep.
  apply (fwp_log_write b blk 1 bl fs2 _ _ _ _ Hc2 Hh2); [rewrite bump_eq; lia| | |lia|unfold LOGSIZE, MAXOPBLOCKS; lia|lia|].
  { eapply list.Forall_impl; [exact Hbl|]. by intros x [Hx _]. }
  { unfold fs2. cbn [log set_with set_bufs]. by rewrite E1. }
  intros fs3 Hc3 S3 Hl3 E3. assert (handle fs3 b blk) as Hh3 by (apply S3; [done|rewrite bump_eq; lia]).
  apply (fwp_brelse dv size p pr Hp Henv Hsize Hc3 Hh3); rewrite ?bump_eq, ?flip_eq; [destruct (decide _); lia|done| |].
  { unfold pinned. destruct (decide (blk ∈ bl)); lia. }
  intros fs4 Hc4 [E4 _]. apply HR.
  - apply (cache_ext _ _ _ _ _ _ _ _ _ _ Hc4); [done| |]; intros x; unfold bump, flip, log_add, pinned.
    + destruct (Z.eqb_spec x blk) as [->|Hne]; destruct (decide (blk ∈ bl)).
      * rewrite decide_True by done. lia.
      * rewrite decide_True by (apply elem_of_app; right; by left). lia.
      * done.
      * destruct (decide (x ∈ bl)); [by rewrite decide_True by (apply elem_of_app; by left)|].
        rewrite decide_False; [done|]. intros [?|?%list_elem_of_singleton]%elem_of_app; done.
    + by destruct (x =? blk).
  - by rewrite E4.
  - unfold wrote. rewrite E4, E3. cbn [disk writes sb itable set_with set_bufs set_log fs2]. by rewrite E1.
Qed.

Lemma fwp_updates (ups : list (Z * list Z)) (bl : list Z) fs V (R : unit -> world -> Prop) :
  Forall (fun u => home u.1) ups -> Forall home bl -> NoDup bl -> cache fs V (pinned bl) nolock -> logging 1 bl (log fs) ->
  Z.of_nat (length bl + length ups) <= MAXOPBLOCKS -> MAXOPBLOCKS < nlog ->
  (forall fs', cache fs' (shown V ups) (pinned (logged ups bl)) nolock -> logging 1 (logged ups bl) (log fs') ->
     wrote fs [] fs' -> R tt (here fs')) ->
  fwp p pr (for_each ups update) (here fs) R.
Proof using Hp Henv Hsize.
  revert bl fs V. induction ups as [|u ups IH]; intros bl fs V Hu Hb Hnd Hc Hl Hn Hnl HR; cbn [for_each].
  - fstep. by apply HR.
  - inversion_clear Hu as [|? ? Hu1 Hu2]. cbn [length] in Hn.
    fstep. apply (fwp_update u bl fs V); [done|done|done|done|lia|done|]. intros fs1 Hc1 Hl1 D1.
    destruct (logged_spec [u] bl) as (B1 & B2 & B3); [by constructor; [|constructor]|done|done|]. cbn [logged fold_left length] in B1, B2, B3.
    apply (IH (log_add bl u.1) fs1 (put V u.1 u.2)); [done|done|done|done|done|lia|done|].
    intros fs2 Hc2 Hl2 D2. apply HR; [done|done|by apply (wrote_trans _ fs1 _ [])].
Qed.

Lemma fwp_end_op (bl : list Z) fs V (R : unit -> world -> Prop) :
  bl <> [] -> fits size start bl -> cache fs V (pinned bl) nolock -> logging 1 bl (log fs) ->
  (forall fs' V', cache fs' V' (fun _ => 0) nolock -> logging 0 [] (log fs') ->
     (forall x, ~ start <= x <= start + Z.of_nat (length bl) -> V' x = V x) ->
     wrote fs (commit_writes start V bl) fs' -> R tt (here fs')) ->
  fwp p pr end_op (here fs) R.
Proof using Hp Henv Hsize Hdv.
  intros Hne Hf Hc [Hi L1 L2 L3] HR. unfold end_op. do 2 fstep. fstep. apply fwp_upd_log. fstep. apply fwp_get_log.
  cbn [log log_committing log_outstanding set_with set_log set_log_outstanding]. rewrite L3, L2.
  change (truth 0) with false. change (1 - 1 =? 0) with true. cbv iota.
  do 2 fstep. apply fwp_upd_log. do 2 fstep. fstep. fstep.
  cbn [log set_with set_log set_log_outstanding set_log_committing].
  match goal with |- fwp _ _ _ (here ?f) _ => set (fs1 := f) end.
  assert (cache fs1 V (pinned bl) nolock) as Hc1 by (by do 2 apply cache_log).
  assert (log_is dv start bl (log fs1)) as Hi1 by (destruct Hi; by split).
  apply (fwp_commit dv size start p pr Hp Henv Hsize Hdv bl fs1 V); [done|done|done|done|].
  intros fs2 V2 Hc2 El HV HD. do 2 fstep. fstep. apply fwp_upd_log. do 3 fstep.
  apply (HR _ V2); [by apply cache_log| |done|exact HD].
  cbn [log set_with set_log]. rewrite El. destruct Hi as [I1 I2 I3 I4 I5].
  by split.
Qed.

(** A system call that updates blocks. *)
Definition transaction (ups : list (Z * list Z)) : M unit :=
  begin_op;;
  for_each ups update;;
  end_op.

Lemma fwp_transaction (ups : list (Z * list Z)) fs V (R : unit -> world -> Prop) :
  ups <> [] -> Forall (fun u => home u.1) ups -> Z.of_nat (length ups) <= MAXOPBLOCKS -> MAXOPBLOCKS < nlog ->
  0 <= start -> start + nlog <= size -> cache fs V (fun _ => 0) nolock -> logging 0 [] (log fs) ->
  (forall fs' V', cache fs' V' (fun _ => 0) nolock -> logging 0 [] (log fs') ->
     (forall x, home x -> V' x = shown V ups x) ->
     wrote fs (commit_writes start (shown V ups) (logged ups [])) fs' -> R tt (here fs')) ->
  fwp p pr (transaction ups) (here fs) R.
Proof using Hp Henv Hsize Hdv.
  intros Hne Hu Hn Hnl Hs1 Hs2 Hc Hl HR. unfold transaction. fstep. apply fwp_begin_op; [done|]. intros l Hl1. fstep.
  destruct (logged_spec ups []) as (B1 & B2 & B3); [done|constructor|constructor|]. cbn [length] in B3.
  apply (fwp_updates ups [] _ V); [done|constructor|constructor|by apply cache_log|exact Hl1|cbn; lia|done|].
  intros fs1 Hc1 Hl2 D1.
  assert (forall l bl, bl <> [] -> logged l bl <> []) as Hmono.
  { clear. induction l as [|u l IH]; intros bl Hb; [done|]. apply IH. unfold log_add. destruct (decide _); [done|by destruct bl]. }
  apply (fwp_end_op (logged ups []) fs1 (shown V ups)); [|apply fits_logged; (done || lia)|done|done|].
  { destruct ups as [|u ups]; [done|]. apply (Hmono ups (log_add [] u.1)). unfold log_add. by destruct (decide _) as [Hin|]; [apply not_elem_of_nil in Hin|]. }
  intros fs2 V2 Hc2 Hl3 HV HD. apply (HR fs2 V2); [done|done| |by apply (wrote_trans _ fs1 _ [])].
  intros x [Hx1 Hx2]. apply HV. unfold MAXOPBLOCKS in *. lia.
Qed.

End transaction.

(** The machine started again on the disk [D], in process [p], with a cache as
    [binit] leaves it and [struct log] as the loader does. *)
Record rebooted (p : nat) (pr : proc) (D : gmap Z (list Z)) (s : kstate) : Prop := {
  rb_in : exists h ft, inw p pr (World [] h ft (k_fs s)) s;
  rb_bufs : ring_of NBUF (bufs (k_fs s));
  rb_disk : disk (k_fs s) = D;
  rb_room : length (lh_block (log (k_fs s))) = Z.to_nat LOGSIZE;
  rb_ops : log_outstanding (log (k_fs s)) = 0 /\ log_committing (log (k_fs s)) = 0;
}.

Section recovery.
Context {E : Env}.
Context (dv size start nlog : Z).
Hypothesis Hsize : size <= 2 ^ 31.
Hypothesis Hdv : 0 < dv < 2 ^ 31.
Context (bl : list Z) (V : Z -> list Z) (D : gmap Z (list Z)).
Hypothesis Hf : fits size start bl.
Hypothesis Hclean : forall x, 0 <= x < size -> x ∉ bl -> D !! x = Some (V x).
Hypothesis Hlen : length (V start) = 1024%nat.
Hypothesis Hempty : word (V start) 0 = 0.
Hypothesis Hdom : forall x, 0 <= x < size -> is_Some (D !! x).

(** [initlog] on the disk that [commit] leaves when stopped after [k] writes. *)
Lemma recovery (k p : nat) (pr : proc) (sb : superblock) (s : kstate) :
  (p < NPROC)%nat -> disk_serves p -> sb_logstart sb = start -> sb_nlog sb = nlog -> 0 <= nlog < 2 ^ 31 ->
  rebooted p pr (crashed start bl V D k) s ->
  runs (initlog dv sb) s (fun _ s' => logging dv start nlog 0 [] (log (k_fs s')) /\
    forall x, 0 <= x < size -> ~ start <= x <= start + Z.of_nat (length bl) ->
      disk (k_fs s') !! x = if decide (k <= length bl)%nat then D !! x else Some (V x)).
Proof using Hsize Hdv Hf Hclean Hlen Hempty Hdom.
  intros Hp Henv Hsb Hnl Hnl2 [(h & ft & Hin) Hbufs Hdisk Hroom [Hops1 Hops2]].
  destruct (crashed_header size start bl V D Hf Hclean Hlen Hempty k Hsize) as (d & Hd & _ & Hw & Hls).
  assert (cache dv size pr (k_fs s) (fun x => disk (k_fs s) !!! x) (fun _ => 0) nolock) as Hc.
  { apply ring_cache; [done|lia|]. intros x Hx. rewrite Hdisk. by apply replay_some, Hdom. }
  assert (disk (k_fs s) !!! start = d) as Hst by (apply lookup_total_correct; by rewrite Hdisk).
  eapply runs_mono; [apply (fwp_initlog (h := h) (ft := ft) dv size start p pr Hp Henv Hsize Hdv sb (survivors bl k) (k_fs s) _
    (fun _ w => logging dv start nlog 0 [] (log (w_fs w)) /\
      wrote (k_fs s) (recover_writes start (fun x => disk (k_fs s) !!! x) (survivors bl k)) (w_fs w)) Hsb
    (fits_survivors _ _ _ Hf k) Hroom Hc); [by rewrite Hst|by rewrite Hst| |exact Hin]|].
  - intros fs' _ Hl' Ho' Hwr. split; [|done]. unfold ops_of in Ho'. injection Ho' as Ho1 Ho2 Ho3.
    split; cbn [w_fs]; [done| |congruence|congruence]. rewrite Ho1, Hnl. apply i32_small. lia.
  - intros _ s' (w & Hw' & Hl' & [HD _]). rewrite (in_fs _ _ _ _ Hw'). split; [done|]. intros x Hx Hout.
    rewrite HD, Hdisk. by apply (crashed_home size start bl V D Hf Hclean).
Qed.

(** Started again on the disk [Dk], the file system has the contents [W]. *)
Definition recovers (Dk : gmap Z (list Z)) (W : Z -> list Z) : Prop :=
  forall p pr sb boot,
    (p < NPROC)%nat -> disk_serves p -> sb_logstart sb = start -> sb_nlog sb = nlog -> rebooted p pr Dk boot ->
    runs (initlog dv sb) boot (fun _ s => logging dv start nlog 0 [] (log (k_fs s)) /\
      forall x, home size start nlog x -> disk (k_fs s) !! x = Some (W x)).

Lemma commit_recovers (V0 : Z -> list Z) (k : nat) :
  (forall x, 0 <= x < size -> D !! x = Some (V0 x)) -> 0 <= nlog < 2 ^ 31 -> Z.of_nat (length bl) < nlog ->
  recovers (crashed start bl V D k) (if decide (k <= length bl)%nat then V0 else V).
Proof using Hsize Hdv Hf Hclean Hlen Hempty Hdom.
  intros Hold Hnl Hn p pr sb boot Hp Henv Hsb1 Hsb2 Hboot.
  eapply runs_mono; [by apply (recovery k p pr sb boot)|]. intros _ s [Hlog Hblk]. split; [done|].
  intros x [Hx1 Hx2]. rewrite Hblk by (done || lia). destruct (decide _); [by apply Hold|done].
Qed.

(** The header is empty again at the end. *)
Lemma commit_header : exists d, replay D (commit_writes start V bl) !! start = Some d /\ length d = 1024%nat /\ word d 0 = 0.
Proof using Hsize Hf Hclean Hlen Hempty.
  destruct (crashed_header size start bl V D Hf Hclean Hlen Hempty (length (commit_writes start V bl)) Hsize) as (d & Hd & Hl & Hw & _).
  exists d. split; [|split; [done|]].
  - unfold crashed in Hd. by rewrite take_ge in Hd by done.
  - rewrite Hw. unfold survivors. rewrite decide_False; [done|]. unfold commit_writes. cbv zeta.
    rewrite !length_app, length_log_writes, length_fmap. cbn. lia.
Qed.
End recovery.

(** C1. Transactions are atomic and durable across crashes.  Between
    [begin_op] and [end_op] a system call changes blocks through the cache and
    [log_write].  When it is done, the home blocks on disk hold the new
    contents.  If the machine stops after any number [k] of the disk writes
    made on the way, and starts again, [initlog] ends with every home block as
    before the call if [k] is up to the commit point, and with every home
    block as after the call if it is beyond it; the log is then ready for the
    next transaction. *)
Theorem transaction_atomic {E : Env} (dv size start nlog : Z) (p : nat) (pr : proc) (ups : list (Z * list Z))
    (V : Z -> list Z) (h : heap) (ft : ftable) (s : kstate) :
  (p < NPROC)%nat -> disk_serves p -> 0 < dv < 2 ^ 31 -> size < 2 ^ 31 ->
  0 <= start -> start + nlog <= size -> MAXOPBLOCKS < nlog ->
  ups <> [] -> Z.of_nat (length ups) <= MAXOPBLOCKS -> Forall (fun u => home size start nlog u.1) ups ->
  inw p pr (World [] h ft (k_fs s)) s -> cache dv size pr (k_fs s) V (fun _ => 0) nolock ->
  logging dv start nlog 0 [] (log (k_fs s)) -> length (V start) = 1024%nat -> word (V start) 0 = 0 ->
  runs (transaction dv ups) s (fun _ s' =>
    logging dv start nlog 0 [] (log (k_fs s')) /\
    (forall x, home size start nlog x -> disk (k_fs s') !! x = Some (shown V ups x)) /\
    exists ws commit_point,
      writes (k_fs s') = rev ws ++ writes (k_fs s) /\ disk (k_fs s') = replay (disk (k_fs s)) ws /\
      (commit_point < length ws)%nat /\
      forall k, recovers dv size start nlog (replay (disk (k_fs s)) (take k ws)) (if decide (k <= commit_point)%nat then V else shown V ups)).
Proof.
  intros Hp Henv Hdv Hsz Hs1 Hs2 Hnl Hne Hn Hu Hin Hc Hl Hlen Hempty.
  assert (size <= 2 ^ 31) as Hsize by lia.
  destruct (logged_spec size start nlog ups []) as (B1 & B2 & B3); [done|constructor|constructor|]. cbn [length Nat.add] in B3.
  set (bl := logged ups []) in *.
  assert (fits size start bl) as Hf by (apply (fits_logged size start nlog); [done|done|lia|done|done|done]).
  assert (forall x, x ∉ bl -> shown V ups x = V x) as Hsame.
  { intros x Hx. apply shown_other. intros Hin'. apply Hx. apply logged_in. by right. }
  eapply runs_mono; [apply (fwp_transaction (h := h) (ft := ft) dv size start nlog p pr Hp Henv Hsize Hdv ups (k_fs s) V
    (fun _ w => logging dv start nlog 0 [] (log (w_fs w)) /\ wrote (k_fs s) (commit_writes start (shown V ups) bl) (w_fs w) /\
       forall x, home size start nlog x -> disk (w_fs w) !! x = Some (shown V ups x))
    Hne Hu Hn Hnl Hs1 Hs2 Hc Hl); [|exact Hin]|].
  - intros fs' V' Hc' Hl' HV Hwr. cbn [w_fs]. split_and!; [done|done|]. intros x Hx.
    rewrite <- HV by done. apply (ca_clean _ _ _ _ _ _ _ Hc'); [apply Hx|done].
  - intros _ s' (w & Hw & Hl' & (HD & HW & _) & Hnew). rewrite (in_fs _ _ _ _ Hw). split; [done|]. split; [done|].
    exists (commit_writes start (shown V ups) bl), (length bl). split_and!; [done|done| |].
    { unfold commit_writes. cbv zeta. rewrite length_app, length_log_writes. cbn. lia. }
    intros k. apply (commit_recovers dv size start nlog Hsize Hdv bl (shown V ups) (disk (k_fs s)) Hf).
    + intros x Hx Hxb. rewrite Hsame by done. by apply (ca_clean _ _ _ _ _ _ _ Hc).
    + rewrite Hsame; [done|]. by apply (start_not_in size).
    + rewrite Hsame; [done|]. by apply (start_not_in size).
    + by apply (ca_dom _ _ _ _ _ _ _ Hc).
    + intros x Hx. by apply (ca_clean _ _ _ _ _ _ _ Hc).
    + unfold MAXOPBLOCKS in *. lia.
    + unfold MAXOPBLOCKS in *. lia.
Qed.

(** A disk of twenty blocks, the log in the first twelve, and a machine with
    the cache that [binit] made. *)
Definition log_fs (bs : list buf) : fsys :=
  demo_fs <| bufs := bs |> <| log := Log 0 12 0 0 1 0 (replicate 30 0) |>
    <| disk := list_to_map ((fun i => (Z.of_nat i, demo_block (Z.of_nat i))) <$> seq 0 20) |>.

Lemma demo_ring : exists bs, ring_of NBUF bs.
Proof.
  assert (runs binit (bio_state boot_ctl demo_fs) (fun _ s => exists bs, ring_of NBUF bs)) as Hb.
  { apply kbinit; [split; [exact boot_ctl_ok|reflexivity]|reflexivity| |intros bs Hr; by exists bs].
    intros i Hi. change (bufs demo_fs) with (replicate 31 (Buf 0 0 0 0 (Sleeplock 0 0) 0 0 0 (demo_block 0))).
    rewrite lookup_total_replicate_2 by (unfold NBUF in Hi; lia). by split_and!. }
  by apply runs_inv in Hb as (_ & _ & _ & Hr).
Qed.

Lemma log_fs_block (bs : list buf) (x : Z) : 0 <= x < 20 -> disk (log_fs bs) !! x = Some (demo_block x).
Proof.
  intros Hx. unfold log_fs. cbn [disk set_with set_disk]. apply elem_of_list_to_map_1.
  - rewrite <- list_fmap_compose. apply NoDup_fmap_2_strong; [|apply NoDup_seq]. cbn. intros; lia.
  - apply list_elem_of_fmap. exists (Z.to_nat x). rewrite Z2Nat.id by lia. split; [done|]. apply elem_of_seq. lia.
Qed.

Lemma transaction_atomic_witness :
  exists bs, runs (transaction (E := machine_env) 1 [(15, demo_block 77); (16, demo_block 78)]) (bio_state demo_ctl (log_fs bs))
    (fun _ s' => disk (k_fs s') !! 15 = Some (demo_block 77) /\ exists ws n,
       disk (k_fs s') = replay (disk (log_fs bs)) ws /\
       runs (initlog (E := machine_env) 1 (Superblock 0 20 8 0 12 0 0 0))
         (bio_state demo_ctl ((log_fs bs) <| disk := replay (disk (log_fs bs)) (take n ws) |>))
         (fun _ s'' => disk (k_fs s'') !! 15 = Some (demo_block 15) /\ disk (k_fs s'') !! 16 = Some (demo_block 16)) /\
       runs (initlog (E := machine_env) 1 (Superblock 0 20 8 0 12 0 0 0))
         (bio_state demo_ctl ((log_fs bs) <| disk := replay (disk (log_fs bs)) (take (S n) ws) |>))
         (fun _ s'' => disk (k_fs s'') !! 15 = Some (demo_block 77) /\ disk (k_fs s'') !! 16 = Some (demo_block 78))).
Proof.
  destruct demo_ring as [bs Hr]. exists bs. set (pr := procs demo_pt !!! 0%nat).
  set (V := fun x => disk (log_fs bs) !!! x).
  assert (forall x, 0 <= x < 20 -> V x = demo_block x) as HV.
  { intros x Hx. apply lookup_total_correct. by apply log_fs_block. }
  assert (forall fs, inw 0 pr (World [] (Heap ∅ 0 0) (k_ft (demo_state demo_ctl)) fs) (bio_state demo_ctl fs)) as Hin.
  { intros fs. exact (demo_inw pr (Heap ∅ 0 0) (k_ft (demo_state demo_ctl)) fs eq_refl). }
  assert (home 20 0 12 15 /\ home 20 0 12 16) as [H15 H16] by (unfold home; lia).
  eapply runs_mono; [apply (transaction_atomic (E := machine_env) 1 20 0 12 0 pr [(15, demo_block 77); (16, demo_block 78)] V
    (Heap ∅ 0 0) (k_ft (demo_state demo_ctl)) (bio_state demo_ctl (log_fs bs)))|].
  1: vm_compute; lia.
  1: exact (machine_serves 0).
  1-5: unfold MAXOPBLOCKS; lia.
  1: discriminate.
  1: cbn; unfold MAXOPBLOCKS; lia.
  1: by repeat (constructor; [done|]).
  1: exact (Hin (log_fs bs)).
  1: { apply (ring_cache 1 20 pr (log_fs bs)); [exact Hr|discriminate|]. intros x Hx. eexists. by apply log_fs_block. }
  1: by repeat split.
  1: rewrite HV by lia; reflexivity.
  1: rewrite HV by lia; reflexivity.
  intros _ s' (_ & Hnew & ws & n & _ & Hd & _ & Hcrash). split; [by rewrite Hnew|].
  exists ws, n. split; [exact Hd|]. clear Hd Hnew.
  assert (forall k, rebooted 0 pr (replay (disk (log_fs bs)) (take k ws))
    (bio_state demo_ctl ((log_fs bs) <| disk := replay (disk (log_fs bs)) (take k ws) |>))) as Hboot.
  { intros k. split; [by eexists _, _|exact Hr|reflexivity|reflexivity|by split]. }
  split.
  - eapply runs_mono; [exact (Hcrash n 0%nat pr (Superblock 0 20 8 0 12 0 0 0) _ ltac:(vm_compute; lia) (machine_serves 0) eq_refl eq_refl (Hboot n))|].
    intros _ s'' [_ Hx]. split; (rewrite Hx by done; rewrite decide_True by lia; by rewrite HV by lia).
  - eapply runs_mono; [exact (Hcrash (S n) 0%nat pr (Superblock 0 20 8 0 12 0 0 0) _ ltac:(vm_compute; lia) (machine_serves 0) eq_refl eq_refl (Hboot (S n)))|].
    intros _ s'' [_ Hx]. split; (rewrite Hx by done; rewrite decide_False by lia; reflexivity).
Defined.
