(* ===== verification/FsTx.v ===== *)
(** * File-system code within a transaction

    What a system call between [begin_op] and [end_op] sees: blocks with
    contents [V], the blocks [bl] it has logged, the blocks [hd] whose buffers
    it holds, and the blocks [dt] it has changed since.  The disk still has the
    contents [D] of before; blocks that are neither logged nor changed show
    them. *)
From S2P Require Import Prelude Memory Riscv State Spinlock Kalloc Steps Vm Proc ProcSpec Plic Virtio VirtioSpec Sleeplock FsLogic Bio BioSpec Log LogSpec.

Definition tx_refs (bl hd : list Z) (x : Z) : Z := pinned bl x + pinned hd x.
Definition tx_locks (hd : list Z) (x : Z) : bool := bool_decide (x ∈ hd).

Lemma few_refs (bl hd : list Z) : (length bl + length hd < NBUF)%nat -> few (tx_refs bl hd).
Proof.
  intros Hn. exists (bl ++ hd). split; [|rewrite length_app; lia]. intros x Hx. unfold tx_refs, pinned in Hx.
  apply elem_of_app. destruct (decide (x ∈ bl)), (decide (x ∈ hd)); auto. lia.
Qed.

(** Taking one more block. *)
Lemma refs_cons (bl hd : list Z) (blk x : Z) : blk ∉ hd -> tx_refs bl (blk :: hd) x = bump (tx_refs bl hd) blk 1 x.
Proof.
  intros Hnew. unfold tx_refs, bump, pinned. destruct (Z.eqb_spec x blk) as [->|Hne].
  - rewrite (decide_True (P := blk ∈ blk :: hd)), (decide_False (P := blk ∈ hd)) by (done || by left). lia.
  - destruct (decide (x ∈ hd)); [rewrite (decide_True (P := x ∈ blk :: hd)) by (by right); done|].
    rewrite (decide_False (P := x ∈ blk :: hd)); [done|]. by intros [?|?]%elem_of_cons.
Qed.

Lemma locks_cons (hd : list Z) (blk x : Z) : tx_locks (blk :: hd) x = flip (tx_locks hd) blk true x.
Proof.
  unfold tx_locks, flip. destruct (Z.eqb_spec x blk) as [->|Hne]; [apply bool_decide_true; by left|].
  apply bool_decide_ext. rewrite elem_of_cons. tauto.
Qed.

Section tx.
Context {E : Env}.
Context (dv size start nlog : Z) (p : nat) (pr : proc) (D : gmap Z (list Z)).
Context {ft : ftable}.

#[local] Abbreviation cache := (cache dv size pr).
#[local] Abbreviation handle := (handle dv).
#[local] Abbreviation home := (home size start nlog).

Record tx (fs : fsys) (V : Z -> list Z) (bl hd dt : list Z) : Prop := {
  tx_cache : cache fs V (tx_refs bl hd) (tx_locks hd);
  tx_log : logging dv start nlog 1 bl (log fs);
  tx_home : Forall home bl;
  tx_nodup : NoDup bl;
  tx_disk : disk fs = D;
  tx_clean : forall x, 0 <= x < size -> x ∉ bl -> x ∉ dt -> D !! x = Some (V x);
}.

(** What block operations leave alone: the inodes, the superblock, the writes
    done, and the buffers of the blocks [hd]. *)
Record keeps (hd : list Z) (fs fs' : fsys) : Prop := {
  ke_itable : itable fs' = itable fs;
  ke_sb : sb fs' = sb fs;
  ke_writes : writes fs' = writes fs;
  ke_handle : forall b x, x ∈ hd -> handle fs b x -> handle fs' b x;
}.

Lemma keeps_refl (hd : list Z) (fs : fsys) : keeps hd fs fs.
Proof. by split. Qed.
Lemma keeps_trans (hd : list Z) (fs fs1 fs2 : fsys) : keeps hd fs fs1 -> keeps hd fs1 fs2 -> keeps hd fs fs2.
Proof. intros [A1 A2 A3 A4] [B1 B2 B3 B4]. split; [congruence..|]. auto. Qed.
Lemma keeps_sub (hd hd' : list Z) (fs fs' : fsys) : (forall x, x ∈ hd' -> x ∈ hd) -> keeps hd fs fs' -> keeps hd' fs fs'.
Proof. intros Hs [A1 A2 A3 A4]. split; auto. Qed.

Hypothesis Hp : (p < NPROC)%nat.
Hypothesis Henv : disk_serves p.
Hypothesis Hsize : size <= 2 ^ 31.

Section rules.
Context {fs : fsys} {V : Z -> list Z} {bl hd dt : list Z} {h : heap}.
Hypothesis Ht : tx fs V bl hd dt.

Lemma tx_refs_range (x : Z) : 0 <= tx_refs bl hd x <= 2.
Proof. unfold tx_refs. pose proof (pinned_range bl x). pose proof (pinned_range hd x). lia. Qed.

Lemma tx_data (b : nat) (blk : Z) : handle fs b blk -> b_data (bufs fs !!! b) = V blk.
Proof using Ht. intros Hh. by destruct (handle_ok dv size pr (tx_cache _ _ _ _ _ Ht) Hh) as (_ & _ & Hda & _). Qed.

Lemma fwp_tx_bread (blk : Z) (R : nat -> world -> Prop) :
  0 <= blk < size -> blk ∉ hd -> (length bl + length hd < NBUF)%nat ->
  (forall b fs', tx fs' V bl (blk :: hd) dt -> handle fs' b blk -> keeps hd fs fs' -> R b (World [] h ft fs')) ->
  fwp p pr (bread dv blk) (World [] h ft fs) R.
Proof using Hp Henv Hsize Ht.
  intros Hblk Hnew Hroom HR. destruct Ht as [Hc Hl Hh Hnd Hd Hcl]. pose proof (tx_refs_range blk) as Hr.
  apply (fwp_bread dv size p pr Hp Henv Hsize blk fs V (tx_refs bl hd) (tx_locks hd)); [done|done| |right; by apply few_refs|lia|].
  { unfold tx_locks. by rewrite bool_decide_false. }
  intros b fs' Hc' Hh' [E' S']. apply HR; [|done|].
  - split; [|by rewrite E'|done|done|by rewrite E'|done].
    apply (cache_ext _ _ _ _ _ _ _ _ _ _ Hc'); [done| |]; intros x; [by apply refs_cons|apply locks_cons].
  - split; [by rewrite E'|by rewrite E'|by rewrite E'|]. intros b' x Hx Hb'. apply S'; [done|].
    unfold tx_refs. rewrite (pinned_in hd) by done. pose proof (pinned_range bl x). lia.
Qed.

(** Changing the contents of a block held. *)
Lemma tx_poke (b : nat) (blk : Z) (f : buf -> buf) (d : list Z) :
  handle fs b blk -> blk ∈ hd -> (forall v, exists d', f v = v <| b_data := d' |>) -> b_data (f (bufs fs !!! b)) = d ->
  let fs' := fs <| bufs := alter f b (bufs fs) |> in
  tx fs' (put V blk d) bl hd (blk :: dt) /\ handle fs' b blk /\ keeps hd fs fs'.
Proof using Ht.
  intros Hb Hin Hf Hd fs'. destruct Ht as [Hc Hl Hh Hnd Hdk Hcl].
  destruct (cache_write dv size pr Hc Hb f d) as [Hc' Hb']; [by apply bool_decide_true|done|done|].
  split; [|split; [done|]].
  - split; try done. intros x Hx Hbl [Hne Hdt]%not_elem_of_cons. rewrite put_ne by done. by apply Hcl.
  - split; [done|done|done|]. intros b' x _ (H1 & H2 & H3). split; [done|]. unfold fs'. cbn [bufs set_with set_bufs].
    rewrite (proj_alter b_dev), (proj_alter b_blockno); [done| |]; intros v; by destruct (Hf v) as [d' ->].
Qed.

Lemma fwp_tx_log_write (b : nat) (blk : Z) (R : unit -> world -> Prop) :
  handle fs b blk -> blk ∈ hd -> home blk -> (forall x, x ∈ dt -> x = blk) ->
  Z.of_nat (length bl) < LOGSIZE -> Z.of_nat (length bl) < nlog - 1 ->
  (forall fs', tx fs' V (log_add bl blk) hd [] -> handle fs' b blk -> keeps hd fs fs' -> R tt (World [] h ft fs')) ->
  fwp p pr (log_write b) (World [] h ft fs) R.
Proof using Hp Henv Hsize Ht.
  intros Hb Hin Hhome Hdt Hn1 Hn2 HR. destruct Ht as [Hc Hl Hh Hnd Hdk Hcl]. pose proof (tx_refs_range blk) as Hr.
  apply (fwp_log_write dv size start nlog p pr Hp Henv Hsize b blk 1 bl fs V (tx_refs bl hd) (tx_locks hd) _ Hc Hb); [lia| |done|lia|done|done|].
  { eapply list.Forall_impl; [exact Hh|]. by intros x [Hx _]. }
  intros fs' Hc' S' Hl' E'. assert (handle fs' b blk) as Hb'.
  { apply S'; [done|]. unfold tx_refs. rewrite (pinned_in hd) by done. pose proof (pinned_range bl blk). lia. }
  apply HR; [|done|].
  - split; [|done| | |by rewrite E'|].
    + apply (cache_ext _ _ _ _ _ _ _ _ _ _ Hc'); [done| |done]. intros x. unfold tx_refs, bump, log_add, pinned.
      destruct (decide (blk ∈ bl)) as [Hbl|Hbl]; [destruct (x =? blk); lia|].
      destruct (Z.eqb_spec x blk) as [->|Hne].
      * rewrite (decide_True (P := blk ∈ bl ++ [blk])), (decide_False (P := blk ∈ bl)); [lia|done|apply elem_of_app; right; by left].
      * destruct (decide (x ∈ bl)); [rewrite (decide_True (P := x ∈ bl ++ [blk])) by (apply elem_of_app; by left); done|].
        rewrite (decide_False (P := x ∈ bl ++ [blk])); [done|]. by intros [?|?%list_elem_of_singleton]%elem_of_app.
    + unfold log_add. destruct (decide _); [done|]. apply Forall_app. split; [done|]. constructor; [done|constructor].
    + unfold log_add. destruct (decide _) as [|Hx]; [done|]. apply list.NoDup_app. split_and!; [done| |apply NoDup_singleton].
      intros x Hx' ->%list_elem_of_singleton. done.
    + intros x Hx Hbl _. assert ((x ∉ bl) /\ x <> blk) as [Hbl' Hne].
      { unfold log_add in Hbl. destruct (decide (blk ∈ bl)) as [Hi|Hi]; [split; [done|by intros ->]|].
        apply not_elem_of_app in Hbl as [H1 H2]. split; [done|]. intros ->. apply H2. by left. }
      apply Hcl; [done|done|]. intros Hd. by apply Hne, Hdt.
  - split; [by rewrite E'|by rewrite E'|by rewrite E'|]. intros b' x Hx Hb2. apply S'; [done|].
    unfold tx_refs. rewrite (pinned_in hd) by done. pose proof (pinned_range bl x). lia.
Qed.
End rules.

Lemma fwp_tx_brelse (fs : fsys) V (bl hd : list Z) (b : nat) (blk : Z) h (R : unit -> world -> Prop) :
  tx fs V bl (blk :: hd) [] -> blk ∉ hd -> handle fs b blk ->
  (forall fs', tx fs' V bl hd [] -> keeps hd fs fs' -> R tt (World [] h ft fs')) ->
  fwp p pr (brelse b) (World [] h ft fs) R.
Proof using Hp Henv Hsize.
  intros [Hc Hl Hh Hnd Hdk Hcl] Hnew Hb HR.
  assert (tx_refs bl (blk :: hd) blk = pinned bl blk + 1) as Hr by (unfold tx_refs; by rewrite (pinned_in (blk :: hd)) by left).
  pose proof (pinned_range bl blk) as Hpr. destruct (handle_ok dv size pr Hc Hb) as (Hblk & _).
  apply (fwp_brelse dv size p pr Hp Henv Hsize Hc Hb); [lia|apply bool_decide_true; by left| |].
  { intros Hz. rewrite Hdk. apply Hcl; [done| |apply not_elem_of_nil]. intros Hin. rewrite (pinned_in bl) in Hr by done. lia. }
  intros fs' Hc' [E' S']. apply HR.
  - split; [|by rewrite E'|done|done|by rewrite E'|done].
    apply (cache_ext _ _ _ _ _ _ _ _ _ _ Hc'); [done| |]; intros x.
    + unfold bump. rewrite refs_cons by done. unfold bump. destruct (x =? blk); lia.
    + unfold flip. rewrite locks_cons. unfold flip. destruct (Z.eqb_spec x blk) as [->|]; [by apply bool_decide_false|done].
  - split; [by rewrite E'|by rewrite E'|by rewrite E'|]. intros b' x Hx Hb'. apply S'; [done|].
    unfold tx_refs. rewrite (pinned_in (blk :: hd)) by (by right). pose proof (pinned_range bl x). lia.
Qed.
End tx.

(** ** The ends of a transaction *)
(** The file system between system calls, with contents [V]. *)
Record rest (dv size start nlog : Z) (pr : proc) (fs : fsys) (V : Z -> list Z) : Prop := {
  re_cache : cache dv size pr fs V (fun _ => 0) nolock;
  re_log : logging dv start nlog 0 [] (log fs);
  re_len : length (V start) = 1024%nat;
  re_empty : word (V start) 0 = 0;
}.

Section ends.
Context {E : Env}.
Context (dv size start nlog : Z) (p : nat) (pr : proc).
Context {ft : ftable} {h : heap}.

#[local] Abbreviation tx := (tx dv size start nlog pr).
#[local] Abbreviation rest := (rest dv size start nlog pr).
#[local] Abbreviation home := (home size start nlog).

Hypothesis Hp : (p < NPROC)%nat.
Hypothesis Henv : disk_serves p.
Hypothesis Hsize : size < 2 ^ 31.
Hypothesis Hdv : 0 < dv < 2 ^ 31.
Hypothesis Hstart : 0 <= start.
Hypothesis Hend : start + nlog <= size.
Hypothesis Hnlog : MAXOPBLOCKS < nlog.

Lemma fwp_tx_begin (fs : fsys) V (R : unit -> world -> Prop) :
  rest fs V -> (forall l, tx (disk fs) (fs <| log := l |>) V [] [] [] -> R tt (World [] h ft (fs <| log := l |>))) ->
  fwp p pr begin_op (World [] h ft fs) R.
Proof using Hp.
  intros [Hc Hl _ _] HR. apply (fwp_begin_op dv start nlog p pr Hp); [done|]. intros l Hl1. apply HR. split; try done.
  - apply cache_log. by apply (cache_ext _ _ _ _ _ _ _ _ _ _ Hc).
  - constructor.
  - intros x Hx _ _. by apply (ca_clean _ _ _ _ _ _ _ Hc).
Qed.

(** Between system calls there is nothing to recover. *)
Lemma rest_recovers (fs : fsys) V : rest fs V -> recovers dv size start nlog (disk fs) V.
Proof using Hsize Hdv Hstart Hend Hnlog.
  clear Hp Henv. intros [Hc Hl Hlen Hempty].
  assert (forall x, 0 <= x < size -> disk fs !! x = Some (V x)) as Hd by (intros x Hx; by apply (ca_clean _ _ _ _ _ _ _ Hc)).
  assert (fits size start []) as Hf.
  { apply (fits_logged size start nlog); [constructor|constructor|cbn; unfold MAXOPBLOCKS; lia|done|done|done]. }
  refine (commit_recovers dv size start nlog _ Hdv [] V (disk fs) Hf _ Hlen Hempty _ V 0 Hd _ _).
  - lia.
  - intros x Hx _. by apply Hd.
  - intros x Hx. eexists. by apply Hd.
  - unfold MAXOPBLOCKS in *. lia.
  - cbn. unfold MAXOPBLOCKS in *. lia.
Qed.

(** [end_op] commits: what the transaction shows is then on disk, and a crash
    on the way leaves all of it or nothing. *)
Lemma fwp_tx_end (D : gmap Z (list Z)) (fs : fsys) V0 V (bl : list Z) (R : unit -> world -> Prop) :
  tx D fs V bl [] [] -> bl <> [] -> Z.of_nat (length bl) <= MAXOPBLOCKS ->
  (forall x, 0 <= x < size -> D !! x = Some (V0 x)) -> length (V0 start) = 1024%nat -> word (V0 start) 0 = 0 ->
  (forall fs' V' ws, rest fs' V' -> (forall x, home x -> V' x = V x) -> wrote fs ws fs' ->
     (forall k, exists committed : bool, recovers dv size start nlog (replay D (take k ws)) (if committed then V' else V0)) ->
     R tt (World [] h ft fs')) ->
  fwp p pr end_op (World [] h ft fs) R.
Proof using Hp Henv Hsize Hdv Hstart Hend Hnlog.
  intros [Hc Hl Hh Hnd Hd Hcl] Hne Hn Hold Hlen Hempty HR. assert (size <= 2 ^ 31) as Hs by lia.
  pose proof (fits_logged size start nlog bl Hh Hnd Hn Hnlog Hstart Hend) as Hf.
  assert (forall x, 0 <= x < size -> x ∉ bl -> D !! x = Some (V x)) as Hclean.
  { intros x Hx Hxb. apply Hcl; [done|done|apply not_elem_of_nil]. }
  assert (0 <= start < size) as Hsr by (unfold MAXOPBLOCKS in *; lia).
  pose proof (start_not_in size start bl Hf) as Hst.
  assert (V start = V0 start) as Est by (pose proof (Hclean _ Hsr Hst) as Hx; rewrite Hold in Hx by done; congruence).
  apply (fwp_end_op dv size start nlog p pr Hp Henv Hs Hdv bl fs V); [done|done| |done|].
  { apply (cache_ext _ _ _ _ _ _ _ _ _ _ Hc); [done| |done]. intros x. unfold tx_refs. rewrite (pinned_out []) by apply not_elem_of_nil. lia. }
  intros fs' V' Hc' Hl' HV Hwr. rewrite <- Est in *.
  assert (forall x, home x -> V' x = V x) as HV' by (intros x [Hx1 Hx2]; apply HV; unfold MAXOPBLOCKS in *; lia).
  pose proof Hwr as (Hdisk & _). rewrite Hd in Hdisk.
  destruct (commit_header size start Hs bl V D Hf Hclean Hlen Hempty) as (d & Hd1 & Hd2 & Hd3).
  assert (V' start = d) as Ed.
  { pose proof (ca_clean _ _ _ _ _ _ _ Hc' start Hsr eq_refl) as Hx. rewrite Hdisk, Hd1 in Hx. congruence. }
  eapply (HR fs' V'); [split; [done|done|by rewrite Ed|by rewrite Ed]|done|exact Hwr|]. intros k.
  exists (negb (bool_decide (k <= length bl)%nat)).
  intros p' pr' sb boot Hp' Henv' Hsb1 Hsb2 Hboot. eapply runs_mono.
  - refine (commit_recovers dv size start nlog Hs Hdv bl V D Hf Hclean Hlen Hempty _ V0 k Hold _ _ p' pr' sb boot Hp' Henv' Hsb1 Hsb2 Hboot).
    + intros x Hx. eexists. by apply Hold.
    + unfold MAXOPBLOCKS in *. lia.
    + unfold MAXOPBLOCKS in *. lia.
  - intros _ s [Hlog Hblk]. split; [done|]. intros x Hx. rewrite Hblk by done. case_bool_decide; cbn [negb].
    + by rewrite decide_True.
    + rewrite decide_False by done. by rewrite HV'.
Qed.
End ends.
