(* ===== verification/Fs.v ===== *)
(** * The file system (kernel/fs.c)

    Blocks, inodes, directories and paths, on the buffer cache and the log. *)
From S2P Require Import Prelude Memory Riscv State Spinlock Cstring Kalloc Vm Proc Plic Virtio Sleeplock Bio Log.

(** ** kernel/fs.h, kernel/stat.h *)
Definition ROOTINO : Z := 1.
Definition FSMAGIC : Z := 0x10203040.
Definition NINDIRECT : nat := Z.to_nat (BSIZE / 4).
Definition MAXFILE : Z := Z.of_nat (NDIRECT + NINDIRECT).
Definition IPB : Z := BSIZE / 64.
Definition IBLOCK (i : Z) (sb : superblock) : Z := u32 (i / IPB + sb_inodestart sb).
Definition BPB : Z := BSIZE * 8.
Definition BBLOCK (b : Z) (sb : superblock) : Z := u32 (b / BPB + sb_bmapstart sb).
Definition DIRSIZ : nat := 14.
Definition T_DIR : Z := 1.
Definition T_FILE : Z := 2.
Definition T_DEVICE : Z := 3.

(** struct dinode: its 64 bytes, and its fields in the bytes. *)
Definition half (data : list Z) (off : nat) : Z := i16 (le_combine (slice data off 2)).
Definition dinode_bytes (v : inode) : list Z :=
  le_split 2 (i_type v) ++ le_split 2 (i_major v) ++ le_split 2 (i_minor v) ++
  le_split 2 (i_nlink v) ++ le_split 4 (i_size v) ++ (i_addrs v ≫= le_split 4).
Definition dinode_fields (d : list Z) (v : inode) : inode :=
  v <| i_type := half d 0 |> <| i_major := half d 2 |> <| i_minor := half d 4 |>
    <| i_nlink := half d 6 |> <| i_size := word d 2 |>
    <| i_addrs := (fun k => word d (3 + k)) <$> seq 0 (NDIRECT + 1) |>.

(** struct dirent. *)
Record dirent := Dirent { de_inum : Z; de_name : list Z }.
Definition dirent_bytes (de : dirent) : list Z := le_split 2 (de_inum de) ++ de_name de.
Definition dirent_of (bs : list Z) : dirent := Dirent (le_combine (take 2 bs)) (slice bs 2 DIRSIZ).
Definition sizeof_dirent : Z := 16.

(** A C array of bytes as a sequence. *)
Definition arr (l : list Z) : Z -> Z := fun i => nth (Z.to_nat i) l 0.

Section fs.
Context {L : Linker} {E : Env} {H : Hw}.

Definition get_sb : M superblock := gets (fun s => sb (k_fs s)).

(** ** Blocks *)
Definition readsb (dev : Z) : M unit :=
  bp ← bread dev 1;
  v ← get_buf bp;
  let w i := word (b_data v) i in
  modify (fun s => s <| k_fs := (k_fs s)
    <| sb := Superblock (w 0%nat) (w 1%nat) (w 2%nat) (w 3%nat) (w 4%nat) (w 5%nat) (w 6%nat) (w 7%nat) |> |>);;
  brelse bp.

Definition fsinit (dev : Z) : M unit :=
  readsb dev;;
  sb ← get_sb;
  if negb (sb_magic sb =? FSMAGIC) then panic "invalid file system" else
  initlog dev sb.

Definition bzero (dev bno : Z) : M unit :=
  bp ← bread dev bno;
  upd_buf bp (fun v => v <| b_data := replicate (Z.to_nat BSIZE) 0 |>);;
  log_write bp;;
  brelse bp.

Definition balloc (dev : Z) : M Z :=
  loop (fun b =>
    sb ← get_sb;
    if negb (b <? sb_size sb) then panic "balloc: out of blocks" else
    bp ← bread dev (BBLOCK b sb);
    r ← loop (fun bi =>
      if negb ((bi <? BPB) && (b + bi <? sb_size sb)) then mret (inr None) else
      v ← get_buf bp;
      let m := Z.shiftl 1 (bi mod 8) in
      let i := Z.to_nat (bi / 8) in
      if Z.land (b_data v !!! i) m =? 0 then
        upd_buf bp (fun v => v <| b_data := <[ i := Z.lor (b_data v !!! i) m ]> (b_data v) |>);;
        log_write bp;;
        brelse bp;;
        bzero dev (b + bi);;
        mret (inr (Some (b + bi)))
      else mret (inl (bi + 1))) 0;
    match r with
    | Some v => mret (inr v)
    | None => brelse bp;; mret (inl (b + BPB))
    end) 0.

Definition bfree (dev b : Z) : M unit :=
  sb ← get_sb;
  bp ← bread dev (BBLOCK b sb);
  let bi := b mod BPB in
  let m := Z.shiftl 1 (bi mod 8) in
  let i := Z.to_nat (bi / 8) in
  v ← get_buf bp;
  if Z.land (b_data v !!! i) m =? 0 then panic "freeing free block" else
  upd_buf bp (fun v => v <| b_data := <[ i := Z.land (b_data v !!! i) (Z.lnot m) ]> (b_data v) |>);;
  log_write bp;;
  brelse bp.

(** ** Inodes *)
Definition iinit : M unit :=
  put_lock L_itable initlock;;
  for_each (seq 0 NINODE) (fun i => initsleeplock (SlInode i)).

Definition iget (dev inum : Z) : M nat :=
  acquire L_itable;;
  r ← loop (fun '(ip, empty) =>
    if negb (ip <? NINODE)%nat then mret (inr (inr empty)) else
    v ← get_inode ip;
    if (0 <? i_ref v) && (i_dev v =? dev) && (i_inum v =? inum) then
      upd_inode ip (fun v => v <| i_ref := i_ref v + 1 |>);;
      release L_itable;;
      mret (inr (inl ip))
    else
      let empty := match empty with
                   | None => if i_ref v =? 0 then Some ip else None
                   | Some e => Some e
                   end in
      mret (inl (S ip, empty))) (O, None);
  match r with
  | inl ip => mret ip
  | inr None => panic "iget: no inodes"
  | inr (Some ip) =>
      upd_inode ip (fun v => v <| i_dev := dev |>);;
      upd_inode ip (fun v => v <| i_inum := inum |>);;
      upd_inode ip (fun v => v <| i_ref := 1 |>);;
      upd_inode ip (fun v => v <| i_valid := 0 |>);;
      release L_itable;;
      mret ip
  end.

Definition ialloc (dev type : Z) : M nat :=
  loop (fun inum =>
    sb ← get_sb;
    if negb (inum <? sb_ninodes sb) then panic "ialloc: no inodes" else
    bp ← bread dev (IBLOCK inum sb);
    v ← get_buf bp;
    let off := Z.to_nat (64 * (inum mod IPB)) in
    if half (b_data v) off =? 0 then
      upd_buf bp (fun v => v <| b_data := splice (b_data v) off (replicate 64 0) |>);;
      upd_buf bp (fun v => v <| b_data := splice (b_data v) off (le_split 2 type) |>);;
      log_write bp;;
      brelse bp;;
      ip ← iget dev inum;
      mret (inr ip)
    else
      brelse bp;;
      mret (inl (inum + 1))) 1.

Definition iupdate (ip : nat) : M unit :=
  sb ← get_sb;
  v ← get_inode ip;
  bp ← bread (i_dev v) (IBLOCK (i_inum v) sb);
  v ← get_inode ip;
  let off := Z.to_nat (64 * (i_inum v mod IPB)) in
  upd_buf bp (fun w => w <| b_data := splice (b_data w) off (dinode_bytes v) |>);;
  log_write bp;;
  brelse bp.

Definition idup (ip : nat) : M nat :=
  acquire L_itable;;
  upd_inode ip (fun v => v <| i_ref := i_ref v + 1 |>);;
  release L_itable;;
  mret ip.

Definition ilock (ip : nat) : M unit :=
  v ← get_inode ip;
  if i_ref v <? 1 then panic "ilock" else
  acquiresleep (SlInode ip);;
  v ← get_inode ip;
  if i_valid v =? 0 then
    sb ← get_sb;
    bp ← bread (i_dev v) (IBLOCK (i_inum v) sb);
    w ← get_buf bp;
    let dip := slice (b_data w) (Z.to_nat (64 * (i_inum v mod IPB))) 64 in
    upd_inode ip (dinode_fields dip);;
    brelse bp;;
    upd_inode ip (fun v => v <| i_valid := 1 |>);;
    v ← get_inode ip;
    if i_type v =? 0 then panic "ilock: no type" else mret tt
  else mret tt.

Definition iunlock (ip : nat) : M unit :=
  h ← holdingsleep (SlInode ip);
  v ← get_inode ip;
  if negb h || (i_ref v <? 1) then panic "iunlock" else
  releasesleep (SlInode ip).

(** ** Inode content *)
Definition bmap (ip : nat) (bn : Z) : M Z :=
  v ← get_inode ip;
  if bn <? Z.of_nat NDIRECT then
    let addr := i_addrs v !!! Z.to_nat bn in
    if addr =? 0 then
      addr ← balloc (i_dev v);
      upd_inode ip (fun v => v <| i_addrs := <[ Z.to_nat bn := addr ]> (i_addrs v) |>);;
      mret addr
    else mret addr
  else
  let bn := bn - Z.of_nat NDIRECT in
  if bn <? Z.of_nat NINDIRECT then
    let addr := i_addrs v !!! NDIRECT in
    addr ← (if addr =? 0 then
        addr ← balloc (i_dev v);
        upd_inode ip (fun v => v <| i_addrs := <[ NDIRECT := addr ]> (i_addrs v) |>);;
        mret addr
      else mret addr);
    bp ← bread (i_dev v) addr;
    w ← get_buf bp;
    let addr := word (b_data w) (Z.to_nat bn) in
    addr ← (if addr =? 0 then
        addr ← balloc (i_dev v);
        upd_buf bp (fun w => w <| b_data := set_word (b_data w) (Z.to_nat bn) addr |>);;
        log_write bp;;
        mret addr
      else mret addr);
    brelse bp;;
    mret addr
  else panic "bmap: out of range".

Definition itrunc (ip : nat) : M unit :=
  for_each (seq 0 NDIRECT) (fun i =>
    v ← get_inode ip;
    if truth (i_addrs v !!! i) then
      bfree (i_dev v) (i_addrs v !!! i);;
      upd_inode ip (fun v => v <| i_addrs := <[ i := 0 ]> (i_addrs v) |>)
    else mret tt);;
  v ← get_inode ip;
  (if truth (i_addrs v !!! NDIRECT) then
     bp ← bread (i_dev v) (i_addrs v !!! NDIRECT);
     for_each (seq 0 NINDIRECT) (fun j =>
       w ← get_buf bp;
       if truth (word (b_data w) j) then bfree (i_dev v) (word (b_data w) j) else mret tt);;
     brelse bp;;
     bfree (i_dev v) (i_addrs v !!! NDIRECT);;
     upd_inode ip (fun v => v <| i_addrs := <[ NDIRECT := 0 ]> (i_addrs v) |>)
   else mret tt);;
  upd_inode ip (fun v => v <| i_size := 0 |>);;
  iupdate ip.

Definition iput (ip : nat) : M unit :=
  acquire L_itable;;
  v ← get_inode ip;
  (if (i_ref v =? 1) && truth (i_valid v) && (i_nlink v =? 0) then
     acquiresleep (SlInode ip);;
     release L_itable;;
     itrunc ip;;
     upd_inode ip (fun v => v <| i_type := 0 |>);;
     iupdate ip;;
     upd_inode ip (fun v => v <| i_valid := 0 |>);;
     releasesleep (SlInode ip);;
     acquire L_itable
   else mret tt);;
  upd_inode ip (fun v => v <| i_ref := i_ref v - 1 |>);;
  release L_itable.

Definition iunlockput (ip : nat) : M unit := iunlock ip;; iput ip.

(** The bytes of the struct stat.  C leaves the four bytes of padding before
    [size] open; they are taken as zero. *)
Definition stati (ip : nat) : M (list Z) :=
  v ← get_inode ip;
  mret (le_split 4 (i_dev v) ++ le_split 4 (i_inum v) ++ le_split 2 (i_type v) ++
        le_split 2 (i_nlink v) ++ replicate 4 0 ++ le_split 8 (i_size v)).

(** The result, and the bytes read, in order. *)
Definition readi (ip : nat) (dst : dest) (off n : Z) : M (Z * list Z) :=
  v ← get_inode ip;
  if (i_size v <? off) || (u32 (off + n) <? off) then mret (0, []) else
  let n := if i_size v <? u32 (off + n) then u32 (i_size v - off) else n in
  loop (fun '(tot, off, dst, bs) =>
    if negb (tot <? n) then mret (inr (i32 tot, bs)) else
    addr ← bmap ip (off / BSIZE);
    v ← get_inode ip;
    bp ← bread (i_dev v) addr;
    let m := Z.min (u32 (n - tot)) (BSIZE - off mod BSIZE) in
    w ← get_buf bp;
    let chunk := slice (b_data w) (Z.to_nat (off mod BSIZE)) (Z.to_nat m) in
    r ← either_copyout dst chunk;
    if r =? -1 then brelse bp;; mret (inr (-1, bs)) else
    brelse bp;;
    mret (inl (u32 (tot + m), u32 (off + m), dest_add dst m, bs ++ chunk))) (0, off, dst, []).

Definition writei (ip : nat) (src : source) (off n : Z) : M Z :=
  v ← get_inode ip;
  if (i_size v <? off) || (u32 (off + n) <? off) then mret (-1) else
  if MAXFILE * BSIZE <? u32 (off + n) then mret (-1) else
  r ← loop (fun '(tot, off, src) =>
    if negb (tot <? n) then mret (inr (tot, off)) else
    addr ← bmap ip (off / BSIZE);
    v ← get_inode ip;
    bp ← bread (i_dev v) addr;
    let m := Z.min (u32 (n - tot)) (BSIZE - off mod BSIZE) in
    r ← either_copyin src m;
    upd_buf bp (fun w => w <| b_data := splice (b_data w) (Z.to_nat (off mod BSIZE)) r.2 |>);;
    if r.1 =? -1 then brelse bp;; mret (inr (tot, off)) else
    log_write bp;;
    brelse bp;;
    mret (inl (u32 (tot + m), u32 (off + m), source_add src m))) (0, off, src);
  let '(tot, off) := r in
  v ← get_inode ip;
  (if i_size v <? off then upd_inode ip (fun v => v <| i_size := off |>) else mret tt);;
  iupdate ip;;
  mret (i32 tot).

(** ** Directories *)
Definition namecmp (s t : list Z) : Z := strncmp (arr s) (arr t) (Z.of_nat DIRSIZ).

(** The inode and the offset of the entry, if there is one. *)
Definition dirlookup (dp : nat) (name : list Z) : M (option (nat * Z)) :=
  v ← get_inode dp;
  if negb (i_type v =? T_DIR) then panic "dirlookup not DIR" else
  loop (fun off =>
    v ← get_inode dp;
    if negb (off <? i_size v) then mret (inr None) else
    r ← readi dp ToVar off sizeof_dirent;
    if negb (r.1 =? sizeof_dirent) then panic "dirlookup read" else
    let de := dirent_of r.2 in
    if de_inum de =? 0 then mret (inl (u32 (off + sizeof_dirent))) else
    if namecmp name (de_name de) =? 0 then
      v ← get_inode dp;
      ip ← iget (i_dev v) (de_inum de);
      mret (inr (Some (ip, off)))
    else mret (inl (u32 (off + sizeof_dirent)))) 0.

Definition dirlink (dp : nat) (name : list Z) (inum : Z) : M Z :=
  r ← dirlookup dp name;
  match r with
  | Some (ip, _) => iput ip;; mret (-1)
  | None =>
      off ← loop (fun off =>
        v ← get_inode dp;
        if negb (off <? i_size v) then mret (inr off) else
        r ← readi dp ToVar off sizeof_dirent;
        if negb (r.1 =? sizeof_dirent) then panic "dirlink read" else
        if de_inum (dirent_of r.2) =? 0 then mret (inr off)
        else mret (inl (off + sizeof_dirent))) 0;
      let de := Dirent (u16 inum) (strncpy_bytes (arr name) 0 DIRSIZ) in
      r ← writei dp (FromKernel (dirent_bytes de)) off sizeof_dirent;
      if negb (r =? sizeof_dirent) then panic "dirlink" else mret 0
  end.

(** ** Paths.  A path is the bytes before its terminator. *)
Definition slash : Z := 47.
Fixpoint skip_slashes (path : list Z) : list Z :=
  match path with
  | c :: path' => if c =? slash then skip_slashes path' else path
  | [] => []
  end.
Fixpoint split_elem (path : list Z) : list Z * list Z :=
  match path with
  | c :: path' => if c =? slash then ([], path) else let '(e, rest) := split_elem path' in (c :: e, rest)
  | [] => ([], [])
  end.

(** The rest of the path and the new contents of the array [name]. *)
Definition skipelem (path name : list Z) : option (list Z * list Z) :=
  let path := skip_slashes path in
  if bool_decide (path = []) then None else
  let '(s, path) := split_elem path in
  let len := length s in
  let name := if (DIRSIZ <=? len)%nat then splice name 0 (take DIRSIZ s) else splice name 0 (s ++ [0]) in
  Some (skip_slashes path, name).

Definition namex (path : list Z) (nameiparent : bool) (name : list Z) : M (option nat * list Z) :=
  ip ← (if bool_decide (head path = Some slash) then iget ROOTDEV ROOTINO
        else p ← curproc; pr ← get_proc p; cwd ← deref (p_cwd pr); idup cwd);
  loop (fun '(path, ip, name) =>
    match skipelem path name with
    | None =>
        if nameiparent then iput ip;; mret (inr (None, name)) else mret (inr (Some ip, name))
    | Some (path, name) =>
        ilock ip;;
        v ← get_inode ip;
        if negb (i_type v =? T_DIR) then iunlockput ip;; mret (inr (None, name)) else
        if nameiparent && bool_decide (path = []) then iunlock ip;; mret (inr (Some ip, name)) else
        next ← dirlookup ip name;
        match next with
        | None => iunlockput ip;; mret (inr (None, name))
        | Some (next, _) => iunlockput ip;; mret (inl (path, next, name))
        end
    end) (path, ip, name).

Definition namei (path : list Z) : M (option nat) :=
  r ← namex path false (replicate DIRSIZ 0); mret r.1.
Definition nameiparent (path : list Z) (name : list Z) : M (option nat * list Z) :=
  namex path true name.

End fs.
