(* ===== verification/FsAlloc.v ===== *)
(** * Allocating disk blocks (theorems on kernel/fs.c)

    [balloc] within a transaction: it finds a block whose bit in the bitmap is
    clear, sets the bit, and clears the block; both changes are logged. *)
From S2P Require Import Prelude Memory Riscv State Spinlock Kalloc Steps Vm Proc ProcSpec Plic Virtio VirtioSpec Sleeplock FsLogic Bio BioSpec Log LogSpec FsTx Fs.

(** The bit of a block in the bitmap block [bm]. *)
Definition bit (V : Z -> list Z) (bm x : Z) : bool := Z.testbit (V bm !!! Z.to_nat (x / 8)) (x mod 8).
Definition zeros : list Z := replicate (Z.to_nat BSIZE) 0.

Lemma land_bit (a k : Z) : 0 <= k -> (Z.land a (Z.shiftl 1 k) =? 0) = negb (Z.testbit a k).
Proof.
  intros Hk. destruct (Z.testbit a k) eqn:E; cbn [negb].
  - apply Z.eqb_neq. intros H. assert (Z.testbit (Z.land a (Z.shiftl 1 k)) k = false) as Hf by (by rewrite H, Z.bits_0).
    rewrite Z.land_spec, E, Z.shiftl_spec, Z.sub_diag in Hf by done. done.
  - apply Z.eqb_eq. apply Z.bits_inj'. intros n Hn. rewrite Z.land_spec, Z.shiftl_spec, Z.bits_0 by done.
    destruct (decide (n = k)) as [->|Hne]; [by rewrite E|].
    replace (Z.testbit 1 (n - k)) with false; [apply andb_false_r|]. symmetry.
    destruct (Z.ltb_spec n k); [apply Z.testbit_neg_r; lia|].
    change 1 with (2 ^ 0). apply Z.pow2_bits_false. lia.
Qed.

(** The bitmap block with the bit of [x] set. *)
Definition set_bit (d : list Z) (x : Z) : list Z :=
  <[ Z.to_nat (x / 8) := Z.lor (d !!! Z.to_nat (x / 8)) (Z.shiftl 1 (x mod 8)) ]> d.

Lemma bit_set (V : Z -> list Z) (bm x y : Z) :
  0 <= x -> 0 <= y -> (Z.to_nat (x / 8) < length (V bm))%nat ->
  bit (put V bm (set_bit (V bm) x)) bm y = bit V bm y || (y =? x).
Proof.
  intros Hx Hy Hl. unfold bit, set_bit. rewrite put_eq.
  pose proof (Z.div_pos x 8 Hx ltac:(lia)). pose proof (Z.div_pos y 8 Hy ltac:(lia)).
  pose proof (Z.mod_pos_bound x 8 ltac:(lia)). pose proof (Z.mod_pos_bound y 8 ltac:(lia)).
  pose proof (Z.div_mod x 8 ltac:(lia)). pose proof (Z.div_mod y 8 ltac:(lia)).
  destruct (decide (x / 8 = y / 8)) as [E|E].
  - rewrite <- E, list_lookup_total_insert_eq by done. rewrite Z.lor_spec. f_equal.
    rewrite Z.shiftl_spec by lia. destruct (Z.eqb_spec y x) as [->|Hne]; [by rewrite Z.sub_diag|].
    destruct (Z.ltb_spec (y mod 8) (x mod 8)); [apply Z.testbit_neg_r; lia|].
    change 1 with (2 ^ 0). apply Z.pow2_bits_false. lia.
  - rewrite list_lookup_total_insert_ne by lia. rewrite (proj2 (Z.eqb_neq y x)); [by rewrite orb_false_r|].
    intros ->. done.
Qed.

Section alloc.
Context {L : Linker} {E : Env} {H : Hw}.
Context (dv size start nlog : Z) (p : nat) (pr : proc) (D : gmap Z (list Z)).
Context {ft : ftable} {h : heap}.
Context (sbk : superblock) (bm : Z).

#[local] Abbreviation tx := (tx dv size start nlog pr D).
#[local] Abbreviation keeps := (keeps dv).
#[local] Abbreviation home := (home size start nlog).

Hypothesis Hp : (p < NPROC)%nat.
Hypothesis Henv : disk_serves p.
Hypothesis Hsize : size <= BPB.
Hypothesis Hnlog : MAXOPBLOCKS < nlog.
Hypothesis Hsb : sb_size sbk = size.
Hypothesis Hbm : sb_bmapstart sbk = bm.
Hypothesis Hbm_home : home bm.

Lemma size_small : size <= 2 ^ 31.
Proof using Hsize. clear -Hsize. unfold BPB, BSIZE in Hsize. lia. Qed.

Lemma log_add_length (bl : list Z) (x : Z) : (length (log_add bl x) <= S (length bl))%nat.
Proof. clear. unfold log_add. destruct (decide _); [lia|]. rewrite length_app. cbn. lia. Qed.

Lemma fwp_bzero (x : Z) (fs : fsys) V (bl hd : list Z) (R : unit -> world -> Prop) :
  tx fs V bl hd [] -> x ∉ hd -> home x -> Z.of_nat (length bl) < MAXOPBLOCKS -> (length hd < 3)%nat ->
  (forall fs', tx fs' (put V x zeros) (log_add bl x) hd [] -> keeps hd fs fs' -> R tt (World [] h ft fs')) ->
  fwp p pr (bzero dv x) (World [] h ft fs) R.
Proof using Hp Henv Hsize Hnlog.
  intros Ht Hx Hhome Hn Hh HR. unfold bzero. fstep. pose proof size_small as Hs.
  apply (fwp_tx_bread dv size start nlog p pr D Hp Henv Hs Ht x); [apply Hhome|done|unfold NBUF, MAXOPBLOCKS in *; lia|].
  intros b fs1 Ht1 Hb1 K1. do 2 fstep.
  destruct (tx_poke dv size start nlog pr D Ht1 b x (fun v => v <| b_data := zeros |>) zeros Hb1) as (Ht2 & Hb2 & K2);
    [by left|by eexists|done|]. fold zeros.
  match goal with |- fwp _ _ _ (World [] h ft ?f) _ => set (fs2 := f) in * end. fstep.
  apply (fwp_tx_log_write dv size start nlog p pr D Hp Henv Hs Ht2 b x); [done|by left|done| |unfold LOGSIZE, MAXOPBLOCKS in *; lia|lia|].
  { intros y Hy. by apply list_elem_of_singleton in Hy. }
  intros fs3 Ht3 Hb3 K3.
  apply (fwp_tx_brelse dv size start nlog p pr D Hp Henv Hs fs3 _ _ hd b x h _ Ht3 Hx Hb3). intros fs4 Ht4 K4.
  apply HR; [done|]. apply (keeps_trans _ _ _ fs1); [done|].
  apply (keeps_trans _ _ _ fs3); [|done]. apply (keeps_sub _ (x :: hd)); [intros y Hy; by right|].
  by apply (keeps_trans _ _ _ fs2).
Qed.

(** What the rest of the file system knows of the bitmap. *)
Record bitmap_ok (V : Z -> list Z) : Prop := {
  bo_len : length (V bm) = Z.to_nat BSIZE;
  bo_free : forall x, 0 <= x < size -> bit V bm x = false -> home x /\ 0 < x /\ x <> bm;
}.

Lemma get_sb_spec (fs : fsys) (R : superblock -> world -> Prop) :
  sb fs = sbk -> R sbk (World [] h ft fs) -> fwp p pr get_sb (World [] h ft fs) R.
Proof. intros Hs HR. unfold get_sb. apply (fwp_gets_fs p pr sb); [done|]. by rewrite Hs. Qed.

(** The first block with a clear bit, from [bi] on. *)
Lemma fwp_balloc (fs : fsys) V (bl hd : list Z) (R : Z -> world -> Prop) :
  tx fs V bl hd [] -> sb fs = sbk -> bm ∉ hd -> bitmap_ok V ->
  (forall y, y ∈ hd -> bit V bm y = true) -> (exists x, 0 <= x < size /\ bit V bm x = false) ->
  Z.of_nat (length bl) + 2 <= MAXOPBLOCKS -> (length hd < 2)%nat ->
  (forall x fs', 0 <= x < size -> bit V bm x = false ->
     tx fs' (put (put V bm (set_bit (V bm) x)) x zeros) (log_add (log_add bl bm) x) hd [] -> keeps hd fs fs' ->
     R x (World [] h ft fs')) ->
  fwp p pr (balloc dv) (World [] h ft fs) R.
Proof using Hp Henv Hsize Hnlog Hsb Hbm Hbm_home.
  intros Ht Hsbf Hbmh [Hlen Hfree] Hused (x0 & Hx0 & Hb0) Hn Hh HR. unfold balloc. pose proof size_small as Hs.
  apply (fwp_loop p pr (fun b w => b = 0 /\ w = World [] h ft fs) (fun _ _ => 0)); [done|lia|]. intros b w [-> ->].
  fstep. apply get_sb_spec; [done|]. rewrite Hsb. rewrite (proj2 (Z.ltb_lt 0 size)) by lia. cbn [negb].
  assert (BBLOCK 0 sbk = bm) as ->.
  { unfold BBLOCK. rewrite Z.div_0_l, Hbm by done. destruct Hbm_home as [Hb _]. apply u32_small. unfold is_u32. lia. }
  fstep. apply (fwp_tx_bread dv size start nlog p pr D Hp Henv Hs Ht bm); [apply Hbm_home|done|unfold NBUF, MAXOPBLOCKS in *; lia|].
  intros bp fs1 Ht1 Hb1 K1. fstep.
  apply (fwp_loop p pr (fun bi w => (0 <= bi <= x0) /\ w = World [] h ft fs1) (fun bi _ => x0 - bi)); [split; [lia|done]| |].
  { unfold BPB, BSIZE in *. lia. }
  intros bi w [Hbi ->]. rewrite (proj2 (Z.ltb_lt bi BPB)), (proj2 (Z.ltb_lt (0 + bi) size)) by lia. cbn [negb andb].
  do 2 fstep. rewrite (tx_data dv size start nlog pr D Ht1 bp bm Hb1).
  pose proof (Z.mod_pos_bound bi 8 ltac:(lia)) as Hmod. rewrite land_bit by lia. fold (bit V bm bi).
  destruct (bit V bm bi) eqn:Eb; cbn [negb].
  { fstep. assert (bi <> x0) by congruence. split; [|lia]. split; [lia|done]. }
  destruct (Hfree bi ltac:(lia) Eb) as (Hhome & Hpos & Hne). rewrite Z.add_0_l.
  set (f := fun v => v <| b_data := <[ Z.to_nat (bi / 8) := Z.lor (b_data v !!! Z.to_nat (bi / 8)) (Z.shiftl 1 (bi mod 8)) ]> (b_data v) |>).
  destruct (tx_poke dv size start nlog pr D Ht1 bp bm f (set_bit (V bm) bi) Hb1) as (Ht2 & Hb2 & K2);
    [by left|by eexists|unfold f, set_bit; cbn; by rewrite (tx_data dv size start nlog pr D Ht1 bp bm Hb1)|].
  do 2 fstep. match goal with |- fwp _ _ _ (World [] h ft ?f) _ => set (fs2 := f) in * end. fstep.
  apply (fwp_tx_log_write dv size start nlog p pr D Hp Henv Hs Ht2 bp bm); [done|by left|done| |unfold LOGSIZE, MAXOPBLOCKS in *; lia|lia|].
  { intros y Hy. by apply list_elem_of_singleton in Hy. }
  intros fs3 Ht3 Hb3 K3. fstep.
  apply (fwp_tx_brelse dv size start nlog p pr D Hp Henv Hs fs3 _ _ hd bp bm h _ Ht3 Hbmh Hb3). intros fs4 Ht4 K4.
  pose proof (log_add_length bl bm) as Hll.
  fstep. apply (fwp_bzero bi fs4 _ _ hd _ Ht4); [intros Hin; by rewrite (Hused bi Hin) in Eb|done|lia|lia|].
  intros fs5 Ht5 K5. do 2 fstep. apply HR; [lia|done|done|].
  apply (keeps_trans _ _ _ fs1); [done|]. apply (keeps_trans _ _ _ fs3); [apply (keeps_sub _ (bm :: hd)); [intros y Hy; by right|]; by apply (keeps_trans _ _ _ fs2)|].
  by apply (keeps_trans _ _ _ fs4).
Qed.
End alloc.
