(* ===== verification/FsSpec.v ===== *)
(** * Inodes, files and paths (theorems on kernel/fs.c)

    The on-disk form of an inode reads back as it was written, the elements
    of a path are its pieces between slashes, and reading a file gives the
    bytes of its blocks. *)
From S2P Require Import Prelude Memory Riscv State Spinlock Kalloc Steps Vm Usercopy AddressSpace Proc ProcSpec UserMem Plic Virtio VirtioSpec Sleeplock FsLogic Bio BioSpec Log LogSpec Fs.

(** ** The fields of a structure in its bytes *)
Lemma slice_app_l {A} (l k : list A) (n : nat) : length l = n -> slice (l ++ k) 0 n = l.
Proof. intros <-. unfold slice. rewrite drop_0. apply take_app_length. Qed.

Lemma slice_app_r {A} (l k : list A) (m o n : nat) : length l = m -> slice (l ++ k) (m + o) n = slice k o n.
Proof. intros <-. unfold slice. rewrite <- drop_drop, drop_app_length. done. Qed.

Lemma i16_split (x : Z) : - 2 ^ 15 <= x < 2 ^ 15 -> i16 (le_combine (le_split 2 x)) = x.
Proof.
  intros Hx. rewrite le_combine_split. change (256 ^ Z.of_nat 2) with (2 ^ 16). unfold i16, signed.
  rewrite Z.mod_mod by lia. change (2 ^ (16 - 1)) with (2 ^ 15). destruct (Z.lt_ge_cases x 0) as [Hn|Hn].
  - rewrite <- (Z.mod_unique x (2 ^ 16) (-1) (x + 2 ^ 16)) by lia. rewrite (proj2 (Z.ltb_ge _ _)) by lia. lia.
  - rewrite Z.mod_small by lia. rewrite (proj2 (Z.ltb_lt _ _)) by lia. done.
Qed.

Lemma u32_split (x : Z) : is_u32 x -> le_combine (le_split 4 x) = x.
Proof. intros Hx. rewrite le_combine_split. apply Z.mod_small. exact Hx. Qed.

Lemma slice_words (l : list Z) (k : nat) : (k < length l)%nat -> slice (l ≫= le_split 4) (4 * k) 4 = le_split 4 (l !!! k).
Proof.
  revert k. induction l as [|x l IH]; intros k Hk; [cbn in Hk; lia|]. rewrite bind_cons. destruct k as [|k].
  - rewrite slice_app_l by (apply length_le_split). done.
  - replace (4 * S k)%nat with (4 + 4 * k)%nat by lia. rewrite slice_app_r by (apply length_le_split).
    apply IH. cbn in Hk. lia.
Qed.

(** The fields of an inode in memory fit those on disk. *)
Record dinode_ok (v : inode) : Prop := {
  dk_type : - 2 ^ 15 <= i_type v < 2 ^ 15;
  dk_major : - 2 ^ 15 <= i_major v < 2 ^ 15;
  dk_minor : - 2 ^ 15 <= i_minor v < 2 ^ 15;
  dk_nlink : - 2 ^ 15 <= i_nlink v < 2 ^ 15;
  dk_size : is_u32 (i_size v);
  dk_addrs : Forall is_u32 (i_addrs v);
  dk_count : length (i_addrs v) = (NDIRECT + 1)%nat;
}.

Lemma length_words (l : list Z) : length (l ≫= le_split 4) = (4 * length l)%nat.
Proof. induction l as [|x l IH]; [done|]. rewrite bind_cons, length_app, length_le_split, IH. cbn. lia. Qed.

Lemma length_dinode (v : inode) : dinode_ok v -> length (dinode_bytes v) = 64%nat.
Proof. intros Hv. unfold dinode_bytes. rewrite !length_app, !length_le_split, length_words, (dk_count _ Hv). done. Qed.

Lemma dinode_halves (v : inode) :
  half (dinode_bytes v) 0 = i16 (le_combine (le_split 2 (i_type v))) /\
  half (dinode_bytes v) 2 = i16 (le_combine (le_split 2 (i_major v))) /\
  half (dinode_bytes v) 4 = i16 (le_combine (le_split 2 (i_minor v))) /\
  half (dinode_bytes v) 6 = i16 (le_combine (le_split 2 (i_nlink v))) /\
  word (dinode_bytes v) 2 = le_combine (le_split 4 (i_size v)) /\
  forall k, slice (dinode_bytes v) (4 * (3 + k)) 4 = slice (i_addrs v ≫= le_split 4) (4 * k) 4.
Proof.
  unfold half, word, dinode_bytes. split_and!.
  - by rewrite slice_app_l.
  - rewrite (slice_app_r _ _ 2 0 2) by done. by rewrite slice_app_l.
  - rewrite (slice_app_r _ _ 2 2 2), (slice_app_r _ _ 2 0 2) by done. by rewrite slice_app_l.
  - rewrite (slice_app_r _ _ 2 4 2), (slice_app_r _ _ 2 2 2), (slice_app_r _ _ 2 0 2) by done. by rewrite slice_app_l.
  - rewrite (slice_app_r _ _ 2 6 4), (slice_app_r _ _ 2 4 4), (slice_app_r _ _ 2 2 4), (slice_app_r _ _ 2 0 4) by done.
    by rewrite slice_app_l.
  - intros k. replace (4 * (3 + k))%nat with (2 + (2 + (2 + (2 + (4 + 4 * k)))))%nat by lia.
    do 5 rewrite slice_app_r by done. done.
Qed.

(** The fields that [iupdate] writes and [ilock] reads. *)
Definition dfields (v : inode) : Z * Z * Z * Z * Z * list Z :=
  (i_type v, i_major v, i_minor v, i_nlink v, i_size v, i_addrs v).

Lemma dinode_fields_bytes (v w : inode) : dinode_ok v ->
  dinode_fields (dinode_bytes v) w =
  w <| i_type := i_type v |> <| i_major := i_major v |> <| i_minor := i_minor v |>
    <| i_nlink := i_nlink v |> <| i_size := i_size v |> <| i_addrs := i_addrs v |>.
Proof.
  intros [D1 D2 D3 D4 D5 D6 D7]. destruct (dinode_halves v) as (E1 & E2 & E3 & E4 & E5 & E6).
  unfold dinode_fields. rewrite E1, E2, E3, E4, E5, !i16_split, u32_split by done.
  assert ((fun k => word (dinode_bytes v) (3 + k)) <$> seq 0 (NDIRECT + 1) = i_addrs v) as ->; [|done].
  apply list_eq. intros k. rewrite list_lookup_fmap. destruct (decide (k < NDIRECT + 1)%nat) as [Hk|Hk].
  - rewrite lookup_seq_lt by done. destruct (lookup_lt_is_Some_2 (i_addrs v) k) as [x Hx]; [lia|].
    rewrite Hx. cbn [fmap option_fmap option_map]. change (0 + k)%nat with k. unfold word. rewrite (E6 k), slice_words by lia.
    rewrite (list_lookup_total_correct _ _ _ Hx), u32_split; [done|]. by apply (Forall_lookup_1 _ _ _ _ D6 Hx).
  - rewrite lookup_seq_ge, lookup_ge_None_2 by lia. done.
Qed.

(** ** Paths

    The pieces of a path between slashes, and the elements: those that are
    not empty. *)
Fixpoint pieces (path : list Z) : list (list Z) :=
  match path with
  | [] => [[]]
  | c :: path => if c =? slash then [] :: pieces path
                 else match pieces path with e :: es => (c :: e) :: es | [] => [[c]] end
  end.
Definition is_elem (e : list Z) : bool := negb (bool_decide (e = [])).
Definition elements (path : list Z) : list (list Z) := List.filter is_elem (pieces path).

(** The names that [namex] looks up, one after the other. *)
Fixpoint names (fuel : nat) (path name : list Z) : list (list Z) :=
  match fuel with
  | O => []
  | S fuel => match skipelem path name with
              | None => []
              | Some (path, name) => cstr name :: names fuel path name
              end
  end.

Lemma elements_slash (path : list Z) : elements (slash :: path) = elements path.
Proof. done. Qed.

Lemma skip_slashes_spec (path : list Z) :
  elements (skip_slashes path) = elements path /\ head (skip_slashes path) <> Some slash /\
  (length (skip_slashes path) <= length path)%nat /\ (forall P, Forall P path -> Forall P (skip_slashes path)).
Proof.
  induction path as [|c path (H1 & H2 & H3 & H4)]; [done|]. cbn [skip_slashes].
  destruct (Z.eqb_spec c slash) as [->|Hne].
  - rewrite elements_slash. split_and!; [done|done|cbn; lia|]. intros P HP. inversion_clear HP. auto.
  - split_and!; [done|cbn; congruence|done|done].
Qed.

Lemma split_elem_spec (path : list Z) :
  let '(e, rest) := split_elem path in
  path = e ++ rest /\ (rest = [] \/ exists r, rest = slash :: r) /\ Forall (fun c => c <> slash) e.
Proof.
  induction path as [|c path IH]; cbn [split_elem].
  { split_and!; [done|by left|constructor]. }
  destruct (Z.eqb_spec c slash) as [->|Hne]; [split_and!; [done|right; by eexists|constructor]|].
  destruct (split_elem path) as [e rest]. destruct IH as (-> & H2 & H3). split_and!; [done|done|by constructor].
Qed.

Lemma pieces_app (e rest : list Z) : Forall (fun c => c <> slash) e ->
  rest = [] \/ (exists r, rest = slash :: r) ->
  pieces (e ++ rest) = e :: match rest with [] => [] | _ :: r => pieces r end.
Proof.
  intros He Hr. induction He as [|c e Hc _ IH]; cbn [app pieces].
  - by destruct Hr as [->|[r ->]].
  - rewrite (proj2 (Z.eqb_neq _ _)) by done. by rewrite IH.
Qed.

Lemma skipelem_spec (path name : list Z) :
  Forall (fun c => c <> 0) path -> length name = DIRSIZ ->
  match skipelem path name with
  | None => elements path = []
  | Some (rest, name') => exists e, elements path = e :: elements rest /\ cstr name' = take DIRSIZ e /\
      length name' = DIRSIZ /\ Forall (fun c => c <> 0) rest /\ (length rest < length path)%nat
  end.
Proof.
  intros Hp Hn. destruct (skip_slashes_spec path) as (S1 & S2 & S3 & S4). specialize (S4 _ Hp).
  unfold skipelem. rewrite <- S1. set (q := skip_slashes path) in *. clearbody q.
  case_bool_decide as Hq; [by rewrite Hq|].
  pose proof (split_elem_spec q) as Hs. destruct (split_elem q) as [e rest]. destruct Hs as (-> & Hr & He).
  destruct (skip_slashes_spec rest) as (R1 & _ & R3 & R4). apply Forall_app in S4 as [Ze Zr]. specialize (R4 _ Zr).
  assert (e <> []) as Hne.
  { intros ->. destruct Hr as [->|[r ->]]; [done|]. by cbn in S2. }
  exists e. rewrite R1. rewrite length_app in S3. split_and!; [| | |done|destruct e; [done|cbn in S3; lia]].
  - unfold elements. rewrite pieces_app by done. cbn [List.filter]. unfold is_elem at 1. rewrite bool_decide_false by done.
    cbn [negb]. f_equal. by destruct Hr as [->|[r ->]].
  - destruct (Nat.leb_spec DIRSIZ (length e)) as [Hl|Hl]; unfold splice; rewrite take_0; cbn [app].
    + rewrite length_take, drop_ge by lia. rewrite app_nil_r. apply cstr_full. by apply Forall_take.
    + rewrite <- app_assoc. cbn [app]. rewrite cstr_string by done. symmetry. apply take_ge. lia.
  - destruct (Nat.leb_spec DIRSIZ (length e)) as [Hl|Hl]; rewrite length_splice; rewrite ?length_app, ?length_take; cbn [length]; lia.
Qed.

(** Path names are parsed as meant: looking up the elements of a path one
    after the other with [skipelem] visits exactly the non-empty pieces of
    the path between slashes, in order, each cut to [DIRSIZ] characters, and
    ends after at most as many steps as the path has characters. *)
Theorem path_elements (path name : list Z) (fuel : nat) :
  Forall (fun c => c <> 0) path -> length name = DIRSIZ -> (length path < fuel)%nat ->
  names fuel path name = take DIRSIZ <$> elements path.
Proof.
  revert path name. induction fuel as [|fuel IH]; intros path name Hp Hn Hf; [lia|]. cbn [names].
  pose proof (skipelem_spec path name Hp Hn) as Hs. destruct (skipelem path name) as [[rest name']|]; [|by rewrite Hs].
  destruct Hs as (e & -> & -> & Hn' & Hr & Hlt). rewrite fmap_cons, IH by (done || lia). done.
Qed.

Lemma path_elements_witness :
  names 40 (bytes_of "///usr//bin/a_rather_long_name/") (replicate 14 7) =
  [bytes_of "usr"; bytes_of "bin"; bytes_of "a_rather_long_"].
Proof.
  rewrite (path_elements (bytes_of "///usr//bin/a_rather_long_name/") (replicate 14 7) 40);
    [reflexivity|repeat constructor; discriminate|reflexivity|vm_compute; lia].
Defined.

(** ** Copies out of the kernel *)
Section copyout.
Context {L : Linker} {LOk : LinkerOk L} {E : Env}.
Context {p : nat} {pr : proc}.

(** The destination can take [n] bytes. *)
Definition dest_ok (d : dest) (n : Z) (h : heap) : Prop :=
  match d with
  | ToUser va => uspace (p_pagetable pr) h /\ 0 <= va /\ va + n <= MAXVA /\
                 ubytes (mem h) (p_pagetable pr) va (Z.to_nat n) <> None
  | ToKernel pa => 0 <= pa /\ pa + n < 2 ^ 64
  | ToVar => True
  end.

(** [bs] has arrived there. *)
Definition lands (d : dest) (bs : list Z) (h h' : heap) : Prop :=
  match d with
  | ToUser va => uput (p_pagetable pr) va bs h h'
  | ToKernel pa => h' = h <| mem := store (mem h) pa bs |>
  | ToVar => h' = h
  end.

Lemma inw_heap (w : world) (h' : heap) (s : kstate) :
  inw p pr w s -> inw p pr (World (w_locks w) h' (w_ft w) (w_fs w)) (s <| k_heap := h' |>).
Proof. destruct s. intros [? ? ? ? ? ? ?]. by split. Qed.

Lemma fwp_heap {A} (m : M A) (ls : list lock_id) h ft fs (Q : A -> heap -> Prop) (R : A -> world -> Prop) :
  L_kmem ∉ ls -> hwp m h Q -> (forall a h', Q a h' -> R a (World ls h' ft fs)) -> fwp p pr m (World ls h ft fs) R.
Proof.
  intros Hl Hm HR s Hs. apply inw_open in Hs as (c & pt & vd & dev & n & -> & Hc & Hp & Hpr & Hvd).
  pose proof Hc as [[Hcalm Hn] Hcur]. destruct (held_ok ls c (calm_ok _ Hcalm)) as [Hok _].
  apply (kheap _ _ Q); [done|by apply held_free|done|]. intros a h' HQ. eexists. split; [|by apply HR]. by apply inw_close.
Qed.

Lemma fwp_myproc (ls : list lock_id) h ft fs (R : option nat -> world -> Prop) :
  R (Some p) (World ls h ft fs) -> fwp p pr myproc (World ls h ft fs) R.
Proof.
  intros HR s Hs. pose proof Hs as Hs'. apply inw_open in Hs as (c & pt & vd & dev & n & -> & Hc & Hp & Hpr & Hvd).
  pose proof Hc as [[Hcalm Hn] Hcur]. destruct (held_ok ls c (calm_ok _ Hcalm)) as [Hok Ec].
  apply kmyproc; [done|]. rewrite Ec, Hcur. by eexists.
Qed.

Lemma fwp_either_copyout (d : dest) (bs : list Z) (ls : list lock_id) h ft fs (R : Z -> world -> Prop) :
  L_kmem ∉ ls -> dest_ok d (Z.of_nat (length bs)) h -> Z.of_nat (length bs) < 2 ^ 64 ->
  (forall h', lands d bs h h' -> R 0 (World ls h' ft fs)) ->
  fwp p pr (either_copyout d bs) (World ls h ft fs) R.
Proof using LOk.
  intros Hl Hd Hlen HR. unfold either_copyout. fstep. apply fwp_myproc. destruct d as [va|pa|]; cbn [dest_ok lands] in *.
  - unfold deref. do 2 fstep. apply fwp_bind, fwp_get_proc. intros st ch.
    destruct Hd as (Hu & Hva & Hn & Hacc). rewrite Nat2Z.id in Hacc. intros s Hs.
    apply inw_open in Hs as (c & pt & vd & dev & n & -> & Hc & Hp & Hpr & Hvd).
    pose proof Hc as [[Hcalm Hn'] Hcur]. destruct (held_ok ls c (calm_ok _ Hcalm)) as [Hok _].
    apply (kcopyout (p_pagetable pr) va bs); [done|by apply held_free|done|unfold is_u64; plia|done| |by intros].
    intros h' _ Hput. eexists. split; [|by apply HR]. by apply inw_close.
  - apply (fwp_heap _ _ _ _ _ (fun a h' => a = 0 /\ h' = h <| mem := store (mem h) pa bs |>)); [done| |intros a h' [-> ->]; by apply HR].
    apply hwp_bind, hwp_get_mem, hwp_bind, hwp_put_mem, hwp_ret. done.
  - fstep. by apply HR.
Qed.

Definition dest_at (d : dest) (k : Z) : dest :=
  match d with ToUser va => ToUser (va + k) | ToKernel pa => ToKernel (pa + k) | ToVar => ToVar end.

Lemma dest_add_at (d : dest) (k m n : Z) (h : heap) :
  dest_ok d n h -> 0 <= k -> 0 <= m -> k + m <= n -> dest_add (dest_at d k) m = dest_at d (k + m).
Proof.
  destruct d as [va|pa|]; cbn [dest_ok dest_add dest_at]; intros Hd Hk Hm Hn; [| |done].
  - destruct Hd as (_ & H1 & H2 & _). rewrite u64_small by (unfold is_u64; plia). f_equal. lia.
  - destruct Hd as [H1 H2]. rewrite u64_small by (unfold is_u64; lia). f_equal. lia.
Qed.

Lemma store_app (m : memory) (a : Z) (bs cs : list Z) : store m a (bs ++ cs) = store (store m a bs) (a + Z.of_nat (length bs)) cs.
Proof.
  revert m a. induction bs as [|b bs IH]; intros m a; cbn [app store length].
  - by rewrite Z.add_0_r.
  - rewrite IH. f_equal. lia.
Qed.

Lemma lands_nil (d : dest) (n : Z) (h : heap) : dest_ok d n h -> lands d [] h h.
Proof.
  destruct d as [va|pa|]; cbn [dest_ok lands]; [|by destruct h|done]. intros (Hu & _). by apply uput_nil.
Qed.

Lemma lands_app (d : dest) (n : Z) (bs cs : list Z) (h h1 h2 : heap) :
  dest_ok d n h -> lands d bs h h1 -> lands (dest_at d (Z.of_nat (length bs))) cs h1 h2 -> lands d (bs ++ cs) h h2.
Proof.
  destruct d as [va|pa|]; cbn [dest_ok lands dest_at].
  - intros (_ & Hva & _) H1 H2. by apply (uput_app _ _ _ _ _ h1).
  - intros _ -> ->. cbn [mem set_with set_mem]. rewrite store_app. by destruct h.
  - intros _ -> ->. reflexivity.
Qed.

Lemma dest_ok_at (d : dest) (n m : Z) (bs : list Z) (h h1 : heap) :
  dest_ok d n h -> lands d bs h h1 -> 0 <= m -> Z.of_nat (length bs) + m <= n ->
  dest_ok (dest_at d (Z.of_nat (length bs))) m h1.
Proof.
  destruct d as [va|pa|]; cbn [dest_ok lands dest_at]; [| |done].
  - intros (Hu & Hva & Hn & Ha) Hp Hm Hle. pose proof Hp as [Hs _ _]. split_and!; [done|lia|lia|].
    rewrite (uput_access _ _ _ _ _ _ _ Hp). apply (access_sub _ _ _ _ (Z.to_nat n)); [done|lia].
  - intros [H1 H2] _ Hm Hle. lia.
Qed.
End copyout.

(** ** Reading a file *)
Definition fblk (V : Z -> list Z) (v : inode) (bn : Z) : Z :=
  if bn <? Z.of_nat NDIRECT then i_addrs v !!! Z.to_nat bn
  else word (V (i_addrs v !!! NDIRECT)) (Z.to_nat (bn - Z.of_nat NDIRECT)).
Definition fbyte (V : Z -> list Z) (v : inode) (i : Z) : Z := V (fblk V v (i / BSIZE)) !!! Z.to_nat (i mod BSIZE).
Definition fbytes (V : Z -> list Z) (v : inode) (off : Z) (n : nat) : list Z :=
  (fun i => fbyte V v (off + Z.of_nat i)) <$> seq 0 n.

Lemma fbytes_app V v (off : Z) (n m : nat) : fbytes V v off (n + m) = fbytes V v off n ++ fbytes V v (off + Z.of_nat n) m.
Proof.
  unfold fbytes. rewrite seq_app, fmap_app. f_equal.
  replace (seq (0 + n) m) with (Nat.add n <$> seq 0 m) by (rewrite fmap_add_seq; f_equal; lia). rewrite <- list_fmap_compose.
  apply list_fmap_ext. intros i x _. cbn. f_equal. lia.
Qed.

Lemma length_fbytes V v (off : Z) (n : nat) : length (fbytes V v off n) = n.
Proof. unfold fbytes. by rewrite length_fmap, length_seq. Qed.

Lemma chunk_fbytes V v (off : Z) (m : nat) :
  0 <= off -> length (V (fblk V v (off / BSIZE))) = Z.to_nat BSIZE -> off mod BSIZE + Z.of_nat m <= BSIZE ->
  slice (V (fblk V v (off / BSIZE))) (Z.to_nat (off mod BSIZE)) m = fbytes V v off m.
Proof.
  unfold BSIZE. intros Ho Hl Hm. pose proof (Z.mod_pos_bound off 1024 ltac:(lia)) as Hb.
  apply list_eq. intros i. rewrite lookup_slice. unfold fbytes. rewrite list_lookup_fmap. destruct (decide (i < m)%nat) as [Hi|Hi].
  - rewrite lookup_seq_lt by done. cbn [fmap option_fmap option_map Nat.add]. unfold fbyte, BSIZE.
    assert ((off + Z.of_nat i) / 1024 = off / 1024 /\ (off + Z.of_nat i) mod 1024 = off mod 1024 + Z.of_nat i) as [-> ->].
    { pose proof (Z.div_mod off 1024 ltac:(lia)) as Hdm.
      split; [symmetry; apply (Z.div_unique _ _ _ (off mod 1024 + Z.of_nat i)); lia|].
      symmetry. apply (Z.mod_unique _ _ (off / 1024)); lia. }
    rewrite (list_lookup_lookup_total_lt _ (Z.to_nat (off mod 1024) + i)) by lia. do 2 f_equal. lia.
  - by rewrite lookup_seq_ge by lia.
Qed.

Section reading.
Context {L : Linker} {LOk : LinkerOk L} {E : Env}.
Context (dv size : Z) (p : nat) (pr : proc).
Context {ft : ftable}.

#[local] Abbreviation cache := (cache dv size pr).
#[local] Abbreviation handle := (handle dv).

(** Block [blk] can be read: it is in range and nobody has it locked. *)
Definition readable (K : Z -> Z) (lk : Z -> bool) (blk : Z) : Prop :=
  0 < blk < size /\ lk blk = false /\ K blk < 2 ^ 32 - 1.

(** The blocks of a file up to its size are there. *)
Record file_ok (V : Z -> list Z) (K : Z -> Z) (lk : Z -> bool) (v : inode) : Prop := {
  fo_dev : i_dev v = dv;
  fo_size : 0 <= i_size v <= MAXFILE * BSIZE;
  fo_blocks : forall bn, 0 <= bn -> bn * BSIZE < i_size v ->
    readable K lk (fblk V v bn) /\ length (V (fblk V v bn)) = Z.to_nat BSIZE;
  fo_indirect : Z.of_nat NDIRECT * BSIZE < i_size v -> readable K lk (i_addrs v !!! NDIRECT);
}.

Hypothesis Hp : (p < NPROC)%nat.
Hypothesis Henv : disk_serves p.
Hypothesis Hsize : size <= 2 ^ 31.

(** Giving back a block that was only read. *)
Lemma fwp_unread (b : nat) (blk : Z) (fs fs1 : fsys) V K lk h (R : unit -> world -> Prop) :
  cache fs V K lk -> readable K lk blk -> cache fs1 V (bump K blk 1) (flip lk blk true) -> handle fs1 b blk ->
  disk fs1 = disk fs -> (forall fs2, cache fs2 V K lk -> fs2 = fs1 <| bufs := bufs fs2 |> -> R tt (World [] h ft fs2)) ->
  fwp p pr (brelse b) (World [] h ft fs1) R.
Proof using Hp Henv Hsize.
  intros Hc (Hblk & Hl & HK) Hc1 Hh Hd HR. pose proof (ca_pos _ _ _ _ _ _ _ Hc blk).
  apply (fwp_brelse dv size p pr Hp Henv Hsize Hc1 Hh); rewrite ?bump_eq, ?flip_eq; [lia|done| |].
  { intros Hz. rewrite Hd. apply (ca_clean _ _ _ _ _ _ _ Hc); lia. }
  intros fs2 Hc2 [E2 _]. apply HR; [|done].
  apply (cache_ext _ _ _ _ _ _ _ _ _ _ Hc2); [done| |]; intros x; unfold bump, flip.
  - destruct (x =? blk); lia.
  - destruct (Z.eqb_spec x blk) as [->|]; [done|done].
Qed.

Lemma fwp_bmap (ip : nat) (bn : Z) (fs : fsys) V K lk h (R : Z -> world -> Prop) :
  let v := itable fs !!! ip in
  cache fs V K lk -> few K -> file_ok V K lk v -> 0 <= bn -> bn * BSIZE < i_size v ->
  (forall fs', cache fs' V K lk -> fs' = fs <| bufs := bufs fs' |> -> R (fblk V v bn) (World [] h ft fs')) ->
  fwp p pr (bmap ip bn) (World [] h ft fs) R.
Proof using Hp Henv Hsize.
  intros v Hc Hfew Hf Hbn Hlt HR. unfold bmap. do 2 fstep. fold v. pose proof Hf as [Hdev Hsz Hblocks Hind].
  destruct (Hblocks bn Hbn Hlt) as [(Hr1 & Hr2 & Hr3) _]. unfold fblk in *.
  destruct (Z.ltb_spec bn (Z.of_nat NDIRECT)) as [Hd|Hd].
  - rewrite (proj2 (Z.eqb_neq _ 0)) by lia. fstep. apply HR; [done|by destruct fs].
  - assert (bn < MAXFILE) as Hmax by (unfold BSIZE in *; lia).
    rewrite (proj2 (Z.ltb_lt _ _)) by (unfold MAXFILE in *; lia).
    assert (readable K lk (i_addrs v !!! NDIRECT)) as Hi by (apply Hind; unfold BSIZE in *; lia).
    pose proof Hi as (Hi1 & Hi2 & Hi3). rewrite (proj2 (Z.eqb_neq (i_addrs v !!! NDIRECT) 0)) by lia.
    do 2 fstep. rewrite Hdev. fstep.
    apply (fwp_bread dv size p pr Hp Henv Hsize _ fs V K lk); [done|lia|done|by right|done|].
    intros b fs1 Hc1 Hh1 [E1 _]. destruct (handle_ok dv size pr Hc1 Hh1) as (_ & _ & Hda & _).
    do 2 fstep. rewrite Hda. rewrite (proj2 (Z.eqb_neq (word _ _) 0)) by lia. do 2 fstep.
    fstep. apply (fwp_unread _ (i_addrs v !!! NDIRECT) fs fs1 V K lk); [done|done|done|done|by rewrite E1|].
    intros fs2 Hc2 E2. fstep. apply HR; [done|]. by rewrite E2, E1.
Qed.

(** How much of a request lies within the file. *)
Definition within (v : inode) (off n : Z) : Z := if i_size v <? off then 0 else Z.min n (i_size v - off).

Lemma fwp_readi (ip : nat) (d : dest) (off n : Z) (fs : fsys) V K lk h (R : Z * list Z -> world -> Prop) :
  let v := itable fs !!! ip in let m := within v off n in
  cache fs V K lk -> few K -> file_ok V K lk v -> 0 <= off -> 0 <= n -> off + n < 2 ^ 32 -> dest_ok (pr := pr) d m h ->
  (forall fs' h', cache fs' V K lk -> fs' = fs <| bufs := bufs fs' |> ->
     lands (pr := pr) d (fbytes V v off (Z.to_nat m)) h h' ->
     R (m, fbytes V v off (Z.to_nat m)) (World [] h' ft fs')) ->
  fwp p pr (readi ip d off n) (World [] h ft fs) R.
Proof using LOk Hp Henv Hsize.
  intros v m Hc Hfew Hf Ho Hn Hon Hd HR. unfold readi. do 2 fstep. fold v. pose proof (fo_size _ _ _ _ Hf) as Hsz.
  rewrite (u32_small (off + n)), (proj2 (Z.ltb_ge (off + n) off)) by (unfold is_u32; lia). rewrite orb_false_r.
  unfold m, within in *. destruct (Z.ltb_spec (i_size v) off) as [Hlt|Hle].
  { fstep. apply HR; [done|by destruct fs|]. by apply (lands_nil _ 0). }
  assert (MAXFILE * BSIZE < 2 ^ 31) as Hmax by done.
  replace (if i_size v <? off + n then u32 (i_size v - off) else n) with (Z.min n (i_size v - off)).
  2: { destruct (Z.ltb_spec (i_size v) (off + n)); [rewrite u32_small by (unfold is_u32; lia)|]; lia. }
  set (t := Z.min n (i_size v - off)) in *.
  apply (fwp_loop p pr (fun x w => exists k fs1 h1, (0 <= k <= t) /\
      x = (k, off + k, dest_at d k, fbytes V v off (Z.to_nat k)) /\ w = World [] h1 ft fs1 /\
      cache fs1 V K lk /\ fs1 = fs <| bufs := bufs fs1 |> /\ lands (pr := pr) d (fbytes V v off (Z.to_nat k)) h h1)
    (fun x _ => t - x.1.1.1)).
  { exists 0, fs, h. split; [lia|]. split; [rewrite Z.add_0_r; by destruct d; cbn [dest_at]; rewrite ?Z.add_0_r|].
    split; [done|]. split; [done|]. split; [by destruct fs|]. by apply (lands_nil _ t). }
  { cbn. lia. }
  intros x w (k & fs1 & h1 & Hk & -> & -> & Hc1 & E1 & Hla). cbv beta iota.
  assert (itable fs1 !!! ip = v) as Ev by (by rewrite E1).
  destruct (Z.ltb_spec k t) as [Hkt|Hkt]; cbn [negb].
  2: { fstep. assert (k = t) as -> by lia. rewrite i32_small by lia. by apply HR. }
  pose proof (Z.mod_pos_bound (off + k) BSIZE ltac:(done)) as Hmod.
  pose proof (Z.div_mod (off + k) BSIZE ltac:(done)) as Hdm.
  assert (0 <= (off + k) / BSIZE) as Hdiv by (apply Z.div_pos; [lia|done]).
  assert ((off + k) / BSIZE * BSIZE < i_size v) as Hin by lia.
  destruct (fo_blocks _ _ _ _ Hf _ Hdiv Hin) as [Hrd Hlen]. pose proof Hrd as (Hr1 & Hr2 & Hr3).
  fstep. apply (fwp_bmap ip _ fs1 V K lk); rewrite ?Ev; [done|done|done|done|done|]. intros fs2 Hc2 E2.
  do 2 fstep. assert (itable fs2 !!! ip = v) as -> by (by rewrite E2). rewrite (fo_dev _ _ _ _ Hf).
  fstep. apply (fwp_bread dv size p pr Hp Henv Hsize _ fs2 V K lk); [done|lia|done|by right|done|].
  intros b fs3 Hc3 Hh3 [E3 _]. destruct (handle_ok dv size pr Hc3 Hh3) as (_ & _ & Hda & _). do 2 fstep. rewrite Hda.
  rewrite (u32_small (t - k)) by (unfold is_u32; lia). set (c := Z.min (t - k) (BSIZE - (off + k) mod BSIZE)).
  rewrite chunk_fbytes by (done || lia).
  assert (Z.of_nat (length (fbytes V v off (Z.to_nat k))) = k) as Hlk by (rewrite length_fbytes; lia).
  assert (Z.of_nat (length (fbytes V v (off + k) (Z.to_nat c))) = c) as Hlc by (rewrite length_fbytes; lia).
  assert (fbytes V v off (Z.to_nat (k + c)) = fbytes V v off (Z.to_nat k) ++ fbytes V v (off + k) (Z.to_nat c)) as Eb.
  { replace (Z.to_nat (k + c)) with (Z.to_nat k + Z.to_nat c)%nat by lia. rewrite fbytes_app. by rewrite Z2Nat.id by lia. }
  fstep. apply fwp_either_copyout; [unlocked| |lia|].
  { rewrite Hlc. rewrite <- Hlk at 1. apply (dest_ok_at d t c _ h); [done|done|lia|lia]. }
  intros h2 Hla2. change (0 =? -1) with false. cbv iota. fstep.
  apply (fwp_unread _ (fblk V v ((off + k) / BSIZE)) fs2 fs3 V K lk); [done|done|done|done|by rewrite E3|].
  intros fs4 Hc4 E4. fstep. rewrite (u32_small (k + c)), (u32_small (off + k + c)) by (unfold is_u32; lia).
  rewrite (dest_add_at d k c t h) by (done || lia). cbn [fst]. split; [|lia].
  exists (k + c), fs4, h2. split; [lia|]. split; [by rewrite Eb, Z.add_assoc|]. split; [done|]. split; [done|].
  split; [by rewrite E4, E3, E2, E1|]. rewrite Eb. apply (lands_app d t _ _ h h1); [done|done|]. by rewrite Hlk.
Qed.
End reading.

(** ** Locking an inode in use *)
Section inode.
Context {E : Env}.
Context {p : nat} {pr : proc} {h : heap} {ft : ftable}.

Definition with_lock (ip : nat) (l : sleeplock) (fs : fsys) : fsys := sl_set (SlInode ip) l fs.

Lemma with_lock_field {B} (g : inode -> B) (ip : nat) (l : sleeplock) (fs : fsys) :
  (forall v l, g (v <| i_lock := l |>) = g v) -> g (itable (with_lock ip l fs) !!! ip) = g (itable fs !!! ip).
Proof. intros Hg. unfold with_lock. cbn [sl_set itable set_with set_itable]. by apply (proj_alter g). Qed.

Lemma with_lock_lock (ip : nat) (l : sleeplock) (fs : fsys) :
  (ip < length (itable fs))%nat -> i_lock (itable (with_lock ip l fs) !!! ip) = l.
Proof. intros Hip. unfold with_lock. cbn [sl_set itable set_with set_itable]. by rewrite list_lookup_total_alter_eq. Qed.

Lemma with_lock_eq (ip : nat) (l : sleeplock) (fs : fsys) :
  (ip < length (itable fs))%nat -> itable (with_lock ip l fs) !!! ip = (itable fs !!! ip) <| i_lock := l |>.
Proof. intros Hip. unfold with_lock. cbn [sl_set itable set_with set_itable]. by rewrite list_lookup_total_alter_eq. Qed.

Lemma with_lock_back (ip : nat) (l l' : sleeplock) (fs : fsys) :
  (ip < length (itable fs))%nat -> i_lock (itable fs !!! ip) = l' ->
  itable (with_lock ip l' (with_lock ip l fs)) = itable fs.
Proof.
  intros Hip Hl. unfold with_lock. cbn [sl_set itable set_with set_itable]. rewrite list_alter_alter_eq.
  apply alter_id_total. cbn. rewrite <- Hl. by destruct (itable fs !!! ip).
Qed.

Lemma with_lock_cache (dv size : Z) (ip : nat) (l : sleeplock) (fs : fsys) V K lk :
  cache dv size pr fs V K lk -> cache dv size pr (with_lock ip l fs) V K lk.
Proof. intros [C1 C2 C3 C4 C5 C6 C7 C8 C9]. by split. Qed.

Lemma file_ok_lock (dv size : Z) (l : sleeplock) (v : inode) V K lk :
  file_ok dv size V K lk v -> file_ok dv size V K lk (v <| i_lock := l |>).
Proof. intros [F1 F2 F3 F4]. by split. Qed.

Lemma fwp_ilock (ip : nat) (fs : fsys) (R : unit -> world -> Prop) :
  let v := itable fs !!! ip in
  1 <= i_ref v -> sl_locked (i_lock v) = 0 -> i_valid v <> 0 ->
  R tt (World [] h ft (with_lock ip (Sleeplock 1 (p_pid pr)) fs)) ->
  fwp p pr (ilock ip) (World [] h ft fs) R.
Proof.
  intros v Hr Hl Hv HR. unfold ilock. do 2 fstep. fold v. rewrite (proj2 (Z.ltb_ge _ _)) by done.
  fstep. apply fwp_acquiresleep; [exact Hl|]. fold (with_lock ip (Sleeplock 1 (p_pid pr)) fs). do 2 fstep.
  rewrite (with_lock_field i_valid) by done. fold v. rewrite (proj2 (Z.eqb_neq _ _)) by done. by fstep.
Qed.

Lemma fwp_iunlock (ip : nat) (fs : fsys) (R : unit -> world -> Prop) :
  let v := itable fs !!! ip in
  1 <= i_ref v -> i_lock v = Sleeplock 1 (p_pid pr) ->
  R tt (World [] h ft (with_lock ip (Sleeplock 0 0) fs)) ->
  fwp p pr (iunlock ip) (World [] h ft fs) R.
Proof.
  intros v Hr Hl HR. unfold iunlock. fstep. apply fwp_holdingsleep. cbn [sl_of]. fold v. rewrite Hl.
  cbn [sl_locked sl_pid]. change (truth 1) with true. rewrite Z.eqb_refl. do 2 fstep. fold v.
  rewrite (proj2 (Z.ltb_ge _ _)) by done. cbn [andb negb orb]. by apply fwp_releasesleep.
Qed.
End inode.

(** C27. Reading a file gives its bytes: [readi] on an inode whose blocks are
    mapped, direct and indirect, returns the part of the request that lies
    within the file and delivers exactly these bytes, to user memory, to
    kernel memory or to a variable of the caller, from whatever mixture of
    cached and uncached blocks; nothing else changes, and every buffer is
    given back. *)
Theorem readi_reads {L : Linker} {LOk : LinkerOk L} {E : Env} (dv size : Z) (p : nat) (pr : proc) (ip : nat) (d : dest)
    (off n : Z) (V : Z -> list Z) (K : Z -> Z) (lk : Z -> bool) (h : heap) (ft : ftable) (s : kstate) :
  let v := itable (k_fs s) !!! ip in let m := within v off n in
  (p < NPROC)%nat -> disk_serves p -> size <= 2 ^ 31 -> inw p pr (World [] h ft (k_fs s)) s ->
  cache dv size pr (k_fs s) V K lk -> few K -> file_ok dv size V K lk v ->
  0 <= off -> 0 <= n -> off + n < 2 ^ 32 -> dest_ok (pr := pr) d m h ->
  runs (readi ip d off n) s (fun r s' => let bs := fbytes V v off (Z.to_nat m) in
    r = (m, bs) /\ lands (pr := pr) d bs h (k_heap s') /\ cache dv size pr (k_fs s') V K lk /\
    itable (k_fs s') = itable (k_fs s) /\ disk (k_fs s') = disk (k_fs s)).
Proof.
  intros v m Hp Henv Hsize Hin Hc Hfew Hf Ho Hn Hon Hd.
  eapply runs_mono; [apply (fwp_readi (ft := ft) dv size p pr Hp Henv Hsize ip d off n (k_fs s) V K lk h
    (fun r w => let bs := fbytes V v off (Z.to_nat m) in r = (m, bs) /\ lands (pr := pr) d bs h (w_heap w) /\
       cache dv size pr (w_fs w) V K lk /\ w_fs w = (k_fs s) <| bufs := bufs (w_fs w) |>)
    Hc Hfew Hf Ho Hn Hon Hd); [|exact Hin]|].
  - intros fs' h' Hc' E' Hl. by split_and!.
  - intros r s' (w & Hw & -> & Hl & Hc' & E'). rewrite (in_fs _ _ _ _ Hw), (in_heap _ _ _ _ Hw).
    split_and!; [done|done|done|by rewrite E'|by rewrite E'].
Qed.

(** A file of 1500 bytes in the blocks 13 and 14. *)
Definition demo_inode : inode := Inode 1 2 1 (Sleeplock 1 1) 1 T_FILE 0 0 1 1500 ([13; 14] ++ replicate 11 0).
Definition file_state (h : heap) (bs : list buf) : kstate :=
  (bio_state demo_ctl ((log_fs bs) <| itable := [demo_inode] |>)) <| k_heap := h |> <| k_pt := user_pt |>.

Lemma file_state_in (h : heap) (bs : list buf) : exists ft,
  inw 0 (procs user_pt !!! 0%nat) (World [] h ft (k_fs (file_state h bs))) (file_state h bs).
Proof.
  eexists. split; try done.
  - exists demo_ctl. split; [done|]. split; [exact demo_idle|reflexivity].
  - by exists RUNNING, Ch0.
Qed.

Lemma demo_file_ok (bs : list buf) :
  file_ok 1 20 (fun x => disk (log_fs bs) !!! x) (fun _ => 0) nolock demo_inode.
Proof.
  assert (forall x, 0 <= x < 20 -> disk (log_fs bs) !!! x = demo_block x) as HV.
  { intros x Hx. apply lookup_total_correct. by apply log_fs_block. }
  split; [done|by vm_compute| |intros Hx; by vm_compute in Hx].
  intros bn H0 Hbn. cbn [demo_inode i_size] in Hbn. unfold BSIZE in Hbn.
  assert (bn = 0 \/ bn = 1) as [->| ->] by lia;
    [change (fblk _ demo_inode 0) with 13|change (fblk _ demo_inode 1) with 14];
    (split; [split_and!; [lia|lia|done|lia]|rewrite HV by lia; reflexivity]).
Qed.

Lemma readi_reads_witness : exists h bs,
  runs (readi (E := machine_env) 0 (ToUser 4000) 1000 700) (file_state h bs) (fun r s' =>
    r = (500, replicate 24 13 ++ replicate 476 14) /\
    uput (L := demo_linker) Demo.root 4000 (replicate 24 13 ++ replicate 476 14) h (k_heap s')).
Proof.
  destruct user_demo as (h & Hu & Hub). destruct demo_ring as [bs Hr]. exists h, bs.
  destruct (file_state_in h bs) as [ft Hin].
  pose proof (readi_reads (L := demo_linker) (LOk := demo_linker_ok) (E := machine_env) 1 20 0 (procs user_pt !!! 0%nat) 0 (ToUser 4000) 1000 700
    (fun x => disk (log_fs bs) !!! x) (fun _ => 0) nolock h ft (file_state h bs)) as Hrun.
  change (within _ 1000 700) with 500 in Hrun. cbv zeta in Hrun.
  assert (fbytes (fun x => disk (log_fs bs) !!! x) demo_inode 1000 (Z.to_nat 500) = replicate 24 13 ++ replicate 476 14) as Eb.
  { assert (forall x, 0 <= x < 20 -> disk (log_fs bs) !!! x = demo_block x) as HV.
    { intros x Hx. apply lookup_total_correct. by apply log_fs_block. }
    change (Z.to_nat 500) with (24 + 476)%nat. rewrite fbytes_app. f_equal.
    all: rewrite <- chunk_fbytes; [rewrite HV by (cbn; lia); reflexivity|lia|rewrite HV by (cbn; lia); reflexivity|vm_compute; done]. }
  change (itable _ !!! 0%nat) with demo_inode in Hrun. rewrite Eb in Hrun.
  eapply runs_mono; [apply Hrun|intros r s' (-> & Hl & _); split; [reflexivity|exact Hl]].
  - vm_compute. lia.
  - exact (machine_serves 0).
  - lia.
  - exact Hin.
  - refine (ring_cache 1 20 (procs user_pt !!! 0%nat) ((log_fs bs) <| itable := [demo_inode] |>) Hr _ _); [discriminate|].
    intros x Hx. eexists. by apply log_fs_block.
  - exists []. split; [intros blk Hx; destruct (Hx eq_refl)|vm_compute; lia].
  - exact (demo_file_ok bs).
  - lia.
  - lia.
  - lia.
  - split; [exact Hu|]. split; [lia|]. split; [vm_compute; discriminate|]. change (p_pagetable _) with Demo.root. rewrite Hub by lia. discriminate.
Defined.
