(* ===== verification/ItableSpec.v ===== *)
(** * The inode table (theorems on kernel/fs.c)

    [itab fs K held]: the entries of the table in use are those of the inodes
    with a reference count in [K], each once, with what the disk says of them
    once they are valid; [held] is the entry whose sleep lock the process has,
    if any.  [iget], [idup], [iput], [ilock] and [iunlock] in these terms. *)
From S2P Require Import Prelude Memory Riscv State Spinlock Kalloc Steps Vm Usercopy AddressSpace Proc ProcSpec UserMem Plic Virtio VirtioSpec Sleeplock FsLogic Bio BioSpec Log LogSpec Fs FsSpec.

Section itable.
Context {E : Env}.
Context (dv : Z) (p : nat) (pr : proc) (sbk : superblock) (V : Z -> list Z).
Context {ft : ftable} {h : heap}.

#[local] Abbreviation here := (World [] h ft).
#[local] Abbreviation locked := (World [L_itable] h ft).
#[local] Abbreviation at_ fs i := (itable fs !!! i).

(** The bytes of an inode on disk. *)
Definition on_dinode (inum : Z) : list Z := slice (V (IBLOCK inum sbk)) (Z.to_nat (64 * (inum mod IPB))) 64.

Record itab (fs : fsys) (K : Z -> Z) (held : option nat) : Prop := {
  it_len : length (itable fs) = NINODE;
  it_ref : forall i, (i < NINODE)%nat -> 0 <= i_ref (at_ fs i);
  it_used : forall i, (i < NINODE)%nat -> 0 < i_ref (at_ fs i) -> i_dev (at_ fs i) = dv /\ i_ref (at_ fs i) = K (i_inum (at_ fs i));
  it_has : forall x, K x <> 0 -> exists i, (i < NINODE)%nat /\ 0 < i_ref (at_ fs i) /\ i_inum (at_ fs i) = x;
  it_uniq : forall i j, (i < NINODE)%nat -> (j < NINODE)%nat -> 0 < i_ref (at_ fs i) -> 0 < i_ref (at_ fs j) ->
    i_inum (at_ fs i) = i_inum (at_ fs j) -> i = j;
  it_valid : forall i, (i < NINODE)%nat -> 0 < i_ref (at_ fs i) -> i_valid (at_ fs i) <> 0 ->
    at_ fs i = dinode_fields (on_dinode (i_inum (at_ fs i))) (at_ fs i);
  it_held : forall i, held = Some i -> i_lock (at_ fs i) = Sleeplock 1 (p_pid pr);
  it_free : forall i, (i < NINODE)%nat -> held <> Some i -> sl_locked (i_lock (at_ fs i)) = 0;
}.

(** Entry [i] is that of inode [x]. *)
Definition iptr (fs : fsys) (i : nat) (x : Z) : Prop := (i < NINODE)%nat /\ 0 < i_ref (at_ fs i) /\ i_inum (at_ fs i) = x.

(** With the counts [K] in [fs'], entries still in use are as they were, but
    for the count. *)
Definition istay (K : Z -> Z) (fs fs' : fsys) : Prop :=
  forall i x, iptr fs i x -> 0 < K x -> iptr fs' i x /\ exists r, at_ fs' i = (at_ fs i) <| i_ref := r |>.

(** Room in the table. *)
Definition room (K : Z -> Z) (n : nat) : Prop :=
  exists l : list Z, (forall x, K x <> 0 -> x ∈ l) /\ (length l + n <= NINODE)%nat.

Lemma free_entry (fs : fsys) (K : Z -> Z) (held : option nat) :
  itab fs K held -> room K 1 -> exists i, (i < NINODE)%nat /\ i_ref (at_ fs i) = 0.
Proof.
  intros Ht (l & Hl & Hlen). destruct (existsb (fun i => i_ref (at_ fs i) =? 0) (seq 0 NINODE)) eqn:He.
  { apply existsb_exists in He as (i & Hi%in_seq & Hz%Z.eqb_eq). exists i. split; [lia|done]. }
  exfalso. assert (forall i, (i < NINODE)%nat -> 0 < i_ref (at_ fs i)) as Hnz.
  { intros i Hi. destruct (Z.eq_dec (i_ref (at_ fs i)) 0) as [Hz|]; [|pose proof (it_ref _ _ _ Ht i Hi); lia].
    rewrite <- not_true_iff_false in He. destruct He. apply existsb_exists. exists i. split; [apply in_seq; lia|by apply Z.eqb_eq]. }
  set (xs := (fun i => i_inum (at_ fs i)) <$> seq 0 NINODE).
  assert (NoDup xs) as Hnd.
  { apply NoDup_fmap_2_strong; [|apply NoDup_seq]. intros i j Hi%elem_of_seq Hj%elem_of_seq Heq.
    apply (it_uniq _ _ _ Ht); [lia|lia|apply Hnz; lia|apply Hnz; lia|done]. }
  assert (xs ⊆+ l) as Hsub.
  { apply NoDup_submseteq; [done|]. intros x Hx. apply list_elem_of_fmap in Hx as (i & -> & Hi%elem_of_seq).
    apply Hl. pose proof (Hnz i ltac:(lia)). destruct (it_used _ _ _ Ht i ltac:(lia) ltac:(done)) as [_ <-]. lia. }
  apply submseteq_length in Hsub. unfold xs in Hsub. rewrite length_fmap, length_seq in Hsub. lia.
Qed.

(** One entry changes: its count, or a free one is taken. *)
Lemma itab_count (fs : fsys) (K : Z -> Z) (held : option nat) (i : nat) (x d : Z) :
  itab fs K held -> iptr fs i x -> 0 <= K x + d ->
  let fs' := fs <| itable := alter (fun v => v <| i_ref := i_ref v + d |>) i (itable fs) |> in
  itab fs' (bump K x d) held /\ istay (bump K x d) fs fs'.
Proof.
  intros Ht (Hi & Hr & <-) Hd fs'. destruct (it_used _ _ _ Ht i Hi Hr) as [Hdev HK].
  assert (forall j, at_ fs' j = if decide (j = i) then (at_ fs i) <| i_ref := i_ref (at_ fs i) + d |> else at_ fs j) as Hat.
  { intros j. unfold fs'. cbn [itable set_with set_itable]. destruct (decide (j = i)) as [->|Hne].
    - rewrite list_lookup_total_alter_eq; [done|]. by rewrite (it_len _ _ _ Ht).
    - by rewrite list_lookup_total_alter_ne. }
  assert (forall j, i_inum (at_ fs' j) = i_inum (at_ fs j) /\ i_dev (at_ fs' j) = i_dev (at_ fs j) /\
     i_valid (at_ fs' j) = i_valid (at_ fs j) /\ i_lock (at_ fs' j) = i_lock (at_ fs j)) as Hsame.
  { intros j. rewrite Hat. by destruct (decide (j = i)) as [->|]. }
  assert (forall j, (j < NINODE)%nat -> 0 < i_ref (at_ fs' j) -> 0 < i_ref (at_ fs j)) as Hpos.
  { intros j Hj. rewrite Hat. by destruct (decide (j = i)) as [->|]. }
  destruct Ht as [T1 T2 T3 T4 T5 T6 T7 T8]. split.
  - split.
    + unfold fs'. cbn. by rewrite length_alter.
    + intros j Hj. rewrite Hat. destruct (decide (j = i)); [cbn; lia|by apply T2].
    + intros j Hj Hrj. destruct (Hsame j) as (-> & -> & _). split; [by apply T3, Hpos|]. specialize (Hpos j Hj Hrj).
      destruct (T3 j Hj Hpos) as [_ HKj]. rewrite Hat. destruct (decide (j = i)) as [->|Hne]; unfold bump.
      * rewrite Z.eqb_refl. cbn. lia.
      * rewrite (proj2 (Z.eqb_neq _ _)); [done|]. intros Ex. apply Hne. by apply T5.
    + intros y Hy. unfold bump in Hy. destruct (Z.eqb_spec y (i_inum (at_ fs i))) as [Ey|Hne].
      * rewrite Ey in Hy |- *. exists i. destruct (Hsame i) as (-> & _). rewrite Hat, decide_True by done. cbn. split; [done|]. split; [lia|done].
      * destruct (T4 y Hy) as (j & Hj & Hrj & Hxj). exists j. destruct (Hsame j) as (-> & _). split; [done|]. split; [|done].
        rewrite Hat, decide_False; [done|]. intros ->. done.
    + intros j k Hj Hk Hrj Hrk. destruct (Hsame j) as (-> & _), (Hsame k) as (-> & _). apply T5; auto.
    + intros j Hj Hrj Hv. destruct (Hsame j) as (-> & _ & Ev & _). rewrite Ev in Hv. specialize (T6 j Hj (Hpos j Hj Hrj) Hv).
      rewrite Hat. destruct (decide (j = i)) as [->|]; [|done]. rewrite T6 at 1. reflexivity.
    + intros j Hj. destruct (Hsame j) as (_ & _ & _ & ->). by apply T7.
    + intros j Hj Hne. destruct (Hsame j) as (_ & _ & _ & ->). by apply T8.
  - intros j y (Hj & Hrj & Hy) Hk. unfold iptr. destruct (Hsame j) as (-> & _). rewrite Hat. destruct (decide (j = i)) as [->|Hne].
    + split; [|by eexists]. rewrite <- Hy in *. unfold bump in Hk. rewrite Z.eqb_refl in Hk. cbn. split; [done|]. split; [lia|done].
    + split; [done|]. exists (i_ref (at_ fs j)). by destruct (at_ fs j).
Qed.

Lemma itab_take (fs : fsys) (K : Z -> Z) (held : option nat) (i : nat) (x : Z) :
  itab fs K held -> (i < NINODE)%nat -> i_ref (at_ fs i) = 0 -> K x = 0 ->
  let fs' := fs <| itable := alter (fun v => v <| i_dev := dv |> <| i_inum := x |> <| i_ref := 1 |> <| i_valid := 0 |>) i (itable fs) |> in
  itab fs' (bump K x 1) held /\ istay (bump K x 1) fs fs' /\ iptr fs' i x.
Proof.
  intros Ht Hi Hr HK fs'.
  assert (forall j, at_ fs' j = if decide (j = i) then
     (at_ fs i) <| i_dev := dv |> <| i_inum := x |> <| i_ref := 1 |> <| i_valid := 0 |> else at_ fs j) as Hat.
  { intros j. unfold fs'. cbn [itable set_with set_itable]. destruct (decide (j = i)) as [->|Hne].
    - rewrite list_lookup_total_alter_eq; [done|]. by rewrite (it_len _ _ _ Ht).
    - by rewrite list_lookup_total_alter_ne. }
  destruct Ht as [T1 T2 T3 T4 T5 T6 T7 T8].
  assert (forall j, (j < NINODE)%nat -> 0 < i_ref (at_ fs j) -> i_inum (at_ fs j) <> x) as Hno.
  { intros j Hj Hrj <-. destruct (T3 j Hj Hrj) as [_ Hk]. lia. }
  split_and!.
  - split.
    + unfold fs'. cbn. by rewrite length_alter.
    + intros j Hj. rewrite Hat. destruct (decide (j = i)); [cbn; lia|by apply T2].
    + intros j Hj. rewrite Hat. destruct (decide (j = i)) as [->|Hne]; unfold bump.
      * intros _. cbn. rewrite Z.eqb_refl. split; [done|lia].
      * intros Hrj. rewrite (proj2 (Z.eqb_neq _ _)) by (by apply Hno). by apply T3.
    + intros y Hy. unfold bump in Hy. destruct (Z.eqb_spec y x) as [Ey|Hne].
      * exists i. rewrite Hat, decide_True by done. done.
      * destruct (T4 y Hy) as (j & Hj & Hrj & Hxj). exists j. rewrite Hat, decide_False; [done|]. intros ->. lia.
    + intros j k Hj Hk. rewrite !Hat. destruct (decide (j = i)) as [->|Hne], (decide (k = i)) as [->|Hne2]; cbn [i_inum i_ref set_with set_i_inum set_i_valid set_i_ref set_i_dev]; try done.
      * intros _ Hrk Ex. by destruct (Hno k Hk Hrk).
      * intros Hrj _ Ex. by destruct (Hno j Hj Hrj).
      * by apply T5.
    + intros j Hj. rewrite Hat. destruct (decide (j = i)) as [->|Hne]; [done|by apply T6].
    + intros j Hj. rewrite Hat. destruct (decide (j = i)) as [->|]; by apply T7.
    + intros j Hj Hne. rewrite Hat. destruct (decide (j = i)) as [->|]; by apply T8.
  - intros j y (Hj & Hrj & Hy) Hk. unfold iptr. rewrite Hat, decide_False by (intros ->; lia).
    split; [done|]. exists (i_ref (at_ fs j)). by destruct (at_ fs j).
  - split; [done|]. rewrite Hat, decide_True by done. done.
Qed.

(** What the loop of [iget] has seen. *)
Definition scanned (fs : fsys) (x : Z) (i : nat) (empty : option nat) : Prop :=
  (i <= NINODE)%nat /\ (forall j, (j < i)%nat -> ~ iptr fs j x) /\
  match empty with
  | None => forall j, (j < i)%nat -> i_ref (at_ fs j) <> 0
  | Some e => (e < NINODE)%nat /\ i_ref (at_ fs e) = 0
  end.

Hypothesis Hp : (p < NPROC)%nat.

Lemma fwp_iget (x : Z) (fs : fsys) (K : Z -> Z) (held : option nat) (R : nat -> world -> Prop) :
  itab fs K held -> 0 <= K x -> room K 1 ->
  (forall t i, let fs' := fs <| itable := t |> in
     itab fs' (bump K x 1) held -> istay (bump K x 1) fs fs' -> iptr fs' i x -> R i (here fs')) ->
  fwp p pr (iget dv x) (here fs) R.
Proof using Hp.
  intros Ht HK Hroom HR. unfold iget. do 2 fstep. fstep.
  apply (fwp_loop p pr (fun '(i, e) w => w = locked fs /\ scanned fs x i e) (fun '(i, _) _ => Z.of_nat NINODE - Z.of_nat i)).
  { split; [done|]. split; [lia|]. split; [lia|]. intros j. lia. }
  { unfold NINODE. lia. }
  intros [i e] w [-> (Hi & Hno & He)]. destruct (Nat.ltb_spec i NINODE) as [Hlt|Hge]; cbn [negb].
  - do 2 fstep. destruct ((0 <? i_ref (at_ fs i)) && (i_dev (at_ fs i) =? dv) && (i_inum (at_ fs i) =? x)) eqn:Em.
    + apply andb_true_iff in Em as [[Hr%Z.ltb_lt _]%andb_true_iff Hx%Z.eqb_eq].
      do 2 fstep. fstep. fstep. fstep. fstep. destruct (itab_count fs K held i x 1 Ht) as (Ht' & Hs'); [done|lia|].
      apply HR; [done|done|]. apply Hs'; [done|]. unfold bump. rewrite Z.eqb_refl. lia.
    + fstep. split; [|lia]. split; [done|]. split; [lia|]. split.
      * intros j Hj. destruct (decide (j = i)) as [->|Hne]; [|apply Hno; lia]. intros (_ & Hr & Hx).
        destruct (it_used _ _ _ Ht i Hlt Hr) as [Hdev _]. rewrite Hdev, Hx, !Z.eqb_refl, (proj2 (Z.ltb_lt _ _)) in Em by done. done.
      * destruct e as [e|]; [done|]. destruct (Z.eqb_spec (i_ref (at_ fs i)) 0) as [Hz|Hz]; [done|].
        intros j Hj. destruct (decide (j = i)) as [->|Hne]; [done|apply He; lia].
  - fstep. assert (K x = 0) as HK0.
    { destruct (Z.eq_dec (K x) 0) as [|Hk]; [done|]. destruct (it_has _ _ _ Ht x Hk) as (j & Hj). destruct (Hno j); [|done]. lia. }
    destruct e as [e|].
    + destruct He as [He1 He2]. destruct (itab_take fs K held e x Ht He1 He2 HK0) as (Ht' & Hs' & Hi').
      do 8 fstep. cbn [itable set_with set_itable]. rewrite !list_alter_alter_eq. do 2 fstep. fstep. apply HR; done.
    + destruct (free_entry fs K held Ht Hroom) as (j & Hj & Hz). destruct (He j); [lia|done].
Qed.

Lemma fwp_idup (i : nat) (x : Z) (fs : fsys) (K : Z -> Z) (held : option nat) (R : nat -> world -> Prop) :
  itab fs K held -> iptr fs i x -> 0 <= K x ->
  (forall t, let fs' := fs <| itable := t |> in
     itab fs' (bump K x 1) held -> istay (bump K x 1) fs fs' -> iptr fs' i x -> R i (here fs')) ->
  fwp p pr (idup i) (here fs) R.
Proof using Hp.
  intros Ht Hi HK HR. unfold idup. do 4 fstep. fstep. fstep. fstep.
  destruct (itab_count fs K held i x 1 Ht Hi) as (Ht' & Hs'); [lia|].
  apply HR; [done|done|]. apply Hs'; [done|]. unfold bump. rewrite Z.eqb_refl. lia.
Qed.

(** Giving back an inode that has links. *)
Lemma fwp_iput (i : nat) (x : Z) (fs : fsys) (K : Z -> Z) (held : option nat) (R : unit -> world -> Prop) :
  itab fs K held -> iptr fs i x -> half (on_dinode x) 6 <> 0 ->
  (forall t, let fs' := fs <| itable := t |> in
     itab fs' (bump K x (-1)) held -> istay (bump K x (-1)) fs fs' -> R tt (here fs')) ->
  fwp p pr (iput i) (here fs) R.
Proof using Hp.
  intros Ht Hi Hl HR. pose proof Hi as (Hi1 & Hi2 & Hi3). unfold iput. do 4 fstep.
  assert ((i_ref (at_ fs i) =? 1) && truth (i_valid (at_ fs i)) && (i_nlink (at_ fs i) =? 0) = false) as ->.
  { destruct (Z.eqb_spec (i_valid (at_ fs i)) 0) as [Hz|Hz]; [rewrite Hz; change (truth 0) with false; by rewrite andb_false_r|].
    rewrite (it_valid _ _ _ Ht i Hi1 Hi2 Hz), Hi3. cbn [i_nlink dinode_fields set_with set_i_nlink set_i_addrs set_i_size].
    rewrite (proj2 (Z.eqb_neq (half _ _) 0) Hl). apply andb_false_r. }
  do 2 fstep. do 2 fstep. fstep. destruct (it_used _ _ _ Ht i Hi1 Hi2) as [_ HK]. rewrite Hi3 in HK.
  destruct (itab_count fs K held i x (-1) Ht Hi) as (Ht' & Hs'); [lia|]. by apply HR.
Qed.

Lemma itab_ext (fs fs' : fsys) (K : Z -> Z) (held : option nat) : itable fs' = itable fs -> itab fs K held -> itab fs' K held.
Proof. intros Ei [T1 T2 T3 T4 T5 T6 T7 T8]. by split; rewrite Ei. Qed.

Lemma itab_counts (fs : fsys) (K K' : Z -> Z) (held : option nat) : (forall x, K' x = K x) -> itab fs K held -> itab fs K' held.
Proof. intros HK [T1 T2 T3 T4 T5 T6 T7 T8]. split; auto; [intros i; rewrite HK; apply T3|intros x; rewrite HK; apply T4]. Qed.

(** A change of an entry in use that keeps what it is the entry of. *)
Lemma itab_set (fs : fsys) (K : Z -> Z) (held held' : option nat) (i : nat) (f : inode -> inode) :
  itab fs K held -> (i < NINODE)%nat -> 0 < i_ref (at_ fs i) ->
  (forall v, i_ref (f v) = i_ref v /\ i_inum (f v) = i_inum v /\ i_dev (f v) = i_dev v) ->
  (i_valid (f (at_ fs i)) <> 0 -> f (at_ fs i) = dinode_fields (on_dinode (i_inum (at_ fs i))) (f (at_ fs i))) ->
  (held' = Some i -> i_lock (f (at_ fs i)) = Sleeplock 1 (p_pid pr)) ->
  (held' <> Some i -> sl_locked (i_lock (f (at_ fs i))) = 0) ->
  (forall j, j <> i -> held' = Some j <-> held = Some j) ->
  itab (fs <| itable := alter f i (itable fs) |>) K held'.
Proof.
  intros [T1 T2 T3 T4 T5 T6 T7 T8] Hi Hr Hf Hv Hl1 Hl2 Hh. set (fs' := fs <| itable := _ |>).
  assert (forall j, at_ fs' j = if decide (j = i) then f (at_ fs i) else at_ fs j) as Hat.
  { intros j. unfold fs'. cbn [itable set_with set_itable]. destruct (decide (j = i)) as [->|Hne].
    - rewrite list_lookup_total_alter_eq; [done|]. by rewrite T1.
    - by rewrite list_lookup_total_alter_ne. }
  assert (forall j, i_ref (at_ fs' j) = i_ref (at_ fs j) /\ i_inum (at_ fs' j) = i_inum (at_ fs j) /\ i_dev (at_ fs' j) = i_dev (at_ fs j)) as Hs.
  { intros j. rewrite Hat. destruct (decide (j = i)) as [->|]; [apply Hf|done]. }
  split.
  - unfold fs'. cbn. by rewrite length_alter.
  - intros j. destruct (Hs j) as (-> & _ & _). apply T2.
  - intros j. destruct (Hs j) as (-> & -> & ->). apply T3.
  - intros x Hx. destruct (T4 x Hx) as (j & Hj). exists j. by destruct (Hs j) as (-> & -> & _).
  - intros j k. destruct (Hs j) as (-> & -> & _), (Hs k) as (-> & -> & _). apply T5.
  - intros j Hj. destruct (Hs j) as (-> & -> & _). rewrite Hat. destruct (decide (j = i)) as [->|]; [intros _; apply Hv|by apply T6].
  - intros j Hj. rewrite Hat. destruct (decide (j = i)) as [->|Hne]; [by apply Hl1|]. by apply T7, Hh.
  - intros j Hj Hne. rewrite Hat. destruct (decide (j = i)) as [->|Hne2]; [by apply Hl2|]. apply T8; [done|]. rewrite <- Hh by done. done.
Qed.

Context (size : Z).
Hypothesis Henv : disk_serves p.
Hypothesis Hsize : size <= 2 ^ 31.
#[local] Abbreviation cache := (cache dv size pr).

(** Locking an inode reads it if need be. *)
Lemma fwp_ilock_disk (i : nat) (x : Z) (fs : fsys) (K Kb : Z -> Z) lk (R : unit -> world -> Prop) :
  itab fs K None -> iptr fs i x -> cache fs V Kb lk -> few Kb -> readable size Kb lk (IBLOCK x sbk) -> sb fs = sbk ->
  half (on_dinode x) 0 <> 0 ->
  (forall bs t, let fs' := fs <| bufs := bs |> <| itable := t |> in
     itab fs' K (Some i) -> iptr fs' i x -> i_valid (at_ fs' i) <> 0 -> cache fs' V Kb lk -> R tt (here fs')) ->
  fwp p pr (ilock i) (here fs) R.
Proof using Hp Henv Hsize.
  intros Ht Hi Hc Hfew Hrd Hsb Hty HR. pose proof Hi as (Hi1 & Hi2 & Hi3). unfold ilock. do 2 fstep.
  rewrite (proj2 (Z.ltb_ge _ _)) by lia. fstep. apply fwp_acquiresleep; [apply (it_free _ _ _ Ht); [done|discriminate]|].
  set (l := Sleeplock 1 (p_pid pr)). fold (with_lock i l fs). set (fs1 := with_lock i l fs).
  assert (at_ fs1 i = (at_ fs i) <| i_lock := l |>) as E1 by (apply with_lock_eq; by rewrite (it_len _ _ _ Ht)).
  do 2 fstep. rewrite E1. change (i_valid _) with (i_valid (at_ fs i)).
  assert (forall f, (forall v, i_ref (f v) = i_ref v /\ i_inum (f v) = i_inum v /\ i_dev (f v) = i_dev v) ->
    i_lock (f ((at_ fs i) <| i_lock := l |>)) = l ->
    (i_valid (f ((at_ fs i) <| i_lock := l |>)) <> 0 -> f ((at_ fs i) <| i_lock := l |>) = dinode_fields (on_dinode x) (f ((at_ fs i) <| i_lock := l |>))) ->
    itab (fs <| itable := alter f i (itable fs1) |>) K (Some i)) as Hset.
  { intros f Hf1 Hf2 Hf3. unfold fs1, with_lock. cbn [sl_set itable set_with set_itable]. rewrite list_alter_alter_eq.
    apply (itab_set fs K None); [done|done|done| | | |done|intros j Hj; split; congruence].
    - intros v. cbn. destruct (Hf1 (v <| i_lock := l |>)) as (-> & -> & ->). done.
    - rewrite Hi3. exact Hf3.
    - intros _. exact Hf2. }
  destruct (Z.eqb_spec (i_valid (at_ fs i)) 0) as [Hz|Hz].
  - fstep. apply (fwp_gets_fs p pr sb); [done|]. change (sb fs1) with (sb fs). rewrite Hsb.
    change (i_dev _) with (i_dev (at_ fs i)). change (i_inum _) with (i_inum (at_ fs i)).
    destruct (it_used _ _ _ Ht i Hi1 Hi2) as [Hdev _]. rewrite Hdev, Hi3. pose proof Hrd as (Hr1 & Hr2 & Hr3).
    assert (cache fs1 V Kb lk) as Hc1 by (by apply with_lock_cache).
    fstep. apply (fwp_bread dv size p pr Hp Henv Hsize _ fs1 V Kb lk); [done|lia|done|by right|done|].
    intros b fs2 Hc2 Hh2 [E2 _]. destruct (handle_ok dv size pr Hc2 Hh2) as (_ & _ & Hda & _). do 4 fstep. rewrite Hda.
    fold (on_dinode x). fstep. set (fs3 := fs2 <| itable := alter (dinode_fields (on_dinode x)) i (itable fs2) |>).
    apply (fwp_unread dv size p pr Hp Henv Hsize b (IBLOCK x sbk) fs1 fs3 V Kb lk); [done|done|by destruct Hc2|exact Hh2|by unfold fs3; rewrite E2|].
    intros fs4 Hc4 E4. do 2 fstep. set (f := fun v => (dinode_fields (on_dinode x) v) <| i_valid := 1 |>).
    set (fs5 := fs4 <| itable := alter (fun v => v <| i_valid := 1 |>) i (itable fs4) |>).
    assert (fs5 = fs <| bufs := bufs fs4 |> <| itable := alter f i (itable fs1) |>) as E5.
    { unfold fs5. rewrite E4. unfold fs3. rewrite E2. cbn [itable bufs set_with set_itable set_bufs]. rewrite list_alter_alter_eq. reflexivity. }
    assert (itab (fs <| itable := alter f i (itable fs1) |>) K (Some i)) as Ht5 by (apply Hset; reflexivity || by intros).
    assert (at_ fs5 i = f ((at_ fs i) <| i_lock := l |>)) as E6.
    { rewrite E5. cbn [itable set_with set_itable]. rewrite list_lookup_total_alter_eq; [by rewrite E1|].
      unfold fs1, with_lock. cbn. by rewrite length_alter, (it_len _ _ _ Ht). }
    do 2 fstep. fold fs5. rewrite E6. rewrite (proj2 (Z.eqb_neq (i_type _) 0)) by exact Hty. fstep. fold fs5. rewrite E5. apply HR.
    + by apply (itab_ext (fs <| itable := alter f i (itable fs1) |>)).
    + rewrite <- E5. unfold iptr. rewrite E6. done.
    + rewrite <- E5, E6. discriminate.
    + rewrite <- E5. by destruct Hc4.
  - fstep. assert (fs1 = fs <| bufs := bufs fs |> <| itable := itable fs1 |>) as E2 by (by destruct fs). rewrite E2.
    assert (alter id i (itable fs1) = itable fs1) as Eid by (by apply alter_id_total).
    apply HR; rewrite <- ?E2.
    + apply (itab_ext (fs <| itable := alter id i (itable fs1) |>)); [by rewrite Eid|]. apply Hset; [done|done|]. intros _. cbn [id].
      rewrite (it_valid _ _ _ Ht i Hi1 Hi2 Hz) at 1. by rewrite Hi3.
    + unfold iptr. by rewrite E1.
    + by rewrite E1.
    + by apply with_lock_cache.
Qed.

Lemma fwp_iunlock_held (i : nat) (x : Z) (fs : fsys) (K : Z -> Z) (R : unit -> world -> Prop) :
  itab fs K (Some i) -> iptr fs i x ->
  (forall t, let fs' := fs <| itable := t |> in itab fs' K None -> (forall j z, iptr fs j z -> iptr fs' j z) -> R tt (here fs')) ->
  fwp p pr (iunlock i) (here fs) R.
Proof using Hp.
  intros Ht Hi HR. pose proof Hi as (Hi1 & Hi2 & Hi3). apply fwp_iunlock; [lia|by apply (it_held _ _ _ Ht)|].
  unfold with_lock. cbn [sl_set]. apply HR.
  - apply (itab_set fs K (Some i)); [done|done|done|done| |done|done|intros j Hj; split; congruence].
    intros Hv. rewrite (it_valid _ _ _ Ht i Hi1 Hi2 Hv) at 1. done.
  - intros j z Hj. unfold iptr in *. cbn [itable set_with set_itable]. rewrite (proj_alter i_ref), (proj_alter i_inum) by done. done.
Qed.
End itable.
