(* ===== verification/NameSpec.v ===== *)
(** * Directories and path names (theorems on kernel/fs.c)

    The disk as a tree: a directory is the list of entries in its file, and a
    path leads from inode to inode through these lists ([walk]).  [dirlookup]
    and [namex] compute this, whatever part of it is cached, and take and give
    back references as they should. *)
From S2P Require Import Prelude Memory Riscv State Spinlock Cstring Kalloc Steps Vm Usercopy AddressSpace Proc ProcSpec UserMem Plic Virtio VirtioSpec Sleeplock FsLogic Bio BioSpec Log LogSpec Fs FsSpec ItableSpec.

(** ** Comparing names *)
Lemma nth_total (l : list Z) (j : nat) (d : Z) : (j < length l)%nat -> nth j l d = l !!! j.
Proof. intros Hj. rewrite nth_lookup. by rewrite (list_lookup_lookup_total_lt l j Hj). Qed.

Lemma strncmp_cstr (s t : list Z) (f g : Z -> Z) (i : Z) :
  length s = length t -> Forall is_byte s -> Forall is_byte t ->
  (forall j, (j < length s)%nat -> f (i + Z.of_nat j) = s !!! j) -> (forall j, (j < length t)%nat -> g (i + Z.of_nat j) = t !!! j) ->
  strncmp_loop f g i (length s) = 0 <-> cstr s = cstr t.
Proof.
  revert t i. induction s as [|a s IH]; intros [|b t] i Hl Hs Ht Hf Hg; try done.
  inversion_clear Hs as [|? ? Ha Hs']. inversion_clear Ht as [|? ? Hb Ht']. injection Hl as Hl.
  assert (f i = a) as Efi by (specialize (Hf 0%nat ltac:(cbn; lia)); by rewrite Z.add_0_r in Hf).
  assert (g i = b) as Egi by (specialize (Hg 0%nat ltac:(cbn; lia)); by rewrite Z.add_0_r in Hg).
  cbn [length strncmp_loop cstr]. rewrite Efi, Egi, !u8_small by done. unfold truth.
  assert (strncmp_loop f g (i + 1) (length s) = 0 <-> cstr s = cstr t) as Hrec.
  { apply IH; [done|done|done| |]; intros j Hj.
    - replace (i + 1 + Z.of_nat j) with (i + Z.of_nat (S j)) by lia. apply (Hf (S j)). cbn. lia.
    - replace (i + 1 + Z.of_nat j) with (i + Z.of_nat (S j)) by lia. apply (Hg (S j)). cbn. lia. }
  destruct (Z.eqb_spec a 0) as [->|Ha0], (Z.eqb_spec b 0) as [->|Hb0]; cbn [negb andb].
  - done.
  - split; [lia|done].
  - rewrite (proj2 (Z.eqb_neq a 0)) by done. split; [lia|done].
  - destruct (Z.eqb_spec a b) as [->|Hne]; [rewrite Hrec; split; congruence|]. split; [lia|congruence].
Qed.

Lemma namecmp_cstr (s t : list Z) :
  length s = DIRSIZ -> length t = DIRSIZ -> Forall is_byte s -> Forall is_byte t -> (namecmp s t =? 0) = bool_decide (cstr s = cstr t).
Proof.
  intros Hs Ht Bs Bt. unfold namecmp, strncmp. rewrite Nat2Z.id, <- Hs. apply eq_true_iff_eq. rewrite Z.eqb_eq, bool_decide_eq_true.
  apply strncmp_cstr; [congruence|done|done| |]; intros j Hj; unfold arr; rewrite Z.add_0_l, Nat2Z.id; by apply nth_total.
Qed.

(** ** Directories *)
Definition dir_entries (V : Z -> list Z) (v : inode) : list dirent :=
  (fun k => dirent_of (fbytes V v (16 * Z.of_nat k) 16)) <$> seq 0 (Z.to_nat (i_size v / 16)).
Definition entry_is (nm : list Z) (e : dirent) : bool := negb (de_inum e =? 0) && bool_decide (cstr (de_name e) = nm).
(** The inode that a directory has under a name. *)
Definition lookup_name (es : list dirent) (nm : list Z) : option Z := de_inum <$> List.find (entry_is nm) es.

Lemma lookup_skip (es : list dirent) (nm : list Z) (k : nat) (e : dirent) :
  es !! k = Some e -> entry_is nm e = false -> lookup_name (drop k es) nm = lookup_name (drop (S k) es) nm.
Proof. intros He Hf. unfold lookup_name. rewrite (drop_S es e k He). cbn [List.find]. by rewrite Hf. Qed.

Lemma fbytes_addrs (V : Z -> list Z) (v w : inode) (off : Z) (n : nat) : i_addrs v = i_addrs w -> fbytes V v off n = fbytes V w off n.
Proof. intros Ea. unfold fbytes, fbyte, fblk. by rewrite Ea. Qed.

Section names.
Context {L : Linker} {LOk : LinkerOk L} {E : Env}.
Context (dv size : Z) (p : nat) (pr : proc) (sbk : superblock) (V : Z -> list Z) (Kb : Z -> Z) (lk : Z -> bool).
Context {ft : ftable} {h : heap}.

#[local] Abbreviation here := (World [] h ft).
#[local] Abbreviation at_ fs i := (itable fs !!! i).
#[local] Abbreviation itab := (itab dv pr sbk V).
#[local] Abbreviation cache := (cache dv size pr).
#[local] Abbreviation on_dinode := (on_dinode sbk V).

(** An inode as the disk has it. *)
Definition node (x : Z) : inode := dinode_fields (on_dinode x) (Inode dv x 1 (Sleeplock 0 0) 1 0 0 0 0 0 []).

Definition bytes_on_disk : Prop := forall blk, Forall is_byte (V blk).

(** What a directory must be like. *)
Record dir_ok (x : Z) : Prop := {
  do_file : file_ok dv size V Kb lk (node x);
  do_size : i_size (node x) mod 16 = 0;
}.

Hypothesis Hbytes : bytes_on_disk.

(** An entry that is in use and valid. *)
Record in_core (fs : fsys) (K : Z -> Z) (held : option nat) (i : nat) (x : Z) : Prop := {
  ic_itab : itab fs K held;
  ic_iptr : iptr fs i x;
  ic_valid : i_valid (at_ fs i) <> 0;
}.

Lemma in_core_node (fs : fsys) K held (i : nat) (x : Z) : in_core fs K held i x ->
  i_type (at_ fs i) = i_type (node x) /\ i_size (at_ fs i) = i_size (node x) /\ i_addrs (at_ fs i) = i_addrs (node x) /\ i_dev (at_ fs i) = dv.
Proof.
  intros [Ht (Hi & Hr & Hx) Hv]. pose proof (it_valid _ _ _ _ _ _ _ Ht i Hi Hr Hv) as Ev. rewrite Hx in Ev.
  destruct (it_used _ _ _ _ _ _ _ Ht i Hi Hr) as [Hd _]. rewrite Ev at 1 2 3. split_and!; [reflexivity|reflexivity|reflexivity|done].
Qed.

Lemma fbytes_byte (v : inode) (off : Z) (n : nat) : file_ok dv size V Kb lk v -> 0 <= off -> off + Z.of_nat n <= i_size v ->
  Forall is_byte (fbytes V v off n).
Proof using Hbytes.
  intros Hf Ho Hn. unfold fbytes. apply list.Forall_fmap, list.Forall_forall. intros i Hi%elem_of_seq. cbn. unfold fbyte.
  pose proof (Z.mod_pos_bound (off + Z.of_nat i) BSIZE ltac:(done)) as Hm. pose proof (Z.div_mod (off + Z.of_nat i) BSIZE ltac:(done)) as Hdm.
  destruct (fo_blocks _ _ _ _ _ _ Hf ((off + Z.of_nat i) / BSIZE)) as [_ Hl]; [apply Z.div_pos; [lia|done]|lia|].
  set (blk := fblk V v _) in *. pose proof (Hbytes blk) as Hb. rewrite list.Forall_forall in Hb. apply Hb.
  apply list_elem_of_lookup_total_2. rewrite Hl. unfold BSIZE in *. lia.
Qed.

Lemma dir_entry (x k : Z) : dir_ok x -> 0 <= k -> 16 * k < i_size (node x) ->
  let bs := fbytes V (node x) (16 * k) 16 in
  dir_entries V (node x) !! Z.to_nat k = Some (dirent_of bs) /\ length (de_name (dirent_of bs)) = DIRSIZ /\
  Forall is_byte (de_name (dirent_of bs)) /\ 16 * k + 16 <= i_size (node x).
Proof using Hbytes.
  intros [Hf Hm] Hk Hlt bs. pose proof (Z.div_mod (i_size (node x)) 16 ltac:(lia)) as Hd. rewrite Hm in Hd.
  assert (16 * k + 16 <= i_size (node x)) as Hle by lia.
  assert (Forall is_byte bs) as Hb by (apply fbytes_byte; [done|lia|lia]).
  assert (length bs = 16%nat) as Hl by apply length_fbytes.
  unfold dirent_of, slice. cbn [de_name].
  split_and!; [|rewrite length_take, length_drop, Hl; done|by apply Forall_take, Forall_drop|done].
  unfold dir_entries. rewrite list_lookup_fmap, lookup_seq_lt by lia. cbn. by rewrite Z2Nat.id by lia.
Qed.
Hypothesis Hp : (p < NPROC)%nat.
Hypothesis Henv : disk_serves p.
Hypothesis Hsize : size <= 2 ^ 31.
Hypothesis Hfew : few Kb.

Lemma fwp_dirlookup (dp : nat) (x : Z) (name : list Z) (fs : fsys) K held (R : option (nat * Z) -> world -> Prop) :
  in_core fs K held dp x -> cache fs V Kb lk -> i_type (node x) = T_DIR -> dir_ok x ->
  length name = DIRSIZ -> Forall is_byte name -> room K 1 -> (forall y, 0 <= K y) ->
  match lookup_name (dir_entries V (node x)) (cstr name) with
  | None => forall bs, let fs' := fs <| bufs := bs |> in cache fs' V Kb lk -> R None (here fs')
  | Some y => forall bs t i off, let fs' := fs <| bufs := bs |> <| itable := t |> in
      itab fs' (bump K y 1) held -> istay (bump K y 1) fs fs' -> iptr fs' i y -> cache fs' V Kb lk -> R (Some (i, off)) (here fs')
  end ->
  fwp p pr (dirlookup dp name) (here fs) R.
Proof using LOk Hp Henv Hsize Hfew Hbytes.
  intros Hic Hc Hty Hdir Hln Hbn Hroom HK HR. destruct (in_core_node _ _ _ _ _ Hic) as (E1 & E2 & E3 & E4).
  pose proof (do_file _ Hdir) as Hfo. pose proof (fo_size _ _ _ _ _ _ Hfo) as Hsz. assert (MAXFILE * BSIZE < 2 ^ 31) as Hm31 by done.
  unfold dirlookup. do 2 fstep. rewrite E1, Hty. change (T_DIR =? T_DIR) with true. cbn [negb].
  set (es := dir_entries V (node x)) in *.
  apply (fwp_loop p pr (fun off w => exists k bs, off = 16 * k /\ 0 <= k /\ 16 * k <= i_size (node x) /\ w = here (fs <| bufs := bs |>) /\
      cache (fs <| bufs := bs |>) V Kb lk /\ lookup_name (drop (Z.to_nat k) es) (cstr name) = lookup_name es (cstr name))
    (fun off _ => i_size (node x) - off)).
  { exists 0, (bufs fs). split; [done|]. split; [lia|]. split; [lia|]. split; [by destruct fs|]. split; [by destruct fs|done]. }
  { lia. }
  intros off w (k & bs & -> & Hk & Hle & -> & Hc1 & Hlk). set (fs1 := fs <| bufs := bs |>) in *. do 2 fstep.
  change (at_ fs1 dp) with (at_ fs dp). rewrite E2. destruct (Z.ltb_spec (16 * k) (i_size (node x))) as [Hlt|Hge]; cbn [negb].
  2: { fstep. rewrite <- Hlk in HR. rewrite drop_ge in HR; [by apply HR|].
       unfold es, dir_entries. rewrite length_fmap, length_seq. apply Z2Nat.inj_le; [apply Z.div_pos; lia|lia|]. apply Z.div_le_upper_bound; lia. }
  destruct (dir_entry x k Hdir Hk Hlt) as (He & Hl & Hb & Hle2). fold es in He. set (e := dirent_of (fbytes V (node x) (16 * k) 16)) in *.
  assert (within (node x) (16 * k) 16 = 16) as Hwi by (unfold within; rewrite (proj2 (Z.ltb_ge _ _)) by lia; lia).
  assert (file_ok dv size V Kb lk (at_ fs dp)) as Hfo'.
  { destruct Hfo as [F1 F2 F3 F4]. split; [done|by rewrite E2| |by rewrite E2, E3].
    intros bn. rewrite E2. replace (fblk V (at_ fs dp) bn) with (fblk V (node x) bn) by (unfold fblk; by rewrite E3). apply F3. }
  assert (within (at_ fs dp) (16 * k) 16 = 16) as Hwi' by (unfold within in *; by rewrite E2).
  fstep. apply (fwp_readi dv size p pr Hp Henv Hsize dp ToVar (16 * k) sizeof_dirent fs1 V Kb lk); try done; try (unfold sizeof_dirent; lia).
  unfold sizeof_dirent. change (at_ fs1 dp) with (at_ fs dp). rewrite Hwi'. intros fs2 h2 Hc2 Ef2 Hland. cbn [lands] in Hland. subst h2.
  change (Z.to_nat 16) with 16%nat. rewrite (fbytes_addrs V _ (node x)) by done. cbn [fst snd]. change (16 =? 16) with true. cbn [negb]. fold e.
  assert (fs2 = fs <| bufs := bufs fs2 |>) as Ef by (by rewrite Ef2).
  assert (entry_is (cstr name) e = negb (de_inum e =? 0) && (namecmp name (de_name e) =? 0)) as Hent.
  { unfold entry_is. rewrite namecmp_cstr by done. f_equal. apply bool_decide_ext. split; congruence. }
  destruct (Z.eqb_spec (de_inum e) 0) as [H0|H0]; cbn [negb andb] in Hent.
  - fstep. rewrite u32_small by (unfold is_u32; lia). split; [|lia]. exists (k + 1), (bufs fs2). rewrite <- Ef.
    split; [lia|]. split; [lia|]. split; [lia|]. split; [done|]. split; [done|]. rewrite <- Hlk.
    replace (Z.to_nat (k + 1)) with (S (Z.to_nat k)) by lia. symmetry. by apply (lookup_skip es _ _ e).
  - destruct (namecmp name (de_name e) =? 0).
    + do 2 fstep. rewrite Ef at 1. change (i_dev _) with (i_dev (at_ fs dp)). rewrite E4.
      rewrite <- Hlk in HR. unfold lookup_name in HR. rewrite (drop_S es e _ He) in HR. cbn [List.find] in HR. rewrite Hent in HR. cbn [fmap option_fmap option_map] in HR.
      assert (itab fs2 K held) as Ht2 by (apply (itab_ext _ _ _ _ fs); [by rewrite Ef|apply (ic_itab _ _ _ _ _ Hic)]).
      fstep. apply (fwp_iget dv p pr sbk V Hp (de_inum e) fs2 K held); [done|done|done|]. intros t i fs3 Ht3 Hs3 Hi3. fstep.
      assert (fs3 = fs <| bufs := bufs fs2 |> <| itable := t |>) as Ef3 by (unfold fs3; by rewrite Ef). rewrite Ef3 in *.
      apply HR; [done| |done|].
      * intros j z Hj Hz. unfold iptr in Hj. replace (at_ fs j) with (at_ fs2 j) in Hj |- * by (by rewrite Ef). by apply Hs3.
      * rewrite <- Ef3. by destruct Hc2.
    + fstep. rewrite u32_small by (unfold is_u32; lia). split; [|lia]. exists (k + 1), (bufs fs2). rewrite <- Ef.
      split; [lia|]. split; [lia|]. split; [lia|]. split; [done|]. split; [done|]. rewrite <- Hlk.
      replace (Z.to_nat (k + 1)) with (S (Z.to_nat k)) by lia. symmetry. by apply (lookup_skip es _ _ e).
Qed.

(** ** Paths *)
Record node_ok (x : Z) : Prop := {
  no_block : readable size Kb lk (IBLOCK x sbk);
  no_type : i_type (node x) <> 0;
  no_link : i_nlink (node x) <> 0;
  no_dir : i_type (node x) = T_DIR -> dir_ok x;
}.

(** Where a path leads from [x]; with [parent], to the directory that has its
    last element. *)
Fixpoint walk (parent : bool) (x : Z) (es : list (list Z)) : option Z :=
  match es with
  | [] => if parent then None else Some x
  | e :: es => if negb (i_type (node x) =? T_DIR) then None else
               if parent && bool_decide (es = []) then Some x else
               match lookup_name (dir_entries V (node x)) (take DIRSIZ e) with
               | Some y => walk parent y es
               | None => None
               end
  end.

(** The inodes of the tree. *)
Context (G : Z -> Prop).
Hypothesis Hnode : forall x, G x -> node_ok x.
Hypothesis Hclosed : forall x e, G x -> i_type (node x) = T_DIR -> e ∈ dir_entries V (node x) -> de_inum e <> 0 -> G (de_inum e).

Lemma lookup_in_tree (x y : Z) (nm : list Z) : G x -> i_type (node x) = T_DIR -> lookup_name (dir_entries V (node x)) nm = Some y -> G y.
Proof using Hclosed.
  intros Hx Hty Hl. unfold lookup_name in Hl. destruct (List.find _ _) as [e|] eqn:Ef; [|done]. cbn in Hl. injection Hl as <-.
  apply find_some in Ef as [Hin He]. apply list_elem_of_In in Hin. unfold entry_is in He. apply andb_true_iff in He as [He _].
  apply Hclosed with (x := x); [done|done|done|]. by apply negb_true_iff, Z.eqb_neq in He.
Qed.

Lemma Forall_splice {A} (P : A -> Prop) (l k : list A) (off : nat) : Forall P l -> Forall P k -> Forall P (splice l off k).
Proof. intros Hl Hk. unfold splice. rewrite !Forall_app. split_and!; [by apply Forall_take|done|by apply Forall_drop]. Qed.

Lemma skipelem_all (P : Z -> Prop) (path name rest name' : list Z) :
  Forall P path -> Forall P name -> P 0 -> skipelem path name = Some (rest, name') ->
  Forall P rest /\ Forall P name' /\ (elements rest = [] -> rest = []).
Proof.
  intros Hpa Hn H0. unfold skipelem. destruct (skip_slashes_spec path) as (_ & _ & _ & S4). specialize (S4 _ Hpa).
  set (q := skip_slashes path) in *. clearbody q. case_bool_decide as Hq; [done|].
  pose proof (split_elem_spec q) as Hs. destruct (split_elem q) as [e r]. destruct Hs as (-> & _ & _).
  apply Forall_app in S4 as [Pe Pr]. destruct (skip_slashes_spec r) as (_ & R2 & _ & R4).
  generalize (DIRSIZ <=? length e)%nat. intros b [= <- <-]. split; [by apply R4|]. split.
  - destruct b; apply Forall_splice; try done; [by apply Forall_take|].
    apply Forall_app. split; [done|]. by constructor.
  - intros He. destruct (skip_slashes r) as [|c r']; [done|]. cbn in R2. unfold elements in He. cbn [pieces] in He.
    rewrite (proj2 (Z.eqb_neq c slash)) in He by congruence. destruct (pieces r'); cbn in He; done.
Qed.

Lemma room_one (K : Z -> Z) (x : Z) (n : nat) : room K (S n) -> room (bump K x 1) n.
Proof.
  intros (l & Hl & Hn). exists (x :: l). split; [|cbn; lia]. intros y Hy. unfold bump in Hy.
  destruct (Z.eqb_spec y x) as [Ey|]; [rewrite Ey; by left|right; by apply Hl].
Qed.

(** A step of the walk: lock, look up, give the directory back. *)
Section step.
Context (K : Z -> Z).
Hypothesis HK : forall y, 0 <= K y.
Hypothesis Hroom : room K 2.

(** The process has a reference to [x] more than [K] says, through [ip]. *)
Record at_node (fs : fsys) (held : option nat) (ip : nat) (x : Z) : Prop := {
  an_itab : itab fs (bump K x 1) held;
  an_iptr : iptr fs ip x;
  an_cache : cache fs V Kb lk;
  an_sb : sb fs = sbk;
}.

Lemma bump_back (x y : Z) : bump (bump K x 1) x (-1) y = K y.
Proof. unfold bump. destruct (y =? x); lia. Qed.

Lemma fwp_put (fs : fsys) (ip : nat) (x : Z) (R : unit -> world -> Prop) :
  G x -> at_node fs None ip x ->
  (forall t, let fs' := fs <| itable := t |> in itab fs' K None -> cache fs' V Kb lk -> R tt (here fs')) ->
  fwp p pr (iput ip) (here fs) R.
Proof using Hp Hnode.
  intros Hx [Ht Hi Hc Hs] HR. apply (fwp_iput dv p pr sbk V Hp ip x fs (bump K x 1) None); [done|done|apply (no_link _ (Hnode x Hx))|].
  intros t fs' Ht' _. apply HR; [|by destruct Hc]. by apply (itab_counts _ _ _ _ _ _ _ _ (fun y => eq_sym (bump_back x y))).
Qed.

(** What [namex] has to end with. *)
Context (parent : bool) (path0 : list Z) (fs : fsys) (W : option Z) (R : option nat * list Z -> world -> Prop).
Definition ends_well : Prop :=
  match W with
  | Some y => forall bs t i nm, let fs' := fs <| bufs := bs |> <| itable := t |> in
      at_node fs' None i y -> (parent = true -> exists e, list.last (elements path0) = Some e /\ cstr nm = take DIRSIZ e) ->
      R (Some i, nm) (here fs')
  | None => forall bs t nm, let fs' := fs <| bufs := bs |> <| itable := t |> in
      itab fs' K None -> cache fs' V Kb lk -> R (None, nm) (here fs')
  end.

Record walking (fs1 : fsys) (path : list Z) (ip : nat) (name : list Z) (x : Z) : Prop := {
  wk_path : Forall (fun c => c <> 0) path;
  wk_bytes : Forall is_byte path;
  wk_name : length name = DIRSIZ;
  wk_nbytes : Forall is_byte name;
  wk_node : G x;
  wk_at : at_node fs1 None ip x;
  wk_fs : fs1 = fs <| bufs := bufs fs1 |> <| itable := itable fs1 |>;
  wk_walk : walk parent x (elements path) = W;
  wk_last : elements path = [] \/ list.last (elements path) = list.last (elements path0);
}.

Hypothesis HR : ends_well.

Lemma fwp_give_up {B} (b : B) (fs1 : fsys) (ip : nat) (x : Z) (nm : list Z) (Q : B -> world -> Prop) :
  G x -> W = None -> at_node fs1 (Some ip) ip x -> fs1 = fs <| bufs := bufs fs1 |> <| itable := itable fs1 |> ->
  (forall w, R (None, nm) w -> Q b w) ->
  fwp p pr (iunlockput ip;; mret b) (here fs1) Q.
Proof using Hp Hnode HR.
  intros Hx Hw [Ht Hi Hc Hs] Ef HQ. unfold iunlockput. do 2 fstep.
  apply (fwp_iunlock_held dv p pr sbk V Hp ip x fs1 (bump K x 1)); [done|done|]. intros t fs2 Ht2 Hi2.
  apply (fwp_put fs2 ip x); [done|split; [done|by apply Hi2|by destruct Hc|done]|]. intros t' fs3 Ht3 Hc3. fstep.
  unfold ends_well in HR. rewrite Hw in HR. apply HQ. assert (fs3 = fs <| bufs := bufs fs1 |> <| itable := t' |>) as E3 by (unfold fs3, fs2; by rewrite Ef).
  rewrite E3 in *. by apply HR.
Qed.

Lemma fwp_step (fs1 : fsys) (path path' : list Z) (ip : nat) (name name' : list Z) (x : Z) (Q : _ -> world -> Prop) :
  walking fs1 path ip name x -> skipelem path name = Some (path', name') ->
  (forall r w, R r w -> Q (inr r) w) ->
  (forall fs2 next y, walking fs2 path' next name' y -> (length path' < length path)%nat -> Q (inl (path', next, name')) (here fs2)) ->
  fwp p pr (ilock ip;;
    v ← get_inode ip;
    if negb (i_type v =? T_DIR) then iunlockput ip;; mret (inr (None, name')) else
    if parent && bool_decide (path' = []) then iunlock ip;; mret (inr (Some ip, name')) else
    next ← dirlookup ip name';
    match next with
    | None => iunlockput ip;; mret (inr (None, name'))
    | Some (next, _) => iunlockput ip;; mret (inl (path', next, name'))
    end) (here fs1) Q.
Proof using LOk Hp Henv Hsize Hfew Hbytes Hnode Hclosed HK Hroom HR.
  intros [P1 P2 P3 P4 P5 [A1 A2 A3 A4] P7 P8 P9] Hsk HQ1 HQ2.
  pose proof (skipelem_spec path name P1 P3) as Hspec. rewrite Hsk in Hspec. destruct Hspec as (e & Ee & En & Hl' & Hz' & Hlt).
  destruct (skipelem_all _ _ _ _ _ P2 P4 ltac:(done) Hsk) as (Hb' & Hnb' & Hempty). rewrite Ee in P8, P9. cbn [walk] in P8.
  destruct (Hnode x P5) as [N1 N2 N3 N4].
  fstep. apply (fwp_ilock_disk dv p pr sbk V Hp size Henv Hsize ip x fs1 (bump K x 1) Kb lk); try done.
  intros bs t fs2 Ht2 Hi2 Hv2 Hc2. assert (in_core fs2 (bump K x 1) (Some ip) ip x) as Hic by (by split).
  destruct (in_core_node _ _ _ _ _ Hic) as (E1 & _ & _ & _). do 2 fstep. rewrite E1.
  assert (fs2 = fs <| bufs := bs |> <| itable := t |>) as Ef2 by (unfold fs2; by rewrite P7).
  assert (at_node fs2 (Some ip) ip x) as Han by (by split).
  assert (forall fs3, at_node fs3 (Some ip) ip x -> fs3 = fs <| bufs := bufs fs3 |> <| itable := itable fs3 |> -> W = None ->
    fwp p pr (iunlockput ip;; mret (inr (None, name'))) (here fs3) Q) as Hgive.
  { intros fs3 Ha3 Ef3 Hw. by apply (fwp_give_up _ fs3 ip x name'); auto. }
  destruct (Z.eqb_spec (i_type (node x)) T_DIR) as [Hty|Hty]; cbn [negb] in *; [|apply Hgive; [done|by rewrite Ef2|done]].
  replace (bool_decide (path' = [])) with (bool_decide (elements path' = [])).
  2: { apply bool_decide_ext. split; [done|by intros ->]. }
  destruct (parent && bool_decide (elements path' = [])) eqn:Epar.
  - apply andb_true_iff in Epar as [Hpar He]. apply bool_decide_eq_true in He.
    fstep. apply (fwp_iunlock_held dv p pr sbk V Hp ip x fs2 (bump K x 1)); [done|done|]. intros t3 fs3 Ht3 Hi3. fstep. apply HQ1.
    unfold ends_well in HR. rewrite <- P8 in HR. assert (fs3 = fs <| bufs := bs |> <| itable := t3 |>) as E3 by (unfold fs3; by rewrite Ef2).
    rewrite E3 in *. apply HR; [split; [done|by apply Hi3|by rewrite <- E3; destruct Hc2|by rewrite <- E3]|].
    intros _. exists e. rewrite He in P9. destruct P9 as [?|P9]; [done|]. split; [symmetry; exact P9|done].
  - fstep. apply (fwp_dirlookup ip x name' fs2 (bump K x 1) (Some ip)); try done; [by apply N4|by apply room_one| |].
    { intros y. unfold bump. specialize (HK y). destruct (y =? x); lia. }
    rewrite En. destruct (lookup_name _ _) as [y|] eqn:Ely.
    + intros bs3 t3 next off fs3 Ht3 Hs3 Hi3 Hc3. destruct (Hs3 ip x Hi2) as [Hip3 _].
      { unfold bump. pose proof (HK x). destruct (x =? y); rewrite Z.eqb_refl; lia. }
      unfold iunlockput. do 2 fstep. apply (fwp_iunlock_held dv p pr sbk V Hp ip x fs3 (bump (bump K x 1) y 1)); [done|done|].
      intros t4 fs4 Ht4 Hi4. apply (fwp_iput dv p pr sbk V Hp ip x fs4 _ None _ Ht4); [by apply Hi4|done|].
      intros t5 fs5 Ht5 Hs5. fstep. apply (HQ2 fs5 next y); [|done]. split; try done.
      * by apply (lookup_in_tree x y (take DIRSIZ e)).
      * split; [|apply Hs5; [by apply Hi4|]|by destruct Hc3|done].
        -- apply itab_counts with (2 := Ht5). intros z. unfold bump. destruct (z =? x), (z =? y); lia.
        -- unfold bump. pose proof (HK y). rewrite Z.eqb_refl. destruct (y =? x); lia.
      * unfold fs5, fs4, fs3. rewrite Ef2. reflexivity.
      * destruct (elements path') as [|e' es]; [by left|right]. destruct P9 as [?|<-]; done.
    + intros bs3 fs3 Hc3. apply Hgive; [|by unfold fs3; rewrite Ef2|done]. split; [by apply (itab_ext _ _ _ _ fs2)|done|done|done].
Qed.

Lemma fwp_namex (x0 : Z) (name : list Z) :
  itab fs K None -> cache fs V Kb lk -> sb fs = sbk -> G x0 ->
  (if bool_decide (head path0 = Some slash) then dv = ROOTDEV /\ x0 = ROOTINO else exists c, p_cwd pr = Some c /\ iptr fs c x0) ->
  Forall (fun c => c <> 0) path0 -> Forall is_byte path0 -> Z.of_nat (length path0) < 2 ^ 64 ->
  length name = DIRSIZ -> Forall is_byte name -> W = walk parent x0 (elements path0) ->
  fwp p pr (namex path0 parent name) (here fs) R.
Proof using LOk Hp Henv Hsize Hfew Hbytes Hnode Hclosed HK Hroom HR.
  intros Ht Hc Hsb Hx0 Hst Hz Hb Hlen Hn Hnb HW. unfold namex. fstep.
  assert (room K 1) as Hroom1 by (destruct Hroom as (l & Hl & Hll); exists l; split; [done|lia]).
  apply (fwp_mono p pr _ _ (fun ip w => exists t, w = here (fs <| itable := t |>) /\ at_node (fs <| itable := t |>) None ip x0)).
  { case_bool_decide.
    - destruct Hst as [<- ->]. apply (fwp_iget dv p pr sbk V Hp ROOTINO fs K None); [done|done|done|]. intros t i fs1 Ht1 _ Hi1.
      exists t. split; [done|]. split; [done|done|by destruct Hc|done].
    - destruct Hst as (c & Hcwd & Hic). do 3 fstep. apply fwp_get_proc. intros st ch. cbn [p_cwd set_with set_p_state set_p_chan]. rewrite Hcwd.
      unfold deref. do 2 fstep. apply (fwp_idup dv p pr sbk V Hp c x0 fs K None); [done|done|done|]. intros t fs1 Ht1 _ Hi1.
      exists t. split; [done|]. split; [done|done|by destruct Hc|done]. }
  intros ip w (t & -> & Han).
  apply (fwp_loop p pr (fun '(path, ip, name) w => exists fs1 x, w = here fs1 /\ walking fs1 path ip name x)
    (fun '(path, _, _) _ => Z.of_nat (length path))).
  { exists (fs <| itable := t |>), x0. split; [done|]. split; try done. by right. }
  { done. }
  intros [[path i] nm] w (fs1 & x & -> & Hwk). destruct (skipelem path nm) as [[path' nm']|] eqn:Esk.
  - apply (fwp_step fs1 path path' i nm nm' x); [done|done|done|]. intros fs2 next y Hwk2 Hlt. split; [by exists fs2, y|lia].
  - destruct Hwk as [P1 P2 P3 P4 P5 P6 P7 P8 P9]. pose proof (skipelem_spec path nm P1 P3) as Hspec. rewrite Esk in Hspec.
    rewrite Hspec in P8. cbn [walk] in P8. unfold ends_well in HR. rewrite <- P8 in HR. destruct parent eqn:Epar.
    + fstep. apply (fwp_put fs1 i x); [done|done|]. intros t' fs2 Ht2 Hc2. fstep.
      assert (fs2 = fs <| bufs := bufs fs1 |> <| itable := t' |>) as E2 by (unfold fs2; by rewrite P7). rewrite E2 in *. by apply HR.
    + fstep. rewrite P7 in P6 |- *. by apply HR.
Qed.
End step.
End names.

(** C4. Path names lead where the directories on disk say.  [namex] on an
    absolute path, or on a relative one with a current directory, returns the
    inode that a walk through the entries of the directories reaches, with
    one reference more than before, or nothing when an element is missing or
    a prefix is no directory; with [nameiparent] it returns the directory of
    the last element and this element.  This holds whatever inodes and blocks
    are cached, for paths that come back to the same inode, and inodes visited
    on the way are unlocked and given back. *)
Theorem namex_walks {L : Linker} {LOk : LinkerOk L} {E : Env} (dv size : Z) (p : nat) (pr : proc) (sbk : superblock)
    (V : Z -> list Z) (Kb : Z -> Z) (lk : Z -> bool) (G : Z -> Prop) (K : Z -> Z) (parent : bool) (path name : list Z) (x0 : Z)
    (h : heap) (ft : ftable) (s : kstate) :
  (p < NPROC)%nat -> disk_serves p -> size <= 2 ^ 31 -> inw p pr (World [] h ft (k_fs s)) s ->
  cache dv size pr (k_fs s) V Kb lk -> few Kb -> bytes_on_disk V -> sb (k_fs s) = sbk ->
  (forall x, G x -> node_ok dv size sbk V Kb lk x) ->
  (forall x e, G x -> i_type (node dv sbk V x) = T_DIR -> e ∈ dir_entries V (node dv sbk V x) -> de_inum e <> 0 -> G (de_inum e)) ->
  itab dv pr sbk V (k_fs s) K None -> (forall y, 0 <= K y) -> room K 2 -> G x0 ->
  (if bool_decide (head path = Some slash) then dv = ROOTDEV /\ x0 = ROOTINO else exists c, p_cwd pr = Some c /\ iptr (k_fs s) c x0) ->
  Forall (fun c => c <> 0) path -> Forall is_byte path -> Z.of_nat (length path) < 2 ^ 64 ->
  length name = DIRSIZ -> Forall is_byte name ->
  runs (namex path parent name) s (fun r s' =>
    cache dv size pr (k_fs s') V Kb lk /\ k_fs s' = (k_fs s) <| bufs := bufs (k_fs s') |> <| itable := itable (k_fs s') |> /\
    match walk dv sbk V parent x0 (elements path) with
    | Some y => exists i, r.1 = Some i /\ iptr (k_fs s') i y /\ itab dv pr sbk V (k_fs s') (bump K y 1) None /\
        (parent = true -> exists e, list.last (elements path) = Some e /\ cstr r.2 = take DIRSIZ e)
    | None => r.1 = None /\ itab dv pr sbk V (k_fs s') K None
    end).
Proof.
  intros Hp Henv Hsize Hin Hc Hfew Hbytes Hsb Hnode Hclosed Ht HK Hroom Hx0 Hst Hz Hb Hlen Hn Hnb.
  eapply runs_mono; [apply (fwp_namex (ft := ft) (h := h) dv size p pr sbk V Kb lk Hbytes Hp Henv Hsize Hfew G Hnode Hclosed K HK Hroom
    parent path (k_fs s) (walk dv sbk V parent x0 (elements path))) with (x0 := x0) (name := name)
    (R := fun r w => cache dv size pr (w_fs w) V Kb lk /\ w_fs w = (k_fs s) <| bufs := bufs (w_fs w) |> <| itable := itable (w_fs w) |> /\
      match walk dv sbk V parent x0 (elements path) with
      | Some y => exists i, r.1 = Some i /\ iptr (w_fs w) i y /\ itab dv pr sbk V (w_fs w) (bump K y 1) None /\
          (parent = true -> exists e, list.last (elements path) = Some e /\ cstr r.2 = take DIRSIZ e)
      | None => r.1 = None /\ itab dv pr sbk V (w_fs w) K None
      end); try done|].
  - unfold ends_well. destruct (walk _ _ _ _ _ _) as [y|].
    + intros bs t i nm [A1 A2 A3 A4] Hlast. split; [done|]. split; [done|]. by exists i.
    + intros bs t nm H1 H2. done.
  - intros r s' (w & Hw & HR). by rewrite (in_fs _ _ _ _ Hw).
Qed.

(** A disk with the tree /, /a, /a/b. *)
Definition tree_de (inum : Z) (nm : string) : list Z := le_split 2 inum ++ take 14 (bytes_of nm ++ replicate 14 0).
Definition tree_dinode (type size blk : Z) : list Z :=
  dinode_bytes (Inode 1 0 0 (Sleeplock 0 0) 0 type 0 0 1 size (blk :: replicate 12 0)).
Definition tree_pad (bs : list Z) : list Z := bs ++ replicate (1024 - length bs) 0.
Definition tree_block (x : nat) : list Z :=
  match x with
  | 13%nat => tree_pad (replicate 64 0 ++ tree_dinode T_DIR 48 14 ++ tree_dinode T_DIR 48 15 ++ tree_dinode T_FILE 0 0)
  | 14%nat => tree_pad (tree_de 1 "." ++ tree_de 1 ".." ++ tree_de 2 "a")
  | 15%nat => tree_pad (tree_de 2 "." ++ tree_de 1 ".." ++ tree_de 3 "b")
  | _ => tree_pad []
  end.
Definition tree_disk : gmap Z (list Z) := list_to_map ((fun i => (Z.of_nat i, tree_block i)) <$> seq 0 16).
Definition tree_sb : superblock := Superblock FSMAGIC 16 3 16 12 0 13 12.
Definition tree_fs (bs : list buf) : fsys :=
  (log_fs bs) <| disk := tree_disk |> <| sb := tree_sb |>
    <| itable := replicate 50 (Inode 0 0 0 (Sleeplock 0 0) 0 0 0 0 0 0 []) |>.
Definition tree_V (x : Z) : list Z := tree_disk !!! x.
Definition in_tree (x : Z) : Prop := x = 1 \/ x = 2 \/ x = 3.

Lemma tree_dom (x : Z) : 0 <= x < 16 -> is_Some (tree_disk !! x).
Proof.
  intros Hx. exists (tree_block (Z.to_nat x)). apply elem_of_list_to_map_1.
  - rewrite <- list_fmap_compose. apply NoDup_fmap_2_strong; [|apply NoDup_seq]. cbn. intros; lia.
  - apply list_elem_of_fmap. exists (Z.to_nat x). rewrite Z2Nat.id by lia. split; [done|]. apply elem_of_seq. lia.
Qed.

Lemma tree_bytes : bytes_on_disk tree_V.
Proof.
  intros x. unfold tree_V. rewrite lookup_total_alt. destruct (tree_disk !! x) as [d|] eqn:Ed; [|constructor].
  apply elem_of_list_to_map_2, list_elem_of_fmap in Ed as (i & [= _ ->] & Hi). cbn [default].
  assert (forallb (fun i => forallb (fun b => (0 <=? b) && (b <? 256)) (tree_block i)) (seq 0 16) = true) as Hall by (vm_compute; reflexivity).
  rewrite forallb_forall in Hall. apply list_elem_of_In in Hi. specialize (Hall i Hi). rewrite forallb_forall in Hall.
  apply list.Forall_forall. intros b Hb%list_elem_of_In. specialize (Hall b Hb). unfold is_byte. lia.
Qed.

Lemma tree_nodes (x : Z) : in_tree x -> node_ok 1 16 tree_sb tree_V (fun _ => 0) nolock x.
Proof.
  assert (forall x, x = 1 \/ x = 2 -> dir_ok 1 16 tree_sb tree_V (fun _ => 0) nolock x) as Hdir.
  { intros y Hy. split; [|destruct Hy as [->| ->]; vm_compute; reflexivity]. split.
    - done.
    - destruct Hy as [->| ->]; vm_compute; split; discriminate.
    - assert (i_size (node 1 tree_sb tree_V y) = 48) as -> by (destruct Hy as [->| ->]; vm_compute; reflexivity).
      intros bn H0 Hlt. unfold BSIZE in Hlt. assert (bn = 0) as -> by lia.
      destruct Hy as [->| ->]; (split; [split_and!; vm_compute; reflexivity|vm_compute; reflexivity]).
    - assert (i_size (node 1 tree_sb tree_V y) = 48) as -> by (destruct Hy as [->| ->]; vm_compute; reflexivity). by intros. }
  intros [->|[->| ->]]; (split; [split_and!; vm_compute; reflexivity|vm_compute; discriminate|vm_compute; discriminate|]).
  - intros _. apply Hdir. by left.
  - intros _. apply Hdir. by right.
  - intros Ht. vm_compute in Ht. discriminate.
Qed.

Lemma tree_closed (x : Z) (e : dirent) :
  in_tree x -> i_type (node 1 tree_sb tree_V x) = T_DIR -> e ∈ dir_entries tree_V (node 1 tree_sb tree_V x) -> de_inum e <> 0 -> in_tree (de_inum e).
Proof.
  assert (forall x, in_tree x -> forallb (fun e => (1 <=? de_inum e) && (de_inum e <=? 3)) (dir_entries tree_V (node 1 tree_sb tree_V x)) = true) as Hall.
  { intros y [->|[->| ->]]; vm_compute; reflexivity. }
  intros Hx _ He _. specialize (Hall x Hx). rewrite forallb_forall in Hall. apply list_elem_of_In in He. specialize (Hall e He).
  unfold in_tree. lia.
Qed.

Lemma namex_walks_witness : exists bs, let s := bio_state demo_ctl (tree_fs bs) in
  runs (namex (E := machine_env) (bytes_of "/a/../a//b") false (replicate 14 0)) s (fun r s' =>
    exists i, r.1 = Some i /\ i_inum (itable (k_fs s') !!! i) = 3) /\
  runs (namex (E := machine_env) (bytes_of "/a/c") true (replicate 14 0)) s (fun r s' =>
    exists i, r.1 = Some i /\ i_inum (itable (k_fs s') !!! i) = 2 /\ cstr r.2 = bytes_of "c").
Proof.
  destruct demo_ring as [bs Hr]. exists bs. intros s. set (pr := procs demo_pt !!! 0%nat).
  assert (forall fs, inw 0 pr (World [] (Heap ∅ 0 0) (k_ft (demo_state demo_ctl)) fs) (bio_state demo_ctl fs)) as Hin.
  { intros fs. exact (demo_inw pr (Heap ∅ 0 0) (k_ft (demo_state demo_ctl)) fs eq_refl). }
  assert (cache 1 16 pr (tree_fs bs) tree_V (fun _ => 0) nolock) as Hc.
  { apply (ring_cache 1 16 pr (tree_fs bs)); [exact Hr|discriminate|exact tree_dom]. }
  assert (itab 1 pr tree_sb tree_V (tree_fs bs) (fun _ => 0) None) as Ht.
  { assert (forall i, (i < NINODE)%nat -> itable (tree_fs bs) !!! i = Inode 0 0 0 (Sleeplock 0 0) 0 0 0 0 0 0 []) as Hat.
    { intros i Hi. unfold tree_fs. cbn [itable set_with set_itable]. by apply lookup_total_replicate_2. }
    split.
    - reflexivity.
    - intros i Hi. by rewrite Hat.
    - intros i Hi. rewrite Hat by done. cbn. lia.
    - done.
    - intros i j Hi Hj. rewrite Hat by done. cbn. lia.
    - intros i Hi. rewrite Hat by done. cbn. lia.
    - done.
    - intros i Hi _. by rewrite Hat. }
  pose proof (fun parent path => namex_walks (L := demo_linker) (LOk := demo_linker_ok) (E := machine_env) 1 16 0 pr tree_sb tree_V (fun _ => 0) nolock in_tree
    (fun _ => 0) parent path (replicate 14 0) 1 (Heap ∅ 0 0) (k_ft (demo_state demo_ctl)) s ltac:(vm_compute; lia) (machine_serves 0) ltac:(lia)
    (Hin (tree_fs bs)) Hc) as Hrun.
  assert (Forall is_byte (replicate 14 0) /\ room (fun _ => 0) 2 /\ few (fun _ => 0)) as (Hb0 & Hroom & Hfew).
  { split; [|split; exists []; (split; [by intros|vm_compute; lia])]. repeat (constructor; [by vm_compute|]). constructor. }
  split.
  - eapply runs_mono; [apply (Hrun false (bytes_of "/a/../a//b") Hfew tree_bytes eq_refl tree_nodes tree_closed Ht ltac:(done) Hroom)|].
    + by left.
    + by vm_compute.
    + repeat (constructor; [by vm_compute|]). constructor.
    + repeat (constructor; [by vm_compute|]). constructor.
    + vm_compute. reflexivity.
    + reflexivity.
    + exact Hb0.
    + intros r s' (_ & _ & Hw). replace (walk _ _ _ _ _ _) with (Some 3) in Hw by (vm_compute; reflexivity).
      destruct Hw as (i & Hi & (_ & _ & Hx) & _). by exists i.
  - eapply runs_mono; [apply (Hrun true (bytes_of "/a/c") Hfew tree_bytes eq_refl tree_nodes tree_closed Ht ltac:(done) Hroom)|].
    + by left.
    + by vm_compute.
    + repeat (constructor; [by vm_compute|]). constructor.
    + repeat (constructor; [by vm_compute|]). constructor.
    + vm_compute. reflexivity.
    + reflexivity.
    + exact Hb0.
    + intros r s' (_ & _ & Hw). replace (walk _ _ _ _ _ _) with (Some 2) in Hw by (vm_compute; reflexivity).
      destruct Hw as (i & Hi & (_ & _ & Hx) & _ & Hl). exists i. split; [done|]. split; [done|].
      destruct (Hl eq_refl) as (e & He & ->). replace (list.last _) with (Some (bytes_of "c")) in He by (vm_compute; reflexivity).
      injection He as <-. reflexivity.
Defined.
