(* ===== verification/FsInode.v ===== *)
(** * The blocks of an inode

    An inode has [NSLOTS] slots for block numbers: the direct ones, the one of
    the indirect block, and those in the indirect block.  [inode_wf] says that
    the slots in use hold distinct blocks that the bitmap has marked, and
    [bmapped] is what filling slots with fresh blocks does to the file
    system. *)
From S2P Require Import Prelude Memory Riscv State Spinlock Kalloc Steps Vm Proc ProcSpec Plic Virtio VirtioSpec Sleeplock FsLogic Bio BioSpec Log LogSpec FsTx Fs FsAlloc FsSpec.

Definition NSLOTS : nat := NDIRECT + 1 + NINDIRECT.
Definition ind (v : inode) : Z := i_addrs v !!! NDIRECT.
Definition slot (V : Z -> list Z) (v : inode) (i : nat) : Z :=
  if (i <=? NDIRECT)%nat then i_addrs v !!! i
  else if ind v =? 0 then 0 else word (V (ind v)) (i - NDIRECT - 1).
(** The slot of a block of the file. *)
Definition sidx (bn : Z) : nat := if bn <? Z.of_nat NDIRECT then Z.to_nat bn else S (Z.to_nat bn).

Lemma slot_fblk (V : Z -> list Z) (v : inode) (bn : Z) :
  0 <= bn -> slot V v (sidx bn) <> 0 -> fblk V v bn = slot V v (sidx bn).
Proof.
  intros Hb. unfold slot, sidx, fblk, ind. destruct (Z.ltb_spec bn (Z.of_nat NDIRECT)) as [Hd|Hd].
  - rewrite (proj2 (Nat.leb_le _ _)) by lia. done.
  - rewrite (proj2 (Nat.leb_gt _ _)) by lia. destruct (_ =? 0); [done|]. intros _. f_equal. lia.
Qed.
Lemma sidx_range (bn : Z) : 0 <= bn < MAXFILE -> (sidx bn < NSLOTS)%nat /\ sidx bn <> NDIRECT.
Proof.
  unfold MAXFILE, sidx, NSLOTS. intros Hb. destruct (Z.ltb_spec bn (Z.of_nat NDIRECT)); lia.
Qed.
Lemma sidx_inj (a b : Z) : 0 <= a -> 0 <= b -> sidx a = sidx b -> a = b.
Proof. unfold sidx. intros Ha Hb. destruct (Z.ltb_spec a (Z.of_nat NDIRECT)), (Z.ltb_spec b (Z.of_nat NDIRECT)); lia. Qed.

(** ** Counting free blocks *)
Section free.
Context (size bm : Z).

Definition nfree (V : Z -> list Z) : nat := length (List.filter (fun x => negb (bit V bm x)) (seqZ 0 size)).

Lemma filter_drop_one (f g : Z -> bool) (x : Z) (l : list Z) :
  NoDup l -> x ∈ l -> f x = true -> g x = false -> (forall y, y ∈ l -> y <> x -> g y = f y) ->
  length (List.filter f l) = S (length (List.filter g l)).
Proof.
  induction l as [|y l IH]; intros Hnd Hx Hf Hg Hs; [by apply not_elem_of_nil in Hx|].
  apply list.NoDup_cons in Hnd as [Hy Hnd]. cbn [List.filter]. destruct (decide (y = x)) as [->|Hne].
  - rewrite Hf, Hg. cbn [length]. f_equal.
    assert (List.filter f l = List.filter g l) as ->; [|done].
    clear IH Hx. induction l as [|z l IH]; [done|]. apply list.NoDup_cons in Hnd as [Hz Hnd].
    apply not_elem_of_cons in Hy as [Hxz Hy]. cbn [List.filter].
    rewrite (Hs z); [|right; by left|congruence]. rewrite IH; [done|done|done|].
    intros w Hw. apply Hs. apply elem_of_cons in Hw as [->|Hw]; [by left|right; by right].
  - apply elem_of_cons in Hx as [->|Hx]; [done|]. rewrite (Hs y); [|by left|done].
    specialize (IH Hnd Hx Hf Hg ltac:(intros z Hz; apply Hs; by right)). destruct (f y); cbn [length]; lia.
Qed.

Lemma nfree_some (V : Z -> list Z) : (0 < nfree V)%nat -> exists x, 0 <= x < size /\ bit V bm x = false.
Proof.
  unfold nfree. intros Hn. destruct (List.filter _ (seqZ 0 size)) as [|x l] eqn:E; [cbn in Hn; lia|].
  assert (In x (List.filter (fun x => negb (bit V bm x)) (seqZ 0 size))) as Hin by (rewrite E; by left).
  apply filter_In in Hin as [Hin Hb]. exists x. apply list_elem_of_In, elem_of_seqZ in Hin. split; [lia|].
  by apply negb_true_iff.
Qed.

Lemma nfree_alloc (V V' : Z -> list Z) (x : Z) :
  0 <= x < size -> bit V bm x = false -> (forall y, 0 <= y < size -> bit V' bm y = bit V bm y || (y =? x)) ->
  nfree V = S (nfree V').
Proof.
  intros Hx Hf Hb. unfold nfree. apply (filter_drop_one _ _ x).
  - apply NoDup_seqZ.
  - apply elem_of_seqZ. lia.
  - by rewrite Hf.
  - by rewrite Hb, Z.eqb_refl, orb_true_r by done.
  - intros y Hy Hne. apply elem_of_seqZ in Hy. rewrite Hb, (proj2 (Z.eqb_neq _ _)), orb_false_r by (done || lia). done.
Qed.
End free.

(** ** Well-formed inodes *)
Definition need (v : inode) : nat := if ind v =? 0 then 1 else 0.
(** [y] is not the indirect block, if there is one. *)
Definition not_ind (v : inode) (y : Z) : Prop := y <> 0 -> ind v <> y.

Section wf.
Context (dv size start nlog bm ib : Z).
#[local] Abbreviation home := (home size start nlog).
#[local] Abbreviation bitmap_ok := (bitmap_ok size start nlog bm).
#[local] Abbreviation nfree := (nfree size bm).
Hypothesis Hib : 0 <= ib < size.

Record block_ok (V : Z -> list Z) (x : Z) : Prop := {
  bk_range : 0 < x < size;
  bk_home : home x;
  bk_bm : x <> bm;
  bk_ib : x <> ib;
  bk_bit : bit V bm x = true;
  bk_len : length (V x) = Z.to_nat BSIZE;
}.

Record inode_wf (V : Z -> list Z) (v : inode) : Prop := {
  iw_dev : i_dev v = dv;
  iw_len : length (i_addrs v) = (NDIRECT + 1)%nat;
  iw_size : 0 <= i_size v <= MAXFILE * BSIZE;
  iw_ib : bit V bm ib = true;
  iw_used : forall i, (i < NSLOTS)%nat -> slot V v i <> 0 -> block_ok V (slot V v i);
  iw_inj : forall i j, (i < NSLOTS)%nat -> (j < NSLOTS)%nat -> i <> j -> slot V v i <> 0 -> slot V v i <> slot V v j;
  iw_mapped : forall bn, 0 <= bn -> bn * BSIZE < i_size v -> slot V v (sidx bn) <> 0;
}.

Record bmapped (n : nat) (V : Z -> list Z) (v : inode) (V' : Z -> list Z) (v' : inode) : Prop := {
  bg_wf : inode_wf V' v';
  bg_bitmap : bitmap_ok V';
  bg_inode : v' = v <| i_addrs := i_addrs v' |>;
  bg_slots : forall i, (i < NSLOTS)%nat -> slot V v i <> 0 -> slot V' v' i = slot V v i;
  bg_blocks : forall y, 0 <= y < size -> bit V bm y = true -> y <> bm -> not_ind v' y -> V' y = V y;
  bg_mono : forall y, 0 <= y < size -> bit V bm y = true -> bit V' bm y = true;
  bg_new : forall y, 0 <= y < size -> bit V' bm y = true -> bit V bm y = true \/ exists i, (i < NSLOTS)%nat /\ slot V' v' i = y /\ y <> 0;
  bg_free : (nfree V + need v' <= nfree V' + need v + n)%nat;
}.

Lemma bmapped_refl (V : Z -> list Z) (v : inode) : inode_wf V v -> bitmap_ok V -> bmapped 0 V v V v.
Proof. intros Hw Hb. split; auto. - by destruct v. - lia. Qed.

Lemma bmapped_weaken (n m : nat) (V V' : Z -> list Z) (v v' : inode) : (n <= m)%nat -> bmapped n V v V' v' -> bmapped m V v V' v'.
Proof. intros Hn [A1 A2 A3 A4 A5 A6 A7 A8]. split; auto. lia. Qed.

Lemma slot_ind (V : Z -> list Z) (v : inode) : slot V v NDIRECT = ind v.
Proof. done. Qed.
Lemma ndirect_slot : (NDIRECT < NSLOTS)%nat.
Proof. unfold NSLOTS. lia. Qed.

Lemma bmapped_trans (n m : nat) (V V1 V2 : Z -> list Z) (v v1 v2 : inode) :
  bmapped n V v V1 v1 -> bmapped m V1 v1 V2 v2 -> bmapped (n + m) V v V2 v2.
Proof.
  intros [A1 A2 A3 A4 A5 A6 A7 A8] [B1 B2 B3 B4 B5 B6 B7 B8]. split; [done|done| | | | | |lia].
  - rewrite B3, A3. by destruct v.
  - intros i Hi Hs. rewrite B4; [by apply A4|done|]. by rewrite A4.
  - intros y Hy Hb Hne Hni. rewrite B5 by auto. apply A5; [done|done|done|].
    intros Hy0 Hi. apply (Hni Hy0). pose proof (B4 NDIRECT ndirect_slot) as Hd. rewrite !slot_ind, Hi in Hd. by apply Hd.
  - auto.
  - intros y Hy Hb. destruct (B7 y Hy Hb) as [Hb1|Hx]; [|by right].
    destruct (A7 y Hy Hb1) as [?|(i & Hi & Hs & Hy0)]; [by left|right]. exists i. split; [done|]. split; [|done].
    rewrite B4; [done|done|by rewrite Hs].
Qed.

(** Filling one slot with a fresh block. *)
Lemma fill_slot (V V1 : Z -> list Z) (v v1 : inode) (s : nat) (x : Z) :
  inode_wf V v -> bitmap_ok V -> (s < NSLOTS)%nat -> slot V v s = 0 -> 0 <= x < size -> bit V bm x = false ->
  v1 = v <| i_addrs := i_addrs v1 |> -> length (i_addrs v1) = (NDIRECT + 1)%nat ->
  (forall i, (i < NSLOTS)%nat -> slot V1 v1 i = if decide (i = s) then x else slot V v i) ->
  (forall y, 0 <= y < size -> bit V bm y = true -> y <> bm -> not_ind v1 y -> V1 y = V y) ->
  (forall y, 0 <= y -> bit V1 bm y = bit V bm y || (y =? x)) ->
  length (V1 bm) = Z.to_nat BSIZE -> length (V1 x) = Z.to_nat BSIZE ->
  (ind v1 <> 0 -> length (V1 (ind v1)) = Z.to_nat BSIZE) ->
  bmapped (if decide (s = NDIRECT) then 0 else 1) V v V1 v1.
Proof.
  intros Hw [Hbl Hbf] Hs Hs0 Hx Hxb Hv Hl Hslots Hblk Hbits Hlbm Hlx Hli.
  destruct (Hbf x Hx Hxb) as (Hxh & Hxp & Hxn).
  assert (x <> ib) as Hxi by (intros ->; by rewrite (iw_ib _ _ Hw) in Hxb).
  assert (forall i, (i < NSLOTS)%nat -> slot V v i <> 0 -> slot V v i <> x) as Hfresh.
  { intros i Hi Hn E. destruct (iw_used _ _ Hw i Hi Hn) as [_ _ _ _ Hb _]. by rewrite E, Hxb in Hb. }
  assert (forall y, block_ok V y -> block_ok V1 y) as Hok.
  { intros y [K1 K2 K3 K4 K5 K6]. split; try done.
    - by rewrite Hbits, K5 by lia.
    - destruct (decide (ind v1 = y)) as [<-|Hne]; [apply Hli; lia|]. rewrite Hblk; try done; [lia|by intros _]. }
  assert (bitmap_ok V1) as Hbm1.
  { split; [done|]. intros y Hy Hb. apply Hbf; [done|]. rewrite Hbits in Hb by lia. by apply orb_false_iff in Hb as [? _]. }
  split; [|done|done| |done| | |].
  - split.
    + rewrite Hv. apply (iw_dev _ _ Hw).
    + done.
    + rewrite Hv. apply (iw_size _ _ Hw).
    + by rewrite Hbits, (iw_ib _ _ Hw) by lia.
    + intros i Hi. rewrite Hslots by done. destruct (decide (i = s)) as [->|Hne]; [intros _|].
      * split; try done; [lia|]. rewrite Hbits, Z.eqb_refl, orb_true_r by lia. done.
      * intros Hn. by apply Hok, (iw_used _ _ Hw).
    + intros i j Hi Hj Hij. rewrite !Hslots by done.
      destruct (decide (i = s)) as [->|Hne], (decide (j = s)) as [->|Hne2]; try done; intros Hn.
      * intros E. rewrite E in Hn. by apply (Hfresh j Hj Hn).
      * by apply Hfresh.
      * by apply (iw_inj _ _ Hw).
    + intros bn Hbn Hlt. assert (i_size v1 = i_size v) as Es by (by rewrite Hv). rewrite Es in Hlt.
      pose proof (iw_mapped _ _ Hw bn Hbn Hlt) as Hm.
      rewrite Hslots by (apply sidx_range; pose proof (iw_size _ _ Hw); unfold BSIZE in *; lia).
      destruct (decide _); [lia|done].
  - intros i Hi Hn. rewrite Hslots by done. destruct (decide (i = s)) as [->|]; [done|done].
  - intros y Hy Hb. by rewrite Hbits, Hb by lia.
  - intros y Hy Hb. rewrite Hbits in Hb by lia. apply orb_true_iff in Hb as [Hb|Hb]; [by left|right].
    apply Z.eqb_eq in Hb as ->. exists s. split; [done|]. rewrite Hslots, decide_True by done. split; [done|lia].
  - rewrite (nfree_alloc size bm V V1 x Hx Hxb) by (intros y Hy; apply Hbits; lia). unfold need.
    pose proof (Hslots NDIRECT ndirect_slot) as Hi. rewrite !slot_ind in Hi. rewrite Hi.
    destruct (decide (NDIRECT = s)) as [<-|Hne].
    + rewrite decide_True by done. rewrite (proj2 (Z.eqb_neq x 0)) by lia. rewrite slot_ind in Hs0. rewrite Hs0. cbn. lia.
    + rewrite decide_False by congruence. lia.
Qed.

(** [balloc] of [x], and then the slot: one in the inode, or one in the
    indirect block. *)
Definition alloc_V (V : Z -> list Z) (x : Z) : Z -> list Z := put (put V bm (set_bit (V bm) x)) x zeros.

Section fill.
Context (V : Z -> list Z) (v : inode) (x : Z).
Hypothesis Hw : inode_wf V v.
Hypothesis Hb : bitmap_ok V.
Hypothesis Hx : 0 <= x < size.
Hypothesis Hxb : bit V bm x = false.
Hypothesis Hsize : size <= BPB.

Lemma alloc_bits (y : Z) : 0 <= y -> bit (alloc_V V x) bm y = bit V bm y || (y =? x).
Proof using Hb Hx Hxb Hsize.
  intros Hy. destruct Hb as [Hl Hf]. destruct (Hf x Hx Hxb) as (_ & _ & Hne). unfold alloc_V.
  transitivity (bit (put V bm (set_bit (V bm) x)) bm y); [unfold bit; by rewrite put_ne by congruence|].
  apply bit_set; [lia|done|]. rewrite Hl. pose proof (Z.div_pos x 8 ltac:(lia) ltac:(lia)).
  pose proof (Z.div_lt_upper_bound x 8 BSIZE ltac:(lia) ltac:(unfold BPB in *; lia)). lia.
Qed.

Lemma alloc_same (y : Z) : 0 <= y < size -> bit V bm y = true -> y <> bm -> alloc_V V x y = V y.
Proof using Hxb. intros Hy Hyb Hne. unfold alloc_V. rewrite !put_ne by congruence. done. Qed.

Lemma alloc_len_bm : length (alloc_V V x bm) = Z.to_nat BSIZE.
Proof using Hb Hx Hxb.
  destruct Hb as [Hl Hf]. destruct (Hf x Hx Hxb) as (_ & _ & Hne). unfold alloc_V, set_bit.
  by rewrite put_ne, put_eq, length_insert by congruence.
Qed.
Lemma alloc_new : alloc_V V x x = zeros.
Proof. apply put_eq. Qed.

Lemma alloc_ind : ind v <> 0 -> alloc_V V x (ind v) = V (ind v) /\ ind v <> bm /\ ind v <> x /\ length (V (ind v)) = Z.to_nat BSIZE.
Proof using Hw Hxb.
  intros Hi. destruct (iw_used _ _ Hw NDIRECT ndirect_slot) as [K1 K2 K3 K4 K5 K6]; [done|]. rewrite slot_ind in *.
  split_and!; [apply alloc_same; (done || lia)|done|congruence|done].
Qed.

Lemma word_zeros (i : nat) : word zeros i = 0.
Proof.
  unfold word, slice, zeros. rewrite drop_replicate, take_replicate. generalize (4 `min` (Z.to_nat BSIZE - 4 * i))%nat. intros k.
  induction k as [|k IH]; [done|]. cbn [replicate le_combine]. by rewrite IH.
Qed.

Lemma fill_addr (s : nat) :
  (s <= NDIRECT)%nat -> slot V v s = 0 ->
  bmapped (if decide (s = NDIRECT) then 0 else 1) V v (alloc_V V x) (v <| i_addrs := <[ s := x ]> (i_addrs v) |>).
Proof using Hw Hb Hx Hxb Hsize Hib.
  intros Hs Hs0. pose proof (iw_len _ _ Hw) as Hl. destruct (bo_free _ _ _ _ _ Hb x Hx Hxb) as (_ & Hpos & _).
  set (v1 := v <| i_addrs := _ |>).
  assert (ind v1 = if decide (s = NDIRECT) then x else ind v) as Hi.
  { unfold ind, v1. cbn [i_addrs set_with set_i_addrs]. destruct (decide (s = NDIRECT)) as [->|Hne].
    - by rewrite list_lookup_total_insert_eq by lia.
    - by rewrite list_lookup_total_insert_ne. }
  apply fill_slot with (x := x); try done.
  - unfold NSLOTS. lia.
  - unfold v1. cbn [i_addrs set_with set_i_addrs]. by rewrite length_insert.
  - intros i Hil. unfold slot. destruct (Nat.leb_spec i NDIRECT) as [Hd|Hd].
    + unfold v1. cbn [i_addrs set_with set_i_addrs]. destruct (decide (i = s)) as [->|Hne].
      * by rewrite list_lookup_total_insert_eq by lia.
      * by rewrite list_lookup_total_insert_ne.
    + rewrite (decide_False (P := i = s)) by lia. rewrite Hi. destruct (decide (s = NDIRECT)) as [->|Hne].
      * rewrite (proj2 (Z.eqb_neq x 0)), alloc_new, word_zeros by lia. rewrite slot_ind in Hs0. by rewrite Hs0.
      * destruct (Z.eqb_spec (ind v) 0) as [|Hn]; [done|]. by destruct (alloc_ind Hn) as [-> _].
  - intros y Hy Hyb Hne _. by apply alloc_same.
  - apply alloc_bits.
  - apply alloc_len_bm.
  - by rewrite alloc_new.
  - rewrite Hi. destruct (decide (s = NDIRECT)); [by rewrite alloc_new|]. intros Hn.
    destruct (alloc_ind Hn) as (-> & _ & _ & Hn'). done.
Qed.

Lemma fill_word (j : nat) :
  (j < NINDIRECT)%nat -> ind v <> 0 -> word (V (ind v)) j = 0 ->
  bmapped 1 V v (put (alloc_V V x) (ind v) (set_word (V (ind v)) j x)) v.
Proof using Hw Hb Hx Hxb Hsize Hib.
  intros Hj Hi Hj0. destruct (bo_free _ _ _ _ _ Hb x Hx Hxb) as (_ & Hpos & Hxbm).
  destruct (alloc_ind Hi) as (Ei & Hibm & Hix & Hil).
  assert (NINDIRECT = 256%nat) as Hnin by done.
  set (V1 := put _ _ _). assert (forall y, y <> ind v -> V1 y = alloc_V V x y) as Ho by (intros y Hy; by apply put_ne).
  assert (forall y, bit V1 bm y = bit (alloc_V V x) bm y) as Hbits by (intros y; unfold bit; rewrite Ho; congruence).
  replace 1%nat with (if decide ((NDIRECT + 1 + j)%nat = NDIRECT) then 0 else 1)%nat by (rewrite decide_False by lia; done).
  apply fill_slot with (x := x); try done.
  - unfold NSLOTS. lia.
  - unfold slot. rewrite (proj2 (Nat.leb_gt _ _)), (proj2 (Z.eqb_neq _ _)) by (done || lia). by replace (NDIRECT + 1 + j - NDIRECT - 1)%nat with j by lia.
  - by destruct v.
  - apply (iw_len _ _ Hw).
  - intros i Hil'. unfold slot. destruct (Nat.leb_spec i NDIRECT) as [Hd|Hd].
    { by rewrite (decide_False (P := i = _)) by lia. }
    rewrite (proj2 (Z.eqb_neq _ _)) by done. unfold V1. rewrite put_eq.
    destruct (decide (i = _)) as [->|Hne].
    + replace (NDIRECT + 1 + j - NDIRECT - 1)%nat with j by lia. rewrite word_set_eq by (done || lia).
      apply u32_small. unfold is_u32, BPB, BSIZE in *. lia.
    + apply word_set_ne; (done || lia).
  - intros y Hy Hyb Hne Hni. rewrite Ho; [by apply alloc_same|]. intros ->. by apply Hni.
  - intros y Hy. rewrite Hbits. by apply alloc_bits.
  - rewrite Ho by done. apply alloc_len_bm.
  - rewrite Ho by done. by rewrite alloc_new.
  - intros _. unfold V1. rewrite put_eq. apply length_set_word; [done|lia].
Qed.
End fill.
End wf.
