(* ===== verification/FsData.v ===== *)
(** * The contents of an inode

    What a write does to a file: [written] for the blocks of the bytes that
    [writei] has copied so far, [filled] for the whole of a write with the
    inode in its block.  Both compose. *)
From S2P Require Import Prelude Memory Riscv State Spinlock Kalloc Steps Vm Proc ProcSpec Plic Virtio VirtioSpec Sleeplock FsLogic Bio BioSpec Log LogSpec FsTx Fs FsAlloc FsSpec FsInode.

Lemma fbyte_slot (V : Z -> list Z) (v : inode) (i : Z) : 0 <= i -> slot V v (sidx (i / BSIZE)) <> 0 ->
  fbyte V v i = V (slot V v (sidx (i / BSIZE))) !!! Z.to_nat (i mod BSIZE).
Proof. intros Hi Hs. unfold fbyte. rewrite slot_fblk; [done| |done]. by apply Z.div_pos. Qed.

Lemma block_of (i : Z) : 0 <= i < MAXFILE * BSIZE -> 0 <= i / BSIZE < MAXFILE /\ 0 <= i mod BSIZE < BSIZE /\ i = BSIZE * (i / BSIZE) + i mod BSIZE.
Proof.
  intros Hi. split; [split; [apply Z.div_pos; [lia|done]|apply Z.div_lt_upper_bound; [done|lia]]|].
  split; [by apply Z.mod_pos_bound|by apply Z.div_mod].
Qed.

(** [y] is no block of the inode. *)
Definition foreign (V : Z -> list Z) (v : inode) (y : Z) : Prop := y <> 0 -> forall i, (i < NSLOTS)%nat -> slot V v i <> y.

Section data.
Context (dv size start nlog bm ib : Z).
#[local] Abbreviation home := (home size start nlog).
#[local] Abbreviation bitmap_ok := (bitmap_ok size start nlog bm).
#[local] Abbreviation nfree := (nfree size bm).
#[local] Abbreviation block_ok := (block_ok size start nlog bm ib).
#[local] Abbreviation inode_wf := (inode_wf dv size start nlog bm ib).
#[local] Abbreviation bmapped := (bmapped dv size start nlog bm ib).

(** ** Changing a block other than the bitmap and the indirect block *)
Section poke.
Context (V : Z -> list Z) (v : inode) (a : Z) (d : list Z).
Hypothesis Ha : a <> bm.
Hypothesis Hi : a <> 0 -> ind v <> a.
Hypothesis Hd : length d = Z.to_nat BSIZE.

Lemma poke_slot (i : nat) : slot (put V a d) v i = slot V v i.
Proof using Hi.
  unfold slot. destruct (i <=? NDIRECT)%nat; [done|]. destruct (Z.eqb_spec (ind v) 0) as [|H0]; [done|].
  rewrite put_ne; [done|]. intros E. apply Hi; congruence.
Qed.
Lemma poke_bit (y : Z) : bit (put V a d) bm y = bit V bm y.
Proof using Ha. unfold bit. by rewrite put_ne by congruence. Qed.
Lemma poke_bitmap : bitmap_ok V -> bitmap_ok (put V a d).
Proof using Ha. intros [B1 B2]. split; [by rewrite put_ne by congruence|]. intros x Hx. rewrite poke_bit. by apply B2. Qed.
Lemma poke_nfree : nfree (put V a d) = nfree V.
Proof using Ha. unfold nfree. f_equal. apply filter_ext. intros x. by rewrite poke_bit. Qed.
Lemma poke_wf : inode_wf V v -> inode_wf (put V a d) v.
Proof using Ha Hi Hd.
  intros [W1 W2 W3 W4 W5 W6 W7]. split; try done.
  - by rewrite poke_bit.
  - intros i Hil. rewrite poke_slot. intros Hn. destruct (W5 i Hil Hn) as [K1 K2 K3 K4 K5 K6]. split; try done.
    + by rewrite poke_bit.
    + unfold put. by destruct (_ =? a).
  - intros i j. rewrite !poke_slot. apply W6.
  - intros bn. rewrite poke_slot. apply W7.
Qed.
End poke.

(** ** The bytes copied so far *)
Record written (off : Z) (bs : list Z) (c : nat) (V : Z -> list Z) (v : inode) (V' : Z -> list Z) (v' : inode) : Prop := {
  wt_wf : inode_wf V' v';
  wt_bitmap : bitmap_ok V';
  wt_inode : v' = v <| i_addrs := i_addrs v' |>;
  wt_slots : forall i, (i < NSLOTS)%nat -> slot V v i <> 0 -> slot V' v' i = slot V v i;
  wt_mono : forall y, 0 <= y < size -> bit V bm y = true -> bit V' bm y = true;
  wt_new : forall y, 0 <= y < size -> bit V' bm y = true -> bit V bm y = true \/ exists i, (i < NSLOTS)%nat /\ slot V' v' i = y /\ y <> 0;
  wt_free : (nfree V + need v' <= nfree V' + need v + c)%nat;
  wt_blocks : forall y, 0 <= y < size -> bit V bm y = true -> y <> bm -> foreign V' v' y -> V' y = V y;
  wt_old : forall i, 0 <= i < MAXFILE * BSIZE -> slot V v (sidx (i / BSIZE)) <> 0 ->
    ~ off <= i < off + Z.of_nat (length bs) -> fbyte V' v' i = fbyte V v i;
  wt_data : forall i, off <= i < off + Z.of_nat (length bs) ->
    slot V' v' (sidx (i / BSIZE)) <> 0 /\ fbyte V' v' i = bs !!! Z.to_nat (i - off);
}.

Lemma written_nil (off : Z) (V : Z -> list Z) (v : inode) : inode_wf V v -> bitmap_ok V -> written off [] 0 V v V v.
Proof. intros Hw Hb. split; auto; [by destruct v|lia|]. intros i. cbn. lia. Qed.

Section step.
Context (V1 V2 : Z -> list Z) (v1 v2 : inode) (m : nat) (pos : Z) (chunk : list Z).
#[local] Abbreviation bn := (pos / BSIZE).
#[local] Abbreviation o := (Z.to_nat (pos mod BSIZE)).
#[local] Abbreviation a := (slot V2 v2 (sidx bn)).
#[local] Abbreviation V3 := (put V2 a (splice (V2 a) o chunk)).
Hypothesis Hw1 : inode_wf V1 v1.
Hypothesis Hm : bmapped m V1 v1 V2 v2.
Hypothesis Hpos : 0 <= pos < MAXFILE * BSIZE.
Hypothesis Ha : a <> 0.
Hypothesis Hfit : pos mod BSIZE + Z.of_nat (length chunk) <= BSIZE.

Lemma step_block : block_ok V2 a /\ ind v2 <> a.
Proof using Hm Ha Hpos.
  pose proof (bg_wf _ _ _ _ _ _ _ _ _ _ _ Hm) as Hw. destruct (block_of pos Hpos) as (Hbn & _).
  destruct (sidx_range _ Hbn) as [Hr1 Hr2]. split; [by apply (iw_used _ _ _ _ _ _ _ _ Hw)|].
  intros E. apply (iw_inj _ _ _ _ _ _ _ _ Hw (sidx bn) NDIRECT); [done|apply ndirect_slot|done|done|by rewrite slot_ind].
Qed.

Lemma step_slot (i : nat) : slot V3 v2 i = slot V2 v2 i.
Proof using Hm Ha Hpos. destruct step_block as [_ Hi]. by apply poke_slot. Qed.

Lemma step_same (i : Z) : 0 <= i < MAXFILE * BSIZE -> slot V1 v1 (sidx (i / BSIZE)) <> 0 ->
  ~ pos <= i < pos + Z.of_nat (length chunk) -> fbyte V3 v2 i = fbyte V1 v1 i.
Proof using Hw1 Hm Hpos Ha Hfit.
  intros Hi Hs Hout. destruct (block_of i Hi) as (Hb & Hb2 & Hb3). destruct (sidx_range _ Hb) as [Hr1 Hr2].
  destruct (block_of pos Hpos) as (Hc & Hc2 & Hc3). destruct (sidx_range _ Hc) as [Hq1 Hq2]. destruct step_block as [Hok Hni].
  pose proof (bg_slots _ _ _ _ _ _ _ _ _ _ _ Hm _ Hr1 Hs) as Es. pose proof (bg_wf _ _ _ _ _ _ _ _ _ _ _ Hm) as Hw2.
  destruct (iw_used _ _ _ _ _ _ _ _ Hw1 _ Hr1 Hs) as [U1 U2 U3 U4 U5 U6].
  rewrite !fbyte_slot by (rewrite ?step_slot, ?Es; (done || lia)). rewrite step_slot, Es.
  assert (V2 (slot V1 v1 (sidx (i / BSIZE))) = V1 (slot V1 v1 (sidx (i / BSIZE)))) as E21.
  { apply (bg_blocks _ _ _ _ _ _ _ _ _ _ _ Hm); [lia|done|done|]. intros _ E.
    apply (iw_inj _ _ _ _ _ _ _ _ Hw2 (sidx (i / BSIZE)) NDIRECT); [done|apply ndirect_slot|done|by rewrite Es|by rewrite slot_ind, Es, E]. }
  destruct (decide (i / BSIZE = bn)) as [E|Hne].
  - assert (slot V1 v1 (sidx (i / BSIZE)) = a) as Ea by (by rewrite <- Es, E). rewrite <- E21, Ea, put_eq.
    rewrite !list_lookup_total_alt, lookup_splice by (rewrite (bk_len _ _ _ _ _ _ _ Hok); unfold BSIZE in *; lia).
    rewrite decide_False; [done|]. unfold BSIZE in *. lia.
  - rewrite put_ne; [by rewrite E21|]. rewrite <- Es.
    apply (iw_inj _ _ _ _ _ _ _ _ Hw2); [done|done| |by rewrite Es]. intros E. apply Hne. apply sidx_inj in E; [done|lia|lia].
Qed.

Lemma step_chunk (i : Z) : pos <= i < pos + Z.of_nat (length chunk) ->
  slot V3 v2 (sidx (i / BSIZE)) <> 0 /\ fbyte V3 v2 i = chunk !!! Z.to_nat (i - pos).
Proof using Hm Hpos Ha Hfit.
  intros Hi. destruct (block_of pos Hpos) as (Hc & Hc2 & Hc3). destruct step_block as [Hok Hni].
  assert (i / BSIZE = bn /\ i mod BSIZE = pos mod BSIZE + (i - pos)) as [Eb Eo].
  { split; [symmetry; apply (Z.div_unique _ _ _ (pos mod BSIZE + (i - pos))); lia|].
    symmetry. apply (Z.mod_unique _ _ bn); lia. }
  assert (slot V3 v2 (sidx (i / BSIZE)) = a) as Es by (by rewrite step_slot, Eb).
  split; [by rewrite Es|]. rewrite fbyte_slot by (rewrite ?Es; (done || lia)). rewrite Es, put_eq, Eo.
  rewrite !list_lookup_total_alt, lookup_splice by (rewrite (bk_len _ _ _ _ _ _ _ Hok); unfold BSIZE in *; lia).
  rewrite decide_True by lia. do 2 f_equal. lia.
Qed.

Lemma written_step (off : Z) (bs : list Z) (c : nat) (V : Z -> list Z) (v : inode) :
  m = 1%nat -> written off bs c V v V1 v1 -> 0 <= off -> pos = off + Z.of_nat (length bs) ->
  written off (bs ++ chunk) (S c) V v V3 v2.
Proof using Hw1 Hm Hpos Ha Hfit.
  intros Em [W1 W2 W3 W4 W5 W6 W7 W8 W9 W10] Ho Ep. destruct step_block as [Hok Hni].
  pose proof Hm as [M1 M2 M3 M4 M5 M6 M7 M8]. pose proof Hok as [K1 K2 K3 K4 K5 K6].
  assert (length (splice (V2 a) o chunk) = Z.to_nat BSIZE) as Hl.
  { rewrite length_splice; [done|]. rewrite K6. destruct (block_of pos Hpos) as (_ & Hc2 & _). unfold BSIZE in *. lia. }
  assert (forall i, (i < NSLOTS)%nat -> slot V1 v1 i <> 0 -> slot V3 v2 i = slot V1 v1 i) as Hsl.
  { intros i Hi Hn. rewrite step_slot. by apply M4. }
  split.
  - by apply poke_wf.
  - by apply poke_bitmap.
  - rewrite M3, W3. by destruct v.
  - intros i Hi Hn. rewrite Hsl; [by apply W4|done|by rewrite W4].
  - intros y Hy Hyb. rewrite poke_bit by done. apply M6; [done|]. by apply W5.
  - intros y Hy. rewrite poke_bit by done. intros Hyb. destruct (M7 y Hy Hyb) as [Hb1|(i & Hi & Hs & H0)].
    + destruct (W6 y Hy Hb1) as [?|(i & Hi & Hs & H0)]; [by left|right]. exists i. rewrite Hsl by (done || congruence). done.
    + right. exists i. by rewrite step_slot.
  - rewrite poke_nfree by done. lia.
  - intros y Hy Hyb Hne Hf. assert (y <> a) as Hya.
    { destruct (decide (y = 0)) as [->|Hy0]; [congruence|]. intros E. destruct (block_of pos Hpos) as (Hc & _).
      apply (Hf Hy0 (sidx bn)); [by apply sidx_range|by rewrite step_slot]. }
    rewrite put_ne by done. rewrite M5; [|done|by apply W5|done|].
    + apply W8; [done|done|done|]. intros Hy0 i Hi E. apply (Hf Hy0 i Hi). rewrite Hsl by (done || congruence). done.
    + intros Hy0 E. apply (Hf Hy0 NDIRECT ndirect_slot). by rewrite slot_ind.
  - intros i Hi Hs Hout. rewrite length_app in Hout. rewrite step_same; [apply W9; (done || lia)|done| |lia].
    rewrite W4; [done|apply sidx_range, block_of, Hi|done].
  - intros i Hi. rewrite length_app in Hi. destruct (decide (i < pos)) as [Hlt|Hge].
    + destruct (W10 i ltac:(lia)) as [Hs Hd]. assert (0 <= i < MAXFILE * BSIZE) as Hir by lia.
      split; [rewrite Hsl by (done || apply sidx_range, block_of, Hir); done|].
      rewrite step_same by (done || lia). rewrite Hd, lookup_total_app_l by lia. done.
    + destruct (step_chunk i) as [Hs Hd]; [lia|]. split; [done|]. rewrite Hd, lookup_total_app_r by lia. f_equal. lia.
Qed.
End step.

(** ** A whole write *)
Definition ioff (v : inode) : nat := Z.to_nat (64 * (i_inum v mod IPB)).

Record filled (off : Z) (bs : list Z) (c : nat) (V : Z -> list Z) (v : inode) (V' : Z -> list Z) (v' : inode) : Prop := {
  fl_wf : inode_wf V' v';
  fl_bitmap : bitmap_ok V';
  fl_inode : v' = v <| i_addrs := i_addrs v' |> <| i_size := Z.max (i_size v) (off + Z.of_nat (length bs)) |>;
  fl_slots : forall i, (i < NSLOTS)%nat -> slot V v i <> 0 -> slot V' v' i = slot V v i;
  fl_mono : forall y, 0 <= y < size -> bit V bm y = true -> bit V' bm y = true;
  fl_new : forall y, 0 <= y < size -> bit V' bm y = true -> bit V bm y = true \/ exists i, (i < NSLOTS)%nat /\ slot V' v' i = y /\ y <> 0;
  fl_free : (nfree V + need v' <= nfree V' + need v + c)%nat;
  fl_blocks : forall y, home y -> bit V bm y = true -> y <> bm -> y <> ib -> foreign V' v' y -> V' y = V y;
  fl_old : forall i, 0 <= i < i_size v -> ~ off <= i < off + Z.of_nat (length bs) -> fbyte V' v' i = fbyte V v i;
  fl_data : forall i, off <= i < off + Z.of_nat (length bs) -> fbyte V' v' i = bs !!! Z.to_nat (i - off);
  fl_ok : dinode_ok v';
  fl_dinode : slice (V' ib) (ioff v) 64 = dinode_bytes v';
  fl_rest : forall j, (j < ioff v \/ ioff v + 64 <= j)%nat -> V' ib !!! j = V ib !!! j;
  fl_len : length (V' ib) = Z.to_nat BSIZE;
}.

Hypothesis Hib : 0 < ib < size.
Hypothesis Hib_bm : ib <> bm.

Lemma ioff_range (v : inode) : (ioff v + 64 <= Z.to_nat BSIZE)%nat.
Proof. clear. unfold ioff, IPB, BSIZE. pose proof (Z.mod_pos_bound (i_inum v) (1024 / 64) ltac:(done)). change (1024 / 64) with 16 in *. lia. Qed.

Lemma not_ib (V : Z -> list Z) (v : inode) (i : nat) : inode_wf V v -> (i < NSLOTS)%nat -> slot V v i <> ib.
Proof using Hib.
  intros Hw Hi E. destruct (iw_used _ _ _ _ _ _ _ _ Hw i Hi) as [_ _ _ K4 _ _]; [lia|]. done.
Qed.

Lemma wf_addrs (V : Z -> list Z) (v : inode) : inode_wf V v -> size <= 2 ^ 31 -> Forall is_u32 (i_addrs v).
Proof.
  intros Hw Hs. apply list.Forall_forall. intros x (i & Hi)%list_elem_of_lookup.
  pose proof (lookup_lt_Some _ _ _ Hi) as Hl. rewrite (iw_len _ _ _ _ _ _ _ _ Hw) in Hl.
  assert (slot V v i = x) as Es by (unfold slot; rewrite (proj2 (Nat.leb_le _ _)) by lia; by apply list_lookup_total_correct).
  unfold is_u32. destruct (decide (x = 0)) as [->|Hx]; [lia|].
  destruct (iw_used _ _ _ _ _ _ _ _ Hw i) as [K1 _ _ _ _ _]; [unfold NSLOTS; lia|congruence|]. rewrite Es in K1. lia.
Qed.

Lemma size_wf (V : Z -> list Z) (v : inode) (z : Z) : inode_wf V v -> 0 <= z <= MAXFILE * BSIZE ->
  (forall bn, 0 <= bn -> bn * BSIZE < z -> slot V v (sidx bn) <> 0) -> inode_wf V (v <| i_size := z |>).
Proof. intros [W1 W2 W3 W4 W5 W6 W7] Hz Hm. by split. Qed.

(** The size and the inode's block, after the bytes. *)
Lemma written_filled (off : Z) (bs : list Z) (c : nat) (V V1 : Z -> list Z) (v v1 v2 : inode) :
  inode_wf V v -> dinode_ok v -> size <= 2 ^ 31 -> length (V ib) = Z.to_nat BSIZE -> bit V bm ib = true ->
  0 <= off <= i_size v -> off + Z.of_nat (length bs) <= MAXFILE * BSIZE ->
  written off bs c V v V1 v1 -> v2 = v1 <| i_size := Z.max (i_size v) (off + Z.of_nat (length bs)) |> ->
  filled off bs c V v (put V1 ib (splice (V1 ib) (ioff v) (dinode_bytes v2))) v2.
Proof using Hib Hib_bm.
  intros Hw Hd Hs Hl Hb Ho Hmax [W1 W2 W3 W4 W5 W6 W7 W8 W9 W10] E2.
  set (z := Z.max (i_size v) (off + Z.of_nat (length bs))) in *.
  pose proof (iw_size _ _ _ _ _ _ _ _ Hw) as Hsz.
  assert (inode_wf V1 v2) as Hw2.
  { rewrite E2. apply size_wf; [done|lia|]. intros bn Hbn Hlt. destruct (decide (bn * BSIZE < i_size v)) as [Hin|Hin].
    - assert (slot V v (sidx bn) <> 0) as Hs0 by (by apply (iw_mapped _ _ _ _ _ _ _ _ Hw)).
      rewrite W4; [done| |done]. apply sidx_range. unfold BSIZE in *. lia.
    - destruct (W10 (bn * BSIZE) ltac:(lia)) as [Hs0 _]. by rewrite Z.div_mul in Hs0. }
  assert (V1 ib = V ib) as Eib.
  { apply W8; [lia|done|done|]. intros _ i Hi. by apply not_ib. }
  assert (ib <> 0 -> ind v2 <> ib) as Hni by (intros _; rewrite <- (slot_ind V1); by apply not_ib, ndirect_slot).
  assert (dinode_ok v2) as Hd2.
  { destruct Hd as [D1 D2 D3 D4 D5 D6 D7]. pose proof (wf_addrs _ _ Hw2 Hs). pose proof (iw_len _ _ _ _ _ _ _ _ Hw2).
    rewrite W3 in E2. split; [by rewrite E2..| |done|done]. rewrite E2. cbn. unfold is_u32.
    assert (MAXFILE * BSIZE < 2 ^ 31) by done. lia. }
  pose proof (length_dinode _ Hd2) as Hl2. pose proof (ioff_range v) as Hr.
  set (d := splice (V1 ib) (ioff v) (dinode_bytes v2)).
  assert (length d = Z.to_nat BSIZE) as Hld by (unfold d; rewrite length_splice; rewrite Eib, Hl; [done|lia]).
  assert (forall i, slot (put V1 ib d) v2 i = slot V1 v1 i) as Hsl.
  { intros i. rewrite poke_slot by done. by rewrite E2. }
  assert (forall i, 0 <= i < MAXFILE * BSIZE -> slot V1 v1 (sidx (i / BSIZE)) <> 0 -> fbyte (put V1 ib d) v2 i = fbyte V1 v1 i) as Hby.
  { intros i Hi Hn. rewrite !fbyte_slot by (rewrite ?Hsl; (done || lia)). rewrite Hsl, put_ne; [done|].
    apply not_ib; [done|]. apply sidx_range, block_of, Hi. }
  split; try done.
  - by apply poke_wf.
  - by apply poke_bitmap.
  - rewrite E2, W3. by destruct v.
  - intros i Hi Hn. rewrite Hsl. by apply W4.
  - intros y Hy Hyb. rewrite poke_bit by done. by apply W5.
  - intros y Hy. rewrite poke_bit by done. intros Hyb. destruct (W6 y Hy Hyb) as [?|(i & Hi)]; [by left|right]. exists i. by rewrite Hsl.
  - rewrite poke_nfree by done. by rewrite E2.
  - intros y Hy Hyb Hne Hnb Hf. rewrite put_ne by done. apply W8; [apply Hy|done|done|]. intros Hy0 i Hi. rewrite <- Hsl. by apply Hf.
  - intros i Hi Hout. assert (slot V v (sidx (i / BSIZE)) <> 0) as Hs0.
    { destruct (block_of i ltac:(lia)) as (Hc & Hc2 & Hc3). apply (iw_mapped _ _ _ _ _ _ _ _ Hw); lia. }
    rewrite Hby; [apply W9; (done || lia)|lia|]. rewrite W4; [done|apply sidx_range, block_of; lia|done].
  - intros i Hi. destruct (W10 i Hi) as [Hs0 Hd0]. rewrite Hby; [done|lia|done].
  - rewrite put_eq. unfold d. rewrite <- Hl2. apply slice_splice_eq. rewrite Eib, Hl. lia.
  - intros j Hj. rewrite put_eq. unfold d. rewrite !list_lookup_total_alt, lookup_splice by (rewrite Eib, Hl; lia).
    rewrite decide_False by lia. by rewrite Eib.
  - by rewrite put_eq.
Qed.

Lemma filled_weaken (off : Z) (bs : list Z) (c c' : nat) (V V' : Z -> list Z) (v v' : inode) :
  (c <= c')%nat -> filled off bs c V v V' v' -> filled off bs c' V v V' v'.
Proof. intros Hc []. split; auto. lia. Qed.

(** Only the blocks of the file system proper matter, and not the lock. *)
Lemma filled_ext (off : Z) (bs : list Z) (c : nat) (V V' V2 : Z -> list Z) (v v' : inode) :
  0 <= off -> home bm -> home ib -> (forall x, home x -> V2 x = V' x) -> filled off bs c V v V' v' -> filled off bs c V v V2 v'.
Proof.
  intros Ho Hbm Hhi Hx [A1 A2 A3 A4 A5 A6 A7 A8 A9 A10 A11 A12 A13 A14].
  assert (forall i, slot V2 v' i = slot V' v' i) as Hs.
  { intros i. unfold slot. destruct (i <=? NDIRECT)%nat; [done|]. destruct (Z.eqb_spec (ind v') 0) as [|H0]; [done|].
    rewrite Hx; [done|]. rewrite <- (slot_ind V'). apply (iw_used _ _ _ _ _ _ _ _ A1 NDIRECT ndirect_slot H0). }
  assert (forall y, bit V2 bm y = bit V' bm y) as Hb by (intros y; unfold bit; by rewrite Hx).
  assert (nfree V2 = nfree V') as Hn by (unfold nfree; f_equal; apply filter_ext; intros y; by rewrite Hb).
  assert (forall i, 0 <= i < i_size v' -> fbyte V2 v' i = fbyte V' v' i) as Hf.
  { intros i Hi. pose proof (iw_size _ _ _ _ _ _ _ _ A1) as Hsz. destruct (block_of i ltac:(lia)) as (Hc & Hc2 & Hc3).
    assert (slot V' v' (sidx (i / BSIZE)) <> 0) as Hs0 by (apply (iw_mapped _ _ _ _ _ _ _ _ A1); lia).
    rewrite !fbyte_slot by (rewrite ?Hs; (done || lia)). rewrite Hs, Hx; [done|].
    by apply (iw_used _ _ _ _ _ _ _ _ A1); [apply sidx_range|]. }
  assert (i_size v' = Z.max (i_size v) (off + Z.of_nat (length bs))) as Es by (by rewrite A3).
  split; try done.
  - destruct A1 as [W1 W2 W3 W4 W5 W6 W7]. split; try done.
    + by rewrite Hb.
    + intros i Hi. rewrite Hs. intros Hne. destruct (W5 i Hi Hne) as [K1 K2 K3 K4 K5 K6]. split; try done; [by rewrite Hb|by rewrite Hx].
    + intros i j. rewrite !Hs. apply W6.
    + intros bn. rewrite Hs. apply W7.
  - destruct A2 as [B1 B2]. split; [by rewrite Hx|]. intros x. rewrite Hb. apply B2.
  - intros i. rewrite Hs. apply A4.
  - intros y. rewrite Hb. apply A5.
  - intros y. rewrite Hb. intros Hy Hyb. destruct (A6 y Hy Hyb) as [?|(i & Hi)]; [by left|right]. exists i. by rewrite Hs.
  - lia.
  - intros y Hy Hyb Hne Hnb Hfo. rewrite Hx by done. apply A8; [done|done|done|done|]. intros Hy0 i. rewrite <- Hs. by apply Hfo.
  - intros i Hi Hout. rewrite Hf by lia. by apply A9.
  - intros i Hi. rewrite Hf by lia. by apply A10.
  - by rewrite Hx.
  - intros j. rewrite Hx by done. apply A13.
  - by rewrite Hx.
Qed.

Lemma filled_lock (off : Z) (bs : list Z) (c : nat) (V V' : Z -> list Z) (v v' : inode) (l : sleeplock) :
  filled off bs c V (v <| i_lock := l |>) V' v' -> filled off bs c V v V' (v' <| i_lock := i_lock v |>).
Proof.
  intros [A1 A2 A3 A4 A5 A6 A7 A8 A9 A10 A11 A12 A13 A14]. split; try done.
  - destruct A1. by split.
  - rewrite A3. by destruct v.
  - by destruct A11.
Qed.

Lemma filled_trans (off : Z) (bs bs' : list Z) (c c' : nat) (V V1 V2 : Z -> list Z) (v v1 v2 : inode) :
  inode_wf V v -> 0 <= off <= i_size v -> off + Z.of_nat (length (bs ++ bs')) <= MAXFILE * BSIZE ->
  filled off bs c V v V1 v1 -> filled (off + Z.of_nat (length bs)) bs' c' V1 v1 V2 v2 ->
  filled off (bs ++ bs') (c + c') V v V2 v2.
Proof.
  intros Hw Ho Hmax [A1 A2 A3 A4 A5 A6 A7 A8 A9 A10 A11 A12 A13 A14] [B1 B2 B3 B4 B5 B6 B7 B8 B9 B10 B11 B12 B13 B14].
  rewrite length_app in Hmax.
  assert (i_size v1 = Z.max (i_size v) (off + Z.of_nat (length bs))) as Es by (by rewrite A3).
  assert (ioff v1 = ioff v) as Ei by (by rewrite A3). rewrite Ei in *.
  split; try done.
  - replace (Z.max (i_size v) (off + Z.of_nat (length (bs ++ bs')))) with
      (Z.max (i_size v1) (off + Z.of_nat (length bs) + Z.of_nat (length bs'))) by (rewrite length_app; lia).
    revert B3. generalize (Z.max (i_size v1) (off + Z.of_nat (length bs) + Z.of_nat (length bs'))). intros z B3.
    rewrite B3 at 1. rewrite A3. by destruct v.
  - intros i Hi Hn. rewrite B4; [by apply A4|done|by rewrite A4].
  - intros y Hy Hyb. by apply B5, A5.
  - intros y Hy Hyb. destruct (B6 y Hy Hyb) as [Hb1|?]; [|by right].
    destruct (A6 y Hy Hb1) as [?|(i & Hi & Hs & H0)]; [by left|right]. exists i. rewrite B4 by (done || congruence). done.
  - lia.
  - intros y Hy Hyb Hne Hnb Hf. rewrite B8; [|done|apply A5; [apply Hy|done]|done|done|done].
    apply A8; [done|done|done|done|]. intros Hy0 i Hi E. apply (Hf Hy0 i Hi). rewrite B4 by (done || congruence). done.
  - intros i Hi Hout. rewrite length_app in Hout. rewrite B9 by lia. apply A9; lia.
  - intros i Hi. rewrite length_app in Hi. destruct (decide (i < off + Z.of_nat (length bs))) as [Hlt|Hge].
    + rewrite B9 by lia. rewrite A10, lookup_total_app_l by lia. done.
    + rewrite B10, lookup_total_app_r by lia. f_equal. lia.
  - intros j Hj. rewrite B13 by done. by apply A13.
Qed.
End data.
