(* ===== verification/FsWrite.v ===== *)
(** * Writing a file (theorems on kernel/fs.c and kernel/file.c)

    [bmap] with allocation, [writei] and the chunks of [filewrite], within a
    transaction: what they do to the contents of the file, to the other
    blocks, and to the log.  A chunk of [filewrite] is atomic: when the
    machine stops at any of its disk writes, the file system comes back as it
    was before or as it is after. *)
From S2P Require Import Prelude Memory Riscv State Spinlock Kalloc Steps Vm Usercopy AddressSpace Proc ProcSpec UserMem Plic Virtio VirtioSpec Sleeplock FsLogic Bio BioSpec Log LogSpec FsTx Fs FsAlloc FsSpec FsInode FsData.

(** The blocks that an operation on the slots [l] of an inode may log. *)
Definition touched (bm : Z) (V : Z -> list Z) (v : inode) (l : list nat) (y : Z) : Prop :=
  y = bm \/ y <> 0 /\ exists i, i ∈ l /\ (i < NSLOTS)%nat /\ y = slot V v i.

Lemma touched_sub (bm : Z) (V : Z -> list Z) (v : inode) (l l' : list nat) (y : Z) :
  l ⊆ l' -> touched bm V v l y -> touched bm V v l' y.
Proof. intros Hs [?|(H0 & i & Hi & H1)]; [by left|right]. split; [done|]. exists i. split; [by apply Hs|done]. Qed.

Lemma touched_mono (bm : Z) (V V' : Z -> list Z) (v v' : inode) (l : list nat) (y : Z) :
  (forall i, (i < NSLOTS)%nat -> slot V v i <> 0 -> slot V' v' i = slot V v i) -> touched bm V v l y -> touched bm V' v' l y.
Proof.
  intros Hs [?|(H0 & i & Hi & Hi2 & ->)]; [by left|right]. split; [done|]. exists i. split; [done|]. split; [done|].
  symmetry. by apply Hs.
Qed.

Lemma touched_length (bm : Z) (V : Z -> list Z) (v : inode) (l : list nat) (bl bl' : list Z) :
  NoDup bl' -> (forall y, y ∈ bl' -> y ∈ bl \/ touched bm V v l y) -> (length bl' <= length bl + 1 + length l)%nat.
Proof.
  intros Hnd Ht. replace (length bl + 1 + length l)%nat with (length (bl ++ bm :: (slot V v <$> l))).
  2: { rewrite length_app. cbn. rewrite length_fmap. lia. }
  apply submseteq_length, NoDup_submseteq; [done|]. intros y Hy. apply elem_of_app.
  destruct (Ht y Hy) as [?|[->|(_ & i & Hi & _ & ->)]]; [by left|right; by left|right; right]. by apply list_elem_of_fmap_2.
Qed.

Lemma log_add_elem (bl : list Z) (x y : Z) : y ∈ log_add bl x -> y ∈ bl \/ y = x.
Proof. unfold log_add. destruct (decide _); [by left|]. intros [?|?%list_elem_of_singleton]%elem_of_app; auto. Qed.

Section writing.
Context {L : Linker} {LOk : LinkerOk L} {E : Env} {H : Hw}.
Context (dv size start nlog : Z) (p : nat) (pr : proc) (D : gmap Z (list Z)).
Context {ft : ftable} {h : heap}.
Context (sbk : superblock) (bm ib : Z) (ip : nat).

#[local] Abbreviation tx := (tx dv size start nlog pr D).
#[local] Abbreviation keeps := (keeps dv).
#[local] Abbreviation home := (home size start nlog).
#[local] Abbreviation bitmap_ok := (bitmap_ok size start nlog bm).
#[local] Abbreviation nfree := (nfree size bm).
#[local] Abbreviation inode_wf := (inode_wf dv size start nlog bm ib).
#[local] Abbreviation bmapped := (bmapped dv size start nlog bm ib).
#[local] Abbreviation touched := (touched bm).

Hypothesis Hp : (p < NPROC)%nat.
Hypothesis Henv : disk_serves p.
Hypothesis Hsize : size <= BPB.
Hypothesis Hnlog : MAXOPBLOCKS < nlog.
Hypothesis Hsb : sb_size sbk = size.
Hypothesis Hbm : sb_bmapstart sbk = bm.
Hypothesis Hbm_home : home bm.
Hypothesis Hib : 0 <= ib < size.

(** What changes outside the blocks: the inode. *)
Record moves (fs : fsys) (v' : inode) (fs' : fsys) : Prop := {
  mv_itable : itable fs' = <[ ip := v' ]> (itable fs);
  mv_sb : sb fs' = sb fs;
  mv_writes : writes fs' = writes fs;
}.

Lemma moves_keeps (hd : list Z) (fs fs' : fsys) : keeps hd fs fs' -> moves fs (itable fs !!! ip) fs'.
Proof.
  clear. intros [K1 K2 K3 _]. split; [|done|done]. rewrite K1.
  destruct (decide (ip < length (itable fs))%nat) as [Hi|Hi]; [|by rewrite list_insert_ge by lia].
  symmetry. apply list_insert_id. by apply list_lookup_lookup_total_lt.
Qed.
Lemma moves_trans (fs fs1 fs2 : fsys) (v1 v2 : inode) : moves fs v1 fs1 -> moves fs1 v2 fs2 -> moves fs v2 fs2.
Proof. clear. intros [A1 A2 A3] [B1 B2 B3]. split; [|congruence|congruence]. by rewrite B1, A1, list_insert_insert_eq. Qed.
Lemma moves_inode (fs fs' : fsys) (v' : inode) : (ip < length (itable fs))%nat -> moves fs v' fs' ->
  itable fs' !!! ip = v' /\ (ip < length (itable fs'))%nat.
Proof. clear. intros Hi [-> _ _]. rewrite length_insert. split; [by rewrite list_lookup_total_insert_eq|done]. Qed.

Lemma tx_itable (fs : fsys) (t : list inode) V (bl hd dt : list Z) : tx fs V bl hd dt -> tx (fs <| itable := t |>) V bl hd dt.
Proof. intros [C1 C2 C3 C4 C5 C6]. split; try done. by destruct C1. Qed.

(** A slot in the inode, filled if it is empty. *)
Lemma fwp_fill (s : nat) (fs : fsys) V (v : inode) (bl : list Z) (R : Z -> world -> Prop) :
  tx fs V bl [] [] -> sb fs = sbk -> (ip < length (itable fs))%nat -> itable fs !!! ip = v ->
  inode_wf V v -> bitmap_ok V -> (s <= NDIRECT)%nat -> Z.of_nat (length bl) + 2 <= MAXOPBLOCKS ->
  (slot V v s = 0 -> (0 < nfree V)%nat) ->
  (forall V' v' bl' fs', tx fs' V' bl' [] [] -> moves fs v' fs' ->
     bmapped (if decide (s = NDIRECT) then 0 else 1) V v V' v' -> slot V' v' s <> 0 ->
     (forall y, y ∈ bl' -> y ∈ bl \/ touched V' v' [s] y) -> (length bl' <= length bl + 2)%nat ->
     R (slot V' v' s) (World [] h ft fs')) ->
  fwp p pr (if i_addrs v !!! s =? 0 then
      addr ← balloc dv;
      upd_inode ip (fun v => v <| i_addrs := <[ s := addr ]> (i_addrs v) |>);;
      mret addr
    else mret (i_addrs v !!! s)) (World [] h ft fs) R.
Proof using Hp Henv Hsize Hnlog Hsb Hbm Hbm_home Hib.
  intros Ht Hs Hip Hv Hw Hb Hsl Hn Hfree HR.
  assert (forall V v, slot V v s = i_addrs v !!! s) as Eslot.
  { intros V0 v0. unfold slot. by rewrite (proj2 (Nat.leb_le _ _)). }
  destruct (Z.eqb_spec (i_addrs v !!! s) 0) as [H0|H0].
  - fstep. apply (fwp_balloc dv size start nlog p pr D sbk bm Hp Henv Hsize Hnlog Hsb Hbm Hbm_home fs V bl []); try done; try (cbn; lia).
    { by apply not_elem_of_nil. }
    { intros y Hy. by apply not_elem_of_nil in Hy. }
    { apply nfree_some. apply Hfree. by rewrite Eslot. }
    intros x fs1 Hx Hxb Ht1 K1. fstep. apply fwp_upd_inode. fstep.
    set (v1 := v <| i_addrs := <[ s := x ]> (i_addrs v) |>). rewrite <- (Eslot V) in H0.
    pose proof (fill_addr dv size start nlog bm ib Hib V v x Hw Hb Hx Hxb Hsize s Hsl H0) as Hm. fold v1 in Hm.
    destruct (bo_free _ _ _ _ _ Hb x Hx Hxb) as (_ & Hpos & _).
    assert (slot (alloc_V bm V x) v1 s = x) as Ex.
    { rewrite Eslot. unfold v1. cbn. apply list_lookup_total_insert_eq. rewrite (iw_len _ _ _ _ _ _ _ _ Hw). lia. }
    rewrite <- Ex at 1. apply (HR (alloc_V bm V x) v1 (log_add (log_add bl bm) x)); [by apply tx_itable| |done|lia| |].
    + destruct K1 as [K1 K2 K3 _]. split; [|done|done]. cbn. by rewrite K1, alter_insert_total, Hv.
    + intros y [[?| ->]%log_add_elem| ->]%log_add_elem; [by left|right; by left|].
      right. right. split; [lia|]. exists s. split; [by left|]. split; [unfold NSLOTS; lia|done].
    + pose proof (log_add_length bl bm). pose proof (log_add_length (log_add bl bm) x). lia.
  - fstep. rewrite <- (Eslot V). apply (HR V v bl fs); [done| | |by rewrite Eslot| |lia].
    + rewrite <- Hv. by apply (moves_keeps []), keeps_refl.
    + apply (bmapped_weaken _ _ _ _ _ _ 0); [lia|]. by apply bmapped_refl.
    + intros y Hy. by left.
Qed.

Lemma sidx_direct (bn : Z) : bn < Z.of_nat NDIRECT -> sidx bn = Z.to_nat bn.
Proof. clear. intros Hb. unfold sidx. by rewrite (proj2 (Z.ltb_lt _ _)). Qed.
Lemma slot_indirect (V : Z -> list Z) (v : inode) (bn : Z) : Z.of_nat NDIRECT <= bn -> ind v <> 0 ->
  slot V v (sidx bn) = word (V (ind v)) (Z.to_nat (bn - Z.of_nat NDIRECT)).
Proof.
  clear. intros Hb Hi. unfold slot, sidx. rewrite (proj2 (Z.ltb_ge _ _)) by done.
  rewrite (proj2 (Nat.leb_gt _ _)), (proj2 (Z.eqb_neq _ _)) by (done || lia). f_equal. lia.
Qed.

(** A slot in the indirect block, filled if it is empty; the buffer of the
    block is then given back. *)
Lemma fwp_fill_word (j b : nat) (fs : fsys) V (v : inode) (bl : list Z) (R : Z -> world -> Prop) :
  tx fs V bl [ind v] [] -> handle dv fs b (ind v) -> sb fs = sbk -> inode_wf V v -> bitmap_ok V ->
  (j < NINDIRECT)%nat -> ind v <> 0 -> Z.of_nat (length bl) + 3 <= MAXOPBLOCKS -> (0 < nfree V)%nat ->
  (forall V' bl' fs', tx fs' V' bl' [] [] -> keeps [] fs fs' -> bmapped 1 V v V' v -> word (V' (ind v)) j <> 0 ->
     (forall y, y ∈ bl' -> y ∈ bl \/ touched V' v [NDIRECT; (NDIRECT + 1 + j)%nat] y) ->
     R (word (V' (ind v)) j) (World [] h ft fs')) ->
  fwp p pr (addr ← (if word (V (ind v)) j =? 0 then
        addr ← balloc dv;
        upd_buf b (fun w => w <| b_data := set_word (b_data w) j addr |>);;
        log_write b;;
        mret addr
      else mret (word (V (ind v)) j));
    brelse b;;
    mret addr) (World [] h ft fs) R.
Proof using Hp Henv Hsize Hnlog Hsb Hbm Hbm_home Hib.
  intros Ht Hh Hs Hw Hb Hj Hi Hn Hfree HR. pose proof (size_small size Hsize) as Hss.
  destruct (iw_used _ _ _ _ _ _ _ _ Hw NDIRECT ndirect_slot) as [U1 U2 U3 U4 U5 U6]; [done|]. rewrite slot_ind in *.
  fstep. destruct (Z.eqb_spec (word (V (ind v)) j) 0) as [H0|H0].
  - fstep. apply (fwp_balloc dv size start nlog p pr D sbk bm Hp Henv Hsize Hnlog Hsb Hbm Hbm_home fs V bl [ind v]); try done; try (cbn; lia).
    { rewrite list_elem_of_singleton. congruence. }
    { intros y Hy. by apply list_elem_of_singleton in Hy as ->. }
    { by apply nfree_some. }
    intros x fs1 Hx Hxb Ht1 K1. pose proof (ke_handle _ _ _ _ K1 b (ind v) ltac:(by left) Hh) as Hh1.
    destruct (bo_free _ _ _ _ _ Hb x Hx Hxb) as (_ & Hpos & _).
    destruct (alloc_ind dv size start nlog bm ib V v x Hw Hxb Hi) as (Ei & _ & Hix & _). fold (alloc_V bm V x) in Ht1.
    do 2 fstep. set (f := fun w : buf => w <| b_data := set_word (b_data w) j x |>).
    destruct (tx_poke dv size start nlog pr D Ht1 b (ind v) f (set_word (V (ind v)) j x) Hh1) as (Ht2 & Hh2 & K2);
      [by left|by eexists|unfold f; cbn; by rewrite (tx_data dv size start nlog pr D Ht1 b _ Hh1), Ei|].
    match goal with |- fwp _ _ _ (World [] h ft ?f) _ => set (fs2 := f) in * end. fstep.
    pose proof (log_add_length bl bm) as Hl1. pose proof (log_add_length (log_add bl bm) x) as Hl2.
    apply (fwp_tx_log_write dv size start nlog p pr D Hp Henv Hss Ht2 b (ind v)); [done|by left|done| |unfold LOGSIZE, MAXOPBLOCKS in *; lia|lia|].
    { intros y Hy. by apply list_elem_of_singleton in Hy. }
    intros fs3 Ht3 Hh3 K3. fstep. fstep.
    apply (fwp_tx_brelse dv size start nlog p pr D Hp Henv Hss fs3 _ _ [] b (ind v) h _ Ht3); [by apply not_elem_of_nil|done|].
    intros fs4 Ht4 K4. fstep.
    assert (word (put (alloc_V bm V x) (ind v) (set_word (V (ind v)) j x) (ind v)) j = x) as Ex.
    { rewrite put_eq, word_set_eq; [|done|exact Hj]. apply u32_small. unfold is_u32. lia. }
    rewrite <- Ex at 1. eapply HR; [exact Ht4| |by apply fill_word|lia|].
    + apply (keeps_trans _ _ _ fs3); [|done]. apply (keeps_sub _ [ind v]); [intros y Hy; by apply not_elem_of_nil in Hy|].
      apply (keeps_trans _ _ _ fs1); [done|]. by apply (keeps_trans _ _ _ fs2).
    + intros y [[[?| ->]%log_add_elem| ->]%log_add_elem| ->]%log_add_elem; [by left|right; by left| |]; right; right; (split; [lia|]).
      * exists (NDIRECT + 1 + j)%nat. split; [right; by left|]. split; [unfold NSLOTS; lia|]. rewrite <- Ex at 1. unfold slot.
        rewrite (proj2 (Nat.leb_gt _ _)), (proj2 (Z.eqb_neq _ _)) by (done || lia). f_equal. lia.
      * exists NDIRECT. split; [by left|]. split; [apply ndirect_slot|done].
  - do 2 fstep. apply (fwp_tx_brelse dv size start nlog p pr D Hp Henv Hss fs _ _ [] b (ind v) h _ Ht); [by apply not_elem_of_nil|done|].
    intros fs3 Ht3 K3. fstep. apply (HR V bl fs3); [done|done| |done|].
    + apply (bmapped_weaken _ _ _ _ _ _ 0); [lia|]. by apply bmapped_refl.
    + intros y Hy. by left.
Qed.

(** [bmap] maps the block, with a fresh one if there is none. *)
Lemma fwp_bmap_alloc (bn : Z) (fs : fsys) V (v : inode) (bl : list Z) (R : Z -> world -> Prop) :
  tx fs V bl [] [] -> sb fs = sbk -> (ip < length (itable fs))%nat -> itable fs !!! ip = v ->
  inode_wf V v -> bitmap_ok V -> 0 <= bn < MAXFILE -> Z.of_nat (length bl) + 5 <= MAXOPBLOCKS ->
  (1 + need v <= nfree V)%nat ->
  (forall V' v' bl' fs', tx fs' V' bl' [] [] -> moves fs v' fs' -> bmapped 1 V v V' v' -> slot V' v' (sidx bn) <> 0 ->
     (forall y, y ∈ bl' -> y ∈ bl \/ touched V' v' [NDIRECT; sidx bn] y) ->
     R (slot V' v' (sidx bn)) (World [] h ft fs')) ->
  fwp p pr (bmap ip bn) (World [] h ft fs) R.
Proof using Hp Henv Hsize Hnlog Hsb Hbm Hbm_home Hib.
  intros Ht Hs Hip Hv Hw Hb Hbn Hn Hfree HR. unfold bmap. do 2 fstep. rewrite Hv, (iw_dev _ _ _ _ _ _ _ _ Hw).
  destruct (Z.ltb_spec bn (Z.of_nat NDIRECT)) as [Hd|Hd].
  - apply (fwp_fill (Z.to_nat bn) fs V v bl); try done; try lia.
    intros V' v' bl' fs' Ht' Hm Hb' Hs' Hbl' _. rewrite <- (sidx_direct bn) in * by done.
    apply (HR V' v' bl' fs'); [done|done| |done|].
    + by apply (bmapped_weaken _ _ _ _ _ _ (if decide (sidx bn = NDIRECT) then 0 else 1)); [destruct (decide _); lia|].
    + intros y Hy. destruct (Hbl' y Hy) as [?|Hy']; [by left|right]. apply (touched_sub _ _ _ [sidx bn]); [|done].
      intros i Hi. by right.
  - rewrite (proj2 (Z.ltb_lt _ _)) by (unfold MAXFILE in *; lia). fstep.
    apply (fwp_fill NDIRECT fs V v bl); try done; try lia.
    intros V1 v1 bl1 fs1 Ht1 Hm1 Hb1 Hs1 Hbl1 Hl1. rewrite slot_ind in *. rewrite decide_True in Hb1 by done.
    destruct (moves_inode _ _ _ Hip Hm1) as [Hv1 Hip1].
    pose proof (bg_wf _ _ _ _ _ _ _ _ _ _ _ Hb1) as Hw1. pose proof (bg_bitmap _ _ _ _ _ _ _ _ _ _ _ Hb1) as Hbo1.
    destruct (iw_used _ _ _ _ _ _ _ _ Hw1 NDIRECT ndirect_slot) as [U1 U2 U3 U4 U5 U6]; [done|]. rewrite slot_ind in *.
    pose proof (size_small size Hsize) as Hss.
    fstep. apply (fwp_tx_bread dv size start nlog p pr D Hp Henv Hss Ht1 (ind v1)); [lia|by apply not_elem_of_nil|unfold NBUF, MAXOPBLOCKS in *; cbn; lia|].
    intros b fs2 Ht2 Hh2 K2. do 2 fstep. rewrite (tx_data dv size start nlog pr D Ht2 b _ Hh2).
    set (j := Z.to_nat (bn - Z.of_nat NDIRECT)).
    apply (fwp_fill_word j b fs2 V1 v1 bl1); try done; [by rewrite (ke_sb _ _ _ _ K2), (mv_sb _ _ _ Hm1)|unfold MAXFILE in *; lia|lia| |].
    { pose proof (bg_free _ _ _ _ _ _ _ _ _ _ _ Hb1). lia. }
    intros V2 bl2 fs3 Ht3 K3 Hb2 Hs2 Hbl2. assert (slot V2 v1 (sidx bn) = word (V2 (ind v1)) j) as Eslot by (by apply slot_indirect).
    rewrite <- Eslot. apply (HR V2 v1 bl2 fs3); [done| | |by rewrite Eslot|].
    + apply (moves_trans _ fs1 _ v1); [done|]. rewrite <- Hv1. apply (moves_keeps []). by apply (keeps_trans _ _ _ fs2).
    + by apply (bmapped_trans _ _ _ _ _ _ 0 1 V V1 V2 v v1 v1).
    + assert (sidx bn = NDIRECT + 1 + j)%nat as -> by (unfold sidx, j; rewrite (proj2 (Z.ltb_ge _ _)) by done; lia).
      intros y Hy. destruct (Hbl2 y Hy) as [Hy1|]; [|by right]. destruct (Hbl1 y Hy1) as [?|[->|(Hy0 & i & Hi & Hi2 & ->)]]; [by left|right; by left|].
      right. right. split; [done|]. apply list_elem_of_singleton in Hi as ->. exists NDIRECT. split; [by left|]. split; [done|].
      symmetry. by apply (bg_slots _ _ _ _ _ _ _ _ _ _ _ Hb2).
Qed.

(** ** The bytes to be written *)
Definition supplies (src : source) (bs : list Z) (h : heap) : Prop :=
  match src with
  | FromUser va => uspace (p_pagetable pr) h /\ 0 <= va /\ va + Z.of_nat (length bs) <= MAXVA /\
                   ubytes (mem h) (p_pagetable pr) va (length bs) = Some bs
  | FromKernel l => bs `prefix_of` l
  end.

Lemma supplies_split (src : source) (bs cs : list Z) (h' : heap) :
  supplies src (bs ++ cs) h' -> supplies src bs h' /\ supplies (source_add src (Z.of_nat (length bs))) cs h'.
Proof.
  clear. destruct src as [va|l]; cbn [supplies source_add].
  - rewrite length_app, ubytes_app. intros (Hu & Hva & Hmax & Hb). rewrite u64_small by (unfold is_u64; plia).
    destruct (ubytes _ _ va (length bs)) as [x|] eqn:Ex; [|done]. cbn [mbind option_bind] in Hb.
    destruct (ubytes _ _ (va + _) (length cs)) as [y|] eqn:Ey; [|done]. cbn [mbind option_bind] in Hb. injection Hb as Hb.
    apply app_inj_1 in Hb as [-> ->]; [|by rewrite (ubytes_length _ _ _ _ _ Ex)].
    split; (split; [done|]); split_and!; (done || lia).
  - intros (k & ->). rewrite Nat2Z.id, <- app_assoc, drop_app_length. split; by eexists.
Qed.

Lemma fwp_either_copyin (src : source) (bs : list Z) fs (R : Z * list Z -> world -> Prop) :
  supplies src bs h -> Z.of_nat (length bs) < 2 ^ 64 -> R (0, bs) (World [] h ft fs) ->
  fwp p pr (either_copyin src (Z.of_nat (length bs))) (World [] h ft fs) R.
Proof using LOk Hp.
  intros Hs Hl HR. unfold either_copyin. fstep. apply fwp_myproc. destruct src as [va|l]; cbn [supplies] in Hs.
  - unfold deref. do 2 fstep. apply fwp_bind, fwp_get_proc. intros st ch.
    destruct Hs as (Hu & Hva & Hmax & Hb). intros s Hs.
    apply inw_open in Hs as (c & pt & vd & dev & n & -> & Hc & Hpp & Hpr & Hvd).
    pose proof Hc as [[Hcalm Hn'] Hcur]. destruct (held_ok [] c (calm_ok _ Hcalm)) as [Hok _].
    apply (kcopyin (p_pagetable pr) va); [done|by apply held_free; [|apply not_elem_of_nil]|done|unfold is_u64; plia|lia| |].
    + intros bs' Hb'. rewrite Nat2Z.id, Hb in Hb'. injection Hb' as <-. eexists. split; [|exact HR]. by apply inw_close.
    + intros pre Hb'. by rewrite Nat2Z.id, Hb in Hb'.
  - fstep. destruct Hs as (k & ->). rewrite Nat2Z.id, take_app_length. done.
Qed.

(** ** [iupdate] *)
Lemma fwp_iupdate (fs : fsys) V (v : inode) (bl : list Z) (R : unit -> world -> Prop) :
  tx fs V bl [] [] -> sb fs = sbk -> itable fs !!! ip = v -> i_dev v = dv -> IBLOCK (i_inum v) sbk = ib -> home ib ->
  Z.of_nat (length bl) < MAXOPBLOCKS ->
  (forall fs', tx fs' (put V ib (splice (V ib) (ioff v) (dinode_bytes v))) (log_add bl ib) [] [] -> keeps [] fs fs' ->
     R tt (World [] h ft fs')) ->
  fwp p pr (iupdate ip) (World [] h ft fs) R.
Proof using Hp Henv Hsize Hnlog.
  intros Ht Hs Hv Hdev Hib' Hhome Hn HR. pose proof (size_small size Hsize) as Hss. unfold iupdate.
  fstep. apply get_sb_spec with (sbk := sbk); [done|]. do 2 fstep. rewrite Hv, Hdev, Hib'.
  fstep. apply (fwp_tx_bread dv size start nlog p pr D Hp Henv Hss Ht ib); [apply Hhome|by apply not_elem_of_nil|unfold NBUF, MAXOPBLOCKS in *; cbn; lia|].
  intros b fs1 Ht1 Hh1 K1. do 2 fstep. rewrite (ke_itable _ _ _ _ K1), Hv. fold (ioff v).
  set (f := fun w : buf => w <| b_data := splice (b_data w) (ioff v) (dinode_bytes v) |>).
  destruct (tx_poke dv size start nlog pr D Ht1 b ib f (splice (V ib) (ioff v) (dinode_bytes v)) Hh1) as (Ht2 & Hh2 & K2);
    [by left|by eexists|unfold f; cbn; by rewrite (tx_data dv size start nlog pr D Ht1 b _ Hh1)|].
  do 2 fstep. match goal with |- fwp _ _ _ (World [] h ft ?f) _ => set (fs2 := f) in * end. fstep.
  apply (fwp_tx_log_write dv size start nlog p pr D Hp Henv Hss Ht2 b ib); [done|by left|done| |unfold LOGSIZE, MAXOPBLOCKS in *; lia|lia|].
  { intros y Hy. by apply list_elem_of_singleton in Hy. }
  intros fs3 Ht3 Hh3 K3.
  apply (fwp_tx_brelse dv size start nlog p pr D Hp Henv Hss fs3 _ _ [] b ib h _ Ht3); [by apply not_elem_of_nil|done|].
  intros fs4 Ht4 K4. apply HR; [done|]. apply (keeps_trans _ _ _ fs1); [done|]. apply (keeps_trans _ _ _ fs3); [|done].
  apply (keeps_sub _ [ib]); [intros y Hy; by apply not_elem_of_nil in Hy|]. by apply (keeps_trans _ _ _ fs2).
Qed.

(** ** [writei] *)
(** The slots of the first [c] blocks from offset [off] on, and that of the
    indirect block. *)
Definition wslots (off : Z) (c : nat) : list nat := NDIRECT :: ((fun i => sidx (off / BSIZE + Z.of_nat i)) <$> seq 0 c).
Definition nblocks (off n : Z) : nat := Z.to_nat ((off + n - 1) / BSIZE - off / BSIZE + 1).
(** How many bytes the first [c] blocks take. *)
Definition upto (off n : Z) (c : nat) : Z := Z.max 0 (Z.min n ((off / BSIZE + Z.of_nat c) * BSIZE - off)).

Lemma upto_next (off n : Z) (c : nat) : 0 <= off -> upto off n c < n ->
  let k := upto off n c in let m := Z.min (n - k) (BSIZE - (off + k) mod BSIZE) in
  (off + k) / BSIZE = off / BSIZE + Z.of_nat c /\ 0 < m /\ k + m = upto off n (S c) /\ (c < nblocks off n)%nat.
Proof.
  clear. unfold upto, nblocks. intros Ho. pose proof (Z.mod_pos_bound off BSIZE ltac:(done)) as Hm.
  pose proof (Z.div_mod off BSIZE ltac:(done)) as Hd. set (b := off / BSIZE) in *. set (r := off mod BSIZE) in *.
  set (k := Z.max 0 _). intros Hk. cbv zeta.
  assert (k = if decide (c = 0%nat) then 0 else (b + Z.of_nat c) * BSIZE - off) as Ek.
  { unfold k in *. destruct (decide (c = 0%nat)) as [->|Hc]; unfold BSIZE in *; lia. }
  assert ((b + Z.of_nat c) * BSIZE < off + n) as Hlt by (unfold k in Hk; lia).
  assert (off + k = (b + Z.of_nat c) * BSIZE + (if decide (c = 0%nat) then r else 0)) as Eo.
  { rewrite Ek. destruct (decide (c = 0%nat)) as [->|]; lia. }
  assert ((off + k) / BSIZE = b + Z.of_nat c /\ (off + k) mod BSIZE = if decide (c = 0%nat) then r else 0) as [E1 E2].
  { rewrite Eo. set (q := if decide (c = 0%nat) then r else 0). assert (0 <= q < BSIZE) by (unfold q; destruct (decide _); [done|done]).
    split; [symmetry; apply (Z.div_unique _ _ _ q); lia|symmetry; apply (Z.mod_unique _ _ (b + Z.of_nat c)); lia]. }
  assert (b + Z.of_nat c <= (off + n - 1) / BSIZE) as Hq by (apply Z.div_le_lower_bound; [done|unfold BSIZE in *; lia]).
  split; [done|]. rewrite E2. split; [destruct (decide _); lia|]. split; [|lia].
  rewrite Ek. destruct (decide (c = 0%nat)) as [->|Hc]; unfold BSIZE in *; lia.
Qed.

Lemma wslots_length (off : Z) (c : nat) : length (wslots off c) = S c.
Proof. unfold wslots. cbn [length]. by rewrite length_fmap, length_seq. Qed.
Lemma wslots_next (off : Z) (c : nat) :
  wslots off c ⊆ wslots off (S c) /\ [NDIRECT; sidx (off / BSIZE + Z.of_nat c)] ⊆ wslots off (S c).
Proof.
  unfold wslots. rewrite seq_S, fmap_app. split; intros i.
  - rewrite !elem_of_cons, elem_of_app. tauto.
  - rewrite !elem_of_cons, elem_of_app. intros [->|[->|Hn]]; [by left|right; right; by left|by apply not_elem_of_nil in Hn].
Qed.

Section writei.
Context (src : source) (off : Z) (bs : list Z) (fs : fsys) (V : Z -> list Z) (v : inode) (bl : list Z).
#[local] Abbreviation n := (Z.of_nat (length bs)).
#[local] Abbreviation nb := (nblocks off n).
#[local] Abbreviation written := (written dv size start nlog bm ib).

(** Where the copy loop is after [c] blocks. *)
Record copied (c : nat) (k : Z) (sr : source) (V1 : Z -> list Z) (v1 : inode) (bl1 : list Z) (fs1 : fsys) : Prop := {
  co_k : k = upto off n c;
  co_c : (c <= nb)%nat;
  co_src : supplies sr (drop (Z.to_nat k) bs) h;
  co_tx : tx fs1 V1 bl1 [] [];
  co_moves : moves fs v1 fs1;
  co_written : written off (take (Z.to_nat k) bs) c V v V1 v1;
  co_log : forall y, y ∈ bl1 -> y ∈ bl \/ touched V1 v1 (wslots off c) y;
}.

Hypothesis Hs : sb fs = sbk.
Hypothesis Hip : (ip < length (itable fs))%nat.
Hypothesis Hbl : (length bl + nb <= 4)%nat.
Hypothesis Hfree : (nb + need v <= nfree V)%nat.
Hypothesis Hoff : 0 <= off.
Hypothesis Hmax : off + n <= MAXFILE * BSIZE.

Lemma copied_length (c : nat) (k : Z) (sr : source) V1 v1 bl1 fs1 :
  copied c k sr V1 v1 bl1 fs1 -> (length bl1 <= length bl + c + 2)%nat.
Proof.
  clear. intros [_ _ _ Ht _ _ Hl]. pose proof (touched_length bm V1 v1 _ bl bl1 (tx_nodup _ _ _ _ _ _ _ _ _ _ _ Ht) Hl) as Hlen.
  rewrite wslots_length in Hlen. lia.
Qed.

Lemma fwp_write_block (c : nat) (k : Z) (sr : source) V1 v1 bl1 fs1 (R : _ -> world -> Prop) :
  copied c k sr V1 v1 bl1 fs1 -> k < n ->
  (forall k' sr' V2 v2 bl2 fs2, copied (S c) k' sr' V2 v2 bl2 fs2 -> k < k' <= n -> R (inl (k', off + k', sr')) (World [] h ft fs2)) ->
  fwp p pr (addr ← bmap ip ((off + k) / BSIZE);
    v ← get_inode ip;
    bp ← bread (i_dev v) addr;
    let m := Z.min (u32 (n - k)) (BSIZE - (off + k) mod BSIZE) in
    r ← either_copyin sr m;
    upd_buf bp (fun w => w <| b_data := splice (b_data w) (Z.to_nat ((off + k) mod BSIZE)) r.2 |>);;
    if r.1 =? -1 then brelse bp;; mret (inr (k, off + k)) else
    log_write bp;;
    brelse bp;;
    mret (inl (u32 (k + m), u32 (off + k + m), source_add sr m))) (World [] h ft fs1) R.
Proof using LOk Hp Henv Hsize Hnlog Hsb Hbm Hbm_home Hib Hs Hip Hbl Hfree Hoff Hmax.
  intros Hc Hk HR. pose proof (copied_length _ _ _ _ _ _ _ Hc) as Hlen. destruct Hc as [Ek Hcn Hsr Ht Hm Hwr Hlog].
  pose proof (upto_next off n c Hoff ltac:(by rewrite <- Ek)) as (Eb & Hm0 & Ek' & Hcb). rewrite <- Ek in *.
  set (m := Z.min (n - k) (BSIZE - (off + k) mod BSIZE)) in *.
  assert (0 <= k) as Hk0 by (rewrite Ek; unfold upto; lia).
  assert (0 <= off + k < MAXFILE * BSIZE) as Hpos by lia.
  assert (MAXFILE * BSIZE < 2 ^ 31) as Hm31 by done.
  destruct (block_of _ Hpos) as (Hbn & Hmod & _). pose proof (size_small size Hsize) as Hss.
  destruct (moves_inode _ _ _ Hip Hm) as [Hv1 Hip1].
  pose proof (wt_wf _ _ _ _ _ _ _ _ _ _ _ _ _ Hwr) as Hw1. pose proof (wt_bitmap _ _ _ _ _ _ _ _ _ _ _ _ _ Hwr) as Hb1.
  fstep. apply (fwp_bmap_alloc _ fs1 V1 v1 bl1); [done|by rewrite (mv_sb _ _ _ Hm)|done|done|done|done|done|unfold MAXOPBLOCKS; lia| |].
  { pose proof (wt_free _ _ _ _ _ _ _ _ _ _ _ _ _ Hwr). lia. }
  intros V2 v2 bl2 fs2 Ht2 Hm2 Hbm2 Ha Hlog2. destruct (moves_inode _ _ _ Hip1 Hm2) as [Hv2 Hip2].
  destruct (step_block dv size start nlog bm ib V1 V2 v1 v2 1 (off + k) Hbm2 Hpos Ha) as [Hok Hni].
  pose proof Hok as [U1 U2 U3 U4 U5 U6]. set (a := slot V2 v2 (sidx ((off + k) / BSIZE))) in *.
  do 2 fstep. rewrite Hv2, (iw_dev _ _ _ _ _ _ _ _ (bg_wf _ _ _ _ _ _ _ _ _ _ _ Hbm2)).
  assert (forall y, y ∈ bl2 -> y ∈ bl \/ touched V2 v2 (wslots off (S c)) y) as Hlog3.
  { intros y Hy. destruct (Hlog2 y Hy) as [Hy1|Hy1].
    - destruct (Hlog y Hy1) as [?|Hy2]; [by left|right]. apply (touched_mono _ V1 _ v1); [by apply (bg_slots _ _ _ _ _ _ _ _ _ _ _ Hbm2)|].
      apply (touched_sub _ _ _ (wslots off c)); [|done]. by apply wslots_next.
    - right. apply (touched_sub _ _ _ [NDIRECT; sidx ((off + k) / BSIZE)]); [|done]. rewrite Eb. by apply wslots_next. }
  assert (touched V2 v2 (wslots off (S c)) a) as Hta.
  { right. split; [done|]. exists (sidx ((off + k) / BSIZE)). split; [rewrite Eb; apply wslots_next; right; by left|].
    split; [by apply sidx_range|done]. }
  pose proof (touched_length bm V2 v2 _ bl bl2 (tx_nodup _ _ _ _ _ _ _ _ _ _ _ Ht2) Hlog3) as Hlen2.
  rewrite wslots_length in Hlen2.
  fstep. apply (fwp_tx_bread dv size start nlog p pr D Hp Henv Hss Ht2 a); [lia|by apply not_elem_of_nil|unfold NBUF; cbn; lia|].
  intros b fs3 Ht3 Hh3 K3. rewrite (u32_small (n - k)) by (unfold is_u32; lia). fold m.
  set (chunk := take (Z.to_nat m) (drop (Z.to_nat k) bs)).
  assert (Z.of_nat (length chunk) = m) as Hlc by (unfold chunk; rewrite length_take, length_drop; lia).
  assert (drop (Z.to_nat k) bs = chunk ++ drop (Z.to_nat (k + m)) bs) as Esp.
  { unfold chunk. rewrite <- (take_drop (Z.to_nat m) (drop (Z.to_nat k) bs)) at 1. rewrite drop_drop. do 2 f_equal. lia. }
  assert (take (Z.to_nat (k + m)) bs = take (Z.to_nat k) bs ++ chunk) as Etk.
  { unfold chunk. replace (Z.to_nat (k + m)) with (Z.to_nat k + Z.to_nat m)%nat by lia. symmetry. apply take_take_drop. }
  rewrite Esp in Hsr. destruct (supplies_split _ _ _ _ Hsr) as [Hsr1 Hsr2].
  fstep. rewrite <- Hlc at 1. apply fwp_either_copyin; [done|lia|]. rewrite Hlc in *. cbn [fst snd]. do 2 fstep.
  set (o := Z.to_nat ((off + k) mod BSIZE)) in *.
  set (f := fun w : buf => w <| b_data := splice (b_data w) o chunk |>).
  destruct (tx_poke dv size start nlog pr D Ht3 b a f (splice (V2 a) o chunk) Hh3) as (Ht4 & Hh4 & K4);
    [by left|by eexists|unfold f; cbn; by rewrite (tx_data dv size start nlog pr D Ht3 b _ Hh3)|].
  match goal with |- fwp _ _ _ (World [] h ft ?f) _ => set (fs4 := f) in * end.
  change (0 =? -1) with false. cbv iota. fstep.
  apply (fwp_tx_log_write dv size start nlog p pr D Hp Henv Hss Ht4 b a); [done|by left|done| |unfold LOGSIZE, MAXOPBLOCKS; lia|unfold MAXOPBLOCKS in *; lia|].
  { intros y Hy. by apply list_elem_of_singleton in Hy. }
  intros fs5 Ht5 Hh5 K5. fstep.
  apply (fwp_tx_brelse dv size start nlog p pr D Hp Henv Hss fs5 _ _ [] b a h _ Ht5); [by apply not_elem_of_nil|done|].
  intros fs6 Ht6 K6. fstep. rewrite !u32_small by (unfold is_u32; lia). rewrite <- Z.add_assoc.
  eapply (HR _ _ _ v2); [|lia]. split; [done|lia|done|exact Ht6| | |].
  - apply (moves_trans _ fs1 _ v1); [done|]. apply (moves_trans _ fs2 _ v2); [done|]. rewrite <- Hv2. apply (moves_keeps []).
    apply (keeps_trans _ _ _ fs3); [done|]. apply (keeps_trans _ _ _ fs5); [|done].
    apply (keeps_sub _ [a]); [intros y Hy; by apply not_elem_of_nil in Hy|]. by apply (keeps_trans _ _ _ fs4).
  - rewrite Etk. apply (written_step dv size start nlog bm ib V1 V2 v1 v2 1 (off + k)); try done; [lia|].
    rewrite length_take. lia.
  - intros y Hy. assert (y ∈ bl \/ touched V2 v2 (wslots off (S c)) y) as [?|Hy']; [|by left|right].
    { apply log_add_elem in Hy as [Hy| ->]; [by apply Hlog3|by right]. }
    apply (touched_mono _ V2 _ v2); [|done]. intros i Hi _.
    apply (step_slot dv size start nlog bm ib V1 V2 v1 v2 1 (off + k) chunk Hbm2 Hpos Ha).
Qed.

#[local] Abbreviation filled := (filled dv size start nlog bm ib).

Lemma fwp_writei (R : Z -> world -> Prop) :
  tx fs V bl [] [] -> itable fs !!! ip = v -> inode_wf V v -> bitmap_ok V -> dinode_ok v ->
  IBLOCK (i_inum v) sbk = ib -> home ib -> ib <> bm -> 0 < ib -> length (V ib) = Z.to_nat BSIZE ->
  off <= i_size v -> (0 < length bs)%nat -> supplies src bs h ->
  (forall V' v' bl' fs', tx fs' V' bl' [] [] -> moves fs v' fs' -> filled off bs nb V v V' v' ->
     (length bl' <= length bl + nb + 3)%nat -> bl' <> [] -> R n (World [] h ft fs')) ->
  fwp p pr (writei ip src off n) (World [] h ft fs) R.
Proof using LOk Hp Henv Hsize Hnlog Hsb Hbm Hbm_home Hib Hs Hip Hbl Hfree Hoff Hmax.
  intros Ht Hv Hw Hb Hd Hib' Hhome Hne Hpos Hlib Hle Hlen Hsrc HR. unfold writei. do 2 fstep. rewrite Hv.
  assert (MAXFILE * BSIZE < 2 ^ 31) as Hm31 by done. pose proof (size_small size Hsize) as Hss.
  rewrite (u32_small (off + n)) by (unfold is_u32; lia). rewrite !(proj2 (Z.ltb_ge _ _)) by lia. cbn [orb].
  fstep. apply (fwp_loop p pr (fun x w => exists c V1 v1 bl1 fs1,
      (x.1.1 <= n) /\ x.1.2 = off + x.1.1 /\ w = World [] h ft fs1 /\ copied c x.1.1 x.2 V1 v1 bl1 fs1)
    (fun x _ => n - x.1.1)).
  { exists 0%nat, V, v, bl, fs. cbn [fst snd]. split; [lia|]. split; [lia|]. split; [done|].
    assert (upto off n 0 = 0) as E0.
    { unfold upto. pose proof (Z.mod_pos_bound off BSIZE ltac:(done)). pose proof (Z.div_mod off BSIZE ltac:(done)). lia. }
    split; [done|lia|done|done| |by apply written_nil|intros y Hy; by left].
    rewrite <- Hv. apply (moves_keeps []), keeps_refl. }
  { cbn. lia. }
  intros [[k o] sr] w (c & V1 & v1 & bl1 & fs1 & Hk & Ho & -> & Hc). cbn [fst snd] in *. subst o.
  destruct (Z.ltb_spec k n) as [Hkn|Hkn]; cbn [negb].
  { apply (fwp_write_block c k sr V1 v1 bl1 fs1); [done|done|]. intros k' sr' V2 v2 bl2 fs2 Hc2 Hk'. cbn [fst snd].
    split; [|lia]. exists (S c), V2, v2, bl2, fs2. split; [lia|]. done. }
  assert (k = n) as -> by lia. fstep. pose proof (copied_length _ _ _ _ _ _ _ Hc) as Hlen1.
  destruct Hc as [_ Hcn _ Ht1 Hm1 Hwr _]. rewrite Nat2Z.id, take_ge in Hwr by lia.
  destruct (moves_inode _ _ _ Hip Hm1) as [Hv1 Hip1]. cbv beta iota. do 2 fstep. rewrite Hv1.
  pose proof (wt_inode _ _ _ _ _ _ _ _ _ _ _ _ _ Hwr) as Ev1. assert (i_size v1 = i_size v) as Es1 by (by rewrite Ev1).
  set (v2 := v1 <| i_size := Z.max (i_size v) (off + n) |>). rewrite Es1.
  fstep. apply (fwp_mono p pr _ _ (fun _ w => exists fs2, w = World [] h ft fs2 /\ tx fs2 V1 bl1 [] [] /\ moves fs1 v2 fs2)).
  { destruct (Z.ltb_spec (i_size v) (off + n)) as [Hlt|Hge].
    - apply fwp_upd_inode. eexists. split; [done|]. split; [by apply tx_itable|]. split; [|done|done]. cbn.
      rewrite alter_insert_total, Hv1. unfold v2. by rewrite Z.max_r by lia.
    - fstep. exists fs1. split; [done|]. split; [done|]. assert (v2 = v1) as ->.
      { unfold v2. rewrite Z.max_l by lia. rewrite <- Es1. by destruct v1. }
      rewrite <- Hv1. apply (moves_keeps []), keeps_refl. }
  intros _ w (fs2 & -> & Ht2 & Hm2). destruct (moves_inode _ _ _ Hip1 Hm2) as [Hv2 Hip2].
  pose proof (written_filled dv size start nlog bm ib ltac:(lia) Hne off bs c V V1 v v1 v2 Hw Hd Hss Hlib (iw_ib _ _ _ _ _ _ _ _ Hw) ltac:(lia) Hmax Hwr eq_refl) as Hfi.
  fstep. apply (fwp_iupdate fs2 V1 v2 bl1); [done|by rewrite (mv_sb _ _ _ Hm2), (mv_sb _ _ _ Hm1)|done|unfold v2; rewrite Ev1; apply (iw_dev _ _ _ _ _ _ _ _ Hw)| |done|unfold MAXOPBLOCKS; lia|].
  { unfold v2. by rewrite Ev1. }
  intros fs3 Ht3 K3. fstep. rewrite i32_small by lia. assert (ioff v2 = ioff v) as Ei by (unfold v2; by rewrite Ev1). rewrite Ei in Ht3.
  pose proof (log_add_length bl1 ib) as Hll.
  eapply (HR _ v2); [exact Ht3| | |lia|].
  - apply (moves_trans _ fs1 _ v1); [done|]. apply (moves_trans _ fs2 _ v2); [done|]. rewrite <- Hv2. by apply (moves_keeps []).
  - by apply (filled_weaken dv size start nlog bm ib _ _ c).
  - unfold log_add. destruct (decide (ib ∈ bl1)) as [Hin|]; [|by destruct bl1]. intros El. rewrite El in Hin. by apply not_elem_of_nil in Hin.
Qed.
End writei.
End writing.
