(* ===== verification/Pipe.v ===== *)
(** * Pipes (kernel/pipe.c)

    A pipe is a ring buffer of [PIPESIZE] bytes with two counters that only
    grow (and wrap at 2^32).  It occupies a page of its own, by whose address
    it is known; its fields are kept beside memory in [pipes].  [pipealloc] is
    in File.v, with the files it needs. *)
From S2P Require Import Prelude Memory Riscv State Spinlock Kalloc Vm Proc.

Definition PIPESIZE : Z := 512.

#[export] Instance pipe_inhabited : Inhabited pipe := populate (Pipe [] 0 0 0 0).
Definition get_pipe (pi : Z) : M pipe := gets (fun s => pipes (k_ft s) !!! pi).
Definition upd_pipe (pi : Z) (f : pipe -> pipe) : M unit :=
  modify (fun s => s <| k_ft := (k_ft s) <| pipes := alter f pi (pipes (k_ft s)) |> |>).

Section pipes.
Context {L : Linker} {E : Env}.

Definition pipeclose (pi : Z) (writable : bool) : M unit :=
  acquire (L_pipe pi);;
  (if writable then
     upd_pipe pi (fun v => v <| pi_writeopen := 0 |>);;
     wakeup (ChPipeRead pi)
   else
     upd_pipe pi (fun v => v <| pi_readopen := 0 |>);;
     wakeup (ChPipeWrite pi));;
  v ← get_pipe pi;
  if (pi_readopen v =? 0) && (pi_writeopen v =? 0) then
    release (L_pipe pi);;
    modify (fun s => s <| k_ft := (k_ft s) <| pipes := delete pi (pipes (k_ft s)) |> |>);;
    kfree pi
  else release (L_pipe pi).

Definition pipewrite (pi addr n : Z) : M Z :=
  pr ← curproc;
  acquire (L_pipe pi);;
  r ← loop (fun i =>
    if negb (i <? n) then mret (inr (Some i)) else
    v ← get_pipe pi;
    p ← get_proc pr;
    if (pi_readopen v =? 0) || truth (p_killed p) then
      release (L_pipe pi);; mret (inr None)
    else if pi_nwrite v =? u32 (pi_nread v + PIPESIZE) then
      wakeup (ChPipeRead pi);;
      sleep (ChPipeWrite pi) (L_pipe pi);;
      mret (inl i)
    else
      c ← copyin (p_pagetable p) (u64 (addr + i)) 1;
      if c.1 =? -1 then mret (inr (Some i)) else
      upd_pipe pi (fun v => v <| pi_data := <[ Z.to_nat (pi_nwrite v mod PIPESIZE) := c.2 !!! O ]> (pi_data v) |>
                              <| pi_nwrite := u32 (pi_nwrite v + 1) |>);;
      mret (inl (i + 1))) 0;
  match r with
  | None => mret (-1)
  | Some i =>
      wakeup (ChPipeRead pi);;
      release (L_pipe pi);;
      mret i
  end.

(** The wait for data: [true] when the process was killed meanwhile, with the
    lock released. *)
Definition pipe_wait (pi : Z) (pr : nat) : M bool :=
  loop (fun _ : unit =>
    v ← get_pipe pi;
    if negb ((pi_nread v =? pi_nwrite v) && truth (pi_writeopen v)) then mret (inr false) else
    p ← get_proc pr;
    if truth (p_killed p) then release (L_pipe pi);; mret (inr true) else
    sleep (ChPipeRead pi) (L_pipe pi);;
    mret (inl tt)) tt.

Definition piperead (pi addr n : Z) : M Z :=
  pr ← curproc;
  acquire (L_pipe pi);;
  killed ← pipe_wait pi pr;
  if killed : bool then mret (-1) else
  i ← loop (fun i =>
    if negb (i <? n) then mret (inr i) else
    v ← get_pipe pi;
    if pi_nread v =? pi_nwrite v then mret (inr i) else
    let ch := pi_data v !!! Z.to_nat (pi_nread v mod PIPESIZE) in
    upd_pipe pi (fun v => v <| pi_nread := u32 (pi_nread v + 1) |>);;
    p ← get_proc pr;
    r ← copyout (p_pagetable p) (u64 (addr + i)) [ch];
    if r =? -1 then mret (inr i) else
    mret (inl (i + 1))) 0;
  wakeup (ChPipeWrite pi);;
  release (L_pipe pi);;
  mret i.

End pipes.
