(* ===== verification/PipeSpec.v ===== *)
(** * A pipe is a stream (theorems on kernel/pipe.c)

    Whatever readers do while a writer sleeps, the bytes a pipe has taken from
    its writer come out in order, none lost or added; and the same for a
    reader that waits for its writer.  The rest of the system is the
    environment: what it does while the process is away is a hypothesis that
    says no more than what the other end of a pipe may do. *)
From S2P Require Import Prelude Memory Ring Riscv State Spinlock Kalloc Steps Pagetable Vm VmSpec Uvm Usercopy AddressSpace Proc ProcSpec UserMem Pipe.

(** The pipe holds the bytes [l]. *)
Definition pipe_holds (v : pipe) (l : list Z) : Prop :=
  queue PIPESIZE (2 ^ 32) (pi_data v) (pi_nread v) (pi_nwrite v) l.

Lemma pipe_size : 0 < PIPESIZE /\ PIPESIZE < 2 ^ 32 /\ (PIPESIZE | 2 ^ 32).
Proof. split_and!; [done|done|]. exists (2 ^ 23). reflexivity. Qed.

Lemma pipe_empty (v : pipe) (l : list Z) :
  pipe_holds v l -> (pi_nread v =? pi_nwrite v) = bool_decide (l = []).
Proof. destruct pipe_size as (H1 & H2 & H3). apply (queue_empty H1 H2). Qed.

Lemma pipe_full (v : pipe) (l : list Z) :
  pipe_holds v l -> (pi_nwrite v =? u32 (pi_nread v + PIPESIZE)) = (Z.of_nat (length l) =? PIPESIZE).
Proof. destruct pipe_size as (H1 & H2 & H3). apply (queue_full H1 H2). Qed.

Lemma pipe_put (v : pipe) (l : list Z) (x : Z) :
  pipe_holds v l -> Z.of_nat (length l) < PIPESIZE ->
  pipe_holds (v <| pi_data := <[ Z.to_nat (pi_nwrite v mod PIPESIZE) := x ]> (pi_data v) |>
                <| pi_nwrite := u32 (pi_nwrite v + 1) |>) (l ++ [x]).
Proof. destruct pipe_size as (H1 & H2 & H3). intros Hq Hn. exact (queue_push H1 H2 H3 Hq x Hn). Qed.

Lemma pipe_get (v : pipe) (l : list Z) (x : Z) :
  pipe_holds v (x :: l) ->
  pi_data v !!! Z.to_nat (pi_nread v mod PIPESIZE) = x /\ pipe_holds (v <| pi_nread := u32 (pi_nread v + 1) |>) l.
Proof. destruct pipe_size as (H1 & H2 & H3). apply (queue_pop H1 H2 H3). Qed.

Section pipe.
Context {L : Linker} {LOk : LinkerOk L} {E : Env}.
Context {pi : Z} {p : nat} {root : Z} {view : heap -> Prop}.

(** Process [p], with no lock or, for [held] a [locked_ctl], with just that
    lock, sees the memory [view], and the pipe [v] holds [l]. *)
Record scene (held : ctl -> ctl) (s : kstate) (c : ctl) (v : pipe) (l : list Z) : Prop := {
  sc_ctl : k_ctl s = held c;
  sc_idle : at_sched p c;
  sc_procs : procs_ok (k_pt s);
  sc_root : uroot p (k_pt s) = root;
  sc_space : uspace root (k_heap s);
  sc_view : view (k_heap s);
  sc_pipe : pipes (k_ft s) !! pi = Some v;
  sc_holds : pipe_holds v l;
}.

(** ** Steps that keep the scene *)
Lemma scene_wake lk c h pt ft fs vd dev n c0 v l ch :
  scene lk (KState c h pt ft fs vd dev n) c0 v l ->
  scene lk (KState c h (pt <| procs := wake_all ch (Some p) (procs pt) |>) ft fs vd dev n) c0 v l.
Proof.
  intros [H1 H2 H3 H4 H5 H6 H7 H8]. split; try done; cbn [k_pt] in *.
  - unfold procs_ok in *. cbn. by rewrite length_wake_all.
  - unfold uroot in *. cbn [procs set_with set_procs]. by rewrite (proc_wake_all p_pagetable).
Qed.

Lemma scene_update lk c h pt ft fs vd dev n c0 v l f l' :
  scene lk (KState c h pt ft fs vd dev n) c0 v l -> pipe_holds (f v) l' ->
  scene lk (KState c h pt (ft <| pipes := alter f pi (pipes ft) |>) fs vd dev n) c0 (f v) l'.
Proof.
  intros [H1 H2 H3 H4 H5 H6 H7 H8] Hf. split; try done. cbn [k_ft pipes set_with set_pipes] in *.
  by rewrite lookup_alter_eq, H7.
Qed.

Lemma scene_asleep lk c h pt ft fs vd dev n c0 v l ch n' :
  scene lk (KState c h pt ft fs vd dev n) c0 v l ->
  scene (locked_ctl (L_proc p)) (KState (locked_ctl (L_proc p) c0) h (asleep p ch pt) ft fs vd dev n') c0 v l.
Proof.
  intros [H1 H2 H3 H4 H5 H6 H7 H8]. split; try done; cbn [k_pt] in *.
  - unfold procs_ok in *. cbn. by rewrite length_alter.
  - unfold uroot, asleep in *. cbn [procs set_with set_procs]. by rewrite (proj_alter p_pagetable).
Qed.

Lemma scene_awake lk s c v l b :
  scene (locked_ctl (L_proc p)) s c v l ->
  scene (locked_ctl lk) (s <| k_ctl := locked_ctl lk (with_sie b c) |> <| k_pt := tidy p (k_pt s) |>) (with_sie b c) v l.
Proof.
  destruct s as [c1 h pt ft fs vd dev n]. intros [H1 [H2 H2'] H3 H4 H5 H6 H7 H8]. split; try done; kred.
  - split; [by apply idle_with_sie|]. rewrite cur_with_sie by (apply calm_ok, H2). done.
  - unfold procs_ok in *. cbn. by rewrite length_alter.
  - unfold uroot, tidy in *. cbn [procs set_with set_procs k_pt] in *. by rewrite (proj_alter p_pagetable).
Qed.

Lemma scene_unlock f c h pt ft fs vd dev n v l :
  scene f (KState (f c) h pt ft fs vd dev n) c v l -> scene id (KState c h pt ft fs vd dev n) c v l.
Proof. by intros []. Qed.

End pipe.
Arguments scene {L} pi p root view held s c v l.
Arguments sc_pipe {L pi p root view held s c v l} _.
Arguments sc_holds {L pi p root view held s c v l} _.

(** ** The writer *)
Section write.
Context {L : Linker} {LOk : LinkerOk L} {E : Env}.
Context (pi : Z) (p : nat) (root addr : Z) (bs : list Z).
(** The bytes to write are at [addr]. *)
Definition source_at (h : heap) : Prop := ubytes (mem h) root addr (length bs) = Some bs.
#[local] Abbreviation scene := (scene pi p root source_at).

(** Someone has closed the other end, or killed the process. *)
Definition hung_up (s : kstate) (v : pipe) : Prop := pi_readopen v = 0 \/ p_killed (procs (k_pt s) !!! p) <> 0.

(** What may happen while a writer sleeps: readers take bytes from the front
    of a full pipe. *)
Definition readers_run : Prop := forall n s c v l,
  scene (locked_ctl (L_proc p)) s c v l -> Z.of_nat (length l) = PIPESIZE ->
  exists s' c' v' l' used, env_away n p s = Some s' /\ scene (locked_ctl (L_proc p)) s' c' v' l' /\
    l = used ++ l' /\ (used <> [] \/ hung_up s' v').

Lemma hung_tidy s v c : hung_up s v <-> hung_up (s <| k_ctl := c |> <| k_pt := tidy p (k_pt s) |>) v.
Proof.
  destruct s. unfold hung_up. kred. unfold tidy. cbn [procs set_with set_procs].
  by rewrite (proj_alter p_killed).
Qed.

Hypothesis Hp : (p < NPROC)%nat.
Hypothesis Haddr : 0 <= addr.
Hypothesis Hlen : Z.of_nat (length bs) < 2 ^ 31.
Context (l0 : list Z) (fits : Prop).
Hypothesis Hfits : fits -> Z.of_nat (length l0 + length bs) <= PIPESIZE.

(** [k] bytes have been written. *)
Definition writing (k : nat) (s : kstate) (c : ctl) (v : pipe) : Prop := exists l used,
  (k <= length bs)%nat /\ scene (locked_ctl (L_pipe pi)) s c v l /\ l0 ++ take k bs = used ++ l /\
  (fits -> used = [] /\ ~ hung_up s v).

Definition hung (s : kstate) : bool :=
  let v := pipes (k_ft s) !!! pi in (pi_readopen v =? 0) || truth (p_killed (procs (k_pt s) !!! p)).
(** What is left to do: every byte goes in, and every sleep takes one out. *)
Definition todo (i : Z) (s : kstate) : Z :=
  let v := pipes (k_ft s) !!! pi in
  2 * (Z.of_nat (length bs) - i) + (pi_nwrite v - pi_nread v) mod 2 ^ 32 + (if hung s then 0 else 1).

Lemma hung_spec s c v l lk : scene lk s c v l -> hung s = true <-> hung_up s v.
Proof.
  intros Hs. unfold hung, hung_up. rewrite (lookup_total_correct _ _ _ (sc_pipe Hs)).
  rewrite orb_true_iff, Z.eqb_eq. unfold truth. rewrite negb_true_iff, Z.eqb_neq. done.
Qed.

Lemma todo_scene i s c v l lk : scene lk s c v l ->
  todo i s = 2 * (Z.of_nat (length bs) - i) + Z.of_nat (length l) + (if hung s then 0 else 1).
Proof.
  intros Hs. unfold todo. rewrite (lookup_total_correct _ _ _ (sc_pipe Hs)).
  destruct pipe_size as (_ & H2 & _). by rewrite (queue_count H2 (sc_holds Hs)).
Qed.

(** The loop goes on, with less to do. *)
Definition write_goes_on (k : nat) (s : kstate) (i : Z) (s' : kstate) : Prop :=
  (exists k' c' v', i = Z.of_nat k' /\ writing k' s' c' v') /\ 0 <= todo i s' < todo (Z.of_nat k) s.

(** The writer finds the pipe full. *)
Lemma write_sleeps (k : nat) (c : ctl) h pt ft fs vd dev n (v : pipe) (l used : list Z) :
  let s := KState (locked_ctl (L_pipe pi) c) h pt ft fs vd dev n in
  readers_run -> (k < length bs)%nat -> scene (locked_ctl (L_pipe pi)) s c v l -> l0 ++ take k bs = used ++ l ->
  (fits -> used = []) -> hung s = false -> Z.of_nat (length l) = PIPESIZE ->
  runs (wakeup (ChPipeRead pi);; sleep (ChPipeWrite pi) (L_pipe pi);; mret (inl (Z.of_nat k) : Z + option Z)) s
    (fun r s' => match r with inl i => write_goes_on k s i s' | inr _ => False end).
Proof using LOk Hp Haddr Hfits.
  intros s Henv Hk Hs El Hf Hh Hfull. pose proof Hs as [_ Hidle Hprocs _ _ _ _ _]. subst s. cbn [k_pt] in Hprocs.
  pose proof Hidle as [[Hcalm Hn] Hcur].
  kstep. apply kwakeup; [kside|intros i; kside|done|]. rewrite cur_locked, Hcur by kside.
  pose proof (scene_wake _ _ _ _ _ _ _ _ _ _ _ _ (ChPipeRead pi) Hs) as Hs1. kstep.
  apply (ksleep _ _ p); [done|done|cbn; rewrite length_wake_all, Hprocs; exact Hp|].
  pose proof (scene_asleep _ _ _ _ _ _ _ _ _ _ _ _ (ChPipeWrite pi) (S n) Hs1) as Hs2.
  destruct (Henv n _ _ _ _ Hs2 Hfull) as (s' & c' & v' & l' & u & Ee & Hs3 & Eu & Hprog).
  exists s', c'. split; [exact Ee|split; [apply Hs3|split; [apply Hs3|]]]. kstep.
  pose proof (scene_awake (L_pipe pi) _ _ _ _ (sie c) Hs3) as Hs4. split.
  - exists k, (with_sie (sie c) c'), v'. split; [done|]. exists l', (used ++ u).
    split; [lia|]. split; [exact Hs4|]. split; [by rewrite El, Eu, (assoc_L app)|].
    intros Hyes. exfalso. specialize (Hfits Hyes). rewrite (Hf Hyes) in El. cbn [app] in El.
    rewrite <- El, length_app, length_take in Hfull. lia.
  - rewrite (todo_scene _ _ _ _ _ _ Hs4), (todo_scene _ _ _ _ _ _ Hs), Hh, Eu, length_app.
    destruct Hprog as [Hu|Hu].
    + assert (0 < length u)%nat by (destruct u; [done|cbn; lia]). case_match; lia.
    + apply (hung_tidy s' v' (locked_ctl (L_pipe pi) (with_sie (sie c) c'))) in Hu.
      apply (hung_spec _ _ _ _ _ Hs4) in Hu. rewrite Hu. lia.
Qed.

(** The writer finds room. *)
Lemma write_puts (k : nat) (c : ctl) h pt ft fs vd dev n (v : pipe) (l used : list Z) :
  let s := KState (locked_ctl (L_pipe pi) c) h pt ft fs vd dev n in
  (k < length bs)%nat -> scene (locked_ctl (L_pipe pi)) s c v l -> l0 ++ take k bs = used ++ l ->
  (fits -> used = []) -> hung s = false -> Z.of_nat (length l) < PIPESIZE ->
  runs (c ← copyin (p_pagetable (procs pt !!! p)) (u64 (addr + Z.of_nat k)) 1;
      if c.1 =? -1 then mret (inr (Some (Z.of_nat k))) else
      upd_pipe pi (fun v => v <| pi_data := <[ Z.to_nat (pi_nwrite v mod PIPESIZE) := c.2 !!! O ]> (pi_data v) |>
                              <| pi_nwrite := u32 (pi_nwrite v + 1) |>);;
      mret (inl (Z.of_nat k + 1))) s
    (fun r s' => match r with inl i => write_goes_on k s i s' | inr _ => False end).
Proof using LOk Hp Haddr Hfits.
  intros s Hk Hs El Hf Hh Hroom. pose proof Hs as [_ Hidle _ Hroot Hspace Hbytes _ Hholds]. subst s.
  cbn [k_pt k_heap] in *. unfold source_at in Hbytes. pose proof Hidle as [[Hcalm Hn] Hcur].
  assert (addr + Z.of_nat (length bs) <= MAXVA) as Hmax by (apply (access_range (mem h) root); [by rewrite Hbytes|lia]).
  assert (is_u64 (addr + Z.of_nat k)) as H64 by plia.
  pose proof (ubytes_at _ _ _ _ k _ Hbytes Hk) as Hb.
  kstep. unfold uroot in Hroot. rewrite Hroot, u64_small by done.
  apply kcopyin; [kside|kside|done|done|done| |change (Z.to_nat 1) with 1%nat; by rewrite Hb].
  intros bs1. change (Z.to_nat 1) with 1%nat. rewrite Hb. intros [= <-].
  cbn [fst snd]. change (0 =? -1) with false. cbv iota. change ([bs !!! k] !!! 0%nat) with (bs !!! k). kstep.
  set (f := fun v : pipe => _). kstep.
  pose proof (scene_update _ _ _ _ _ _ _ _ _ _ _ _ f _ Hs (pipe_put v l (bs !!! k) Hholds Hroom)) as Hs'.
  assert (bs !! k = Some (bs !!! k)) as Hbk by (by apply list_lookup_lookup_total_lt).
  assert (hung (KState (locked_ctl (L_pipe pi) c) h pt (ft <| pipes := alter f pi (pipes ft) |>) fs vd dev n) = false) as Hh'.
  { rewrite <- Hh. unfold hung. rewrite (lookup_total_correct _ _ _ (sc_pipe Hs')), (lookup_total_correct _ _ _ (sc_pipe Hs)). done. }
  split.
  - exists (S k), c, (f v). split; [lia|]. exists (l ++ [bs !!! k]), used. split; [lia|]. split; [exact Hs'|].
    split; [by rewrite (take_S_r _ _ _ Hbk), !(assoc_L app), El|]. intros Hyes. split; [by apply Hf|].
    rewrite <- (hung_spec _ _ _ _ _ Hs'), Hh'. done.
  - replace (Z.of_nat k + 1) with (Z.of_nat (S k)) by lia.
    rewrite (todo_scene _ _ _ _ _ _ Hs'), (todo_scene _ _ _ _ _ _ Hs), Hh, Hh', length_app. cbn [length]. lia.
Qed.

Lemma kpipewrite (s : kstate) (c : ctl) (v : pipe) (Q : Z -> kstate -> Prop) :
  readers_run -> scene id s c v l0 -> (fits -> ~ hung_up s v) ->
  (forall r i s' c' v' l' used, scene id s' c' v' l' -> l0 ++ take i bs = used ++ l' ->
     (r = Z.of_nat i /\ i = length bs \/ r = -1 /\ hung_up s' v') ->
     (fits -> r = Z.of_nat i /\ used = []) -> Q r s') ->
  runs (pipewrite pi addr (Z.of_nat (length bs))) s Q.
Proof using LOk Hp Haddr Hlen Hfits.
  intros Henv Hs0 Hok HQ. destruct s as [c0 h pt ft fs vd dev n].
  pose proof Hs0 as [Ec Hidle _ _ _ _ _ Hholds]. cbn [k_ctl] in Ec. unfold id in Ec. subst c0.
  pose proof Hidle as [[Hcalm Hn] Hcur]. unfold pipewrite. kstep. apply (kcurproc _ p); [kside|done|]. do 3 kstep.
  assert (scene (locked_ctl (L_pipe pi)) (KState (locked_ctl (L_pipe pi) c) h pt ft fs vd dev n) c v l0) as Hs1 by (by destruct Hs0).
  apply (runs_loop (fun i s => exists k c v, i = Z.of_nat k /\ writing k s c v) todo).
  - exists 0%nat, c, v. split; [done|]. exists l0, []. split; [lia|]. split; [done|].
    split; [by rewrite take_0, app_nil_r|]. intros Hf. split; [done|]. by apply Hok.
  - rewrite (todo_scene _ _ _ _ _ _ Hs1). pose proof (q_room _ _ _ _ _ _ Hholds). unfold PIPESIZE in *. case_match; lia.
  - clear c v h pt ft fs vd dev n Hs0 Hok Hidle Hholds Hcalm Hn Hcur Hs1.
    intros i s (k & c & v & -> & l & used & Hk & Hs & El & Hf). destruct s as [c0 h pt ft fs vd dev n].
    pose proof Hs as [Ec Hidle Hprocs _ _ _ Hpipe Hholds]. cbn [k_ctl k_pt k_ft] in *. subst c0.
    pose proof Hidle as [[Hcalm Hn] Hcur].
    destruct (Z.ltb_spec (Z.of_nat k) (Z.of_nat (length bs))) as [Hlt|Hge]; cbn [negb].
    2:{ do 2 kstep. apply kwakeup; [kside|intros i; kside|done|]. rewrite cur_locked, Hcur by kside. do 3 kstep.
        apply (HQ (Z.of_nat k) k _ c v l used);
          [|done|left; split; [done|lia]|intros Hyes; split; [done|by apply Hf]].
        eapply scene_unlock. eapply scene_wake. exact Hs. }
    do 4 kstep. rewrite (lookup_total_correct _ _ _ Hpipe).
    pose proof (hung_spec _ _ _ _ _ Hs) as Hh. unfold hung in Hh. cbn [k_ft k_pt] in Hh.
    rewrite (lookup_total_correct _ _ _ Hpipe) in Hh.
    destruct ((pi_readopen v =? 0) || truth (p_killed (procs pt !!! p))) eqn:B.
    { do 4 kstep. assert (hung_up (KState (locked_ctl (L_pipe pi) c) h pt ft fs vd dev n) v) as Hup by (by apply Hh).
      apply (HQ (-1) k _ c v l used); [by eapply scene_unlock|done|by right|].
      intros Hyes. by destruct (Hf Hyes) as [_ []]. }
    assert (hung (KState (locked_ctl (L_pipe pi) c) h pt ft fs vd dev n) = false) as Hh'.
    { unfold hung. cbn [k_ft k_pt]. by rewrite (lookup_total_correct _ _ _ Hpipe). }
    rewrite (pipe_full v l Hholds). pose proof (q_room _ _ _ _ _ _ Hholds).
    destruct (Z.eqb_spec (Z.of_nat (length l)) PIPESIZE) as [Hfull|Hroom].
    + eapply runs_mono; [apply (write_sleeps k c h pt ft fs vd dev n v l used); [done|lia|done|done|by apply Hf|done|done]|].
      intros [x|?] s' Hx; [exact Hx|done].
    + eapply runs_mono; [apply (write_puts k c h pt ft fs vd dev n v l used); [lia|done|done|by apply Hf|done|lia]|].
      intros [x|?] s' Hx; [exact Hx|done].
Qed.
End write.

(** ** The reader *)
Section read.
Context {L : Linker} {LOk : LinkerOk L} {E : Env}.
Context (pi : Z) (p : nat) (root addr : Z) (N : nat).
(** There is room for [N] bytes at [addr]. *)
Definition room_at (h : heap) : Prop := ubytes (mem h) root addr N <> None.
#[local] Abbreviation scene := (scene pi p root room_at).

(** The writers have closed their end, or the process has been killed. *)
Definition cut_off (s : kstate) (v : pipe) : Prop := pi_writeopen v = 0 \/ p_killed (procs (k_pt s) !!! p) <> 0.

(** What may happen while a reader sleeps: writers put bytes into an empty
    pipe, or close it. *)
Definition writers_run : Prop := forall n s c v,
  scene (locked_ctl (L_proc p)) s c v [] ->
  exists s' c' v' l', env_away n p s = Some s' /\ scene (locked_ctl (L_proc p)) s' c' v' l' /\
    (l' <> [] \/ cut_off s' v').

Hypothesis Hp : (p < NPROC)%nat.
Hypothesis Haddr : is_u64 addr.
Hypothesis HN : Z.of_nat N < 2 ^ 31.

(** There is something to read, or nothing more to come. *)
Definition stirred (s : kstate) : bool :=
  let v := pipes (k_ft s) !!! pi in
  negb (pi_nread v =? pi_nwrite v) || negb (truth (pi_writeopen v)) || truth (p_killed (procs (k_pt s) !!! p)).

Lemma stirred_spec f s c v l : scene f s c v l -> l <> [] \/ cut_off s v -> stirred s = true.
Proof.
  intros Hs Ho. unfold stirred. rewrite (lookup_total_correct _ _ _ (sc_pipe Hs)), (pipe_empty v l (sc_holds Hs)).
  unfold truth. destruct Ho as [Hl|[->|Hk]].
  - by rewrite bool_decide_false.
  - by rewrite orb_true_r.
  - rewrite (proj2 (Z.eqb_neq _ _) Hk). by rewrite orb_true_r.
Qed.

Lemma kpipe_wait (s : kstate) (c : ctl) (v : pipe) (l : list Z) (Q : bool -> kstate -> Prop) :
  writers_run -> scene (locked_ctl (L_pipe pi)) s c v l ->
  (forall s' c' v' l', scene id s' c' v' l' -> p_killed (procs (k_pt s') !!! p) <> 0 -> l = [] -> Q true s') ->
  (forall s' c' v' l', scene (locked_ctl (L_pipe pi)) s' c' v' l' -> l' <> [] \/ pi_writeopen v' = 0 ->
     (l <> [] -> l' = l) -> Q false s') ->
  runs (pipe_wait pi p) s Q.
Proof using LOk Hp.
  intros Henv Hs0 HT HF. unfold pipe_wait.
  apply (runs_loop (fun _ s => exists c v l', scene (locked_ctl (L_pipe pi)) s c v l' /\ (l <> [] -> l' = l))
    (fun _ s => if stirred s then 0 else 1)).
  - by exists c, v, l.
  - case_match; lia.
  - clear s c v Hs0. intros [] s (c & v & l1 & Hs & Hl). destruct s as [c0 h pt ft fs vd dev n].
    pose proof Hs as [Ec Hidle Hprocs _ _ _ Hpipe Hholds]. cbn [k_ctl k_pt k_ft] in *. subst c0.
    pose proof Hidle as [[Hcalm Hn] Hcur]. do 2 kstep. rewrite (lookup_total_correct _ _ _ Hpipe).
    rewrite (pipe_empty v l1 Hholds). destruct (bool_decide_reflect (l1 = [])) as [->|Hne]; cbn [andb negb].
    2:{ kstep. apply (HF _ c v l1); [exact Hs|by left|exact Hl]. }
    destruct (truth (pi_writeopen v)) eqn:Bo; cbn [negb].
    2:{ kstep. apply (HF _ c v []); [exact Hs|right; by apply truth_false|exact Hl]. }
    do 2 kstep. destruct (truth (p_killed (procs pt !!! p))) eqn:Bk.
    { do 3 kstep. apply (HT _ c v []); [by eapply scene_unlock|by apply truth_true|].
      destruct l; [done|]. by specialize (Hl ltac:(done)). }
    kstep. apply (ksleep _ _ p); [done|done|rewrite Hprocs; exact Hp|].
    pose proof (scene_asleep _ _ _ _ _ _ _ _ _ _ _ _ (ChPipeRead pi) (S n) Hs) as Hs2.
    destruct (Henv n _ _ _ Hs2) as (s' & c' & v' & l' & Ee & Hs3 & Hprog).
    exists s', c'. split; [exact Ee|split; [apply Hs3|split; [apply Hs3|]]]. kstep.
    pose proof (scene_awake (L_pipe pi) _ _ _ _ (sie c) Hs3) as Hs4. split.
    { eexists _, v', l'. split; [exact Hs4|]. intros Hne. by specialize (Hl Hne). }
    assert (stirred (KState (locked_ctl (L_pipe pi) c) h pt ft fs vd dev n) = false) as ->.
    { unfold stirred. cbn [k_ft k_pt]. rewrite (lookup_total_correct _ _ _ Hpipe), (pipe_empty v [] Hholds), Bo, Bk. done. }
    rewrite (stirred_spec _ _ _ _ _ Hs4); [lia|]. destruct Hprog as [|Hc]; [by left|right].
    destruct s' as [? ? pt' ? ? ? ? ?]. unfold cut_off in *. kred. cbn [k_pt] in *. unfold tidy.
    cbn [procs set_with set_procs]. by rewrite (proj_alter p_killed).
Qed.

(** [out] has been read of what the pipe held in [s0]. *)
Definition piping (s0 : kstate) (l0 : list Z) (wo : Z) (c : ctl) (i : Z) (s : kstate) : Prop := exists v out rest,
  pi_writeopen v = wo /\ i = Z.of_nat (length out) /\ (length out <= N)%nat /\ l0 = out ++ rest /\
  scene (locked_ctl (L_pipe pi)) s c v rest /\ uput root addr out (k_heap s0) (k_heap s).

Lemma read_loop (s0 : kstate) (c : ctl) (v : pipe) (l0 : list Z) (Q : Z -> kstate -> Prop) :
  scene (locked_ctl (L_pipe pi)) s0 c v l0 ->
  (forall s, piping s0 l0 (pi_writeopen v) c (Z.of_nat (Nat.min N (length l0))) s -> Q (Z.of_nat (Nat.min N (length l0))) s) ->
  runs (loop (fun i =>
    if negb (i <? Z.of_nat N) then mret (inr i) else
    v ← get_pipe pi;
    if pi_nread v =? pi_nwrite v then mret (inr i) else
    let ch := pi_data v !!! Z.to_nat (pi_nread v mod PIPESIZE) in
    upd_pipe pi (fun v => v <| pi_nread := u32 (pi_nread v + 1) |>);;
    p ← get_proc p;
    r ← copyout (p_pagetable p) (u64 (addr + i)) [ch];
    if r =? -1 then mret (inr i) else
    mret (inl (i + 1))) 0) s0 Q.
Proof using LOk Haddr HN Hp.
  intros Hs0 HQ. apply (runs_loop (piping s0 l0 (pi_writeopen v) c) (fun i _ => Z.of_nat N - i)).
  - exists v, [], l0. split_and!; [done|done|cbn; lia|done|done|]. apply uput_nil, Hs0.
  - lia.
  - intros i s Hi. pose proof Hi as (v1 & out & rest & Ewo & -> & Hlo & El & Hs & Hput).
    destruct s as [c0 h pt ft fs vd dev n]. pose proof Hs as [Ec Hidle _ Hroot Hspace Hview Hpipe Hholds].
    cbn [k_ctl k_pt k_ft k_heap] in *. subst c0. pose proof Hidle as [[Hcalm Hn] Hcur].
    assert (length l0 = length out + length rest)%nat as Ell by (by rewrite El, length_app).
    destruct (Z.ltb_spec (Z.of_nat (length out)) (Z.of_nat N)) as [Hlt|Hge]; cbn [negb].
    2:{ kstep. replace (length out) with (Nat.min N (length l0)) in * by lia. by apply HQ. }
    do 2 kstep. rewrite (lookup_total_correct _ _ _ Hpipe), (pipe_empty v1 rest Hholds).
    destruct rest as [|x rest]; cbn [bool_decide].
    { rewrite bool_decide_true by done. kstep. cbn [length] in Ell.
      replace (length out) with (Nat.min N (length l0)) in * by lia. by apply HQ. }
    rewrite bool_decide_false by done. destruct (pipe_get v1 rest x Hholds) as [-> Hget].
    kstep. set (f := fun v : pipe => _). kstep.
    pose proof (scene_update _ _ _ _ _ _ _ _ _ _ _ _ f _ Hs Hget) as Hs'.
    unfold room_at in Hview. pose proof (access_range _ _ _ _ Hview ltac:(lia)) as Hmax.
    pose proof (access_sub _ _ _ (length out) N 1 Hview ltac:(lia)) as Hacc.
    do 3 kstep. unfold uroot in Hroot. rewrite Hroot, u64_small by plia.
    apply kcopyout; [kside|kside|done|plia|done| |intros h' k Hno; done].
    intros h' _ Hput1. change (0 =? -1) with false. cbv iota. kstep. split; [|lia].
    exists (f v1), (out ++ [x]), rest. rewrite length_app. cbn [length].
    split_and!; [exact Ewo|lia|lia|by rewrite <- (assoc_L app)| |].
    + destruct Hs' as [S1 S2 S3 S4 S5 S6 S7 S8]. split; try done; cbn [k_heap] in *; [apply Hput1|].
      unfold room_at in *. by rewrite (uput_access _ _ _ _ _ _ _ Hput1).
    + eapply uput_app; [apply Haddr|exact Hput|exact Hput1].
Qed.

Lemma kpiperead (s : kstate) (c : ctl) (v : pipe) (l : list Z) (Q : Z -> kstate -> Prop) :
  writers_run -> scene id s c v l ->
  (forall s' c' v' l', scene id s' c' v' l' -> p_killed (procs (k_pt s') !!! p) <> 0 -> l = [] -> Q (-1) s') ->
  (forall s' c' v' l1 h1, let out := take N l1 in
     scene id s' c' v' (drop N l1) -> uput root addr out h1 (k_heap s') ->
     l1 <> [] \/ pi_writeopen v' = 0 -> (l <> [] -> l1 = l) -> Q (Z.of_nat (length out)) s') ->
  runs (piperead pi addr (Z.of_nat N)) s Q.
Proof using LOk Hp Haddr HN.
  intros Henv Hs0 HT HF. destruct s as [c0 h pt ft fs vd dev n].
  pose proof Hs0 as [Ec Hidle _ _ _ _ _ _]. cbn [k_ctl] in Ec. unfold id in Ec. subst c0.
  pose proof Hidle as [[Hcalm Hn] Hcur]. unfold piperead. kstep. apply (kcurproc _ p); [kside|done|]. do 3 kstep.
  apply (kpipe_wait _ c v l); [done|by destruct Hs0| |].
  { intros s' c' v' l' Hs' Hk Hl. kstep. by apply (HT s' c' v' l'). }
  clear c v h pt ft fs vd dev n Hs0 Hidle Hcalm Hn Hcur. intros s1 c1 v1 l1 Hs1 Hl1 Hsame. kstep.
  apply (read_loop s1 c1 v1 l1); [done|]. intros s (v2 & out & rest & Ewo & Ei & Hlo & El & Hs & Hput).
  destruct s as [c0 h pt ft fs vd dev n]. pose proof Hs as [Ec Hidle Hprocs _ _ _ _ _].
  cbn [k_ctl k_pt] in *. subst c0. pose proof Hidle as [[Hcalm Hn] Hcur].
  kstep. apply kwakeup; [kside|intros i; kside|done|]. rewrite cur_locked, Hcur by kside. do 3 kstep.
  assert (out = take N l1 /\ rest = drop N l1) as [Eo Er].
  { rewrite El, length_app in Ei. rewrite El. destruct (decide (length out = N)) as [<-|Hne].
    - by rewrite take_app_length, drop_app_length.
    - assert (length rest = 0)%nat as Hz by lia. apply nil_length_inv in Hz as ->. rewrite app_nil_r.
      rewrite take_ge, drop_ge by lia. done. }
  rewrite <- length_take. subst out rest.
  apply (HF _ c1 v2 l1 (k_heap s1)); [|exact Hput|by rewrite Ewo|exact Hsame].
  eapply scene_unlock. eapply scene_wake. exact Hs.
Qed.
End read.

Section theorems.
Context {L : Linker} {LOk : LinkerOk L} {E : Env}.
Context (pi : Z) (p : nat) (root addr : Z).
Hypothesis Hp : (p < NPROC)%nat.
Hypothesis Haddr : is_u64 addr.

(** C23. A pipe takes its writer's bytes in order: [pipewrite] ends, however
    often it has to sleep on a full pipe, and what the pipe held followed by
    the bytes it accepted is what readers took meanwhile followed by what the
    pipe holds then.  It accepts all bytes, or returns -1 because the reading
    end was closed or the process killed; when everything fits at once, it
    accepts all of them without a switch. *)
Theorem pipewrite_stream (bs l : list Z) (s : kstate) (c : ctl) (v : pipe) :
  Z.of_nat (length bs) < 2 ^ 31 -> readers_run pi p root addr bs ->
  scene pi p root (source_at root addr bs) id s c v l ->
  runs (pipewrite pi addr (Z.of_nat (length bs))) s (fun r s' => exists i c' v' l' used,
    scene pi p root (source_at root addr bs) id s' c' v' l' /\ l ++ take i bs = used ++ l' /\
    (r = Z.of_nat i /\ i = length bs \/ r = -1 /\ hung_up p s' v') /\
    (Z.of_nat (length l + length bs) <= PIPESIZE /\ ~ hung_up p s v -> r = Z.of_nat i /\ used = [])).
Proof using LOk Hp Haddr.
  intros Hlen Henv Hs.
  apply (kpipewrite pi p root addr bs Hp (proj1 Haddr) Hlen l
    (Z.of_nat (length l + length bs) <= PIPESIZE /\ ~ hung_up p s v) (@proj1 _ _) s c v); [done|done|by intros []|].
  intros r i s' c' v' l' used Hs' El Hr Hf. by exists i, c', v', l', used.
Qed.

(** C24. A pipe gives its reader the bytes in order: [piperead] ends once a
    writer has done something, and takes the first bytes the pipe holds then,
    as many as there are and fit, to the memory of the process, and leaves the
    rest; it returns -1 only to a process killed while it waited, and 0 for a
    request of some bytes only at the end of the stream. *)
Theorem piperead_stream (N : nat) (l : list Z) (s : kstate) (c : ctl) (v : pipe) :
  Z.of_nat N < 2 ^ 31 -> writers_run pi p root addr N -> scene pi p root (room_at root addr N) id s c v l ->
  runs (piperead pi addr (Z.of_nat N)) s (fun r s' => exists c' v' l',
    (r = -1 /\ l = [] /\ p_killed (procs (k_pt s') !!! p) <> 0) \/
    (r = Z.of_nat (length (take N l')) /\ scene pi p root (room_at root addr N) id s' c' v' (drop N l') /\
     ubytes (mem (k_heap s')) root addr (length (take N l')) = Some (u8 <$> take N l') /\
     (l' = [] -> pi_writeopen v' = 0) /\ (l <> [] -> l' = l))).
Proof using LOk Hp Haddr.
  intros HN Henv Hs. apply (kpiperead pi p root addr N Hp Haddr HN s c v l); [done|done| |].
  - intros s' c' v' l' Hs' Hk El. exists c', v', l'. by left.
  - intros s' c' v' l' h1 out Hs' Hput Ho Hsame. exists c', v', l'. right. split_and!; [done|done| | |done].
    + apply (uwrite_read root addr (take N l') (mem h1)); [apply Haddr|apply Hput].
    + intros ->. by destruct Ho.
Qed.
End theorems.

(** ** The theorems on a small system *)
Definition demo_pipe (bs : list Z) : pipe :=
  Pipe (bs ++ replicate (512 - length bs) 0) 512 (512 + Z.of_nat (length bs)) 1 1.
Definition pipe_state (h : heap) (bs : list Z) : kstate :=
  KState demo_ctl h user_pt (Ftable [] {[ 0x80030000 := demo_pipe bs ]}) (k_fs (demo_state demo_ctl))
    (k_vd (demo_state demo_ctl)) (k_dev (demo_state demo_ctl)) 0.

(** Everyone else does one thing to the pipe while process 0 is away. *)
Definition pipe_env (f : pipe -> pipe) : Env := {|
  env_away _ p s := Some (s <| k_ft := (k_ft s) <| pipes := alter f 0x80030000 (pipes (k_ft s)) |> |>);
  env_run _ p s := None |}.
Definition reader_env : Env := pipe_env (fun v => v <| pi_nread := u32 (pi_nread v + 1) |>).
Definition writer_env : Env := pipe_env (fun v =>
  v <| pi_data := <[ Z.to_nat (pi_nwrite v mod PIPESIZE) := 7 ]> (pi_data v) |> <| pi_nwrite := u32 (pi_nwrite v + 1) |>).

Lemma reader_env_ok (addr : Z) (bs : list Z) :
  readers_run (L := demo_linker) (E := reader_env) 0x80030000 0 Demo.root addr bs.
Proof.
  intros n s c v l Hs Hl. destruct l as [|x l]; [done|]. destruct s as [c0 h pt ft fs vd dev k].
  destruct (pipe_get v l x (sc_holds Hs)) as [_ Hg].
  eexists _, c, _, l, [x]. split; [reflexivity|]. split; [|split; [done|by left]].
  exact (scene_update _ _ _ _ _ _ _ _ _ _ _ _ (fun v => v <| pi_nread := u32 (pi_nread v + 1) |>) _ Hs Hg).
Qed.

Lemma writer_env_ok (addr : Z) (N : nat) :
  writers_run (L := demo_linker) (E := writer_env) 0x80030000 0 Demo.root addr N.
Proof.
  intros n s c v Hs. destruct s as [c0 h pt ft fs vd dev k].
  pose proof (pipe_put v [] 7 (sc_holds Hs) ltac:(done)) as Hg.
  eexists _, c, _, [7]. split; [reflexivity|]. split; [|by left].
  exact (scene_update _ _ _ _ _ _ _ _ _ _ _ _ (fun v =>
    v <| pi_data := <[ Z.to_nat (pi_nwrite v mod PIPESIZE) := 7 ]> (pi_data v) |> <| pi_nwrite := u32 (pi_nwrite v + 1) |>)
    _ Hs Hg).
Qed.

Lemma demo_pipe_holds (bs : list Z) : bs = [] \/ bs = [1; 2; 3] -> pipe_holds (demo_pipe bs) bs.
Proof. intros [->| ->]; split; by vm_compute. Qed.

Lemma pipe_scene (view : heap -> Prop) (h : heap) (bs : list Z) :
  bs = [] \/ bs = [1; 2; 3] -> uspace (L := demo_linker) Demo.root h -> view h ->
  scene (L := demo_linker) 0x80030000 0 Demo.root view id (pipe_state h bs) demo_ctl (demo_pipe bs) bs.
Proof.
  intros Hb Hu Hv. split; [reflexivity|split; [exact demo_idle|reflexivity]|reflexivity|reflexivity|exact Hu|exact Hv| |].
  - reflexivity.
  - by apply demo_pipe_holds.
Qed.

Lemma pipewrite_stream_witness : exists h,
  runs (pipewrite (E := reader_env) 0x80030000 4000 200) (pipe_state h [1; 2; 3]) (fun r s' => r = 200 /\
    exists v', pipes (k_ft s') !! 0x80030000 = Some v' /\ pipe_holds v' ([1; 2; 3] ++ replicate 200 0)).
Proof.
  destruct user_demo as (h & Hu & Hb). exists h. specialize (Hb 4000 200%nat ltac:(lia) ltac:(lia)).
  pose proof (pipewrite_stream (L := demo_linker) (LOk := demo_linker_ok) (E := reader_env)
    0x80030000 0 Demo.root 4000 ltac:(vm_compute; lia) ltac:(done) (replicate 200 0) [1; 2; 3] _ demo_ctl
    (demo_pipe [1; 2; 3]) ltac:(done) (reader_env_ok 4000 (replicate 200 0))
    (pipe_scene (source_at Demo.root 4000 (replicate 200 0)) h [1; 2; 3] (or_intror eq_refl) Hu Hb)) as Hrun.
  change (Z.of_nat (length (replicate 200 0))) with 200 in Hrun. eapply runs_mono; [exact Hrun|].
  intros r s' (i & c' & v' & l' & used & Hs & El & Hr & Hf). destruct Hf as [-> ->].
  { split; [done|]. intros [H|H]; discriminate H || by apply H. }
  destruct Hr as [[_ ->]|[Hbad _]]; [|lia]. split; [done|]. exists v'. split; [apply Hs|].
  rewrite firstn_all in El. cbn [app] in El. change ([1; 2; 3] ++ replicate 200 0) with (1 :: 2 :: 3 :: replicate 200 0).
  rewrite El. apply Hs.
Defined.

Lemma piperead_stream_witness : exists h,
  runs (piperead (E := writer_env) 0x80030000 4095 2) (pipe_state h [1; 2; 3]) (fun r s' => r = 2 /\
    ubytes (mem (k_heap s')) Demo.root 4095 2 = Some [1; 2]).
Proof.
  destruct user_demo as (h & Hu & Hb). exists h. specialize (Hb 4095 2%nat ltac:(lia) ltac:(lia)).
  assert (room_at Demo.root 4095 2 h) as Hroom by (unfold room_at; rewrite Hb; discriminate).
  pose proof (piperead_stream (L := demo_linker) (LOk := demo_linker_ok) (E := writer_env)
    0x80030000 0 Demo.root 4095 ltac:(vm_compute; lia) ltac:(done) 2 [1; 2; 3] _ demo_ctl (demo_pipe [1; 2; 3])
    ltac:(done) (writer_env_ok 4095 2) (pipe_scene _ h [1; 2; 3] (or_intror eq_refl) Hu Hroom)) as Hrun.
  change (Z.of_nat 2) with 2 in Hrun. eapply runs_mono; [exact Hrun|].
  intros r s' (c' & v' & l' & [(_ & Hbad & _)|(-> & _ & Hm & _ & Hl)]); [discriminate Hbad|].
    specialize (Hl ltac:(discriminate)). subst l'. split; [reflexivity|exact Hm].
Defined.
