(* ===== verification/File.v ===== *)
(** * Open files (kernel/file.c, pipealloc of kernel/pipe.c)

    The table of open files, with reference counts, and reading and writing
    through the kinds of file: pipes, devices and inodes. *)
From S2P Require Import Prelude Memory Riscv State Spinlock Kalloc Vm Proc Plic Console Virtio Sleeplock Bio Log Fs Pipe.

#[export] Instance file_inhabited : Inhabited file := populate (File FD_NONE 0 0 0 0 None 0 0).
#[export] Instance devops_inhabited : Inhabited devops := populate DevNone.
Definition get_file (f : nat) : M file := gets (fun s => files (k_ft s) !!! f).
Definition upd_file (f : nat) (g : file -> file) : M unit :=
  modify (fun s => s <| k_ft := (k_ft s) <| files := alter g f (files (k_ft s)) |> |>).

Section files.
Context {L : Linker} {E : Env} {H : Hw}.

Definition fileinit : M unit := put_lock L_ftable initlock.

Definition filealloc : M (option nat) :=
  acquire L_ftable;;
  r ← for_until (seq 0 NFILE) (fun f =>
    v ← get_file f;
    if f_ref v =? 0 then
      upd_file f (fun v => v <| f_ref := 1 |>);;
      release L_ftable;;
      mret (Some f)
    else mret None);
  match r with
  | Some f => mret (Some f)
  | None => release L_ftable;; mret None
  end.

Definition filedup (f : nat) : M nat :=
  acquire L_ftable;;
  v ← get_file f;
  if f_ref v <? 1 then panic "filedup" else
  upd_file f (fun v => v <| f_ref := f_ref v + 1 |>);;
  release L_ftable;;
  mret f.

Definition fileclose (f : nat) : M unit :=
  acquire L_ftable;;
  v ← get_file f;
  if f_ref v <? 1 then panic "fileclose" else
  upd_file f (fun v => v <| f_ref := f_ref v - 1 |>);;
  ff ← get_file f;
  if 0 <? f_ref ff then release L_ftable else
  upd_file f (fun v => v <| f_ref := 0 |> <| f_type := FD_NONE |>);;
  release L_ftable;;
  match f_type ff with
  | FD_PIPE => pipeclose (f_pipe ff) (truth (f_writable ff))
  | FD_INODE | FD_DEVICE =>
      begin_op;;
      ip ← deref (f_ip ff);
      iput ip;;
      end_op
  | FD_NONE => mret tt
  end.

Definition filestat (f : nat) (addr : Z) : M Z :=
  p ← curproc;
  v ← get_file f;
  match f_type v with
  | FD_INODE | FD_DEVICE =>
      ip ← deref (f_ip v);
      ilock ip;;
      st ← stati ip;
      iunlock ip;;
      pr ← get_proc p;
      r ← copyout (p_pagetable pr) addr st;
      if r <? 0 then mret (-1) else mret 0
  | _ => mret (-1)
  end.

(** [devsw[major]], when [major] is a device number. *)
Definition dev_of (major : Z) : M devops :=
  d ← get_dev;
  mret (if (major <? 0) || (NDEV <=? major) then DevNone else devsw d !!! Z.to_nat major).

Definition fileread (f : nat) (addr n : Z) : M Z :=
  v ← get_file f;
  if f_readable v =? 0 then mret (-1) else
  match f_type v with
  | FD_PIPE => piperead (f_pipe v) addr n
  | FD_DEVICE =>
      d ← dev_of (f_major v);
      match d with DevNone => mret (-1) | DevConsole => consoleread (ToUser addr) n end
  | FD_INODE =>
      ip ← deref (f_ip v);
      ilock ip;;
      v ← get_file f;
      r ← readi ip (ToUser addr) (f_off v) (u32 n);
      (if 0 <? r.1 then upd_file f (fun v => v <| f_off := u32 (f_off v + r.1) |>) else mret tt);;
      iunlock ip;;
      mret r.1
  | FD_NONE => panic "fileread"
  end.

Definition filewrite (f : nat) (addr n : Z) : M Z :=
  v ← get_file f;
  if f_writable v =? 0 then mret (-1) else
  match f_type v with
  | FD_PIPE => pipewrite (f_pipe v) addr n
  | FD_DEVICE =>
      d ← dev_of (f_major v);
      match d with DevNone => mret (-1) | DevConsole => consolewrite (FromUser addr) n end
  | FD_INODE =>
      let max := (MAXOPBLOCKS - 1 - 1 - 2) / 2 * BSIZE in
      i ← loop (fun i =>
        if negb (i <? n) then mret (inr i) else
        let n1 := if max <? n - i then max else n - i in
        begin_op;;
        ip ← deref (f_ip v);
        ilock ip;;
        v ← get_file f;
        r ← writei ip (FromUser (u64 (addr + i))) (f_off v) n1;
        (if 0 <? r then upd_file f (fun v => v <| f_off := u32 (f_off v + r) |>) else mret tt);;
        iunlock ip;;
        end_op;;
        if negb (r =? n1) then mret (inr i) else
        mret (inl (i + r))) 0;
      mret (if i =? n then n else -1)
  | FD_NONE => panic "filewrite"
  end.

(** kernel/pipe.c *)
Definition pipealloc : M (option (nat * nat)) :=
  let bad pi f0 f1 :=
    (if negb (pi =? 0) then kfree pi else mret tt);;
    match f0 with Some f => fileclose f | None => mret tt end;;
    match f1 with Some f => fileclose f | None => mret tt end;;
    mret None in
  f0 ← filealloc;
  match f0 with
  | None => bad 0 None None
  | Some r =>
  f1 ← filealloc;
  match f1 with
  | None => bad 0 (Some r) None
  | Some w =>
  pi ← kalloc;
  if pi =? 0 then bad 0 (Some r) (Some w) else
  modify (fun s => s <| k_ft := (k_ft s)
    <| pipes := <[ pi := Pipe (replicate (Z.to_nat PIPESIZE) 5) 0 0 1 1 ]> (pipes (k_ft s)) |> |>);;
  put_lock (L_pipe pi) initlock;;
  upd_file r (fun v => v <| f_type := FD_PIPE |> <| f_readable := 1 |> <| f_writable := 0 |> <| f_pipe := pi |>);;
  upd_file w (fun v => v <| f_type := FD_PIPE |> <| f_readable := 0 |> <| f_writable := 1 |> <| f_pipe := pi |>);;
  mret (Some (r, w))
  end
  end.

End files.
