(* ===== verification/FileSpec.v ===== *)
(** * Writing through an open file (theorems on kernel/file.c)

    [filewrite] splits a write to an inode into chunks, one transaction each.
    Together with the log this makes a write safe against crashes: the file
    system comes back with a prefix of the write, cut between chunks. *)
From S2P Require Import Prelude Memory Riscv State Spinlock Kalloc Steps Vm Usercopy AddressSpace Proc ProcSpec UserMem Plic Console ConsoleSpec Virtio VirtioSpec Sleeplock FsLogic Bio BioSpec Log LogSpec FsTx Fs FsAlloc FsSpec FsInode FsData FsWrite Pipe File.

Section files.
Context {p : nat} {pr : proc} {ft : ftable}.

Lemma fwp_get_file (f : nat) (ls : list lock_id) h fs (R : file -> world -> Prop) :
  R (files ft !!! f) (World ls h ft fs) -> fwp p pr (get_file f) (World ls h ft fs) R.
Proof. intros HR s Hs. apply runs_gets. rewrite (in_ft _ _ _ _ Hs). by eexists. Qed.

Lemma fwp_upd_file (f : nat) (g : file -> file) (ls : list lock_id) h fs (R : unit -> world -> Prop) :
  R tt (World ls h (ft <| files := alter g f (files ft) |>) fs) -> fwp p pr (upd_file f g) (World ls h ft fs) R.
Proof.
  intros HR s Hs. apply runs_modify. eexists. split; [|exact HR].
  apply inw_open in Hs as (c & pt & vd & dev & n & -> & Hc & Hp & Hpr & Hvd). by apply inw_close.
Qed.
End files.

(** The largest part of a write that goes into one transaction. *)
Definition chunk_max : Z := (MAXOPBLOCKS - 1 - 1 - 2) / 2 * BSIZE.

Lemma nblocks_chunk (off n : Z) : 0 <= off -> n <= chunk_max -> (nblocks off n <= 4)%nat.
Proof.
  intros Ho Hn. change chunk_max with (3 * BSIZE) in Hn. unfold nblocks.
  pose proof (Z.mod_pos_bound off BSIZE ltac:(done)). pose proof (Z.div_mod off BSIZE ltac:(done)).
  assert ((off + n - 1) / BSIZE < off / BSIZE + 4) by (apply Z.div_lt_upper_bound; [done|unfold BSIZE in *; lia]). lia.
Qed.

(** Where the parts of the file system lie on the disk. *)
Record layout (dv size start nlog : Z) (sbk : superblock) (ib : Z) : Prop := {
  ly_dev : 0 < dv < 2 ^ 31;
  ly_size : size <= BPB;
  ly_sb : sb_size sbk = size;
  ly_start : 0 <= start;
  ly_end : start + nlog <= size;
  ly_nlog : MAXOPBLOCKS < nlog;
  ly_bm : home size start nlog (sb_bmapstart sbk);
  ly_ib : home size start nlog ib;
  ly_pos : 0 < ib;
  ly_ne : ib <> sb_bmapstart sbk;
}.

Section filewrite.
Context {L : Linker} {LOk : LinkerOk L} {E : Env} {H : Hw}.
Context (dv size start nlog : Z) (p : nat) (pr : proc) (sbk : superblock) (ib : Z) (ip f : nat).
Context {h : heap}.

#[local] Abbreviation bm := (sb_bmapstart sbk).
#[local] Abbreviation rest := (rest dv size start nlog pr).
#[local] Abbreviation home := (home size start nlog).
#[local] Abbreviation nfree := (nfree size bm).
#[local] Abbreviation filled := (filled dv size start nlog bm ib).
#[local] Abbreviation recovers := (recovers dv size start nlog).

(** An inode in use, with what the disk says of it. *)
Record file_ready (V : Z -> list Z) (v : inode) : Prop := {
  fr_ref : 1 <= i_ref v;
  fr_lock : i_lock v = Sleeplock 0 0;
  fr_valid : i_valid v <> 0;
  fr_wf : inode_wf dv size start nlog bm ib V v;
  fr_bitmap : bitmap_ok size start nlog bm V;
  fr_block : IBLOCK (i_inum v) sbk = ib;
  fr_dinode : dinode_ok v;
  fr_disk : slice (V ib) (ioff v) 64 = dinode_bytes v;
  fr_len : length (V ib) = Z.to_nat BSIZE;
}.

Lemma filled_ready (off : Z) (bs : list Z) (c : nat) V v V' v' :
  file_ready V v -> filled off bs c V v V' v' -> file_ready V' v'.
Proof.
  intros [R1 R2 R3 R4 R5 R6 R7 R8 R9] [A1 A2 A3 A4 A5 A6 A7 A8 A9 A10 A11 A12 A13 A14].
  split; try done; [by rewrite A3..|]. rewrite <- A12. by rewrite A3.
Qed.

Lemma filled_nil (off : Z) V v : file_ready V v -> 0 <= off <= i_size v -> filled off [] 0 V v V v.
Proof.
  intros [R1 R2 R3 R4 R5 R6 R7 R8 R9] Ho. split; auto; try done; [|lia|intros i; cbn; lia].
  cbn [length]. rewrite Z.add_0_r, Z.max_l by lia. by destruct v.
Qed.

Hypothesis Hp : (p < NPROC)%nat.
Hypothesis Henv : disk_serves p.
Hypothesis Hly : layout dv size start nlog sbk ib.

(** One round of the loop of [filewrite]. *)
Lemma fwp_write_chunk (addr i : Z) (bs : list Z) (ft : ftable) (fs : fsys) V (v : inode) (R : Z + Z -> world -> Prop) :
  let fv := files ft !!! f in let off := f_off fv in let n := Z.of_nat (length bs) in
  rest fs V -> sb fs = sbk -> (ip < length (itable fs))%nat -> itable fs !!! ip = v -> file_ready V v ->
  0 <= off <= i_size v -> 0 < n <= chunk_max -> off + n <= MAXFILE * BSIZE ->
  (4 + need v <= nfree V)%nat -> supplies pr (FromUser (u64 (addr + i))) bs h ->
  (forall fs' V' v' ws, rest fs' V' -> filled off bs 4 V v V' v' -> itable fs' = <[ ip := v' ]> (itable fs) -> sb fs' = sb fs ->
     disk fs' = replay (disk fs) ws -> writes fs' = rev ws ++ writes fs ->
     (forall k, exists committed : bool, recovers (replay (disk fs) (take k ws)) (if committed then V' else V)) ->
     R (inl (i + n)) (World [] h (ft <| files := alter (fun v => v <| f_off := off + n |>) f (files ft) |>) fs')) ->
  fwp p pr (begin_op;;
    ip ← deref (Some ip);
    ilock ip;;
    v ← get_file f;
    r ← writei ip (FromUser (u64 (addr + i))) (f_off v) n;
    (if 0 <? r then upd_file f (fun v => v <| f_off := u32 (f_off v + r) |>) else mret tt);;
    iunlock ip;;
    end_op;;
    if negb (r =? n) then mret (inr i) else
    mret (inl (i + r))) (World [] h ft fs) R.
Proof using LOk Hp Henv Hly.
  intros fv off n Hre Hsbf Hip Hv Hrd Ho Hn Hmax Hfree Hsrc HR. destruct Hly as [Y1 Y2 Y3 Y4 Y5 Y6 Y7 Y8 Y9 Y10].
  pose proof Hrd as [R1 R2 R3 R4 R5 R6 R7 R8 R9]. pose proof Hre as [Q1 Q2 Q3 Q4].
  assert (size < 2 ^ 31) as Hsz by (unfold BPB, BSIZE in *; lia). assert (MAXFILE * BSIZE < 2 ^ 31) as Hm31 by done.
  fstep. apply (fwp_tx_begin dv size start nlog p pr Hp fs V); [done|]. intros l Ht. unfold deref. do 2 fstep.
  set (fs1 := fs <| log := l |>) in *. assert (itable fs1 = itable fs) as Ei1 by done.
  fstep. apply fwp_ilock; rewrite ?Ei1, ?Hv; [done|by rewrite R2|done|].
  set (fs2 := with_lock ip (Sleeplock 1 (p_pid pr)) fs1).
  assert (itable fs2 = <[ ip := v <| i_lock := Sleeplock 1 (p_pid pr) |> ]> (itable fs)) as Ei2.
  { unfold fs2, with_lock. cbn [sl_set itable set_with set_itable]. rewrite alter_insert_total, Ei1, Hv. done. }
  set (vl := v <| i_lock := Sleeplock 1 (p_pid pr) |>) in *.
  assert (itable fs2 !!! ip = vl) as Hvl by (by rewrite Ei2, list_lookup_total_insert_eq).
  assert (ip < length (itable fs2))%nat as Hip2 by (by rewrite Ei2, length_insert).
  fstep. apply fwp_get_file. fold fv. fold off.
  pose proof (nblocks_chunk off n ltac:(lia) ltac:(lia)) as Hnb.
  fstep. apply (fwp_writei dv size start nlog p pr (disk fs) sbk bm ib ip) with (V := V) (v := vl) (bl := []); try done; try lia.
  { apply Y8. }
  { change (need vl) with (need v). fold n. lia. }
  { by apply tx_itable. }
  { destruct R4. by split. }
  { by destruct R7. }
  { change (i_size vl) with (i_size v). lia. }
  intros V3 v3 bl3 fs3 Ht3 Hm3 Hfi3 Hl3 Hne3. fold n. rewrite (proj2 (Z.ltb_lt 0 n)) by lia. fold n in Hl3, Hfi3.
  destruct (moves_inode ip _ _ _ Hip2 Hm3) as [Hv3 Hip3]. pose proof (fl_inode _ _ _ _ _ _ _ _ _ _ _ _ _ Hfi3) as Ev3.
  assert (i_ref v3 = i_ref v /\ i_lock v3 = Sleeplock 1 (p_pid pr)) as [Er3 El3] by (rewrite Ev3; done).
  fstep. apply fwp_upd_file. fstep. apply fwp_iunlock; rewrite ?Hv3, ?Er3, ?El3; [done|done|].
  set (fs4 := with_lock ip (Sleeplock 0 0) fs3). set (v5 := v3 <| i_lock := i_lock v |>).
  assert (itable fs4 = <[ ip := v5 ]> (itable fs)) as Ei4.
  { unfold fs4, with_lock. cbn [sl_set itable set_with set_itable]. rewrite alter_insert_total, Hv3, (mv_itable _ _ _ _ Hm3), Ei2.
    rewrite !list_insert_insert_eq. unfold v5. by rewrite R2. }
  fstep. apply (fwp_tx_end dv size start nlog p pr Hp Henv Hsz Y1 Y4 Y5 Y6 (disk fs) fs4 V V3 bl3); try done.
  { by apply tx_itable. }
  { cbn [length] in Hl3. unfold MAXOPBLOCKS. lia. }
  { intros x Hx. by apply (ca_clean _ _ _ _ _ _ _ Q1). }
  intros fs5 V5 ws Hre5 HV5 (W1 & W2 & W3 & W4) Hcrash. rewrite Z.eqb_refl. cbn [negb]. fstep.
  assert (alter (fun v0 : file => v0 <| f_off := u32 (f_off v0 + n) |>) f (files ft) = alter (fun v0 => v0 <| f_off := off + n |>) f (files ft)) as ->.
  { apply alter_ext_total. fold fv. fold off. rewrite u32_small by (unfold is_u32; lia). done. }
  apply (HR fs5 V5 v5 ws); [done| | | | | |done].
  - apply filled_ext with (V' := V3); [lia|done|done|done|]. apply filled_lock with (l := Sleeplock 1 (p_pid pr)).
    by apply filled_weaken with (c := nblocks off n).
  - by rewrite W4.
  - rewrite W3. change (sb fs4) with (sb fs3). by rewrite (mv_sb _ _ _ _ Hm3).
  - rewrite W1. change (disk fs4) with (disk fs3). by rewrite (tx_disk _ _ _ _ _ _ _ _ _ _ _ Ht3).
  - rewrite W2. change (writes fs4) with (writes fs3). by rewrite (mv_writes _ _ _ _ Hm3).
Qed.

(** ** All the chunks *)
Section chunks.
Context (addr : Z) (bs : list Z) (ft : ftable) (fs : fsys) (V : Z -> list Z) (v : inode).
#[local] Abbreviation n := (Z.of_nat (length bs)).
#[local] Abbreviation off := (f_off (files ft !!! f)).

(** [W] is the file system after the first chunks of the write. *)
Definition some_chunks (W : Z -> list Z) : Prop := exists j w c,
  0 <= j <= n /\ (j = n \/ j mod chunk_max = 0) /\ filled off (take (Z.to_nat j) bs) c V v W w.

(** After [q] chunks, [i] bytes and the disk writes [ws]. *)
Record chunked (q : nat) (i : Z) (V' : Z -> list Z) (v' : inode) (ws : list (Z * list Z)) (fs' : fsys) : Prop := {
  ck_i : i = Z.min n (Z.of_nat q * chunk_max);
  ck_rest : rest fs' V';
  ck_filled : filled off (take (Z.to_nat i) bs) (4 * q) V v V' v';
  ck_itable : itable fs' = <[ ip := v' ]> (itable fs);
  ck_sb : sb fs' = sb fs;
  ck_disk : disk fs' = replay (disk fs) ws;
  ck_writes : writes fs' = rev ws ++ writes fs;
  ck_crash : forall k, exists W, some_chunks W /\ recovers (replay (disk fs) (take k ws)) W;
}.

Definition ft_at (i : Z) : ftable := ft <| files := alter (fun v => v <| f_off := off + i |>) f (files ft) |>.
Definition nchunks : nat := Z.to_nat ((n + chunk_max - 1) / chunk_max).

Hypothesis Hrest : rest fs V.
Hypothesis Hsbf : sb fs = sbk.
Hypothesis Hip : (ip < length (itable fs))%nat.
Hypothesis Hv : itable fs !!! ip = v.
Hypothesis Hready : file_ready V v.
Hypothesis Hf : (f < length (files ft))%nat.
Hypothesis Hoff : 0 <= off <= i_size v.
Hypothesis Hmax : off + n <= MAXFILE * BSIZE.
Hypothesis Hfree : (4 * nchunks + need v <= nfree V)%nat.
Hypothesis Hsrc : supplies pr (FromUser addr) bs h.

Lemma ft_at_next (i j : Z) : files (ft_at i) !!! f = (files ft !!! f) <| f_off := off + i |> /\
  (ft_at i) <| files := alter (fun v => v <| f_off := off + j |>) f (files (ft_at i)) |> = ft_at j.
Proof using Hf.
  unfold ft_at. cbn [files set_with set_files]. split; [by rewrite list_lookup_total_alter_eq|].
  rewrite list_alter_alter_eq. done.
Qed.

Lemma chunked_none : chunked 0 0 V v [] fs.
Proof using All.
  pose proof (filled_nil off V v Hready Hoff) as Hn. split; try done.
  - lia.
  - symmetry. apply list_insert_id. rewrite <- Hv. by apply list_lookup_lookup_total_lt.
  - intros k. exists V. rewrite take_nil. split; [exists 0, v, 0%nat; split; [lia|split; [by right|done]]|].
    destruct Hly as [Y1 Y2 Y3 Y4 Y5 Y6 Y7 Y8 Y9 Y10].
    apply (rest_recovers dv size start nlog pr); try done. unfold BPB, BSIZE in Y2. lia.
Qed.

Lemma chunk_next (q : nat) : Z.of_nat q * chunk_max < n -> let i := Z.of_nat q * chunk_max in
  (q < nchunks)%nat /\ Z.min n i = i /\
  (if chunk_max <? n - i then chunk_max else n - i) = Z.min n (Z.of_nat (S q) * chunk_max) - i.
Proof.
  clear. intros Hq i. unfold nchunks. change chunk_max with (3 * BSIZE) in *.
  assert (Z.of_nat q < (n + 3 * BSIZE - 1) / (3 * BSIZE)).
  { apply Z.lt_le_trans with (Z.of_nat q + 1); [lia|]. apply Z.div_le_lower_bound; [done|unfold BSIZE in *; lia]. }
  split; [lia|]. unfold i, BSIZE in *. destruct (Z.ltb_spec (3 * 1024) (n - Z.of_nat q * (3 * 1024))); lia.
Qed.

Lemma chunked_step (q : nat) (i m : Z) (V1 V2 : Z -> list Z) (v1 v2 : inode) (ws ws' : list (Z * list Z)) (fs1 fs2 : fsys) :
  chunked q i V1 v1 ws fs1 -> Z.of_nat q * chunk_max < n -> m = Z.min n (Z.of_nat (S q) * chunk_max) - i ->
  rest fs2 V2 -> filled (off + i) (take (Z.to_nat m) (drop (Z.to_nat i) bs)) 4 V1 v1 V2 v2 ->
  itable fs2 = <[ ip := v2 ]> (itable fs1) -> sb fs2 = sb fs1 -> disk fs2 = replay (disk fs1) ws' -> writes fs2 = rev ws' ++ writes fs1 ->
  (forall k, exists committed : bool, recovers (replay (disk fs1) (take k ws')) (if committed then V2 else V1)) ->
  chunked (S q) (i + m) V2 v2 (ws ++ ws') fs2.
Proof using All.
  intros [C1 C2 C3 C4 C5 C6 C7 C8] Hq Hm Hre2 Hfi2 Hit Hsb2 Hd2 Hw2 Hcr.
  assert (chunk_max = 3072) as Em by done.
  destruct (chunk_next q Hq) as (_ & Hi & _). rewrite Hi in C1. assert (0 <= i < n) as Hin by lia.
  assert (0 < m /\ i + m <= n) as [Hm0 Hm1] by lia.
  assert (take (Z.to_nat (i + m)) bs = take (Z.to_nat i) bs ++ take (Z.to_nat m) (drop (Z.to_nat i) bs)) as Et.
  { replace (Z.to_nat (i + m)) with (Z.to_nat i + Z.to_nat m)%nat by lia. symmetry. apply take_take_drop. }
  assert (Z.of_nat (length (take (Z.to_nat i) bs)) = i) as Hli by (rewrite length_take; lia).
  assert (filled off (take (Z.to_nat (i + m)) bs) (4 * S q) V v V2 v2) as Hfi.
  { rewrite Et. replace (4 * S q)%nat with (4 * q + 4)%nat by lia.
    apply filled_trans with (V1 := V1) (v1 := v1); [apply (fr_wf _ _ Hready)|done| |done|by rewrite Hli].
    rewrite <- Et, length_take. lia. }
  split; [lia|done|done| | | | |].
  - by rewrite Hit, C4, list_insert_insert_eq.
  - congruence.
  - by rewrite Hd2, C6, replay_app.
  - by rewrite Hw2, C7, rev_app_distr, app_assoc.
  - intros k. rewrite take_app, replay_app. destruct (decide (k <= length ws)%nat) as [Hk|Hk].
    + replace (k - length ws)%nat with 0%nat by lia. rewrite take_0. apply C8.
    + rewrite (take_ge ws) by lia. rewrite <- C6. destruct (Hcr (k - length ws)%nat) as [[|] Hrec].
      * exists V2. split; [|done]. exists (i + m), v2, (4 * S q)%nat. split; [lia|]. split; [|done].
        destruct (decide (i + m = n)) as [|Hne]; [by left|right]. assert (i + m = Z.of_nat (S q) * chunk_max) as -> by lia. by apply Z.mod_mul.
      * exists V1. split; [|done]. exists i, v1, (4 * q)%nat. split; [lia|]. split; [|done]. right. rewrite C1. by apply Z.mod_mul.
Qed.

Lemma fwp_filewrite (R : Z -> world -> Prop) :
  f_type (files ft !!! f) = FD_INODE -> f_writable (files ft !!! f) <> 0 -> f_ip (files ft !!! f) = Some ip ->
  (forall q V' v' ws fs', chunked q n V' v' ws fs' -> R n (World [] h (ft_at n) fs')) ->
  fwp p pr (filewrite f addr n) (World [] h ft fs) R.
Proof using All.
  intros Hty Hwr Hfip HR. unfold filewrite. fstep. apply fwp_get_file. rewrite (proj2 (Z.eqb_neq _ _)), Hty by done.
  fold chunk_max. cbv zeta. rewrite Hfip.
  fstep. apply (fwp_loop p pr (fun i w => exists q V' v' ws fs', chunked q i V' v' ws fs' /\ w = World [] h (ft_at i) fs')
    (fun i _ => n - i)).
  { exists 0%nat, V, v, [], fs. split; [exact chunked_none|]. f_equal. unfold ft_at.
    rewrite alter_id_total by (rewrite Z.add_0_r; by destruct (files ft !!! f)). by destruct ft. }
  { assert (MAXFILE * BSIZE < 2 ^ 31) by done. lia. }
  intros i w (q & V1 & v1 & ws & fs1 & Hck & ->). pose proof Hck as [C1 C2 C3 C4 C5 C6 C7 C8].
  destruct (Z.ltb_spec i n) as [Hin|Hin]; cbn [negb].
  2: { fstep. assert (i = n) as Ei by lia. rewrite Ei, Z.eqb_refl. fstep. rewrite Ei in Hck. by apply (HR q V1 v1 ws fs1). }
  assert (Z.of_nat q * chunk_max < n) as Hq by lia. destruct (chunk_next q Hq) as (Hq1 & Hq2 & Hq3).
  rewrite Hq2 in C1. rewrite <- C1 in Hq3. rewrite Hq3. set (m := Z.min n (Z.of_nat (S q) * chunk_max) - i) in *.
  set (bs1 := take (Z.to_nat m) (drop (Z.to_nat i) bs)). assert (chunk_max = 3072) as Em by done.
  assert (0 < m <= chunk_max /\ i + m <= n /\ 0 <= i) as (Hm0 & Hm1 & Hi0) by lia.
  assert (Z.of_nat (length bs1) = m) as Hl1 by (unfold bs1; rewrite length_take, length_drop; lia).
  destruct (ft_at_next i (i + m)) as [Ef1 Ef2].
  assert (itable fs1 !!! ip = v1) as Hv1 by (by rewrite C4, list_lookup_total_insert_eq).
  assert (ip < length (itable fs1))%nat as Hip1 by (by rewrite C4, length_insert).
  epose proof (fwp_write_chunk addr i bs1 (ft_at i) fs1 V1 v1 _) as Hw. cbv zeta in Hw. rewrite Hl1, Ef1 in Hw. cbn [f_off set_with set_f_off] in Hw.
  apply Hw; clear Hw; try done; try lia.
  - congruence.
  - by apply (filled_ready off (take (Z.to_nat i) bs) (4 * q) V v).
  - rewrite (fl_inode _ _ _ _ _ _ _ _ _ _ _ _ _ C3). cbn [i_size set_with set_i_size]. rewrite length_take. lia.
  - pose proof (fl_free _ _ _ _ _ _ _ _ _ _ _ _ _ C3). lia.
  - rewrite <- (take_drop (Z.to_nat i) bs) in Hsrc. destruct (supplies_split pr _ _ _ _ Hsrc) as [_ Hs1].
    rewrite <- (take_drop (Z.to_nat m) (drop (Z.to_nat i) bs)) in Hs1. destruct (supplies_split pr _ _ _ _ Hs1) as [Hs2 _].
    cbn [source_add] in Hs2. rewrite length_take, Nat.min_l, Z2Nat.id in Hs2 by lia. exact Hs2.
  - intros fs2 V2 v2 ws2 Hre2 Hfi2 Hit2 Hsb2 Hd2 Hw2 Hcr2. split; [|lia].
    exists (S q), V2, v2, (ws ++ ws2), fs2. split; [by apply (chunked_step q i m V1 V2 v1 v2 ws ws2 fs1 fs2)|].
    f_equal. rewrite <- Z.add_assoc. exact Ef2.
Qed.
End chunks.
End filewrite.

(** C3. Writing a file is safe against crashes.  [filewrite] on an open inode
    with room on the disk returns [n].  The file then has the [n] bytes of the
    user's buffer at the old offset and every other byte as before, its size
    has grown as needed, blocks taken from the bitmap hold what was added, the
    inode on disk is that in memory, blocks of other files are as they were,
    and the offset is past the bytes.  The write is a sequence of disk writes;
    when the machine stops after any number [k] of them and starts again,
    [initlog] ends with a file system where a prefix of the write has been
    done, all of it or cut at a multiple of the chunk size, and nothing
    else. *)
Theorem filewrite_crash_safe {L : Linker} {LOk : LinkerOk L} {E : Env} {H : Hw} (dv size start nlog : Z) (p : nat) (pr : proc)
    (sbk : superblock) (ib : Z) (ip f : nat) (addr : Z) (bs : list Z) (V : Z -> list Z) (h : heap) (ft : ftable) (s : kstate) :
  let v := itable (k_fs s) !!! ip in let fv := files ft !!! f in let off := f_off fv in
  let n := Z.of_nat (length bs) in let bm := sb_bmapstart sbk in
  (p < NPROC)%nat -> disk_serves p -> layout dv size start nlog sbk ib ->
  inw p pr (World [] h ft (k_fs s)) s -> sb (k_fs s) = sbk -> rest dv size start nlog pr (k_fs s) V ->
  (ip < length (itable (k_fs s)))%nat -> file_ready dv size start nlog sbk ib V v ->
  (f < length (files ft))%nat -> f_type fv = FD_INODE -> f_writable fv <> 0 -> f_ip fv = Some ip ->
  0 <= off <= i_size v -> off + n <= MAXFILE * BSIZE -> supplies pr (FromUser addr) bs h ->
  (4 * nchunks bs + need v <= nfree size bm V)%nat ->
  runs (filewrite f addr n) s (fun r s' => r = n /\ exists V' v' c ws,
    filled dv size start nlog bm ib off bs c V v V' v' /\ rest dv size start nlog pr (k_fs s') V' /\
    itable (k_fs s') = <[ ip := v' ]> (itable (k_fs s)) /\
    files (k_ft s') = alter (fun v => v <| f_off := off + n |>) f (files ft) /\
    disk (k_fs s') = replay (disk (k_fs s)) ws /\ writes (k_fs s') = rev ws ++ writes (k_fs s) /\
    forall k, exists W, some_chunks dv size start nlog sbk ib f bs ft V v W /\
      recovers dv size start nlog (replay (disk (k_fs s)) (take k ws)) W).
Proof.
  intros v fv off n bm Hp Henv Hly Hin Hsb Hre Hip Hrd Hf Hty Hwr Hfip Ho Hmax Hsrc Hfree.
  eapply runs_mono; [apply (fwp_filewrite (h := h) dv size start nlog p pr sbk ib ip f Hp Henv Hly addr bs ft (k_fs s) V v)
    with (R := fun r w => r = n /\ w_ft w = ft_at f ft n /\ exists q V' v' ws,
      chunked dv size start nlog pr sbk ib ip f bs ft (k_fs s) V v q n V' v' ws (w_fs w)); try done|].
  - intros q V' v' ws fs' Hck. split; [done|]. split; [done|]. by exists q, V', v', ws.
  - intros r s' (w & Hw & -> & Eft & q & V' & v' & ws & [C1 C2 C3 C4 C5 C6 C7 C8]). split; [done|].
    rewrite (in_fs _ _ _ _ Hw), (in_ft _ _ _ _ Hw), Eft. exists V', v', (4 * q)%nat, ws.
    unfold n in C3. rewrite Nat2Z.id, take_ge in C3 by lia. by split_and!.
Qed.

(** A disk of thirty-two blocks: the log in the first twelve, the bitmap, the
    inodes, a file of 1000 bytes in block 14, and sixteen free blocks. *)
Definition wfile : inode := Inode 1 1 1 (Sleeplock 0 0) 1 T_FILE 0 0 1 1000 (14 :: replicate 12 0).
Definition wblock (x : Z) : list Z :=
  if x =? 12 then [255; 255] ++ replicate 1022 0
  else if x =? 13 then splice zeros 64 (dinode_bytes wfile)
  else demo_block x.
Definition wsb : superblock := Superblock FSMAGIC 32 16 16 12 0 13 12.
Definition wfs (bufs : list buf) : fsys :=
  (log_fs bufs) <| disk := list_to_map ((fun i => (Z.of_nat i, wblock (Z.of_nat i))) <$> seq 0 32) |>
    <| itable := [wfile] |> <| sb := wsb |>.
Definition wft : ftable := Ftable [File FD_INODE 1 1 1 0 (Some 0%nat) 1000 0] ∅.
Definition wstate (h : heap) (bufs : list buf) : kstate :=
  (bio_state demo_ctl (wfs bufs)) <| k_heap := h |> <| k_pt := user_pt |> <| k_ft := wft |>.

Lemma wfs_block (bufs : list buf) (x : Z) : 0 <= x < 32 -> disk (wfs bufs) !! x = Some (wblock x).
Proof.
  intros Hx. unfold wfs. cbn [disk set_with set_disk set_itable set_sb]. apply elem_of_list_to_map_1.
  - rewrite <- list_fmap_compose. apply NoDup_fmap_2_strong; [|apply NoDup_seq]. cbn. intros; lia.
  - apply list_elem_of_fmap. exists (Z.to_nat x). rewrite Z2Nat.id by lia. split; [done|]. apply elem_of_seq. lia.
Qed.

Lemma wslot (V : Z -> list Z) (i : nat) : (i < NSLOTS)%nat -> slot V wfile i = if decide (i = 0%nat) then 14 else 0.
Proof.
  intros Hi. unfold slot. destruct (Nat.leb_spec i NDIRECT) as [Hd|Hd]; [|by rewrite decide_False by lia].
  unfold NDIRECT in Hd. do 13 (destruct i as [|i]; [done|]). lia.
Qed.

Section wdisk.
Context (V : Z -> list Z).
Hypothesis HV : forall x, 0 <= x < 32 -> V x = wblock x.

Lemma wbits (y : Z) : 0 <= y < 32 -> bit V 12 y = (y <? 16).
Proof using HV.
  intros Hy. unfold bit. rewrite HV by lia. assert (In y (seqZ 0 32)) as Hin by (apply list_elem_of_In, elem_of_seqZ; lia).
  assert (forallb (fun y => Bool.eqb (Z.testbit (wblock 12 !!! Z.to_nat (y / 8)) (y mod 8)) (y <? 16)) (seqZ 0 32) = true) as Hall by (vm_compute; reflexivity).
  rewrite forallb_forall in Hall. apply Bool.eqb_prop. by apply Hall.
Qed.

Lemma wnfree : nfree 32 12 V = 16%nat.
Proof using HV.
  unfold nfree. rewrite (filter_ext_in _ (fun y => negb (y <? 16))); [vm_compute; reflexivity|].
  intros y Hy. apply list_elem_of_In, elem_of_seqZ in Hy. by rewrite wbits by lia.
Qed.

Lemma wready : file_ready 1 32 0 12 wsb 13 V wfile.
Proof using HV.
  assert (length (V 12) = 1024%nat /\ length (V 13) = 1024%nat /\ length (V 14) = 1024%nat) as (H12 & H13 & H14)
    by (rewrite !HV by lia; by vm_compute).
  split; try done.
  - split; [done|done|by vm_compute|by rewrite wbits by lia| | |].
    + intros i Hi. rewrite wslot by done. destruct (decide _); [|done]. intros _. split; try done; [unfold home; lia|by apply wbits].
    + intros i j Hi Hj. rewrite !wslot by done. destruct (decide (i = 0%nat)), (decide (j = 0%nat)); try done; lia.
    + intros bn Hb Hlt. cbn [wfile i_size] in Hlt. unfold BSIZE in Hlt. assert (bn = 0) as -> by lia. done.
  - split; [done|]. intros x Hx. rewrite wbits by lia. intros Hb%Z.ltb_ge. split; [split; [lia|lia]|]. split; [lia|cbn; lia].
  - split; [by vm_compute|by vm_compute|by vm_compute|by vm_compute|by vm_compute| |reflexivity].
    cbn [wfile i_addrs replicate]. repeat (constructor; [by vm_compute|]). constructor.
  - rewrite HV by lia. by vm_compute.
Qed.
End wdisk.

Lemma filewrite_crash_safe_witness : exists h bufs, let bs := replicate 4000 0 in
  runs (filewrite (E := machine_env) (H := demo_hw) 0 0 4000) (wstate h bufs) (fun r s' => r = 4000 /\ exists V' v' c ws,
    filled 1 32 0 12 12 13 1000 bs c (fun x => disk (wfs bufs) !!! x) wfile V' v' /\
    itable (k_fs s') = [v'] /\ disk (k_fs s') = replay (disk (wfs bufs)) ws /\
    forall k, exists W, some_chunks 1 32 0 12 wsb 13 0 bs wft (fun x => disk (wfs bufs) !!! x) wfile W /\
      recovers (E := machine_env) 1 32 0 12 (replay (disk (wfs bufs)) (take k ws)) W).
Proof.
  destruct user_demo as (h & Hu & Hub). destruct demo_ring as [bufs Hr]. exists h, bufs. intros bs.
  set (V := fun x => disk (wfs bufs) !!! x) in *.
  assert (forall x, 0 <= x < 32 -> V x = wblock x) as HV.
  { intros x Hx. apply lookup_total_correct. by apply wfs_block. }
  set (pr := procs user_pt !!! 0%nat).
  pose proof (filewrite_crash_safe (L := demo_linker) (LOk := demo_linker_ok) (E := machine_env) (H := demo_hw) 1 32 0 12 0 pr wsb 13 0 0 0 bs V h wft
    (wstate h bufs)) as Hrun.
  eapply runs_mono; [apply Hrun; clear Hrun|].
  - vm_compute. lia.
  - exact (machine_serves 0).
  - split; try done; unfold home; cbn; lia.
  - split; try done; [exists demo_ctl; split; [done|]; split; [exact demo_idle|reflexivity]|by exists RUNNING, Ch0].
  - done.
  - split; [|by repeat split|rewrite HV by lia; reflexivity|rewrite HV by lia; reflexivity].
    refine (ring_cache 1 32 pr (wfs bufs) Hr _ _); [discriminate|]. intros x Hx. eexists. by apply wfs_block.
  - cbn. lia.
  - exact (wready V HV).
  - cbn. lia.
  - done.
  - discriminate.
  - done.
  - cbn. lia.
  - vm_compute. discriminate.
  - split; [exact Hu|]. split; [lia|]. split; [vm_compute; discriminate|]. unfold bs. rewrite length_replicate. apply Hub; lia.
  - change (sb_bmapstart wsb) with 12. rewrite (wnfree V HV). vm_compute. lia.
  - intros r s' (-> & V' & v' & c & ws & Hfi & _ & Hit & _ & Hd & _ & Hcr). split; [reflexivity|].
    exists V', v', c, ws. exact (conj Hfi (conj Hit (conj Hd Hcr))).
Defined.
