(* ===== verification/FsTrunc.v ===== *)
(** * Giving blocks and inodes back (theorems on kernel/fs.c and kernel/file.c)

    [bfree], [itrunc] and [iput] within a transaction: the blocks of a file
    that nobody needs any more become free, and nothing else changes.  With
    them [fileclose] of the last reference to an open file: one transaction
    that frees the file when it has no name left, and none of its blocks
    otherwise. *)
From S2P Require Import Prelude Memory Riscv State Spinlock Kalloc Steps Vm Usercopy AddressSpace Proc ProcSpec UserMem Plic Console ConsoleSpec Virtio VirtioSpec Sleeplock FsLogic Bio BioSpec Log LogSpec FsTx Fs FsAlloc FsSpec FsInode FsData FsWrite Pipe File FileSpec.

(** ** The bitmap *)

(** The bitmap block with the bit of [x] cleared. *)
Definition clear_bit (d : list Z) (x : Z) : list Z :=
  <[ Z.to_nat (x / 8) := Z.land (d !!! Z.to_nat (x / 8)) (Z.lnot (Z.shiftl 1 (x mod 8))) ]> d.

Lemma bit_clear (V : Z -> list Z) (bm x y : Z) :
  0 <= x -> 0 <= y -> (Z.to_nat (x / 8) < length (V bm))%nat ->
  bit (put V bm (clear_bit (V bm) x)) bm y = bit V bm y && negb (y =? x).
Proof.
  intros Hx Hy Hl. unfold bit, clear_bit. rewrite put_eq.
  pose proof (Z.div_pos x 8 Hx ltac:(lia)). pose proof (Z.div_pos y 8 Hy ltac:(lia)).
  pose proof (Z.mod_pos_bound x 8 ltac:(lia)). pose proof (Z.mod_pos_bound y 8 ltac:(lia)).
  pose proof (Z.div_mod x 8 ltac:(lia)). pose proof (Z.div_mod y 8 ltac:(lia)).
  destruct (decide (x / 8 = y / 8)) as [E|E].
  - rewrite <- E, list_lookup_total_insert_eq by done. rewrite Z.land_spec, Z.lnot_spec by lia. do 2 f_equal.
    rewrite Z.shiftl_spec by lia. destruct (Z.eqb_spec y x) as [->|Hne]; [by rewrite Z.sub_diag|].
    destruct (Z.ltb_spec (y mod 8) (x mod 8)); [apply Z.testbit_neg_r; lia|].
    change 1 with (2 ^ 0). apply Z.pow2_bits_false. lia.
  - rewrite list_lookup_total_insert_ne by lia. rewrite (proj2 (Z.eqb_neq y x)); [by rewrite andb_true_r|].
    intros ->. done.
Qed.

(** [V'] is [V] with the blocks [l] free. *)
Record freed (bm : Z) (V : Z -> list Z) (l : list Z) (V' : Z -> list Z) : Prop := {
  fd_same : forall y, y <> bm -> V' y = V y;
  fd_bit : forall y, 0 <= y -> bit V' bm y = bit V bm y && negb (bool_decide (y ∈ l));
  fd_len : length (V' bm) = Z.to_nat BSIZE;
}.

Lemma freed_nil (bm : Z) (V : Z -> list Z) : length (V bm) = Z.to_nat BSIZE -> freed bm V [] V.
Proof. intros Hl. split; [done| |done]. intros y _. rewrite bool_decide_false by apply not_elem_of_nil. by rewrite andb_true_r. Qed.

Lemma bitmap_byte (x size : Z) : 0 <= x < size -> size <= BPB -> (Z.to_nat (x / 8) < Z.to_nat BSIZE)%nat.
Proof.
  intros Hx Hs. pose proof (Z.div_pos x 8 ltac:(lia) ltac:(lia)).
  pose proof (Z.div_lt_upper_bound x 8 BSIZE ltac:(lia) ltac:(unfold BPB in *; lia)). lia.
Qed.

Lemma freed_snoc (bm size : Z) (V V1 : Z -> list Z) (l : list Z) (x : Z) : freed bm V l V1 -> 0 <= x < size -> size <= BPB ->
  freed bm V (l ++ [x]) (put V1 bm (clear_bit (V1 bm) x)).
Proof.
  intros [F1 F2 F3] Hx Hs. pose proof (bitmap_byte x size Hx Hs). split.
  - intros y Hy. rewrite put_ne by done. by apply F1.
  - intros y Hy. rewrite bit_clear, F2 by lia. rewrite <- andb_assoc. f_equal. rewrite <- negb_orb. f_equal.
    destruct (Z.eqb_spec y x) as [->|Hne].
    + rewrite orb_true_r. symmetry. apply bool_decide_true. apply elem_of_app. right. by left.
    + rewrite orb_false_r. apply bool_decide_ext. rewrite elem_of_app, list_elem_of_singleton. tauto.
  - rewrite put_eq. unfold clear_bit. by rewrite length_insert.
Qed.

(** The blocks in slots [a], [a+1], ..., [a+n-1] of an inode. *)
Definition used_blocks (V : Z -> list Z) (v : inode) (a n : nat) : list Z :=
  List.filter (fun x => negb (x =? 0)) (slot V v <$> seq a n).

Lemma used_blocks_S (V : Z -> list Z) (v : inode) (a n : nat) :
  used_blocks V v a (S n) = used_blocks V v a n ++ (if slot V v (a + n) =? 0 then [] else [slot V v (a + n)%nat]).
Proof.
  unfold used_blocks. rewrite seq_S, fmap_app, List.filter_app. cbn. by destruct (_ =? 0).
Qed.

Lemma elem_of_used_blocks (V : Z -> list Z) (v : inode) (a n : nat) (y : Z) :
  y ∈ used_blocks V v a n <-> y <> 0 /\ exists i, (a <= i < a + n)%nat /\ slot V v i = y.
Proof.
  unfold used_blocks. rewrite list_elem_of_In, filter_In, <- list_elem_of_In, list_elem_of_fmap. split.
  - intros [(i & -> & Hi%elem_of_seq) H0]. split; [|by exists i]. intros E. by rewrite E in H0.
  - intros [H0 (i & Hi & <-)]. split; [exists i; split; [done|by apply elem_of_seq]|]. by rewrite (proj2 (Z.eqb_neq _ _)).
Qed.

(** Grouping the first two of three steps. *)
Lemma fwp_bind_assoc {E : Env} (p : nat) (pr : proc) {A B C} (m : M A) (f : A -> M B) (g : B -> M C) w (R : C -> world -> Prop) :
  fwp p pr (b ← (a ← m; f a); g b) w R -> fwp p pr (a ← m; b ← f a; g b) w R.
Proof.
  intros Hm s Hs. specialize (Hm s Hs). unfold runs in *. revert Hm. unfold mbind, M_bind. by destruct (m s).
Qed.

Section trunc.
Context {L : Linker} {LOk : LinkerOk L} {E : Env} {H : Hw}.
Context (dv size start nlog : Z) (p : nat) (pr : proc) (D : gmap Z (list Z)).
Context {ft : ftable} {h : heap}.
Context (sbk : superblock) (bm ib : Z) (ip : nat).

#[local] Abbreviation tx := (tx dv size start nlog pr D).
#[local] Abbreviation keeps := (keeps dv).
#[local] Abbreviation home := (home size start nlog).
#[local] Abbreviation bitmap_ok := (bitmap_ok size start nlog bm).
#[local] Abbreviation inode_wf := (inode_wf dv size start nlog bm ib).
#[local] Abbreviation freed := (freed bm).
#[local] Abbreviation moves := (moves ip).

Hypothesis Hp : (p < NPROC)%nat.
Hypothesis Henv : disk_serves p.
Hypothesis Hsize : size <= BPB.
Hypothesis Hnlog : MAXOPBLOCKS < nlog.
Hypothesis Hbm : sb_bmapstart sbk = bm.
Hypothesis Hbm_home : home bm.
Hypothesis Hib : 0 < ib < size.
Hypothesis Hib_home : home ib.
Hypothesis Hib_bm : ib <> bm.

Lemma log_add_in (bl : list Z) (x : Z) : log_add (log_add bl x) x = log_add bl x.
Proof.
  clear. unfold log_add at 1. rewrite decide_True; [done|]. unfold log_add. destruct (decide (x ∈ bl)); [done|].
  apply elem_of_app. right. by left.
Qed.

Lemma log_add_self (bl : list Z) (x : Z) : x ∈ log_add bl x.
Proof. clear. unfold log_add. destruct (decide (x ∈ bl)); [done|]. apply elem_of_app. right. by left. Qed.

Lemma log_add_fixed (bl : list Z) (x : Z) : x ∈ bl -> log_add bl x = bl.
Proof. clear. intros Hx. unfold log_add. by rewrite decide_True. Qed.

Lemma fwp_bfree (x : Z) (fs : fsys) V (bl hd : list Z) (R : unit -> world -> Prop) :
  tx fs V bl hd [] -> sb fs = sbk -> bm ∉ hd -> length (V bm) = Z.to_nat BSIZE -> 0 <= x < size -> bit V bm x = true ->
  Z.of_nat (length bl) < MAXOPBLOCKS -> (length hd < 2)%nat ->
  (forall fs', tx fs' (put V bm (clear_bit (V bm) x)) (log_add bl bm) hd [] -> keeps hd fs fs' -> R tt (World [] h ft fs')) ->
  fwp p pr (bfree dv x) (World [] h ft fs) R.
Proof using Hp Henv Hsize Hnlog Hbm Hbm_home.
  intros Ht Hsbf Hbmh Hlen Hx Hbit Hn Hh HR. unfold bfree. pose proof (size_small size Hsize) as Hs.
  fstep. apply get_sb_spec with (sbk := sbk); [done|].
  assert (BBLOCK x sbk = bm) as ->.
  { unfold BBLOCK. rewrite Z.div_small, Hbm by lia. destruct Hbm_home as [Hb _]. apply u32_small. unfold is_u32. lia. }
  fstep. apply (fwp_tx_bread dv size start nlog p pr D Hp Henv Hs Ht bm); [apply Hbm_home|done|unfold NBUF, MAXOPBLOCKS in *; lia|].
  intros bp fs1 Ht1 Hb1 K1. cbv zeta. do 2 fstep. rewrite (tx_data dv size start nlog pr D Ht1 bp bm Hb1).
  rewrite (Z.mod_small x BPB) by lia. pose proof (Z.mod_pos_bound x 8 ltac:(lia)) as Hmod.
  rewrite land_bit by lia. fold (bit V bm x). rewrite Hbit. cbn [negb].
  set (f := fun v => v <| b_data := <[ Z.to_nat (x / 8) := Z.land (b_data v !!! Z.to_nat (x / 8)) (Z.lnot (Z.shiftl 1 (x mod 8))) ]> (b_data v) |>).
  destruct (tx_poke dv size start nlog pr D Ht1 bp bm f (clear_bit (V bm) x) Hb1) as (Ht2 & Hb2 & K2);
    [by left|by eexists|unfold f, clear_bit; cbn; by rewrite (tx_data dv size start nlog pr D Ht1 bp bm Hb1)|].
  do 2 fstep. match goal with |- fwp _ _ _ (World [] h ft ?f) _ => set (fs2 := f) in * end. fstep.
  apply (fwp_tx_log_write dv size start nlog p pr D Hp Henv Hs Ht2 bp bm); [done|by left|done| |unfold LOGSIZE, MAXOPBLOCKS in *; lia|lia|].
  { intros y Hy. by apply list_elem_of_singleton in Hy. }
  intros fs3 Ht3 Hb3 K3.
  apply (fwp_tx_brelse dv size start nlog p pr D Hp Henv Hs fs3 _ _ hd bp bm h _ Ht3 Hbmh Hb3). intros fs4 Ht4 K4.
  apply HR; [done|]. apply (keeps_trans _ _ _ fs1); [done|]. apply (keeps_trans _ _ _ fs3); [|done].
  apply (keeps_sub _ (bm :: hd)); [intros y Hy; by right|]. by apply (keeps_trans _ _ _ fs2).
Qed.

(** ** [itrunc] *)
Section itrunc.
Context (fs : fsys) (V : Z -> list Z) (v : inode) (bl : list Z).
Hypothesis Hsbf : sb fs = sbk.
Hypothesis Hip : (ip < length (itable fs))%nat.
Hypothesis Hv : itable fs !!! ip = v.
Hypothesis Hw : inode_wf V v.
Hypothesis Hbl : Z.of_nat (length bl) + 2 <= MAXOPBLOCKS.

(** The blocks [l] have been freed, and the inode has the slots [a]; the
    buffers [hd] are held. *)
Record cutting (l a hd : list Z) (fs' : fsys) : Prop := {
  ct_tx : exists V' bl', tx fs' V' bl' hd [] /\ freed V l V' /\ (bl' = bl \/ bl' = log_add bl bm);
  ct_moves : moves fs (v <| i_addrs := a |>) fs';
}.

Lemma cutting_inode (l a hd : list Z) (fs' : fsys) : cutting l a hd fs' -> itable fs' !!! ip = v <| i_addrs := a |>.
Proof using All. intros [_ Hm]. by apply (moves_inode ip fs). Qed.

Lemma fwp_free_slot (i : nat) (l a hd : list Z) (fs' : fsys) (R : unit -> world -> Prop) :
  cutting l a hd fs' -> (i < NSLOTS)%nat -> slot V v i <> 0 -> slot V v i ∉ l -> bm ∉ hd -> (length hd < 2)%nat ->
  (forall fs2, cutting (l ++ [slot V v i]) a hd fs2 -> keeps hd fs' fs2 -> R tt (World [] h ft fs2)) ->
  fwp p pr (bfree dv (slot V v i)) (World [] h ft fs') R.
Proof using All.
  intros [(V' & bl' & Ht & Hf & Hbl') Hm] Hi H0 Hnew Hbmh Hhd HR. pose proof Hf as [F1 F2 F3].
  destruct (iw_used _ _ _ _ _ _ _ _ Hw i Hi H0) as [K1 K2 K3 K4 K5 K6].
  assert (Z.of_nat (length bl') < MAXOPBLOCKS) as Hlen by (pose proof (log_add_length bl bm); destruct Hbl'; subst; lia).
  apply (fwp_bfree (slot V v i) fs' V' bl' hd); try done.
  - by rewrite (mv_sb _ _ _ _ Hm).
  - lia.
  - rewrite F2, K5, bool_decide_false by (done || lia). done.
  - intros fs2 Ht2 Kp. apply HR; [|done]. split.
    + do 2 eexists. split; [exact Ht2|]. split; [apply (freed_snoc bm size); (done || lia)|].
      right. destruct Hbl' as [->| ->]; [done|apply log_add_in].
    + pose proof Kp as [G1 G2 G3 _]. destruct Hm as [M1 M2 M3]. split; [by rewrite G1|congruence|congruence].
Qed.

Lemma used_new (i a n : nat) : (i < NSLOTS)%nat -> slot V v i <> 0 -> (a + n <= NSLOTS)%nat -> (~ a <= i < a + n)%nat -> slot V v i ∉ used_blocks V v a n.
Proof using All.
  intros Hi H0 Han Hout [_ (j & Hj & Ej)]%elem_of_used_blocks.
  apply (iw_inj _ _ _ _ _ _ _ _ Hw i j); [done|lia|lia|done|done].
Qed.

(** The slots in the inode. *)
Definition cut_addrs (k : nat) : list Z := replicate k 0 ++ drop k (i_addrs v).

Lemma cut_addrs_S (k : nat) : (k < length (i_addrs v))%nat -> <[ k := 0 ]> (cut_addrs k) = cut_addrs (S k).
Proof.
  intros Hk. unfold cut_addrs. destruct (lookup_lt_is_Some_2 _ _ Hk) as [x Hx]. rewrite (drop_S _ _ _ Hx).
  rewrite insert_app_r_alt by (by rewrite length_replicate). rewrite length_replicate, Nat.sub_diag. cbn.
  by rewrite cons_middle, app_assoc, <- replicate_S_end.
Qed.

Lemma cut_addrs_at (k i : nat) : (k <= i)%nat -> cut_addrs k !!! i = i_addrs v !!! i.
Proof.
  intros Hk. unfold cut_addrs. rewrite lookup_total_app_r by (by rewrite length_replicate).
  rewrite length_replicate, !list_lookup_total_alt, lookup_drop. do 2 f_equal. lia.
Qed.

Lemma slot_direct (k : nat) : (k <= NDIRECT)%nat -> slot V v k = i_addrs v !!! k.
Proof. intros Hk. unfold slot. by rewrite (proj2 (Nat.leb_le _ _)). Qed.

Lemma fwp_cut_direct (R : unit -> world -> Prop) :
  cutting [] (i_addrs v) [] fs ->
  (forall fs', cutting (used_blocks V v 0 NDIRECT) (cut_addrs NDIRECT) [] fs' -> R tt (World [] h ft fs')) ->
  fwp p pr (for_each (seq 0 NDIRECT) (fun i =>
    v ← get_inode ip;
    if truth (i_addrs v !!! i) then
      bfree (i_dev v) (i_addrs v !!! i);;
      upd_inode ip (fun v => v <| i_addrs := <[ i := 0 ]> (i_addrs v) |>)
    else mret tt)) (World [] h ft fs) R.
Proof using All.
  intros H0 HR. pose proof (iw_len _ _ _ _ _ _ _ _ Hw) as Hl.
  apply (fwp_for_each p pr (fun l w => exists k fs', l = seq k (NDIRECT - k) /\ (k <= NDIRECT)%nat /\ w = World [] h ft fs' /\
    cutting (used_blocks V v 0 k) (cut_addrs k) [] fs')).
  - exists 0%nat, fs. split_and!; [done|lia|done|done].
  - intros x l w (k & fs' & El & Hk & -> & Hc). destruct (decide (k = NDIRECT)) as [->|Hne]; [by rewrite Nat.sub_diag in El|].
    replace (NDIRECT - k)%nat with (S (NDIRECT - S k)) in El by lia. injection El as -> ->.
    do 2 fstep. rewrite (cutting_inode _ _ _ _ Hc). cbn [i_addrs i_dev set_with set_i_addrs].
    rewrite cut_addrs_at, (iw_dev _ _ _ _ _ _ _ _ Hw), <- slot_direct by lia. unfold truth.
    destruct (Z.eqb_spec (slot V v k) 0) as [Hz|Hz]; cbn [negb].
    + fstep. exists (S k), fs'. split_and!; [done|lia|done|]. rewrite used_blocks_S, Nat.add_0_l, Hz, Z.eqb_refl, app_nil_r.
      replace (cut_addrs (S k)) with (cut_addrs k); [done|]. rewrite <- cut_addrs_S by lia. symmetry. apply list_insert_id.
      rewrite slot_direct in Hz by lia. rewrite <- (cut_addrs_at k) in Hz by lia. rewrite <- Hz.
      apply list_lookup_lookup_total_lt. unfold cut_addrs. rewrite length_app, length_replicate, length_drop. lia.
    + fstep. apply (fwp_free_slot k _ _ _ _ _ Hc); [unfold NSLOTS; lia|done|apply used_new; [unfold NSLOTS; lia|done|unfold NSLOTS; lia|lia]|apply not_elem_of_nil|cbn; lia|].
      intros fs2 Hc2 _. fstep. exists (S k). eexists. split_and!; [done|lia|done|].
      rewrite used_blocks_S, Nat.add_0_l, (proj2 (Z.eqb_neq _ _)) by done. destruct Hc2 as [(V' & bl' & Ht & Hf & Hb) Hm]. split.
      * exists V', bl'. split; [by apply tx_itable|done].
      * destruct Hm as [M1 M2 M3]. split; [|done|done]. cbn [itable set_with set_itable]. rewrite M1, alter_insert_total.
        rewrite list_lookup_total_insert_eq, list_insert_insert_eq by done.
        rewrite <- (cut_addrs_S k) by lia. done.
  - intros w (k & fs' & El & Hk & -> & Hc). assert (k = NDIRECT) as -> by (destruct (NDIRECT - k)%nat eqn:En; [lia|done]). by apply HR.
Qed.

(** The slots in the indirect block. *)
Lemma slot_word (j : nat) : ind v <> 0 -> slot V v (NDIRECT + 1 + j) = word (V (ind v)) j.
Proof.
  intros Hi. unfold slot. rewrite (proj2 (Nat.leb_gt _ _)), (proj2 (Z.eqb_neq _ _)) by (done || lia). f_equal. lia.
Qed.

Lemma cutting_data (l a : list Z) (b : nat) (fs' : fsys) : cutting l a [ind v] fs' -> handle dv fs' b (ind v) -> ind v <> 0 ->
  b_data (bufs fs' !!! b) = V (ind v).
Proof using All.
  intros [(V' & bl' & Ht & [F1 _ _] & _) _] Hb Hi. rewrite (tx_data dv size start nlog pr D Ht b _ Hb). apply F1.
  by apply (iw_used _ _ _ _ _ _ _ _ Hw NDIRECT ndirect_slot).
Qed.

Lemma fwp_cut_words (b : nat) (l a : list Z) (fs1 : fsys) (R : unit -> world -> Prop) :
  cutting l a [ind v] fs1 -> handle dv fs1 b (ind v) -> ind v <> 0 -> l = used_blocks V v 0 NDIRECT ->
  (forall fs', cutting (l ++ used_blocks V v (NDIRECT + 1) NINDIRECT) a [ind v] fs' -> handle dv fs' b (ind v) -> R tt (World [] h ft fs')) ->
  fwp p pr (for_each (seq 0 NINDIRECT) (fun j =>
    w ← get_buf b;
    if truth (word (b_data w) j) then bfree dv (word (b_data w) j) else mret tt)) (World [] h ft fs1) R.
Proof using All.
  intros H0 Hb Hi El HR.
  apply (fwp_for_each p pr (fun m w => exists k fs', m = seq k (NINDIRECT - k) /\ (k <= NINDIRECT)%nat /\ w = World [] h ft fs' /\
    cutting (l ++ used_blocks V v (NDIRECT + 1) k) a [ind v] fs' /\ handle dv fs' b (ind v))).
  - exists 0%nat, fs1. split_and!; [done|lia|done|by rewrite app_nil_r|done].
  - intros x m w (k & fs' & Em & Hk & -> & Hc & Hh). destruct (decide (k = NINDIRECT)) as [->|Hne]; [by rewrite Nat.sub_diag in Em|].
    replace (NINDIRECT - k)%nat with (S (NINDIRECT - S k)) in Em by lia. injection Em as -> ->.
    do 2 fstep. rewrite (cutting_data _ _ _ _ Hc Hh Hi), <- slot_word by done. unfold truth.
    destruct (Z.eqb_spec (slot V v (NDIRECT + 1 + k)) 0) as [Hz|Hz]; cbn [negb].
    + fstep. exists (S k), fs'. split_and!; [done|lia|done| |done]. by rewrite used_blocks_S, Hz, Z.eqb_refl, app_nil_r.
    + apply (fwp_free_slot (NDIRECT + 1 + k) _ _ _ _ _ Hc); [unfold NSLOTS; lia|done| | |cbn; lia|].
      * rewrite El. apply not_elem_of_app. split; apply used_new; first [done|unfold NSLOTS; lia].
      * intros Hin%list_elem_of_singleton. by destruct (iw_used _ _ _ _ _ _ _ _ Hw NDIRECT ndirect_slot Hi) as [_ _ [] _ _ _].
      * intros fs2 Hc2 Kp. exists (S k), fs2. split_and!; [done|lia|done| |].
        -- rewrite used_blocks_S, (proj2 (Z.eqb_neq _ _)), app_assoc by done. done.
        -- apply (ke_handle _ _ _ _ Kp); [by left|done].
  - intros w (k & fs' & Em & Hk & -> & Hc & Hh). assert (k = NINDIRECT) as -> by (destruct (NINDIRECT - k)%nat eqn:En; [lia|done]). by apply HR.
Qed.

Lemma freed_ext (l l' : list Z) (V' : Z -> list Z) : (forall y, y ∈ l <-> y ∈ l') -> freed V l V' -> freed V l' V'.
Proof. intros He [F1 F2 F3]. split; [done| |done]. intros y Hy. rewrite F2 by done. do 2 f_equal. by apply bool_decide_ext. Qed.

Lemma cutting_ext (l l' a hd : list Z) (fs' : fsys) : (forall y, y ∈ l <-> y ∈ l') -> cutting l a hd fs' -> cutting l' a hd fs'.
Proof.
  intros He [(V' & bl' & Ht & Hf & Hb) Hm]. split; [|done]. exists V', bl'. split; [done|]. split; [by apply (freed_ext l)|done].
Qed.

Lemma used_all (y : Z) : y ∈ used_blocks V v 0 NSLOTS <->
  (y ∈ used_blocks V v 0 NDIRECT \/ y ∈ used_blocks V v (NDIRECT + 1) NINDIRECT) \/ y <> 0 /\ y = ind v.
Proof.
  rewrite !elem_of_used_blocks. rewrite <- (slot_ind V v). split.
  - intros [H0 (i & Hi & <-)]. destruct (decide (i = NDIRECT)) as [->|]; [by right|left].
    destruct (decide (i < NDIRECT)%nat); [left|right]; (split; [done|exists i; split; [unfold NSLOTS in *; lia|done]]).
  - intros [[[H0 (i & Hi & <-)]|[H0 (i & Hi & <-)]]|[H0 ->]]; (split; [done|]).
    + exists i. split; [unfold NSLOTS; lia|done].
    + exists i. split; [unfold NSLOTS; lia|done].
    + exists NDIRECT. split; [unfold NSLOTS; lia|done].
Qed.

Lemma no_words : ind v = 0 -> used_blocks V v (NDIRECT + 1) NINDIRECT = [].
Proof.
  intros Hz. apply elem_of_nil_inv. intros y [H0 (i & Hi & <-)]%elem_of_used_blocks. apply H0. unfold slot.
  rewrite (proj2 (Nat.leb_gt _ _)), Hz by lia. done.
Qed.

(** The indirect block, with what it leads to. *)
Lemma fwp_cut_indirect (fs1 : fsys) (R : unit -> world -> Prop) :
  cutting (used_blocks V v 0 NDIRECT) (cut_addrs NDIRECT) [] fs1 ->
  (forall fs', cutting (used_blocks V v 0 NSLOTS) (replicate (NDIRECT + 1) 0) [] fs' -> R tt (World [] h ft fs')) ->
  fwp p pr (v ← get_inode ip;
    (if truth (i_addrs v !!! NDIRECT) then
       bp ← bread (i_dev v) (i_addrs v !!! NDIRECT);
       for_each (seq 0 NINDIRECT) (fun j =>
         w ← get_buf bp;
         if truth (word (b_data w) j) then bfree (i_dev v) (word (b_data w) j) else mret tt);;
       brelse bp;;
       bfree (i_dev v) (i_addrs v !!! NDIRECT);;
       upd_inode ip (fun v => v <| i_addrs := <[ NDIRECT := 0 ]> (i_addrs v) |>)
     else mret tt)) (World [] h ft fs1) R.
Proof using All.
  intros Hc HR. pose proof (iw_len _ _ _ _ _ _ _ _ Hw) as Hl. pose proof (size_small size Hsize) as Hs.
  assert (cut_addrs (S NDIRECT) = replicate (NDIRECT + 1) 0) as Ea.
  { unfold cut_addrs. rewrite drop_ge, app_nil_r by lia. by rewrite Nat.add_1_r. }
  do 2 fstep. rewrite (cutting_inode _ _ _ _ Hc). cbn [i_addrs i_dev set_with set_i_addrs].
  rewrite cut_addrs_at, (iw_dev _ _ _ _ _ _ _ _ Hw) by lia. fold (ind v). unfold truth at 1.
  destruct (Z.eqb_spec (ind v) 0) as [Hz|Hz]; cbn [negb].
  - fstep. apply HR. rewrite <- Ea. replace (cut_addrs (S NDIRECT)) with (cut_addrs NDIRECT).
    + apply (cutting_ext (used_blocks V v 0 NDIRECT)); [|done]. intros y. rewrite used_all, no_words by done.
      split; [by do 2 left|]. intros [[?|?%not_elem_of_nil]|[? ->]]; done.
    + rewrite <- cut_addrs_S by lia. symmetry. apply list_insert_id. fold (ind v) in Hz. rewrite <- Hz. unfold ind.
      rewrite <- (cut_addrs_at NDIRECT) by lia. apply list_lookup_lookup_total_lt.
      unfold cut_addrs. rewrite length_app, length_replicate, length_drop. lia.
  - destruct (iw_used _ _ _ _ _ _ _ _ Hw NDIRECT ndirect_slot) as [U1 U2 U3 U4 U5 U6]; [done|]. rewrite slot_ind in *.
    destruct Hc as [(V1 & bl1 & Ht1 & Hf1 & Hb1) Hm1].
    assert (length bl1 < NBUF)%nat as Hroom by (pose proof (log_add_length bl bm); unfold NBUF, MAXOPBLOCKS in *; destruct Hb1; subst; lia).
    fstep. apply (fwp_tx_bread dv size start nlog p pr D Hp Henv Hs Ht1 (ind v)); [lia|apply not_elem_of_nil|cbn; lia|].
    intros b fs2 Ht2 Hh2 [G1 G2 G3 _]. fstep.
    apply (fwp_cut_words b (used_blocks V v 0 NDIRECT) (cut_addrs NDIRECT)); [|done|done|done|].
    { split; [by exists V1, bl1|]. destruct Hm1 as [M1 M2 M3]. split; [by rewrite G1|congruence|congruence]. }
    intros fs3 [(V3 & bl3 & Ht3 & Hf3 & Hb3) Hm3] Hh3. fstep.
    apply (fwp_tx_brelse dv size start nlog p pr D Hp Henv Hs fs3 _ _ [] b (ind v) h _ Ht3); [apply not_elem_of_nil|done|].
    intros fs4 Ht4 [N1 N2 N3 _]. fstep. rewrite <- (slot_ind V v).
    eapply (fwp_free_slot NDIRECT _ (cut_addrs NDIRECT)); [|apply ndirect_slot|done| |apply not_elem_of_nil|cbn; lia|].
    { split; [exists V3, bl3; split; [exact Ht4|split; [exact Hf3|done]]|]. destruct Hm3 as [M1 M2 M3]. split; [by rewrite N1|congruence|congruence]. }
    { apply not_elem_of_app. split; apply used_new; first [done|unfold NSLOTS; lia]. }
    intros fs5 [(V5 & bl5 & Ht5 & Hf5 & Hb5) Hm5] _. fstep. apply HR. split.
    + exists V5, bl5. split; [by apply tx_itable|]. split; [|done]. eapply freed_ext; [|exact Hf5]. intros y.
      rewrite used_all, !elem_of_app, list_elem_of_singleton, slot_ind. split; intros [?|?]; auto; right; [by subst|tauto].
    + destruct Hm5 as [M1 M2 M3]. split; [|done|done]. cbn [itable set_with set_itable]. rewrite M1, alter_insert_total.
      rewrite list_lookup_total_insert_eq, list_insert_insert_eq by done. rewrite <- Ea, <- (cut_addrs_S NDIRECT) by lia. done.
Qed.

Definition empty_inode : inode := v <| i_addrs := replicate (NDIRECT + 1) 0 |> <| i_size := 0 |>.

Lemma fwp_itrunc (R : unit -> world -> Prop) :
  tx fs V bl [] [] -> length (V bm) = Z.to_nat BSIZE -> IBLOCK (i_inum v) sbk = ib ->
  (forall V1 bl' fs', freed V (used_blocks V v 0 NSLOTS) V1 ->
     tx fs' (put V1 ib (splice (V1 ib) (ioff v) (dinode_bytes empty_inode))) bl' [] [] ->
     (bl' = log_add bl ib \/ bl' = log_add (log_add bl bm) ib) -> moves fs empty_inode fs' -> R tt (World [] h ft fs')) ->
  fwp p pr (itrunc ip) (World [] h ft fs) R.
Proof using All.
  intros Ht Hlen Hib' HR. unfold itrunc.
  assert (cutting [] (i_addrs v) [] fs) as Hc0.
  { split; [exists V, bl; split; [done|split; [by apply freed_nil|by left]]|].
    replace (v <| i_addrs := i_addrs v |>) with (itable fs !!! ip) by (rewrite Hv; by destruct v). by apply (moves_keeps dv ip []), keeps_refl. }
  fstep. apply fwp_cut_direct; [done|]. intros fs1 Hc1.
  apply (fwp_bind_assoc p pr). fstep. apply (fwp_cut_indirect fs1 _ Hc1).
  intros fs2 [(V2 & bl2 & Ht2 & Hf2 & Hb2) Hm2]. do 2 fstep.
  set (fs3 := fs2 <| itable := _ |>).
  assert (moves fs empty_inode fs3) as Hm3.
  { destruct Hm2 as [M1 M2 M3]. split; [|done|done]. unfold fs3. cbn [itable set_with set_itable]. rewrite M1, alter_insert_total.
    by rewrite list_lookup_total_insert_eq, list_insert_insert_eq by done. }
  destruct (moves_inode ip _ _ _ Hip Hm3) as [Hv3 Hip3].
  apply (fwp_iupdate dv size start nlog p pr D sbk ib ip Hp Henv Hsize Hnlog fs3 V2 empty_inode bl2); [by apply tx_itable| |done| |done|done| |].
  - by rewrite (mv_sb _ _ _ _ Hm3).
  - apply (iw_dev _ _ _ _ _ _ _ _ Hw).
  - pose proof (log_add_length bl bm). destruct Hb2; subst; lia.
  - intros fs4 Ht4 [K1 K2 K3 _]. apply (HR V2 (log_add bl2 ib)); [done|exact Ht4| |].
    + destruct Hb2 as [->| ->]; auto.
    + destruct Hm3 as [M1 M2 M3]. split; [by rewrite K1|congruence|congruence].
Qed.
End itrunc.

(** ** [iput] *)

(** The file of inode [v] is gone: its blocks are free, its place in the
    block of inodes has type 0, and all other blocks are as before. *)
Definition dead_dinode (v : inode) : inode := v <| i_addrs := replicate (NDIRECT + 1) 0 |> <| i_size := 0 |> <| i_type := 0 |>.
Definition dead_inode (v : inode) : inode := dead_dinode v <| i_valid := 0 |> <| i_ref := 0 |>.

Record erased (V : Z -> list Z) (v : inode) (V' : Z -> list Z) : Prop := {
  er_bit : forall y, 0 <= y < size -> bit V' bm y = bit V bm y && negb (bool_decide (y ∈ used_blocks V v 0 NSLOTS));
  er_same : forall y, home y -> y <> bm -> y <> ib -> V' y = V y;
  er_dinode : slice (V' ib) (ioff v) 64 = dinode_bytes (dead_dinode v);
  er_rest : forall j, (j < ioff v \/ ioff v + 64 <= j)%nat -> V' ib !!! j = V ib !!! j;
  er_len : length (V' ib) = Z.to_nat BSIZE /\ length (V' bm) = Z.to_nat BSIZE;
}.

Lemma dead_ok (v : inode) : dinode_ok v -> dinode_ok (dead_dinode v).
Proof. clear. intros [D1 D2 D3 D4 D5 D6 D7]. split; try done. cbn. by repeat constructor. Qed.

Lemma erased_intro (V V1 : Z -> list Z) (v : inode) (d : list Z) :
  dinode_ok v -> length (V ib) = Z.to_nat BSIZE -> freed V (used_blocks V v 0 NSLOTS) V1 -> length d = 64%nat ->
  let V2 := put V1 ib (splice (V1 ib) (ioff v) d) in
  erased V v (put V2 ib (splice (V2 ib) (ioff v) (dinode_bytes (dead_dinode v)))).
Proof using Hib_bm Hp.
  intros Hd Hl [F1 F2 F3] Hld V2. pose proof (ioff_range v) as Hr. pose proof (length_dinode _ (dead_ok _ Hd)) as Hl64.
  assert (V1 ib = V ib) as E1 by (by apply F1). assert (V2 ib = splice (V1 ib) (ioff v) d) as E2 by apply put_eq.
  assert (length (V2 ib) = Z.to_nat BSIZE) as Hl2 by (rewrite E2, length_splice; rewrite E1, Hl; [done|lia]).
  split.
  - intros y Hy. unfold bit. rewrite !put_ne by done. unfold V2. rewrite put_ne by done. apply F2. lia.
  - intros y _ Hy1 Hy2. rewrite put_ne by done. unfold V2. rewrite put_ne by done. by apply F1.
  - rewrite put_eq. rewrite <- Hl64. apply slice_splice_eq. lia.
  - intros j Hj. rewrite put_eq, !list_lookup_total_alt, lookup_splice by lia. rewrite decide_False by lia.
    rewrite E2, lookup_splice by (rewrite E1, Hl; lia). rewrite decide_False by lia. by rewrite E1.
  - rewrite put_eq, length_splice by lia. split; [done|]. rewrite put_ne by done. unfold V2. by rewrite put_ne by done.
Qed.

(** What [iput] makes of the entry in the end. *)
Lemma dead_made (v : inode) (l : sleeplock) : i_ref v = 1 -> i_lock v = Sleeplock 0 0 ->
  ((fun v => v <| i_ref := i_ref v - 1 |>) ∘ ((fun x => x <| i_lock := Sleeplock 0 0 |>) ∘ (fun v => v <| i_valid := 0 |>)))
    (dead_dinode (v <| i_lock := l |>)) = dead_inode v.
Proof. clear. destruct v. cbn. by intros -> ->. Qed.

(** With other references, or with a name left, only the count changes. *)
Lemma fwp_iput_keep (fs : fsys) (R : unit -> world -> Prop) :
  let v := itable fs !!! ip in
  (i_ref v =? 1) && (i_nlink v =? 0) = false ->
  R tt (World [] h ft (fs <| itable := alter (fun v => v <| i_ref := i_ref v - 1 |>) ip (itable fs) |>)) ->
  fwp p pr (iput ip) (World [] h ft fs) R.
Proof.
  intros v Hk HR. unfold iput. do 4 fstep. fold v.
  assert ((i_ref v =? 1) && truth (i_valid v) && (i_nlink v =? 0) = false) as ->.
  { destruct (i_ref v =? 1), (i_nlink v =? 0), (truth (i_valid v)); done. }
  do 2 fstep. do 2 fstep. fstep. exact HR.
Qed.

(** The last reference to an inode without a name. *)
Lemma fwp_iput_last (fs : fsys) (V : Z -> list Z) (v : inode) (bl : list Z) (R : unit -> world -> Prop) :
  tx fs V bl [] [] -> sb fs = sbk -> (ip < length (itable fs))%nat -> itable fs !!! ip = v ->
  i_ref v = 1 -> i_nlink v = 0 -> i_valid v <> 0 -> i_lock v = Sleeplock 0 0 -> inode_wf V v -> dinode_ok v ->
  length (V bm) = Z.to_nat BSIZE -> length (V ib) = Z.to_nat BSIZE -> IBLOCK (i_inum v) sbk = ib ->
  Z.of_nat (length bl) + 3 <= MAXOPBLOCKS ->
  (forall V' bl' fs', tx fs' V' bl' [] [] -> erased V v V' -> bl' <> [] -> (length bl' <= length bl + 2)%nat ->
     moves fs (dead_inode v) fs' -> R tt (World [] h ft fs')) ->
  fwp p pr (iput ip) (World [] h ft fs) R.
Proof using All.
  intros Ht Hsbf Hip Hv Hr Hn Hva Hlk Hw Hd Hlb Hli Hib' Hbl HR. unfold iput. do 4 fstep. rewrite Hv, Hr, Hn.
  assert (truth (i_valid v) = true) as -> by (unfold truth; by rewrite (proj2 (Z.eqb_neq _ _))). cbn [Z.eqb Pos.eqb andb].
  do 2 fstep. apply fwp_acquiresleep_held; [unlocked|cbn [sl_of]; by rewrite Hv, Hlk|]. cbn [sl_set].
  set (vl := v <| i_lock := Sleeplock 1 (p_pid pr) |>). set (fs1 := fs <| itable := _ |>).
  assert (moves fs vl fs1) as Hm1.
  { split; [|done|done]. unfold fs1. cbn [itable set_with set_itable]. by rewrite alter_insert_total, Hv. }
  destruct (moves_inode ip _ _ _ Hip Hm1) as [Hv1 Hip1]. do 2 fstep. fstep.
  apply (fwp_itrunc fs1 V vl bl); try done.
  { by destruct Hw. }
  { lia. }
  { by apply tx_itable. }
  intros V1 bl1 fs2 Hf1 Ht2 Hbl1 Hm2. pose proof (moves_trans ip _ _ _ _ _ Hm1 Hm2) as Hm12.
  do 2 fstep. set (fs3 := fs2 <| itable := _ |>). set (vd := dead_dinode vl).
  assert (moves fs vd fs3) as Hm3.
  { destruct Hm12 as [M1 M2 M3]. split; [|done|done]. unfold fs3. cbn [itable set_with set_itable]. rewrite M1, alter_insert_total.
    by rewrite list_lookup_total_insert_eq, list_insert_insert_eq by done. }
  destruct (moves_inode ip _ _ _ Hip Hm3) as [Hv3 Hip3]. fstep.
  assert (ib ∈ bl1 /\ (length bl1 <= length bl + 2)%nat) as [Hin Hlen1].
  { pose proof (log_add_length bl bm). pose proof (log_add_length bl ib). pose proof (log_add_length (log_add bl bm) ib).
    destruct Hbl1 as [->| ->]; (split; [apply log_add_self|lia]). }
  apply (fwp_iupdate dv size start nlog p pr D sbk ib ip Hp Henv Hsize Hnlog fs3 _ vd bl1 _ (tx_itable _ _ _ _ _ _ _ _ _ _ _ _ Ht2)); try done.
  { by rewrite (mv_sb _ _ _ _ Hm3). }
  { apply (iw_dev _ _ _ _ _ _ _ _ Hw). }
  { lia. }
  intros fs4 Ht4 [K1 K2 K3 _]. do 2 fstep. set (fs5 := fs4 <| itable := _ |>). fstep. apply fwp_releasesleep. cbn [sl_set].
  do 4 fstep. rewrite log_add_fixed in Ht4 by done. cbn [itable set_with set_itable fs5]. rewrite !list_alter_alter_eq.
  eapply (HR _ bl1); [do 3 apply tx_itable; exact Ht4| |by intros ->; apply not_elem_of_nil in Hin|done|].
  - refine (erased_intro V V1 v (dinode_bytes (empty_inode vl)) Hd Hli Hf1 _). apply length_dinode.
    destruct Hd as [D1 D2 D3 D4 D5 D6 D7]. split; try done. cbn. by repeat constructor.
  - destruct Hm3 as [M1 M2 M3]. split; [|cbn; congruence|cbn; congruence]. cbn [itable set_with set_itable]. rewrite K1, M1, alter_insert_total.
    rewrite list_lookup_total_insert_eq, list_insert_insert_eq by done. f_equal. by apply dead_made.
Qed.
End trunc.

(** ** A transaction without writes *)
Section quiet.
Context {E : Env}.
Context (dv size start nlog : Z) (p : nat) (pr : proc).
Context {ft : ftable} {h : heap}.

Lemma fwp_end_op_nil (fs : fsys) (R : unit -> world -> Prop) :
  logging dv start nlog 1 [] (log fs) ->
  (forall l, logging dv start nlog 0 [] l -> R tt (World [] h ft (fs <| log := l |>))) ->
  fwp p pr end_op (World [] h ft fs) R.
Proof.
  intros [Hi L1 L2 L3] HR. unfold end_op. do 2 fstep. fstep. apply fwp_upd_log. fstep. apply fwp_get_log.
  cbn [log log_committing log_outstanding set_with set_log set_log_outstanding]. rewrite L3, L2.
  change (truth 0) with false. change (1 - 1 =? 0) with true. cbv iota.
  do 2 fstep. apply fwp_upd_log. do 3 fstep. fstep. unfold commit. fstep. apply fwp_get_log.
  cbn [log lh_n set_with set_log set_log_outstanding set_log_committing]. rewrite (li_n _ _ _ _ Hi). change (0 <? Z.of_nat (length [])) with false. cbv iota.
  do 3 fstep. fstep. apply fwp_upd_log. do 3 fstep. apply HR. destruct Hi as [I1 I2 I3 I4 I5]. by split.
Qed.

Lemma fwp_tx_end_nil (D : gmap Z (list Z)) (fs : fsys) (V : Z -> list Z) (R : unit -> world -> Prop) :
  tx dv size start nlog pr D fs V [] [] [] -> length (V start) = 1024%nat -> word (V start) 0 = 0 ->
  (forall l, rest dv size start nlog pr (fs <| log := l |>) V -> R tt (World [] h ft (fs <| log := l |>))) ->
  fwp p pr end_op (World [] h ft fs) R.
Proof.
  intros [Hc Hl _ _ _ _] Hlen Hempty HR. apply fwp_end_op_nil; [done|]. intros l Hl0. apply HR. split; [|done|done|done].
  apply cache_log. apply (cache_ext _ _ _ _ _ _ _ _ _ _ Hc); [done|done|]. intros x. unfold nolock, tx_locks. by rewrite bool_decide_false by apply not_elem_of_nil.
Qed.
End quiet.

(** ** [fileclose] *)
Section fileclose.
Context {L : Linker} {LOk : LinkerOk L} {E : Env} {H : Hw}.
Context (dv size start nlog : Z) (p : nat) (pr : proc) (sbk : superblock) (ib : Z) (ip f : nat).
Context {h : heap}.

#[local] Abbreviation bm := (sb_bmapstart sbk).
#[local] Abbreviation rest := (rest dv size start nlog pr).
#[local] Abbreviation home := (home size start nlog).
#[local] Abbreviation erased := (erased size start nlog bm ib).
#[local] Abbreviation recovers := (recovers dv size start nlog).

(** The file table after the call. *)
Definition close_ft (ft : ftable) : ftable :=
  ft <| files := alter (fun v => if 1 <? f_ref v then v <| f_ref := f_ref v - 1 |> else v <| f_ref := 0 |> <| f_type := FD_NONE |>) f (files ft) |>.

Lemma close_ft_alter (ft : ftable) (g : file -> file) :
  g (files ft !!! f) = (if 1 <? f_ref (files ft !!! f) then (files ft !!! f) <| f_ref := f_ref (files ft !!! f) - 1 |>
                        else (files ft !!! f) <| f_ref := 0 |> <| f_type := FD_NONE |>) ->
  ft <| files := alter g f (files ft) |> = close_ft ft.
Proof. intros Hg. unfold close_ft. destruct ft as [fl pp]. unfold set_files, set_with. cbn in *. f_equal. by apply alter_ext_total. Qed.

(** The blocks and the inode after the call: the inode loses a reference with
    the last one to the open file, and the file goes with the last one to an
    inode without names. *)
Definition closed (ft : ftable) (V V' : Z -> list Z) (v v' : inode) : Prop :=
  if 1 <? f_ref (files ft !!! f) then V' = V /\ v' = v
  else if (i_ref v =? 1) && (i_nlink v =? 0) then erased V v V' /\ v' = dead_inode v
  else V' = V /\ v' = v <| i_ref := i_ref v - 1 |>.

Hypothesis Hp : (p < NPROC)%nat.
Hypothesis Henv : disk_serves p.
Hypothesis Hly : layout dv size start nlog sbk ib.

Lemma erased_ext (V V1 V2 : Z -> list Z) (v : inode) : (forall x, home x -> V2 x = V1 x) -> erased V v V1 -> erased V v V2.
Proof using Hly.
  intros Hx [R1 R2 R3 R4 [R5 R6]]. pose proof (ly_bm _ _ _ _ _ _ Hly) as Hbm. pose proof (ly_ib _ _ _ _ _ _ Hly) as Hib.
  split; rewrite ?(Hx ib), ?(Hx bm) by done; try done.
  - intros y Hy. unfold bit. rewrite Hx by done. by apply R1.
  - intros y Hy. rewrite Hx by done. by apply R2.
Qed.

(** The transaction of the last reference. *)
Lemma fwp_close_inode (ft : ftable) (fs : fsys) V (v : inode) (R : unit -> world -> Prop) :
  rest fs V -> sb fs = sbk -> (ip < length (itable fs))%nat -> itable fs !!! ip = v -> file_ready dv size start nlog sbk ib V v ->
  (forall fs' V' v' ws, rest fs' V' ->
     (if (i_ref v =? 1) && (i_nlink v =? 0) then erased V v V' /\ v' = dead_inode v else V' = V /\ v' = v <| i_ref := i_ref v - 1 |>) ->
     itable fs' = <[ ip := v' ]> (itable fs) -> sb fs' = sb fs ->
     disk fs' = replay (disk fs) ws -> writes fs' = rev ws ++ writes fs ->
     (forall k, exists committed : bool, recovers (replay (disk fs) (take k ws)) (if committed then V' else V)) ->
     R tt (World [] h ft fs')) ->
  fwp p pr (begin_op;; ip ← deref (Some ip); iput ip;; end_op) (World [] h ft fs) R.
Proof using LOk Hp Henv Hly H.
  intros Hre Hsbf Hip Hv [R1 R2 R3 R4 R5 R6 R7 R8 R9] HR. destruct Hly as [Y1 Y2 Y3 Y4 Y5 Y6 Y7 Y8 Y9 Y10].
  pose proof Hre as [Q1 Q2 Q3 Q4]. assert (size < 2 ^ 31) as Hsz by (unfold BPB, BSIZE in *; lia).
  fstep. apply (fwp_tx_begin dv size start nlog p pr Hp fs V); [done|]. intros l Ht. unfold deref. do 3 fstep.
  set (fs1 := fs <| log := l |>) in *. assert (itable fs1 !!! ip = v) as Hv1 by done.
  destruct ((i_ref v =? 1) && (i_nlink v =? 0)) eqn:Eg.
  - apply andb_true_iff in Eg as [Hr%Z.eqb_eq Hn%Z.eqb_eq].
    apply (fwp_iput_last dv size start nlog p pr (disk fs) sbk bm ib ip) with (V := V) (v := v) (bl := []); try done; try lia.
    { destruct Y8. lia. }
    { apply R5. }
    intros V1 bl1 fs2 Ht2 Her Hne Hl1 Hm2. cbn [length] in Hl1.
    apply (fwp_tx_end dv size start nlog p pr Hp Henv Hsz Y1 Y4 Y5 Y6 (disk fs) fs2 V V1 bl1); try done.
    { unfold MAXOPBLOCKS. lia. }
    { intros x Hx. by apply (ca_clean _ _ _ _ _ _ _ Q1). }
    intros fs3 V3 ws Hre3 HV3 (W1 & W2 & W3 & W4) Hcrash. apply (HR fs3 V3 (dead_inode v) ws); [done| | | | | |done].
    + split; [|done]. by apply (erased_ext V V1).
    + by rewrite W4, (mv_itable _ _ _ _ Hm2).
    + by rewrite W3, (mv_sb _ _ _ _ Hm2).
    + by rewrite W1, (tx_disk _ _ _ _ _ _ _ _ _ _ _ Ht2).
    + by rewrite W2, (mv_writes _ _ _ _ Hm2).
  - apply fwp_iput_keep; [by rewrite Hv1|]. set (fs2 := fs1 <| itable := _ |>).
    apply (fwp_tx_end_nil dv size start nlog p pr (disk fs) fs2 V); [by apply tx_itable|done|done|]. intros l2 Hre2.
    apply (HR _ V (v <| i_ref := i_ref v - 1 |>) []); [done|done| |done|done|done|].
    + unfold fs2. cbn [itable set_with set_itable set_log fs1]. by rewrite alter_insert_total, Hv.
    + intros k. exists false. rewrite take_nil. by apply (rest_recovers dv size start nlog pr).
Qed.

Lemma fwp_fileclose (ft : ftable) (fs : fsys) V (v : inode) (R : unit -> world -> Prop) :
  rest fs V -> sb fs = sbk -> (ip < length (itable fs))%nat -> itable fs !!! ip = v -> file_ready dv size start nlog sbk ib V v ->
  (f < length (files ft))%nat -> 1 <= f_ref (files ft !!! f) -> f_type (files ft !!! f) = FD_INODE -> f_ip (files ft !!! f) = Some ip ->
  (forall fs' V' v' ws, rest fs' V' -> closed ft V V' v v' -> itable fs' = <[ ip := v' ]> (itable fs) -> sb fs' = sb fs ->
     disk fs' = replay (disk fs) ws -> writes fs' = rev ws ++ writes fs ->
     (forall k, exists committed : bool, recovers (replay (disk fs) (take k ws)) (if committed then V' else V)) ->
     R tt (World [] h (close_ft ft) fs')) ->
  fwp p pr (fileclose f) (World [] h ft fs) R.
Proof using LOk Hp Henv Hly H.
  intros Hre Hsbf Hip Hv Hrd Hf Hr Hty Hfip HR. unfold fileclose. do 3 fstep. apply fwp_get_file.
  rewrite (proj2 (Z.ltb_ge _ _)) by done. fstep. apply fwp_upd_file. fstep. apply fwp_get_file.
  cbn [files set_with set_files]. rewrite list_lookup_total_alter_eq by done. cbn [f_ref set_with set_f_ref].
  destruct (Z.ltb_spec 0 (f_ref (files ft !!! f) - 1)) as [Hlt|Hge].
  - fstep. assert (ft <| files := alter (fun v => v <| f_ref := f_ref v - 1 |>) f (files ft) |> = close_ft ft) as ->.
    { apply close_ft_alter. by rewrite (proj2 (Z.ltb_lt _ _)) by lia. }
    apply (HR fs V v []); [done| |symmetry; apply list_insert_id; rewrite <- Hv; by apply list_lookup_lookup_total_lt|done|done|done|].
    + unfold closed. by rewrite (proj2 (Z.ltb_lt _ _)) by lia.
    + intros k. exists false. rewrite take_nil. destruct Hly as [Y1 Y2 Y3 Y4 Y5 Y6 Y7 Y8 Y9 Y10].
      apply (rest_recovers dv size start nlog pr); try done. unfold BPB, BSIZE in Y2. lia.
  - fstep. apply fwp_upd_file. do 2 fstep. cbn [f_type f_ip set_with set_f_ref]. rewrite Hty, Hfip.
    cbn [files set_with set_files]. rewrite list_alter_alter_eq.
    match goal with |- fwp _ _ _ (World [] h ?t _) _ => assert (t = close_ft ft) as -> end.
    { rewrite <- (close_ft_alter ft ((fun v => v <| f_ref := 0 |> <| f_type := FD_NONE |>) ∘ (fun v => v <| f_ref := f_ref v - 1 |>))); [done|].
      rewrite (proj2 (Z.ltb_ge _ _)) by lia. by destruct (files ft !!! f). }
    apply (fwp_close_inode (close_ft ft) fs V v); [done..|]. intros fs' V' v' ws H1 H2 H3 H4 H5 H6 H7.
    apply (HR fs' V' v' ws); try done. unfold closed. by rewrite (proj2 (Z.ltb_ge _ _)) by lia.
Qed.
End fileclose.

(** C11. Closing a file gives back what nobody needs, safely against crashes.
    [fileclose] takes one reference from the open file.  With the last one the
    entry of the file table is free again and the inode loses a reference; with
    the last reference to an inode without names, every block of the file, its
    indirect block included, becomes free in the bitmap, the inode on disk gets
    type 0 and size 0, and no other bit, inode or block changes.  The disk
    writes are one transaction: when the machine stops after any number [k] of
    them and starts again, [initlog] ends with the file as it was or with all
    of it gone. *)
Theorem fileclose_frees {L : Linker} {LOk : LinkerOk L} {E : Env} {H : Hw} (dv size start nlog : Z) (p : nat) (pr : proc)
    (sbk : superblock) (ib : Z) (ip f : nat) (V : Z -> list Z) (h : heap) (ft : ftable) (s : kstate) :
  let v := itable (k_fs s) !!! ip in let fv := files ft !!! f in
  (p < NPROC)%nat -> disk_serves p -> layout dv size start nlog sbk ib ->
  inw p pr (World [] h ft (k_fs s)) s -> sb (k_fs s) = sbk -> rest dv size start nlog pr (k_fs s) V ->
  (ip < length (itable (k_fs s)))%nat -> file_ready dv size start nlog sbk ib V v ->
  (f < length (files ft))%nat -> 1 <= f_ref fv -> f_type fv = FD_INODE -> f_ip fv = Some ip ->
  runs (fileclose f) s (fun _ s' => exists V' v' ws,
    inw p pr (World [] h (close_ft f ft) (k_fs s')) s' /\
    closed size start nlog sbk ib f ft V V' v v' /\ rest dv size start nlog pr (k_fs s') V' /\
    itable (k_fs s') = <[ ip := v' ]> (itable (k_fs s)) /\
    disk (k_fs s') = replay (disk (k_fs s)) ws /\ writes (k_fs s') = rev ws ++ writes (k_fs s) /\
    forall k, exists committed : bool,
      recovers dv size start nlog (replay (disk (k_fs s)) (take k ws)) (if committed then V' else V)).
Proof.
  intros v fv Hp Henv Hly Hin Hsb Hre Hip Hrd Hf Hr Hty Hfip.
  eapply runs_mono; [apply (fwp_fileclose (h := h) dv size start nlog p pr sbk ib ip f Hp Henv Hly ft (k_fs s) V v)
    with (R := fun _ w => exists V' v' ws, w = World [] h (close_ft f ft) (w_fs w) /\
      closed size start nlog sbk ib f ft V V' v v' /\ rest dv size start nlog pr (w_fs w) V' /\
      itable (w_fs w) = <[ ip := v' ]> (itable (k_fs s)) /\
      disk (w_fs w) = replay (disk (k_fs s)) ws /\ writes (w_fs w) = rev ws ++ writes (k_fs s) /\
      forall k, exists committed : bool,
        recovers dv size start nlog (replay (disk (k_fs s)) (take k ws)) (if committed then V' else V)); try done|].
  - intros fs' V' v' ws H1 H2 H3 _ H5 H6 H7. by exists V', v', ws.
  - intros [] s' (w & Hw & V' & v' & ws & Ew & Hrest). exists V', v', ws. rewrite (in_fs _ _ _ _ Hw). rewrite <- Ew. by split.
Qed.

(** The disk of the file of 1000 bytes in block 14, after the file's only name
    has been removed while it is open. *)
Definition ufile : inode := wfile <| i_nlink := 0 |>.
Definition ublock (x : Z) : list Z := if x =? 13 then splice zeros 64 (dinode_bytes ufile) else wblock x.
Definition ufs (bufs : list buf) : fsys :=
  (wfs bufs) <| disk := list_to_map ((fun i => (Z.of_nat i, ublock (Z.of_nat i))) <$> seq 0 32) |> <| itable := [ufile] |>.
Definition ustate (h : heap) (bufs : list buf) : kstate := (wstate h bufs) <| k_fs := ufs bufs |>.

Lemma ufs_block (bufs : list buf) (x : Z) : 0 <= x < 32 -> disk (ufs bufs) !! x = Some (ublock x).
Proof.
  intros Hx. unfold ufs. cbn [disk set_with set_disk set_itable]. apply elem_of_list_to_map_1.
  - rewrite <- list_fmap_compose. apply NoDup_fmap_2_strong; [|apply NoDup_seq]. cbn. intros; lia.
  - apply list_elem_of_fmap. exists (Z.to_nat x). rewrite Z2Nat.id by lia. split; [done|]. apply elem_of_seq. lia.
Qed.

Section udisk.
Context (V : Z -> list Z).
Hypothesis HV : forall x, 0 <= x < 32 -> V x = ublock x.

(** The blocks of the linked file, with the same bitmap. *)
Lemma uready : file_ready 1 32 0 12 wsb 13 V ufile.
Proof using HV.
  pose (W := fun x => if decide (0 <= x < 32) then wblock x else V x).
  assert (forall x, 0 <= x < 32 -> W x = wblock x) as HW by (intros x Hx; unfold W; by rewrite decide_True).
  assert (forall x, x <> 13 -> V x = W x) as EV.
  { intros x Hx. unfold W. destruct (decide (0 <= x < 32)); [|done]. rewrite HV by done. unfold ublock. by rewrite (proj2 (Z.eqb_neq _ _)). }
  assert (V 12 = W 12) as E12 by (by apply EV). assert (forall y, bit V 12 y = bit W 12 y) as Eb by (intros y; unfold bit; by rewrite E12).
  assert (forall i, slot V ufile i = slot W wfile i) as Es by (intros i; unfold slot; by destruct (Nat.leb i NDIRECT)).
  destruct (wready W HW) as [R1 R2 R3 R4 R5 R6 R7 R8 R9].
  split; [exact R1|exact R2|exact R3| | |exact R6| | |].
  - destruct R4 as [W1 W2 W3 W4 W5 W6 W7]. split; [exact W1|exact W2|exact W3|by rewrite Eb| | |].
    + intros i Hi. rewrite Es. intros Hz. destruct (W5 i Hi Hz). split; rewrite ?Eb, ?EV; done.
    + intros i j. rewrite !Es. apply W6.
    + intros bn H1 H2. rewrite Es. by apply W7.
  - destruct R5 as [B1 B2]. split; [change (sb_bmapstart wsb) with 12 in *; by rewrite E12|]. intros x Hx. rewrite Eb. by apply B2.
  - destruct R7. by split.
  - rewrite HV by lia. by vm_compute.
  - rewrite HV by lia. by vm_compute.
Qed.

Lemma ubit : bit V 12 13 = true.
Proof using HV. unfold bit. rewrite HV by lia. by vm_compute. Qed.

Lemma uused : used_blocks V ufile 0 NSLOTS = [14].
Proof.
  unfold used_blocks. vm_compute. reflexivity.
Qed.
End udisk.

Lemma fileclose_frees_witness : exists h bufs,
  runs (fileclose (L := demo_linker) (E := machine_env) 0) (ustate h bufs) (fun _ s' => exists V' ws,
    itable (k_fs s') = [dead_inode ufile] /\ f_ref (files (k_ft s') !!! 0%nat) = 0 /\
    bit V' 12 14 = false /\ bit V' 12 13 = true /\
    forall k, exists committed : bool, recovers (E := machine_env) 1 32 0 12 (replay (disk (ufs bufs)) (take k ws))
      (if committed then V' else fun x => disk (ufs bufs) !!! x)).
Proof.
  destruct user_demo as (h & Hu & Hub). destruct demo_ring as [bufs Hr]. exists h, bufs.
  set (V := fun x => disk (ufs bufs) !!! x) in *.
  assert (forall x, 0 <= x < 32 -> V x = ublock x) as HV.
  { intros x Hx. apply lookup_total_correct. by apply ufs_block. }
  set (pr := procs user_pt !!! 0%nat).
  pose proof (fileclose_frees (L := demo_linker) (LOk := demo_linker_ok) (E := machine_env) (H := demo_hw) 1 32 0 12 0 pr wsb 13 0 0 V h wft
    (ustate h bufs)) as Hrun.
  eapply runs_mono; [apply Hrun; clear Hrun|].
  - vm_compute. lia.
  - exact (machine_serves 0).
  - split; try done; unfold home; cbn; lia.
  - split; try done; [exists demo_ctl; split; [done|]; split; [exact demo_idle|reflexivity]|by exists RUNNING, Ch0].
  - done.
  - split; [|by repeat split|rewrite HV by lia; reflexivity|rewrite HV by lia; reflexivity].
    refine (ring_cache 1 32 pr (ufs bufs) Hr _ _); [discriminate|]. intros x Hx. eexists. by apply ufs_block.
  - cbn. lia.
  - exact (uready V HV).
  - cbn. lia.
  - vm_compute. discriminate.
  - reflexivity.
  - reflexivity.
  - intros r s' (V' & v' & ws & Hin & Hcl & _ & Hit & _ & _ & Hcr). exists V', ws.
    change (erased 32 0 12 12 13 V ufile V' /\ v' = dead_inode ufile) in Hcl. destruct Hcl as [Her ->]. pose proof (er_bit _ _ _ _ _ _ _ _ Her) as B1. clear Her.
    rewrite (in_ft _ _ _ _ Hin). split; [exact Hit|]. split; [reflexivity|].
    rewrite uused in B1. split; [|split; [|exact Hcr]]; rewrite B1 by lia.
    + by rewrite andb_false_r.
    + by rewrite (ubit V HV).
Defined.
