(* ===== verification/Exec.v ===== *)
(** * System call arguments and exec (kernel/syscall.c, kernel/exec.c)

    Fetching the arguments of a system call from the trap frame and from user
    memory, and replacing the memory of a process by a program file. *)
From S2P Require Import Prelude Memory Riscv State Spinlock Cstring Kalloc Vm Proc Plic Console Virtio Sleeplock Bio Log Fs Pipe File.

(** ** kernel/proc.h: offsets of the fields of struct trapframe *)
Definition tf_kernel_satp : Z := 0.
Definition tf_kernel_sp : Z := 8.
Definition tf_kernel_trap : Z := 16.
Definition tf_epc : Z := 24.
Definition tf_kernel_hartid : Z := 32.
Definition tf_sp : Z := 48.
Definition tf_a0 : Z := 112.
Definition tf_a1 : Z := 120.
Definition tf_a7 : Z := 168.
Definition sizeof_trapframe : Z := 288.

(** [safestrcpy] between two arrays of the kernel: the new contents of [s]. *)
Definition safestrcpy_arr (s t : list Z) : list Z :=
  let n := length s in
  load (safestrcpy (store (store ∅ 0 s) (Z.of_nat n) (t ++ [0])) 0 (Z.of_nat n) (Z.of_nat n)) 0 n.

Section exec.
Context {L : Linker} {E : Env} {H : Hw}.

(** ** kernel/syscall.c: arguments *)

(** The result and the word. *)
Definition fetchaddr (addr : Z) : M (Z * Z) :=
  p ← curproc;
  pr ← get_proc p;
  if (p_sz pr <=? addr) || (p_sz pr <? u64 (addr + 8)) then mret (-1, 0) else
  r ← copyin (p_pagetable pr) addr 8;
  if negb (r.1 =? 0) then mret (-1, 0) else mret (0, le_combine r.2).

(** The result and the bytes written to the buffer. *)
Definition fetchstr (addr max : Z) : M (Z * list Z) :=
  p ← curproc;
  pr ← get_proc p;
  r ← copyinstr (p_pagetable pr) addr (u64 max);
  if r.1 <? 0 then mret r else mret (Z.of_nat (length (cstr r.2)), r.2).

Definition argraw (n : Z) : M Z :=
  p ← curproc;
  pr ← get_proc p;
  if (0 <=? n) && (n <=? 5) then ld64 (p_trapframe pr + tf_a0 + 8 * n) else panic "argraw".

Definition argint (n : Z) : M Z := v ← argraw n; mret (i32 v).
Definition argaddr (n : Z) : M Z := argraw n.
(** The result and the string, without its terminator. *)
Definition argstr (n max : Z) : M (Z * list Z) :=
  addr ← argaddr n;
  r ← fetchstr addr max;
  mret (r.1, cstr r.2).

(** ** kernel/elf.h *)
Definition ELF_MAGIC : Z := 0x464C457F.
Definition ELF_PROG_LOAD : Z := 1.
Record elfhdr := Elfhdr { elf_magic : Z; elf_entry : Z; elf_phoff : Z; elf_phnum : Z }.
Definition elfhdr_of (bs : list Z) : elfhdr :=
  Elfhdr (le_combine (slice bs 0 4)) (le_combine (slice bs 24 8)) (le_combine (slice bs 32 8))
    (le_combine (slice bs 56 2)).
Definition sizeof_elfhdr : Z := 64.
Record proghdr := Proghdr { ph_type : Z; ph_off : Z; ph_vaddr : Z; ph_filesz : Z; ph_memsz : Z }.
Definition proghdr_of (bs : list Z) : proghdr :=
  Proghdr (le_combine (slice bs 0 4)) (le_combine (slice bs 8 8)) (le_combine (slice bs 16 8))
    (le_combine (slice bs 32 8)) (le_combine (slice bs 40 8)).
Definition sizeof_proghdr : Z := 56.

(** ** kernel/exec.c *)
Definition loadseg (pagetable va : Z) (ip : nat) (offset sz : Z) : M Z :=
  loop (fun i =>
    if negb (i <? sz) then mret (inr 0) else
    pa ← walkaddr pagetable (u64 (va + i));
    if pa =? 0 then panic "loadseg: address should exist" else
    let n := if u32 (sz - i) <? PGSIZE then u32 (sz - i) else PGSIZE in
    r ← readi ip (ToKernel pa) (u32 (offset + i)) n;
    if negb (u32 r.1 =? n) then mret (inr (-1)) else
    mret (inl (u32 (i + PGSIZE)))) 0.

(** The loop over the program headers: the size of the image so far, and
    whether all went well. *)
Definition load_image (pagetable : Z) (ip : nat) (elf : elfhdr) : M (Z * bool) :=
  loop (fun '(i, off, sz) =>
    if negb (i <? elf_phnum elf) then mret (inr (sz, true)) else
    r ← readi ip ToVar (u32 off) sizeof_proghdr;
    if negb (r.1 =? sizeof_proghdr) then mret (inr (sz, false)) else
    let ph := proghdr_of r.2 in
    if negb (ph_type ph =? ELF_PROG_LOAD) then mret (inl (i + 1, i32 (off + sizeof_proghdr), sz)) else
    if ph_memsz ph <? ph_filesz ph then mret (inr (sz, false)) else
    if u64 (ph_vaddr ph + ph_memsz ph) <? ph_vaddr ph then mret (inr (sz, false)) else
    sz1 ← uvmalloc pagetable sz (u64 (ph_vaddr ph + ph_memsz ph));
    if sz1 =? 0 then mret (inr (sz, false)) else
    if negb (ph_vaddr ph mod PGSIZE =? 0) then mret (inr (sz1, false)) else
    r ← loadseg pagetable (ph_vaddr ph) ip (u32 (ph_off ph)) (u32 (ph_filesz ph));
    if r <? 0 then mret (inr (sz1, false)) else
    mret (inl (i + 1, i32 (off + sizeof_proghdr), sz1))) (0, i32 (elf_phoff elf), 0).

(** The length of a string of the kernel, which fits in a page. *)
Definition kstrlen (a : Z) : M Z :=
  m ← get_mem;
  match strlen (at_addr m a) (Z.to_nat PGSIZE) with Some n => mret n | None => spin end.

(** The loop that pushes the argument strings: the stack pointer and the
    addresses of the strings, or a failure. *)
Definition push_args (pagetable sp stackbase : Z) (argv : list Z) : M (option (Z * list Z)) :=
  loop (fun '(sp, argv, ustack) =>
    match argv with
    | [] => mret (inr (Some (sp, ustack)))
    | a :: argv =>
        if (MAXARG <=? length ustack)%nat then mret (inr None) else
        len ← kstrlen a;
        let sp := u64 (sp - (len + 1)) in
        let sp := u64 (sp - sp mod 16) in
        if sp <? stackbase then mret (inr None) else
        m ← get_mem;
        r ← copyout pagetable sp (load m a (Z.to_nat (len + 1)));
        if r <? 0 then mret (inr None) else
        mret (inl (sp, argv, ustack ++ [sp]))
    end) (sp, argv, []).

(** The part of [path] after its last slash. *)
Fixpoint last_elem (last path : list Z) : list Z :=
  match path with
  | [] => last
  | c :: path => last_elem (if c =? slash then path else last) path
  end.

(** [argv] is the array of pointers to strings, without its final 0. *)
Definition exec (path argv : list Z) : M Z :=
  p ← curproc;
  begin_op;;
  ip ← namei path;
  match ip with
  | None => end_op;; mret (-1)
  | Some ip =>
  let bad pagetable sz (open : bool) :=
    (if truth pagetable then proc_freepagetable pagetable sz else mret tt);;
    (if open then iunlockput ip;; end_op else mret tt);;
    mret (-1) in
  ilock ip;;
  r ← readi ip ToVar 0 sizeof_elfhdr;
  if negb (r.1 =? sizeof_elfhdr) then bad 0 0 true else
  let elf := elfhdr_of r.2 in
  if negb (elf_magic elf =? ELF_MAGIC) then bad 0 0 true else
  pagetable ← proc_pagetable p;
  if pagetable =? 0 then bad 0 0 true else
  r ← load_image pagetable ip elf;
  let '(sz, ok) := r in
  if negb ok then bad pagetable sz true else
  iunlockput ip;;
  end_op;;
  p ← curproc;
  pr ← get_proc p;
  let oldsz := p_sz pr in
  let sz := PGROUNDUP sz in
  sz1 ← uvmalloc pagetable sz (u64 (sz + 2 * PGSIZE));
  if sz1 =? 0 then bad pagetable sz false else
  let sz := sz1 in
  uvmclear pagetable (u64 (sz - 2 * PGSIZE));;
  let stackbase := u64 (sz - PGSIZE) in
  r ← push_args pagetable sz stackbase argv;
  match r with
  | None => bad pagetable sz false
  | Some (sp, ustack) =>
  let argc := Z.of_nat (length ustack) in
  let sp := u64 (sp - (argc + 1) * 8) in
  let sp := u64 (sp - sp mod 16) in
  if sp <? stackbase then bad pagetable sz false else
  r ← copyout pagetable sp ((ustack ++ [0]) ≫= le_split 8);
  if r <? 0 then bad pagetable sz false else
  st64 (p_trapframe pr + tf_a1) sp;;
  upd_proc p (fun v => v <| p_name := safestrcpy_arr (p_name v) (last_elem path path) |>);;
  let oldpagetable := p_pagetable pr in
  upd_proc p (fun v => v <| p_pagetable := pagetable |>);;
  upd_proc p (fun v => v <| p_sz := sz |>);;
  st64 (p_trapframe pr + tf_epc) (elf_entry elf);;
  st64 (p_trapframe pr + tf_sp) sp;;
  proc_freepagetable oldpagetable oldsz;;
  mret argc
  end
  end.

End exec.
