(* ===== verification/Fork.v ===== *)
(** * Creating and ending processes (kernel/proc.c: userinit, fork, exit) *)
From S2P Require Import Prelude Memory Riscv State Spinlock Cstring Kalloc Vm Proc Plic Console Virtio Sleeplock Bio Log Fs Pipe File Exec.

(** kernel/fcntl.h *)
Definition PROT_READ : Z := 1.
Definition PROT_WRITE : Z := 2.
Definition PROT_EXEC : Z := 4.
Definition MAP_SHARED : Z := 1.
Definition MAP_PRIVATE : Z := 2.

#[export] Instance vma_inhabited : Inhabited vma := populate (Vma 0 0 0 None 0 0 0 0).
Definition upd_vma (p i : nat) (f : vma -> vma) : M unit :=
  upd_proc p (fun v => v <| p_vma := alter f i (p_vma v) |>).
Definition upd_ofile (p fd : nat) (f : option nat) : M unit :=
  upd_proc p (fun v => v <| p_ofile := <[ fd := f ]> (p_ofile v) |>).

(** The program of the first process, which calls exec("/init"). *)
Definition initcode : list Z :=
  [0x17; 0x05; 0x00; 0x00; 0x13; 0x05; 0x45; 0x02;
   0x97; 0x05; 0x00; 0x00; 0x93; 0x85; 0x35; 0x02;
   0x93; 0x08; 0x70; 0x00; 0x73; 0x00; 0x00; 0x00;
   0x93; 0x08; 0x20; 0x00; 0x73; 0x00; 0x00; 0x00;
   0xef; 0xf0; 0x9f; 0xff; 0x2f; 0x69; 0x6e; 0x69;
   0x74; 0x00; 0x00; 0x24; 0x00; 0x00; 0x00; 0x00;
   0x00; 0x00; 0x00; 0x00].

Section fork.
Context {L : Linker} {E : Env} {H : Hw}.

Definition userinit : M unit :=
  p ← allocproc;
  modify (fun s => s <| k_pt := (k_pt s) <| initproc := p |> |>);;
  p ← deref p;
  pr ← get_proc p;
  uvminit (p_pagetable pr) initcode;;
  upd_proc p (fun v => v <| p_sz := PGSIZE |>);;
  st64 (p_trapframe pr + tf_epc) 0;;
  st64 (p_trapframe pr + tf_sp) PGSIZE;;
  upd_proc p (fun v => v <| p_name := safestrcpy_arr (p_name v) (bytes_of "initcode") |>);;
  ip ← namei (bytes_of "/");
  upd_proc p (fun v => v <| p_cwd := ip |>);;
  upd_proc p (fun v => v <| p_state := RUNNABLE |>);;
  release (L_proc p).

Definition fork : M Z :=
  p ← curproc;
  np ← allocproc;
  match np with
  | None => mret (-1)
  | Some np =>
  pr ← get_proc p;
  npr ← get_proc np;
  r ← uvmcopy (p_pagetable pr) (p_pagetable npr) (p_sz pr);
  if r <? 0 then freeproc np;; release (L_proc np);; mret (-1) else
  upd_proc np (fun v => v <| p_sz := p_sz pr |>);;
  memmove_at (p_trapframe npr) (p_trapframe pr) sizeof_trapframe;;
  st64 (p_trapframe npr + tf_a0) 0;;
  for_each (seq 0 NOFILE) (fun i =>
    pr ← get_proc p;
    match p_ofile pr !!! i with
    | Some f => f ← filedup f; upd_ofile np i (Some f)
    | None => mret tt
    end);;
  pr ← get_proc p;
  cwd ← deref (p_cwd pr);
  cwd ← idup cwd;
  upd_proc np (fun v => v <| p_cwd := Some cwd |>);;
  upd_proc np (fun v => v <| p_name := safestrcpy_arr (p_name v) (cstr (p_name pr)) |>);;
  npr ← get_proc np;
  let pid := p_pid npr in
  release (L_proc np);;
  acquire L_wait;;
  upd_proc np (fun v => v <| p_parent := Some p |>);;
  release L_wait;;
  acquire (L_proc np);;
  upd_proc np (fun v => v <| p_state := RUNNABLE |>);;
  for_each (seq 0 VMASIZE) (fun i =>
    pr ← get_proc p;
    let v := p_vma pr !!! i in
    if truth (v_valid v) then
      upd_vma np i (fun _ => v);;
      f ← deref (v_f v);
      filedup f;;
      mret tt
    else mret tt);;
  release (L_proc np);;
  mret pid
  end.

(** The calls that end with [sched] never come back; a return from it panics. *)
Definition exit (status : Z) : M unit :=
  p ← curproc;
  i ← gets (fun s => initproc (k_pt s));
  if bool_decide (Some p = i) then panic "init exiting" else
  for_each (seq 0 NOFILE) (fun fd =>
    pr ← get_proc p;
    match p_ofile pr !!! fd with
    | Some f => fileclose f;; upd_ofile p fd None
    | None => mret tt
    end);;
  for_each (seq 0 VMASIZE) (fun i =>
    pr ← get_proc p;
    let v := p_vma pr !!! i in
    if truth (v_valid v) then
      (if truth (Z.land (v_flags v) MAP_SHARED) then
         f ← deref (v_f v); filewrite f (v_addr v) (v_len v);; mret tt
       else mret tt);;
      f ← deref (v_f v);
      fileclose f;;
      uvmunmap (p_pagetable pr) (v_addr v) (u64 (Z.quot (v_len v) PGSIZE)) true;;
      upd_vma p i (fun v => v <| v_valid := 0 |>)
    else mret tt);;
  begin_op;;
  pr ← get_proc p;
  cwd ← deref (p_cwd pr);
  iput cwd;;
  end_op;;
  upd_proc p (fun v => v <| p_cwd := None |>);;
  acquire L_wait;;
  reparent p;;
  pr ← get_proc p;
  wakeup (match p_parent pr with Some q => ChProc q | None => Ch0 end);;
  acquire (L_proc p);;
  upd_proc p (fun v => v <| p_xstate := status |>);;
  upd_proc p (fun v => v <| p_state := ZOMBIE |>);;
  release L_wait;;
  sched;;
  panic "zombie exit".

End fork.
