(* ===== verification/ForkSpec.v ===== *)
(** * Theorems on fork *)
From S2P Require Import Prelude Memory Riscv State Spinlock Cstring Kalloc Steps Pagetable Vm VmSpec Uvm Freewalk AddressSpace Proc ProcSpec ProcMem Plic Console Virtio Sleeplock Bio Log Fs Pipe File Exec Fork.

Section memory.
Context {L : Linker} {LOk : LinkerOk L}.

(** The memory after [fork]: the child, with the page table [root] and the
    trapframe page [tf], has a copy of the parent's memory in pages that were
    free, and the parent's trapframe but for a0, which is 0; the parent is as
    before, and no byte outside the pages that were free has changed. *)
Record forked (RP : Z -> Prop) (old ptf sz root tf : Z) (h h' : heap) (fl fl' : list Z) : Prop := {
  fk_child : puser (fun q => q ∈ fl) root tf h' fl';
  fk_parent : puser (rest RP fl fl') old ptf h' fl';
  fk_frame : frame (fun q => q ∈ fl) (mem h) (mem h');
  fk_copy : forall va, 0 <= va < TRAPFRAME ->
    ucell (mem h') root va = if va <? PGROUNDUP sz then ucell (mem h) old va else None;
  fk_same : forall va, 0 <= va < TRAPFRAME -> ucell (mem h') old va = ucell (mem h) old va;
  fk_regs : forall i, 0 <= i < sizeof_trapframe -> byte_at (mem h') (tf + i) =
    if (tf_a0 <=? i) && (i <? tf_a0 + 8) then 0 else byte_at (mem h) (ptf + i);
}.

Section copy.
Context (RP : Z -> Prop) (old ptf sz root tf : Z) (h h1 : heap) (fl fl1 : list Z).
Let R (q : Z) : Prop := q ∈ fl.
Hypothesis Hparent : puser RP old ptf h fl.
Hypothesis Hchild : puser R root tf h1 fl1.
Hypothesis HF1 : frame R (mem h) (mem h1).
Hypothesis Hnone : forall va, 0 <= va < TRAPFRAME -> valid (pte_of (mem h1) root va) = false.
Hypothesis Hsz : 0 <= sz <= TRAPFRAME.
Hypothesis Hdense : dense (mem h) old (PGROUNDUP sz).

Lemma fork_apart : apart R RP fl.
Proof. by intros q Hq _. Qed.
Lemma fork_pages (q : Z) : R q -> page_ok q.
Proof using Hchild. apply (as_ok _ _ _ _ _ _ (pu_space _ _ _ _ _ Hchild)). Qed.

Lemma copied_top (h2 : heap) (fl2 : list Z) :
  aspace R TRAPFRAME root h2 fl2 [tf] -> (forall va, TRAPFRAME <= va < MAXVA -> trans (mem h2) root va = trans (mem h1) root va) ->
  puser R root tf h2 fl2.
Proof using Hchild LOk.
  clear Hparent HF1 Hnone Hsz Hdense. intros Has2 HT. destruct Hchild as [Has Ptr Ptf]. destruct trampoline_pa as (T1 & T2 & T3).
  assert (page_ok tf) as Htf by (apply (as_list_ok Has), elem_of_app; right; by left).
  pose proof (page_ok_56 _ Htf) as Tf1. pose proof (page_ok_aligned _ Htf) as Tf2.
  destruct top_bounds as (B1 & B2 & B3 & B4 & B5).
  assert (forall va e, TRAPFRAME <= va < MAXVA -> valid e = true -> pte_of (mem h1) root va = e -> pte_of (mem h2) root va = e) as Hk.
  { intros va e Hva Hv He. specialize (HT va Hva). unfold trans in HT. rewrite He, Hv in HT.
    by destruct (valid (pte_of (mem h2) root va)); [injection HT|]. }
  split; [done| |]; apply Hk; try done; try plia; apply leaf_valid; try done; try lia; unfold PGSIZE in T2; lia.
Qed.

Lemma fork_uvmcopy :
  hwp (uvmcopy old root sz) h1 (fun r h2 => exists fl2, puser R root tf h2 fl2 /\ frame R (mem h) (mem h2) /\
    (r = -1 /\ (forall va, 0 <= va < TRAPFRAME -> valid (pte_of (mem h2) root va) = false) \/
     r = 0 /\ forall va, 0 <= va < TRAPFRAME -> ucell (mem h2) root va = if va <? PGROUNDUP sz then ucell (mem h) old va else None)).
Proof using All.
  destruct Hparent as [Has0 _ _]. destruct Hchild as [Has1 _ _].
  destruct (lim_u64 _ _ _ _ _ _ _ Has1 Hsz) as (_ & Hup & Hup2 & Hup3).
  apply (uvmcopy_spec R (rest RP fl fl1) TRAPFRAME old root sz h1 fl1 [tf] [ptf]).
  - done.
  - apply (other_aspace Has0 fork_apart fork_pages HF1 Has1).
  - intros q Hq [[_ Hn]|Hq']; [by destruct Hn|done].
  - done.
  - intros va Hva. apply Hnone. lia.
  - intros va Hva. destruct (Hdense va Hva) as (x & Hx & E2 & E1 & Hv). exists x. split_and!; try done; try lia.
    by rewrite (other_pte_of Has0 fork_apart fork_pages HF1).
  - intros h2 fl2 Has2 Hss F2. exists fl2. split_and!; [|by etransitivity|].
    + apply copied_top; [done|]. intros va Hva. apply Hss. pose proof top_bounds. lia.
    + left. split; [done|]. intros va Hva. apply trans_None. rewrite (ss_trans _ _ _ _ Hss).
      * unfold trans. by rewrite Hnone.
      * pose proof (as_lim _ _ _ _ _ _ Has1). lia.
  - intros h2 fl2 Has2 [Hnew Hold] F2. exists fl2. split_and!; [|by etransitivity|].
    + apply copied_top; [done|]. intros va Hva. unfold trans. rewrite Hold; [done|pose proof top_bounds; lia|lia].
    + right. split; [done|]. intros va Hva. destruct (Z.ltb_spec va (PGROUNDUP sz)).
      * rewrite Hnew by lia. by apply (other_cell Has0 fork_apart fork_pages HF1).
      * unfold ucell, trans. rewrite Hold; [by rewrite Hnone|pose proof (as_lim _ _ _ _ _ _ Has1); lia|lia].
Qed.

(** The trapframe is copied, and the child's a0 set to 0. *)
Lemma trapframe_bytes (m : memory) (i : Z) : 0 <= i < sizeof_trapframe ->
  byte_at (store64 (memmove m tf ptf sizeof_trapframe) (tf + tf_a0) 0) (tf + i) =
  if (tf_a0 <=? i) && (i <? tf_a0 + 8) then 0 else byte_at m (ptf + i).
Proof.
  intros Hi. rewrite byte_at_store64_0. change sizeof_trapframe with 288 in *. change tf_a0 with 112 in *.
  replace ((tf + 112 <=? tf + i) && (tf + i <? tf + 112 + 8)) with ((112 <=? i) && (i <? 112 + 8)) by lia.
  destruct (_ && _); [done|]. rewrite memmove_store, byte_at_store, length_load by lia.
  rewrite (proj2 (Z.leb_le _ _)), (proj2 (Z.ltb_lt _ _)) by lia. cbn [andb].
  rewrite nth_load, u8_small by (lia || apply byte_at_range). f_equal. lia.
Qed.

Lemma trapframe_page (m : memory) :
  same_on (fun x => ~ in_page tf x) m (store64 (memmove m tf ptf sizeof_trapframe) (tf + tf_a0) 0).
Proof.
  intros x Hx. unfold in_page, PGSIZE in Hx. change tf_a0 with 112. change sizeof_trapframe with 288.
  rewrite byte_at_store64_0, memmove_store by lia. replace (_ && _) with false by lia.
  apply byte_at_store_out. rewrite length_load. lia.
Qed.

Lemma fork_memory (h2 : heap) (fl2 : list Z) :
  puser R root tf h2 fl2 -> frame R (mem h) (mem h2) ->
  (forall va, 0 <= va < TRAPFRAME -> ucell (mem h2) root va = if va <? PGROUNDUP sz then ucell (mem h) old va else None) ->
  forked RP old ptf sz root tf h (h2 <| mem := store64 (memmove (mem h2) tf ptf sizeof_trapframe) (tf + tf_a0) 0 |>) fl fl2.
Proof using Hparent Hchild LOk.
  intros [Has2 Ptr Ptf] F2 Hcell. set (m3 := store64 _ _ _).
  pose proof (trapframe_page (mem h2)) as Hs. fold m3 in Hs. destruct Hparent as [Has0 Ptr0 Ptf0].
  assert (tf ∈ fl2 ++ [tf]) as Hin by (apply elem_of_app; right; by left).
  destruct (as_loose_write R TRAPFRAME root h2 fl2 [tf] tf m3 Has2 ltac:(by left) Hs) as [Has3 HP].
  assert (forall va, pte_of m3 root va = pte_of (mem h2) root va) as HP'.
  { intros va. apply HP; [apply inner_va|apply PX_idx; lia]. }
  assert (frame R (mem h) m3) as F3.
  { etransitivity; [exact F2|]. eapply frame_mono; [by apply frame_page|]. intros q ->. by apply (as_list_R Has2). }
  assert (page_ok tf) as Htf by (by apply (as_list_ok Has2)).
  set (h3 := h2 <| mem := m3 |>) in *. assert (mem h3 = m3) as E3 by done. rewrite <- E3 in HP', F3.
  split.
  - split; [exact Has3|by rewrite HP'|by rewrite HP'].
  - split; [apply (other_aspace Has0 fork_apart fork_pages F3 Has3)| |];
      by rewrite (other_pte_of Has0 fork_apart fork_pages F3).
  - exact F3.
  - intros va Hva. rewrite <- Hcell by done. apply ucell_same; [apply HP'|]. intros p Hn.
    pose proof (as_node_ok Has2 (path_of va) p ltac:(by apply owned_va) Hn) as Hpok.
    rewrite E3. apply (frame_in_page (fun q => q = tf)); [by apply frame_page|apply Hpok|by intros q ->; apply Htf|].
    intros ->. by apply (as_excl _ _ _ _ _ _ Has2 (path_of va) tf ltac:(by apply owned_va) Hn).
  - intros va Hva. by apply (other_cell Has0 fork_apart fork_pages F3).
  - intros i Hi. rewrite E3. unfold m3. rewrite trapframe_bytes by done. destruct (_ && _); [done|].
    assert (page_ok ptf) as Hptf by (apply (as_list_ok Has0), elem_of_app; right; by left).
    apply (frame_in_page _ _ _ ptf F2); [apply Hptf|intros q Hq; by apply fork_pages| |].
    + intros Hq. pose proof (as_nodup _ _ _ _ _ _ Has0) as Hn. apply list.NoDup_app in Hn as (_ & Hd & _).
      apply (Hd ptf Hq). by left.
    + unfold in_page, PGSIZE. change sizeof_trapframe with 288 in Hi. lia.
Qed.
End copy.
End memory.

(** ** References to open files *)
Definition count (f : nat) (l : list (option nat)) : Z := Z.of_nat (length (filter (fun o => o = Some f) l)).

(** Each file has as many references more as it has entries in [l]. *)
Record dup_refs (l : list (option nat)) (ft ft' : ftable) : Prop := {
  dr_pipes : pipes ft' = pipes ft;
  dr_length : length (files ft') = length (files ft);
  dr_files : forall f, (f < length (files ft))%nat ->
    files ft' !!! f = (files ft !!! f) <| f_ref := f_ref (files ft !!! f) + count f l |>;
}.

Lemma set_ref_eq (v v' : file) (a b : Z) : v = v' -> a = b -> v <| f_ref := a |> = v' <| f_ref := b |>.
Proof. by intros -> ->. Qed.
Lemma set_ref_twice (v : file) (a b : Z) : v <| f_ref := a |> <| f_ref := b |> = v <| f_ref := b |>.
Proof. done. Qed.

Lemma count_nonneg (f : nat) (l : list (option nat)) : 0 <= count f l.
Proof. unfold count. lia. Qed.

Lemma count_app (f : nat) (l l' : list (option nat)) : count f (l ++ l') = count f l + count f l'.
Proof. unfold count. rewrite list.filter_app, length_app. lia. Qed.

Lemma count_one (f g : nat) : count g [Some f] = if decide (f = g) then 1 else 0.
Proof. unfold count. rewrite list.filter_cons. by repeat case_decide; try congruence. Qed.

Lemma dup_refs_nil (ft : ftable) : dup_refs [] ft ft.
Proof. split; [done|done|]. intros f Hf. unfold count. cbn. rewrite Z.add_0_r. by destruct (files ft !!! f). Qed.

Lemma dup_refs_none (l : list (option nat)) (ft ft' : ftable) : dup_refs l ft ft' -> dup_refs (l ++ [None]) ft ft'.
Proof.
  intros [H1 H2 H3]. split; [done|done|]. intros f Hf. rewrite H3, count_app by done.
  by replace (count f [None]) with 0 by done; rewrite Z.add_0_r.
Qed.

Lemma dup_refs_some (l : list (option nat)) (f : nat) (ft ft' : ftable) :
  (f < length (files ft))%nat -> dup_refs l ft ft' ->
  dup_refs (l ++ [Some f]) ft (ft' <| files := alter (fun v => v <| f_ref := f_ref v + 1 |>) f (files ft') |>).
Proof.
  intros Hf [H1 H2 H3]. split; [done|cbn; by rewrite length_alter|]. intros g Hg. cbn [files set_with set_files].
  rewrite count_app, alter_insert_total. destruct (decide (f = g)) as [<-|Hne].
  - rewrite list_lookup_total_insert_eq by (by rewrite H2). rewrite H3 by done.
    rewrite count_one, decide_True by done. rewrite set_ref_twice. apply set_ref_eq; [done|]. cbn. lia.
  - rewrite list_lookup_total_insert_ne by done. rewrite H3 by done.
    rewrite count_one, decide_False by done. apply set_ref_eq; [done|lia].
Qed.

Lemma dup_refs_app (l l' : list (option nat)) (ft ft1 ft2 : ftable) :
  dup_refs l ft ft1 -> dup_refs l' ft1 ft2 -> dup_refs (l ++ l') ft ft2.
Proof.
  intros [A1 A2 A3] [B1 B2 B3]. split; [congruence|congruence|]. intros f Hf.
  rewrite B3, A3, count_app by lia. rewrite set_ref_twice. apply set_ref_eq; [done|]. cbn. lia.
Qed.

(** The entries of [l] are open files. *)
Definition opened (ft : ftable) (l : list (option nat)) : Prop :=
  forall f, Some f ∈ l -> (f < length (files ft))%nat /\ 1 <= f_ref (files ft !!! f).

Lemma opened_dup (l l' : list (option nat)) (ft ft' : ftable) : dup_refs l ft ft' -> opened ft l' -> opened ft' l'.
Proof.
  intros [H1 H2 H3] Ho f Hf. destruct (Ho f Hf) as [Hlt Hr]. split; [lia|]. rewrite H3 by done. cbn.
  pose proof (count_nonneg f l). lia.
Qed.

Lemma kfiledup (c : ctl) h pt ft fs vd dev n (f : nat) (Q : nat -> kstate -> Prop) :
  cpu_ok c -> lock_free L_ftable c -> 1 <= f_ref (files ft !!! f) ->
  Q f (KState c h pt (ft <| files := alter (fun v => v <| f_ref := f_ref v + 1 |>) f (files ft) |>) fs vd dev n) ->
  runs (filedup f) (KState c h pt ft fs vd dev n) Q.
Proof.
  intros Hc Hl Hr HQ. unfold filedup. do 4 kstep. rewrite (proj2 (Z.ltb_ge _ _)) by done. by ksteps.
Qed.

Lemma splice_S {A} (k : nat) (l l' : list A) (x : A) :
  l !! k = Some x -> length l = length l' -> <[ k := x ]> (take k l ++ drop k l') = take (S k) l ++ drop (S k) l'.
Proof.
  intros Hx Hl. pose proof (lookup_lt_Some _ _ _ Hx) as Hk.
  destruct (lookup_lt_is_Some_2 l' k) as [y Hy]; [lia|].
  rewrite (drop_S l' y k Hy), (take_S_r l k x Hx), <- app_assoc.
  rewrite insert_app_r_alt by (rewrite length_take; lia). rewrite length_take.
  by replace (k - k `min` length l)%nat with 0%nat by lia.
Qed.

Lemma splice_id {A} (k : nat) (l l' : list A) (x : A) :
  l !! k = Some x -> l' !! k = Some x -> take k l ++ drop k l' = take (S k) l ++ drop (S k) l'.
Proof. intros Hx Hy. by rewrite (drop_S l' x k Hy), (take_S_r l k x Hx), <- app_assoc. Qed.

(** ** The loops of fork *)
Section loops.
Context (p np : nat) (c : ctl) (h : heap) (pt : ptable) (w : proc) (ft : ftable) (fs : fsys) (vd : vdisk) (dev : devs) (n : nat).
Let pr : proc := procs pt !!! p.
Hypothesis Hc : cpu_ok c.
Hypothesis Hfree : lock_free L_ftable c.
Hypothesis Hne : p <> np.
Hypothesis Hnp : (np < length (procs pt))%nat.

Lemma kdup_ofile (Q : unit -> kstate -> Prop) :
  length (p_ofile pr) = NOFILE -> p_ofile w = replicate NOFILE None -> opened ft (p_ofile pr) ->
  (forall ft', dup_refs (p_ofile pr) ft ft' -> Q tt (KState c h (with_proc pt np (w <| p_ofile := p_ofile pr |>)) ft' fs vd dev n)) ->
  runs (for_each (seq 0 NOFILE) (fun i =>
    pr ← get_proc p;
    match p_ofile pr !!! i with
    | Some f => f ← filedup f; upd_ofile np i (Some f)
    | None => mret tt
    end)) (KState c h (with_proc pt np w) ft fs vd dev n) Q.
Proof using All.
  intros Hlen Hw Ho HQ.
  apply (runs_for_each (fun l s => exists k ft1, l = seq k (NOFILE - k) /\ (k <= NOFILE)%nat /\ dup_refs (take k (p_ofile pr)) ft ft1 /\
    s = KState c h (with_proc pt np (w <| p_ofile := take k (p_ofile pr) ++ drop k (p_ofile w) |>)) ft1 fs vd dev n)).
  - exists 0%nat, ft. split_and!; [done|lia|apply dup_refs_nil|]. by destruct w.
  - intros i l s (k & ft1 & El & Hk & Hd & ->). destruct (decide (k = NOFILE)) as [->|Hk']; [by rewrite Nat.sub_diag in El|].
    replace (NOFILE - k)%nat with (S (NOFILE - S k)) in El by lia. injection El as -> ->.
    destruct (lookup_lt_is_Some_2 (p_ofile pr) k) as [o Hok]; [lia|].
    assert (p_ofile w !! k = Some None) as Hwk by (rewrite Hw; apply lookup_replicate; split; [done|lia]).
    apply runs_bind, kget_other; [done|]. fold pr. rewrite (list_lookup_total_correct _ _ _ Hok). destruct o as [f|].
    + destruct (opened_dup _ _ _ _ Hd Ho f) as [Hf1 Hf2]; [by eapply list_elem_of_lookup_2|].
      destruct (Ho f) as [Hf _]; [by eapply list_elem_of_lookup_2|].
      apply runs_bind, kfiledup; [done|done|done|]. apply kupd_slot; [done|].
      exists (S k), (ft1 <| files := alter (fun v => v <| f_ref := f_ref v + 1 |>) f (files ft1) |>).
      split_and!; [done|lia| |].
      * rewrite (take_S_r _ _ _ Hok). by apply dup_refs_some.
      * rewrite <- (splice_S k _ _ (Some f)) by (done || by rewrite Hw, length_replicate). done.
    + apply runs_ret. exists (S k), ft1. split_and!; [done|lia| |].
      * rewrite (take_S_r _ _ _ Hok). by apply dup_refs_none.
      * by rewrite <- (splice_id k _ _ None).
  - intros s (k & ft1 & El & Hk & Hd & ->). assert (k = NOFILE) as -> by (destruct (NOFILE - k)%nat eqn:E; [lia|done]).
    rewrite firstn_all2 in * by lia. rewrite drop_ge by (rewrite Hw, length_replicate; lia). rewrite app_nil_r. by apply HQ.
Qed.

(** The mappings of the child: the valid ones of the parent. *)
Definition merge_vma (v w : vma) : vma := if truth (v_valid v) then v else w.
Definition vma_files (l : list vma) : list (option nat) := map (fun v => if truth (v_valid v) then v_f v else None) l.

Lemma kdup_vma (Q : unit -> kstate -> Prop) :
  length (p_vma pr) = VMASIZE -> length (p_vma w) = VMASIZE -> opened ft (vma_files (p_vma pr)) ->
  (forall v, v ∈ p_vma pr -> truth (v_valid v) = true -> v_f v <> None) ->
  (forall ft', dup_refs (vma_files (p_vma pr)) ft ft' ->
     Q tt (KState c h (with_proc pt np (w <| p_vma := zip_with merge_vma (p_vma pr) (p_vma w) |>)) ft' fs vd dev n)) ->
  runs (for_each (seq 0 VMASIZE) (fun i =>
    pr ← get_proc p;
    let v := p_vma pr !!! i in
    if truth (v_valid v) then
      upd_vma np i (fun _ => v);;
      f ← deref (v_f v);
      filedup f;;
      mret tt
    else mret tt)) (KState c h (with_proc pt np w) ft fs vd dev n) Q.
Proof using All.
  intros Hlen Hw Ho Hf HQ. set (M := zip_with merge_vma (p_vma pr) (p_vma w)) in *.
  assert (length M = VMASIZE) as HM by (unfold M; rewrite length_zip_with; lia).
  apply (runs_for_each (fun l s => exists k ft1, l = seq k (VMASIZE - k) /\ (k <= VMASIZE)%nat /\ dup_refs (take k (vma_files (p_vma pr))) ft ft1 /\
    s = KState c h (with_proc pt np (w <| p_vma := take k M ++ drop k (p_vma w) |>)) ft1 fs vd dev n)).
  - exists 0%nat, ft. split_and!; [done|lia|apply dup_refs_nil|]. by destruct w.
  - intros i l s (k & ft1 & El & Hk & Hd & ->). destruct (decide (k = VMASIZE)) as [->|Hk']; [by rewrite Nat.sub_diag in El|].
    replace (VMASIZE - k)%nat with (S (VMASIZE - S k)) in El by lia. injection El as -> ->.
    destruct (lookup_lt_is_Some_2 (p_vma pr) k) as [v Hv]; [lia|].
    destruct (lookup_lt_is_Some_2 (p_vma w) k) as [v' Hv']; [lia|].
    assert (M !! k = Some (merge_vma v v')) as HMk by (unfold M; rewrite lookup_zip_with, Hv; cbn; by rewrite Hv').
    assert (vma_files (p_vma pr) !! k = Some (if truth (v_valid v) then v_f v else None)) as Hfk
      by (unfold vma_files; rewrite list_lookup_fmap, Hv; done).
    apply runs_bind, kget_other; [done|]. fold pr. rewrite (list_lookup_total_correct _ _ _ Hv). cbv zeta.
    unfold merge_vma in HMk. destruct (truth (v_valid v)) eqn:Hval.
    + apply runs_bind, kupd_slot; [done|]. specialize (Hf v ltac:(by eapply list_elem_of_lookup_2) Hval).
      destruct (v_f v) as [f|]; [|done]. apply runs_bind, runs_ret.
      destruct (opened_dup _ _ _ _ Hd Ho f) as [Hf1 Hf2]; [by eapply list_elem_of_lookup_2|].
      destruct (Ho f) as [Hf3 _]; [by eapply list_elem_of_lookup_2|].
      apply runs_bind, kfiledup; [done|done|done|]. apply runs_ret.
      exists (S k), (ft1 <| files := alter (fun v => v <| f_ref := f_ref v + 1 |>) f (files ft1) |>).
      split_and!; [done|lia| |].
      * rewrite (take_S_r _ _ _ Hfk). by apply dup_refs_some.
      * rewrite <- (splice_S k _ _ v) by (done || by rewrite HM). cbn. by rewrite alter_insert_total.
    + apply runs_ret. exists (S k), ft1. split_and!; [done|lia| |].
      * rewrite (take_S_r _ _ _ Hfk). by apply dup_refs_none.
      * by rewrite <- (splice_id k _ _ v').
  - intros s (k & ft1 & El & Hk & Hd & ->). assert (k = VMASIZE) as -> by (destruct (VMASIZE - k)%nat eqn:E; [lia|done]).
    rewrite (firstn_all2 M) in * by lia. rewrite drop_ge, app_nil_r by lia. apply HQ.
    by rewrite firstn_all2 in Hd by (unfold vma_files; rewrite length_map; lia).
Qed.
End loops.

(** [safestrcpy] to an array copies the string, cut to leave room for the terminator. *)
Lemma safestrcpy_arr_cstr (s t : list Z) :
  (0 < length s)%nat -> Forall (fun c => 0 < c < 256) t -> cstr (safestrcpy_arr s t) = take (length s - 1) t.
Proof.
  intros Hs Ht. unfold safestrcpy_arr. set (n := length s) in *. set (m := store (store ∅ 0 s) (Z.of_nat n) (t ++ [0])).
  destruct (safestrcpy_terminates m 0 (Z.of_nat n) (Z.of_nat n)) as (j & Hj & Hc & Hz & He & _); [lia|lia|].
  set (m' := safestrcpy m 0 (Z.of_nat n) (Z.of_nat n)) in *.
  assert (forall x, (x < length t)%nat -> 0 < nth x t 0 < 256) as Htx.
  { intros x Hx. exact (proj1 (List.Forall_forall _ _) Ht _ (nth_In _ _ Hx)). }
  assert (forall x, (x <= length t)%nat -> byte_at m (Z.of_nat n + Z.of_nat x) = nth x t 0) as Hm.
  { intros x Hx. unfold m. rewrite byte_at_store, length_app. cbn [length].
    rewrite (proj2 (Z.leb_le _ _)), (proj2 (Z.ltb_lt _ _)) by lia. cbn [andb].
    replace (Z.to_nat (Z.of_nat n + Z.of_nat x - Z.of_nat n)) with x by lia.
    destruct (decide (x = length t)) as [->|Hne].
    - rewrite app_nth2, Nat.sub_diag by lia. by rewrite (nth_overflow t) by lia.
    - rewrite app_nth1 by lia. apply u8_small. specialize (Htx x ltac:(lia)). unfold is_byte. lia. }
  assert (Z.to_nat j = (n - 1) `min` length t)%nat as Ej.
  { assert (Z.to_nat j <= length t)%nat.
    { destruct (decide (Z.to_nat j <= length t)%nat) as [|Hgt]; [done|]. destruct (Hc (Z.of_nat (length t))) as [_ H0]; [lia|].
      rewrite Hm, nth_overflow in H0 by lia. done. }
    destruct He as [->|He]; [lia|]. replace j with (Z.of_nat (Z.to_nat j)) in He by lia. rewrite Hm in He by lia.
    destruct (decide (Z.to_nat j < length t)%nat) as [Hlt|]; [|lia]. specialize (Htx _ Hlt). lia. }
  assert (forall x, (x < Z.to_nat j)%nat -> nth x (load m' 0 n) 0 = nth x t 0 /\ nth x t 0 <> 0) as Hx.
  { intros x Hx. rewrite nth_load by lia. destruct (Hc (Z.of_nat x)) as [E1 E2]; [lia|]. rewrite Hm in E1, E2 by lia. by rewrite E1. }
  rewrite (cstr_take _ (Z.to_nat j)).
  - apply (nth_ext _ _ 0 0); [rewrite !length_take, length_load; lia|]. intros x Hx'. rewrite length_take, length_load in Hx'.
    rewrite !nth_firstn. rewrite (proj2 (Nat.ltb_lt _ _)), (proj2 (Nat.ltb_lt _ _)) by lia. apply Hx. lia.
  - intros x Hx'. by destruct (Hx x Hx') as [-> ?].
  - rewrite nth_load by lia. replace (0 + Z.of_nat (Z.to_nat j)) with (0 + j) by lia. done.
Qed.

(** ** fork *)
Section fork.
Context {L : Linker} {LOk : LinkerOk L}.

(** An unused slot of the process table, as [freeproc] and [exit] leave it. *)
Record idle_slot (v : proc) : Prop := {
  id_pagetable : p_pagetable v = 0;
  id_sz : p_sz v = 0;
  id_ofile : p_ofile v = replicate NOFILE None;
  id_vma : length (p_vma v) = VMASIZE /\ Forall (fun w => v_valid w = 0) (p_vma v);
  id_name : length (p_name v) = 16%nat;
}.

(** A process that may fork. *)
Record parent_ok (RP : Z -> Prop) (v : proc) (ip : nat) (h : heap) (fl : list Z) (ft : ftable) : Prop := {
  po_state : p_state v <> UNUSED;
  po_space : puser RP (p_pagetable v) (p_trapframe v) h fl;
  po_sz : 0 <= p_sz v <= TRAPFRAME;
  po_dense : dense (mem h) (p_pagetable v) (PGROUNDUP (p_sz v));
  po_ofile : length (p_ofile v) = NOFILE /\ opened ft (p_ofile v);
  po_vma : length (p_vma v) = VMASIZE /\ opened ft (vma_files (p_vma v)) /\
    forall w, w ∈ p_vma v -> truth (v_valid w) = true -> v_f w <> None;
  po_cwd : p_cwd v = Some ip;
  po_name : Forall is_byte (p_name v);
}.

(** The child [v], in the slot that held [v0]. *)
Record child_of (p : nat) (pr v0 : proc) (pid : Z) (v : proc) : Prop := {
  ch_state : p_state v = RUNNABLE;
  ch_pid : p_pid v = pid;
  ch_parent : p_parent v = Some p;
  ch_sz : p_sz v = p_sz pr;
  ch_ofile : p_ofile v = p_ofile pr;
  ch_cwd : p_cwd v = p_cwd pr;
  ch_name : cstr (p_name v) = take 15 (cstr (p_name pr));
  ch_vma : p_vma v = zip_with merge_vma (p_vma pr) (p_vma v0);
  ch_context : p_context v = Context_ sym_forkret (p_kstack v0 + PGSIZE) (replicate 12 0);
  ch_kstack : p_kstack v = p_kstack v0;
}.

Lemma kidup (c : ctl) h pt ft fs vd dev n (ip : nat) (Q : nat -> kstate -> Prop) :
  cpu_ok c -> lock_free L_itable c ->
  Q ip (KState c h pt ft (fs <| itable := alter (fun v => v <| i_ref := i_ref v + 1 |>) ip (itable fs) |>) vd dev n) ->
  runs (idup ip) (KState c h pt ft fs vd dev n) Q.
Proof. intros Hc Hl HQ. unfold idup. by ksteps. Qed.

Section run.
Context (c : ctl) (h : heap) (pt : ptable) (ft : ftable) (fs : fsys) (vd : vdisk) (dev : devs) (n : nat).
Context (p ip : nat) (RP : Z -> Prop) (fl : list Z).
Let pr : proc := procs pt !!! p.
Let pt1 : ptable := pt <| nextpid := i32 (nextpid pt + 1) |>.
Hypothesis Hc : calm c.
Hypothesis Hcur : cur c = Some p.
Hypothesis Hp : procs_ok pt.
Hypothesis Hidle : forall i, (i < NPROC)%nat -> p_state (procs pt !!! i) = UNUSED -> idle_slot (procs pt !!! i).
Hypothesis Hpr : parent_ok RP pr ip h fl ft.

(** The rest of [fork], once the child has its memory. *)
Lemma kfork_tail (np : nat) (pid root tf : Z) (h' : heap) (Q : Z -> kstate -> Prop) :
  (np < NPROC)%nat -> p <> np -> idle_slot (procs pt !!! np) ->
  (forall ft' v, dup_refs (p_ofile pr ++ vma_files (p_vma pr)) ft ft' -> child_of p pr (procs pt !!! np) pid v ->
     p_pagetable v = root -> p_trapframe v = tf ->
     Q pid (KState c h' (with_proc pt1 np v) ft' (fs <| itable := alter (fun v => v <| i_ref := i_ref v + 1 |>) ip (itable fs) |>) vd dev n)) ->
  runs (for_each (seq 0 NOFILE) (fun i =>
      pr ← get_proc p;
      match p_ofile pr !!! i with
      | Some f => f ← filedup f; upd_ofile np i (Some f)
      | None => mret tt
      end);;
    pr ← get_proc p;
    cwd ← deref (p_cwd pr);
    cwd ← idup cwd;
    upd_proc np (fun v => v <| p_cwd := Some cwd |>);;
    upd_proc np (fun v => v <| p_name := safestrcpy_arr (p_name v) (cstr (p_name pr)) |>);;
    npr ← get_proc np;
    let pid := p_pid npr in
    release (L_proc np);;
    acquire L_wait;;
    upd_proc np (fun v => v <| p_parent := Some p |>);;
    release L_wait;;
    acquire (L_proc np);;
    upd_proc np (fun v => v <| p_state := RUNNABLE |>);;
    for_each (seq 0 VMASIZE) (fun i =>
      pr ← get_proc p;
      let v := p_vma pr !!! i in
      if truth (v_valid v) then
        upd_vma np i (fun _ => v);;
        f ← deref (v_f v);
        filedup f;;
        mret tt
      else mret tt);;
    release (L_proc np);;
    mret pid)
    (KState (locked_ctl (L_proc np) c) h' (with_proc pt1 np ((fresh (procs pt !!! np) pid root tf) <| p_sz := p_sz pr |>)) ft fs vd dev n) Q.
Proof using All.
  intros Hlt Hne Hid HQ. destruct Hpr as [_ _ _ _ [Ho1 Ho2] (Hv1 & Hv2 & Hv3) Hcwd Hnm]. destruct Hid as [_ _ I3 [I4 _] I5].
  assert (np < length (procs pt1))%nat as Hlen by (unfold pt1; cbn; by rewrite Hp).
  set (v0 := procs pt !!! np) in *. assert (procs pt1 !!! p = pr) as Epr by done.
  apply runs_bind, (kdup_ofile p np _ h' pt1 _ ft fs vd dev n); [kside|kside|done|done|by rewrite Epr|done|by rewrite Epr|].
  rewrite Epr. intros ft1 Hd1. apply runs_bind, kget_other; [done|]. rewrite Epr, Hcwd. apply runs_bind, runs_ret.
  apply runs_bind, kidup; [kside|kside|]. apply runs_bind, kupd_slot; [done|]. apply runs_bind, kupd_slot; [done|].
  apply runs_bind, kget_slot; [done|]. cbv zeta. kstep. kstep. kstep. kstep. apply runs_bind, kupd_slot; [done|].
  kstep. kstep. kstep. kstep. apply runs_bind, kupd_slot; [done|].
  apply runs_bind, (kdup_vma p np _ h' pt1 _ ft1 _ vd dev n); [kside|kside|done|done|by rewrite Epr|done| | |].
  { rewrite Epr. by apply (opened_dup _ _ _ _ Hd1). }
  { by rewrite Epr. }
  rewrite Epr. intros ft2 Hd2. kstep. kstep. kstep. apply HQ; [by eapply dup_refs_app| |done|done].
  split; try done. change (cstr (safestrcpy_arr (p_name v0) (cstr (p_name pr))) = take 15 (cstr (p_name pr))).
  rewrite safestrcpy_arr_cstr; [by rewrite I5|rewrite I5; lia|].
  eapply list.Forall_impl; [exact (cstr_chars is_byte _ Hnm)|]. intros x [Hx Hx0]. unfold is_byte in Hx. cbv beta. lia.
Qed.

(** What [fork] may do. *)
Definition fork_done (r : Z) (s : kstate) : Prop :=
  (r = -1 /\ no_slot pt /\ s = KState c h pt ft fs vd dev n) \/
  (r = -1 /\ gave_up c h pt ft fs vd dev n fl s) \/
  exists np h' fl' ft' v, r = nextpid pt /\ first_unused (procs pt) np /\
    child_of p pr (procs pt !!! np) (nextpid pt) v /\
    forked RP (p_pagetable pr) (p_trapframe pr) (p_sz pr) (p_pagetable v) (p_trapframe v) h h' fl fl' /\
    dup_refs (p_ofile pr ++ vma_files (p_vma pr)) ft ft' /\
    s = KState c h' (with_proc pt1 np v) ft' (fs <| itable := alter (fun v => v <| i_ref := i_ref v + 1 |>) ip (itable fs) |>) vd dev n.

Lemma kfork : runs fork (KState c h pt ft fs vd dev n) fork_done.
Proof using All.
  pose proof Hpr as [Hst Hsp Hsz Hden _ _ _ _]. pose proof (calm_ok _ Hc) as Hcpu.
  unfold fork. apply runs_bind, (kcurproc _ p); [done|done|].
  apply runs_bind, (kallocproc c h pt ft fs vd dev n fl); [done|done|apply Hsp|intros i Hi Hs; by apply Hidle| | |].
  { intros Hno. apply runs_ret. by left. }
  { intros s Hs. apply runs_ret. right. by left. }
  intros np root tf h1 fl1 Hfirst Hu F1 Hnone. pose proof Hfirst as (Hlt & Hun & _). pose proof (Hidle np Hlt Hun) as Hid.
  assert (p <> np) as Hne by (intros ->; done).
  assert (np < length (procs pt1))%nat as Hlen by (unfold pt1; cbn; by rewrite Hp).
  fold pt1. set (v0 := procs pt !!! np) in *. set (c' := locked_ctl (L_proc np) c).
  assert (cpu_ok c') as Hc' by (unfold c'; kside). assert (lock_free L_kmem c') as Hk' by (unfold c'; kside).
  apply runs_bind, kget_other; [done|]. change (procs pt1 !!! p) with pr. apply runs_bind, kget_slot; [done|].
  apply runs_bind. eapply (kheap _ _ _ _ Hc' Hk' (fork_uvmcopy RP _ _ _ _ _ _ _ _ _ Hsp Hu F1 Hnone Hsz Hden)).
  intros r h2 (fl2 & Hu2 & F2 & [[-> Hno2]|[-> Hcell]]).
  - change (-1 <? 0) with true. cbv beta iota. apply runs_bind.
    apply (kfreeproc np _ Hlen Hc' Hk' (fun q => q ∈ fl) h2 fl2); [exact Hu2| | | |].
    + change (0 <= p_sz v0 <= TRAPFRAME). rewrite (id_sz _ Hid). by vm_compute.
    + change (tables (mem h2) root 0 (PGROUNDUP (p_sz v0))). rewrite (id_sz _ Hid). change (PGROUNDUP 0) with 0. intros va Hva. lia.
    + change (forall va, PGROUNDUP (p_sz v0) <= va < TRAPFRAME -> valid (pte_of (mem h2) root va) = false).
      rewrite (id_sz _ Hid). change (PGROUNDUP 0) with 0. exact Hno2.
    + intros h3 fl3 Ha F3. unfold c'. kstep. kstep. kstep. right. left. split; [done|]. exists np, h3, fl3, (Context_ sym_forkret (p_kstack v0 + PGSIZE) (replicate 12 0)).
      split_and!; [done|done|by etransitivity|done].
  - change (0 <? 0) with false. cbv beta iota. apply runs_bind, kupd_slot; [done|]. apply runs_bind.
    eapply (kheap _ _ (fun _ h' => h' = _)); [done|done|by apply hwp_memmove|]. intros [] h3 E3.
    apply runs_bind. eapply (kheap _ _ (fun _ h' => h' = _)); [done|done|by apply hwp_st64|]. intros [] h4 E4.
    unfold c'. apply (kfork_tail np (nextpid pt) root tf h4); [done|done|exact Hid|].
    intros ft' v Hd Hch Hroot Htf. right. right. exists np, h4, fl2, ft', v. rewrite Hroot, Htf. split_and!; try done.
    replace h4 with (h2 <| mem := store64 (memmove (mem h2) tf (p_trapframe pr) sizeof_trapframe) (tf + tf_a0) 0 |>) by (by rewrite E4, E3).
    by apply (fork_memory RP _ _ _ _ _ h h1 fl fl1).
Qed.
End run.

(** C5. [fork] makes a copy of the calling process, or nothing.  When a slot
    and memory are left it returns the pid of a new runnable process in the
    first unused slot: its memory is a byte for byte copy, with the same
    permissions, of the parent's below [sz], in pages that were free; its
    trapframe is the parent's but for a0, which is 0, so that [fork] returns
    0 there; it shares the open files, the mapped files and the current
    directory, whose reference counts grow by exactly the new uses; it has
    the parent's name and size, and the caller as its parent.  The parent's
    memory is unchanged.  Otherwise it returns -1, no slot is taken, every
    page it took is free again, and files and inodes are untouched. *)
Theorem fork_copies (s : kstate) (p ip : nat) (RP : Z -> Prop) (fl : list Z) :
  calm (k_ctl s) -> cur (k_ctl s) = Some p -> procs_ok (k_pt s) ->
  (forall i, (i < NPROC)%nat -> p_state (procs (k_pt s) !!! i) = UNUSED -> idle_slot (procs (k_pt s) !!! i)) ->
  parent_ok RP (procs (k_pt s) !!! p) ip (k_heap s) fl (k_ft s) ->
  exists r s', fork s = Ret r s' /\
    fork_done (k_ctl s) (k_heap s) (k_pt s) (k_ft s) (k_fs s) (k_vd s) (k_dev s) (k_switches s) p ip RP fl r s'.
Proof using LOk.
  intros Hc Hcur Hp Hidle Hpr. destruct s as [c h pt ft fs vd dev n].
  exact (runs_inv _ _ _ (kfork c h pt ft fs vd dev n p ip RP fl Hc Hcur Hp Hidle Hpr)).
Qed.
End fork.

(** ** A small machine

    Twenty free pages; process 0 has two pages of memory and an open file. *)
Module Demo.

#[local] Existing Instance demo_linker.
#[local] Existing Instance demo_linker_ok.

Definition tf_page : Z := 0x80027000.
Definition free_pages : list Z := (fun i => 0x80028000 + PGSIZE * Z.of_nat i) <$> seq 0 20.
Definition h0 : heap := Heap (AddressSpace.Demo.link free_pages ∅) 0x80028000 0.

Definition no_vma : vma := Vma 0 0 0 None 0 0 0 0.
Definition slot (st : procstate) (pid sz root tf : Z) (fd : option nat) (cwd : option nat) (name : list Z) : proc :=
  Proc st Ch0 0 0 pid None 0 sz root tf (Context_ 0 0 []) (fd :: replicate 15 None) cwd name (replicate 16 no_vma).
Definition table (sz root tf : Z) : ptable :=
  Ptable (slot RUNNING 3 sz root tf (Some 0%nat) (Some 0%nat) ([115; 104] ++ replicate 14 0) ::
    replicate 63 (slot UNUSED 0 0 0 0 None None (replicate 16 0))) None 8 0 0.
Definition state (h : heap) (sz root : Z) : kstate :=
  (blank demo_ctl h) <| k_pt := table sz root tf_page |> <| k_ft := Ftable [File FD_INODE 1 1 1 0 (Some 1%nat) 0 0] ∅ |>.

(** Process 0 gets its page table and two pages. *)
Definition setup : M Z := 
  root ← proc_pagetable 0; if root =? 0 then mret 0 else
  r ← uvmalloc root 0 8192; mret (if r =? 0 then 0 else root).

Lemma fork_free_ok (p : Z) : p ∈ free_pages -> page_ok p.
Proof.
  unfold free_pages. intros H. apply list_elem_of_fmap in H as (i & -> & Hi). apply elem_of_seq in Hi. split.
  - rewrite Z.mul_comm, Z.mod_add; done.
  - change PHYSTOP with 0x88000000. change sym_end with 0x80026280. unfold PGSIZE. lia.
Qed.

Lemma fork_heap_ok : heap_ok h0 free_pages.
Proof.
  split.
  - vm_compute. repeat split.
  - apply (bool_decide_eq_true_1 _). vm_compute. reflexivity.
  - apply Forall_forall. intros p Hp. apply fork_free_ok. by apply list_elem_of_In.
Qed.

Lemma setup_runs : runs setup (state h0 0 0) (fun root s => root = 0 \/ exists h fl RP, s = state h 0 0 /\
  puser RP root tf_page h fl /\ forall va, 0 <= va < 8192 -> valid (pte_of (mem h) root va) = true).
Proof.
  assert (cpu_ok demo_ctl) as Hc by exact demo_ctl_ok. assert (lock_free L_kmem demo_ctl) as Hk by done.
  assert (8192 <= TRAPFRAME) as Hb by (by vm_compute).
  unfold setup. apply runs_bind.
  apply (kproc_pagetable 0 tf_page demo_ctl h0 (table 0 0 tf_page) _ _ _ _ _ free_pages); [done|done|exact fork_heap_ok| | |done| |].
  - apply (bool_decide_eq_true_1 _). vm_compute. reflexivity.
  - by vm_compute.
  - intros h' fl' _ _. by left.
  - intros root h' fl' Hr [Has Ptr Ptf] _ Hno.
    rewrite (proj2 (Z.eqb_neq root 0)) by (intros ->; by apply page_ok_truth in Hr). apply runs_bind.
    eapply (kheap _ _ (fun r h2 => r = 0 \/ exists fl2, puser _ root tf_page h2 fl2 /\ forall va, 0 <= va < 8192 -> valid (pte_of (mem h2) root va) = true)); [done|done| |].
    + apply (uvmalloc_spec _ TRAPFRAME root 0 8192 h' fl' [tf_page] Has); [lia|done| | |].
      * change (PGROUNDUP 0) with 0. change (PGROUNDUP 8192) with 8192. intros va Hva. apply Hno. lia.
      * intros; by left.
      * change (PGROUNDUP 0) with 0. change (PGROUNDUP 8192) with 8192. intros h2 fl2 Has2 [Hnew Hold] _. right. exists fl2. split.
        -- split; [exact Has2| |]; rewrite Hold; (done || pose proof top_bounds; unfold PGSIZE in *; lia).
        -- intros va Hva. destruct (Hnew va) as (q & -> & Hq & _); [plia|lia|]. by apply leaf_user.
    + intros r h2 Hpost. kstep. destruct (Z.eqb_spec r 0) as [->|Hne]; [by left|].
      destruct Hpost as [?|(fl2 & Hu & Hv)]; [done|]. right. by exists h2, fl2, (fun q => q ∈ free_pages ++ [tf_page]).
Qed.

Lemma fork_runs : match setup (state h0 0 0) with
  | Ret root s => (root =? 0, match fork (state (k_heap s) 8192 root) with Ret r _ => r | _ => -2 end)
  | _ => (true, -3)
  end = (false, 8).
Proof. vm_compute. reflexivity. Qed.

Lemma demo_parent (RP : Z -> Prop) (root : Z) (h : heap) (fl : list Z) :
  puser RP root tf_page h fl -> (forall va, 0 <= va < 8192 -> valid (pte_of (mem h) root va) = true) ->
  parent_ok RP (procs (table 8192 root tf_page) !!! 0%nat) 0 h fl (Ftable [File FD_INODE 1 1 1 0 (Some 1%nat) 0 0] ∅).
Proof.
  intros Hu Hv. split.
  - done.
  - exact Hu.
  - by vm_compute.
  - change (dense (mem h) root 8192). intros va Hva. exists va. split_and!; [lia|lia|done|done|]. by apply Hv.
  - split; [done|]. intros f Hf. apply elem_of_cons in Hf as [Hf|Hf]; [injection Hf as ->; by vm_compute|].
    by apply elem_of_replicate in Hf as [? _].
  - split_and!; [done| |].
    + intros f Hf. apply list_elem_of_fmap in Hf as (w & Hw & Hin). apply elem_of_replicate in Hin as [-> _]. done.
    + intros w Hin. by apply elem_of_replicate in Hin as [-> _].
  - done.
  - by repeat constructor.
Qed.

Lemma table_unused (sz root tf : Z) (i : nat) :
  (0 < i < NPROC)%nat -> procs (table sz root tf) !!! i = slot UNUSED 0 0 0 0 None None (replicate 16 0).
Proof. intros Hi. destruct i as [|i]; [lia|]. apply (lookup_total_replicate_2 63). unfold NPROC in Hi. lia. Qed.

Lemma fork_idle (sz root tf : Z) (i : nat) :
  (i < NPROC)%nat -> p_state (procs (table sz root tf) !!! i) = UNUSED -> idle_slot (procs (table sz root tf) !!! i).
Proof.
  destruct i as [|i]; [done|]. intros Hi _. rewrite table_unused by lia.
  split; [done|done|done| |done]. split; [done|]. by apply Forall_replicate.
Qed.

Lemma demo_slot (sz root tf : Z) (np : nat) : first_unused (procs (table sz root tf)) np -> np = 1%nat.
Proof.
  intros (Hlt & Hst & Hlow). destruct np as [|[|np]]; [done|done|]. destruct (Hlow 1%nat); [lia|].
  by rewrite table_unused by (unfold NPROC; lia).
Qed.

Lemma fork_copies_witness : exists h root s' v, fork (state h 8192 root) = Ret 8 s' /\
  procs (k_pt s') !!! 1%nat = v /\ p_state v = RUNNABLE /\ p_parent v = Some 0%nat /\ cstr (p_name v) = [115; 104] /\
  ucell (mem h) root 5000 <> None /\ ucell (mem (k_heap s')) (p_pagetable v) 5000 = ucell (mem h) root 5000 /\
  f_ref (files (k_ft s') !!! 0%nat) = 2.
Proof.
  destruct (runs_inv _ _ _ setup_runs) as (root & s & Es & Hs). pose proof fork_runs as Hf. rewrite Es in Hf.
  destruct Hs as [->|(h & fl & RP & -> & Hu & Hv)]; [discriminate Hf|].
  destruct (fork_copies (state h 8192 root) 0 0 RP fl) as (r & s' & E & Hd).
  - split; [exact demo_ctl_ok|reflexivity].
  - reflexivity.
  - reflexivity.
  - apply fork_idle.
  - exact (demo_parent RP root h fl Hu Hv).
  - change (k_heap (state h 0 0)) with h in Hf. rewrite E in Hf. injection Hf as _ ->. 
    destruct Hd as [[Hr _]|[[Hr _]|(np & h' & fl' & ft' & v & _ & Hfirst & Hch & Hfk & Hdr & Es')]]; [discriminate Hr|discriminate Hr|].
    apply demo_slot in Hfirst as ->. exists h, root, s', v. split; [exact E|]. rewrite Es'. cbn [k_pt k_heap k_ft].
    split; [apply with_proc_at, Nat.ltb_lt; reflexivity|]. split; [apply Hch|]. split; [apply Hch|]. split; [exact (ch_name _ _ _ _ _ Hch)|].
    split; [apply ucell_valid, Hv; lia|]. split; [|by rewrite (dr_files _ _ _ Hdr) by exact Nat.lt_0_1].
    rewrite (fk_copy _ _ _ _ _ _ _ _ _ _ Hfk) by (split; [lia|by vm_compute]). reflexivity.
Defined.
End Demo.
