(* ===== verification/WaitSpec.v ===== *)
(** * Waiting for children (theorems on wait of kernel/proc.c)

    [wait] looks for a child that has exited, hands its status to the caller
    and gives the child's memory and its slot back; while there are only
    living children it sleeps.  The theorem follows it through any number of
    rounds of sleep. *)
From S2P Require Import Prelude Memory Riscv State Spinlock Kalloc Steps Pagetable Vm VmSpec Uvm Freewalk Usercopy AddressSpace Proc ProcSpec UserMem ProcMem.

Section memory.
Context {L : Linker} {LOk : LinkerOk L}.

Lemma leaf_not_user (pa perm : Z) : 0 <= pa < 2 ^ 56 -> pa mod PGSIZE = 0 -> perm_ok perm -> Z.land (Z.lor perm PTE_V) PTE_U = 0 ->
  user (leaf pa perm) = false.
Proof.
  intros H1 H2 H3 Hu. destruct (leaf_facts pa perm H1 H2 H3) as (_ & _ & _ & E & _). unfold user.
  replace (Z.land (leaf pa perm) PTE_U) with (Z.land (PTE_FLAGS (leaf pa perm)) PTE_U) by (unfold PTE_FLAGS; rewrite <- Z.land_assoc; reflexivity).
  rewrite E, Hu. apply andb_false_r.
Qed.

Lemma page_div (a x : Z) : a mod PGSIZE = 0 -> a <= x < a + PGSIZE -> x / PGSIZE = a / PGSIZE.
Proof. unfold PGSIZE. intros Ha Hx. Z.to_euclidean_division_equations. lia. Qed.

(** The pages above the user's are for the kernel alone. *)
Lemma puser_below (R : Z -> Prop) (root tf : Z) (h : heap) (fl : list Z) : puser R root tf h fl -> user_below TRAPFRAME root (mem h).
Proof using LOk.
  intros [Has Ptr Ptf] va Hva H0. destruct top_bounds as (B1 & B2 & B3 & B4 & B5). destruct trampoline_pa as (T1 & T2 & T3).
  assert (page_ok tf) as Htf by (apply (as_list_ok Has), elem_of_app; right; by left).
  pose proof (page_ok_56 _ Htf) as Tf1. pose proof (page_ok_aligned _ Htf) as Tf2.
  assert (TRAPFRAME mod PGSIZE = 0) as A1 by done. assert (TRAMPOLINE mod PGSIZE = 0) as A2 by done.
  destruct (Z.lt_ge_cases va TRAMPOLINE) as [Hlt|Hge].
  - rewrite (pte_of_page (mem h) root va TRAPFRAME), Ptf; [by apply leaf_not_user; [|done|apply perm_rw|]|]. apply page_div; [done|lia].
  - rewrite (pte_of_page (mem h) root va TRAMPOLINE), Ptr; [apply leaf_not_user; [unfold PGSIZE in T2; lia|done|apply perm_rx|done]|].
    apply page_div; [done|lia].
Qed.
End memory.

(** ** The memory of parent and child *)
Section two.
Context {L : Linker} {LOk : LinkerOk L}.

(** What a process holds when it has exited: its address space and trapframe. *)
Record exited (R : Z -> Prop) (v : proc) (h : heap) (fl : list Z) : Prop := {
  ex_space : puser R (p_pagetable v) (p_trapframe v) h fl;
  ex_sz : 0 <= p_sz v <= TRAPFRAME;
  ex_tables : tables (mem h) (p_pagetable v) 0 (PGROUNDUP (p_sz v));
  ex_above : forall va, PGROUNDUP (p_sz v) <= va < TRAPFRAME -> valid (pte_of (mem h) (p_pagetable v) va) = false;
}.

Context {RP R : Z -> Prop} {root ptf : Z} {v : proc} {h : heap} {fl : list Z}.
Hypothesis Hparent : puser RP root ptf h fl.
Hypothesis Hchild : exited R v h fl.
Hypothesis Hap : apart R RP fl.

(** The child's memory is out of reach for the parent. *)
Lemma exited_kept (h1 : heap) : aspace RP TRAPFRAME root h1 fl [ptf] -> frame RP (mem h) (mem h1) -> exited R v h1 fl.
Proof using Hparent Hchild Hap.
  intros Has1 F. destruct Hchild as [[Has Ptr Ptf] Hsz Htab Hno]. pose proof (pu_space _ _ _ _ _ Hparent) as HasP.
  assert (apart RP R fl) as Hap' by (intros q H1 H2; by apply Hap).
  pose proof (as_ok _ _ _ _ _ _ HasP) as Hok. pose proof (other_pte_of Has Hap' Hok F) as Hpte.
  split; [split|done| |].
  - apply (aspace_ext (rest R fl fl)); [|exact (other_aspace Has Hap' Hok F Has1)]. intros q. unfold rest. split; [|by destruct (decide (q ∈ fl)); auto].
    intros [[? _]|Hq]; [done|]. apply (as_list_R Has), elem_of_app. by left.
  - by rewrite Hpte.
  - by rewrite Hpte.
  - intros va Hva. rewrite (node_pte_same _ _ _ TRAPFRAME _ (other_pte Has Hap' Hok F)) by apply owned_inner, inner_va. by apply Htab.
  - intros va Hva. rewrite Hpte. by apply Hno.
Qed.

(** The parent does not notice that the child's memory is gone. *)
Lemma parent_kept (h' : heap) (fl' : list Z) : all_free R h' fl' [] -> frame R (mem h) (mem h') ->
  puser (rest RP fl fl') root ptf h' fl' /\ forall va, 0 <= va -> ubyte (mem h') root va = ubyte (mem h) root va.
Proof using Hparent Hchild Hap LOk.
  intros (Hh & Hnd & Hall) F. pose proof (as_ok _ _ _ _ _ _ (pu_space _ _ _ _ _ (ex_space _ _ _ _ Hchild))) as Hok.
  pose proof (puser_below _ _ _ _ _ Hparent) as Hub. destruct Hparent as [Has Ptr Ptf]. pose proof (other_pte_of Has Hap Hok F) as Hpte.
  rewrite app_nil_r in Hnd. assert (forall p, p ∈ fl' -> R p) as HR by (intros p Hp; apply Hall; by rewrite app_nil_r).
  split; [split; [by apply (other_list Has Hap Hok F)|by rewrite Hpte|by rewrite Hpte]|].
  intros va Hva. unfold ubyte. rewrite Hpte. destruct (Z.ltb_spec va MAXVA) as [Hlt|]; [|done]. cbn [andb].
  destruct (user (pte_of (mem h) root va)) eqn:Hu; [|done].
  destruct (user_page Has Hub va (conj Hva Hlt) Hu) as (Hl & Hpg & Hn). f_equal.
  pose proof (other_page Has Hap Hok F _ (path_of va) ltac:(apply owned_va; lia) Hn) as Hs. apply Hs. unfold in_page. pose proof (Z.mod_pos_bound va PGSIZE ltac:(done)). lia.
Qed.
End two.

(** ** Looking for a child *)

(** Process [q] is a child of [p]. *)
Definition child (p : nat) (pt : ptable) (q : nat) : Prop := (q < NPROC)%nat /\ p_parent (procs pt !!! q) = Some p.
(** The child that [wait] takes: the first that has exited. *)
Definition first_zombie (p : nat) (pt : ptable) (q : nat) : Prop :=
  child p pt q /\ p_state (procs pt !!! q) = ZOMBIE /\ forall j, (j < q)%nat -> child p pt j -> p_state (procs pt !!! j) <> ZOMBIE.
Definition no_zombie (p : nat) (pt : ptable) : Prop := forall j, child p pt j -> p_state (procs pt !!! j) <> ZOMBIE.

Section wait.
Context {L : Linker} {LOk : LinkerOk L} {E : Env}.
Context {h : heap} {pt : ptable} {ft : ftable} {fs : fsys} {vd : vdisk} {dev : devs} {n : nat}.
Context (c : ctl) (p : nat) (addr : Z) (RP R : Z -> Prop) (fl : list Z).
Let pr : proc := procs pt !!! p.
Hypothesis Hcalm : calm c.
Hypothesis Hp : procs_ok pt.

(** What [wait] does with the child [q]. *)
Definition reaped (q : nat) (r : Z) (s' : kstate) : Prop :=
  let v := procs pt !!! q in let root := p_pagetable pr in let status := le_split 4 (p_xstate v) in
  (exists h1 h' fl', r = p_pid v /\ (addr = 0 /\ h1 = h \/ addr <> 0 /\ uput root addr status h h1) /\
     all_free R h' fl' [] /\ frame R (mem h1) (mem h') /\ puser (rest RP fl fl') root (p_trapframe pr) h' fl' /\
     (forall va, 0 <= va -> ubyte (mem h') root va = ubyte (mem h1) root va) /\
     s' = KState c h' (with_proc pt q (freed v)) ft fs vd dev n) \/
  (exists h1 k, r = -1 /\ addr <> 0 /\ ubytes (mem h) root addr 4 = None /\ (k < 4)%nat /\ uput root addr (take k status) h h1 /\
     s' = KState c h1 pt ft fs vd dev n).

Lemma kreap (q : nat) : (q < NPROC)%nat -> is_u64 addr -> puser RP (p_pagetable pr) (p_trapframe pr) h fl -> exited R (procs pt !!! q) h fl -> apart R RP fl ->
  runs (let v := procs pt !!! q in
    let pid := p_pid v in
    me ← get_proc p;
    r ← (if negb (addr =? 0) then copyout (p_pagetable me) addr (le_split 4 (p_xstate v)) else mret 0);
    if r <? 0 then release (L_proc q);; release L_wait;; mret (inr (inl (-1))) else
    freeproc q;;
    release (L_proc q);;
    release L_wait;;
    mret (inr (inl pid) : (nat * bool) + (Z + bool)))
    (KState (locked_ctl (L_proc q) (locked_ctl L_wait c)) h pt ft fs vd dev n)
    (fun r s' => exists x, r = inr (inl x) /\ reaped q x s').
Proof using Hcalm Hp LOk.
  intros Hq Ha HP HX Hap. set (v := procs pt !!! q) in *. set (root := p_pagetable pr) in *. pose proof (puser_below _ _ _ _ _ HP) as Hub.
  set (c2 := locked_ctl (L_proc q) (locked_ctl L_wait c)). assert (cpu_ok c2) as Hc2 by (unfold c2; kside). assert (lock_free L_kmem c2) as Hk2 by (unfold c2; kside).
  assert (q < length (procs pt))%nat as Hlt by (by rewrite Hp).
  assert (forall h1, puser RP root (p_trapframe pr) h1 fl -> exited R v h1 fl ->
    (addr = 0 /\ h1 = h \/ addr <> 0 /\ uput root addr (le_split 4 (p_xstate v)) h h1) ->
    runs (freeproc q;; release (L_proc q);; release L_wait;; mret (inr (inl (p_pid v)) : (nat * bool) + (Z + bool)))
      (KState c2 h1 pt ft fs vd dev n) (fun r s' => exists x, r = inr (inl x) /\ reaped q x s')) as Hfree.
  { intros h1 HP1 HX1 Hst. apply runs_bind. rewrite <- (with_proc_same pt q). pose proof HX1 as [X1 X2 X3 X4].
    apply (kfreeproc q v Hlt Hc2 Hk2 R h1 fl); [done|done|done|done|]. intros h' fl' Hall F. unfold c2. ksteps.
    destruct (parent_kept HP1 HX1 Hap h' fl' Hall F) as [HP' Hu]. eexists. split; [done|]. left. exists h1, h', fl'. by split_and!. }
  cbv zeta. fold v. kstep. kstep. fold pr root. kstep. destruct (Z.eqb_spec addr 0) as [E0|E0]; cbn [negb].
  - kstep. apply (Hfree h); [done|done|by left].
  - eapply (kheap _ c2 (fun r h1 => (r = 0 /\ wrote RP TRAPFRAME root addr (le_split 4 (p_xstate v)) fl [p_trapframe pr] h h1) \/
      (r = -1 /\ ubytes (mem h) root addr 4 = None /\ exists k, (k < 4)%nat /\ wrote RP TRAPFRAME root addr (take k (le_split 4 (p_xstate v))) fl [p_trapframe pr] h h1))); [done|done| |].
    { apply (copyout_spec RP TRAPFRAME root addr _ h fl [p_trapframe pr]); [apply HP|done|done|by rewrite length_le_split| |]; rewrite length_le_split.
      - intros h1 _ Hw. by left.
      - intros h1 k Hn Hk Hw. right. split_and!; [done|done|by exists k]. }
    assert (forall l h1, wrote RP TRAPFRAME root addr l fl [p_trapframe pr] h h1 -> uput root addr l h h1 /\ puser RP root (p_trapframe pr) h1 fl /\ exited R v h1 fl) as Hw.
    { intros l h1 [W1 W2 W3 W4]. split_and!.
      - split; [|done|done]. exists RP, TRAPFRAME, fl, [p_trapframe pr]. split; [done|]. by apply (user_below_same _ _ (mem h)).
      - split; [done| |]; rewrite (same_table_pte root _ (mem h)) by done; apply HP.
      - by apply (exited_kept HP HX Hap). }
    intros r h1 [[-> Hwr]|(-> & Hn & k & Hk & Hwr)]; destruct (Hw _ _ Hwr) as (Hput & HP1 & HX1).
    + change (0 <? 0) with false. cbv beta iota. apply Hfree; [done|done|by right].
    + change (-1 <? 0) with true. cbv beta iota. unfold c2. ksteps. eexists. split; [done|]. right. exists h1, k. by split_and!.
Qed.

(** The scan of the process table: the first child that has exited is dealt
    with; without one, the result says whether there are children. *)
Lemma kwait_scan (Q : Z + bool -> kstate -> Prop) : is_u64 addr ->
  (forall q, first_zombie p pt q -> puser RP (p_pagetable pr) (p_trapframe pr) h fl /\ exited R (procs pt !!! q) h fl /\ apart R RP fl) ->
  (forall q x s', first_zombie p pt q -> reaped q x s' -> Q (inl x) s') ->
  (forall b, no_zombie p pt -> (b = true <-> exists q, child p pt q) -> Q (inr b) (KState (locked_ctl L_wait c) h pt ft fs vd dev n)) ->
  runs (wait_scan p addr) (KState (locked_ctl L_wait c) h pt ft fs vd dev n) Q.
Proof using Hcalm Hp LOk.
  intros Ha Hmem HQz HQn. set (S0 := KState (locked_ctl L_wait c) h pt ft fs vd dev n). unfold wait_scan.
  apply (runs_loop (fun '(k, b) s => s = S0 /\ (k <= NPROC)%nat /\ (forall j, (j < k)%nat -> child p pt j -> p_state (procs pt !!! j) <> ZOMBIE) /\
      (b = true <-> exists j, (j < k)%nat /\ child p pt j)) (fun '(k, _) _ => Z.of_nat (NPROC - k))).
  - split_and!; [done|lia|lia|]. split; [done|]. intros (j & Hj & _). lia.
  - done.
  - intros [k b] s (-> & Hk & Hlow & Hb). unfold S0. destruct (Nat.ltb_spec k NPROC) as [Hlt|Hge]; cbn [negb].
    2: { apply runs_ret. assert (k = NPROC) as -> by lia. apply HQn; [intros j [Hj Hc]; by apply Hlow; [|split]|]. rewrite Hb.
         split; [intros (q & _ & Hq); by exists q|intros (q & Hq); exists q; split; [apply Hq|done]]. }
    kstep. kstep. case_bool_decide as Hpar; cbn [negb].
    2: { apply runs_ret. split; [|unfold NPROC in *; lia]. split_and!; [done|lia| |].
         - intros j Hj Hc. destruct (decide (j = k)) as [->|]; [by destruct Hc|]. apply Hlow; [lia|done].
         - rewrite Hb. split; intros (j & Hj & Hc); exists j; (split; [|done]); [lia|]. destruct (decide (j = k)) as [->|]; [by destruct Hc|lia]. }
    kstep. kstep. kstep. kstep. case_bool_decide as Hz.
    + assert (first_zombie p pt k) as Hf by (split_and!; [by split|done|done]). destruct (Hmem k Hf) as (HP & HX & Hap).
      eapply runs_mono; [exact (kreap k Hlt Ha HP HX Hap)|]. intros r s' (x & -> & Hr). by apply (HQz k).
    + ksteps. split; [|unfold NPROC in *; lia]. split_and!; [done|lia| |].
      * intros j Hj Hc. destruct (decide (j = k)) as [->|]; [done|]. apply Hlow; [lia|done].
      * split; [|done]. intros _. exists k. split; [lia|]. by split.
Qed.
End wait.

(** ** Rounds of sleep *)

(** Nothing is left to wait for: a child has exited, or there is none, or the
    process has been killed. *)
Definition no_wait (p : nat) (pt : ptable) : Prop :=
  (exists q, first_zombie p pt q) \/ no_zombie p pt /\ ((forall q, ~ child p pt q) \/ p_killed (procs pt !!! p) <> 0).

Section rounds.
Context {L : Linker} {LOk : LinkerOk L} {E : Env}.

(** From [s], process [p] comes to [s'] in [k] rounds of sleep on its own
    channel, each with living children only. *)
Inductive waits (p : nat) : Z -> kstate -> kstate -> Prop :=
| waits_now s : waits p 0 s s
| waits_sleep k c h pt ft fs vd dev n s1 c1 s' :
    at_sched p c -> procs_ok pt -> no_zombie p pt -> (exists q, child p pt q) -> p_killed (procs pt !!! p) = 0 ->
    env_away n p (KState (locked_ctl (L_proc p) c) h (asleep p (ChProc p) pt) ft fs vd dev (S n)) = Some s1 ->
    at_sched p c1 -> k_ctl s1 = locked_ctl (L_proc p) c1 ->
    waits p k (s1 <| k_ctl := with_sie (sie c) c1 |> <| k_pt := tidy p (k_pt s1) |>) s' ->
    waits p (k + 1) (KState c h pt ft fs vd dev n) s'.

Lemma waits_pos (p : nat) (k : Z) (s s' : kstate) : waits p k s s' -> 0 <= k.
Proof. induction 1; lia. Qed.

(** What [wait] does from the state [s] in which there is nothing to wait for. *)
Definition waited (p : nat) (addr : Z) (RP R : Z -> Prop) (fl : list Z) (s : kstate) (r : Z) (s' : kstate) : Prop :=
  (exists q, first_zombie p (k_pt s) q /\
     reaped (h := k_heap s) (pt := k_pt s) (ft := k_ft s) (fs := k_fs s) (vd := k_vd s) (dev := k_dev s) (n := k_switches s) (k_ctl s) p addr RP R fl q r s') \/
  (no_zombie p (k_pt s) /\ r = -1 /\ s' = s).

(** [wait] gives a child's remains back: after any number of rounds of sleep
    on its own channel, it returns the pid of the first child that has exited,
    with the status written to the caller's memory if an address is given; the
    child's pages, the page table and the trapframe among them, are all free,
    its slot is unused, and the caller's memory and the rest of the system are
    as they were.  When the address is not the caller's to write to, -1 comes
    back and the child stays; without children, or when the caller has been
    killed, -1.  No lock is held in the end. *)
Theorem wait_reaps (p : nat) (addr : Z) (RP R : Z -> Prop) (fl : list Z) (k : Z) (s0 s : kstate) :
  (p < NPROC)%nat -> is_u64 addr -> k < 2 ^ 63 -> at_sched p (k_ctl s0) -> waits p k s0 s ->
  at_sched p (k_ctl s) -> procs_ok (k_pt s) -> no_wait p (k_pt s) ->
  (forall q, first_zombie p (k_pt s) q ->
     puser RP (p_pagetable (procs (k_pt s) !!! p)) (p_trapframe (procs (k_pt s) !!! p)) (k_heap s) fl /\
     exited R (procs (k_pt s) !!! q) (k_heap s) fl /\ apart R RP fl) ->
  exists r s', wait addr s0 = Ret r s' /\ waited p addr RP R fl s r s'.
Proof using LOk.
  intros Hp Ha Hk Hs0 Hw Hs Hpt Hno Hmem. apply runs_inv. destruct Hs0 as [[Hcalm0 _] Hcur0].
  destruct s0 as [c0 h0 pt0 ft0 fs0 vd0 dev0 n0]. cbn [k_ctl] in *. unfold wait. apply runs_bind, (kcurproc _ p); [kside|done|]. kstep. kstep.
  change (KState (locked_ctl L_wait c0) h0 pt0 ft0 fs0 vd0 dev0 n0) with ((KState c0 h0 pt0 ft0 fs0 vd0 dev0 n0) <| k_ctl := locked_ctl L_wait c0 |>).
  apply (runs_rounds (fun k _ s1 => exists s2, waits p k s2 s /\ s1 = s2 <| k_ctl := locked_ctl L_wait (k_ctl s2) |>) k); [by eexists|lia|].
  clear Hcalm0 Hcur0 Hw Hk k. intros k [] s1 (s2 & Hw & ->). destruct Hw as [|k c h pt ft fs vd dev n s1 c1 s Hs2 Hpt2 Hnz Hkid Hkill Eaway Hs1 Ec Hw].
  - destruct s as [c h pt ft fs vd dev n]. cbn [k_ctl k_heap k_pt k_ft k_fs k_vd k_dev k_switches] in *. kred. pose proof Hs as [[Hcalm _] _].
    apply runs_bind, (kwait_scan c p addr RP R fl Hcalm Hpt _ Ha Hmem).
    + intros q x s' Hf Hr. apply runs_ret. left. by exists q.
    + intros b Hnz Hb. kstep. kstep. assert (negb b || truth (p_killed (procs pt !!! p)) = true) as ->.
      { destruct Hno as [(q & Hq)|[_ [Hnone|Hkill]]].
        - destruct Hq as (Hc & Hz & _). by destruct (Hnz q Hc).
        - destruct b; [|done]. destruct (proj1 Hb eq_refl) as [q Hq]. by destruct (Hnone q).
        - unfold truth. rewrite (proj2 (Z.eqb_neq _ _)) by done. apply orb_true_r. }
      ksteps. right. by split_and!.
  - clear Hs Hpt Hno Hmem. kred. pose proof Hs2 as [[Hcalm _] _].
    apply runs_bind, (kwait_scan c p addr RP R fl Hcalm Hpt2 _ Ha).
    + intros q Hq. destruct Hq as (Hc & Hz & _). by destruct (Hnz q Hc).
    + intros q x s' Hq. destruct Hq as (Hc & Hz & _). by destruct (Hnz q Hc).
    + intros b _ Hb. kstep. kstep. rewrite Hkill, (proj2 Hb Hkid). change (negb true || truth 0) with false. cbv iota. kstep.
      apply (ksleep (ChProc p) L_wait p c); [done|done|by rewrite Hpt2|]. exists s1, c1. split_and!; [done|done|done|]. apply runs_ret.
      exists k. split; [|pose proof (waits_pos _ _ _ _ Hw); lia]. eexists. split; [exact Hw|]. by destruct s1.
Qed.
End rounds.
