(* ===== verification/Sysfile.v ===== *)
(** * File system calls (kernel/sysfile.c)

    Each system call as a function of the kernel state; the result is the
    value for [a0].  The last two are the mmap lab's. *)
From S2P Require Import Prelude Memory Riscv State Spinlock Cstring Kalloc Vm Proc Plic Console Virtio Sleeplock Bio Log Fs Pipe File Exec Fork.

(** kernel/fcntl.h *)
Definition O_RDONLY : Z := 0x000.
Definition O_WRONLY : Z := 0x001.
Definition O_RDWR : Z := 0x002.
Definition O_CREATE : Z := 0x200.
Definition O_TRUNC : Z := 0x400.

Section sysfile.
Context {L : Linker} {E : Env} {H : Hw}.

(** The descriptor and the file, or [None] for an error. *)
Definition argfd (n : Z) : M (option (Z * nat)) :=
  fd ← argint n;
  if (fd <? 0) || (Z.of_nat NOFILE <=? fd) then mret None else
  p ← curproc;
  pr ← get_proc p;
  mret (f ← p_ofile pr !!! Z.to_nat fd; Some (fd, f)).

Definition fdalloc (f : nat) : M Z :=
  p ← curproc;
  r ← for_until (seq 0 NOFILE) (fun fd =>
    pr ← get_proc p;
    match p_ofile pr !!! fd with
    | None => upd_ofile p fd (Some f);; mret (Some (Z.of_nat fd))
    | Some _ => mret None
    end);
  mret (default (-1) r).

Definition sys_dup : M Z :=
  a ← argfd 0;
  match a with
  | None => mret (-1)
  | Some (_, f) =>
      fd ← fdalloc f;
      if fd <? 0 then mret (-1) else
      filedup f;;
      mret fd
  end.

Definition sys_read : M Z :=
  a ← argfd 0;
  match a with
  | None => mret (-1)
  | Some (_, f) => n ← argint 2; p ← argaddr 1; fileread f p n
  end.

Definition sys_write : M Z :=
  a ← argfd 0;
  match a with
  | None => mret (-1)
  | Some (_, f) => n ← argint 2; p ← argaddr 1; filewrite f p n
  end.

Definition sys_close : M Z :=
  a ← argfd 0;
  match a with
  | None => mret (-1)
  | Some (fd, f) =>
      p ← curproc;
      upd_ofile p (Z.to_nat fd) None;;
      fileclose f;;
      mret 0
  end.

Definition sys_fstat : M Z :=
  a ← argfd 0;
  match a with
  | None => mret (-1)
  | Some (_, f) => st ← argaddr 1; filestat f st
  end.

Definition sys_link : M Z :=
  old ← argstr 0 MAXPATH;
  if old.1 <? 0 then mret (-1) else
  new ← argstr 1 MAXPATH;
  if new.1 <? 0 then mret (-1) else
  begin_op;;
  ip ← namei old.2;
  match ip with
  | None => end_op;; mret (-1)
  | Some ip =>
  ilock ip;;
  v ← get_inode ip;
  if i_type v =? T_DIR then iunlockput ip;; end_op;; mret (-1) else
  upd_inode ip (fun v => v <| i_nlink := i16 (i_nlink v + 1) |>);;
  iupdate ip;;
  iunlock ip;;
  let bad :=
    ilock ip;;
    upd_inode ip (fun v => v <| i_nlink := i16 (i_nlink v - 1) |>);;
    iupdate ip;;
    iunlockput ip;;
    end_op;;
    mret (-1) in
  r ← nameiparent new.2 (replicate DIRSIZ 0);
  match r with
  | (None, _) => bad
  | (Some dp, name) =>
      ilock dp;;
      d ← get_inode dp;
      v ← get_inode ip;
      linked ← (if negb (i_dev d =? i_dev v) then mret false
                else r ← dirlink dp name (i_inum v); mret (0 <=? r));
      if negb linked then iunlockput dp;; bad else
      iunlockput dp;;
      iput ip;;
      end_op;;
      mret 0
  end
  end.

Definition isdirempty (dp : nat) : M bool :=
  loop (fun off =>
    v ← get_inode dp;
    if negb (off <? i_size v) then mret (inr true) else
    r ← readi dp ToVar off sizeof_dirent;
    if negb (r.1 =? sizeof_dirent) then panic "isdirempty: readi" else
    if negb (de_inum (dirent_of r.2) =? 0) then mret (inr false) else
    mret (inl (off + sizeof_dirent))) (2 * sizeof_dirent).

Definition sys_unlink : M Z :=
  path ← argstr 0 MAXPATH;
  if path.1 <? 0 then mret (-1) else
  begin_op;;
  r ← nameiparent path.2 (replicate DIRSIZ 0);
  match r with
  | (None, _) => end_op;; mret (-1)
  | (Some dp, name) =>
  ilock dp;;
  let bad := iunlockput dp;; end_op;; mret (-1) in
  if (namecmp name (bytes_of ".") =? 0) || (namecmp name (bytes_of "..") =? 0) then bad else
  r ← dirlookup dp name;
  match r with
  | None => bad
  | Some (ip, off) =>
  ilock ip;;
  v ← get_inode ip;
  if i_nlink v <? 1 then panic "unlink: nlink < 1" else
  nonempty ← (if i_type v =? T_DIR then e ← isdirempty ip; mret (negb e) else mret false);
  if nonempty : bool then iunlockput ip;; bad else
  r ← writei dp (FromKernel (replicate 16 0)) off sizeof_dirent;
  if negb (r =? sizeof_dirent) then panic "unlink: writei" else
  v ← get_inode ip;
  (if i_type v =? T_DIR then
     upd_inode dp (fun v => v <| i_nlink := i16 (i_nlink v - 1) |>);;
     iupdate dp
   else mret tt);;
  iunlockput dp;;
  upd_inode ip (fun v => v <| i_nlink := i16 (i_nlink v - 1) |>);;
  iupdate ip;;
  iunlockput ip;;
  end_op;;
  mret 0
  end
  end.

Definition create (path : list Z) (type major minor : Z) : M (option nat) :=
  r ← nameiparent path (replicate DIRSIZ 0);
  match r with
  | (None, _) => mret None
  | (Some dp, name) =>
  ilock dp;;
  r ← dirlookup dp name;
  match r with
  | Some (ip, _) =>
      iunlockput dp;;
      ilock ip;;
      v ← get_inode ip;
      if (type =? T_FILE) && ((i_type v =? T_FILE) || (i_type v =? T_DEVICE)) then mret (Some ip) else
      iunlockput ip;;
      mret None
  | None =>
      d ← get_inode dp;
      ip ← ialloc (i_dev d) type;
      ilock ip;;
      upd_inode ip (fun v => v <| i_major := major |>);;
      upd_inode ip (fun v => v <| i_minor := minor |>);;
      upd_inode ip (fun v => v <| i_nlink := 1 |>);;
      iupdate ip;;
      v ← get_inode ip;
      (if type =? T_DIR then
         upd_inode dp (fun d => d <| i_nlink := i16 (i_nlink d + 1) |>);;
         iupdate dp;;
         d ← get_inode dp;
         r ← dirlink ip (bytes_of ".") (i_inum v);
         if r <? 0 then panic "create dots" else
         r ← dirlink ip (bytes_of "..") (i_inum d);
         if r <? 0 then panic "create dots" else mret tt
       else mret tt);;
      r ← dirlink dp name (i_inum v);
      if r <? 0 then panic "create: dirlink" else
      iunlockput dp;;
      mret (Some ip)
  end
  end.

Definition sys_open : M Z :=
  path ← argstr 0 MAXPATH;
  if path.1 <? 0 then mret (-1) else
  omode ← argint 1;
  begin_op;;
  ip ← (if truth (Z.land omode O_CREATE) then create path.2 T_FILE 0 0
        else
          ip ← namei path.2;
          match ip with
          | None => mret None
          | Some ip =>
              ilock ip;;
              v ← get_inode ip;
              if (i_type v =? T_DIR) && negb (omode =? O_RDONLY) then iunlockput ip;; mret None
              else mret (Some ip)
          end);
  match ip with
  | None => end_op;; mret (-1)
  | Some ip =>
  v ← get_inode ip;
  if (i_type v =? T_DEVICE) && ((i_major v <? 0) || (NDEV <=? i_major v)) then
    iunlockput ip;; end_op;; mret (-1)
  else
  f ← filealloc;
  match f with
  | None => iunlockput ip;; end_op;; mret (-1)
  | Some f =>
  fd ← fdalloc f;
  if fd <? 0 then fileclose f;; iunlockput ip;; end_op;; mret (-1) else
  (if i_type v =? T_DEVICE
   then upd_file f (fun w => w <| f_type := FD_DEVICE |> <| f_major := i_major v |>)
   else upd_file f (fun w => w <| f_type := FD_INODE |> <| f_off := 0 |>));;
  upd_file f (fun w => w <| f_ip := Some ip |>);;
  upd_file f (fun w => w <| f_readable := Z.b2z (negb (truth (Z.land omode O_WRONLY))) |>);;
  upd_file f (fun w => w <| f_writable :=
    Z.b2z (truth (Z.land omode O_WRONLY) || truth (Z.land omode O_RDWR)) |>);;
  (if truth (Z.land omode O_TRUNC) && (i_type v =? T_FILE) then itrunc ip else mret tt);;
  iunlock ip;;
  end_op;;
  mret fd
  end
  end.

Definition sys_mkdir : M Z :=
  begin_op;;
  path ← argstr 0 MAXPATH;
  ip ← (if path.1 <? 0 then mret None else create path.2 T_DIR 0 0);
  match ip with
  | None => end_op;; mret (-1)
  | Some ip => iunlockput ip;; end_op;; mret 0
  end.

Definition sys_mknod : M Z :=
  begin_op;;
  path ← argstr 0 MAXPATH;
  ip ← (if path.1 <? 0 then mret None else
        major ← argint 1;
        minor ← argint 2;
        create path.2 T_DEVICE (i16 major) (i16 minor));
  match ip with
  | None => end_op;; mret (-1)
  | Some ip => iunlockput ip;; end_op;; mret 0
  end.

Definition sys_chdir : M Z :=
  p ← curproc;
  begin_op;;
  path ← argstr 0 MAXPATH;
  ip ← (if path.1 <? 0 then mret None else namei path.2);
  match ip with
  | None => end_op;; mret (-1)
  | Some ip =>
      ilock ip;;
      v ← get_inode ip;
      if negb (i_type v =? T_DIR) then iunlockput ip;; end_op;; mret (-1) else
      iunlock ip;;
      pr ← get_proc p;
      cwd ← deref (p_cwd pr);
      iput cwd;;
      end_op;;
      upd_proc p (fun v => v <| p_cwd := Some ip |>);;
      mret 0
  end.

(** The pages with the argument strings: [inl] for the ones to free after an
    error, [inr] when all are there. *)
Definition fetch_argv (uargv : Z) : M (list Z + list Z) :=
  loop (fun '(i, argv) =>
    if Z.of_nat MAXARG <=? i then mret (inr (inl argv)) else
    r ← fetchaddr (u64 (uargv + 8 * i));
    if r.1 <? 0 then mret (inr (inl argv)) else
    if r.2 =? 0 then mret (inr (inr argv)) else
    page ← kalloc;
    if page =? 0 then mret (inr (inl argv)) else
    s ← fetchstr r.2 PGSIZE;
    m ← get_mem;
    put_mem (store m page s.2);;
    if s.1 <? 0 then mret (inr (inl (argv ++ [page]))) else
    mret (inl (i + 1, argv ++ [page]))) (0, []).

Definition sys_exec : M Z :=
  path ← argstr 0 MAXPATH;
  if path.1 <? 0 then mret (-1) else
  uargv ← argaddr 1;
  r ← fetch_argv uargv;
  match r with
  | inl argv => for_each argv kfree;; mret (-1)
  | inr argv =>
      ret ← exec path.2 argv;
      for_each argv kfree;;
      mret ret
  end.

Definition sys_pipe : M Z :=
  p ← curproc;
  fdarray ← argaddr 0;
  r ← pipealloc;
  match r with
  | None => mret (-1)
  | Some (rf, wf) =>
  fd0 ← fdalloc rf;
  fd1 ← (if fd0 <? 0 then mret (-1) else fdalloc wf);
  if (fd0 <? 0) || (fd1 <? 0) then
    (if 0 <=? fd0 then upd_ofile p (Z.to_nat fd0) None else mret tt);;
    fileclose rf;;
    fileclose wf;;
    mret (-1)
  else
  pr ← get_proc p;
  r0 ← copyout (p_pagetable pr) fdarray (le_split 4 fd0);
  r1 ← (if r0 <? 0 then mret (-1) else copyout (p_pagetable pr) (u64 (fdarray + 4)) (le_split 4 fd1));
  if r1 <? 0 then
    upd_ofile p (Z.to_nat fd0) None;;
    upd_ofile p (Z.to_nat fd1) None;;
    fileclose rf;;
    fileclose wf;;
    mret (-1)
  else mret 0
  end.

(** ** The mmap lab *)

(** [PGROUNDUP] of an [int], assigned to an [int]: the sum and the mask are
    computed in [int]. *)
Definition pground_int (len : Z) : Z := i32 (Z.land (i32 (len + PGSIZE - 1)) (Z.lnot (PGSIZE - 1))).

Definition sys_mmap : M Z :=
  addr ← argaddr 0;
  len ← argint 1;
  prot ← argint 2;
  flags ← argint 3;
  a ← argfd 4;
  match a with
  | None => mret (-1)
  | Some (fd, f) =>
  offset ← argint 5;
  v ← get_file f;
  if (f_writable v =? 0) && truth (Z.land prot PROT_WRITE) && (flags =? MAP_SHARED) then mret (-1) else
  p ← curproc;
  let len := pground_int len in
  pr ← get_proc p;
  if u64 (MAXVA - len) <? p_sz pr then mret (-1) else
  r ← for_until (seq 0 VMASIZE) (fun i =>
    pr ← get_proc p;
    if v_valid (p_vma pr !!! i) =? 0 then
      upd_vma p i (fun v => v <| v_valid := 1 |> <| v_addr := p_sz pr |> <| v_len := len |>
        <| v_f := Some f |> <| v_prot := prot |> <| v_flags := flags |> <| v_offset := offset |>);;
      filedup f;;
      upd_proc p (fun v => v <| p_sz := u64 (p_sz v + len) |>);;
      mret (Some (p_sz pr))
    else mret None);
  mret (default (-1) r)
  end.

Definition sys_munmap : M Z :=
  addr ← argaddr 0;
  len ← argint 1;
  let addr := PGROUNDDOWN addr in
  let len := pground_int len in
  p ← curproc;
  r ← for_until (seq 0 VMASIZE) (fun i =>
    pr ← get_proc p;
    let v := p_vma pr !!! i in
    if (v_addr v <=? addr) && (addr <? u64 (v_addr v + v_len v)) then mret (Some i) else mret None);
  match r with
  | None => mret 0
  | Some i =>
  pr ← get_proc p;
  let v := p_vma pr !!! i in
  if v_addr v =? addr then
    upd_vma p i (fun v => v <| v_addr := u64 (v_addr v + len) |>);;
    upd_vma p i (fun v => v <| v_len := i32 (v_len v - len) |>);;
    (if truth (Z.land (v_flags v) MAP_SHARED) then f ← deref (v_f v); filewrite f addr len;; mret tt
     else mret tt);;
    uvmunmap (p_pagetable pr) addr (u64 (Z.quot len PGSIZE)) true;;
    pr ← get_proc p;
    (if v_len (p_vma pr !!! i) =? 0 then
       f ← deref (v_f v);
       fileclose f;;
       upd_vma p i (fun v => v <| v_valid := 0 |>)
     else mret tt);;
    mret 0
  else mret 0
  end.

End sysfile.
