(* ===== verification/Trap.v ===== *)
(** * System call dispatch, traps and booting (kernel/sysproc.c, syscall.c, trap.c, main.c) *)
From S2P Require Import Prelude Memory Riscv State Spinlock Cstring Kalloc Vm Proc Plic Console Virtio Sleeplock Bio Log Fs Pipe File Exec Fork Sysfile.

Section trap.
Context {L : Linker} {E : Env} {H : Hw}.

(** ** kernel/sysproc.c *)
Definition sys_exit : M Z := n ← argint 0; exit n;; mret 0.
Definition sys_getpid : M Z := p ← curproc; pr ← get_proc p; mret (p_pid pr).
Definition sys_fork : M Z := fork.
Definition sys_wait : M Z := p ← argaddr 0; wait p.

Definition sys_sbrk : M Z :=
  n ← argint 0;
  p ← curproc;
  pr ← get_proc p;
  let addr := i32 (p_sz pr) in
  r ← growproc n;
  if r <? 0 then mret (-1) else mret addr.

Definition get_ticks : M Z := gets (fun s => ticks (k_pt s)).

Definition sys_sleep : M Z :=
  n ← argint 0;
  acquire L_ticks;;
  ticks0 ← get_ticks;
  loop (fun _ : unit =>
    t ← get_ticks;
    if negb (u32 (t - ticks0) <? u32 n) then release L_ticks;; mret (inr 0) else
    p ← curproc;
    pr ← get_proc p;
    if truth (p_killed pr) then release L_ticks;; mret (inr (-1)) else
    sleep ChTicks L_ticks;;
    mret (inl tt)) tt.

Definition sys_kill : M Z := pid ← argint 0; kill pid.

Definition sys_uptime : M Z :=
  acquire L_ticks;;
  xticks ← get_ticks;
  release L_ticks;;
  mret xticks.

(** ** kernel/syscall.h, kernel/syscall.c: the table and the dispatcher *)
Definition SYS_fork : Z := 1.
Definition SYS_exit : Z := 2.
Definition SYS_wait : Z := 3.
Definition SYS_pipe : Z := 4.
Definition SYS_read : Z := 5.
Definition SYS_kill : Z := 6.
Definition SYS_exec : Z := 7.
Definition SYS_fstat : Z := 8.
Definition SYS_chdir : Z := 9.
Definition SYS_dup : Z := 10.
Definition SYS_getpid : Z := 11.
Definition SYS_sbrk : Z := 12.
Definition SYS_sleep : Z := 13.
Definition SYS_uptime : Z := 14.
Definition SYS_open : Z := 15.
Definition SYS_write : Z := 16.
Definition SYS_mknod : Z := 17.
Definition SYS_unlink : Z := 18.
Definition SYS_link : Z := 19.
Definition SYS_mkdir : Z := 20.
Definition SYS_close : Z := 21.
Definition SYS_mmap : Z := 22.
Definition SYS_munmap : Z := 23.

Definition syscalls : list (Z * M Z) :=
  [(SYS_fork, sys_fork); (SYS_exit, sys_exit); (SYS_wait, sys_wait); (SYS_pipe, sys_pipe);
   (SYS_read, sys_read); (SYS_kill, sys_kill); (SYS_exec, sys_exec); (SYS_fstat, sys_fstat);
   (SYS_chdir, sys_chdir); (SYS_dup, sys_dup); (SYS_getpid, sys_getpid); (SYS_sbrk, sys_sbrk);
   (SYS_sleep, sys_sleep); (SYS_uptime, sys_uptime); (SYS_open, sys_open); (SYS_write, sys_write);
   (SYS_mknod, sys_mknod); (SYS_unlink, sys_unlink); (SYS_link, sys_link); (SYS_mkdir, sys_mkdir);
   (SYS_close, sys_close); (SYS_mmap, sys_mmap); (SYS_munmap, sys_munmap)].
Definition syscall_of (num : Z) : option (M Z) := snd <$> List.find (fun e => num =? fst e) syscalls.

Definition syscall : M unit :=
  p ← curproc;
  pr ← get_proc p;
  a7 ← ld64 (p_trapframe pr + tf_a7);
  let num := i32 a7 in
  match syscall_of num with
  | Some f =>
      r ← f;
      pr ← get_proc p;
      st64 (p_trapframe pr + tf_a0) r
  | None =>
      printf (bytes_of "%d %s: unknown sys call %d" ++ [10])
        [VInt (p_pid pr); VStr (Some (cstr (p_name pr))); VInt num];;
      st64 (p_trapframe pr + tf_a0) (-1)
  end.

(** ** kernel/riscv.h: trap registers *)
Definition r_sepc : M Z := gets (fun s => sepc (k_ctl s)).
Definition r_scause : M Z := gets (fun s => scause (k_ctl s)).
Definition r_stval : M Z := gets (fun s => stval (k_ctl s)).
Definition r_satp : M Z := gets (fun s => satp (k_ctl s)).
Definition r_sip : M Z := gets (fun s => sip (k_ctl s)).
Definition w_sepc (x : Z) : M unit := modify (fun s => s <| k_ctl := (k_ctl s) <| sepc := x |> |>).
Definition w_stvec (x : Z) : M unit := modify (fun s => s <| k_ctl := (k_ctl s) <| stvec := x |> |>).
Definition w_sip (x : Z) : M unit := modify (fun s => s <| k_ctl := (k_ctl s) <| sip := x |> |>).

(** ** kernel/trap.c *)
Definition trapinit : M unit := put_lock L_ticks initlock.
Definition trapinithart : M unit := w_stvec sym_kernelvec.

Definition clockintr : M unit :=
  acquire L_ticks;;
  modify (fun s => s <| k_pt := (k_pt s) <| ticks := u32 (ticks (k_pt s) + 1) |> |>);;
  wakeup ChTicks;;
  release L_ticks.

Definition devintr : M Z :=
  scause ← r_scause;
  if truth (Z.land scause 0x8000000000000000) && (Z.land scause 0xff =? 9) then
    irq ← plic_claim;
    (if irq =? UART0_IRQ then uartintr
     else if irq =? VIRTIO0_IRQ then virtio_disk_intr
     else if truth irq then printf (bytes_of "unexpected interrupt irq=%d" ++ [10]) [VInt irq]
     else mret tt);;
    (if truth irq then plic_complete irq else mret tt);;
    mret 1
  else if scause =? 0x8000000000000001 then
    id ← cpuid;
    (if id =? 0 then clockintr else mret tt);;
    x ← r_sip;
    w_sip (Z.land x (Z.lnot 2));;
    mret 2
  else mret 0.

(** The page fault branch of [usertrap], for a file mapping (mmap lab). *)
Definition vma_fault (p : nat) : M unit :=
  va ← r_stval;
  pr ← get_proc p;
  sp ← ld64 (p_trapframe pr + tf_sp);
  (if (p_sz pr <=? va) || (MAXVA <? va) || (PGROUNDUP va =? PGROUNDDOWN sp)
   then upd_proc p (fun v => v <| p_killed := 1 |>) else mret tt);;
  r ← for_until (seq 0 VMASIZE) (fun i =>
    pr ← get_proc p;
    let v := p_vma pr !!! i in
    if truth (v_valid v) && (v_addr v <=? va) && (va <? u64 (v_addr v + v_len v))
    then mret (Some v) else mret None);
  match r with
  | None => mret tt
  | Some v =>
      let va := PGROUNDDOWN va in
      let offset := u64 (va - v_addr v) in
      page ← kalloc;
      if page =? 0 then upd_proc p (fun v => v <| p_killed := 1 |>) else
      memset_at page 0 PGSIZE;;
      f ← deref (v_f v);
      w ← get_file f;
      ip ← deref (f_ip w);
      ilock ip;;
      readi ip (ToKernel page) (u32 offset) PGSIZE;;
      iunlock ip;;
      let flag := PTE_U in
      let flag := if truth (Z.land (v_prot v) PROT_READ) then Z.lor flag PTE_R else flag in
      let flag := if truth (Z.land (v_prot v) PROT_WRITE) then Z.lor flag PTE_W else flag in
      let flag := if truth (Z.land (v_prot v) PROT_EXEC) then Z.lor flag PTE_X else flag in
      r ← mappages (p_pagetable pr) va PGSIZE page flag;
      if negb (r =? 0) then kfree page;; upd_proc p (fun v => v <| p_killed := 1 |>) else mret tt
  end.

(** The arguments of the jump to [userret]: the address of the trap frame in
    user space and the [satp] of the user page table. *)
Definition usertrapret : M (Z * Z) :=
  p ← curproc;
  intr_off;;
  w_stvec (TRAMPOLINE + (sym_uservec - sym_trampoline));;
  pr ← get_proc p;
  ksatp ← r_satp;
  st64 (p_trapframe pr + tf_kernel_satp) ksatp;;
  st64 (p_trapframe pr + tf_kernel_sp) (p_kstack pr + PGSIZE);;
  st64 (p_trapframe pr + tf_kernel_trap) sym_usertrap;;
  tp ← r_tp;
  st64 (p_trapframe pr + tf_kernel_hartid) tp;;
  x ← r_sstatus;
  w_sstatus (Z.lor (Z.land x (Z.lnot SSTATUS_SPP)) SSTATUS_SPIE);;
  epc ← ld64 (p_trapframe pr + tf_epc);
  w_sepc epc;;
  mret (TRAPFRAME, MAKE_SATP (p_pagetable pr)).

Definition usertrap : M (Z * Z) :=
  x ← r_sstatus;
  if truth (Z.land x SSTATUS_SPP) then panic "usertrap: not from user mode" else
  w_stvec sym_kernelvec;;
  p ← curproc;
  pr ← get_proc p;
  epc ← r_sepc;
  st64 (p_trapframe pr + tf_epc) epc;;
  scause ← r_scause;
  which_dev ← (if scause =? 8 then
      (if truth (p_killed pr) then exit (-1) else mret tt);;
      e ← ld64 (p_trapframe pr + tf_epc);
      st64 (p_trapframe pr + tf_epc) (u64 (e + 4));;
      intr_on;;
      syscall;;
      mret 0
    else
      which_dev ← devintr;
      if negb (which_dev =? 0) then mret which_dev else
      scause ← r_scause;
      (if (scause =? 13) || (scause =? 15) then vma_fault p
       else
         stval ← r_stval;
         epc ← r_sepc;
         printf (bytes_of "usertrap(): unexpected scause %p pid=%d" ++ [10]) [VInt scause; VInt (p_pid pr)];;
         printf (bytes_of "            sepc=%p stval=%p" ++ [10]) [VInt epc; VInt stval];;
         upd_proc p (fun v => v <| p_killed := 1 |>));;
      mret 0);
  pr ← get_proc p;
  (if truth (p_killed pr) then exit (-1) else mret tt);;
  (if which_dev =? 2 then yield else mret tt);;
  usertrapret.

Definition kerneltrap : M unit :=
  sepc ← r_sepc;
  sstatus ← r_sstatus;
  scause ← r_scause;
  if Z.land sstatus SSTATUS_SPP =? 0 then panic "kerneltrap: not from supervisor mode" else
  i ← intr_get;
  if i : bool then panic "kerneltrap: interrupts enabled" else
  which_dev ← devintr;
  if which_dev =? 0 then
    e ← r_sepc;
    stval ← r_stval;
    printf (bytes_of "scause %p" ++ [10]) [VInt scause];;
    printf (bytes_of "sepc=%p stval=%p" ++ [10]) [VInt e; VInt stval];;
    panic "kerneltrap"
  else
  (if which_dev =? 2 then
     p ← myproc;
     match p with
     | None => mret tt
     | Some _ =>
         p ← curproc;
         pr ← get_proc p;
         if bool_decide (p_state pr = RUNNING) then yield else mret tt
     end
   else mret tt);;
  w_sepc sepc;;
  w_sstatus sstatus.

(** kernel/proc.c: where a new process starts. *)
Definition forkret : M (Z * Z) :=
  p ← curproc;
  release (L_proc p);;
  first ← gets (fun s => forkret_first (k_pt s));
  (if truth first then
     modify (fun s => s <| k_pt := (k_pt s) <| forkret_first := 0 |> |>);;
     fsinit ROOTDEV
   else mret tt);;
  usertrapret.

(** ** kernel/main.c *)
Definition main : M unit :=
  id ← cpuid;
  (if id =? 0 then
     consoleinit;;
     printfinit;;
     printf [10] [];;
     printf (bytes_of "xv6 kernel is booting" ++ [10]) [];;
     printf [10] [];;
     kinit;;
     kvminit;;
     kvminithart;;
     procinit;;
     trapinit;;
     trapinithart;;
     plicinit;;
     plicinithart;;
     binit;;
     iinit;;
     fileinit;;
     virtio_disk_init;;
     userinit;;
     upd_dev (fun d => d <| started := 1 |>)
   else
     d ← get_dev;
     (if started d =? 0 then spin else mret tt);;
     printf (bytes_of "hart %d starting" ++ [10]) [VInt id];;
     kvminithart;;
     trapinithart;;
     plicinithart);;
  scheduler.

End trap.
