(* ===== verification/MmapSpec.v ===== *)
(** * Mapped files (theorems on the mmap lab: kernel/trap.c, sysfile.c)

    A page of a mapped file is loaded when the process first touches it: the
    page fault handler allocates a page, reads the file into it and maps it
    with the permissions of the mapping. *)
From S2P Require Import Prelude Memory Riscv State Spinlock Cstring Kalloc Steps Pagetable Vm VmSpec Uvm Usercopy AddressSpace Proc ProcSpec UserMem Plic Console Virtio VirtioSpec Sleeplock FsLogic Bio BioSpec Log LogSpec Fs FsSpec Pipe File FileSpec Exec Fork Sysfile Trap.

(** The first mapping that covers an address. *)
Definition covers (va : Z) (v : vma) : bool :=
  truth (v_valid v) && (v_addr v <=? va) && (va <? u64 (v_addr v + v_len v)).
Definition find_vma (va : Z) (pr : proc) : option vma :=
  List.find (covers va) ((fun i => p_vma pr !!! i) <$> seq 0 VMASIZE).

(** The page-table permissions of a mapping. *)
Definition prot_perm (prot : Z) : Z :=
  let flag := PTE_U in
  let flag := if truth (Z.land prot PROT_READ) then Z.lor flag PTE_R else flag in
  let flag := if truth (Z.land prot PROT_WRITE) then Z.lor flag PTE_W else flag in
  if truth (Z.land prot PROT_EXEC) then Z.lor flag PTE_X else flag.

Lemma prot_perm_ok (prot : Z) : perm_ok (prot_perm prot).
Proof.
  unfold prot_perm. destruct (truth (Z.land prot PROT_READ)), (truth (Z.land prot PROT_WRITE)), (truth (Z.land prot PROT_EXEC));
    by vm_compute.
Qed.

(** The byte of the mapped file at an offset; beyond its end there are zeros. *)
Definition file_byte (V : Z -> list Z) (v : inode) (off : Z) : Z :=
  if off <? i_size v then u8 (fbyte V v off) else 0.

Section fault.
Context {L : Linker} {LOk : LinkerOk L} {E : Env}.
Context (dv size : Z) (p : nat) (pr : proc) (ft : ftable).

#[local] Abbreviation cache := (cache dv size pr).
#[local] Abbreviation here := (World []).

Lemma runs_fwp {A B} (m : M A) (k : A -> M B) w s (Q : B -> kstate -> Prop) :
  inw p pr w s -> fwp p pr m w (fun a w' => forall s', inw p pr w' s' -> runs (k a) s' Q) -> runs (a ← m; k a) s Q.
Proof. intros Hs Hm. apply runs_bind. eapply runs_mono; [by apply Hm|]. intros a s' (w' & Hw & Hk). auto. Qed.

Lemma fwp_find_vma (va : Z) (l : list nat) h fs (R : option vma -> world -> Prop) :
  R (List.find (covers va) ((fun i => p_vma pr !!! i) <$> l)) (here h ft fs) ->
  fwp p pr (for_until l (fun i =>
    pr ← get_proc p;
    let v := p_vma pr !!! i in
    if truth (v_valid v) && (v_addr v <=? va) && (va <? u64 (v_addr v + v_len v))
    then mret (Some v) else mret None)) (here h ft fs) R.
Proof.
  intros HR. induction l as [|i l IH]; cbn [for_until fmap list_fmap List.find] in *; [by fstep|].
  fstep. fstep. apply fwp_get_proc. intros st ch. cbn. unfold covers in HR at 1.
  destruct (truth (v_valid (p_vma pr !!! i)) && (v_addr (p_vma pr !!! i) <=? va) &&
    (va <? u64 (v_addr (p_vma pr !!! i) + v_len (p_vma pr !!! i)))); fstep; [by fstep|by apply IH].
Qed.

Hypothesis Hp : (p < NPROC)%nat.
Hypothesis Henv : disk_serves p.
Hypothesis Hsize : size <= 2 ^ 31.

(** The bytes of a fresh page after the file has been read into it. *)
Lemma loaded_bytes (V : Z -> list Z) (v : inode) (m : memory) (page off : Z) :
  0 <= off -> let n := within v off PGSIZE in
  let m' := store (memset m page 0 PGSIZE) page (fbytes V v off (Z.to_nat n)) in
  same_on (fun x => ~ in_page page x) m m' /\
  forall i, 0 <= i < PGSIZE -> byte_at m' (page + i) = file_byte V v (off + i).
Proof.
  intros Ho n m'.
  assert (n <= PGSIZE /\ (0 <= i_size v -> 0 <= n) /\ forall i, 0 <= i < PGSIZE -> (off + i < i_size v <-> i < n)) as (Hn1 & Hn2 & Hn3).
  { unfold n, within, PGSIZE. destruct (Z.ltb_spec (i_size v) off); split_and!; intros; lia. }
  split.
  - intros x Hx. unfold m'. rewrite byte_at_store_out; [apply (memset_page m page 0); exact Hx|].
    rewrite length_fbytes. unfold in_page in Hx. lia.
  - intros i Hi. unfold m'. rewrite byte_at_store, length_fbytes. unfold file_byte.
    replace (page + i - page) with i by lia. rewrite (proj2 (Z.leb_le page (page + i))) by lia. cbn [andb].
    destruct (Z.ltb_spec (off + i) (i_size v)) as [Hlt|Hge].
    + apply Hn3 in Hlt; [|done]. rewrite (proj2 (Z.ltb_lt _ _)) by lia. f_equal.
      unfold fbytes. rewrite (nth_indep _ 0 (fbyte V v (off + Z.of_nat 0))) by (rewrite length_fmap, length_seq; lia).
      change (?f <$> ?l) with (List.map f l). rewrite (List.map_nth (fun j => fbyte V v (off + Z.of_nat j))).
      rewrite seq_nth by lia. f_equal. lia.
    + assert (n <= i) as Hni by (destruct (Z.le_gt_cases n i) as [|Hlt]; [done|]; apply Hn3 in Hlt; [lia|done]).
      rewrite (proj2 (Z.ltb_ge _ _)) by lia. apply (memset_in_page _ _ 0). unfold in_page. lia.
Qed.

(** Loading a page of the file into memory. *)
Lemma runs_load_page {B} (f ip : nat) (page off : Z) h fs V K lk (k : M B) (s : kstate) (Q : B -> kstate -> Prop) :
  let v := itable fs !!! ip in inw p pr (here h ft fs) s ->
  f_ip (files ft !!! f) = Some ip -> (ip < length (itable fs))%nat -> 1 <= i_ref v -> i_lock v = Sleeplock 0 0 -> i_valid v <> 0 ->
  cache fs V K lk -> few K -> file_ok dv size V K lk v -> 0 <= off -> off + PGSIZE < 2 ^ 32 -> page_ok page ->
  (forall m' fs' s', inw p pr (here (h <| mem := m' |>) ft fs') s' -> cache fs' V K lk -> itable fs' = itable fs ->
     same_on (fun x => ~ in_page page x) (mem h) m' ->
     (forall i, 0 <= i < PGSIZE -> byte_at m' (page + i) = file_byte V v (off + i)) -> runs k s' Q) ->
  runs (memset_at page 0 PGSIZE;;
        f ← deref (Some f);
        w ← get_file f;
        ip ← deref (f_ip w);
        ilock ip;;
        readi ip (ToKernel page) (u32 off) PGSIZE;;
        iunlock ip;;
        k) s Q.
Proof using LOk Hp Henv Hsize.
  intros v Hs Hf Hip Hr Hl Hv Hc Hfew Hfo Ho Ho2 Hpg HR. pose proof (page_ok_pos page Hpg) as Hpp.
  change PHYSTOP with 0x88000000 in Hpp. change KERNBASE with 0x80000000 in Hpp.
  eapply runs_fwp; [exact Hs|].
  apply (fwp_heap _ _ _ _ _ (fun _ h' => h' = h <| mem := memset (mem h) page 0 PGSIZE |>)); [unlocked|by apply hwp_memset|].
  intros _ h1 Eh1 s1 Hs1. unfold deref. apply runs_bind, runs_ret.
  eapply runs_fwp; [exact Hs1|]. apply fwp_get_file. intros s2 Hs2. rewrite Hf. apply runs_bind, runs_ret. eapply runs_fwp; [exact Hs2|].
  apply fwp_ilock; [done|by fold v; rewrite Hl|done|]. set (fs1 := with_lock ip _ fs). intros s3 Hs3.
  assert (itable fs1 !!! ip = v <| i_lock := Sleeplock 1 (p_pid pr) |>) as Ev by (by apply with_lock_eq).
  eapply runs_fwp; [exact Hs3|]. rewrite u32_small by (unfold is_u32, PGSIZE in *; lia).
  apply (fwp_readi dv size p pr Hp Henv Hsize ip (ToKernel page) off PGSIZE fs1 V K lk); rewrite ?Ev;
    [by apply with_lock_cache|done|by apply file_ok_lock|done|done|done| |].
  { cbn [dest_ok]. unfold within, PGSIZE. destruct (_ <? _); lia. }
  change (within (v <| i_lock := _ |>) off PGSIZE) with (within v off PGSIZE).
  change (fbytes V (v <| i_lock := _ |>)) with (fbytes V v). cbn [lands].
  intros fs2 h2 Hc2 E2 Eh2 s4 Hs4. eapply runs_fwp; [exact Hs4|].
  assert (itable fs2 = itable fs1) as Ei by (by rewrite E2).
  apply fwp_iunlock; rewrite ?Ei, ?Ev; [done|done|]. intros s5 Hs5.
  destruct (loaded_bytes V v (mem h) page off Ho) as [HL1 HL2]. cbv zeta in HL1, HL2.
  rewrite Eh2, Eh1 in Hs5. cbn [mem set_with set_mem] in Hs5. clear Eh1 Eh2.
  eapply (HR _ (with_lock ip (Sleeplock 0 0) fs2) s5); [exact Hs5|by apply with_lock_cache| |exact HL1|exact HL2].
  rewrite <- (with_lock_back ip (Sleeplock 1 (p_pid pr)) (Sleeplock 0 0) fs Hip Hl). fold fs1.
  unfold with_lock. cbn [sl_set itable set_with set_itable]. by rewrite Ei.
Qed.

(** Marking the process. *)
Lemma runs_kill_self (w : world) (s : kstate) (Q : unit -> kstate -> Prop) :
  inw p pr w s ->
  (forall s', k_heap s' = k_heap s -> k_fs s' = k_fs s -> p_killed (procs (k_pt s') !!! p) = 1 -> Q tt s') ->
  runs (upd_proc p (fun v => v <| p_killed := 1 |>)) s Q.
Proof using Hp.
  intros Hs HQ. apply runs_modify. apply HQ; [done|done|]. cbn [k_pt procs set_with set_k_pt set_procs].
  rewrite list_lookup_total_alter_eq; [done|]. rewrite (in_procs _ _ _ _ Hs). exact Hp.
Qed.

Section page.
Context (R : Z -> Prop) (lim va : Z) (h : heap) (fl lo : list Z) (v : vma) (f ip : nat).
Context (fs : fsys) (V : Z -> list Z) (K : Z -> Z) (lk : Z -> bool).
#[local] Abbreviation root := (p_pagetable pr).
#[local] Abbreviation ino := (itable fs !!! ip).
Hypothesis Hva : 0 <= va < lim.
Hypothesis Hcov : covers va v = true.
Hypothesis Haddr : 0 <= v_addr v.
Hypothesis Halign : v_addr v mod PGSIZE = 0.
Hypothesis Hoff : va - v_addr v + PGSIZE < 2 ^ 32.
Hypothesis Hf : v_f v = Some f.
Hypothesis Hip : f_ip (files ft !!! f) = Some ip.
Hypothesis Hrange : (ip < length (itable fs))%nat.
Hypothesis Href : 1 <= i_ref ino.
Hypothesis Hlock : i_lock ino = Sleeplock 0 0.
Hypothesis Hvalid : i_valid ino <> 0.
Hypothesis Hc : cache fs V K lk.
Hypothesis Hfew : few K.
Hypothesis Hfile : file_ok dv size V K lk ino.
Hypothesis Has : aspace R lim root h fl lo.
Hypothesis Hfree : trans (mem h) root va = None.

(** What the process sees afterwards. *)
Definition loaded (h' : heap) : Prop := forall x, 0 <= x < lim ->
  ucell (mem h') root x = if x / PGSIZE =? va / PGSIZE
    then Some (Z.lor (prot_perm (v_prot v)) PTE_V, file_byte V ino (x - v_addr v)) else ucell (mem h) root x.
Definition unloaded (h' : heap) : Prop := forall x, 0 <= x < lim -> ucell (mem h') root x = ucell (mem h) root x.

Lemma walked_cells (h' : heap) (fl' : list Z) : walked root h fl h' fl' -> unloaded h'.
Proof using Has.
  intros [Hl Hg] x Hx. pose proof (as_lim _ _ _ _ _ _ Has). apply (grows_cell R lim root x h h' fl lo fl'); [done|done|done|].
  by apply (same_leaves_pte root (mem h)).
Qed.

Lemma fault_page : let a := PGROUNDDOWN va in
  0 <= a < lim /\ a mod PGSIZE = 0 /\ 0 <= a - v_addr v /\ a - v_addr v + PGSIZE < 2 ^ 32 /\ a / PGSIZE = va / PGSIZE.
Proof using Hva Hcov Haddr Halign Hoff.
  clear Hp Hrange Href Hsize. cbv zeta. unfold covers in Hcov. apply andb_prop in Hcov as [[_ Hle%Z.leb_le]%andb_prop _].
  rewrite PGROUNDDOWN_spec by lia. pose proof (Z.mod_pos_bound va PGSIZE ltac:(done)) as Hm.
  pose proof (Z.div_mod va PGSIZE ltac:(done)) as Hd. apply Z.mod_divide in Halign as [k Hk]; [|done].
  assert (va - va mod PGSIZE = PGSIZE * (va / PGSIZE)) as -> by lia.
  assert (k <= va / PGSIZE) as Hkd by (apply Z.div_le_lower_bound; [done|lia]).
  assert ((PGSIZE * (va / PGSIZE)) mod PGSIZE = 0) as -> by (rewrite Z.mul_comm; by apply Z.mod_mul).
  rewrite (Z.mul_comm PGSIZE (va / PGSIZE)), Z.div_mul by done. unfold PGSIZE in *. split_and!; lia.
Qed.

Lemma loaded_mapped (page : Z) (h2 h3 : heap) (fl1 fl3 : list Z) :
  page_ok page -> walked root h fl h2 fl1 -> aspace R lim root h2 fl1 (page :: lo) -> grows root h2 fl1 h3 fl3 ->
  (forall i, 0 <= i < PGSIZE -> byte_at (mem h2) (page + i) = file_byte V ino (PGROUNDDOWN va - v_addr v + i)) ->
  (forall x, 0 <= x < MAXVA -> pte_of (mem h3) root x =
     if x / PGSIZE =? PGROUNDDOWN va / PGSIZE then leaf page (prot_perm (v_prot v)) else pte_of (mem h2) root x) ->
  loaded h3.
Proof using LOk Has Hva Hcov Haddr Halign Hoff.
  clear Hp Hrange Href Hsize. intros Hpg [Hl2 Hg2] Has2 Hg3 Hb Hpte x Hx. pose proof (as_lim _ _ _ _ _ _ Has) as Hlim.
  destruct fault_page as (_ & _ & _ & _ & Ea). rewrite Ea in Hpte.
  pose proof (page_ok_pos page Hpg) as Hpp. change PHYSTOP with 0x88000000 in Hpp. change KERNBASE with 0x80000000 in Hpp.
  destruct (Z.eqb_spec (x / PGSIZE) (va / PGSIZE)) as [Heq|Hne].
  - destruct (leaf_facts page (prot_perm (v_prot v))) as (_ & P2 & P3 & P4 & _); [lia|apply Hpg|apply prot_perm_ok|].
    unfold ucell, trans. rewrite (Hpte x) by lia. rewrite Heq, Z.eqb_refl, P3. cbn [mbind option_bind]. rewrite P4, P2.
    rewrite (loose_bytes R lim root page h2 h3 fl1 fl3 lo) by (done || apply cell_in_page).
    rewrite Hb by (apply Z.mod_pos_bound; done). do 3 f_equal. rewrite PGROUNDDOWN_spec by lia.
    pose proof (Z.div_mod va PGSIZE ltac:(done)). pose proof (Z.div_mod x PGSIZE ltac:(done)). lia.
  - apply (grows_cell R lim root x h h3 fl lo fl3); [done|by eapply grows_trans|done|].
    rewrite (Hpte x) by lia. rewrite (proj2 (Z.eqb_neq _ _)) by done. by apply (same_leaves_pte root (mem h)).
Qed.

Lemma runs_vma_page (s : kstate) (Q : unit -> kstate -> Prop) :
  inw p pr (here h ft fs) s ->
  (forall fl' s', aspace R lim root (k_heap s') fl' lo -> cache (k_fs s') V K lk -> itable (k_fs s') = itable fs ->
     p_killed (procs (k_pt s') !!! p) = p_killed pr /\ loaded (k_heap s') \/
     p_killed (procs (k_pt s') !!! p) = 1 /\ unloaded (k_heap s') -> Q tt s') ->
  runs (page ← kalloc;
        if page =? 0 then upd_proc p (fun v => v <| p_killed := 1 |>) else
        memset_at page 0 PGSIZE;;
        f ← deref (v_f v);
        w ← get_file f;
        ip ← deref (f_ip w);
        ilock ip;;
        readi ip (ToKernel page) (u32 (u64 (PGROUNDDOWN va - v_addr v))) PGSIZE;;
        iunlock ip;;
        r ← mappages root (PGROUNDDOWN va) PGSIZE page (prot_perm (v_prot v));
        if negb (r =? 0) then kfree page;; upd_proc p (fun v => v <| p_killed := 1 |>) else mret tt) s Q.
Proof using All.
  intros Hs HQ. destruct fault_page as (A1 & A2 & A3 & A4 & A5). pose proof (as_lim _ _ _ _ _ _ Has) as Hlim.
  eapply runs_fwp; [exact Hs|].
  apply (fwp_heap _ _ _ _ _ (fun page h1 => page = 0 /\ fl = [] /\ h1 = h \/
    exists fl1, fl = page :: fl1 /\ aspace R lim root h1 fl1 (page :: lo) /\ page_ok page /\
    (forall path j, inner path -> idx j -> pte_at (mem h1) root path j = pte_at (mem h) root path j) /\
    grows root h fl h1 fl1)); [unlocked| |].
  { apply (as_kalloc R lim root h fl lo); [done|by left|]. intros page fl1 h1 E1 H1 H2 H3 H4 _. right. by exists fl1. }
  intros page h1 Hk s1 Hs1. destruct Hk as [(-> & Hnil & Eh1)|(fl1 & Efl & Has1 & Hpg & HT1 & Hg1)].
  { rewrite Z.eqb_refl. apply (runs_kill_self _ _ _ Hs1). intros s' Eh' Efs' Hkill.
    apply (HQ fl); [|by rewrite Efs', (in_fs _ _ _ _ Hs1)|by rewrite Efs', (in_fs _ _ _ _ Hs1)|right; split; [done|]];
      rewrite Eh', (in_heap _ _ _ _ Hs1), Eh1; [exact Has|]. intros x _. reflexivity. }
  pose proof (page_ok_pos page Hpg) as Hpp. change PHYSTOP with 0x88000000 in Hpp. change KERNBASE with 0x80000000 in Hpp.
  rewrite (proj2 (Z.eqb_neq page 0)) by lia. rewrite (u64_small (PGROUNDDOWN va - v_addr v)) by (unfold is_u64, PGSIZE in *; lia).
  rewrite Hf. apply (runs_load_page f ip page _ h1 fs V K lk) with (1 := Hs1); try done.
  intros m2 fs2 s2 Hs2 Hc2 Ei2 Hsame Hbytes.
  destruct (filled_walked R lim root page h h1 m2 fl fl1 lo Efl Has1 HT1 Hg1 Hsame) as [Has2 Hw2].
  set (h2 := h1 <| mem := m2 |>) in *. pose proof Hw2 as [Hl2 Hg2].
  eapply runs_fwp; [exact Hs2|].
  apply (fwp_heap _ _ _ _ _ (fun r h3 => r = -1 /\ aspace R lim root h3 [] (page :: lo) /\ walked root h2 fl1 h3 [] \/
    r = 0 /\ exists fl3, aspace R lim root h3 fl3 lo /\ grows root h2 fl1 h3 fl3 /\
    forall x, 0 <= x < MAXVA -> pte_of (mem h3) root x =
      if x / PGSIZE =? PGROUNDDOWN va / PGSIZE then leaf page (prot_perm (v_prot v)) else pte_of (mem h2) root x)); [unlocked| |].
  { apply (mappages_one R lim root _ page _ h2 fl1 (page :: lo) lo); [done|lia|done|left; split; [lia|done]|lia|apply Hpg|apply prot_perm_ok| | |].
    - rewrite (same_leaves_pte root (mem h)) by done. rewrite (pte_of_page (mem h) root _ va) by done. by apply trans_None.
    - intros h3 H1 H2. by left.
    - intros fl3 h3 H1 H2 H3. right. split; [done|]. by exists fl3. }
  intros r h3 Hr s3 Hs3. destruct Hr as [(-> & Has3 & Hw3)|(-> & fl3 & Has3 & Hg3 & Hpte)]; cbn [negb Z.eqb].
  - eapply runs_fwp; [exact Hs3|].
    apply (fwp_heap _ _ _ _ _ (fun _ h4 => aspace R lim root h4 [page] lo /\ walked root h fl h4 [page])); [unlocked| |].
    { apply (as_kfree R lim root h3 [] lo page); [done|]. intros h4 Hf4 Has4 HT4. split; [done|].
      apply (freed_walked R lim root page h h3 h4 fl [] lo); [rewrite Efl; by left| |done..].
      by apply (walked_trans root h h2 h3 fl fl1 []). }
    intros _ h4 [Has4 Hw4] s4 Hs4. apply (runs_kill_self _ _ _ Hs4). intros s' Eh' Efs' Hkill.
    apply (HQ [page]); [|by rewrite Efs', (in_fs _ _ _ _ Hs4)|by rewrite Efs', (in_fs _ _ _ _ Hs4)|right; split; [done|]];
      rewrite Eh', (in_heap _ _ _ _ Hs4); [exact Has4|]. exact (walked_cells h4 [page] Hw4).
  - apply runs_ret. apply (HQ fl3); [|by rewrite (in_fs _ _ _ _ Hs3)|by rewrite (in_fs _ _ _ _ Hs3)|left; split];
      rewrite ?(in_heap _ _ _ _ Hs3); [exact Has3| |exact (loaded_mapped page h2 h3 fl1 fl3 Hpg Hw2 Has2 Hg3 Hbytes Hpte)].
    destruct (in_proc _ _ _ _ Hs3) as (st & ch & ->). done.
Qed.
End page.
End fault.

(** C2. Touching a page of a mapped file loads it.  On a page fault at an
    address that a mapping covers and that has no page yet, the handler either
    gives the process exactly that page, with the permissions of the mapping
    and the contents of the file from the page's offset on, zeros after the
    end of the file, or, when memory runs out, marks the process killed and
    returns all memory it took; every other address of the process reads as
    before, the file's inode is unlocked again and the block cache intact. *)
Theorem mmap_fault_loads {L : Linker} {LOk : LinkerOk L} {E : Env} (dv size : Z) (p : nat) (pr : proc)
    (R : Z -> Prop) (lim va : Z) (h : heap) (ft : ftable) (fl lo : list Z) (v : vma) (f ip : nat)
    (V : Z -> list Z) (K : Z -> Z) (lk : Z -> bool) (s : kstate) :
  let ino := itable (k_fs s) !!! ip in let root := p_pagetable pr in
  (p < NPROC)%nat -> disk_serves p -> size <= 2 ^ 31 -> inw p pr (World [] h ft (k_fs s)) s ->
  stval (k_ctl s) = va -> 0 <= va < lim -> va < p_sz pr ->
  PGROUNDUP va <> PGROUNDDOWN (load64 (mem h) (p_trapframe pr + tf_sp)) ->
  find_vma va pr = Some v -> 0 <= v_addr v -> v_addr v mod PGSIZE = 0 -> va - v_addr v + PGSIZE < 2 ^ 32 ->
  v_f v = Some f -> f_ip (files ft !!! f) = Some ip ->
  (ip < length (itable (k_fs s)))%nat -> 1 <= i_ref ino -> i_lock ino = Sleeplock 0 0 -> i_valid ino <> 0 ->
  cache dv size pr (k_fs s) V K lk -> few K -> file_ok dv size V K lk ino ->
  aspace R lim root h fl lo -> trans (mem h) root va = None ->
  runs (vma_fault p) s (fun _ s' =>
    (exists fl', aspace R lim root (k_heap s') fl' lo) /\
    cache dv size pr (k_fs s') V K lk /\ itable (k_fs s') = itable (k_fs s) /\
    (p_killed (procs (k_pt s') !!! p) = p_killed pr /\ (forall x, 0 <= x < lim ->
       ucell (mem (k_heap s')) root x = if x / PGSIZE =? va / PGSIZE
         then Some (Z.lor (prot_perm (v_prot v)) PTE_V, file_byte V ino (x - v_addr v)) else ucell (mem h) root x) \/
     p_killed (procs (k_pt s') !!! p) = 1 /\ (forall x, 0 <= x < lim ->
       ucell (mem (k_heap s')) root x = ucell (mem h) root x))).
Proof.
  intros ino root Hp Henv Hsize Hs Hst Hva Hsz Hsp Hfind Haddr Hal Hoff Hf Hip Hrange Href Hlock Hvalid Hc Hfew Hfile Has Hfree.
  assert (covers va v = true) as Hcov by (by apply List.find_some in Hfind as [_ ?]).
  pose proof (as_lim _ _ _ _ _ _ Has) as Hlim.
  unfold vma_fault. apply runs_bind, runs_gets. rewrite Hst. apply (runs_fwp p pr _ _ _ _ _ Hs), fwp_get_proc.
  intros st ch s1 Hs1. apply (runs_fwp p pr _ _ _ _ _ Hs1).
  apply (fwp_heap _ _ _ _ _ (fun a h' => a = load64 (mem h) (p_trapframe pr + tf_sp) /\ h' = h)); [unlocked|by apply hwp_ld64|].
  intros sp h' [-> ->] s2 Hs2. cbn [p_sz set_with set_p_state set_p_chan].
  rewrite (proj2 (Z.leb_gt _ _)), (proj2 (Z.ltb_ge _ _)), (proj2 (Z.eqb_neq _ _)) by (done || lia). cbn [orb].
  apply runs_bind, runs_ret. apply (runs_fwp p pr _ _ _ _ _ Hs2), fwp_find_vma. fold (find_vma va pr). rewrite Hfind. intros s3 Hs3.
  apply (runs_vma_page dv size p pr ft Hp Henv Hsize R lim va h fl lo v f ip (k_fs s) V K lk); [try done..|].
  intros fl' s' Has' Hc' Hi' Hout. split; [by exists fl'|]. split; [done|]. split; [done|exact Hout].
Qed.

(** A process that has mapped a file of 1500 bytes at address 0 and touches
    byte 100 of it. *)
Definition mmap_ctl : ctl := demo_ctl <| stval := 100 |>.
Definition mmap_vma : vma := Vma 1 0 4096 (Some 0%nat) PROT_READ MAP_PRIVATE 3 0.
Definition mmap_pt : ptable :=
  demo_pt <| procs := alter (fun v => v <| p_pagetable := Demo.root |> <| p_sz := 4096 |> <| p_vma := [mmap_vma] |>) 0%nat (procs demo_pt) |>.
Definition mmap_inode : inode := demo_inode <| i_lock := Sleeplock 0 0 |>.
Definition mmap_ft : ftable := Ftable [File FD_INODE 2 1 0 0 (Some 0%nat) 0 0] ∅.
Definition mmap_state (bs : list buf) : kstate :=
  KState mmap_ctl Demo.h0 mmap_pt mmap_ft ((log_fs bs) <| itable := [mmap_inode] |>) demo_vd (k_dev (demo_state demo_ctl)) 0.

Lemma mmap_state_in (bs : list buf) :
  inw 0 (procs mmap_pt !!! 0%nat) (World [] Demo.h0 mmap_ft (k_fs (mmap_state bs))) (mmap_state bs).
Proof.
  split; try reflexivity.
  - exists mmap_ctl. split; [reflexivity|]. split; [|reflexivity].
    split; [split; [by split; vm_compute|reflexivity]|reflexivity].
  - by exists RUNNING, Ch0.
  - apply (in_vd _ _ _ _ (demo_inw _ (Heap ∅ 0 0) (k_ft (demo_state demo_ctl)) demo_fs eq_refl)).
Qed.

Lemma mmap_fault_loads_witness : exists bs,
  runs (vma_fault (L := demo_linker) (E := machine_env) 0) (mmap_state bs) (fun _ s' =>
    p_killed (procs (k_pt s') !!! 0%nat) = 1 \/
    ucell (mem (k_heap s')) Demo.root 100 = Some (Z.lor (Z.lor PTE_U PTE_R) PTE_V, 13) /\
    ucell (mem (k_heap s')) Demo.root 1400 = Some (Z.lor (Z.lor PTE_U PTE_R) PTE_V, 14) /\
    ucell (mem (k_heap s')) Demo.root 2000 = Some (Z.lor (Z.lor PTE_U PTE_R) PTE_V, 0)).
Proof.
  destruct demo_ring as [bs Hr]. exists bs.
  assert (forall x, 0 <= x < 20 -> disk (log_fs bs) !!! x = demo_block x) as HV.
  { intros x Hx. apply lookup_total_correct. by apply log_fs_block. }
  eapply runs_mono; [apply (mmap_fault_loads (L := demo_linker) (LOk := demo_linker_ok) (E := machine_env) 1 20 0
    (procs mmap_pt !!! 0%nat) Demo.pages TRAPFRAME 100 Demo.h0 mmap_ft Demo.free_pages [] mmap_vma 0 0
    (fun x => disk (log_fs bs) !!! x) (fun _ => 0) nolock (mmap_state bs))|].
  - vm_compute. lia.
  - exact (machine_serves 0).
  - lia.
  - exact (mmap_state_in bs).
  - reflexivity.
  - split; [lia|reflexivity].
  - vm_compute. reflexivity.
  - vm_compute. discriminate.
  - reflexivity.
  - vm_compute. discriminate.
  - reflexivity.
  - vm_compute. reflexivity.
  - reflexivity.
  - reflexivity.
  - vm_compute. lia.
  - vm_compute. discriminate.
  - reflexivity.
  - vm_compute. discriminate.
  - refine (ring_cache 1 20 (procs mmap_pt !!! 0%nat) ((log_fs bs) <| itable := [mmap_inode] |>) Hr _ _); [discriminate|].
    intros x Hx. eexists. by apply log_fs_block.
  - exists []. split; [intros blk Hx; destruct (Hx eq_refl)|vm_compute; lia].
  - exact (file_ok_lock 1 20 (Sleeplock 0 0) demo_inode _ _ _ (demo_file_ok bs)).
  - exact Demo.space0.
  - exact (Demo.empty0 100).
  - intros _ s' (_ & _ & _ & [[_ Hcell]|[Hk _]]); [right|by left].
    assert (TRAPFRAME = 274877898752) as Et by reflexivity. rewrite Et in Hcell.
    rewrite !Hcell by lia.
    change (100 / PGSIZE =? 100 / PGSIZE) with true. change (1400 / PGSIZE =? 100 / PGSIZE) with true.
    change (2000 / PGSIZE =? 100 / PGSIZE) with true. cbv iota. unfold file_byte.
    change (100 - v_addr mmap_vma) with 100. change (1400 - v_addr mmap_vma) with 1400. change (2000 - v_addr mmap_vma) with 2000.
    change (itable (k_fs (mmap_state bs)) !!! 0%nat) with mmap_inode.
    change (100 <? i_size mmap_inode) with true. change (1400 <? i_size mmap_inode) with true. change (2000 <? i_size mmap_inode) with false.
    unfold fbyte. change (fblk _ mmap_inode (100 / BSIZE)) with 13. change (fblk _ mmap_inode (1400 / BSIZE)) with 14.
    cbv iota beta. rewrite !HV by lia. split; [reflexivity|]. split; reflexivity.
Defined.
