(* ===== verification/MmapSys.v ===== *)
(** * Mapping and unmapping files (theorems on sys_mmap and sys_munmap) *)
From S2P Require Import Prelude Memory Riscv State Spinlock Cstring Kalloc Steps Pagetable Vm VmSpec Uvm Usercopy AddressSpace Proc ProcSpec ProcMem UserMem Plic Console ConsoleSpec Virtio VirtioSpec Sleeplock FsLogic Bio BioSpec Log LogSpec FsTx Fs FsAlloc FsSpec FsInode FsData FsWrite Pipe File FileSpec FsTrunc Exec Fork ForkSpec Sysfile Trap MmapSpec.

(** Register a[n] of the process at the system call. *)
Definition reg (pr : proc) (h : heap) (n : Z) : Z := load64 (mem h) (p_trapframe pr + tf_a0 + 8 * n).

Section args.
Context {h : heap} {pt : ptable} {ft : ftable} {fs : fsys} {vd : vdisk} {dev : devs} {n : nat}.
Context (c : ctl) (p : nat).
Hypothesis Hc : cpu_ok c.
Hypothesis Hcur : cur c = Some p.

Lemma kargaddr (k : Z) (Q : Z -> kstate -> Prop) :
  0 <= k <= 5 -> Q (reg (procs pt !!! p) h k) (KState c h pt ft fs vd dev n) ->
  runs (argaddr k) (KState c h pt ft fs vd dev n) Q.
Proof using Hc Hcur.
  intros Hk HQ. unfold argaddr, argraw. apply runs_bind, (kcurproc _ p); [done|done|]. kstep. kstep.
  rewrite (proj2 (Z.leb_le 0 k)), (proj2 (Z.leb_le k 5)) by lia. unfold ld64, get_mem. by ksteps.
Qed.

Lemma kargint (k : Z) (Q : Z -> kstate -> Prop) :
  0 <= k <= 5 -> Q (i32 (reg (procs pt !!! p) h k)) (KState c h pt ft fs vd dev n) ->
  runs (argint k) (KState c h pt ft fs vd dev n) Q.
Proof using Hc Hcur. intros Hk HQ. unfold argint. apply runs_bind, kargaddr; [done|]. by apply runs_ret. Qed.

(** The open file that a descriptor stands for. *)
Definition fd_file (pr : proc) (fd : Z) : option nat :=
  if (fd <? 0) || (Z.of_nat NOFILE <=? fd) then None else p_ofile pr !!! Z.to_nat fd.

Lemma kargfd (k : Z) (Q : option (Z * nat) -> kstate -> Prop) :
  let fd := i32 (reg (procs pt !!! p) h k) in
  0 <= k <= 5 -> Q (f ← fd_file (procs pt !!! p) fd; Some (fd, f)) (KState c h pt ft fs vd dev n) ->
  runs (argfd k) (KState c h pt ft fs vd dev n) Q.
Proof using Hc Hcur.
  intros fd Hk HQ. unfold argfd. apply runs_bind, kargint; [done|]. fold fd. unfold fd_file in HQ.
  destruct ((fd <? 0) || (Z.of_nat NOFILE <=? fd)); [by apply runs_ret|].
  apply runs_bind, (kcurproc _ p); [done|done|]. by ksteps.
Qed.
End args.

Lemma fd_file_open (pr : proc) (fd : Z) (f : nat) : fd_file pr fd = Some f -> Some f ∈ p_ofile pr.
Proof.
  unfold fd_file. destruct (_ || _); [done|]. intros E. rewrite list_lookup_total_alt in E.
  destruct (p_ofile pr !! Z.to_nat fd) as [o|] eqn:Eo; [|done]. cbn in E. subst o. by eapply list_elem_of_lookup_2.
Qed.

Lemma find_only {A} (P : A -> bool) (g : nat -> A) (l : list nat) (i : nat) :
  (forall j, j ∈ l -> j <> i -> P (g j) = false) -> P (g i) = true -> i ∈ l -> List.find P (g <$> l) = Some (g i).
Proof.
  intros Hne Hi. induction l as [|j l IH]; intros Hin; [by apply not_elem_of_nil in Hin|]. cbn [fmap list_fmap List.find].
  destruct (decide (j = i)) as [->|Hj]; [by rewrite Hi|]. rewrite (Hne j) by (done || by left).
  apply IH; [|by apply elem_of_cons in Hin as [->|?]]. intros k Hk. apply Hne. by right.
Qed.

Lemma find_same {A} (P : A -> bool) (g g' : nat -> A) (l : list nat) :
  (forall j, j ∈ l -> g' j = g j \/ P (g' j) = false /\ P (g j) = false) ->
  List.find P (g' <$> l) = List.find P (g <$> l).
Proof.
  induction l as [|j l IH]; intros Hl; [done|]. cbn [fmap list_fmap List.find].
  rewrite IH by (intros k Hk; apply Hl; by right). by destruct (Hl j) as [->|[-> ->]]; [by left| |].
Qed.

(** ** sys_mmap *)

(** The first unused entry of a table of mappings. *)
Definition first_free (l : list vma) (i : nat) : Prop :=
  (i < VMASIZE)%nat /\ v_valid (l !!! i) = 0 /\ forall j, (j < i)%nat -> v_valid (l !!! j) <> 0.

Section mmap.
Context (c : ctl) (h : heap) (pt : ptable) (ft : ftable) (fs : fsys) (vd : vdisk) (dev : devs) (n : nat) (p : nat).
Let pr : proc := procs pt !!! p.
Let len : Z := pground_int (i32 (reg pr h 1)).
Let prot : Z := i32 (reg pr h 2).
Let flags : Z := i32 (reg pr h 3).
Let fd : Z := i32 (reg pr h 4).
Let offset : Z := i32 (reg pr h 5).
Hypothesis Hc : calm c.
Hypothesis Hcur : cur c = Some p.
Hypothesis Hp : (p < length (procs pt))%nat.
Hypothesis Hvma : length (p_vma pr) = VMASIZE.
Hypothesis Hopen : opened ft (p_ofile pr).

(** A shared mapping for writing needs a file opened for writing. *)
Definition may_map (f : nat) : bool :=
  negb ((f_writable (files ft !!! f) =? 0) && truth (Z.land prot PROT_WRITE) && (flags =? MAP_SHARED)).

Definition mmapped (v : vma) (f : nat) : vma := Vma 1 (p_sz pr) len (Some f) prot flags (v_fd v) offset.

Definition mmap_done (r : Z) (s : kstate) : Prop :=
  match fd_file pr fd with
  | Some f =>
      if may_map f && (p_sz pr <=? u64 (MAXVA - len)) then
        (r = -1 /\ s = KState c h pt ft fs vd dev n /\ forall i, (i < VMASIZE)%nat -> v_valid (p_vma pr !!! i) <> 0) \/
        exists i, first_free (p_vma pr) i /\ r = p_sz pr /\
          s = KState c h (with_proc pt p (pr <| p_vma := alter (fun v => mmapped v f) i (p_vma pr) |> <| p_sz := u64 (p_sz pr + len) |>))
            (ft <| files := alter (fun v => v <| f_ref := f_ref v + 1 |>) f (files ft) |>) fs vd dev n
      else r = -1 /\ s = KState c h pt ft fs vd dev n
  | None => r = -1 /\ s = KState c h pt ft fs vd dev n
  end.

Lemma ksys_mmap : runs sys_mmap (KState c h pt ft fs vd dev n) mmap_done.
Proof using All.
  pose proof (calm_ok _ Hc) as Hcpu. unfold sys_mmap.
  apply runs_bind, (kargaddr c p); [done|done|lia|]. apply runs_bind, (kargint c p); [done|done|lia|].
  apply runs_bind, (kargint c p); [done|done|lia|]. apply runs_bind, (kargint c p); [done|done|lia|].
  apply runs_bind, (kargfd c p); [done|done|lia|]. fold pr. fold fd. unfold mmap_done.
  destruct (fd_file pr fd) as [f|] eqn:Ef; cbn [mbind option_bind]; [|by apply runs_ret].
  apply runs_bind, (kargint c p); [done|done|lia|]. fold pr. fold offset. fold flags. fold prot. kstep. kstep.
  unfold may_map. destruct (_ && _ && _); cbn [negb andb]; [by apply runs_ret|].
  apply runs_bind, (kcurproc _ p); [done|done|]. cbv zeta. fold len. kstep. kstep. fold pr.
  rewrite Z.leb_antisym. destruct (u64 (MAXVA - len) <? p_sz pr); cbn [negb]; [by apply runs_ret|].
  apply runs_bind.
  apply (runs_for_until (fun l s => s = KState c h pt ft fs vd dev n /\ exists k, l = seq k (VMASIZE - k) /\ (k <= VMASIZE)%nat /\
    forall j, (j < k)%nat -> v_valid (p_vma pr !!! j) <> 0)).
  - split; [done|]. exists 0%nat. split_and!; [done|lia|]. intros j Hj. lia.
  - intros i l s (-> & k & El & Hk & Hlow). destruct (decide (k = VMASIZE)) as [->|Hne]; [by rewrite Nat.sub_diag in El|].
    replace (VMASIZE - k)%nat with (S (VMASIZE - S k)) in El by lia. injection El as -> ->.
    kstep. kstep. fold pr. destruct (Z.eqb_spec (v_valid (p_vma pr !!! k)) 0) as [Hv|Hv].
    + rewrite <- (with_proc_same pt p) at 1. fold pr. apply runs_bind, kupd_slot; [done|].
      apply runs_bind, kfiledup; [done|kside|by apply Hopen, (fd_file_open _ _ _ Ef)|].
      apply runs_bind, kupd_slot; [done|]. apply runs_ret, runs_ret. right. exists k.
      split; [by split; [lia|]|]. split; reflexivity.
    + kstep. split; [done|]. exists (S k). split_and!; [done|lia|]. intros j Hj.
      destruct (decide (j = k)) as [->|]; [done|]. apply Hlow. lia.
  - intros s (-> & k & El & Hk & Hlow). apply runs_ret. left. split_and!; [done|done|]. intros i Hi. apply Hlow.
    destruct (VMASIZE - k)%nat eqn:E; [lia|done].
Qed.

(** The new mapping covers exactly the addresses between the old and the new
    size; the other addresses are mapped as before. *)
Lemma mmap_covers (i f : nat) (va : Z) :
  let pr' := pr <| p_vma := alter (fun v => mmapped v f) i (p_vma pr) |> <| p_sz := u64 (p_sz pr + len) |> in
  first_free (p_vma pr) i -> 0 <= p_sz pr -> 0 < len -> p_sz pr + len <= MAXVA ->
  (forall v, v ∈ p_vma pr -> v_valid v <> 0 -> u64 (v_addr v + v_len v) <= p_sz pr) ->
  find_vma va pr' = if (p_sz pr <=? va) && (va <? p_sz pr + len) then Some (mmapped (p_vma pr !!! i) f) else find_vma va pr.
Proof using Hvma.
  clear Hc Hcur Hp Hopen. intros pr' (Hi & Hv & _) Hsz Hlen Hmax Hbelow. unfold find_vma.
  set (new := mmapped (p_vma pr !!! i) f). assert (covers va new = (p_sz pr <=? va) && (va <? p_sz pr + len)) as Ec.
  { unfold covers, new, mmapped. cbn. by rewrite u64_small by (unfold is_u64; plia). }
  assert (forall j, p_vma pr' !!! j = if decide (j = i) then new else p_vma pr !!! j) as Ej.
  { intros j. unfold pr'. cbn. rewrite alter_insert_total. case_decide as Hj; [subst j|].
    - apply list_lookup_total_insert_eq. lia.
    - by apply list_lookup_total_insert_ne. }
  assert (forall j, (j < VMASIZE)%nat -> j <> i -> (p_sz pr <=? va) = true -> covers va (p_vma pr !!! j) = false) as Hold.
  { intros j Hj Hne Hva. unfold covers. destruct (Z.eqb_spec (v_valid (p_vma pr !!! j)) 0) as [E0|E0]; [by rewrite E0|].
    specialize (Hbelow (p_vma pr !!! j) ltac:(apply list_elem_of_lookup_total_2; lia) E0). lia. }
  rewrite <- Ec. destruct (covers va new) eqn:Hnew.
  - replace (Some new) with (Some (p_vma pr' !!! i)) by (by rewrite Ej, decide_True). apply (find_only _ (fun j => p_vma pr' !!! j)).
    + intros j Hj Hne. apply elem_of_seq in Hj. rewrite Ej, decide_False by done. apply Hold; [lia|done|lia].
    + by rewrite Ej, decide_True.
    + apply elem_of_seq. lia.
  - apply find_same. intros j _. rewrite Ej. case_decide as Hj; [right|by left]. subst j. split; [done|].
    unfold covers. by rewrite Hv.
Qed.
End mmap.

(** ** sys_munmap *)

(** The first mapping that contains an address; unused entries have length 0. *)
Definition holds_va (va : Z) (v : vma) : bool := (v_addr v <=? va) && (va <? u64 (v_addr v + v_len v)).
Definition first_holds (va : Z) (l : list vma) (i : nat) : Prop :=
  (i < VMASIZE)%nat /\ holds_va va (l !!! i) = true /\ forall j, (j < i)%nat -> holds_va va (l !!! j) = false.

Lemma kfind_map (va : Z) (p i : nat) (c : ctl) h pt ft fs vd dev n (Q : option nat -> kstate -> Prop) :
  first_holds va (p_vma (procs pt !!! p)) i -> Q (Some i) (KState c h pt ft fs vd dev n) ->
  runs (for_until (seq 0 VMASIZE) (fun i =>
    pr ← get_proc p;
    let v := p_vma pr !!! i in
    if (v_addr v <=? va) && (va <? u64 (v_addr v + v_len v)) then mret (Some i) else mret None))
    (KState c h pt ft fs vd dev n) Q.
Proof.
  intros (Hi & Hv & Hlow) HQ.
  apply (runs_for_until (fun l s => s = KState c h pt ft fs vd dev n /\ exists k, l = seq k (VMASIZE - k) /\ (k <= i)%nat)).
  - split; [done|]. exists 0%nat. split; [done|lia].
  - intros j l s (-> & k & El & Hk). replace (VMASIZE - k)%nat with (S (VMASIZE - S k)) in El by lia. injection El as -> ->.
    kstep. kstep. cbv zeta. fold (holds_va va (p_vma (procs pt !!! p) !!! k)). destruct (decide (k = i)) as [->|Hne].
    + rewrite Hv. by kstep.
    + rewrite Hlow by lia. kstep. split; [done|]. exists (S k). split; [done|lia].
  - intros s (-> & k & El & Hk). destruct (VMASIZE - k)%nat eqn:E; [lia|done].
Qed.

Lemma cache_pid (dv size : Z) (pr pr' : proc) (fs : fsys) V K lk :
  p_pid pr' = p_pid pr -> cache dv size pr fs V K lk -> cache dv size pr' fs V K lk.
Proof.
  intros Hpid []. split; try done. intros i Hi. destruct (ca_buf i Hi). split; try done. intros Hd. rewrite bo_lock by done.
  by rewrite Hpid.
Qed.

Lemma rest_pid (dv size start nlog : Z) (pr pr' : proc) (fs : fsys) V :
  p_pid pr' = p_pid pr -> rest dv size start nlog pr fs V -> rest dv size start nlog pr' fs V.
Proof. intros Hpid []. split; try done. by eapply cache_pid. Qed.

(** The world of a process whose entry changes. *)
Lemma inw_upd (p : nat) (pr pr' : proc) (f : proc -> proc) (w : world) (s : kstate) :
  (p < NPROC)%nat -> inw p pr w s -> (forall st ch, f (pr <| p_state := st |> <| p_chan := ch |>) = pr' <| p_state := st |> <| p_chan := ch |>) ->
  inw p pr' w (s <| k_pt := (k_pt s) <| procs := alter f p (procs (k_pt s)) |> |>).
Proof.
  intros Hp [H1 H2 (st & ch & H3) H4 H5 H6 H7] Hf. destruct s as [c h pt ft fs vd dev n]. split; try done.
  - unfold procs_ok in *. cbn in *. by rewrite length_alter.
  - exists st, ch. cbn in *. rewrite alter_insert_total, list_lookup_total_insert_eq by (by rewrite H2). by rewrite H3, Hf.
Qed.

Section munmap.
Context {L : Linker} {LOk : LinkerOk L} {E : Env} {H : Hw}.
Context (p i f : nat) (pr : proc) (R : Z -> Prop) (lim addr len : Z) (h : heap) (fl lo : list Z).
Let v : vma := p_vma pr !!! i.
Let root : Z := p_pagetable pr.

(** The table of mappings after the first [len] bytes of mapping [i] are
    gone: it starts later, or is unused when nothing is left. *)
Definition cut_vma (w : vma) : vma :=
  let w := w <| v_addr := addr + len |> <| v_len := v_len w - len |> in
  if v_len w =? 0 then w <| v_valid := 0 |> else w.
Definition cut_proc : proc := pr <| p_vma := alter cut_vma i (p_vma pr) |>.
Definition cut_files (ft : ftable) : ftable := if len =? v_len v then close_ft f ft else ft.

Hypothesis Hp : (p < NPROC)%nat.
Hypothesis Hvma : length (p_vma pr) = VMASIZE.
Hypothesis Hfirst : first_holds addr (p_vma pr) i.
Hypothesis Haddr : v_addr v = addr.
Hypothesis Hal : addr mod PGSIZE = 0 /\ len mod PGSIZE = 0.
Hypothesis Hlen : 0 < len <= v_len v.
Hypothesis Hbound : 0 <= addr /\ addr + len <= lim /\ v_len v < 2 ^ 31.
Hypothesis Has : aspace R lim root h fl lo.
Hypothesis Htab : tables (mem h) root addr (addr + len).
Hypothesis Hf : v_f v = Some f.

(** What is left of the memory. *)
Definition unmapped_space (h' : heap) : Prop :=
  (exists fl', aspace R lim root h' fl' lo) /\
  forall x, 0 <= x < lim -> ucell (mem h') root x = if (addr <=? x) && (x <? addr + len) then None else ucell (mem h) root x.

Lemma munmap_pages (Q : unit -> heap -> Prop) :
  (forall h', unmapped_space h' -> Q tt h') -> hwp (uvmunmap root addr (u64 (Z.quot len PGSIZE)) true) h Q.
Proof using All.
  intros HQ. pose proof (as_lim _ _ _ _ _ _ Has) as Hlim. destruct Hal as [Ha1 Ha2]. destruct Hbound as (B1 & B2 & B3).
  assert (Z.quot len PGSIZE * PGSIZE = len) as Eq.
  { rewrite Z.quot_div_nonneg by (plia || lia). apply Z.mod_divide in Ha2 as [k ->]; [|done]. by rewrite Z.div_mul. }
  assert (0 <= Z.quot len PGSIZE) by (apply Z.quot_pos; [lia|done]).
  rewrite u64_small by (unfold is_u64; plia).
  apply (uvmunmap_spec R lim root addr (Z.quot len PGSIZE) true h fl lo); rewrite ?Eq; try done; try lia.
  intros h' fl' Has' Hu _. apply HQ. split; [by exists fl'|]. intros x Hx.
  assert ((addr + len) mod PGSIZE = 0) as Ha3 by (by rewrite Z.add_mod, Ha1, Ha2).
  by apply (unmapped_cell R lim root addr (addr + len) x h h' fl lo).
Qed.

(** The process after the mapping has been moved, before the pages go. *)
Definition moved_vma (w : vma) : vma := w <| v_addr := addr + len |> <| v_len := v_len w - len |>.
Definition moved_proc : proc := pr <| p_vma := alter moved_vma i (p_vma pr) |>.

Lemma moved_at : p_vma moved_proc !!! i = moved_vma v.
Proof using Hvma Hfirst. unfold moved_proc. cbn. rewrite alter_insert_total. apply list_lookup_total_insert_eq. rewrite Hvma. apply Hfirst. Qed.

Lemma cut_moved :
  p_vma cut_proc = if len =? v_len v then alter (fun w => w <| v_valid := 0 |>) i (p_vma moved_proc) else p_vma moved_proc.
Proof.
  unfold cut_proc, moved_proc. cbn [p_vma set_with set_p_vma]. destruct (Z.eqb_spec len (v_len v)) as [El|El].
  - rewrite list_alter_alter_eq. apply alter_ext_total. fold v. unfold cut_vma, moved_vma. cbn. by rewrite (proj2 (Z.eqb_eq _ _)) by lia.
  - apply alter_ext_total. fold v. unfold cut_vma, moved_vma. cbn. by rewrite (proj2 (Z.eqb_neq _ _)) by lia.
Qed.

(** After the pages, the reference to the file: [C] is what closing it leaves. *)
Lemma munmap_tail (ft fs : _) (C : world -> Prop) (s : kstate) (Q : Z -> kstate -> Prop) :
  inw p moved_proc (World [] h ft fs) s ->
  (len = v_len v -> forall h', fwp p moved_proc (fileclose f) (World [] h' ft fs) (fun _ w => w_locks w = [] /\ w_heap w = h' /\ w_ft w = close_ft f ft /\ C w)) ->
  (forall h' fs' s', unmapped_space h' -> (if len =? v_len v then C (World [] h' (cut_files ft) fs') else fs' = fs) ->
     inw p cut_proc (World [] h' (cut_files ft) fs') s' -> Q 0 s') ->
  runs (uvmunmap root addr (u64 (Z.quot len PGSIZE)) true;;
    pr ← get_proc p;
    (if v_len (p_vma pr !!! i) =? 0 then
       f ← deref (v_f v);
       fileclose f;;
       upd_vma p i (fun v => v <| v_valid := 0 |>)
     else mret tt);;
    mret 0) s Q.
Proof using All.
  intros Hs Hclose HQ. apply inw_open in Hs as (c & pt & vd & dev & n & -> & Hc & Hpt & (st & ch & Hpr) & Hvd). cbn [held].
  pose proof Hc as [[Hcalm _] _]. pose proof (calm_ok _ Hcalm) as Hcpu.
  apply runs_bind, (kheap _ _ (fun _ h' => unmapped_space h')); [done|kside|by apply munmap_pages|].
  intros [] h' Hu. kstep. kstep. rewrite Hpr. change (p_vma (moved_proc <| p_state := st |> <| p_chan := ch |>)) with (p_vma moved_proc).
  rewrite moved_at. unfold moved_vma. cbn [v_len set_with set_v_len].
  pose proof cut_moved as Hcut. unfold cut_files in HQ.
  assert (inw p moved_proc (World [] h' ft fs) (KState c h' pt ft fs vd dev n)) as Hin.
  { apply (inw_close p moved_proc []); [done|done|by exists st, ch|exact Hvd]. }
  destruct (Z.eqb_spec len (v_len v)) as [El|El].
  - rewrite (proj2 (Z.eqb_eq _ _)) by lia. rewrite Hf.
    apply runs_bind, runs_bind, runs_ret, (runs_fwp p moved_proc _ _ _ _ _ Hin).
    eapply fwp_mono; [exact (Hclose El h')|]. intros [] [ls h1 ft1 fs1]. cbn [w_locks w_heap w_ft].
    intros (-> & -> & -> & HC) s1 Hs1. apply runs_modify. kred. apply runs_ret. apply (HQ h' fs1); [done|done|].
    apply (inw_upd p moved_proc cut_proc (fun v => v <| p_vma := alter (fun w => w <| v_valid := 0 |>) i (p_vma v) |>)); [done|exact Hs1|].
    intros st' ch'. unfold cut_proc in *. cbn [p_vma set_with set_p_vma] in Hcut. rewrite Hcut.
    reflexivity.
  - rewrite (proj2 (Z.eqb_neq _ _)) by lia. apply runs_bind, runs_ret, runs_ret. apply (HQ h' fs); [done|done|].
    replace cut_proc with moved_proc; [apply Hin|]. unfold cut_proc, moved_proc in *. cbn [p_vma set_with set_p_vma] in Hcut. by rewrite Hcut.
Qed.

Lemma munmap_head (ft fs : _) (s : kstate) (Q : Z -> kstate -> Prop) :
  inw p pr (World [] h ft fs) s -> PGROUNDDOWN (reg pr h 0) = addr -> pground_int (i32 (reg pr h 1)) = len ->
  (forall s1, inw p moved_proc (World [] h ft fs) s1 ->
     runs ((if truth (Z.land (v_flags v) MAP_SHARED) then f ← deref (v_f v); filewrite f addr len;; mret tt else mret tt);;
       uvmunmap root addr (u64 (Z.quot len PGSIZE)) true;;
       pr ← get_proc p;
       (if v_len (p_vma pr !!! i) =? 0 then
          f ← deref (v_f v);
          fileclose f;;
          upd_vma p i (fun v => v <| v_valid := 0 |>)
        else mret tt);;
       mret 0) s1 Q) ->
  runs sys_munmap s Q.
Proof using All.
  intros Hs Ea El HQ. pose proof Hs as Hs0. pose proof (as_lim _ _ _ _ _ _ Has) as Hlim. destruct Hbound as (B1 & B2 & B3).
  apply inw_open in Hs as (c & pt & vd & dev & n & -> & Hc & Hpt & (st & ch & Hpr) & Hvd). cbn [held] in *.
  pose proof Hc as [[Hcalm _] Hcur]. pose proof (calm_ok _ Hcalm) as Hcpu. unfold sys_munmap.
  apply runs_bind, (kargaddr c p); [done|done|lia|]. apply runs_bind, (kargint c p); [done|done|lia|].
  rewrite Hpr. change (reg (pr <| p_state := st |> <| p_chan := ch |>)) with (reg pr). rewrite Ea, El. cbv zeta.
  apply runs_bind, (kcurproc _ p); [done|done|]. apply runs_bind, (kfind_map addr p i); [by rewrite Hpr|].
  kstep. kstep. rewrite Hpr. change (p_vma (pr <| p_state := st |> <| p_chan := ch |>)) with (p_vma pr).
  change (p_pagetable (pr <| p_state := st |> <| p_chan := ch |>)) with root. fold v. rewrite (proj2 (Z.eqb_eq _ _)) by done.
  apply runs_bind, runs_modify, runs_bind, runs_modify, HQ.
  pose (a1 := fun w : proc => w <| p_vma := alter (fun v => v <| v_addr := u64 (v_addr v + len) |>) i (p_vma w) |>).
  pose (a2 := fun w : proc => w <| p_vma := alter (fun v => v <| v_len := i32 (v_len v - len) |>) i (p_vma w) |>).
  apply (inw_upd p (a1 pr) moved_proc a2); [done| |].
  - apply (inw_upd p pr (a1 pr) a1); [done|exact Hs0|done].
  - intros st' ch'. unfold a2, a1, moved_proc. cbn. rewrite list_alter_alter_eq.
    rewrite (alter_ext_total _ moved_vma); [done|]. cbn. fold v. unfold moved_vma.
    rewrite Haddr, u64_small, i32_small by (unfold is_u64; plia). done.
Qed.
End munmap.

Lemma ubytes_tables (m : memory) (root va : Z) (n : nat) (bs : list Z) :
  ubytes m root va n = Some bs -> tables m root va (va + Z.of_nat n).
Proof.
  intros Hb x Hx. pose proof (ubytes_at m root va n (Z.to_nat (x - va)) bs Hb ltac:(lia)) as H1.
  replace (va + Z.of_nat (Z.to_nat (x - va))) with x in H1 by lia. cbn [ubytes] in H1.
  destruct (ubyte m root x) as [b|] eqn:Eb; [|done]. apply ubyte_Some in Eb as (_ & Hu & _).
  apply pte_valid_table. unfold user in Hu. by destruct (valid (pte_of m root x)).
Qed.

(** C8. [mmap] maps a file at the end of the process.  On a valid descriptor
    whose file may be mapped this way, and a length that fits, it takes the
    first unused entry of the process's table, returns the old size as the
    address, and adds the length to the size and one reference to the file;
    no page is mapped yet.  From then on exactly the addresses between the
    old and the new size lead to the new mapping, all others where they led
    before.  Otherwise it returns -1 and changes nothing. *)
Theorem mmap_maps (s : kstate) (p : nat) :
  let c := k_ctl s in let pt := k_pt s in let pr := procs pt !!! p in let len := pground_int (i32 (reg pr (k_heap s) 1)) in
  calm c -> cur c = Some p -> (p < length (procs pt))%nat -> length (p_vma pr) = VMASIZE -> opened (k_ft s) (p_ofile pr) ->
  0 <= p_sz pr -> (forall v, v ∈ p_vma pr -> v_valid v <> 0 -> u64 (v_addr v + v_len v) <= p_sz pr) ->
  exists r s', sys_mmap s = Ret r s' /\
    mmap_done c (k_heap s) pt (k_ft s) (k_fs s) (k_vd s) (k_dev s) (k_switches s) p r s' /\
    (r <> -1 -> 0 < len -> p_sz pr + len <= MAXVA -> exists v, v_valid v = 1 /\ v_addr v = p_sz pr /\ v_len v = len /\
       forall va, find_vma va (procs (k_pt s') !!! p) = if (p_sz pr <=? va) && (va <? p_sz pr + len) then Some v else find_vma va pr).
Proof.
  intros c pt pr len Hc Hcur Hp Hv Ho Hsz Hbelow. destruct s as [c0 h pt0 ft fs vd dev n]. cbn [k_ctl k_heap k_pt k_ft k_fs k_vd k_dev k_switches] in *.
  destruct (runs_inv _ _ _ (ksys_mmap c h pt ft fs vd dev n p Hc Hcur Hp Hv Ho)) as (r & s' & E & Hd).
  exists r, s'. split; [exact E|]. split; [exact Hd|]. intros Hr Hlen Hmax. unfold mmap_done in Hd. fold pr in Hd.
  destruct (fd_file _ _) as [f|]; [|by destruct Hd]. destruct (_ && _); [|by destruct Hd].
  destruct Hd as [[? _]|(i & Hi & _ & ->)]; [done|]. cbn [k_pt]. rewrite with_proc_at by done.
  exists (mmapped h pt p (p_vma pr !!! i) f). split_and!; [done|done|done|]. intros va.
  by apply (mmap_covers h pt p Hv i f va).
Qed.

(** Closing what a write has filled: the file's blocks and inode [V1], [v1] are
    as the write left them. *)
Lemma fwp_close_filled {L : Linker} {LOk : LinkerOk L} {E : Env} {H : Hw} (dv size start nlog : Z) (p : nat) (pr : proc)
    (sbk : superblock) (ib : Z) (ip f : nat) (bs : list Z) (h : heap) (ft : ftable) (fs fs1 : fsys) (V V1 : Z -> list Z) (v v1 : inode)
    (q : nat) (n : Z) (ws : list (Z * list Z)) :
  (p < NPROC)%nat -> disk_serves p -> layout dv size start nlog sbk ib -> sb fs = sbk -> file_ready dv size start nlog sbk ib V v ->
  n = Z.of_nat (length bs) -> (ip < length (itable fs))%nat -> 0 <= f_off (files ft !!! f) <= i_size v ->
  f_off (files ft !!! f) + n <= MAXFILE * BSIZE ->
  chunked dv size start nlog pr sbk ib ip f bs ft fs V v q n V1 v1 ws fs1 ->
  (f < length (files ft))%nat -> 1 <= f_ref (files ft !!! f) -> f_type (files ft !!! f) = FD_INODE -> f_ip (files ft !!! f) = Some ip ->
  fwp p pr (fileclose f) (World [] h (ft_at f ft n) fs1) (fun _ w => w_locks w = [] /\ w_heap w = h /\ w_ft w = close_ft f (ft_at f ft n) /\
    exists V' v' ws', closed size start nlog sbk ib f ft V1 V' v1 v' /\ rest dv size start nlog pr (w_fs w) V' /\
      itable (w_fs w) = <[ ip := v' ]> (itable fs) /\ sb (w_fs w) = sbk /\ disk (w_fs w) = replay (disk fs) ws' /\ writes (w_fs w) = rev ws' ++ writes fs /\
      forall k, exists W, (some_chunks dv size start nlog sbk ib f bs ft V v W \/ W = V') /\
        recovers dv size start nlog (replay (disk fs) (take k ws')) W).
Proof.
  intros Hp Henv Hly Hsb Hrd En Hip Ho Hmax Hck Hf Hr Hty Hfip. pose proof Hck as [C1 C2 C3 C4 C5 C6 C7 C8].
  assert (take (Z.to_nat n) bs = bs) as Et by (rewrite En, Nat2Z.id; by apply take_ge).
  assert (files (ft_at f ft n) !!! f = (files ft !!! f) <| f_off := f_off (files ft !!! f) + n |>) as Ef.
  { unfold ft_at. cbn [files set_with set_files]. by rewrite list_lookup_total_alter_eq. }
  assert (itable fs1 !!! ip = v1) as Hv1 by (by rewrite C4, list_lookup_total_insert_eq).
  apply (fwp_fileclose dv size start nlog p pr sbk ib ip f Hp Henv Hly (ft_at f ft n) fs1 V1 v1); try done.
  - congruence.
  - by rewrite C4, length_insert.
  - rewrite Et in C3. apply (filled_ready dv size start nlog sbk ib (f_off (files ft !!! f)) bs (4 * q) V v); try done.
  - unfold ft_at. cbn [files set_with set_files]. by rewrite length_alter.
  - by rewrite Ef.
  - by rewrite Ef.
  - by rewrite Ef.
  - intros fs' V' v' ws' Hre' Hcl Hit Hsb' Hd Hw Hcr. split_and!; [done..|]. cbn [w_fs]. exists V', v', (ws ++ ws').
    assert (closed size start nlog sbk ib f ft V1 V' v1 v') as Hcl'.
    { unfold closed in *. by rewrite Ef in Hcl. }
    split_and!; [done|done|by rewrite Hit, C4, list_insert_insert_eq|congruence|by rewrite Hd, C6, replay_app
      |by rewrite Hw, C7, rev_app_distr, app_assoc|].
    intros k. rewrite take_app, replay_app. destruct (decide (k <= length ws)%nat) as [Hk|Hk].
    + replace (k - length ws)%nat with 0%nat by lia. rewrite take_0. destruct (C8 k) as (W & HW & Hrec). exists W. split; [by left|done].
    + rewrite (take_ge ws) by lia. rewrite <- C6. destruct (Hcr (k - length ws)%nat) as [[|] Hrec]; [exists V'; split; [by right|done]|].
      exists V1. split; [left|done]. exists n, v1, (4 * q)%nat. split; [lia|]. split; [by left|done].
Qed.

(** C6. What [munmap] of a shared mapping does.  [munmap] of the first [len]
    bytes of a mapping whose pages are loaded writes the bytes the process
    sees there to the file, at the current offset of the open file (so in the
    place they were mapped from when that offset is 0, and elsewhere, growing
    the file if need be, when it is not), as a sequence of transactions; it
    unmaps exactly these addresses and frees their pages; the mapping starts
    after them from then on.  When nothing is left of it the mapping is gone
    and its reference to the file with it: the file stays open if there are
    other references, else the inode loses a reference, and a file without
    names loses its blocks and its inode with the last one.  A crash after any
    number of the disk writes leaves a prefix of the write, or everything
    done. *)
Theorem munmap_writes_at_offset {L : Linker} {LOk : LinkerOk L} {E : Env} {H : Hw} (dv size start nlog : Z) (p : nat) (pr : proc)
    (sbk : superblock) (ib : Z) (ip f i : nat) (R : Z -> Prop) (lim addr : Z) (bs : list Z) (V : Z -> list Z)
    (h : heap) (fl lo : list Z) (ft : ftable) (s : kstate) :
  let ino := itable (k_fs s) !!! ip in let fv := files ft !!! f in let off := f_off fv in let v := p_vma pr !!! i in
  let len := Z.of_nat (length bs) in let bm := sb_bmapstart sbk in let root := p_pagetable pr in
  (p < NPROC)%nat -> disk_serves p -> layout dv size start nlog sbk ib ->
  inw p pr (World [] h ft (k_fs s)) s -> sb (k_fs s) = sbk -> rest dv size start nlog pr (k_fs s) V ->
  PGROUNDDOWN (reg pr h 0) = addr -> pground_int (i32 (reg pr h 1)) = len ->
  length (p_vma pr) = VMASIZE -> first_holds addr (p_vma pr) i -> v_addr v = addr -> addr mod PGSIZE = 0 -> len mod PGSIZE = 0 ->
  0 < len <= v_len v -> 0 <= addr -> addr + len <= lim -> v_len v < 2 ^ 31 -> truth (Z.land (v_flags v) MAP_SHARED) = true ->
  aspace R lim root h fl lo -> supplies pr (FromUser addr) bs h ->
  v_f v = Some f -> (f < length (files ft))%nat -> 1 <= f_ref fv ->
  f_type fv = FD_INODE -> f_writable fv <> 0 -> f_ip fv = Some ip ->
  (ip < length (itable (k_fs s)))%nat -> file_ready dv size start nlog sbk ib V ino ->
  0 <= off <= i_size ino -> off + len <= MAXFILE * BSIZE -> (4 * nchunks bs + need ino <= nfree size bm V)%nat ->
  runs sys_munmap s (fun r s' => r = 0 /\ exists h' V1 ino1 cnt V' ino' ws fs',
    unmapped_space pr R lim addr len h lo h' /\
    inw p (cut_proc i pr addr len) (World [] h' (cut_files i f pr len (ft_at f ft len)) fs') s' /\
    filled dv size start nlog bm ib off bs cnt V ino V1 ino1 /\
    (if len =? v_len v then closed size start nlog sbk ib f ft V1 V' ino1 ino' else V' = V1 /\ ino' = ino1) /\
    rest dv size start nlog pr fs' V' /\ itable fs' = <[ ip := ino' ]> (itable (k_fs s)) /\
    disk fs' = replay (disk (k_fs s)) ws /\ writes fs' = rev ws ++ writes (k_fs s) /\
    forall k, exists W, (some_chunks dv size start nlog sbk ib f bs ft V ino W \/ W = V') /\
      recovers dv size start nlog (replay (disk (k_fs s)) (take k ws)) W).
Proof.
  intros ino fv off v len bm root Hp Henv Hly Hin Hsb Hre Ea El Hvma Hfirst Hva Hal1 Hal2 Hlen Hadd Hlim Hvl Hsh Has Hsrc Hvf Hf Href
    Hty Hwr Hfip Hip Hrd Ho Hmax Hfree.
  pose proof Hsrc as (_ & _ & _ & Hub). pose proof (ubytes_tables _ _ _ _ _ Hub) as Htab.
  set (pr1 := moved_proc i pr addr len).
  eapply (munmap_head p i f pr R lim addr len h fl lo Hp Hvma Hfirst Hva (conj Hal1 Hal2) Hlen (conj Hadd (conj Hlim Hvl)) Has Htab Hvf);
    [exact Hin|exact Ea|exact El|]. fold v. fold root.
  intros s1 Hs1. rewrite Hsh. rewrite Hvf at 1. fold pr1 in Hs1.
  pose proof (fwp_filewrite (h := h) dv size start nlog p pr1 sbk ib ip f Hp Henv Hly addr bs ft (k_fs s) V ino
    (rest_pid _ _ _ _ pr pr1 _ _ eq_refl Hre) Hsb Hip eq_refl Hrd Hf Ho Hmax) as Hw.
  apply runs_bind, runs_bind, runs_ret, (runs_fwp p pr1 _ _ (World [] h ft (k_fs s))); [exact Hs1|].
  apply Hw; try done. intros q V1 ino1 ws fs1 Hck. fold len. intros s2 Hs2. apply runs_ret.
  pose proof (fun h' => fwp_close_filled dv size start nlog p pr1 sbk ib ip f bs h' ft (k_fs s) fs1 V V1 ino ino1 q len ws
    Hp Henv Hly Hsb Hrd eq_refl Hip Ho Hmax Hck Hf Href Hty Hfip) as Hclose. destruct Hck as [C1 C2 C3 C4 C5 C6 C7 C8].
  unfold len in C3. rewrite Nat2Z.id, take_ge in C3 by lia. fold len in C3.
  eapply (munmap_tail p i f pr R lim addr len h fl lo Hp Hvma Hfirst Hva (conj Hal1 Hal2) Hlen (conj Hadd (conj Hlim Hvl)) Has Htab Hvf);
    [exact Hs2|intros _; exact Hclose|].
  intros h' fs' s' Hu HC Hs'. split; [done|]. exists h', V1, ino1, (4 * q)%nat. fold v in HC. destruct (len =? v_len v).
  - destruct HC as (V' & ino' & ws' & HC1 & HC2 & HC3 & _ & HC5 & HC6 & HC7). exists V', ino', ws', fs'.
    pose proof (rest_pid _ _ _ _ pr1 pr _ _ eq_refl HC2). by split_and!.
  - subst fs'. exists V1, ino1, ws, fs1. pose proof (rest_pid _ _ _ _ pr1 pr _ _ eq_refl C2). split_and!; try done.
    intros k. destruct (C8 k) as (W & HW & Hrec). exists W. split; [by left|done].
Qed.

(** ** The theorems on small processes *)

(** A process of 8192 bytes calls mmap(0, 5000, PROT_READ, MAP_PRIVATE, 0, 0). *)
Definition call_tf : Z := 0x80100000.
Definition call_regs (args : list Z) (m : memory) : memory :=
  fold_left (fun m '(k, v) => store64 m (call_tf + tf_a0 + 8 * Z.of_nat k) v) (zip (seq 0 6) args) m.
Definition call_proc (fd : option nat) (vmas : list vma) : proc :=
  Proc RUNNING Ch0 0 0 3 None 0 8192 Demo.root call_tf (Context_ 0 0 []) (fd :: replicate 15 None) None (replicate 16 0) vmas.
Definition unused_vma : vma := Vma 0 0 0 None 0 0 0 0.
Definition mmap_call : kstate :=
  (blank demo_ctl (Heap (call_regs [0; 5000; PROT_READ; MAP_PRIVATE; 0; 0] ∅) 0 0))
    <| k_pt := Ptable [call_proc (Some 0%nat) (replicate 16 unused_vma)] None 1 1 0 |>
    <| k_ft := Ftable [File FD_INODE 1 1 0 0 (Some 0%nat) 0 0] ∅ |>.

Lemma mmap_maps_witness : exists s' v, sys_mmap mmap_call = Ret 8192 s' /\ v_addr v = 8192 /\ v_len v = 8192 /\
  find_vma 9000 (procs (k_pt s') !!! 0%nat) = Some v /\ find_vma 8191 (procs (k_pt s') !!! 0%nat) = None /\
  f_ref (files (k_ft s') !!! 0%nat) = 2.
Proof.
  destruct (mmap_maps mmap_call 0) as (r & s' & E & _ & Hcov).
  - split; [exact demo_ctl_ok|reflexivity].
  - reflexivity.
  - vm_compute. lia.
  - reflexivity.
  - intros f Hf. apply elem_of_cons in Hf as [Hf|Hf]; [injection Hf as ->; vm_compute; split; [lia|discriminate]|].
    by apply elem_of_replicate in Hf as [? _].
  - vm_compute. discriminate.
  - intros v Hv. by apply elem_of_replicate in Hv as [-> _].
  - assert (match sys_mmap mmap_call with Ret r s => (r, f_ref (files (k_ft s) !!! 0%nat)) | _ => (-1, 0) end = (8192, 2)) as Er by (vm_compute; reflexivity).
    rewrite E in Er. injection Er as -> Hr.
    destruct Hcov as (v & _ & Ha & Hl & Hf); [discriminate|reflexivity|vm_compute; discriminate|].
    exists s', v. split; [exact E|]. split; [exact Ha|]. split; [exact Hl|]. split; [exact (Hf 9000)|]. split; [exact (Hf 8191)|exact Hr].
Defined.

(** A process whose first page is a shared mapping calls munmap(0, 4096). *)
#[local] Existing Instance demo_linker.
#[local] Existing Instance demo_linker_ok.

Lemma call_page (k : nat) (v : Z) (m : memory) :
  (k < 6)%nat -> same_on (fun x => ~ in_page call_tf x) m (store64 m (call_tf + tf_a0 + 8 * Z.of_nat k) v).
Proof.
  intros Hk. eapply same_on_weaken; [|apply store64_same_on]. unfold in_page, PGSIZE. change tf_a0 with 112. lia.
Qed.

Lemma call_demo : exists h fl, aspace Demo.pages TRAPFRAME Demo.root h fl [] /\ user_below TRAPFRAME Demo.root (mem h) /\
  load64 (mem h) (call_tf + tf_a0) = 0 /\ load64 (mem h) (call_tf + tf_a0 + 8) = 4096 /\
  forall va n, 0 <= va -> va + Z.of_nat n <= 8192 -> ubytes (mem h) Demo.root va n = Some (replicate n 0).
Proof.
  destruct Demo.space1 as (h1 & fl & Has & Hg).
  set (m2 := store64 (store64 (mem h1) (call_tf + tf_a0 + 8 * Z.of_nat 0) 0) (call_tf + tf_a0 + 8 * Z.of_nat 1) 4096).
  assert (same_on (fun x => ~ in_page call_tf x) (mem h1) m2) as Hs.
  { etransitivity; apply call_page; lia. }
  assert (~ Demo.pages call_tf) as Hout by (apply (bool_decide_eq_false_1 _); vm_compute; reflexivity).
  assert (page_ok call_tf) as Hok by (split; [done|by vm_compute]).
  assert (forall path j, inner path -> idx j -> pte_at m2 Demo.root path j = pte_at (mem h1) Demo.root path j) as HP.
  { apply (as_same_outside Has call_tf); [done| |done]. intros (k & Hk & Hn). apply Hout. apply (as_node_R Has k); [by apply owned_inner|done]. }
  assert (forall va, pte_of m2 Demo.root va = pte_of (mem h1) Demo.root va) as HP'.
  { intros va. apply HP; [apply inner_va|apply PX_idx; lia]. }
  exists (h1 <| mem := m2 |>), fl. split_and!.
  - eapply (aspace_same _ _ _ h1); [exact Has|exact HP| |reflexivity].
    apply (heap_ok_write h1 fl call_tf); [apply Has|apply Hok| |exact Hs]. intros Hin. apply Hout, (as_list_R Has). set_solver.
  - intros va Hva H0. cbn [mem set_with set_mem]. rewrite HP'. by apply (Demo.below1 Hg).
  - cbn [mem set_with set_mem]. unfold m2. rewrite load64_store64_ne by (cbn; lia). change (8 * Z.of_nat 0) with 0. rewrite Z.add_0_r.
    by rewrite load64_store64_eq.
  - cbn [mem set_with set_mem]. unfold m2. change (8 * Z.of_nat 1) with 8. by rewrite load64_store64_eq.
  - intros va n Hva Hn. cbn [mem set_with set_mem].
    assert (forall x, 0 <= x < 8192 -> ubyte m2 Demo.root x = Some 0) as Hub.
    { intros x Hx. pose proof (Demo.user1 Hg x Hx) as Hu. unfold ubyte in *. rewrite HP'. destruct (_ && _); [|done].
      rewrite <- Hu. f_equal. set (q := PTE2PA (pte_of (mem h1) Demo.root x)).
      assert (node (mem h1) Demo.root (path_of x) = Some q) as Hq by (by rewrite node_va, (Demo.valid1 Hg)).
      assert (owned TRAPFRAME (path_of x)) as Ho by (apply owned_va; split; [lia|]; assert (8192 <= TRAPFRAME) by (by vm_compute); lia).
      apply (frame_in_page (fun q => q = call_tf) _ _ q); [by apply frame_page|apply (as_node_ok Has _ _ Ho Hq)|by intros y ->|
        |apply cell_in_page]. intros Eq. apply Hout. rewrite <- Eq. by apply (as_node_R Has (path_of x)). }
    revert va Hva Hn. induction n as [|n IH]; intros va Hva Hn; [done|]. cbn [ubytes].
    rewrite Hub by lia. cbn [mbind option_bind]. rewrite IH by lia. done.
Qed.

Definition shared_vma : vma := Vma 1 0 4096 (Some 0%nat) (Z.lor PROT_READ PROT_WRITE) MAP_SHARED 0 0.
Definition munmap_call (h : heap) (bufs : list buf) : kstate :=
  (wstate h bufs) <| k_pt := Ptable (call_proc (Some 0%nat) (shared_vma :: replicate 15 unused_vma) :: replicate 63 (demo_proc UNUSED Ch0 0)) None 1 1 0 |>
    <| k_ft := Ftable [File FD_INODE 1 1 1 0 (Some 0%nat) 0 0] ∅ |>.

Lemma munmap_writes_at_offset_witness : exists h bufs, let bs := replicate 4096 0 in
  runs (sys_munmap (E := machine_env) (H := demo_hw)) (munmap_call h bufs) (fun r s' => r = 0 /\ exists V1 ino1 cnt,
    filled 1 32 0 12 12 13 0 bs cnt (fun x => disk (wfs bufs) !!! x) wfile V1 ino1 /\
    itable (k_fs s') = [ino1 <| i_ref := 0 |>] /\ f_ref (files (k_ft s') !!! 0%nat) = 0 /\
    ucell (mem (k_heap s')) Demo.root 100 = None /\ ucell (mem (k_heap s')) Demo.root 5000 = ucell (mem h) Demo.root 5000).
Proof.
  destruct call_demo as (h & fl & Has & Hbelow & Hr0 & Hr1 & Hub). destruct demo_ring as [bufs Hr]. exists h, bufs. intros bs.
  set (V := fun x => disk (wfs bufs) !!! x) in *.
  assert (forall x, 0 <= x < 32 -> V x = wblock x) as HV.
  { intros x Hx. apply lookup_total_correct. by apply wfs_block. }
  set (pr := call_proc (Some 0%nat) (shared_vma :: replicate 15 unused_vma)).
  pose proof (munmap_writes_at_offset (L := demo_linker) (LOk := demo_linker_ok) (E := machine_env) (H := demo_hw) 1 32 0 12 0 pr wsb 13 0 0 0
    Demo.pages TRAPFRAME 0 bs V h fl [] (Ftable [File FD_INODE 1 1 1 0 (Some 0%nat) 0 0] ∅) (munmap_call h bufs)) as Hrun.
  eapply runs_mono; [apply Hrun; clear Hrun|].
  - vm_compute. lia.
  - exact (machine_serves 0).
  - split; try done; unfold home; cbn; lia.
  - split; try done; [exists demo_ctl; split; [done|]; split; [exact demo_idle|reflexivity]|by exists RUNNING, Ch0].
  - done.
  - split; [|by repeat split|rewrite HV by lia; reflexivity|rewrite HV by lia; reflexivity].
    refine (ring_cache 1 32 pr (wfs bufs) Hr _ _); [discriminate|]. intros x Hx. eexists. by apply wfs_block.
  - change (PGROUNDDOWN (load64 (mem h) (call_tf + tf_a0 + 8 * 0)) = 0). change (8 * 0) with 0. rewrite Z.add_0_r, Hr0. reflexivity.
  - change (pground_int (i32 (load64 (mem h) (call_tf + tf_a0 + 8 * 1))) = Z.of_nat (length bs)). change (8 * 1) with 8. rewrite Hr1.
    vm_compute. reflexivity.
  - reflexivity.
  - split; [unfold VMASIZE; lia|]. split; [reflexivity|]. intros j Hj. lia.
  - reflexivity.
  - reflexivity.
  - reflexivity.
  - vm_compute. split; [reflexivity|discriminate].
  - lia.
  - vm_compute. discriminate.
  - reflexivity.
  - reflexivity.
  - exact Has.
  - split; [exists Demo.pages, TRAPFRAME, fl, []; by split|]. split; [lia|]. split; [vm_compute; discriminate|].
    unfold bs. rewrite length_replicate. apply Hub; lia.
  - reflexivity.
  - cbn. lia.
  - vm_compute. discriminate.
  - reflexivity.
  - discriminate.
  - reflexivity.
  - cbn. lia.
  - exact (wready V HV).
  - cbn. lia.
  - vm_compute. discriminate.
  - change (sb_bmapstart wsb) with 12. rewrite (wnfree V HV). vm_compute. lia.
  - intros r s' (-> & h' & V1 & ino1 & cnt & V' & ino' & ws & fs' & [_ Hu] & Hin & Hfi & Hcl & _ & Hit & _). split; [reflexivity|].
    pose proof (fl_inode _ _ _ _ _ _ _ _ _ _ _ _ _ Hfi) as Ei. unfold closed in Hcl. cbn [Z.eqb] in Hcl.
    assert (V' = V1 /\ ino' = ino1 <| i_ref := 0 |>) as [_ ->] by (rewrite Ei in *; exact Hcl).
    rewrite (in_fs _ _ _ _ Hin), (in_ft _ _ _ _ Hin), (in_heap _ _ _ _ Hin). exists V1, ino1, cnt.
    split; [exact Hfi|]. split; [exact Hit|]. split; [vm_compute; reflexivity|]. split; (rewrite Hu; [reflexivity|vm_compute; split; [discriminate|reflexivity]]).
Defined.
