(* ===== verification/Umalloc.v ===== *)
(** * malloc and free (user/umalloc.c)

    The allocator of Kernighan and Ritchie: free blocks form a ring in the
    order of their addresses, each with a header of one unit (16 bytes) that
    holds the address of the next free block and its own size in units; the
    ring starts at [base], a block of size 0.  The theorems: the blocks in use
    and the free blocks partition the memory got from the kernel at every
    time; [malloc] and [free] end, and leave the contents of the other blocks
    alone; neighbouring free blocks are merged. *)
From stdpp Require Import sorting.
From S2P Require Import Prelude Memory.

Module Umalloc.

(** ** The code *)

(** Fields of a Header in memory, and arithmetic on Header pointers. *)
Definition ptr (m : memory) (a : Z) : Z := load64 m a.
Definition size (m : memory) (a : Z) : Z := load32 m (a + 8).
Definition set_ptr (m : memory) (a v : Z) : memory := store64 m a v.
Definition set_size (m : memory) (a v : Z) : memory := store32 m (a + 8) v.
Definition sizeof_header : Z := 16.
Definition hplus (a n : Z) : Z := u64 (a + sizeof_header * n).

(** Memory, the variable freep, and the end of the process's memory. *)
Record umem := UMem { um : memory; freep : Z; brk : Z }.

Section code.
(** The address of the variable [base], and the answer of the kernel to a
    request for more memory. *)
Context (base : Z) (grow : Z -> Z -> bool).

(** sbrk: the system call, seen by the process. *)
Definition sbrk (n : Z) (s : umem) : Z * umem :=
  if grow (brk s) n then (brk s, UMem (um s) (freep s) (brk s + n)) else (-1, s).

(** The loop of free: the free block after which [bp] belongs. *)
Fixpoint find_place (fuel : nat) (m : memory) (bp p : Z) : option Z :=
  match fuel with
  | O => None
  | S fuel =>
    if (p <? bp) && (bp <? ptr m p) then Some p
    else if (ptr m p <=? p) && ((p <? bp) || (bp <? ptr m p)) then Some p
    else find_place fuel m bp (ptr m p)
  end.

Definition free (fuel : nat) (ap : Z) (s : umem) : option umem :=
  let bp := u64 (ap - sizeof_header) in
  let m := um s in
  p ← find_place fuel m bp (freep s);
  let m :=
    if hplus bp (size m bp) =? ptr m p then
      let m := set_size m bp (u32 (size m bp + size m (ptr m p))) in
      set_ptr m bp (ptr m (ptr m p))
    else set_ptr m bp (ptr m p) in
  let m :=
    if hplus p (size m p) =? bp then
      let m := set_size m p (u32 (size m p + size m bp)) in
      set_ptr m p (ptr m bp)
    else set_ptr m p bp in
  Some (UMem m p (brk s)).

Definition morecore (fuel : nat) (nu : Z) (s : umem) : option (Z * umem) :=
  let nu := if nu <? 4096 then 4096 else nu in
  let (p, s) := sbrk (i32 (nu * sizeof_header)) s in
  if p =? -1 then Some (0, s) else
  let s := UMem (set_size (um s) p nu) (freep s) (brk s) in
  s ← free fuel (hplus p 1) s;
  Some (freep s, s).

(** The loop of malloc. *)
Fixpoint malloc_loop (fuel0 fuel : nat) (nunits prevp p : Z) (s : umem) : option (Z * umem) :=
  match fuel with
  | O => None
  | S fuel =>
    let m := um s in
    if nunits <=? size m p then
      if size m p =? nunits then
        Some (hplus p 1, UMem (set_ptr m prevp (ptr m p)) prevp (brk s))
      else
        let m := set_size m p (u32 (size m p - nunits)) in
        let p := hplus p (size m p) in
        let m := set_size m p nunits in
        Some (hplus p 1, UMem m prevp (brk s))
    else if p =? freep s then
      '(q, s) ← morecore fuel0 nunits s;
      if q =? 0 then Some (0, s) else malloc_loop fuel0 fuel nunits q (ptr (um s) q) s
    else malloc_loop fuel0 fuel nunits p (ptr m p) s
  end.

Definition malloc (fuel : nat) (nbytes : Z) (s : umem) : option (Z * umem) :=
  let nunits := u32 ((nbytes + sizeof_header - 1) / sizeof_header + 1) in
  let s :=
    if freep s =? 0 then UMem (set_size (set_ptr (um s) base base) base 0) base (brk s) else s in
  malloc_loop fuel fuel nunits (freep s) (ptr (um s) (freep s)) s.
End code.

(** ** Headers *)

(** A write to a header leaves the bytes outside it alone. *)
Definition outside (a x : Z) : Prop := x < a \/ a + sizeof_header <= x.

Lemma set_ptr_outside (m : memory) (a v : Z) : same_on (outside a) m (set_ptr m a v).
Proof. eapply same_on_weaken; [|apply store64_same_on]. unfold outside, sizeof_header. lia. Qed.
Lemma set_size_outside (m : memory) (a v : Z) : same_on (outside a) m (set_size m a v).
Proof. eapply same_on_weaken; [|apply store32_same_on]. unfold outside, sizeof_header. lia. Qed.

(** Two headers that do not overlap. *)
Definition far (a b : Z) : Prop := a + sizeof_header <= b \/ b + sizeof_header <= a.

Lemma ptr_far (m m' : memory) (a b : Z) : far a b -> same_on (outside a) m m' -> ptr m' b = ptr m b.
Proof. intros Hf Hs. apply (load64_same_on _ _ _ _ Hs). unfold far, outside, sizeof_header in *. lia. Qed.
Lemma size_far (m m' : memory) (a b : Z) : far a b -> same_on (outside a) m m' -> size m' b = size m b.
Proof. intros Hf Hs. apply (load32_same_on _ _ _ _ Hs). unfold far, outside, sizeof_header in *. lia. Qed.

Lemma ptr_set_ptr (m : memory) (a v : Z) : is_u64 v -> ptr (set_ptr m a v) a = v.
Proof. intros Hv. unfold ptr, set_ptr. by rewrite load64_store64_eq, u64_small. Qed.
Lemma size_set_size (m : memory) (a v : Z) : is_u32 v -> size (set_size m a v) a = v.
Proof. intros Hv. unfold size, set_size. by rewrite load32_store32_eq, u32_small. Qed.
Lemma size_set_ptr (m : memory) (a v b : Z) : a = b \/ far a b -> size (set_ptr m a v) b = size m b.
Proof.
  intros Hf. apply (load32_same_on _ _ _ _ (store64_same_on m a v)). unfold far, sizeof_header in *. lia.
Qed.
Lemma ptr_set_size (m : memory) (a v b : Z) : a = b \/ far a b -> ptr (set_size m a v) b = ptr m b.
Proof.
  intros Hf. apply (load64_same_on _ _ _ _ (store32_same_on m (a + 8) v)). unfold far, sizeof_header in *. lia.
Qed.
Lemma ptr_set_ptr_far (m : memory) (a v b : Z) : far a b -> ptr (set_ptr m a v) b = ptr m b.
Proof. intros Hf. by apply (ptr_far _ _ a), set_ptr_outside. Qed.
Lemma size_set_size_far (m : memory) (a v b : Z) : far a b -> size (set_size m a v) b = size m b.
Proof. intros Hf. by apply (size_far _ _ a), set_size_outside. Qed.

(** ** Rings of blocks *)

(** A block is its address and its size in units. *)
Abbreviation block := (Z * Z)%type.

(** Following the pointers from [a] leads through the blocks of [l]. *)
Fixpoint chain (m : memory) (a : Z) (l : list block) : Prop :=
  match l with
  | [] => True
  | (b, n) :: l => ptr m a = b /\ size m b = n /\ chain m b l
  end.

(** The last block of a chain that starts at [a]. *)
Fixpoint fin (a : Z) (l : list block) : Z :=
  match l with
  | [] => a
  | (b, _) :: l => fin b l
  end.

Definition ring (m : memory) (l : list block) : Prop := chain m (fin 0 l) l.

Lemma fin_app (a : Z) (x y : list block) : fin a (x ++ y) = fin (fin a x) y.
Proof. revert a. induction x as [|[b n] x IH]; intros a; cbn; auto. Qed.

Lemma fin_any (a b : Z) (x : list block) : x <> [] -> fin a x = fin b x.
Proof. destruct x as [|[c n] x]; done. Qed.

Lemma fin_in (a : Z) (x : list block) : fin a x ∈ a :: x.*1.
Proof.
  revert a. induction x as [|[b n] x IH]; intros a; cbn; [by left|]. right. apply IH.
Qed.

Lemma fin_in_ne (a : Z) (x : list block) : x <> [] -> fin a x ∈ x.*1.
Proof. destruct x as [|[b n] x]; [done|]. intros _. exact (fin_in b x). Qed.

Lemma chain_app (m : memory) (a : Z) (x y : list block) :
  chain m a (x ++ y) <-> chain m a x /\ chain m (fin a x) y.
Proof.
  revert a. induction x as [|[b n] x IH]; intros a; cbn; [tauto|]. rewrite IH. tauto.
Qed.

Lemma ring_app (m : memory) (x y : list block) : x <> [] -> y <> [] ->
  ring m (x ++ y) <-> chain m (fin 0 y) x /\ chain m (fin 0 x) y.
Proof.
  intros Hx Hy. unfold ring. rewrite fin_app, chain_app. rewrite (fin_any (fin 0 x) 0 y) by done.
  by rewrite (fin_any (fin 0 y) 0 x).
Qed.

(** A ring may be read from any of its blocks. *)
Lemma ring_rot (m : memory) (x y : list block) : ring m (x ++ y) -> ring m (y ++ x).
Proof.
  destruct x as [|b x]; [by rewrite app_nil_r|]. destruct y as [|c y]; [by rewrite app_nil_r|].
  rewrite !ring_app by done. tauto.
Qed.

(** A chain does not depend on the pointer of its last block. *)
Lemma uchain_same (m m' : memory) (a : Z) (l : list block) :
  NoDup (a :: l.*1) ->
  (forall c, c ∈ a :: l.*1 -> c <> fin a l -> ptr m' c = ptr m c) ->
  (forall c, c ∈ l.*1 -> size m' c = size m c) ->
  chain m a l -> chain m' a l.
Proof.
  revert a. induction l as [|[b n] l IH]; intros a Hnd Hp Hs; [done|]. cbn [chain fin fmap list_fmap fst] in *.
  intros (H1 & H2 & H3). apply list.NoDup_cons in Hnd as [Hna Hnd]. split_and!.
  - rewrite Hp; [done|by left|]. intros ->. apply Hna. apply fin_in.
  - rewrite Hs; [done|by left].
  - apply IH; [done| | |done].
    + intros c Hc Hne. apply Hp; [by right|done].
    + intros c Hc. apply Hs. by right.
Qed.

(** The units of a list of blocks. *)
Definition block_units (b : block) : list Z := (fun i => b.1 + sizeof_header * Z.of_nat i) <$> seq 0 (Z.to_nat b.2).
Definition units (l : list block) : list Z := l ≫= block_units.

Lemma elem_of_block_units (b : block) (x : Z) :
  x ∈ block_units b <-> exists i, 0 <= i < b.2 /\ x = b.1 + sizeof_header * i.
Proof.
  unfold block_units. rewrite list_elem_of_fmap. split.
  - intros (i & -> & Hi). apply elem_of_seq in Hi. exists (Z.of_nat i). split; [lia|done].
  - intros (i & Hi & ->). exists (Z.to_nat i). rewrite Z2Nat.id by lia. split; [done|]. apply elem_of_seq. lia.
Qed.

Lemma elem_of_units (l : list block) (x : Z) : x ∈ units l <-> exists b, b ∈ l /\ x ∈ block_units b.
Proof. unfold units. rewrite list_elem_of_bind. naive_solver. Qed.

Lemma units_app (l l' : list block) : units (l ++ l') = units l ++ units l'.
Proof. apply bind_app. Qed.

#[local] Instance units_perm : Proper ((≡ₚ) ==> (≡ₚ)) units.
Proof. apply bind_Permutation. Qed.

Lemma units_cons (b : block) (l : list block) : units (b :: l) = block_units b ++ units l.
Proof. done. Qed.

(** Two neighbours have the units of the block that they make together. *)
Lemma units_join (a n k : Z) : 0 <= n -> 0 <= k ->
  block_units (a, n) ++ block_units (a + sizeof_header * n, k) = block_units (a, n + k).
Proof.
  intros Hn Hk. unfold block_units. cbn. rewrite Z2Nat.inj_add, seq_app, fmap_app by lia. f_equal.
  rewrite Nat.add_0_l, <- (Nat.add_0_r (Z.to_nat n)), <- fmap_add_seq, <- list_fmap_compose.
  apply list_fmap_ext. intros i x _. cbn. unfold sizeof_header. lia.
Qed.

Lemma block_units_head (b : block) : 0 < b.2 -> b.1 ∈ block_units b.
Proof. intros Hb. apply elem_of_block_units. exists 0. split; lia. Qed.

(** Different blocks of a list without common units do not overlap. *)
Lemma units_apart (l : list block) (b c : block) :
  NoDup (units l) -> b ∈ l -> c ∈ l -> b <> c -> forall x, x ∈ block_units b -> x ∈ block_units c -> False.
Proof.
  intros Hn Hb Hc Hne x Hx Hy. apply list_elem_of_split in Hb as (l1 & l2 & ->).
  rewrite <- Permutation_middle, units_cons in Hn. apply list.NoDup_app in Hn as (_ & Hd & _). apply (Hd x Hx).
  apply elem_of_units. exists c. split; [|done]. set_solver.
Qed.

(** ** The state of the allocator *)
Section heap.
Context (base lo : Z).
Hypothesis Hbase : 0 < base /\ base + sizeof_header <= lo.

(** One free block lies before another, with something in between. *)
Definition before (b c : block) : Prop := b.1 + sizeof_header * b.2 < c.1.

(** [G] are the free blocks in order, [A] the blocks in use; together they
    are the [N] units the kernel has given.  No two free blocks touch. *)
Record uheap (m : memory) (fp N : Z) (G A : list block) : Prop := {
  uh_part : units (G ++ A) ≡ₚ units [(lo, N)];
  uh_pos : forall b, b ∈ G ++ A -> 0 < b.2;
  uh_sorted : StronglySorted before ((base, 0) :: G);
  uh_ring : ring m ((base, 0) :: G);
  uh_freep : fp ∈ base :: G.*1;
  uh_size : forall b, b ∈ A -> size m b.1 = b.2;
  uh_bound : 0 <= N /\ lo + sizeof_header * N <= 2 ^ 31;
}.

Section facts.
Context {m : memory} {fp N : Z} {G A : list block}.
Hypothesis Hu : uheap m fp N G A.

Lemma uh_nodup : NoDup (units (G ++ A)).
Proof using Hu.
  rewrite (uh_part _ _ _ _ _ Hu). rewrite units_cons. cbn [units mbind list_bind]. rewrite app_nil_r. unfold block_units.
  apply NoDup_fmap_2_strong; [|apply NoDup_seq]. unfold sizeof_header. cbn. intros; lia.
Qed.

Lemma uh_unit (x : Z) : x ∈ units (G ++ A) <-> exists i, 0 <= i < N /\ x = lo + sizeof_header * i.
Proof using Hu.
  rewrite (uh_part _ _ _ _ _ Hu), units_cons. cbn [units mbind list_bind]. rewrite app_nil_r. apply elem_of_block_units.
Qed.

Lemma uh_block (b : block) : b ∈ G ++ A ->
  exists i, 0 <= i /\ b.1 = lo + sizeof_header * i /\ 0 < b.2 /\ i + b.2 <= N.
Proof using Hu.
  intros Hb. pose proof (uh_pos _ _ _ _ _ Hu b Hb) as Hp.
  assert (forall j, 0 <= j < b.2 -> b.1 + sizeof_header * j ∈ units (G ++ A)) as Hin.
  { intros j Hj. apply elem_of_units. exists b. split; [done|]. apply elem_of_block_units. by exists j. }
  destruct (proj1 (uh_unit _) (Hin 0 ltac:(lia))) as (i & Hi & Ei).
  destruct (proj1 (uh_unit _) (Hin (b.2 - 1) ltac:(lia))) as (k & Hk & Ek).
  exists i. unfold sizeof_header in *. lia.
Qed.

Lemma uh_disjoint (b c : block) : b ∈ G ++ A -> c ∈ G ++ A -> b <> c ->
  b.1 + sizeof_header * b.2 <= c.1 \/ c.1 + sizeof_header * c.2 <= b.1.
Proof using Hu.
  intros Hb Hc Hne. destruct (uh_block b Hb) as (i & Hi & Ei & Hpi & Hib). destruct (uh_block c Hc) as (k & Hk & Ek & Hpk & Hkb).
  destruct (Z.le_gt_cases (i + b.2) k); [left; unfold sizeof_header in *; lia|].
  destruct (Z.le_gt_cases (k + c.2) i); [right; unfold sizeof_header in *; lia|]. exfalso.
  apply (units_apart _ b c uh_nodup Hb Hc Hne (lo + sizeof_header * Z.max i k)); apply elem_of_block_units.
  - exists (Z.max i k - i). unfold sizeof_header in *. lia.
  - exists (Z.max i k - k). unfold sizeof_header in *. lia.
Qed.

Lemma uh_far (b c : block) : b ∈ (base, 0) :: G ++ A -> c ∈ (base, 0) :: G ++ A -> b.1 <> c.1 -> far b.1 c.1.
Proof using Hu Hbase.
  intros Hb Hc Hne. unfold far.
  assert (forall d, d ∈ G ++ A -> base + sizeof_header <= d.1) as Hlow.
  { intros d Hd. destruct (uh_block d Hd) as (i & Hi & -> & _). unfold sizeof_header in *. lia. }
  apply elem_of_cons in Hb as [->|Hb]; apply elem_of_cons in Hc as [->|Hc]; cbn [fst] in *; [done|left; auto|right; auto|].
  destruct (uh_disjoint b c Hb Hc) as [Hd|Hd]; [by intros ->| |];
    pose proof (uh_pos _ _ _ _ _ Hu b Hb); pose proof (uh_pos _ _ _ _ _ Hu c Hc); unfold sizeof_header in *; lia.
Qed.
End facts.

(** ** The loop of free *)
Definition accepts (m : memory) (bp p : Z) : bool :=
  (p <? bp) && (bp <? ptr m p) || (ptr m p <=? p) && ((p <? bp) || (bp <? ptr m p)).

Lemma find_place_step (fuel : nat) (m : memory) (bp p : Z) :
  find_place (S fuel) m bp p = if accepts m bp p then Some p else find_place fuel m bp (ptr m p).
Proof. cbn [find_place]. unfold accepts. by destruct (_ && _). Qed.

Lemma find_place_walk (m : memory) (bp p c : Z) (l : list block) (fuel : nat) :
  chain m c l -> p ∈ c :: l.*1 -> (forall d, d ∈ c :: l.*1 -> accepts m bp d = true <-> d = p) -> (length l < fuel)%nat ->
  find_place fuel m bp c = Some p.
Proof.
  revert c fuel. induction l as [|[b n] l IH]; intros c fuel Hc Hp Ha Hf; (destruct fuel as [|fuel]; [lia|]); rewrite find_place_step.
  - apply list_elem_of_singleton in Hp as ->. rewrite (proj2 (Ha c ltac:(by left)) eq_refl). done.
  - destruct (accepts m bp c) eqn:Hac; [by rewrite (proj1 (Ha c ltac:(by left)) Hac)|].
    destruct Hc as (-> & _ & Hc). apply IH; [done| | |cbn in Hf; lia].
    + apply elem_of_cons in Hp as [->|Hp]; [|done]. by rewrite (proj2 (Ha c ltac:(by left)) eq_refl) in Hac.
    + intros d Hd. apply Ha. by right.
Qed.

Lemma chain_next (m : memory) (a d n e k : Z) (l l' : list block) :
  chain m a (l ++ (d, n) :: (e, k) :: l') -> ptr m d = e.
Proof. rewrite chain_app. cbn. tauto. Qed.

Lemma ring_from (m : memory) (c n : Z) (U W : list block) :
  ring m (U ++ (c, n) :: W) -> chain m c (W ++ U ++ [(c, n)]).
Proof.
  intros Hr. replace (U ++ (c, n) :: W) with ((U ++ [(c, n)]) ++ W) in Hr by (by rewrite <- app_assoc).
  apply ring_rot in Hr. unfold ring in Hr. by rewrite !fin_app in Hr.
Qed.

Lemma before_trans (b c d : block) : 0 <= c.2 -> before b c -> before c d -> before b d.
Proof. unfold before, sizeof_header. lia. Qed.

(** The free blocks before and after an address. *)
Lemma split_blocks (bp : Z) (l : list block) : StronglySorted before l -> (forall b, b ∈ l -> 0 <= b.2) -> bp ∉ l.*1 ->
  exists X Y, l = X ++ Y /\ (forall b, b ∈ X -> b.1 < bp) /\ (forall b, b ∈ Y -> bp < b.1).
Proof.
  intros Hs Hp Hn. induction Hs as [|b l Hs IH Hf]; [exists [], []; split_and!; set_solver|].
  cbn [fmap list_fmap] in Hn. apply not_elem_of_cons in Hn as [Hne Hn].
  destruct (Z.lt_ge_cases b.1 bp) as [Hlt|Hge].
  - destruct IH as (X & Y & -> & HX & HY); [intros c Hc; apply Hp; by right|done|]. exists (b :: X), Y. split_and!; [done| |done].
    intros c Hc. apply elem_of_cons in Hc as [->|Hc]; auto.
  - exists [], (b :: l). split_and!; [done|set_solver|]. intros c Hc. apply elem_of_cons in Hc as [->|Hc]; [lia|].
    rewrite List.Forall_forall in Hf. specialize (Hf c ltac:(by apply list_elem_of_In)). specialize (Hp b ltac:(by left)).
    unfold before, sizeof_header in Hf. lia.
Qed.

Section place.
Context {m : memory} {fp N : Z} {G A : list block}.
Hypothesis Hu : uheap m fp N G A.

Lemma free_nonneg (b : block) : b ∈ (base, 0) :: G -> 0 <= b.2.
Proof using Hu Hbase.
  intros Hb. apply elem_of_cons in Hb as [->|Hb]; [done|]. pose proof (uh_pos _ _ _ _ _ Hu b). set_solver by lia.
Qed.

(** The block after which [bp] belongs. *)
Lemma place_of (bp : Z) : base < bp -> bp ∉ base :: G.*1 -> exists X p np Y,
  (base, 0) :: G = X ++ (p, np) :: Y /\ (forall b, b ∈ X ++ [(p, np)] -> b.1 < bp) /\ (forall b, b ∈ Y -> bp < b.1).
Proof using Hu Hbase.
  intros Hb Hn. destruct (split_blocks bp ((base, 0) :: G) (uh_sorted _ _ _ _ _ Hu)) as (X & Y & E & HX & HY);
    [intros b; apply free_nonneg|done|].
  destruct X as [|x X _] using rev_ind.
  - cbn in E. specialize (HY (base, 0)). rewrite <- E in HY. cbn in HY. specialize (HY ltac:(by left)). lia.
  - destruct x as [p np]. exists X, p, np, Y. rewrite <- app_assoc in E. by split_and!.
Qed.

(** The next free block in memory is the next one in order. *)
Lemma free_next (d n : Z) (U W : list block) : (base, 0) :: G = U ++ (d, n) :: W ->
  (forall b, b ∈ U -> b.1 < d) /\ (forall b, b ∈ W -> d < b.1) /\
  match W with
  | [] => ptr m d = base
  | (e, k) :: W' => ptr m d = e /\ forall b, b ∈ W -> e <= b.1
  end.
Proof using Hu Hbase.
  intros E. pose proof (uh_ring _ _ _ _ _ Hu) as Hr. pose proof (uh_sorted _ _ _ _ _ Hu) as Hs. pose proof free_nonneg as Hnn.
  rewrite E in Hr, Hs, Hnn. apply StronglySorted_app in Hs as (Hs1 & _ & Hs2). apply StronglySorted_cons in Hs2 as [Hs2 Hs3].
  rewrite List.Forall_forall in Hs2. split_and!.
  - intros b Hb. specialize (Hs1 b (d, n) Hb ltac:(by left)). specialize (Hnn b ltac:(set_solver)). unfold before, sizeof_header in Hs1. cbn in Hs1. lia.
  - intros b Hb. specialize (Hs2 b ltac:(by apply list_elem_of_In)). specialize (Hnn (d, n) ltac:(set_solver)). unfold before, sizeof_header in Hs2. cbn in *. lia.
  - destruct W as [|[e k] W'].
    + apply ring_from in Hr. cbn [app] in Hr. rewrite <- E in Hr. apply Hr.
    + split; [exact (chain_next m _ d n e k U W' Hr)|]. intros b Hb. apply elem_of_cons in Hb as [->|Hb]; [done|].
      apply StronglySorted_cons in Hs3 as [Hs3 _]. rewrite List.Forall_forall in Hs3. specialize (Hs3 b ltac:(by apply list_elem_of_In)).
      specialize (Hnn (e, k) ltac:(set_solver)). unfold before, sizeof_header in Hs3. cbn in *. lia.
Qed.

Lemma place_accepts (bp p np : Z) (X Y : list block) :
  (base, 0) :: G = X ++ (p, np) :: Y -> (forall b, b ∈ X ++ [(p, np)] -> b.1 < bp) -> (forall b, b ∈ Y -> bp < b.1) ->
  forall d, d ∈ base :: G.*1 -> accepts m bp d = true <-> d = p.
Proof using Hu Hbase.
  intros E HX HY d Hd. destruct (free_next p np X Y E) as (HXp & _ & _).
  pose proof (HX (p, np) ltac:(set_solver)) as Hp. cbn in Hp.
  assert (forall b, b ∈ (base, 0) :: G -> b.1 <= p \/ bp < b.1) as Hall.
  { rewrite E. intros b Hb. apply elem_of_app in Hb as [Hb|Hb]; [left; specialize (HXp b Hb); lia|].
    apply elem_of_cons in Hb as [->|Hb]; [left; done|right; auto]. }
  pose proof (Hall (base, 0) ltac:(by left)) as Hlow. cbn in Hlow.
  assert (base < bp) as Hb0.
  { destruct X as [|x X]; [injection E as -> _ _; done|]. injection E as <- _. apply (HX (base, 0)). set_solver. }
  assert (base <= d) as Hbd.
  { assert (d ∈ ((base, 0) :: G).*1) as Hd' by done. apply list_elem_of_fmap in Hd' as ([d' n] & -> & Hin). cbn.
    apply elem_of_cons in Hin as [[= -> ->]|Hin]; [done|]. destruct (uh_block Hu (d', n)) as (i & Hi & Ei & _); [set_solver|].
    cbn in Ei. unfold sizeof_header in *. lia. }
  assert (d ∈ ((base, 0) :: G).*1) as Hd' by done. apply list_elem_of_fmap in Hd' as ([d' n] & Edd & Hin). cbn in Edd. subst d'.
  pose proof (Hall _ Hin) as Hdp. cbn in Hdp. apply list_elem_of_split in Hin as (U & W & E').
  destruct (free_next d n U W E') as (HU & HW & Hnext). unfold accepts.
  assert ((p, np) ∈ U ++ (d, n) :: W) as Hpin by (rewrite <- E', E; set_solver).
  destruct W as [|[e k] W'].
  - rewrite Hnext. assert (p <= d).
    { apply elem_of_app in Hpin as [Hin|Hin]; [specialize (HU _ Hin); cbn in HU; lia|]. apply list_elem_of_singleton in Hin as [= -> ->]. done. }
    split; lia.
  - destruct Hnext as [-> He]. assert (p <= d \/ e <= p).
    { apply elem_of_app in Hpin as [Hin|Hin]; [specialize (HU _ Hin); cbn in HU; lia|].
      apply elem_of_cons in Hin as [[= -> ->]|Hin]; [by left|]. right. apply (He _ Hin). }
    pose proof (HW (e, k) ltac:(by left)) as Hde. cbn in Hde.
    pose proof (Hall (e, k) ltac:(rewrite E'; set_solver)) as Hep. cbn in Hep. split; lia.
Qed.

Lemma find_place_ok (bp p np : Z) (X Y : list block) (fuel : nat) :
  (base, 0) :: G = X ++ (p, np) :: Y -> (forall b, b ∈ X ++ [(p, np)] -> b.1 < bp) -> (forall b, b ∈ Y -> bp < b.1) ->
  (length G + 1 < fuel)%nat -> find_place fuel m bp fp = Some p.
Proof using Hu Hbase.
  intros E HX HY Hf. pose proof (uh_freep _ _ _ _ _ Hu) as Hfp.
  assert (fp ∈ ((base, 0) :: G).*1) as Hin by done. apply list_elem_of_fmap in Hin as ([c n] & Efp & Hin). cbn [fst] in Efp. rewrite Efp.
  apply list_elem_of_split in Hin as (U & W & E'). pose proof (uh_ring _ _ _ _ _ Hu) as Hr. rewrite E' in Hr.
  assert (forall d, d ∈ c :: (W ++ U ++ [(c, n)]).*1 <-> d ∈ base :: G.*1) as Hiff.
  { intros d. change (base :: G.*1) with (((base, 0) :: G).*1). rewrite E', !fmap_app. cbn. set_solver. }
  apply (find_place_walk m bp p c (W ++ U ++ [(c, n)])).
  - by apply ring_from.
  - apply Hiff. change (base :: G.*1) with (((base, 0) :: G).*1). rewrite E, fmap_app. set_solver.
  - intros d Hd. apply (place_accepts bp p np X Y E HX HY). by apply Hiff.
  - apply (f_equal length) in E'. rewrite !length_app in *. cbn in *. lia.
Qed.
End place.

(** ** free *)

(** Memory that the allocator does not touch: all but its free blocks and [base]. *)
Definition kept (A : list block) (m m' : memory) : Prop :=
  same_on (fun x => x < base \/ base + sizeof_header <= x < lo \/ exists c, c ∈ A /\ c.1 <= x < c.1 + sizeof_header * c.2) m m'.

(** A chain is given by its first pointer and the headers on it. *)
Lemma chain_start (m m' : memory) (a b : Z) (l : list block) :
  ptr m' b = ptr m a -> (forall c, c ∈ l.*1 -> ptr m' c = ptr m c /\ size m' c = size m c) -> chain m a l -> chain m' b l.
Proof.
  revert a b. induction l as [|[c n] l IH]; intros a b Hp Hh; [done|]. intros (H1 & H2 & H3). cbn [chain].
  destruct (Hh c ltac:(by left)) as [H4 H5]. split_and!; [congruence|congruence|].
  apply (IH c); [done| |done]. intros d Hd. apply Hh. by right.
Qed.

(** The last block of a chain may change its size. *)
Lemma chain_close (m m' : memory) (a b : Z) (l : list block) (p n n' : Z) :
  ptr m' b = ptr m a -> size m' p = n' -> (forall c, c ∈ l.*1 -> ptr m' c = ptr m c /\ size m' c = size m c) ->
  chain m a (l ++ [(p, n)]) -> chain m' b (l ++ [(p, n')]).
Proof.
  revert a b. induction l as [|[c k] l IH]; intros a b Hp Hn Hh.
  - cbn. intros (H1 & _). split_and!; [congruence|done|done].
  - intros (H1 & H2 & H3). cbn [app chain]. destruct (Hh c ltac:(by left)) as [H4 H5].
    split_and!; [congruence|congruence|]. apply (IH c); [done|done| |done]. intros d Hd. apply Hh. by right.
Qed.

(** The first half of [free]: [bp] takes over the block after it. *)
Definition join_up (m : memory) (bp p : Z) : memory :=
  if hplus bp (size m bp) =? ptr m p then
    let m := set_size m bp (u32 (size m bp + size m (ptr m p))) in
    set_ptr m bp (ptr m (ptr m p))
  else set_ptr m bp (ptr m p).

(** The second half: the block before it takes over [bp]. *)
Definition join_down (m : memory) (bp p : Z) : memory :=
  if hplus p (size m p) =? bp then
    let m := set_size m p (u32 (size m p + size m bp)) in
    set_ptr m p (ptr m bp)
  else set_ptr m p bp.

Lemma join_up_outside (m : memory) (bp p : Z) : same_on (outside bp) m (join_up m bp p).
Proof.
  unfold join_up. destruct (_ =? _); [|apply set_ptr_outside].
  etransitivity; [apply set_size_outside|apply set_ptr_outside].
Qed.

Lemma join_down_outside (m : memory) (bp p : Z) : same_on (outside p) m (join_down m bp p).
Proof.
  unfold join_down. destruct (_ =? _); [|apply set_ptr_outside].
  etransitivity; [apply set_size_outside|apply set_ptr_outside].
Qed.

Lemma free_joins (fuel : nat) (ap b p : Z) (m : memory) (fp : Z) :
  find_place fuel m (u64 (ap - sizeof_header)) fp = Some p ->
  free fuel ap (UMem m fp b) = Some (UMem (join_down (join_up m (u64 (ap - sizeof_header)) p) (u64 (ap - sizeof_header)) p) p b).
Proof. intros E. unfold free. cbn [um freep]. by rewrite E. Qed.

Section joins.
Context (m : memory) (bp n p np : Z) (X Y : list block).
Hypothesis Hchain : chain m p (Y ++ X ++ [(p, np)]).
Hypothesis Hfar : forall c, c ∈ (Y ++ X ++ [(p, np)]).*1 -> far bp c.
Hypothesis Hnd : NoDup (Y ++ X ++ [(p, np)]).*1.
Hypothesis Hfarp : forall c, c ∈ (Y ++ X).*1 -> far p c.
Hypothesis Hsz : size m bp = n.
Hypothesis Hb : 0 <= bp /\ 0 < n /\ bp + sizeof_header * n <= 2 ^ 31.
Hypothesis Hp : 0 <= p /\ 0 <= np /\ p + sizeof_header * np <= bp.
Hypothesis HY : forall c, c ∈ Y -> bp < c.1 /\ 0 < c.2 /\ c.1 + sizeof_header * c.2 <= 2 ^ 31.
Hypothesis HX : forall c, c ∈ X ++ [(p, np)] -> 0 <= c.1 < bp.

(** What [bp] has become, and the free blocks left after it. *)
Definition up_size : Z := match Y with (q, k) :: _ => if bp + sizeof_header * n =? q then n + k else n | [] => n end.
Definition up_rest : list block := match Y with (q, k) :: Y' => if bp + sizeof_header * n =? q then Y' else Y | [] => [] end.

Lemma join_up_ok : size (join_up m bp p) bp = up_size /\ chain (join_up m bp p) bp (up_rest ++ X ++ [(p, np)]).
Proof using All.
  set (m1 := join_up m bp p).
  assert (hplus bp n = bp + sizeof_header * n) as Eh by (apply u64_small; unfold is_u64, sizeof_header in *; lia).
  assert (forall c, c ∈ (Y ++ X ++ [(p, np)]).*1 -> ptr m1 c = ptr m c /\ size m1 c = size m c) as Hsame.
  { intros c Hc. specialize (Hfar c Hc). split; [apply (ptr_far m m1 bp c Hfar)|apply (size_far m m1 bp c Hfar)]; apply join_up_outside. }
  assert (exists h k l, Y ++ X ++ [(p, np)] = (h, k) :: l /\ is_u64 h /\ (h = bp + sizeof_header * n -> Y <> [])) as (h & k & l & El & Hh & HhY).
  { destruct Y as [|[q k] Y']; [|exists q, k, (Y' ++ X ++ [(p, np)]); split_and!; [done| |done]].
    - destruct (X ++ [(p, np)]) as [|[h k] l] eqn:EX; [by destruct X|]. exists h, k, l.
      specialize (HX (h, k) ltac:(by left)). cbn in HX. unfold is_u64, sizeof_header in *.
      split; [done|split; [lia|intros; lia]].
    - specialize (HY (q, k) ltac:(by left)). cbn in HY. unfold is_u64, sizeof_header in *. lia. }
  assert (ptr m p = h) as Eq by (rewrite El in Hchain; apply Hchain).
  unfold up_size, up_rest. destruct (Z.eqb_spec (bp + sizeof_header * n) h) as [Eh'|Eh'].
  - destruct Y as [|[q kq] Y'] eqn:EY; [by destruct (HhY (eq_sym Eh'))|]. injection El as -> -> <-.
    rewrite (proj2 (Z.eqb_eq _ _) Eh'). destruct Hchain as (_ & Hk & Hrest).
    assert (far bp h) as Hf by (apply Hfar; by left). specialize (HY (h, k) ltac:(by left)). cbn in HY.
    assert (m1 = set_ptr (set_size m bp (n + k)) bp (ptr m h)) as Em1.
    { unfold m1, join_up. rewrite Hsz, Eh, Eq, (proj2 (Z.eqb_eq _ _) Eh'), Hk. cbv zeta.
      rewrite (ptr_set_size m bp _ p) by (right; apply Hfar; rewrite !fmap_app; set_solver).
      rewrite Eq, ptr_set_size by (right; exact Hf). rewrite u32_small by (unfold is_u32, sizeof_header in *; lia). done. }
    split.
    + rewrite Em1, size_set_ptr, size_set_size by (auto; unfold is_u32, sizeof_header in *; lia). done.
    + apply (chain_start m m1 h); [|intros c Hc; apply Hsame; by right|done].
      rewrite Em1. apply ptr_set_ptr, load64_range.
  - assert (m1 = set_ptr m bp h) as Em1.
    { unfold m1, join_up. rewrite Hsz, Eh, Eq. by rewrite (proj2 (Z.eqb_neq _ _) Eh'). }
    assert (size m1 bp = n /\ chain m1 bp (Y ++ X ++ [(p, np)])) as [H1 H2].
    { split; [rewrite Em1; by rewrite size_set_ptr by auto|]. apply (chain_start m m1 p); [|done|done].
      rewrite Eq, Em1. by apply ptr_set_ptr. }
    destruct Y as [|[q kq] Y']; [done|]. injection El as -> -> <-. by rewrite (proj2 (Z.eqb_neq _ _) Eh').
Qed.

(** The free blocks around the place of [bp] afterwards. *)
Definition joined : list block :=
  if p + sizeof_header * np =? bp then [(p, np + up_size)] else [(p, np); (bp, up_size)].

Lemma up_cases : up_size = n /\ up_rest = Y \/
  exists k Y', Y = (bp + sizeof_header * n, k) :: Y' /\ up_size = n + k /\ up_rest = Y'.
Proof using All.
  unfold up_size, up_rest. destruct Y as [|[q k] Y']; [by left|].
  destruct (Z.eqb_spec (bp + sizeof_header * n) q) as [<-|]; [right; by exists k, Y'|by left].
Qed.

Lemma up_size_bound : n <= up_size /\ bp + sizeof_header * up_size <= 2 ^ 31.
Proof using All.
  destruct up_cases as [[-> _]|(k & Y' & E & -> & _)]; [lia|].
  specialize (HY (bp + sizeof_header * n, k) ltac:(rewrite E; by left)). cbn in HY. unfold sizeof_header in *. lia.
Qed.

Lemma up_rest_in (c : Z) : c ∈ (up_rest ++ X).*1 -> c ∈ (Y ++ X).*1.
Proof using All.
  destruct up_cases as [[_ ->]|(k & Y' & -> & _ & ->)]; [done|]. cbn. set_solver.
Qed.

Lemma join_down_ok : ring (join_down (join_up m bp p) bp p) (X ++ joined ++ up_rest).
Proof using All.
  destruct join_up_ok as [Hs1 Hc1]. set (m1 := join_up m bp p) in *. destruct up_size_bound as [Hu1 Hu2].
  assert (far p bp) as Hpb by (destruct (Hfar p); [rewrite !fmap_app; set_solver|right; done|left; done]).
  assert (size m1 p = np) as Hs2.
  { rewrite app_assoc, chain_app in Hc1. apply Hc1. }
  assert (hplus p np = p + sizeof_header * np) as Eh by (apply u64_small; unfold is_u64, sizeof_header in *; lia).
  unfold join_down, joined. rewrite Hs2, Eh. destruct (Z.eqb_spec (p + sizeof_header * np) bp) as [Em|Em].
  - cbv zeta. rewrite Hs1, ptr_set_size, u32_small by (try (by right); unfold is_u32, sizeof_header in *; lia).
    set (m2 := set_ptr _ _ _). assert (same_on (outside p) m1 m2) as Ho by (etransitivity; [apply set_size_outside|apply set_ptr_outside]).
    rewrite app_assoc. apply (ring_rot m2 up_rest (X ++ [(p, np + up_size)])). unfold ring. rewrite !fin_app. cbn [fin].
    rewrite app_assoc. apply (chain_close m1 m2 bp p (up_rest ++ X) p np).
    + apply ptr_set_ptr, load64_range.
    + unfold m2. rewrite size_set_ptr, size_set_size by (auto; unfold is_u32, sizeof_header in *; lia). done.
    + intros c Hc. apply up_rest_in, Hfarp in Hc. split; [by apply (ptr_far _ _ p)|by apply (size_far _ _ p)].
    + by rewrite <- app_assoc.
  - set (m2 := set_ptr _ _ _). assert (same_on (outside p) m1 m2) as Ho by apply set_ptr_outside.
    replace (X ++ [(p, np); (bp, up_size)] ++ up_rest) with ((X ++ [(p, np)]) ++ (bp, up_size) :: up_rest) by (by rewrite <- app_assoc).
    apply (ring_rot m2 ((bp, up_size) :: up_rest) (X ++ [(p, np)])). unfold ring. rewrite !fin_app. cbn [fin app chain]. split_and!.
    + apply ptr_set_ptr. unfold is_u64, sizeof_header in *. lia.
    + rewrite <- Hs1. by apply (size_far _ _ p).
    + rewrite app_assoc. apply (chain_close m1 m2 bp bp (up_rest ++ X) p np).
      * by apply (ptr_far _ _ p).
      * rewrite <- Hs2. apply size_set_ptr. by left.
      * intros c Hc. apply up_rest_in, Hfarp in Hc. split; [by apply (ptr_far _ _ p)|by apply (size_far _ _ p)].
      * by rewrite <- app_assoc.
Qed.

Lemma joined_units : units (X ++ joined ++ up_rest) ≡ₚ units (X ++ (p, np) :: Y) ++ block_units (bp, n).
Proof using All.
  assert (block_units (bp, up_size) ++ units up_rest ≡ₚ units Y ++ block_units (bp, n)) as H1.
  { destruct up_cases as [[-> ->]|(k & Y' & E & -> & ->)]; [apply Permutation_app_comm|].
    specialize (HY (bp + sizeof_header * n, k) ltac:(rewrite E; by left)). cbn in HY.
    rewrite E, units_cons, <- units_join by lia. rewrite <- app_assoc. apply Permutation_app_comm. }
  assert (units joined = block_units (p, np) ++ block_units (bp, up_size)) as H2.
  { unfold joined. destruct up_size_bound as [Hu _]. destruct (Z.eqb_spec (p + sizeof_header * np) bp) as [E|E].
    - rewrite units_cons. cbn [units mbind list_bind]. rewrite app_nil_r, <- units_join by lia. by rewrite E.
    - rewrite !units_cons. cbn [units mbind list_bind]. by rewrite app_nil_r. }
  rewrite !units_app, units_cons, H2, <- !app_assoc. by rewrite H1.
Qed.

Lemma up_rest_after : StronglySorted before (X ++ (p, np) :: Y) -> (forall c, c ∈ Y -> bp + sizeof_header * n <= c.1) ->
  StronglySorted before up_rest /\ forall c, c ∈ up_rest -> bp + sizeof_header * up_size < c.1.
Proof using All.
  intros Hs Hd. apply StronglySorted_app in Hs as (_ & _ & Hs). apply StronglySorted_cons in Hs as [_ Hs].
  unfold up_size, up_rest. destruct Y as [|[q k] Y']; [split; [done|set_solver]|].
  apply StronglySorted_cons in Hs as [Hq Hs]. rewrite List.Forall_forall in Hq. setoid_rewrite <- list_elem_of_In in Hq.
  unfold before in Hq. cbn [fst snd] in Hq. pose proof (HY (q, k) ltac:(by left)) as Hqk. pose proof (Hd (q, k) ltac:(by left)) as Hqd.
  cbn in Hqk, Hqd. destruct (Z.eqb_spec (bp + sizeof_header * n) q) as [E|E].
  - split; [done|]. intros c Hc. specialize (Hq c Hc). unfold sizeof_header in *. lia.
  - split; [apply StronglySorted_cons; split; [rewrite List.Forall_forall; setoid_rewrite <- list_elem_of_In; apply Hq|done]|].
    intros c Hc. apply elem_of_cons in Hc as [->|Hc]; [cbn; lia|]. specialize (Hq c Hc). unfold sizeof_header in *. lia.
Qed.

Lemma joined_sorted : StronglySorted before (X ++ (p, np) :: Y) -> (forall c, c ∈ Y -> bp + sizeof_header * n <= c.1) ->
  StronglySorted before (X ++ joined ++ up_rest).
Proof using All.
  intros Hs Hd. destruct (up_rest_after Hs Hd) as [Hr1 Hr2]. destruct up_size_bound as [Hu _].
  apply StronglySorted_app in Hs as (Hs1 & HsX & _).
  assert (forall x c, x ∈ X -> p <= c.1 -> before x c) as HXp.
  { intros x c Hx Hc. specialize (Hs1 x (p, np) Hx ltac:(by left)). unfold before, sizeof_header in *. cbn in Hs1. lia. }
  apply StronglySorted_app. split_and!; [|done|].
  - intros x c Hx Hc. apply HXp; [done|]. apply elem_of_app in Hc as [Hc|Hc].
    + unfold joined in Hc. destruct (_ =? _).
      * apply list_elem_of_singleton in Hc as ->. done.
      * apply elem_of_cons in Hc as [->|Hc]; [done|]. apply list_elem_of_singleton in Hc as ->. cbn. unfold sizeof_header in *. lia.
    + specialize (Hr2 c Hc). unfold sizeof_header in *. lia.
  - assert (forall b, b.1 + sizeof_header * b.2 = bp + sizeof_header * up_size -> Forall (before b) up_rest) as Hf.
    { intros b Eb. apply List.Forall_forall. setoid_rewrite <- list_elem_of_In. intros c Hc. unfold before. rewrite Eb. auto. }
    unfold joined. destruct (Z.eqb_spec (p + sizeof_header * np) bp) as [E|E]; cbn [app].
    + apply StronglySorted_cons. split; [apply Hf; cbn; unfold sizeof_header in *; lia|done].
    + apply StronglySorted_cons. split; [|apply StronglySorted_cons; split; [by apply Hf|done]].
      constructor; [unfold before; cbn; lia|]. apply List.Forall_forall. setoid_rewrite <- list_elem_of_In.
      intros c Hc. specialize (Hr2 c Hc). unfold before, sizeof_header in *. cbn. lia.
Qed.

Lemma joined_pos (b0 : block) : (forall b, b ∈ X ++ (p, np) :: Y -> b = b0 \/ 0 < b.2) ->
  forall b, b ∈ X ++ joined ++ up_rest -> b = b0 \/ 0 < b.2.
Proof using All.
  intros Hall b Hin. destruct up_size_bound as [Hu _]. apply elem_of_app in Hin as [Hin|Hin]; [apply Hall; set_solver|].
  apply elem_of_app in Hin as [Hin|Hin].
  - unfold joined in Hin. destruct (_ =? _).
    + apply list_elem_of_singleton in Hin as ->. right. cbn. lia.
    + apply elem_of_cons in Hin as [->|Hin]; [apply Hall; set_solver|]. apply list_elem_of_singleton in Hin as ->. right. cbn. lia.
  - apply Hall. destruct up_cases as [[_ Er]|(k & Y' & EY & _ & Er)]; rewrite Er in Hin; [set_solver|].
    rewrite EY. set_solver.
Qed.

Lemma joined_big : exists b, b ∈ X ++ joined ++ up_rest /\ n <= b.2.
Proof using All.
  destruct up_size_bound as [Hu _]. unfold joined. destruct (_ =? _).
  - exists (p, np + up_size). split; [set_solver|cbn; lia].
  - exists (bp, up_size). split; [set_solver|done].
Qed.

Lemma joined_place : p ∈ (X ++ joined ++ up_rest).*1.
Proof using Type. clear. rewrite !fmap_app. unfold joined. destruct (_ =? _); cbn; set_solver. Qed.
End joins.

(** Writing the header of a block that is free, or no longer in use. *)
Lemma kept_one {m fp N} {G A0 : list block} (A : list block) (m1 m2 : memory) (a : Z) : uheap m fp N G A0 ->
  (forall c, c ∈ A -> c ∈ A0) ->
  a = base \/ (exists b, b ∈ G ++ A0 /\ b ∉ A /\ b.1 <= a /\ a + sizeof_header <= b.1 + sizeof_header * b.2) ->
  same_on (outside a) m1 m2 -> kept A m1 m2.
Proof using Hbase.
  intros Hu Hsub Ha. apply same_on_weaken. intros x Hx. unfold outside.
  assert (forall c, c ∈ A -> base + sizeof_header <= c.1) as Hlow.
  { intros c Hc. destruct (uh_block Hu c) as (i & Hi & -> & _); [set_solver|]. unfold sizeof_header in *. lia. }
  destruct Ha as [->|(b & Hb & HbA & Hab)].
  - destruct Hx as [?|[?|(c & Hc & Hx)]]; [lia|lia|]. specialize (Hlow c Hc). lia.
  - destruct (uh_block Hu b Hb) as (i & Hi & Eb & _). destruct Hx as [?|[?|(c & Hc & Hx)]];
      [unfold sizeof_header in *; lia|unfold sizeof_header in *; lia|].
    assert (b <> c) as Hne by (intros ->; done).
    destruct (uh_disjoint Hu b c Hb ltac:(set_solver) Hne); lia.
Qed.

Lemma units_nodup (l : list block) : NoDup (units l) -> (forall b, b ∈ l -> 0 < b.2) -> NoDup l.*1.
Proof.
  induction l as [|b l IH]; [constructor|]. rewrite units_cons, list.NoDup_app. intros (H1 & H2 & H3) Hp. cbn. constructor.
  - intros Hin. apply list_elem_of_fmap in Hin as (c & Ec & Hc). apply (H2 b.1).
    + apply block_units_head, Hp. by left.
    + rewrite Ec. apply elem_of_units. exists c. split; [done|]. apply block_units_head, Hp. by right.
  - apply IH; [done|]. intros c Hc. apply Hp. by right.
Qed.

Lemma uh_addrs {m fp N G A} : uheap m fp N G A -> NoDup (base :: (G ++ A).*1).
Proof using Hbase.
  intros Hu. constructor; [|apply units_nodup; [apply (uh_nodup Hu)|apply (uh_pos _ _ _ _ _ Hu)]].
  intros Hin. apply list_elem_of_fmap in Hin as (c & Ec & Hc). destruct (uh_block Hu c Hc) as (i & Hi & Ei & _).
  unfold sizeof_header in *. lia.
Qed.

Lemma uh_free_used {m fp N G A} : uheap m fp N G A -> forall b, b ∈ G -> b ∉ A.
Proof using Hbase.
  intros Hu b Hb HbA. pose proof (uh_addrs Hu) as Hnd. apply list.NoDup_cons in Hnd as [_ Hnd]. rewrite fmap_app in Hnd.
  apply list.NoDup_app in Hnd as (_ & Hnd & _). apply (Hnd b.1); by apply list_elem_of_fmap_2.
Qed.

Lemma kept_size (A : list block) (m m' : memory) (c : block) : kept A m m' -> c ∈ A -> 0 < c.2 -> size m' c.1 = size m c.1.
Proof.
  intros Hk Hc Hp. apply (load32_same_on _ _ _ _ Hk). right. right. exists c. split; [done|]. unfold sizeof_header. lia.
Qed.

Section freeing.
Context {m : memory} {fp N : Z} {G A : list block} {bp n : Z}.
Hypothesis Hu : uheap m fp N G ((bp, n) :: A).
Lemma free_bp : base < bp /\ 0 < n /\ bp + sizeof_header * n <= 2 ^ 31 /\ size m bp = n.
Proof using Hu Hbase.
  destruct (uh_block Hu (bp, n)) as (i & Hi & Ei & Hn & Hb); [set_solver|]. cbn in *. destruct (uh_bound _ _ _ _ _ Hu).
  split_and!; [unfold sizeof_header in *; lia|done|unfold sizeof_header in *; lia|]. apply (uh_size _ _ _ _ _ Hu (bp, n)). by left.
Qed.

Context {X Y : list block} {p np : Z}.
Hypothesis E : (base, 0) :: G = X ++ (p, np) :: Y.
Hypothesis HX : forall b, b ∈ X ++ [(p, np)] -> b.1 < bp.
Hypothesis HY : forall b, b ∈ Y -> bp < b.1.

Lemma free_in (b : block) : b ∈ X ++ (p, np) :: Y -> b = (base, 0) \/ b ∈ G.
Proof using E. rewrite <- E. apply elem_of_cons. Qed.

Lemma free_range (b : block) : b ∈ X ++ (p, np) :: Y -> base <= b.1 /\ 0 <= b.2 /\ b.1 + sizeof_header * b.2 <= 2 ^ 31 /\
  (b.1 + sizeof_header * b.2 <= bp \/ bp + sizeof_header * n <= b.1) /\ far bp b.1 /\ (b.1 <> base -> 0 < b.2).
Proof using All.
  intros Hb. destruct free_bp as (Hb0 & Hn & Hb1 & _). assert (bp ∉ base :: G.*1) as Hnin.
  { pose proof (uh_addrs Hu) as Hnd. rewrite <- Permutation_middle in Hnd. cbn in Hnd. rewrite fmap_app in Hnd.
    apply list.NoDup_cons in Hnd as [H1 Hnd]. apply list.NoDup_cons in Hnd as [H2 Hnd]. set_solver. }
  assert (b ∈ (base, 0) :: G) as Hbg by (by rewrite E).
  assert (far bp b.1) as Hf.
  { apply (uh_far Hu (bp, n) b); [set_solver|set_solver|]. cbn. intros ->. apply Hnin.
    change (base :: G.*1) with (((base, 0) :: G).*1). by apply list_elem_of_fmap_2. }
  destruct (free_in b Hb) as [->|Hg]; cbn [fst snd].
  { split_and!; [lia|lia|unfold sizeof_header in *; lia|left; lia|done|lia]. }
  destruct (uh_block Hu b) as (i & Hi & Ei & Hp & Hib); [set_solver|]. destruct (uh_bound _ _ _ _ _ Hu).
  split_and!; [unfold sizeof_header in *; lia|lia|unfold sizeof_header in *; lia| |done|done].
  apply (uh_disjoint Hu b (bp, n)); [set_solver|set_solver|]. intros ->. apply Hnin. right. by apply (list_elem_of_fmap_2 fst _ (bp, n)).
Qed.

Lemma free_ring : chain m p (Y ++ X ++ [(p, np)]).
Proof using Hu E. pose proof (uh_ring _ _ _ _ _ Hu) as Hr. rewrite E in Hr. by apply ring_from. Qed.

Lemma free_nodup : NoDup (Y ++ X ++ [(p, np)]).*1.
Proof using All.
  pose proof (uh_addrs Hu) as Hnd. rewrite fmap_app in Hnd. rewrite app_comm_cons in Hnd. apply list.NoDup_app in Hnd as (Hnd & _).
  change (base :: G.*1) with (((base, 0) :: G).*1) in Hnd. rewrite E in Hnd.
  assert ((Y ++ X ++ [(p, np)]).*1 ≡ₚ (X ++ (p, np) :: Y).*1) as ->; [|done].
  apply fmap_Permutation. rewrite (Permutation_app_comm Y), <- app_assoc. done.
Qed.

(** The free blocks afterwards, [base] included. *)
Definition freed_blocks : list block := X ++ joined bp n p np Y ++ up_rest bp n Y.

Lemma freed_head : exists G', freed_blocks = (base, 0) :: G'.
Proof using All.
  destruct free_bp as (Hb & _). unfold freed_blocks. destruct X as [|x X']; cbn in E; injection E as <- E'; [|by eexists].
  unfold joined. subst np. rewrite (proj2 (Z.eqb_neq _ _)) by (unfold sizeof_header; lia). by eexists.
Qed.

Lemma freed_ok : let m' := join_down (join_up m bp p) bp p in
  ring m' freed_blocks /\ units freed_blocks ≡ₚ units ((bp, n) :: G) /\ StronglySorted before freed_blocks /\
  (forall b, b ∈ freed_blocks -> b = (base, 0) \/ 0 < b.2) /\ (exists b, b ∈ freed_blocks /\ n <= b.2).
Proof using All.
  destruct free_bp as (Hb & Hn & Hb1 & Hsz). pose proof free_range as Hr. pose proof free_nodup as Hnd. cbv zeta.
  assert (forall c, c ∈ (Y ++ X ++ [(p, np)]).*1 -> far bp c) as H1.
  { intros c Hc. apply list_elem_of_fmap in Hc as (b & -> & Hb'). apply Hr. set_solver. }
  assert (forall c, c ∈ (Y ++ X).*1 -> far p c) as H2.
  { intros c Hc. rewrite app_assoc, fmap_app in Hnd. apply list.NoDup_app in Hnd as (_ & Hnd & _).
    apply list_elem_of_fmap in Hc as (b & -> & Hb').
    apply (uh_far Hu (p, np) b); [| |intros Ep; apply (Hnd b.1); [by apply list_elem_of_fmap_2|rewrite <- Ep; by left]];
      rewrite app_comm_cons, E; set_solver. }
  assert (0 <= p /\ 0 <= np /\ p + sizeof_header * np <= bp) as H3.
  { destruct (Hr (p, np)) as (H4 & H5 & _ & H6 & _); [set_solver|]. specialize (HX (p, np) ltac:(set_solver)). cbn in *.
    unfold sizeof_header in *. lia. }
  assert (forall c, c ∈ Y -> bp < c.1 /\ 0 < c.2 /\ c.1 + sizeof_header * c.2 <= 2 ^ 31) as H4.
  { intros c Hc. destruct (Hr c) as (H5 & H6 & H7 & _ & _ & H8); [set_solver|]. specialize (HY c Hc). split_and!; [done| |done]. apply H8. lia. }
  assert (forall c, c ∈ X ++ [(p, np)] -> 0 <= c.1 < bp) as H5.
  { intros c Hc. destruct (Hr c) as (H6 & _); [set_solver|]. specialize (HX c Hc). lia. }
  assert (0 <= bp /\ 0 < n /\ bp + sizeof_header * n <= 2 ^ 31) as H6 by lia.
  split_and!; [by apply join_down_ok; try exact free_ring| | | |].
  - unfold freed_blocks. rewrite (joined_units m bp n p np X Y free_ring H1 Hnd H2 Hsz H6 H3 H4 H5), <- E.
    rewrite !units_cons. cbn. apply Permutation_app_comm.
  - apply (joined_sorted m bp n p np X Y free_ring H1 Hnd H2 Hsz H6 H3 H4 H5); [rewrite <- E; apply (uh_sorted _ _ _ _ _ Hu)|].
    intros c Hc. destruct (Hr c) as (H7 & H8 & _ & H9 & _); [set_solver|]. specialize (HY c Hc). unfold sizeof_header in *. lia.
  - apply (joined_pos m bp n p np X Y free_ring H1 Hnd H2 Hsz H6 H3 H4 H5). intros b Hb'.
    destruct (free_in b Hb') as [->|Hg]; [by left|]. right. apply (uh_pos _ _ _ _ _ Hu). set_solver.
  - apply (joined_big m bp n p np X Y free_ring H1 Hnd H2 Hsz H6 H3 H4 H5).
Qed.
End freeing.

(** A free block, and room for a header in it. *)
Lemma free_spot {m fp N G A} (a n : Z) : uheap m fp N G A -> (a, n) ∈ (base, 0) :: G ->
  a = base \/ exists b, b ∈ G ++ A /\ b ∉ A /\ b.1 <= a /\ a + sizeof_header <= b.1 + sizeof_header * b.2.
Proof using Hbase.
  intros Hu Ha. apply elem_of_cons in Ha as [[= -> ->]|Ha]; [by left|]. right. exists (a, n).
  pose proof (uh_pos _ _ _ _ _ Hu (a, n) ltac:(set_solver)) as Hp. cbn in *.
  split_and!; [set_solver| |done|unfold sizeof_header; lia]. apply (uh_free_used Hu (a, n) Ha).
Qed.

(** [free] on a block in use: the block joins the free ones, the contents of
    the other blocks stay, and a free block that holds it exists. *)
Lemma free_heap {m fp N G A} (bp n b : Z) (fuel : nat) : uheap m fp N G ((bp, n) :: A) -> (length G + 1 < fuel)%nat ->
  exists m' p G', free fuel (bp + sizeof_header) (UMem m fp b) = Some (UMem m' p b) /\
    uheap m' p N G' A /\ kept A m m' /\ (exists c, c ∈ G' /\ n <= c.2).
Proof using Hbase.
  intros Hu Hf. destruct (free_bp Hu) as (Hb & Hn & Hb1 & Hsz).
  pose proof (uh_addrs Hu) as Hnd. rewrite <- Permutation_middle in Hnd. cbn in Hnd.
  apply list.NoDup_cons in Hnd as [Hn1 Hnd]. apply list.NoDup_cons in Hnd as [Hn2 Hnd].
  destruct (place_of Hu bp Hb) as (X & p & np & Y & E & HX & HY); [rewrite fmap_app in *; set_solver|].
  destruct (freed_ok Hu E HX HY) as (Hr & Hun & Hs & Hpos & Hbig). destruct (freed_head Hu E HX HY) as (G' & EG).
  assert (p ∈ (base :: G'.*1)) as Hp by (change (base :: G'.*1) with (((base, 0) :: G').*1); rewrite <- EG; apply joined_place).
  rewrite EG in Hr, Hun, Hs, Hpos, Hbig. set (m' := join_down (join_up m bp p) bp p) in *.
  assert (u64 (bp + sizeof_header - sizeof_header) = bp) as Ebp by (rewrite Z.add_simpl_r; apply u64_small; unfold is_u64, sizeof_header in *; lia).
  assert (kept A m m') as Hk.
  { transitivity (join_up m bp p).
    - apply (kept_one A _ _ bp Hu); [set_solver| |apply join_up_outside]. right. exists (bp, n). cbn.
      split_and!; [set_solver| |done|unfold sizeof_header; lia]. intros Hin. apply Hn2, (list_elem_of_fmap_2 fst _ (bp, n)). set_solver.
    - apply (kept_one A _ _ p Hu); [set_solver| |apply join_down_outside].
      destruct (free_spot p np Hu) as [Hl|(c & Hc & HcA & Hc')]; [rewrite E; set_solver|by left|right]. exists c. set_solver. }
  exists m', p, G'. split_and!; [|split| |].
  - pose proof (free_joins fuel (bp + sizeof_header) b p m fp) as Hj. rewrite Ebp in Hj. apply Hj. by apply (find_place_ok Hu bp p np X Y).
  - rewrite <- (uh_part _ _ _ _ _ Hu), <- Permutation_middle, app_comm_cons, !units_app, <- Hun. done.
  - intros c Hc. apply elem_of_app in Hc as [Hc|Hc]; [|apply (uh_pos _ _ _ _ _ Hu); set_solver].
    destruct (Hpos c ltac:(by right)) as [->|Hc']; [|done]. apply StronglySorted_cons in Hs as [Hs _]. rewrite List.Forall_forall in Hs.
    specialize (Hs (base, 0) ltac:(by apply list_elem_of_In)). unfold before in Hs. cbn in Hs. lia.
  - done.
  - done.
  - done.
  - intros c Hc. rewrite (kept_size _ _ _ _ Hk Hc); [|apply (uh_pos _ _ _ _ _ Hu); set_solver]. apply (uh_size _ _ _ _ _ Hu). by right.
  - apply (uh_bound _ _ _ _ _ Hu).
  - done.
  - destruct Hbig as (c & Hc & Hcn). exists c. split; [|done]. apply elem_of_cons in Hc as [->|Hc]; [cbn in Hcn; lia|done].
Qed.
(** ** Memory from the kernel *)
Lemma ring_same (m m' : memory) (l : list block) :
  (forall c, c ∈ l.*1 -> ptr m' c = ptr m c /\ size m' c = size m c) -> ring m l -> ring m' l.
Proof.
  intros Hh. destruct (decide (l = [])) as [->|Hne]; [done|]. apply chain_start; [|done]. apply Hh. by apply fin_in_ne.
Qed.

(** The memory the kernel adds is a block in use, until it is freed. *)
Lemma grow_heap {m fp N G A} (nu : Z) : uheap m fp N G A -> 0 < nu -> lo + sizeof_header * (N + nu) <= 2 ^ 31 ->
  let m' := set_size m (lo + sizeof_header * N) nu in
  uheap m' fp (N + nu) G ((lo + sizeof_header * N, nu) :: A) /\ kept A m m'.
Proof using Hbase.
  intros Hu Hnu Hb m'. destruct (uh_bound _ _ _ _ _ Hu) as [HN _].
  assert (same_on (outside (lo + sizeof_header * N)) m m') as Ho by apply set_size_outside.
  assert (forall c, c ∈ (base, 0) :: G ++ A -> far (lo + sizeof_header * N) c.1) as Hfar.
  { intros c Hc. apply elem_of_cons in Hc as [->|Hc]; [right; cbn; unfold sizeof_header in *; lia|].
    destruct (uh_block Hu c Hc) as (i & Hi & -> & Hc2). right. unfold sizeof_header. lia. }
  assert (kept A m m') as Hk.
  { eapply same_on_weaken; [|exact Ho]. intros x Hx. unfold outside. destruct Hx as [?|[?|(c & Hc & Hx)]];
      [unfold sizeof_header in *; lia|unfold sizeof_header in *; lia|].
    destruct (uh_block Hu c ltac:(set_solver)) as (i & Hi & Ei & Hc2). left. unfold sizeof_header in *. lia. }
  split; [split|done].
  - rewrite <- Permutation_middle, units_cons, (uh_part _ _ _ _ _ Hu), !units_cons. cbn [units mbind list_bind].
    rewrite !app_nil_r, <- (units_join lo N nu) by lia. apply Permutation_app_comm.
  - intros b Hb'. rewrite <- Permutation_middle in Hb'. apply elem_of_cons in Hb' as [->|Hb']; [done|]. by apply (uh_pos _ _ _ _ _ Hu).
  - apply (uh_sorted _ _ _ _ _ Hu).
  - apply (ring_same m); [|apply (uh_ring _ _ _ _ _ Hu)]. intros c Hc. change c with (c, 0).1. apply list_elem_of_fmap in Hc as (b & -> & Hb').
    cbn [fst]. assert (far (lo + sizeof_header * N) b.1) as Hf by (apply Hfar; set_solver).
    split; [by apply (ptr_far _ _ _ _ Hf)|by apply (size_far _ _ _ _ Hf)].
  - apply (uh_freep _ _ _ _ _ Hu).
  - intros c Hc. apply elem_of_cons in Hc as [->|Hc].
    + apply size_set_size. cbn. unfold is_u32, sizeof_header in *. lia.
    + rewrite (kept_size _ _ _ _ Hk Hc); [|apply (uh_pos _ _ _ _ _ Hu); set_solver]. by apply (uh_size _ _ _ _ _ Hu).
  - lia.
Qed.

(** The blocks are no more than the units. *)
Lemma uh_len {m fp N G A} : uheap m fp N G A -> Z.of_nat (length G) <= N.
Proof.
  intros Hu. assert (forall l, (forall b, b ∈ l -> 0 < b.2) -> (length l <= length (units l))%nat) as Hlen.
  { intros l. induction l as [|b l IH]; intros Hp; [done|]. rewrite units_cons, length_app. unfold block_units.
    rewrite length_fmap, length_seq. specialize (Hp b ltac:(by left)) as Hb. cbn.
    specialize (IH ltac:(intros c Hc; apply Hp; by right)). lia. }
  specialize (Hlen (G ++ A) (uh_pos _ _ _ _ _ Hu)). rewrite (Permutation_length (uh_part _ _ _ _ _ Hu)), units_cons in Hlen.
  cbn [units mbind list_bind] in Hlen. unfold block_units in Hlen. rewrite app_nil_r, length_fmap, length_seq, length_app in Hlen.
  destruct (uh_bound _ _ _ _ _ Hu). cbn in Hlen. lia.
Qed.

(** ** Taking a block *)
Lemma base_size {m fp N G A} : uheap m fp N G A -> size m base = 0.
Proof.
  intros Hu. pose proof (ring_from m base 0 [] G (uh_ring _ _ _ _ _ Hu)) as Hc. cbn [app] in Hc.
  rewrite chain_app in Hc. apply Hc.
Qed.

Lemma prev_of {m fp N G A} (d p : Z) : uheap m fp N G A -> d ∈ base :: G.*1 -> ptr m d = p -> p <> base ->
  exists U n k H W, (base, 0) :: H = U ++ [(d, n)] /\ G = H ++ (p, k) :: W.
Proof using Hbase.
  intros Hu Hd Hp Hpb. assert (d ∈ ((base, 0) :: G).*1) as Hin by done. apply list_elem_of_fmap in Hin as ([d' n] & Ed & Hin).
  cbn in Ed. subst d'. apply list_elem_of_split in Hin as (U & V & E). destruct (free_next Hu d n U V E) as (_ & _ & Hn).
  destruct V as [|[e k] W]; cbn in Hn; [congruence|]. destruct Hn as [He _]. assert (e = p) as -> by congruence.
  destruct U as [|u U]; cbn in E.
  - injection E as <- <- EG. by exists [], 0, k, [], W.
  - injection E as Eu EG. exists (u :: U), n, k, (U ++ [(d, n)]), W. rewrite Eu. split; [done|]. by rewrite <- app_assoc.
Qed.

Section take.
Context {m : memory} {fp N : Z} {G A : list block}.
Hypothesis Hu : uheap m fp N G A.
Context {U H W : list block} {d n p k : Z}.
Hypothesis EH : (base, 0) :: H = U ++ [(d, n)].
Hypothesis EG : G = H ++ (p, k) :: W.

Lemma take_block : exists i, 0 <= i /\ p = lo + sizeof_header * i /\ 0 < k /\ i + k <= N.
Proof using All. apply (uh_block Hu (p, k)). rewrite EG. set_solver. Qed.

Lemma take_far (j : Z) (c : block) : 0 <= j < k -> c ∈ (base, 0) :: G ++ A -> c.1 <> p \/ 0 < j -> far (p + sizeof_header * j) c.1.
Proof using All.
  intros Hj Hc Hne. destruct take_block as (i & Hi & Ep & Hk & Hik). apply elem_of_cons in Hc as [->|Hc].
  - right. cbn. unfold sizeof_header in *. lia.
  - pose proof (uh_pos _ _ _ _ _ Hu c Hc). destruct (decide (c = (p, k))) as [->|Hck].
    + right. cbn in *. unfold sizeof_header. destruct Hne; [done|lia].
    + destruct (uh_disjoint Hu c (p, k)) as [Hd|Hd]; [done|rewrite EG; set_solver|done| |]; cbn in Hd.
      * right. unfold sizeof_header in *. lia.
      * left. unfold sizeof_header in *. lia.
Qed.

Lemma take_sorted (l : list block) : (forall c, c ∈ l -> c.1 = p /\ c.2 <= k) -> StronglySorted before l -> l = [] \/ (exists c, l = [c]) ->
  StronglySorted before ((base, 0) :: H ++ l ++ W).
Proof using All.
  intros Hl Hsl Hl1. pose proof (uh_sorted _ _ _ _ _ Hu) as Hs. rewrite EG in Hs. rewrite app_comm_cons in Hs |- *.
  apply StronglySorted_app in Hs as (H1 & H2 & H3). apply StronglySorted_cons in H3 as [H4 H5].
  rewrite List.Forall_forall in H4. setoid_rewrite <- list_elem_of_In in H4.
  apply StronglySorted_app. split_and!; [|done|].
  - intros x c Hx Hc. apply elem_of_app in Hc as [Hc|Hc]; [|apply H1; [done|by right]].
    specialize (H1 x (p, k) Hx ltac:(by left)). destruct (Hl c Hc) as [Ec _]. unfold before in *. cbn in H1. lia.
  - apply StronglySorted_app. split_and!; [|done|done]. intros x c Hx Hc. specialize (H4 c Hc). destruct (Hl x Hx) as [Ex Hxk].
    unfold before, sizeof_header in *. cbn in H4. lia.
Qed.

Lemma take_ring : ring m (U ++ (d, n) :: (p, k) :: W).
Proof using All.
  pose proof (uh_ring _ _ _ _ _ Hu) as Hr. rewrite EG, app_comm_cons, EH, <- app_assoc in Hr. done.
Qed.

Lemma take_prev : (d, n) ∈ (base, 0) :: H /\ d <> p.
Proof using All.
  assert ((d, n) ∈ (base, 0) :: H) as Hd by (rewrite EH; set_solver). split; [done|]. intros Edp.
  pose proof (uh_addrs Hu) as Hnd. rewrite EG, fmap_app, fmap_app in Hnd. rewrite <- app_assoc, app_comm_cons in Hnd. apply list.NoDup_app in Hnd as (_ & Hnd & _).
  apply (Hnd d); [|rewrite Edp; set_solver]. change (base :: H.*1) with (((base, 0) :: H).*1). by apply (list_elem_of_fmap_2 fst _ (d, n)).
Qed.

(** The whole block. *)
Lemma take_all : let m' := set_ptr m d (ptr m p) in uheap m' d N (H ++ W) ((p, k) :: A) /\ kept A m m'.
Proof using All.
  cbv zeta. set (m' := set_ptr m d (ptr m p)). destruct take_prev as [Hd Hdp]. destruct take_block as (i & Hi & Ep & Hk & Hik).
  assert (same_on (outside d) m m') as Ho by apply set_ptr_outside.
  assert (kept A m m') as Hkept.
  { apply (kept_one A _ _ d Hu); [done| |done]. apply (free_spot d n Hu). rewrite EG. set_solver. }
  assert (forall c, c ∈ (base, 0) :: H ++ (p, k) :: W -> c.1 <> d -> far d c.1) as Hfar.
  { intros c Hc Hne. apply (uh_far Hu (d, n) c); [rewrite EG; set_solver|rewrite EG; set_solver|done]. }
  pose proof take_ring as Hr.
  assert (NoDup ((U ++ (d, n) :: (p, k) :: W).*1)) as Hnd.
  { pose proof (uh_addrs Hu) as Hnd. rewrite fmap_app, app_comm_cons in Hnd. apply list.NoDup_app in Hnd as (Hnd & _).
    change (base :: G.*1) with (((base, 0) :: G).*1) in Hnd. rewrite EG, app_comm_cons, EH, <- app_assoc in Hnd. done. }
  apply ring_from in Hr as (_ & Hpk & Hr).
  split; [split|done].
  - rewrite <- (uh_part _ _ _ _ _ Hu), EG. apply units_perm. rewrite <- Permutation_middle, <- app_assoc, <- app_assoc. cbn.
    by rewrite <- Permutation_middle.
  - intros c Hc. apply (uh_pos _ _ _ _ _ Hu). rewrite EG. set_solver.
  - apply (take_sorted []); [set_solver|constructor|by left].
  - rewrite app_comm_cons, EH. apply (ring_rot m' W). unfold ring. rewrite !fin_app. cbn [fin]. rewrite app_assoc.
    apply (chain_close m m' p d (W ++ U) d n n); [apply ptr_set_ptr, load64_range| | |by rewrite <- app_assoc].
    + unfold m'. rewrite size_set_ptr by (by left). rewrite app_assoc, chain_app in Hr. apply Hr.
    + intros c Hc. apply list_elem_of_fmap in Hc as (b & -> & Hb). assert (far d b.1) as Hf.
      { apply Hfar; [rewrite app_comm_cons, EH; set_solver|]. intros Ebd. rewrite fmap_app in Hnd. cbn in Hnd.
        rewrite <- Permutation_middle in Hnd. apply list.NoDup_cons in Hnd as [Hnd _]. apply Hnd. rewrite <- Ebd.
        apply elem_of_app in Hb as [Hb|Hb]; [apply elem_of_app; right; right|apply elem_of_app; left]; by apply list_elem_of_fmap_2. }
      split; [by apply (ptr_far _ _ _ _ Hf)|by apply (size_far _ _ _ _ Hf)].
  - change (base :: (H ++ W).*1) with (((base, 0) :: H ++ W).*1). rewrite app_comm_cons, EH, !fmap_app. set_solver.
  - intros c Hc. apply elem_of_cons in Hc as [->|Hc].
    + cbn. rewrite <- Hpk. apply (size_far _ _ d); [|done]. apply (Hfar (p, k)); [set_solver|done].
    + rewrite (kept_size _ _ _ _ Hkept Hc); [|apply (uh_pos _ _ _ _ _ Hu); set_solver]. by apply (uh_size _ _ _ _ _ Hu).
  - apply (uh_bound _ _ _ _ _ Hu).
Qed.

(** The end of the block. *)
Lemma take_part (u : Z) : 0 < u < k -> let r := p + sizeof_header * (k - u) in
  let m' := set_size (set_size m p (k - u)) r u in
  uheap m' d N (H ++ (p, k - u) :: W) ((r, u) :: A) /\ kept A m m'.
Proof using All.
  intros Hnu r m'. destruct take_block as (i & Hi & Ep & Hk & Hik). destruct (uh_bound _ _ _ _ _ Hu) as [_ HN].
  assert (forall c, c ∈ (base, 0) :: G ++ A -> c.1 <> p -> far p c.1 /\ far r c.1) as Hfar.
  { intros c Hc Hne. split; [rewrite <- (Z.add_0_r p), <- (Z.mul_0_r sizeof_header)|]; apply take_far; auto; lia. }
  assert (far r p) as Hrp by (apply (take_far (k - u) (p, k)); [lia|rewrite EG; set_solver|right; lia]).
  assert (kept A m m') as Hkept.
  { assert (forall a, p <= a -> a + sizeof_header <= p + sizeof_header * k -> a = base \/
      (exists b, b ∈ G ++ A /\ b ∉ A /\ b.1 <= a /\ a + sizeof_header <= b.1 + sizeof_header * b.2)) as Hin.
    { intros a H1 H2. right. exists (p, k). split_and!; [rewrite EG; set_solver| |done|done]. apply (uh_free_used Hu). rewrite EG. set_solver. }
    transitivity (set_size m p (k - u)); [apply (kept_one A _ _ p Hu)|apply (kept_one A _ _ r Hu)];
      [done|apply Hin; unfold sizeof_header; lia|apply set_size_outside
      |done|apply Hin; unfold r, sizeof_header; lia|apply set_size_outside]. }
  assert (size m' p = k - u) as Hsp.
  { unfold m'. rewrite size_set_size_far by done. apply size_set_size. unfold is_u32, sizeof_header in *. lia. }
  assert (forall c, c ∈ (base, 0) :: G ++ A -> c.1 <> p -> ptr m' c.1 = ptr m c.1 /\ size m' c.1 = size m c.1) as Hsame.
  { intros c Hc Hne. destruct (Hfar c Hc Hne). unfold m'. by rewrite !ptr_set_size, !size_set_size_far by auto. }
  split; [split|done].
  - rewrite <- (uh_part _ _ _ _ _ Hu), EG, <- !app_assoc, !units_app. f_equiv. rewrite !units_cons.
    rewrite <- (Z.sub_add u k) at 2. rewrite <- units_join by lia. rewrite <- !app_assoc. f_equiv. fold r.
    rewrite (app_assoc (units W)), (Permutation_app_comm (units W)), <- app_assoc. done.
  - intros c Hc. assert (c = (p, k - u) \/ c = (r, u) \/ c ∈ G ++ A) as [->|[->|Hc']]; [rewrite EG; set_solver|cbn; lia|cbn; lia|].
    by apply (uh_pos _ _ _ _ _ Hu).
  - apply (take_sorted [(p, k - u)]); [|by repeat constructor|right; by eexists]. intros c Hc. apply list_elem_of_singleton in Hc as ->. cbn. lia.
  - pose proof (uh_ring _ _ _ _ _ Hu) as Hr. rewrite EG, app_comm_cons in Hr. apply ring_from in Hr.
    rewrite cons_middle, app_assoc, app_comm_cons. apply (ring_rot m' W (((base, 0) :: H) ++ [(p, k - u)])).
    unfold ring. rewrite !fin_app. cbn [fin]. rewrite app_assoc.
    apply (chain_close m m' p p _ p k); [unfold m'; by rewrite !ptr_set_size by auto|done| |by rewrite <- app_assoc].
    intros c Hc. apply list_elem_of_fmap in Hc as (b & -> & Hb). apply Hsame; [rewrite EG; set_solver|].
    pose proof (uh_addrs Hu) as Hnd. rewrite EG, fmap_app, app_comm_cons in Hnd. apply list.NoDup_app in Hnd as (Hnd & _).
    change (base :: (H ++ (p, k) :: W).*1) with ((((base, 0) :: H) ++ (p, k) :: W).*1) in Hnd.
    rewrite <- Permutation_middle in Hnd. apply list.NoDup_cons in Hnd as [Hnd _]. intros Ebp. apply Hnd. cbn [fst]. rewrite <- Ebp.
    apply list_elem_of_fmap_2. set_solver.
  - destruct take_prev as [Hd _]. change (base :: (H ++ (p, k - u) :: W).*1) with ((((base, 0) :: H) ++ (p, k - u) :: W).*1).
    apply (list_elem_of_fmap_2 fst _ (d, n)). set_solver.
  - intros c Hc. apply elem_of_cons in Hc as [->|Hc].
    + apply size_set_size. cbn. unfold is_u32, sizeof_header in *. lia.
    + rewrite (kept_size _ _ _ _ Hkept Hc); [|apply (uh_pos _ _ _ _ _ Hu); set_solver]. by apply (uh_size _ _ _ _ _ Hu).
  - apply (uh_bound _ _ _ _ _ Hu).
Qed.
End take.

Section kernel.
Context (grow : Z -> Z -> bool).
Hypothesis Hgrow : forall b n, grow b n = true -> b + n <= 2 ^ 31.

Lemma morecore_heap {m fp N G A} (nu : Z) (fuel : nat) : uheap m fp N G A ->
  0 < nu -> sizeof_header * nu < 2 ^ 31 -> (Z.to_nat N + 1 < fuel)%nat ->
  let nu' := Z.max nu 4096 in
  if grow (lo + sizeof_header * N) (sizeof_header * nu') then
    exists m' p G', morecore grow fuel nu (UMem m fp (lo + sizeof_header * N)) =
        Some (p, UMem m' p (lo + sizeof_header * (N + nu'))) /\ p <> 0 /\
      uheap m' p (N + nu') G' A /\ kept A m m' /\ exists c, c ∈ G' /\ nu <= c.2
  else morecore grow fuel nu (UMem m fp (lo + sizeof_header * N)) = Some (0, UMem m fp (lo + sizeof_header * N)).
Proof using Hbase Hgrow.
  intros Hu Hnu Hs Hf nu'. assert (nu' = Z.max nu 4096) as Enu by done. clearbody nu'.
  unfold morecore, sbrk. cbn [brk um freep].
  replace (if nu <? 4096 then 4096 else nu) with nu' by (destruct (Z.ltb_spec nu 4096); lia).
  assert (i32 (nu' * sizeof_header) = sizeof_header * nu') as ->
    by (rewrite Z.mul_comm; apply i32_small; unfold sizeof_header in *; lia).
  destruct (grow _ _) eqn:Hg; [|done]. apply Hgrow in Hg. destruct (uh_bound _ _ _ _ _ Hu) as [HN _].
  rewrite (proj2 (Z.eqb_neq _ _)) by (unfold sizeof_header in *; lia). cbn [um freep brk].
  destruct (grow_heap nu' Hu ltac:(lia) ltac:(unfold sizeof_header in *; lia)) as [Hu' Hk'].
  assert (hplus (lo + sizeof_header * N) 1 = lo + sizeof_header * N + sizeof_header) as ->.
  { unfold hplus. rewrite Z.mul_1_r. apply u64_small. unfold is_u64, sizeof_header in *. lia. }
  destruct (free_heap (lo + sizeof_header * N) nu' (lo + sizeof_header * N + sizeof_header * nu') fuel Hu')
    as (m' & p & G' & -> & Hu2 & Hk & c & Hc & Hcn); [pose proof (uh_len Hu); lia|].
  exists m', p, G'. split_and!; [cbn; do 3 f_equal; unfold sizeof_header; lia| |done|by etransitivity|exists c; split; [done|lia]].
  pose proof (uh_freep _ _ _ _ _ Hu2) as Hp. apply elem_of_cons in Hp as [->|Hp]; [lia|].
  apply list_elem_of_fmap in Hp as (b & -> & Hb). destruct (uh_block Hu2 b ltac:(set_solver)) as (i & Hi & -> & _).
  unfold sizeof_header in *. lia.
Qed.

(** ** The loop of malloc *)

(** At a block that is large enough. *)
Lemma loop_fit {m fp N G A} (d u b : Z) (f0 fuel : nat) : uheap m fp N G A -> d ∈ base :: G.*1 -> 0 < u <= size m (ptr m d) ->
  exists a m' G', malloc_loop grow f0 (S fuel) u d (ptr m d) (UMem m fp b) = Some (a + sizeof_header, UMem m' d b) /\
    uheap m' d N G' ((a, u) :: A) /\ kept A m m'.
Proof using Hbase.
  intros Hu Hd Hfit. destruct (prev_of d (ptr m d) Hu Hd eq_refl) as (U & n & k & H & W & EH & EG).
  { intros E. rewrite E, (base_size Hu) in Hfit. lia. }
  destruct (take_block Hu EH EG) as (i & Hi & Ep & Hk & Hik). destruct (uh_bound _ _ _ _ _ Hu) as [_ HN].
  assert (size m (ptr m d) = k) as Hsz by (destruct (ring_from _ _ _ _ _ (take_ring Hu EH EG)) as (_ & Hs & _); exact Hs).
  cbn [malloc_loop um brk]. rewrite Hsz in *. rewrite (proj2 (Z.leb_le _ _)) by lia.
  set (p := ptr m d) in *. assert (forall j, 0 <= j <= k -> hplus p j = p + sizeof_header * j) as Hpl
    by (intros j Hj; apply u64_small; unfold is_u64, sizeof_header in *; lia).
  destruct (Z.eqb_spec k u) as [<-|Hne].
  - destruct (take_all Hu EH EG) as [Hu' Hk']. rewrite Hpl, Z.mul_1_r by lia. do 3 eexists. split; [reflexivity|]. done.
  - destruct (take_part Hu EH EG u) as [Hu' Hk']; [lia|]. rewrite u32_small by (unfold is_u32, sizeof_header in *; lia).
    rewrite size_set_size by (unfold is_u32, sizeof_header in *; lia). rewrite Hpl by lia.
    assert (hplus (p + sizeof_header * (k - u)) 1 = p + sizeof_header * (k - u) + sizeof_header) as ->
      by (unfold hplus; rewrite Z.mul_1_r; apply u64_small; unfold is_u64, sizeof_header in *; lia).
    do 3 eexists. split; [reflexivity|]. done.
Qed.

(** Past blocks that are too small. *)
Lemma loop_walk (m : memory) (fp b u : Z) (f0 : nat) (l : list block) : forall d fuel, chain m d l ->
  (forall c, c ∈ l -> c.2 < u /\ c.1 <> fp) ->
  malloc_loop grow f0 (length l + fuel) u d (ptr m d) (UMem m fp b) =
  malloc_loop grow f0 fuel u (fin d l) (ptr m (fin d l)) (UMem m fp b).
Proof.
  induction l as [|[c k] l IH]; intros d fuel Hc Hl; [done|]. destruct Hc as (-> & Hs & Hc).
  destruct (Hl (c, k) ltac:(by left)) as [Hk Hfp]. cbn [length Nat.add malloc_loop um freep fin fst snd] in *.
  rewrite Hs, (proj2 (Z.leb_gt _ _)), (proj2 (Z.eqb_neq _ _)) by done. apply IH; [done|]. intros x Hx. apply Hl. by right.
Qed.

Lemma first_fit (u : Z) (l : list block) : (forall c, c ∈ l -> c.2 < u) \/
  exists l1 c l2, l = l1 ++ c :: l2 /\ u <= c.2 /\ forall x, x ∈ l1 -> x.2 < u.
Proof.
  induction l as [|b l IH]; [left; set_solver|]. destruct (Z.lt_ge_cases b.2 u) as [Hb|Hb].
  - destruct IH as [IH|(l1 & c & l2 & -> & Hc & Hl)].
    + left. intros c Hc. apply elem_of_cons in Hc as [->|Hc]; auto.
    + right. exists (b :: l1), c, l2. split_and!; [done|done|]. intros x Hx. apply elem_of_cons in Hx as [->|Hx]; auto.
  - right. exists [], b, l. split_and!; [done|done|set_solver].
Qed.

(** One turn around the ring, from freep to freep. *)
Lemma loop_turn {m fp N G A} (u b : Z) (f0 : nat) : uheap m fp N G A -> 0 < u ->
  (forall fuel, (length G + 1 < fuel)%nat ->
    exists d a m' G', malloc_loop grow f0 fuel u fp (ptr m fp) (UMem m fp b) = Some (a + sizeof_header, UMem m' d b) /\
      uheap m' d N G' ((a, u) :: A) /\ kept A m m') \/
  ((forall c, c ∈ G -> c.2 < u) /\ forall fuel, malloc_loop grow f0 (length G + S fuel) u fp (ptr m fp) (UMem m fp b) =
    '(q, s) ← morecore grow f0 u (UMem m fp b);
    if q =? 0 then Some (0, s) else malloc_loop grow f0 fuel u q (ptr (um s) q) s).
Proof using Hbase Hgrow.
  intros Hu Hpos. pose proof (uh_freep _ _ _ _ _ Hu) as Hfp.
  assert (fp ∈ ((base, 0) :: G).*1) as Hin by done. apply list_elem_of_fmap in Hin as ([c n] & Efp & Hin). cbn [fst] in Efp. subst c.
  apply list_elem_of_split in Hin as (U & W & E). pose proof (uh_ring _ _ _ _ _ Hu) as Hr. rewrite E in Hr. apply ring_from in Hr.
  assert (forall x, x ∈ W ++ U -> x.1 <> fp) as Hnfp.
  { pose proof (uh_addrs Hu) as Hnd. rewrite fmap_app, app_comm_cons in Hnd. apply list.NoDup_app in Hnd as (Hnd & _).
    change (base :: G.*1) with (((base, 0) :: G).*1) in Hnd. rewrite E, <- Permutation_middle in Hnd. apply list.NoDup_cons in Hnd as [Hnd _].
    intros x Hx Ex. apply Hnd. cbn [fst]. rewrite <- Ex. apply list_elem_of_fmap_2. set_solver. }
  assert (length (W ++ U) = length G) as Hlen by (apply (f_equal length) in E; rewrite length_app in *; cbn in *; lia).
  rewrite app_assoc in Hr. destruct (first_fit u ((W ++ U) ++ [(fp, n)])) as [Hnone|(l1 & [p k] & l2 & El & Hk & Hl1)].
  - right. split.
    { intros c Hc. apply Hnone. assert (c ∈ (base, 0) :: G) as Hc' by (by right). rewrite E in Hc'. set_solver. }
    intros fuel. rewrite chain_app in Hr. destruct Hr as (Hr1 & Hr2 & Hr3 & _). rewrite <- Hlen.
    rewrite (loop_walk m fp b u f0 (W ++ U) fp (S fuel) Hr1); [|intros x Hx; split; [apply Hnone; set_solver|by apply Hnfp]].
    cbn [malloc_loop um freep]. rewrite Hr2, Hr3. specialize (Hnone (fp, n) ltac:(set_solver)). cbn in Hnone.
    by rewrite (proj2 (Z.leb_gt _ _)), Z.eqb_refl by done.
  - left. intros fuel Hf. rewrite El, chain_app in Hr. destruct Hr as (Hr1 & Hr2 & Hr3 & _).
    assert (length l1 <= length G)%nat as Hl by (apply (f_equal length) in El; rewrite !length_app in El; rewrite length_app in Hlen; cbn in El; lia).
    assert (forall x, x ∈ l1 -> x ∈ W ++ U) as Hsub.
    { destruct l2 as [|y l2 _] using rev_ind; [apply app_inj_tail in El as [-> _]; done|].
      rewrite app_comm_cons, app_assoc in El. apply app_inj_tail in El as [-> _]. set_solver. }
    replace fuel with (length l1 + S (fuel - length l1 - 1))%nat by lia. rewrite loop_walk; [|done|auto].
    exists (fin fp l1). refine (loop_fit (fin fp l1) u b f0 _ Hu _ _); [|rewrite Hr2, Hr3; cbn in Hk; lia].
    change (base :: G.*1) with (((base, 0) :: G).*1). pose proof (fin_in fp l1) as Hin. apply elem_of_cons in Hin as [->|Hin]; [done|].
    apply list_elem_of_fmap in Hin as (y & -> & Hy). apply list_elem_of_fmap_2. specialize (Hsub y Hy). rewrite E. set_solver.
Qed.

Lemma loop_ok {m fp N G A} (u : Z) (fuel : nat) : uheap m fp N G A -> 0 < u -> sizeof_header * u < 2 ^ 31 ->
  2 * N + Z.max u 4096 + 4 <= Z.of_nat fuel ->
  exists r s', malloc_loop grow fuel fuel u fp (ptr m fp) (UMem m fp (lo + sizeof_header * N)) = Some (r, s') /\
    kept A m (um s') /\
    (r = 0 /\ (forall c, c ∈ G -> c.2 < u) /\ grow (lo + sizeof_header * N) (sizeof_header * Z.max u 4096) = false /\
       s' = UMem m fp (lo + sizeof_header * N) \/
     exists a N' G', r = a + sizeof_header /\ brk s' = lo + sizeof_header * N' /\ uheap (um s') (freep s') N' G' ((a, u) :: A)).
Proof using Hbase Hgrow.
  intros Hu Hpos Hs Hf. pose proof (uh_len Hu) as Hl. destruct (uh_bound _ _ _ _ _ Hu) as [HN _].
  destruct (loop_turn u (lo + sizeof_header * N) fuel Hu Hpos) as [Hfit|[Hnone Hturn]].
  { destruct (Hfit fuel ltac:(lia)) as (d & a & m' & G' & -> & Hu' & Hk). do 2 eexists. split; [done|]. split; [done|].
    right. by exists a, N, G'. }
  pose proof (morecore_heap u fuel Hu Hpos Hs ltac:(lia)) as Hm. cbv zeta in Hm. set (f' := (fuel - length G - 1)%nat).
  assert (malloc_loop grow fuel fuel = malloc_loop grow fuel (length G + S f')) as -> by (f_equal; unfold f'; lia).
  rewrite Hturn. destruct (grow _ _) eqn:Hg.
  - destruct Hm as (m' & p & G' & -> & Hp & Hu' & Hk & c & Hc & Hcu). cbn [mbind option_bind um]. rewrite (proj2 (Z.eqb_neq _ _)) by done.
    destruct (loop_turn u (lo + sizeof_header * (N + Z.max u 4096)) fuel Hu' Hpos) as [Hfit|[Hno _]].
    + pose proof (uh_len Hu') as Hl'. destruct (Hfit f' ltac:(unfold f'; lia)) as (d & a & m2 & G2 & -> & Hu2 & Hk2).
      do 2 eexists. split; [done|]. split; [by transitivity m'|]. right. by exists a, (N + Z.max u 4096), G2.
    + specialize (Hno c Hc). lia.
  - rewrite Hm. cbn. do 2 eexists. split; [done|]. split; [done|]. left. done.
Qed.
End kernel.

(** ** A heap without blocks in use *)
Lemma uh_apart {m fp N G A} : uheap m fp N G A -> forall b c, b ∈ G -> c ∈ G -> c <> b -> before b c \/ before c b.
Proof.
  intros Hu b c Hb Hc Hne. pose proof (uh_sorted _ _ _ _ _ Hu) as Hs. apply StronglySorted_cons in Hs as [_ Hs].
  apply list_elem_of_split in Hb as (l1 & l2 & ->). apply StronglySorted_app in Hs as (H1 & _ & H2).
  apply StronglySorted_cons in H2 as [H2 _]. rewrite List.Forall_forall in H2. setoid_rewrite <- list_elem_of_In in H2.
  apply elem_of_app in Hc as [Hc|Hc]; [right; apply H1; [done|by left]|]. apply elem_of_cons in Hc as [->|Hc]; [done|]. left. auto.
Qed.

Lemma uh_empty {m fp N G} : uheap m fp N G [] -> 0 < N -> G = [(lo, N)].
Proof using Hbase.
  intros Hu HN. pose proof (uh_unit Hu) as Hun. pose proof (@uh_block _ _ _ _ _ Hu) as Hbl. rewrite app_nil_r in *.
  destruct (proj1 (elem_of_units G lo)) as (b & Hb & Hlo); [apply Hun; exists 0; lia|].
  destruct (Hbl b Hb) as (i & Hi & Ei & Hp & Hib). apply elem_of_block_units in Hlo as (j & Hj & Ej).
  assert (b.1 = lo) as Eb by (unfold sizeof_header in *; lia).
  assert (forall c, c ∈ G -> c = b) as Hall.
  { intros c Hc. destruct (decide (c = b)) as [|Hne]; [done|exfalso].
    assert (b.1 + sizeof_header * b.2 <= c.1) as Hbc.
    { destruct (uh_disjoint Hu b c) as [?|Hd]; [set_solver|set_solver|done|done|]. destruct (Hbl c Hc) as (i' & Hi' & Ei' & Hp' & _).
      unfold sizeof_header in *. lia. }
    destruct (Hbl c Hc) as (i' & Hi' & Ei' & Hp' & Hic).
    destruct (proj1 (elem_of_units G (lo + sizeof_header * b.2))) as (e & He & Hue).
    { apply Hun. exists b.2. unfold sizeof_header in *. lia. }
    apply elem_of_block_units in Hue as (j' & Hj' & Ej'). destruct (decide (e = b)) as [->|Heb]; [unfold sizeof_header in *; lia|].
    assert (e.1 = b.1 + sizeof_header * b.2) as Ee.
    { destruct (uh_disjoint Hu b e) as [?|Hd]; [set_solver|set_solver|done|unfold sizeof_header in *; lia|].
      destruct (Hbl e He) as (i2 & Hi2 & Ei2 & Hp2 & _). unfold sizeof_header in *. lia. }
    destruct (uh_apart Hu b e Hb He ltac:(done)) as [Hbe|Hbe]; unfold before, sizeof_header in *; lia. }
  assert (b.2 = N) as EN.
  { destruct (decide (b.2 = N)) as [|Hne]; [done|exfalso]. destruct (proj1 (elem_of_units G (lo + sizeof_header * b.2))) as (e & He & Hue).
    { apply Hun. exists b.2. unfold sizeof_header in *. lia. }
    rewrite (Hall e He) in Hue. apply elem_of_block_units in Hue as (j' & Hj' & Ej'). unfold sizeof_header in *. lia. }
  rewrite (surjective_pairing b), Eb, EN in Hall.
  pose proof (uh_addrs Hu) as Hnd. rewrite app_nil_r in Hnd. apply list.NoDup_cons in Hnd as [_ Hnd]. destruct G as [|x [|y G]]; [set_solver| |].
  - f_equal. apply Hall. constructor.
  - rewrite (Hall x ltac:(constructor)), (Hall y ltac:(constructor; constructor)) in Hnd. cbn in Hnd. apply list.NoDup_cons in Hnd as [Hnd _]. set_solver.
Qed.
End heap.

(** ** The allocator as a whole *)

(** The allocator with the blocks [A] in use: not yet called, or with a heap
    that reaches to the end of the process's memory. *)
Definition alloc_state (base lo : Z) (s : umem) (A : list block) : Prop :=
  freep s = 0 /\ A = [] /\ brk s = lo \/
  exists N G, brk s = lo + sizeof_header * N /\ uheap base lo (um s) (freep s) N G A.

(** The units that a request takes. *)
Definition request (nbytes : Z) : Z := (nbytes + sizeof_header - 1) / sizeof_header + 1.

Lemma request_bounds (nbytes : Z) : 0 <= nbytes -> 0 < request nbytes /\
  nbytes <= sizeof_header * (request nbytes - 1) /\ sizeof_header * request nbytes < nbytes + 2 * sizeof_header.
Proof. unfold request, sizeof_header. Z.to_euclidean_division_equations. lia. Qed.

Lemma uheap_init (base lo : Z) (m : memory) : 0 < base /\ base + sizeof_header <= lo -> lo <= 2 ^ 31 ->
  uheap base lo (set_size (set_ptr m base base) base 0) base 0 [] [].
Proof.
  intros Hb Hlo. split.
  - done.
  - set_solver.
  - by repeat constructor.
  - unfold ring. cbn. split_and!; [|by apply size_set_size|done]. rewrite ptr_set_size by (by left).
    apply ptr_set_ptr. unfold is_u64, sizeof_header in *. lia.
  - by left.
  - set_solver.
  - lia.
Qed.

Lemma uheap_freep (base lo : Z) (m : memory) (fp N : Z) (G A : list block) :
  0 < base /\ base + sizeof_header <= lo -> uheap base lo m fp N G A -> fp <> 0.
Proof.
  intros Hb Hu. pose proof (uh_freep _ _ _ _ _ _ _ Hu) as Hp. apply elem_of_cons in Hp as [->|Hp]; [lia|].
  apply list_elem_of_fmap in Hp as (b & -> & Hin). destruct (uh_block base lo Hu b) as (i & Hi & -> & _); [set_solver|].
  unfold sizeof_header in *. lia.
Qed.

Lemma uheap_perm (base lo : Z) (m : memory) (fp N : Z) (G A A' : list block) : A ≡ₚ A' -> uheap base lo m fp N G A -> uheap base lo m fp N G A'.
Proof.
  intros HA [H1 H2 H3 H4 H5 H6 H7]. split; [by rewrite <- HA| |done|done|done| |done].
  - intros b Hb. apply H2. by rewrite HA.
  - intros b Hb. apply H6. by rewrite HA.
Qed.

Section spec.
Context (base lo : Z) (grow : Z -> Z -> bool).
Hypothesis Hbase : 0 < base /\ base + sizeof_header <= lo /\ lo <= 2 ^ 31.
Hypothesis Hgrow : forall b n, grow b n = true -> b + n <= 2 ^ 31.

(** C13. malloc answers every request below 2 GB, within a number of steps
    bounded by the size of the heap: either it returns 0, which it only does
    when the kernel refuses to grow the process, and no block changes hands;
    or it returns the address of at least nbytes bytes that lie in the
    process's memory, apart from every block in use, and the block is in use
    from then on.  The contents of all blocks in use, and the memory outside
    the heap, stay as they were, and the free list stays well formed. *)
Theorem malloc_allocates (s : umem) (A : list block) (nbytes : Z) (fuel : nat) :
  alloc_state base lo s A -> 0 <= nbytes < 2 ^ 31 - 32 ->
  (brk s - lo) + nbytes + 4200 <= Z.of_nat fuel ->
  exists r s', malloc base grow fuel nbytes s = Some (r, s') /\ kept base lo A (um s) (um s') /\
    (r = 0 /\ alloc_state base lo s' A /\ grow (brk s) (sizeof_header * Z.max (request nbytes) 4096) = false \/
     exists a, r = a + sizeof_header /\ alloc_state base lo s' ((a, request nbytes) :: A) /\
       lo <= a /\ r + nbytes <= brk s' /\
       forall c, c ∈ A -> r + nbytes <= c.1 \/ c.1 + sizeof_header * c.2 <= a).
Proof using Hbase Hgrow.
  intros Hst Hn Hf. destruct s as [m0 fp0 b]. destruct (request_bounds nbytes) as (Hq & Hqn & Hqb); [lia|].
  assert (exists m fp N G, b = lo + sizeof_header * N /\ uheap base lo m fp N G A /\ kept base lo A m0 m /\
    malloc base grow fuel nbytes (UMem m0 fp0 b) = malloc_loop grow fuel fuel (request nbytes) fp (ptr m fp) (UMem m fp b))
    as (m & fp & N & G & -> & Hu & Hk & ->).
  { unfold malloc. fold (request nbytes). cbn [freep um brk]. rewrite u32_small by (unfold is_u32, sizeof_header in *; lia).
    destruct Hst as [(Efp & -> & Eb)|(N & G & Eb & Hu)]; cbn [freep um brk] in *.
    - rewrite Efp. exists (set_size (set_ptr m0 base base) base 0), base, 0, []. split_and!; [lia|apply uheap_init; lia| |done].
      apply (same_on_weaken (outside base)); [intros x; unfold outside; set_solver by lia|].
      etransitivity; [apply set_ptr_outside|apply set_size_outside].
    - rewrite (proj2 (Z.eqb_neq _ _)) by (apply (uheap_freep base lo m0 fp0 N G A); [lia|done]). by exists m0, fp0, N, G. }
  destruct (uh_bound _ _ _ _ _ _ _ Hu) as [HN _]. cbn [brk um] in *.
  destruct (loop_ok base lo ltac:(lia) grow Hgrow (request nbytes) fuel Hu Hq) as (r & s' & -> & Hk' & Hr);
    [unfold sizeof_header in *; lia|unfold sizeof_header in *; lia|].
  exists r, s'. split; [done|]. split; [by transitivity m|]. destruct Hr as [(-> & _ & Hg & ->)|(a & N' & G' & -> & Eb & Hu')].
  - left. split_and!; [done|right; by exists N, G|done].
  - right. exists a. destruct (uh_block _ _ Hu' (a, request nbytes)) as (i & Hi & Ei & _ & Hib); [set_solver|]. cbn in Ei, Hib.
    split_and!; [done|right; by exists N', G'|unfold sizeof_header in *; lia|unfold sizeof_header in *; lia|].
    intros c Hc. pose proof (uh_addrs base lo ltac:(lia) Hu') as Hnd.
    rewrite <- Permutation_middle in Hnd. apply list.NoDup_cons in Hnd as [_ Hnd]. cbn in Hnd. apply list.NoDup_cons in Hnd as [Hnd _].
    destruct (uh_disjoint _ _ Hu' (a, request nbytes) c) as [Hd|Hd]; [set_solver|set_solver| | |]; cbn [fst snd] in *.
    + intros <-. apply Hnd. rewrite fmap_app. apply elem_of_app. right. by apply (list_elem_of_fmap_2 fst _ (a, request nbytes)).
    + left. unfold sizeof_header in *. lia.
    + right. done.
Qed.

(** C14. free takes any block in use back, in a number of steps bounded by the
    size of the heap: the other blocks stay in use and keep their contents,
    the memory outside the heap is untouched, and when no block is left in
    use the free list is one block that holds the whole heap, so that no
    fragmentation remains. *)
Theorem free_returns (s : umem) (A A' : list block) (a n : Z) (fuel : nat) :
  alloc_state base lo s A -> A ≡ₚ (a, n) :: A' -> (brk s - lo) + 2 <= Z.of_nat fuel ->
  exists s', free fuel (a + sizeof_header) s = Some s' /\ brk s' = brk s /\
    alloc_state base lo s' A' /\ kept base lo A' (um s) (um s') /\
    (A' = [] -> ring (um s') [(base, 0); (lo, (brk s - lo) / sizeof_header)]).
Proof using Hbase.
  clear Hgrow grow. intros Hst HA Hf. destruct s as [m fp b]. destruct Hst as [(_ & -> & _)|(N & G & Eb & Hu)];
    [by apply Permutation_nil_cons in HA|]. cbn [um freep brk] in *.
  apply (uheap_perm _ _ _ _ _ _ _ _ HA) in Hu. destruct (uh_bound _ _ _ _ _ _ _ Hu) as [HN _].
  destruct (uh_block _ _ Hu (a, n)) as (i & Hi & _ & Hn & Hin); [set_solver|]. cbn in Hn, Hin.
  destruct (free_heap base lo ltac:(lia) a n b fuel Hu) as (m' & p & G' & -> & Hu' & Hk & _);
    [pose proof (uh_len _ _ Hu); unfold sizeof_header in *; lia|].
  eexists. split_and!; [done|done|right; by exists N, G'|done|]. intros ->. cbn [um].
  pose proof (uh_ring _ _ _ _ _ _ _ Hu') as Hr. rewrite (uh_empty base lo ltac:(lia) Hu' ltac:(lia)) in Hr.
  replace ((b - lo) / sizeof_header) with N; [done|]. rewrite Eb, Z.add_simpl_l, Z.mul_comm. by rewrite Z.div_mul.
Qed.
End spec.

(** ** A run *)
Definition demo_grow (b n : Z) : bool := b + n <=? 2 ^ 27.

Lemma malloc_allocates_witness : exists r s', malloc 4096 demo_grow (Z.to_nat 4300) 100 (UMem ∅ 0 8192) = Some (r, s') /\ r <> 0.
Proof.
  destruct (malloc_allocates 4096 8192 demo_grow) with (s := UMem ∅ 0 8192) (A := @nil block) (nbytes := 100) (fuel := Z.to_nat 4300)
    as (r & s' & Hm & _ & Hr).
  - unfold sizeof_header. lia.
  - unfold demo_grow. intros b n Hb. apply Z.leb_le in Hb. lia.
  - left. split_and!; reflexivity.
  - lia.
  - cbn [brk]. lia.
  - exists r, s'. split; [exact Hm|]. destruct Hr as [(_ & _ & Hg)|(a & -> & _ & Ha & _)].
    + vm_compute in Hg. discriminate.
    + unfold sizeof_header. lia.
Defined.

(** Memory after the first request, of 80 bytes. *)
Definition demo_mem : memory :=
  set_size (set_size (set_ptr (set_size (set_ptr ∅ 4096 8192) 4096 0) 8192 4096) 8192 4090) (8192 + 16 * 4090) 6.

Lemma demo_heap : alloc_state 4096 8192 (UMem demo_mem 4096 (8192 + 16 * 4096)) [(8192 + 16 * 4090, 6)].
Proof.
  right. exists 4096, [(8192, 4090)]. split; [reflexivity|]. split.
  - assert (units ([(8192, 4090)] ++ [(8192 + 16 * 4090, 6)]) = units [(8192, 4096)]) as -> by (vm_compute; reflexivity). reflexivity.
  - intros b Hb. apply elem_of_cons in Hb as [->|Hb]; [done|]. apply list_elem_of_singleton in Hb as ->. done.
  - repeat constructor.
  - vm_compute. repeat split.
  - left.
  - intros b Hb. apply list_elem_of_singleton in Hb as ->. vm_compute. reflexivity.
  - unfold sizeof_header. lia.
Qed.

Lemma free_returns_witness : exists s', free (Z.to_nat 65538) (8192 + 16 * 4090 + sizeof_header) (UMem demo_mem 4096 (8192 + 16 * 4096)) = Some s' /\
  ring (um s') [(4096, 0); (8192, 4096)].
Proof.
  destruct (free_returns 4096 8192) with (s := UMem demo_mem 4096 (8192 + 16 * 4096)) (A := [(8192 + 16 * 4090, 6)]) (A' := @nil block)
    (a := 8192 + 16 * 4090) (n := 6) (fuel := Z.to_nat 65538) as (s' & Hf & _ & _ & _ & Hr).
  - unfold sizeof_header. lia.
  - exact demo_heap.
  - reflexivity.
  - cbn [brk]. lia.
  - exists s'. split; [exact Hf|]. exact (Hr eq_refl).
Defined.
End Umalloc.
