(* ===== verification/Ulib.v ===== *)
(** * The C library of user programs (user/ulib.c, user/printf.c)

    Functions on the memory of a process.  Loops that run to the end of a C
    string have fuel, and give [None] when the string does not end within it;
    the theorems show that the length of the string is enough.  [gets] takes
    its characters from a list of what is still to be read; formatted output
    is the sequence of characters that [putc] writes, each with one system
    call whose result the code ignores.  The theorems: [strcmp] orders
    strings, [memmove] is the one of the kernel, [printf] substitutes its
    arguments, [atoi] reads back what [printf] prints. *)
From S2P Require Import Prelude Memory Cstring.

Module Ulib.

(** ** user/ulib.c *)
Fixpoint strcpy_loop (fuel : nat) (m : memory) (s t : Z) : option memory :=
  match fuel with
  | O => None
  | S fuel =>
    let m := set_byte m s (byte_at m t) in
    if truth (byte_at m s) then strcpy_loop fuel m (s + 1) (t + 1) else Some m
  end.
Definition strcpy (fuel : nat) (m : memory) (s t : Z) : option (Z * memory) :=
  let os := s in
  m ← strcpy_loop fuel m s t; Some (os, m).

Fixpoint strcmp (fuel : nat) (m : memory) (p q : Z) : option Z :=
  match fuel with
  | O => None
  | S fuel =>
    if truth (byte_at m p) && (byte_at m p =? byte_at m q) then strcmp fuel m (p + 1) (q + 1)
    else Some (u8 (byte_at m p) - u8 (byte_at m q))
  end.

Fixpoint strlen_loop (fuel : nat) (m : memory) (s n : Z) : option Z :=
  match fuel with
  | O => None
  | S fuel => if truth (byte_at m (s + n)) then strlen_loop fuel m s (n + 1) else Some (u32 n)
  end.
Definition strlen (fuel : nat) (m : memory) (s : Z) : option Z := strlen_loop fuel m s 0.

Fixpoint memset_loop (m : memory) (cdst c i : Z) (k : nat) : memory :=
  match k with
  | O => m
  | S k => memset_loop (set_byte m (cdst + i) c) cdst c (i + 1) k
  end.
Definition memset (m : memory) (dst c n : Z) : memory := memset_loop m dst c 0 (Z.to_nat n).

Fixpoint strchr (fuel : nat) (m : memory) (s c : Z) : option Z :=
  match fuel with
  | O => None
  | S fuel =>
    if truth (byte_at m s) then
      if byte_at m s =? u8 c then Some s else strchr fuel m (s + 1) c
    else Some 0
  end.

(** [inp]: what read(0, ...) still has to give; none at the end of the input. *)
Fixpoint gets_loop (fuel : nat) (m : memory) (buf max i : Z) (inp : list Z) : memory * Z * list Z :=
  match fuel with
  | O => (m, i, inp)
  | S fuel =>
    if i + 1 <? max then
      match inp with
      | [] => (m, i, inp)
      | c :: inp =>
        let m := set_byte m (buf + i) c in
        if (c =? 10) || (c =? 13) then (m, i + 1, inp) else gets_loop fuel m buf max (i + 1) inp
      end
    else (m, i, inp)
  end.
Definition gets (m : memory) (buf max : Z) (inp : list Z) : memory * list Z :=
  let '(m, i, inp) := gets_loop (Z.to_nat max) m buf max 0 inp in
  (set_byte m (buf + i) 0, inp).

(** stat, with the system calls it makes. *)
Definition stat {W : Type} (open : list Z -> Z -> W -> Z * W) (fstat : Z -> W -> Z * W) (close : Z -> W -> W)
    (n : list Z) (w : W) : Z * W :=
  let (fd, w) := open n 0 w in
  if fd <? 0 then (-1, w) else
  let (r, w) := fstat fd w in
  let w := close fd w in
  (r, w).

Fixpoint atoi_loop (fuel : nat) (m : memory) (s n : Z) : option Z :=
  match fuel with
  | O => None
  | S fuel =>
    let c := byte_at m s in
    if (48 <=? c) && (c <=? 57) then atoi_loop fuel m (s + 1) (i32 (i32 (n * 10) + c - 48)) else Some n
  end.
Definition atoi (fuel : nat) (m : memory) (s : Z) : option Z := atoi_loop fuel m s 0.

Definition memmove (m : memory) (vdst vsrc n : Z) : memory :=
  if vdst <? vsrc then copy_up m vdst vsrc (Z.to_nat n)
  else copy_down m (vdst + n) (vsrc + n) (Z.to_nat n).

Fixpoint memcmp_loop (k : nat) (m : memory) (p1 p2 : Z) : Z :=
  match k with
  | O => 0
  | S k => if negb (byte_at m p1 =? byte_at m p2) then byte_at m p1 - byte_at m p2 else memcmp_loop k m (p1 + 1) (p2 + 1)
  end.
Definition memcmp (m : memory) (s1 s2 n : Z) : Z := memcmp_loop (Z.to_nat n) m s1 s2.

Definition memcpy (m : memory) (dst src n : Z) : memory := memmove m dst src n.

(** ** user/printf.c *)
Definition digits : list Z := bytes_of "0123456789ABCDEF".

(** The loop that fills [buf] from its end: at most ten digits. *)
Fixpoint printint_loop (fuel : nat) (x base : Z) (buf : list Z) : list Z :=
  match fuel with
  | O => buf
  | S fuel =>
    let buf := buf ++ [digits !!! Z.to_nat (x mod base)] in
    let x := x / base in
    if negb (x =? 0) then printint_loop fuel x base buf else buf
  end.
Definition printint (xx base : Z) (sgn : bool) : list Z :=
  let neg := sgn && (xx <? 0) in
  let x := if neg then u32 (- xx) else u32 xx in
  let buf := printint_loop 32 x base [] in
  let buf := if neg then buf ++ [45] else buf in
  rev buf.

Fixpoint printptr_loop (k : nat) (x : Z) : list Z :=
  match k with
  | O => []
  | S k => digits !!! Z.to_nat (Z.shiftr x 60) :: printptr_loop k (u64 (Z.shiftl x 4))
  end.
Definition printptr (x : Z) : list Z := [48; 120] ++ printptr_loop 16 (u64 x).

(** The loop that writes a string. *)
Fixpoint puts (fuel : nat) (m : memory) (s : Z) : option (list Z) :=
  match fuel with
  | O => None
  | S fuel => if truth (byte_at m s) then (byte_at m s ::.) <$> puts fuel m (s + 1) else Some []
  end.

(** One conversion: the character after the percent sign and the arguments. *)
Definition convert (fuel : nat) (m : memory) (c : Z) (ap : list Z) : option (list Z * list Z) :=
  if c =? 100 then match ap with x :: ap => Some (printint (i32 x) 10 true, ap) | [] => None end
  else if c =? 108 then match ap with x :: ap => Some (printint (i32 x) 10 false, ap) | [] => None end
  else if c =? 120 then match ap with x :: ap => Some (printint (i32 x) 16 false, ap) | [] => None end
  else if c =? 112 then match ap with x :: ap => Some (printptr x, ap) | [] => None end
  else if c =? 115 then
    match ap with
    | s :: ap => if s =? 0 then Some (bytes_of "(null)", ap) else o ← puts fuel m s; Some (o, ap)
    | [] => None
    end
  else if c =? 99 then match ap with x :: ap => Some ([u8 x], ap) | [] => None end
  else if c =? 37 then Some ([c], ap)
  else Some ([37; c], ap).

(** The loop over the format; [state]: after a percent sign.  None when the
    arguments do not suffice. *)
Fixpoint vprintf_loop (f0 fuel : nat) (m : memory) (fmt : Z) (state : bool) (ap : list Z) : option (list Z) :=
  match fuel with
  | O => None
  | S fuel =>
    let c := byte_at m fmt in
    if truth c then
      if state then
        '(o, ap) ← convert f0 m c ap;
        (o ++.) <$> vprintf_loop f0 fuel m (fmt + 1) false ap
      else if c =? 37 then vprintf_loop f0 fuel m (fmt + 1) true ap
      else (c ::.) <$> vprintf_loop f0 fuel m (fmt + 1) false ap
    else Some []
  end.
Definition vprintf (fuel : nat) (m : memory) (fd fmt : Z) (ap : list Z) : option (Z * list Z) :=
  o ← vprintf_loop fuel fuel m fmt false ap; Some (fd, o).

(** A call: the file descriptor and what is written to it. *)
Definition fprintf (fuel : nat) (m : memory) (fd fmt : Z) (ap : list Z) : option (Z * list Z) := vprintf fuel m fd fmt ap.
Definition printf (fuel : nat) (m : memory) (fmt : Z) (ap : list Z) : option (Z * list Z) := vprintf fuel m 1 fmt ap.

(** ** C strings in memory *)
Definition string_at (m : memory) (a : Z) (s : list Z) : Prop :=
  load m a (length s) = s /\ byte_at m (a + Z.of_nat (length s)) = 0 /\ Forall (fun c => c <> 0) s.

Lemma string_at_nil (m : memory) (a : Z) : string_at m a [] <-> byte_at m a = 0.
Proof. unfold string_at. cbn. rewrite Z.add_0_r. split; [tauto|]. intros H. split_and!; [done|done|constructor]. Qed.

Lemma string_at_cons (m : memory) (a c : Z) (s : list Z) :
  string_at m a (c :: s) <-> byte_at m a = c /\ c <> 0 /\ string_at m (a + 1) s.
Proof.
  unfold string_at. cbn [load length]. rewrite Nat2Z.inj_succ, <- Z.add_1_l, Z.add_assoc, list.Forall_cons.
  split; [intros ([= -> ->] & ? & ? & ?); by split_and!|]. intros (-> & ? & -> & ? & ?). by split_and!.
Qed.

Lemma string_at_byte (m : memory) (a c : Z) (s : list Z) : string_at m a (c :: s) -> is_byte c.
Proof. intros (<- & _)%string_at_cons. apply byte_at_range. Qed.

(** ** ulib.c *)
Lemma strlen_ok (m : memory) (a : Z) (s : list Z) (fuel : nat) : string_at m a s -> (length s < fuel)%nat ->
  strlen fuel m a = Some (u32 (Z.of_nat (length s))).
Proof.
  intros Hs Hf. unfold strlen. replace (Z.of_nat (length s)) with (0 + Z.of_nat (length s)) by lia.
  rewrite <- (Z.add_0_r a) in Hs. revert fuel Hf Hs. generalize 0 as k.
  induction s as [|c s IH]; intros k fuel Hf Hs; (destruct fuel as [|fuel]; [cbn in Hf; lia|]); cbn [strlen_loop].
  - apply string_at_nil in Hs as ->. cbn. by rewrite Z.add_0_r.
  - apply string_at_cons in Hs as (-> & Hc & Hs). unfold truth. rewrite (proj2 (Z.eqb_neq _ _)) by done. cbn [negb].
    rewrite <- Z.add_assoc in Hs. rewrite (IH (k + 1)); [|cbn in Hf; lia|done]. do 2 f_equal. cbn. lia.
Qed.

(** The order of strings by their bytes. *)
Fixpoint compare_strings (s t : list Z) : Z :=
  match s, t with
  | [], [] => 0
  | [], c :: _ => - c
  | c :: _, [] => c
  | c :: s, d :: t => if c =? d then compare_strings s t else c - d
  end.

Lemma strcmp_compares (m : memory) (p q : Z) (s t : list Z) (fuel : nat) :
  string_at m p s -> string_at m q t -> (length s < fuel)%nat -> strcmp fuel m p q = Some (compare_strings s t).
Proof.
  revert p q t fuel. induction s as [|c s IH]; intros p q t fuel Hs Ht Hf; (destruct fuel as [|fuel]; [cbn in Hf; lia|]); cbn [strcmp].
  - apply string_at_nil in Hs as ->. cbn [truth Z.eqb negb andb]. rewrite !u8_small by (try apply byte_at_range; done).
    destruct t as [|d t]; [apply string_at_nil in Ht as ->|apply string_at_cons in Ht as (-> & _)]; done.
  - pose proof (string_at_byte _ _ _ _ Hs) as Hb. apply string_at_cons in Hs as (-> & Hc & Hs). unfold truth.
    rewrite (proj2 (Z.eqb_neq c 0)) by done. cbn [negb andb]. destruct t as [|d t].
    + apply string_at_nil in Ht as ->. rewrite (proj2 (Z.eqb_neq c 0)), !u8_small by done. cbn. f_equal. lia.
    + pose proof (string_at_byte _ _ _ _ Ht) as Hd. apply string_at_cons in Ht as (-> & Hd0 & Ht). cbn [compare_strings].
      destruct (c =? d); [apply IH; [done|done|cbn in Hf; lia]|]. by rewrite !u8_small by done.
Qed.

(** memmove copies as if through a temporary array, as the kernel's does. *)
Lemma umemmove_store (m : memory) (dst src n : Z) : 0 <= n -> memmove m dst src n = store m dst (load m src (Z.to_nat n)).
Proof.
  intros Hn. unfold memmove. apply store_unique; rewrite length_load.
  - intros x Hx. destruct (Z.ltb_spec dst src).
    + rewrite copy_up_lookup by lia. destruct (Z.leb_spec dst x), (Z.ltb_spec x (dst + Z.of_nat (Z.to_nat n))); cbn [andb]; try done; lia.
    + rewrite copy_down_lookup by lia.
      destruct (Z.leb_spec (dst + n - Z.of_nat (Z.to_nat n)) x), (Z.ltb_spec x (dst + n)); cbn [andb]; try done; lia.
  - intros i Hi. rewrite nth_load by lia. rewrite u8_small by apply byte_at_range. destruct (Z.ltb_spec dst src).
    + rewrite copy_up_lookup, (proj2 (Z.leb_le _ _)), (proj2 (Z.ltb_lt _ _)) by lia. cbn [andb]. do 2 f_equal. lia.
    + rewrite copy_down_lookup, (proj2 (Z.leb_le _ _)), (proj2 (Z.ltb_lt _ _)) by lia. cbn [andb]. do 2 f_equal. lia.
Qed.

Lemma memmove_kernel (m : memory) (dst src n : Z) : 0 <= n -> memmove m dst src n = Cstring.memmove m dst src n.
Proof. intros Hn. by rewrite umemmove_store, Cstring.memmove_store. Qed.

Lemma umemset_store (m : memory) (dst c n : Z) : memset m dst c n = store m dst (repeat c (Z.to_nat n)).
Proof.
  unfold memset. rewrite <- (Z.add_0_r dst) at 2. revert m. generalize 0 as i.
  induction (Z.to_nat n) as [|k IH]; intros i m; [done|]. cbn [memset_loop repeat store]. by rewrite IH, Z.add_assoc.
Qed.

(** strcpy copies the string and its terminator to memory apart from it. *)
Lemma strcpy_ok (m : memory) (s t : Z) (l : list Z) (fuel : nat) : string_at m t l -> (length l < fuel)%nat ->
  s + Z.of_nat (length l) < t \/ t + Z.of_nat (length l) < s ->
  strcpy fuel m s t = Some (s, store m s (l ++ [0])).
Proof.
  intros Hl Hf Hd. unfold strcpy. assert (strcpy_loop fuel m s t = Some (store m s (l ++ [0]))) as ->; [|done].
  revert m s t fuel Hl Hf Hd. induction l as [|c l IH]; intros m s t fuel Hl Hf Hd; (destruct fuel as [|fuel]; [cbn in Hf; lia|]); cbn [strcpy_loop].
  - apply string_at_nil in Hl as ->. by rewrite byte_at_set_byte, Z.eqb_refl.
  - pose proof (string_at_byte _ _ _ _ Hl) as Hb. apply string_at_cons in Hl as (-> & Hc & Hl).
    rewrite byte_at_set_byte, Z.eqb_refl, u8_small by done. unfold truth. rewrite (proj2 (Z.eqb_neq _ _)) by done. cbn [negb].
    cbn [length] in Hf, Hd. cbn [app store]. apply IH; [|lia|lia]. destruct Hl as (H1 & H2 & H3). unfold string_at.
    rewrite byte_at_set_byte, (proj2 (Z.eqb_neq _ _)) by lia. split_and!; [|done|done].
    rewrite <- H1 at 2. apply load_ext. intros i Hi. rewrite byte_at_set_byte, (proj2 (Z.eqb_neq _ _)) by lia. done.
Qed.

(** ** Reading a line *)

(** The first line of the input, with its end, or what fits into [n] bytes. *)
Fixpoint line (n : nat) (inp : list Z) : list Z :=
  match n, inp with
  | S n, c :: inp => c :: (if (c =? 10) || (c =? 13) then [] else line n inp)
  | _, _ => []
  end.

Lemma gets_loop_line (buf max : Z) (fuel : nat) : forall m i inp, max - i <= Z.of_nat fuel ->
  gets_loop fuel m buf max i inp =
    let l := line (Z.to_nat (max - i - 1)) inp in
    (store m (buf + i) l, i + Z.of_nat (length l), drop (length l) inp).
Proof.
  induction fuel as [|fuel IH]; intros m i inp Hf; cbn [gets_loop].
  - replace (Z.to_nat (max - i - 1)) with O by lia. cbn. by rewrite Z.add_0_r.
  - destruct (Z.ltb_spec (i + 1) max) as [Hi|Hi].
    + replace (Z.to_nat (max - i - 1)) with (S (Z.to_nat (max - (i + 1) - 1))) by lia. destruct inp as [|c inp]; cbn [line]; cbv zeta.
      { cbn. by rewrite Z.add_0_r. }
      destruct (_ || _); cbn [length drop store]; [done|]. rewrite IH by lia. cbv zeta. rewrite Z.add_assoc. f_equal. f_equal. lia.
    + replace (Z.to_nat (max - i - 1)) with O by lia. cbn. by rewrite Z.add_0_r.
Qed.

Lemma ustore_app (m : memory) (a : Z) (x y : list Z) : store m a (x ++ y) = store (store m a x) (a + Z.of_nat (length x)) y.
Proof.
  revert m a. induction x as [|b x IH]; intros m a; cbn [app store length]; [by rewrite Z.add_0_r|].
  rewrite IH. f_equal. lia.
Qed.

(** gets puts the next line of the input into the buffer, cut to max - 1
    bytes and terminated, and leaves the rest of the input. *)
Lemma gets_line (m : memory) (buf max : Z) (inp : list Z) :
  let l := line (Z.to_nat (max - 1)) inp in gets m buf max inp = (store m buf (l ++ [0]), drop (length l) inp).
Proof.
  cbv zeta. unfold gets. rewrite gets_loop_line by lia. cbv zeta. by rewrite !Z.sub_0_r, Z.add_0_r, ustore_app.
Qed.

(** ** Numbers *)
Definition digits_value (n : Z) (l : list Z) : Z := fold_left (fun v c => v * 10 + (c - 48)) l n.

Lemma digits_value_grows (n : Z) (l : list Z) : 0 <= n -> Forall (fun c => 48 <= c <= 57) l -> n <= digits_value n l.
Proof.
  intros Hn Hl. revert n Hn. induction Hl as [|c l Hc _ IH]; intros n Hn; [done|]. cbn [digits_value fold_left].
  specialize (IH (n * 10 + (c - 48)) ltac:(lia)). unfold digits_value in IH. lia.
Qed.

Lemma atoi_loop_value (m : memory) (l : list Z) (fuel : nat) : forall s n, 0 <= n -> Forall (fun c => 48 <= c <= 57) l ->
  load m s (length l) = l -> ~ 48 <= byte_at m (s + Z.of_nat (length l)) <= 57 -> digits_value n l < 2 ^ 31 -> (length l < fuel)%nat ->
  atoi_loop fuel m s n = Some (digits_value n l).
Proof.
  revert fuel. induction l as [|c l IH]; intros fuel s n Hn Hl Hload Hend Hv Hf; (destruct fuel as [|fuel]; [cbn in Hf; lia|]); cbn [atoi_loop].
  - cbn in Hend. rewrite Z.add_0_r in Hend. destruct (Z.leb_spec 48 (byte_at m s)), (Z.leb_spec (byte_at m s) 57); try done. lia.
  - cbn [load length] in *. injection Hload as Hc Hload. rewrite Hc. apply list.Forall_cons in Hl as [Hc' Hl].
    rewrite (proj2 (Z.leb_le 48 c)), (proj2 (Z.leb_le c 57)) by lia. cbn [andb].
    pose proof (digits_value_grows (n * 10 + (c - 48)) l ltac:(lia) Hl) as Hg. cbn [digits_value fold_left] in Hv. fold (digits_value (n * 10 + (c - 48)) l) in Hv.
    rewrite (i32_small (n * 10)), (i32_small (_ + _ - _)) by lia. replace (n * 10 + c - 48) with (n * 10 + (c - 48)) by lia.
    apply IH; [lia|done|done| |done|lia]. replace (s + 1 + Z.of_nat (length l)) with (s + Z.of_nat (S (length l))) by lia. done.
Qed.

(** The decimal digits of a number, least significant first. *)
Fixpoint decimal (fuel : nat) (x : Z) : list Z :=
  match fuel with
  | O => []
  | S fuel => 48 + x mod 10 :: (if x / 10 =? 0 then [] else decimal fuel (x / 10))
  end.

Lemma decimal_digit (x : Z) : digits !!! Z.to_nat (x mod 10) = 48 + x mod 10.
Proof.
  pose proof (Z.mod_pos_bound x 10 ltac:(lia)) as Hm. revert Hm. generalize (x mod 10) as d. intros d Hd.
  assert (In d (Z.of_nat <$> seq 0 10)) as Hin.
  { apply list_elem_of_In, list_elem_of_fmap. exists (Z.to_nat d). split; [lia|]. apply elem_of_seq. lia. }
  cbn in Hin. destruct_or! Hin; subst; try done; by vm_compute.
Qed.

Lemma printint_loop_decimal (fuel : nat) (x : Z) (buf : list Z) : printint_loop fuel x 10 buf = buf ++ decimal fuel x.
Proof.
  revert x buf. induction fuel as [|fuel IH]; intros x buf; cbn [printint_loop decimal]; [by rewrite app_nil_r|].
  rewrite decimal_digit. destruct (x / 10 =? 0); cbn [negb]; [done|]. by rewrite IH, <- app_assoc.
Qed.

Lemma decimal_ok (fuel : nat) (x : Z) : 0 <= x < 10 ^ Z.of_nat fuel ->
  digits_value 0 (rev (decimal fuel x)) = x /\ Forall (fun c => 48 <= c <= 57) (decimal fuel x).
Proof.
  revert x. induction fuel as [|fuel IH]; intros x Hx; [split; [cbn in *; lia|constructor]|]. cbn [decimal rev].
  pose proof (Z.mod_pos_bound x 10 ltac:(lia)). pose proof (Z.div_mod x 10 ltac:(lia)) as Ediv.
  unfold digits_value. rewrite fold_left_app. cbn [fold_left]. destruct (Z.eqb_spec (x / 10) 0) as [E|E].
  - split; [cbn; lia|]. constructor; [lia|constructor].
  - rewrite Nat2Z.inj_succ, Z.pow_succ_r in Hx by lia. destruct (IH (x / 10)) as [H1 H2].
    { split; [apply Z.div_pos; lia|]. apply Z.div_lt_upper_bound; lia. }
    fold (digits_value 0 (rev (decimal fuel (x / 10)))). rewrite H1. split; [lia|]. constructor; [lia|done].
Qed.

Lemma length_decimal (fuel : nat) (x : Z) : (length (decimal fuel x) <= fuel)%nat.
Proof.
  revert x. induction fuel as [|fuel IH]; intros x; cbn [decimal length]; [lia|]. destruct (_ =? _); cbn; [lia|]. specialize (IH (x / 10)). lia.
Qed.

(** C40. atoi reads back what printf prints: the text of %d for a number that
    is not negative, followed in memory by anything that is no digit, gives
    the number. *)
Theorem atoi_printint (m : memory) (s x : Z) (fuel : nat) : 0 <= x < 2 ^ 31 -> (33 <= fuel)%nat ->
  let t := printint x 10 true in
  load m s (length t) = t -> ~ 48 <= byte_at m (s + Z.of_nat (length t)) <= 57 ->
  atoi fuel m s = Some x.
Proof.
  intros Hx Hf t Hload Hend. assert (t = rev (decimal 32 x)) as Et.
  { unfold t, printint. rewrite (proj2 (Z.ltb_ge x 0)) by lia. cbn [andb]. by rewrite printint_loop_decimal, u32_small by (unfold is_u32; lia). }
  assert (2 ^ 31 < 10 ^ Z.of_nat 32) as Hbig by done. destruct (decimal_ok 32 x) as [Hv Hd]; [lia|]. rewrite Et in *.
  unfold atoi. rewrite (atoi_loop_value m (rev (decimal 32 x))); [by rewrite Hv|done|by apply List.Forall_rev|done|done|lia|].
  rewrite length_rev. pose proof (length_decimal 32 x). lia.
Qed.

Lemma atoi_printint_witness : atoi 40 (store ∅ 100 (printint 2147483647 10 true ++ [32])) 100 = Some 2147483647.
Proof.
  apply (atoi_printint (store ∅ 100 (printint 2147483647 10 true ++ [32])) 100 2147483647 40); [lia|lia|by vm_compute|].
  vm_compute. intros [H _]. by apply H.
Defined.

(** ** Formatted output *)

(** The parts of a format, with their arguments. *)
Inductive piece :=
| Lit (c : Z) | Dec (x : Z) | Long (x : Z) | Hex (x : Z) | Ptr (x : Z) | Str (a : Z) (s : list Z) | Null | Chr (x : Z) | Percent | Other (c : Z).
Definition format (p : piece) : list Z :=
  match p with
  | Lit c => [c] | Dec _ => bytes_of "%d" | Long _ => bytes_of "%l" | Hex _ => bytes_of "%x" | Ptr _ => bytes_of "%p"
  | Str _ _ | Null => bytes_of "%s" | Chr _ => bytes_of "%c" | Percent => bytes_of "%%" | Other c => [37; c]
  end.
Definition args (p : piece) : list Z :=
  match p with
  | Dec x | Long x | Hex x | Ptr x | Str x _ | Chr x => [x]
  | Null => [0]
  | _ => []
  end.
Definition text (p : piece) : list Z :=
  match p with
  | Lit c => [c] | Dec x => printint (i32 x) 10 true | Long x => printint (i32 x) 10 false | Hex x => printint (i32 x) 16 false
  | Ptr x => printptr x | Str _ s => s | Null => bytes_of "(null)" | Chr x => [u8 x] | Percent => bytes_of "%" | Other c => [37; c]
  end.
Definition piece_ok (m : memory) (fuel : nat) (p : piece) : Prop :=
  match p with
  | Lit c => c <> 37 /\ c <> 0
  | Str a s => a <> 0 /\ string_at m a s /\ (length s < fuel)%nat
  | Other c => (c ∉ bytes_of "dlxpsc%") /\ c <> 0
  | _ => True
  end.

Lemma puts_ok (m : memory) (a : Z) (s : list Z) (fuel : nat) : string_at m a s -> (length s < fuel)%nat -> puts fuel m a = Some s.
Proof.
  revert a fuel. induction s as [|c s IH]; intros a fuel Hs Hf; (destruct fuel as [|fuel]; [cbn in Hf; lia|]); cbn [puts].
  - by apply string_at_nil in Hs as ->.
  - apply string_at_cons in Hs as (-> & Hc & Hs). unfold truth. rewrite (proj2 (Z.eqb_neq _ _)) by done. cbn [negb].
    rewrite IH; [done|done|cbn in Hf; lia].
Qed.

(** A conversion gives the text of the piece. *)
Lemma convert_ok (m : memory) (f0 : nat) (p : piece) (c : Z) (ap : list Z) : piece_ok m f0 p -> format p = [37; c] ->
  c <> 0 /\ convert f0 m c (args p ++ ap) = Some (text p, ap).
Proof.
  intros Hok E. destruct p; cbn in E; try (injection E as <-; split; [done|reflexivity]); try discriminate.
  - injection E as <-. destruct Hok as (Ha & Hs & Hl). split; [done|]. unfold convert. cbn [args app Z.eqb Pos.eqb]. rewrite (proj2 (Z.eqb_neq a 0)) by done.
    by rewrite (puts_ok m a s).
  - injection E as <-. destruct Hok as [Hn Hz]. split; [done|]. unfold convert. cbn in Hn.
    rewrite !(proj2 (Z.eqb_neq _ _)) by (intros ->; apply Hn; set_solver). done.
Qed.

(** C39. Formatted output substitutes the arguments: for a format made of
    characters, of the conversions %d, %l, %x, %p, %s and %c with their
    arguments in order, of %% and of unknown conversions, vprintf writes the
    characters, the converted arguments, one percent sign, and the unknown
    conversions as they stand, in the order of the format, to the file
    descriptor given; a null string prints as (null). *)
Theorem vprintf_formats (m : memory) (fd fmt : Z) (ps : list piece) (fuel : nat) :
  string_at m fmt (ps ≫= format) -> Forall (piece_ok m fuel) ps -> (length (ps ≫= format) < fuel)%nat ->
  vprintf fuel m fd fmt (ps ≫= args) = Some (fd, ps ≫= text).
Proof.
  intros Hs Hok Hf. unfold vprintf. assert (vprintf_loop fuel fuel m fmt false (ps ≫= args) = Some (ps ≫= text)) as ->; [|done].
  revert Hok Hs Hf. generalize fuel at 1 3 as f0. intros f0 Hok. revert fmt fuel. induction Hok as [|p ps Hp _ IH]; intros fmt fuel Hs Hf.
  - apply string_at_nil in Hs. destruct fuel as [|fuel]; [cbn in Hf; lia|]. cbn. by rewrite Hs.
  - rewrite !bind_cons in *. rewrite length_app in Hf. assert ((exists c, p = Lit c) \/ exists c, format p = [37; c]) as [[c ->]|[c Ec]] by (destruct p; cbn; eauto).
    + cbn in Hs, Hf. apply string_at_cons in Hs as (Hc & Hc0 & Hs). destruct Hp as [Hc37 _]. destruct fuel as [|fuel]; [lia|]. cbn [vprintf_loop].
      rewrite Hc. unfold truth. rewrite !(proj2 (Z.eqb_neq _ _)) by done. cbn [negb]. change (args (Lit c) ++ (ps ≫= args)) with (ps ≫= args).
      by rewrite IH by (done || lia).
    + rewrite Ec in Hs, Hf.
      destruct (convert_ok m f0 p c (ps ≫= args) Hp Ec) as [Hc0 Hcv]. cbn [app length] in Hs, Hf.
      apply string_at_cons in Hs as (Hb1 & _ & Hs). apply string_at_cons in Hs as (Hb2 & _ & Hs).
      destruct fuel as [|[|fuel]]; [lia|lia|]. cbn [vprintf_loop]. rewrite Hb1, Hb2. unfold truth. rewrite (proj2 (Z.eqb_neq c 0)) by done.
      cbn [Z.eqb Pos.eqb negb]. rewrite Hcv. cbn. by rewrite IH by (done || lia).
Qed.

Definition demo_mem : memory := store (store ∅ 100 (bytes_of "%d %s%%" ++ [0])) 200 (bytes_of "files" ++ [0]).
Definition demo_pieces : list piece := [Dec (-5); Lit 32; Str 200 (bytes_of "files"); Percent].

Lemma vprintf_formats_witness : vprintf 20 demo_mem 1 100 [-5; 200] = Some (1, bytes_of "-5 files%").
Proof.
  assert (demo_pieces ≫= text = bytes_of "-5 files%") as <- by (vm_compute; reflexivity).
  apply (vprintf_formats demo_mem 1 100 demo_pieces 20).
  - split_and!; [by vm_compute|by vm_compute|]. by repeat constructor.
  - repeat constructor; try done.
  - vm_compute. lia.
Defined.
End Ulib.
