(* ===== verification/Uprog.v ===== *)
(** * User programs (user/cat.c, echo.c, wc.c, ls.c, init.c, kill.c, ln.c,
    mkdir.c, rm.c, zombie.c)

    A program is an interaction tree: its system calls are the events, so that
    programs that run for ever, such as init, are ordinary definitions.  A
    kernel is an instance of the class [Kernel], which answers the calls in a
    state of its own; [exec] runs a program on a kernel to its end, and [run]
    computes it.  The theorems about programs rest on the laws of the class
    [Files]: what read, write, open and close promise to a process.  Strings
    are lists of bytes without their terminator, and the text that printf
    writes is given by [Ulib.text]. *)
From ITree Require Import ITree.
From S2P Require Import Prelude Memory Fs Ulib.

Module Uprog.

(** ** System calls *)
Record ustat := UStat { st_ino : Z; st_type : Z; st_size : Z }.

Variant callE : Type -> Type :=
| Read (fd n : Z) : callE (option (list Z))
| Write (fd : Z) (bs : list Z) : callE Z
| Open (path : list Z) (mode : Z) : callE Z
| Close (fd : Z) : callE Z
| Fstat (fd : Z) : callE (option ustat)
| Dup (fd : Z) : callE Z
| Pipe : callE (option (Z * Z))
| Fork : callE Z
| Exec (path : list Z) (argv : list (list Z)) : callE Z
| Wait : callE Z
| Kill (pid : Z) : callE Z
| Link (old new : list Z) : callE Z
| Unlink (path : list Z) : callE Z
| Mkdir (path : list Z) : callE Z
| Mknod (path : list Z) (major minor : Z) : callE Z
| Chdir (path : list Z) : callE Z
| Sleep (n : Z) : callE Z.

(** A call, or exit, which does not return. *)
Variant sysE : Type -> Type :=
| Call {X : Type} (c : callE X) : sysE X
| Exit (status : Z) : sysE Empty_set.

(** kernel/fcntl.h *)
Definition O_RDONLY : Z := 0.
Definition O_WRONLY : Z := 1.
Definition O_RDWR : Z := 2.

Definition prog (R : Type) : Type := itree sysE R.
#[export] Instance prog_bind : MBind prog := fun A B f t => ITree.bind t f.
#[export] Instance prog_ret : MRet prog := fun A a => Ret a.
Definition sys {X : Type} (c : callE X) : prog X := ITree.trigger (Call c).
Definition exit {R : Type} (status : Z) : prog R := e ← ITree.trigger (Exit status); match (e : Empty_set) with end.

(** Formatted output: putc writes one character at a time. *)
Fixpoint fprint (fd : Z) (bs : list Z) : prog unit :=
  match bs with
  | [] => mret tt
  | c :: bs => _ ← sys (Write fd [c]); fprint fd bs
  end.
Definition fprintf (fd : Z) (ps : list Ulib.piece) : prog unit := fprint fd (ps ≫= Ulib.text).
Definition lit (s : string) : list Ulib.piece := Ulib.Lit <$> bytes_of s.
Definition str (s : list Z) : list Ulib.piece := Ulib.Lit <$> s.
Definition nl : list Ulib.piece := [Ulib.Lit 10].

(** [for] over a list of arguments. *)
Fixpoint each {A : Type} (l : list A) (f : A -> prog unit) : prog unit :=
  match l with
  | [] => mret tt
  | x :: l => _ ← f x; each l f
  end.

(** ** user/cat.c *)
Definition cat (fd : Z) : prog unit :=
  ITree.iter (fun _ : unit =>
    r ← sys (Read fd 512);
    match r with
    | None => _ ← fprintf 2 (lit "cat: read error" ++ nl); exit 1
    | Some buf =>
      let n := Z.of_nat (length buf) in
      if 0 <? n then
        k ← sys (Write 1 buf);
        if negb (k =? n) then _ ← fprintf 2 (lit "cat: write error" ++ nl); exit 1
        else mret (inl tt)
      else mret (inr tt)
    end) tt.

Definition cat_main (args : list (list Z)) : prog unit :=
  match args with
  | [] => _ ← cat 0; exit 0
  | _ =>
    _ ← each args (fun path =>
      fd ← sys (Open path O_RDONLY);
      if fd <? 0 then _ ← fprintf 2 (lit "cat: cannot open " ++ str path ++ nl); exit 1
      else _ ← cat fd; _ ← sys (Close fd); mret tt);
    exit 0
  end.

(** ** user/echo.c *)
Fixpoint echo_args (args : list (list Z)) : prog unit :=
  match args with
  | [] => mret tt
  | a :: args =>
    _ ← sys (Write 1 a);
    _ ← sys (Write 1 (match args with [] => [10] | _ => [32] end));
    echo_args args
  end.
Definition echo_main (args : list (list Z)) : prog unit := _ ← echo_args args; exit 0.

(** ** user/wc.c *)
Record counts := Counts { c_l : Z; c_w : Z; c_c : Z; c_inword : bool }.
Definition wc_space (c : Z) : bool := bool_decide (c ∈ [32; 13; 9; 10; 11]).
Definition wc_char (s : counts) (c : Z) : counts :=
  let n := i32 (c_c s + 1) in
  let l := if c =? 10 then i32 (c_l s + 1) else c_l s in
  if wc_space c then Counts l (c_w s) n false
  else if negb (c_inword s) then Counts l (i32 (c_w s + 1)) n true
  else Counts l (c_w s) n (c_inword s).
Definition wc_loop (fd : Z) : counts -> prog counts :=
  ITree.iter (fun s : counts =>
    r ← sys (Read fd 512);
    match r with
    | None => _ ← fprintf 1 (lit "wc: read error" ++ nl); exit 1
    | Some buf =>
      if 0 <? Z.of_nat (length buf) then mret (inl (fold_left wc_char buf s))
      else mret (inr s)
    end).
Definition wc (fd : Z) (name : list Z) : prog unit :=
  s ← wc_loop fd (Counts 0 0 0 false);
  fprintf 1 ([Ulib.Dec (c_l s)] ++ lit " " ++ [Ulib.Dec (c_w s)] ++ lit " " ++ [Ulib.Dec (c_c s)] ++ lit " " ++ str name ++ nl).

Definition wc_main (args : list (list Z)) : prog unit :=
  match args with
  | [] => _ ← wc 0 []; exit 0
  | _ =>
    _ ← each args (fun path =>
      fd ← sys (Open path O_RDONLY);
      if fd <? 0 then _ ← fprintf 1 (lit "wc: cannot open " ++ str path ++ nl); exit 1
      else _ ← wc fd path; _ ← sys (Close fd); mret tt);
    exit 0
  end.

(** ** user/ls.c *)

(** The part of a path after its last slash: the loop goes backwards. *)
Fixpoint to_slash (l : list Z) : list Z :=
  match l with
  | [] => []
  | c :: l => if negb (c =? slash) then c :: to_slash l else []
  end.
Definition base_name (path : list Z) : list Z := rev (to_slash (rev path)).
Definition fmtname (path : list Z) : list Z :=
  let p := base_name path in
  if bool_decide (DIRSIZ <= length p)%nat then p else p ++ replicate (DIRSIZ - length p) 32.

Definition stat (path : list Z) : prog (option ustat) :=
  fd ← sys (Open path O_RDONLY);
  if fd <? 0 then mret None else
  r ← sys (Fstat fd);
  _ ← sys (Close fd);
  mret r.

Definition ls_line (path : list Z) (st : ustat) (size : Ulib.piece) : prog unit :=
  fprintf 1 (str (fmtname path) ++ lit " " ++ [Ulib.Dec (st_type st)] ++ lit " " ++ [Ulib.Dec (st_ino st)] ++ lit " " ++ [size] ++ nl).

Definition ls (path : list Z) : prog unit :=
  fd ← sys (Open path O_RDONLY);
  if fd <? 0 then fprintf 2 (lit "ls: cannot open " ++ str path ++ nl) else
  st ← sys (Fstat fd);
  match st with
  | None => _ ← fprintf 2 (lit "ls: cannot stat " ++ str path ++ nl); _ ← sys (Close fd); mret tt
  | Some st =>
    _ ← (if st_type st =? T_FILE then ls_line path st (Ulib.Long (st_size st))
         else if st_type st =? T_DIR then
           if bool_decide (512 < length path + 1 + DIRSIZ + 1)%nat then fprintf 1 (lit "ls: path too long" ++ nl)
           else
             ITree.iter (fun _ : unit =>
               r ← sys (Read fd 16);
               match r with
               | Some bs =>
                 if negb (Z.of_nat (length bs) =? 16) then mret (inr tt) else
                 let de := dirent_of bs in
                 if de_inum de =? 0 then mret (inl tt) else
                 let buf := path ++ slash :: cstr (de_name de) in
                 st ← stat buf;
                 match st with
                 | None => _ ← fprintf 1 (lit "ls: cannot stat " ++ str buf ++ nl); mret (inl tt)
                 | Some st => _ ← ls_line buf st (Ulib.Dec (st_size st)); mret (inl tt)
                 end
               | None => mret (inr tt)
               end) tt
         else mret tt);
    _ ← sys (Close fd);
    mret tt
  end.

Definition ls_main (args : list (list Z)) : prog unit :=
  match args with
  | [] => _ ← ls (bytes_of "."); exit 0
  | _ => _ ← each args ls; exit 0
  end.

(** ** user/kill.c, ln.c, mkdir.c, rm.c, zombie.c *)

(** [Ulib.atoi] on a string. *)
Fixpoint atoi (n : Z) (s : list Z) : Z :=
  match s with
  | c :: s => if (48 <=? c) && (c <=? 57) then atoi (i32 (i32 (n * 10) + c - 48)) s else n
  | [] => n
  end.
Lemma atoi_string (m : memory) (a n : Z) (s : list Z) (fuel : nat) : Ulib.string_at m a s -> (length s < fuel)%nat ->
  Ulib.atoi_loop fuel m a n = Some (atoi n s).
Proof.
  revert a n fuel. induction s as [|c s IH]; intros a n fuel Hs Hf; (destruct fuel as [|fuel]; [cbn in Hf; lia|]); cbn [Ulib.atoi_loop atoi].
  - by apply Ulib.string_at_nil in Hs as ->.
  - apply Ulib.string_at_cons in Hs as (-> & _ & Hs). destruct (_ && _); [|done]. apply IH; [done|]. cbn in Hf. lia.
Qed.

Definition kill_main (args : list (list Z)) : prog unit :=
  match args with
  | [] => _ ← fprintf 2 (lit "usage: kill pid..." ++ nl); exit 1
  | _ => _ ← each args (fun a => _ ← sys (Kill (atoi 0 a)); mret tt); exit 0
  end.

Definition ln_main (args : list (list Z)) : prog unit :=
  match args with
  | [old; new] =>
    r ← sys (Link old new);
    _ ← (if r <? 0 then fprintf 2 (lit "link " ++ str old ++ lit " " ++ str new ++ lit ": failed" ++ nl) else mret tt);
    exit 0
  | _ => _ ← fprintf 2 (lit "Usage: ln old new" ++ nl); exit 1
  end.

(** The loop of mkdir and rm: up to the first argument that fails. *)
Fixpoint until_failure (f : list Z -> prog Z) (complain : list Z -> prog unit) (args : list (list Z)) : prog unit :=
  match args with
  | [] => mret tt
  | a :: args => r ← f a; if r <? 0 then complain a else until_failure f complain args
  end.
Definition mkdir_main (args : list (list Z)) : prog unit :=
  match args with
  | [] => _ ← fprintf 2 (lit "Usage: mkdir files..." ++ nl); exit 1
  | _ =>
    _ ← until_failure (fun a => sys (Mkdir a)) (fun a => fprintf 2 (lit "mkdir: " ++ str a ++ lit " failed to create" ++ nl)) args;
    exit 0
  end.
Definition rm_main (args : list (list Z)) : prog unit :=
  match args with
  | [] => _ ← fprintf 2 (lit "Usage: rm files..." ++ nl); exit 1
  | _ =>
    _ ← until_failure (fun a => sys (Unlink a)) (fun a => fprintf 2 (lit "rm: " ++ str a ++ lit " failed to delete" ++ nl)) args;
    exit 0
  end.

Definition zombie_main : prog unit :=
  pid ← sys Fork;
  _ ← (if 0 <? pid then _ ← sys (Sleep 5); mret tt else mret tt);
  exit 0.

(** ** user/init.c *)
Definition CONSOLE : Z := 1.
Definition init_main : prog unit :=
  let console := bytes_of "console" in
  fd ← sys (Open console O_RDWR);
  _ ← (if fd <? 0 then _ ← sys (Mknod console CONSOLE 0); _ ← sys (Open console O_RDWR); mret tt else mret tt);
  _ ← sys (Dup 0);
  _ ← sys (Dup 0);
  ITree.iter (fun _ : unit =>
    _ ← fprintf 1 (lit "init: starting sh" ++ nl);
    pid ← sys Fork;
    if pid <? 0 then _ ← fprintf 1 (lit "init: fork failed" ++ nl); exit 1
    else if pid =? 0 then
      _ ← sys (Exec (bytes_of "sh") [bytes_of "sh"]);
      _ ← fprintf 1 (lit "init: exec sh failed" ++ nl);
      exit 1
    else
      _ ← ITree.iter (fun _ : unit =>
        wpid ← sys Wait;
        if wpid =? pid then mret (inr tt)
        else if wpid <? 0 then _ ← fprintf 1 (lit "init: wait returned an error" ++ nl); exit 1
        else mret (inl tt)) tt;
      mret (inl tt)) tt.

(** ** user/ulib.c: gets, with one system call for each character *)
Definition gets_loop (max : nat) : list Z -> prog (list Z) :=
  ITree.iter (fun buf : list Z =>
    if bool_decide (length buf + 1 < max)%nat then
      r ← sys (Read 0 1);
      match r with
      | Some [c] => if (c =? 10) || (c =? 13) then mret (inr (buf ++ [c])) else mret (inl (buf ++ [c]))
      | _ => mret (inr buf)
      end
    else mret (inr buf)).
Definition gets (max : nat) : prog (list Z) := gets_loop max [].

(** ** Kernels and runs *)
Class Kernel (W : Type) := answer : forall X : Type, callE X -> W -> X * W.

Inductive outcome (R : Type) := Returned (r : R) | Exited (status : Z).
#[global] Arguments Returned {R}.
#[global] Arguments Exited {R}.

Section exec.
Context {W : Type} {K : Kernel W}.

Inductive exec {R : Type} : W -> prog R -> W -> outcome R -> Prop :=
| exec_ret w t r : observe t = RetF r -> exec w t w (Returned r)
| exec_tau w t t' w' o : observe t = TauF t' -> exec w t' w' o -> exec w t w' o
| exec_call w X (c : callE X) k t a w1 w' o :
    observe t = VisF (Call c) k -> answer X c w = (a, w1) -> exec w1 (k a) w' o -> exec w t w' o
| exec_exit w s k t : observe t = VisF (Exit s) k -> exec w t w (Exited s).

Fixpoint run {R : Type} (fuel : nat) (w : W) (t : prog R) : option (W * outcome R) :=
  match fuel with
  | O => None
  | S fuel =>
    match observe t with
    | RetF r => Some (w, Returned r)
    | TauF t => run fuel w t
    | VisF e k =>
      match e in sysE X return (X -> prog R) -> option (W * outcome R) with
      | Call c => fun k => let (a, w) := answer _ c w in run fuel w (k a)
      | Exit s => fun _ => Some (w, Exited s)
      end k
    end
  end.

(** A run that ends is found by [run]. *)
Lemma exec_run {R} (w w' : W) (t : prog R) (o : outcome R) : exec w t w' o -> exists fuel, run fuel w t = Some (w', o).
Proof.
  induction 1 as [w t r E|w t t' w' o E _ [fuel IH]|w X c k t a w1 w' o E Ea _ [fuel IH]|w s k t E].
  - exists 1%nat. cbn. by rewrite E.
  - exists (S fuel). cbn. by rewrite E.
  - exists (S fuel). cbn. by rewrite E, Ea.
  - exists 1%nat. cbn. by rewrite E.
Qed.

Lemma exec_observe {R} (w w' : W) (t t' : prog R) (o : outcome R) : observe t' = observe t -> exec w t w' o -> exec w t' w' o.
Proof. intros E H. destruct H; [eapply exec_ret|eapply exec_tau|eapply exec_call|eapply exec_exit]; rewrite ?E; eauto. Qed.

Lemma observe_bind {A B} (t : prog A) (f : A -> prog B) : observe (a ← t; f a) =
  match observe t with
  | RetF a => observe (f a)
  | TauF t => TauF (a ← t; f a)
  | VisF e k => VisF e (fun x => a ← k x; f a)
  end.
Proof.
  change (observe (a ← t; f a)) with (_observe (match observe t with RetF a => f a | TauF t => Tau (a ← t; f a) | VisF e k => Vis e (fun x => a ← k x; f a) end)).
  by destruct (observe t).
Qed.

Lemma exec_bind {A B} (w w1 w' : W) (t : prog A) (f : A -> prog B) (a : A) (o : outcome B) :
  exec w t w1 (Returned a) -> exec w1 (f a) w' o -> exec w (a ← t; f a) w' o.
Proof.
  intros H Hf. remember (Returned a) as oa eqn:Eo. revert a Hf Eo.
  induction H as [w t r E|w t t' w1 oa E _ IH|w X c k t x w0 w1 oa E Ea _ IH|w s k t E]; intros a Hf Eo.
  - injection Eo as ->. apply (exec_observe _ _ (f a)); [|done]. by rewrite observe_bind, E.
  - eapply exec_tau; [|by apply (IH a)]. by rewrite observe_bind, E.
  - apply (exec_call w X c (fun y => a ← k y; f a) _ x w0); [|done|by apply (IH a)]. by rewrite observe_bind, E.
  - discriminate.
Qed.

Lemma exec_assoc {A B C} (w w1 w' : W) (t : prog A) (g : A -> prog B) (h : B -> prog C) (a : A) (o : outcome C) :
  exec w t w1 (Returned a) -> exec w1 (b ← g a; h b) w' o -> exec w (b ← (a ← t; g a); h b) w' o.
Proof.
  intros H Hf. remember (Returned a) as oa eqn:Eo. revert a Hf Eo.
  induction H as [w t r E|w t t' w1 oa E _ IH|w X c k t x w0 w1 oa E Ea _ IH|w s k t E]; intros a Hf Eo.
  - injection Eo as ->. apply (exec_observe _ _ (b ← g a; h b)); [|done]. by rewrite !observe_bind, E.
  - eapply exec_tau; [|by apply (IH a)]. by rewrite !observe_bind, E.
  - apply (exec_call w X c (fun y => b ← (a ← k y; g a); h b) _ x w0); [|done|by apply (IH a)]. by rewrite !observe_bind, E.
  - discriminate.
Qed.

Lemma exec_bind_exit {A B} (w w1 : W) (t : prog A) (f : A -> prog B) (s : Z) :
  exec w t w1 (Exited s) -> exec w (a ← t; f a) w1 (Exited s).
Proof.
  intros H. remember (Exited s) as oa eqn:Eo.
  induction H as [w t r E|w t t' w1 oa E _ IH|w X c k t x w0 w1 oa E Ea _ IH|w s' k t E].
  - discriminate.
  - eapply exec_tau; [|by apply IH]. by rewrite observe_bind, E.
  - apply (exec_call w X c (fun y => a ← k y; f a) _ x w0); [|done|by apply IH]. by rewrite observe_bind, E.
  - injection Eo as ->. eapply exec_exit. by rewrite observe_bind, E.
Qed.

(** ** Rules for programs *)
Lemma exec_mret {R} (w : W) (r : R) : exec w (mret r) w (Returned r).
Proof. by apply exec_ret. Qed.

Lemma exec_sys {X R} (c : callE X) (f : X -> prog R) (w w1 w' : W) (a : X) (o : outcome R) :
  answer X c w = (a, w1) -> exec w1 (f a) w' o -> exec w (a ← sys c; f a) w' o.
Proof.
  intros Ha Hf. apply (exec_bind _ w1 _ _ _ a); [|done].
  apply (exec_call w X c (fun x => Ret x) _ a w1); [done|done|]. apply exec_mret.
Qed.

Lemma exec_stop {R} (w : W) (s : Z) : exec w (exit (R := R) s) w (Exited s).
Proof. apply (exec_exit w s (fun e => e' ← Ret e; match (e' : Empty_set) with end)). unfold exit. rewrite observe_bind. reflexivity. Qed.

Lemma exec_iter {I R} (w w1 w' : W) (body : I -> prog (I + R)) (i : I) (lr : I + R) (o : outcome R) :
  exec w (body i) w1 (Returned lr) ->
  match lr with inl j => exec w1 (ITree.iter body j) w' o | inr r => w' = w1 /\ o = Returned r end ->
  exec w (ITree.iter body i) w' o.
Proof.
  intros Hb Hn. apply (exec_observe _ _ (lr ← body i; match lr with inl j => Tau (ITree.iter body j) | inr r => Ret r end)); [done|].
  apply (exec_bind _ w1 _ _ _ lr); [done|]. destruct lr as [j|r].
  - by apply (exec_tau _ _ (ITree.iter body j)).
  - destruct Hn as [-> ->]. apply exec_mret.
Qed.

Lemma exec_iter_exit {I R} (w w1 : W) (body : I -> prog (I + R)) (i : I) (s : Z) :
  exec w (body i) w1 (Exited s) -> exec w (ITree.iter body i) w1 (Exited s).
Proof.
  intros Hb. apply (exec_observe _ _ (lr ← body i; match lr with inl j => Tau (ITree.iter body j) | inr r => Ret r end)); [done|].
  by apply exec_bind_exit.
Qed.
End exec.

(** ** What the kernel promises about files *)

(** An open descriptor, as far as the kernel promises something about it:
    what is still to be read, when it is open for reading and nobody else
    moves its offset or changes its file; whether all that is written to it
    is taken, as the console does, which a descriptor open for reading only
    never promises; and whether its entry in the file table is its own, so
    that closing it frees the entry. *)
Record ufd := UFd { u_read : option (list Z); u_write : bool; u_own : bool }.
#[export] Instance set_u_read : Setter u_read := fun f d => UFd (f (u_read d)) (u_write d) (u_own d).

(** A process's view: its descriptors; files whose contents are known and do
    not change, and paths that lead nowhere; how many files can still be
    opened, by this process and in the file table; and all that has been
    written, with the descriptor, in order.  Nothing is promised about other
    files, such as those that the output goes to. *)
Record uview := UView {
  u_fds : gmap Z ufd;
  u_files : gmap (list Z) (list Z);
  u_missing : gset (list Z);
  u_room : Z;
  u_out : list (Z * list Z);
}.
#[export] Instance set_u_fds : Setter u_fds := fun f v => UView (f (u_fds v)) (u_files v) (u_missing v) (u_room v) (u_out v).
#[export] Instance set_u_room : Setter u_room := fun f v => UView (u_fds v) (u_files v) (u_missing v) (f (u_room v)) (u_out v).
#[export] Instance set_u_out : Setter u_out := fun f v => UView (u_fds v) (u_files v) (u_missing v) (u_room v) (f (u_out v)).

Definition pend (v : uview) (fd : Z) : option (list Z) := d ← u_fds v !! fd; u_read d.
Definition writable (v : uview) (fd : Z) : Prop := exists d, u_fds v !! fd = Some d /\ u_write d = true.
(** The view when [l] is left to read. *)
Definition leave (fd : Z) (l : list Z) (v : uview) : uview := v <| u_fds := alter (fun d => d <| u_read := Some l |>) fd (u_fds v) |>.
Definition wrote (x : list (Z * list Z)) (v : uview) : uview := v <| u_out := u_out v ++ x |>.

Definition output (fd : Z) (out : list (Z * list Z)) : list Z := out ≫= fun o => if o.1 =? fd then o.2 else [].

Class Files (W : Type) {K : Kernel W} := {
  view : W -> uview;
  (** read gives the next bytes, no more than asked for, and at least one
      unless there are none left *)
  read_law w fd n l : 0 < n -> pend (view w) fd = Some l ->
    exists bs l' w', answer _ (Read fd n) w = (Some bs, w') /\ l = bs ++ l' /\ (bs = [] -> l = []) /\ Z.of_nat (length bs) <= n /\
      view w' = leave fd l' (view w);
  write_law w fd bs : writable (view w) fd ->
    exists w', answer _ (Write fd bs) w = (Z.of_nat (length bs), w') /\ view w' = wrote [(fd, bs)] (view w);
  (** open for reading gives a new descriptor that cannot be written *)
  open_law w path l : 0 < u_room (view w) -> u_files (view w) !! path = Some l ->
    exists fd w', answer _ (Open path O_RDONLY) w = (fd, w') /\ 0 <= fd /\ u_fds (view w) !! fd = None /\
      view w' = (view w) <| u_fds := <[fd := UFd (Some l) false true]> (u_fds (view w)) |> <| u_room := u_room (view w) - 1 |>;
  missing_law w path : path ∈ u_missing (view w) ->
    exists fd w', answer _ (Open path O_RDONLY) w = (fd, w') /\ fd < 0 /\ view w' = view w;
  close_law w fd d : u_fds (view w) !! fd = Some d -> u_own d = true ->
    exists r w', answer _ (Close fd) w = (r, w') /\
      view w' = (view w) <| u_fds := delete fd (u_fds (view w)) |> <| u_room := u_room (view w) + 1 |>;
}.

Lemma output_app (fd : Z) (x y : list (Z * list Z)) : output fd (x ++ y) = output fd x ++ output fd y.
Proof. apply bind_app. Qed.
Lemma output_one (fd fd' : Z) (bs : list Z) : output fd [(fd', bs)] = if fd' =? fd then bs else [].
Proof. unfold output. cbn. apply app_nil_r. Qed.

Lemma pend_leave (fd : Z) (l l' : list Z) (v : uview) : pend v fd = Some l -> pend (leave fd l' v) fd = Some l'.
Proof. unfold pend, leave. cbn. rewrite lookup_alter_eq. by destruct (u_fds v !! fd). Qed.
Lemma leave_leave (fd : Z) (l l' : list Z) (v : uview) : leave fd l (leave fd l' v) = leave fd l v.
Proof.
  unfold leave, set_with, set_u_fds. destruct v as [fds files missing room out]. cbn. f_equal. apply map_eq. intros k. rewrite !lookup_alter.
  rewrite (decide_True (P := fd = fd)) by done. destruct (decide (fd = k)); [by destruct (fds !! fd)|done].
Qed.
Lemma leave_id (fd : Z) (l : list Z) (v : uview) : pend v fd = Some l -> leave fd l v = v.
Proof.
  unfold leave, pend, set_with, set_u_fds. destruct v as [fds files missing room out]. cbn. intros Hl. f_equal. apply map_eq. intros k. rewrite lookup_alter.
  case_decide as Hk; [subst k|done]. destruct (fds !! fd) as [[r b o]|]; [|done]. cbn in *. by rewrite Hl.
Qed.
Lemma leave_wrote (fd : Z) (l : list Z) (x : list (Z * list Z)) (v : uview) : leave fd l (wrote x v) = wrote x (leave fd l v).
Proof. done. Qed.
Lemma wrote_wrote (x y : list (Z * list Z)) (v : uview) : wrote y (wrote x v) = wrote (x ++ y) v.
Proof. unfold wrote, set_with, set_u_out. destruct v. cbn. by rewrite app_assoc. Qed.
Lemma wrote_nil (v : uview) : wrote [] v = v.
Proof. unfold wrote, set_with, set_u_out. destruct v. cbn. by rewrite app_nil_r. Qed.
Lemma writable_leave (fd fd' : Z) (l : list Z) (v : uview) : writable v fd' -> writable (leave fd l v) fd'.
Proof.
  intros (d & Hd & Hw). unfold writable, leave. cbn. rewrite lookup_alter. case_decide as Hk; [subst fd'|by exists d].
  exists (d <| u_read := Some l |>). rewrite Hd. by destruct d.
Qed.

Section programs.
Context {W : Type} {K : Kernel W} {F : Files W}.

(** Descriptor [fd] has been read down to [l], and [o] written on standard
    output, [e] on the error output; [printed] when nothing was read. *)
Definition showed (x : list (Z * list Z)) (o e : list Z) : Prop := output 1 x = o /\ output 2 x = e.
Definition printed (w w' : W) (o e : list Z) : Prop := exists x, view w' = wrote x (view w) /\ showed x o e.
Definition left_ (fd : Z) (l : list Z) (w w' : W) (o e : list Z) : Prop := exists x, view w' = wrote x (leave fd l (view w)) /\ showed x o e.
Definition drained (fd : Z) (w w' : W) (o e : list Z) : Prop := left_ fd [] w w' o e.

Lemma showed_app (x y : list (Z * list Z)) (o e o1 e1 : list Z) : showed x o e -> showed y o1 e1 -> showed (x ++ y) (o ++ o1) (e ++ e1).
Proof. intros [<- <-] [<- <-]. split; apply output_app. Qed.

Lemma printed_refl (w : W) : printed w w [] [].
Proof. exists []. by rewrite wrote_nil. Qed.
Lemma printed_trans (w w1 w2 : W) (o o1 e e1 : list Z) : printed w w1 o e -> printed w1 w2 o1 e1 -> printed w w2 (o ++ o1) (e ++ e1).
Proof. intros (x & E & Hx) (y & E' & Hy). exists (x ++ y). split; [by rewrite E', E, wrote_wrote|by apply showed_app]. Qed.
Lemma left_printed (fd : Z) (l : list Z) (w w1 w2 : W) (o e o1 e1 : list Z) :
  left_ fd l w w1 o e -> printed w1 w2 o1 e1 -> left_ fd l w w2 (o ++ o1) (e ++ e1).
Proof. intros (x & E & Hx) (y & E' & Hy). exists (x ++ y). split; [by rewrite E', E, wrote_wrote|by apply showed_app]. Qed.
Lemma left_left (fd : Z) (l l' : list Z) (w w1 w2 : W) (o e o1 e1 : list Z) :
  left_ fd l w w1 o e -> left_ fd l' w1 w2 o1 e1 -> left_ fd l' w w2 (o ++ o1) (e ++ e1).
Proof.
  intros (x & E & Hx) (y & E' & Hy). exists (x ++ y). split; [|by apply showed_app].
  by rewrite E', E, leave_wrote, wrote_wrote, leave_leave.
Qed.
Lemma left_read (fd : Z) (l : list Z) (w w' : W) : view w' = leave fd l (view w) -> left_ fd l w w' [] [].
Proof. intros E. exists []. by rewrite wrote_nil. Qed.
Lemma left_pend (fd : Z) (l l0 : list Z) (w w' : W) (o e : list Z) : left_ fd l w w' o e -> pend (view w) fd = Some l0 -> pend (view w') fd = Some l.
Proof. intros (x & E & _) Hl. rewrite E. exact (pend_leave fd l0 l (view w) Hl). Qed.
Lemma printed_out (w w' : W) (o e : list Z) : printed w w' o e ->
  output 1 (u_out (view w')) = output 1 (u_out (view w)) ++ o /\ output 2 (u_out (view w')) = output 2 (u_out (view w)) ++ e.
Proof. intros (x & E & <- & <-). rewrite E. change (u_out (wrote x (view w))) with (u_out (view w) ++ x). by rewrite !output_app. Qed.

Definition std (w : W) : Prop := writable (view w) 1 /\ writable (view w) 2.
Lemma printed_std (w w' : W) (o e : list Z) : printed w w' o e -> std w -> std w'.
Proof. intros (x & E & _). unfold std. by rewrite E. Qed.
Lemma left_std (fd : Z) (l : list Z) (w w' : W) (o e : list Z) : left_ fd l w w' o e -> std w -> std w'.
Proof. intros (x & E & _) [H1 H2]. unfold std. rewrite E. split; by apply (writable_leave fd _ l). Qed.

Lemma write_out (w : W) (fd : Z) (bs : list Z) : std w -> fd = 1 \/ fd = 2 ->
  exists w', answer _ (Write fd bs) w = (Z.of_nat (length bs), w') /\
    printed w w' (if fd =? 1 then bs else []) (if fd =? 2 then bs else []).
Proof.
  intros [H1 H2] Hfd. destruct (write_law w fd bs) as (w' & Ha & Hv); [by destruct Hfd as [->| ->]|].
  exists w'. split; [done|]. exists [(fd, bs)]. split; [done|]. split; rewrite output_one; by destruct Hfd as [->| ->].
Qed.

Lemma exec_fprint (fd : Z) (bs : list Z) (w : W) : std w -> fd = 1 \/ fd = 2 ->
  exists w', exec w (fprint fd bs) w' (Returned tt) /\ printed w w' (if fd =? 1 then bs else []) (if fd =? 2 then bs else []).
Proof.
  intros Hstd Hfd. revert w Hstd. induction bs as [|c bs IH]; intros w Hstd; cbn [fprint].
  - exists w. split; [apply exec_mret|]. destruct (fd =? 1), (fd =? 2); apply printed_refl.
  - destruct (write_out w fd [c] Hstd Hfd) as (w1 & Ha & Hp1). destruct (IH w1) as (w2 & Hx & Hp2); [by eapply printed_std|].
    exists w2. split; [by eapply exec_sys|]. pose proof (printed_trans _ _ _ _ _ _ _ Hp1 Hp2) as Hp.
    destruct Hfd as [->| ->]; exact Hp.
Qed.

(** A read that is not at the end leaves less; one at the end changes nothing. *)
Lemma read_some (w : W) (fd n : Z) (l : list Z) : 0 < n -> pend (view w) fd = Some l ->
  exists bs l' w', answer _ (Read fd n) w = (Some bs, w') /\ Z.of_nat (length bs) <= n /\ left_ fd l' w w' [] [] /\
    (l = [] /\ bs = [] /\ l' = [] \/ l = bs ++ l' /\ 0 < Z.of_nat (length bs)).
Proof.
  intros Hn Hl. destruct (read_law w fd n l Hn Hl) as (bs & l' & w' & Ha & El & Hbs & Hlen & Hv). exists bs, l', w'.
  split_and!; [done|done|by apply left_read|]. destruct bs as [|c bs]; [|right; split; [done|cbn; lia]].
  left. rewrite (Hbs eq_refl) in *. by cbn in El.
Qed.

(** ** cat *)
Lemma exec_cat (fd : Z) (l : list Z) (w : W) : std w -> pend (view w) fd = Some l ->
  exists w', exec w (cat fd) w' (Returned tt) /\ drained fd w w' l [].
Proof.
  remember (length l) as n eqn:En. revert l En w. induction (lt_wf n) as [n _ IH]. intros l En w Hstd Hl. unfold cat.
  destruct (read_some w fd 512 l ltac:(lia) Hl) as (bs & l' & w1 & Ha & _ & Hr & [(-> & -> & ->)|[El Hlen]]).
  - exists w1. split; [|done]. apply (exec_iter _ w1 _ _ _ (inr tt)); [eapply exec_sys; [exact Ha|apply exec_mret]|]. done.
  - destruct (write_out w1 1 bs (left_std _ _ _ _ _ _ Hr Hstd) ltac:(by left)) as (w2 & Ha2 & Hp).
    pose proof (left_printed _ _ _ _ _ _ _ _ _ Hr Hp) as Hr2.
    destruct (IH (length l')) with (l := l') (w := w2) as (w3 & Hx & Hd).
    + rewrite En, El, length_app. lia.
    + done.
    + by apply (left_std _ _ _ _ _ _ Hr2).
    + by apply (left_pend _ _ l _ _ _ _ Hr2).
    + exists w3. split.
      * apply (exec_iter _ w2 _ _ _ (inl tt)); [|exact Hx]. eapply exec_sys; [exact Ha|]. cbv beta iota zeta.
        rewrite (proj2 (Z.ltb_lt _ _) Hlen). eapply exec_sys; [exact Ha2|]. rewrite Z.eqb_refl. apply exec_mret.
      * rewrite El. exact (left_left _ _ _ _ _ _ _ _ _ _ Hr2 Hd).
Qed.

(** ** Programs that work through their arguments *)
Lemma text_str (s : list Z) : str s ≫= Ulib.text = s.
Proof. unfold str. induction s as [|c s IH]; [done|]. rewrite fmap_cons, bind_cons, IH. done. Qed.
Lemma text_lit (s : string) : lit s ≫= Ulib.text = bytes_of s.
Proof. apply text_str. Qed.

(** What such a program prints, on both outputs, and its exit status: the
    files in order, up to the first that does not exist. *)
Fixpoint through (files : gmap (list Z) (list Z)) (show : list Z -> list Z -> list Z) (missing : list Z -> list Z * list Z)
    (args : list (list Z)) : list Z * list Z * Z :=
  match args with
  | [] => ([], [], 0)
  | p :: args =>
    match files !! p with
    | None => (missing p, 1)
    | Some l => let '(o, e, s) := through files show missing args in (show p l ++ o, e, s)
    end
  end.

Lemma through_ext (files : gmap (list Z) (list Z)) (show : list Z -> list Z -> list Z) (f g : list Z -> list Z * list Z) (args : list (list Z)) :
  (forall p, f p = g p) -> through files show f args = through files show g args.
Proof.
  intros E. induction args as [|p args IH]; [done|]. cbn. rewrite IH, E. done.
Qed.

(** The arguments are files or lead nowhere, and one of them can be opened. *)
Definition known (w : W) (args : list (list Z)) : Prop :=
  0 < u_room (view w) /\ Forall (fun p => is_Some (u_files (view w) !! p) \/ p ∈ u_missing (view w)) args.

Lemma printed_known (w w' : W) (o e : list Z) (args : list (list Z)) : printed w w' o e -> known w args -> known w' args.
Proof. intros (x & E & _). unfold known. by rewrite E. Qed.
Lemma known_cons (w : W) (p : list Z) (args : list (list Z)) : known w (p :: args) -> known w args.
Proof. intros [H1 H2]. split; [done|]. by apply list.Forall_cons in H2 as [_ ?]. Qed.

(** A file opened, read to its end and closed. *)
Lemma with_file (w : W) (p l : list Z) : std w -> 0 < u_room (view w) -> u_files (view w) !! p = Some l ->
  exists fd w1, answer _ (Open p O_RDONLY) w = (fd, w1) /\ 0 <= fd /\ std w1 /\ pend (view w1) fd = Some l /\
    forall w2 o e, drained fd w1 w2 o e -> exists r w3, answer _ (Close fd) w2 = (r, w3) /\ printed w w3 o e.
Proof.
  intros Hstd Hroom El. destruct (open_law w p l Hroom El) as (fd & w1 & Ha & Hfd & Hfree & Hv).
  assert (forall k, writable (view w) k -> writable (view w1) k) as Hw.
  { intros k (d & Hd & Hk). exists d. rewrite Hv. cbn. split; [|done]. rewrite lookup_insert_ne; [done|]. intros <-. congruence. }
  exists fd, w1. split_and!; [done|done| | |].
  { destruct Hstd as [H1 H2]. split; by apply Hw. }
  { unfold pend. rewrite Hv. cbn. by rewrite lookup_insert_eq. }
  intros w2 o e (x & Ev & Hx). destruct (close_law w2 fd (UFd (Some []) false true)) as (r & w3 & Hc & Hv3); [|done|].
  { rewrite Ev, Hv. cbn. by rewrite lookup_alter_eq, lookup_insert_eq. }
  exists r, w3. split; [done|]. exists x. split; [|done]. rewrite Hv3, Ev, Hv. unfold wrote, leave, set_with, set_u_fds, set_u_room, set_u_out. cbn.
  rewrite alter_insert_eq, delete_insert_eq, delete_id by done. destruct (view w). cbn. f_equal. lia.
Qed.

Lemma exec_through (mfd : Z) (msg : list Z -> list Ulib.piece) (work : Z -> list Z -> prog unit) (show : list Z -> list Z -> list Z)
    (files : gmap (list Z) (list Z)) (args : list (list Z)) : (mfd = 1 \/ mfd = 2) ->
  (forall w fd path l, std w -> pend (view w) fd = Some l -> files !! path = Some l ->
     exists w', exec w (work fd path) w' (Returned tt) /\ drained fd w w' (show path l) []) ->
  forall w, std w -> known w args -> u_files (view w) = files ->
  let '(o, e, s) := through files show
    (fun p => let t := msg p ≫= Ulib.text in (if mfd =? 1 then t else [], if mfd =? 2 then t else [])) args in
  exists w', exec w (_ ← each args (fun path =>
      fd ← sys (Open path O_RDONLY);
      if fd <? 0 then _ ← fprintf mfd (msg path); exit 1
      else _ ← work fd path; _ ← sys (Close fd); mret tt);
    exit 0 : prog unit) w' (Exited s) /\ printed w w' o e.
Proof.
  intros Hm Hwork. induction args as [|p args IH]; intros w Hstd Hk Hfi; cbn [through each].
  - exists w. split; [|apply printed_refl]. eapply exec_bind; [apply exec_mret|apply exec_stop].
  - destruct (files !! p) as [l|] eqn:El.
    + destruct (with_file w p l Hstd (proj1 Hk)) as (fd & w1 & Ha & Hfd & Hstd1 & Hl1 & Hclose); [by rewrite Hfi|].
      destruct (Hwork w1 fd p l Hstd1 Hl1 El) as (w2 & Hx & Hd). destruct (Hclose w2 _ _ Hd) as (r & w3 & Hc & Hp).
      assert (u_files (view w3) = files) as Hfi3 by (destruct Hp as (x & -> & _); done).
      specialize (IH w3 (printed_std _ _ _ _ Hp Hstd) (printed_known _ _ _ _ _ Hp (known_cons _ _ _ Hk)) Hfi3).
      destruct (through _ _ _ args) as [[o e] s]. destruct IH as (w4 & Hx4 & Hp4).
      exists w4. split; [|exact (printed_trans _ _ _ _ _ _ _ Hp Hp4)].
      eapply exec_assoc; [|exact Hx4]. eapply exec_sys; [exact Ha|]. rewrite (proj2 (Z.ltb_ge _ _)) by done.
      eapply exec_bind; [exact Hx|]. eapply exec_sys; [exact Hc|apply exec_mret].
    + destruct (missing_law w p) as (fd & w1 & Ha & Hfd & Hv).
      { destruct Hk as [_ Hk]. apply list.Forall_cons in Hk as [[[l Hl]|?] _]; [|done]. congruence. }
      assert (std w1) as Hstd1 by (unfold std in *; by rewrite Hv).
      destruct (exec_fprint mfd (msg p ≫= Ulib.text) w1 Hstd1 Hm) as (w2 & Hx & Hp).
      exists w2. split; [|unfold printed in *; by rewrite Hv in Hp]. apply exec_bind_exit. apply exec_bind_exit. eapply exec_sys; [exact Ha|].
      rewrite (proj2 (Z.ltb_lt _ _)) by done. eapply exec_bind; [exact Hx|apply exec_stop].
Qed.

(** cat copies its files: run on any kernel that keeps the promises of the
    file calls, in whatever pieces read returns the data, cat writes the
    contents of its arguments one after the other to standard output, closes
    every descriptor it opened and exits with 0; at the first file that does
    not exist it says so on the error output and exits with 1; without
    arguments it copies standard input. *)
Theorem cat_copies (args : list (list Z)) (w : W) (l : list Z) : std w -> known w args -> pend (view w) 0 = Some l ->
  match args with
  | [] => exists w', exec w (cat_main []) w' (Exited 0) /\ drained 0 w w' l []
  | _ =>
    let '(o, e, s) := through (u_files (view w)) (fun _ l => l)
      (fun p => ([], bytes_of "cat: cannot open " ++ p ++ [10])) args in
    exists w', exec w (cat_main args) w' (Exited s) /\ printed w w' o e
  end.
Proof.
  intros Hstd Hk Hl. destruct args as [|p args].
  - destruct (exec_cat 0 l w Hstd Hl) as (w' & Hx & Hd). exists w'. split; [|done]. eapply exec_bind; [exact Hx|apply exec_stop].
  - pose proof (exec_through 2 (fun p => lit "cat: cannot open " ++ str p ++ nl) (fun fd _ => cat fd) (fun _ l => l)
      (u_files (view w)) (p :: args) ltac:(by right) (fun w fd _ l Hs Hp _ => exec_cat fd l w Hs Hp) w Hstd Hk eq_refl) as H.
    rewrite (through_ext _ _ _ (fun p => ([], bytes_of "cat: cannot open " ++ p ++ [10]))) in H; [exact H|].
    intros q. cbn [Z.eqb Pos.eqb]. by rewrite !bind_app, text_lit, text_str.
Qed.

(** ** echo and gets *)

(** The arguments with a space between them and a newline after them. *)
Fixpoint joined (args : list (list Z)) : list Z :=
  match args with
  | [] => []
  | a :: args => a ++ (match args with [] => [10] | _ => [32] end) ++ joined args
  end.

Lemma exec_echo (args : list (list Z)) (w : W) : std w ->
  exists w', exec w (echo_main args) w' (Exited 0) /\ printed w w' (joined args) [].
Proof.
  intros Hstd. assert (exists w', exec w (echo_args args) w' (Returned tt) /\ printed w w' (joined args) []) as (w' & Hx & Hp).
  { revert w Hstd. induction args as [|a args IH]; intros w Hstd; cbn [echo_args joined].
    - exists w. split; [apply exec_mret|apply printed_refl].
    - destruct (write_out w 1 a Hstd ltac:(by left)) as (w1 & Ha1 & Hp1). pose proof (printed_std _ _ _ _ Hp1 Hstd) as Hstd1.
      destruct (write_out w1 1 (match args with [] => [10] | _ => [32] end) Hstd1 ltac:(by left)) as (w2 & Ha2 & Hp2).
      destruct (IH w2 (printed_std _ _ _ _ Hp2 Hstd1)) as (w3 & Hx3 & Hp3).
      exists w3. split; [by do 2 (eapply exec_sys; [done|])|].
      exact (printed_trans _ _ _ _ _ _ _ Hp1 (printed_trans _ _ _ _ _ _ _ Hp2 Hp3)). }
  exists w'. split; [|done]. eapply exec_bind; [exact Hx|apply exec_stop].
Qed.

(** gets, one system call at a time, reads the line that [Ulib.gets] gives. *)
Lemma exec_gets (max : nat) (w : W) (l : list Z) : pend (view w) 0 = Some l ->
  let r := Ulib.line (max - 1) l in
  exists w', exec w (gets max) w' (Returned r) /\ view w' = leave 0 (drop (length r) l) (view w).
Proof.
  intros Hl. cbv zeta. enough (forall n buf l w, (max - 1 - length buf)%nat = n -> pend (view w) 0 = Some l ->
    exists w', exec w (gets_loop max buf) w' (Returned (buf ++ Ulib.line n l)) /\
      view w' = leave 0 (drop (length (Ulib.line n l)) l) (view w)) as H.
  { apply (H (max - 1)%nat [] l w); [cbn; lia|done]. }
  clear. intros n. induction n as [|n IH]; intros buf l w En Hl.
  - exists w. cbn. rewrite app_nil_r. split; [|by rewrite leave_id]. apply (exec_iter _ w _ _ _ (inr buf)); [|done].
    rewrite bool_decide_eq_false_2 by lia. apply exec_mret.
  - destruct (read_law w 0 1 l ltac:(lia) Hl) as (bs & l' & w1 & Ha & El & Hbs & Hlen & Hv).
    assert (bool_decide (length buf + 1 < max)%nat = true) as Hmax by (apply bool_decide_eq_true_2; lia).
    destruct bs as [|c [|]]; [|  |cbn in Hlen; lia].
    + rewrite (Hbs eq_refl) in *. cbn in El. subst l'. exists w1. cbn. rewrite app_nil_r. split; [|done].
      apply (exec_iter _ w1 _ _ _ (inr buf)); [|done]. rewrite Hmax. eapply exec_sys; [exact Ha|apply exec_mret].
    + subst l. cbn [app Ulib.line]. destruct ((c =? 10) || (c =? 13)) eqn:Ec.
      * exists w1. split; [|done]. apply (exec_iter _ w1 _ _ _ (inr (buf ++ [c]))); [|done]. rewrite Hmax.
        eapply exec_sys; [exact Ha|]. cbv beta iota. rewrite Ec. apply exec_mret.
      * destruct (IH (buf ++ [c]) l' w1) as (w2 & Hx & Hv2); [rewrite length_app; cbn; lia|rewrite Hv; by eapply pend_leave|].
        exists w2. rewrite <- app_assoc in Hx. split.
        -- apply (exec_iter _ w1 _ _ _ (inl (buf ++ [c]))); [|exact Hx]. rewrite Hmax. eapply exec_sys; [exact Ha|]. cbv beta iota. rewrite Ec. apply exec_mret.
        -- by rewrite Hv2, Hv, leave_leave.
Qed.

(** ** wc *)

(** The fields between white space, and the words among them. *)
Fixpoint fields (l : list Z) : list (list Z) :=
  match l with
  | [] => [[]]
  | c :: l =>
    match fields l with
    | f :: fs => if wc_space c then [] :: f :: fs else (c :: f) :: fs
    | [] => []
    end
  end.
Definition nonempty (f : list Z) : bool := match f with [] => false | _ => true end.
Definition words (l : list Z) : list (list Z) := List.filter nonempty (fields l).
Definition newlines (l : list Z) : list Z := List.filter (fun c => c =? 10) l.

Lemma fields_cons (l : list Z) : exists f fs, fields l = f :: fs.
Proof. induction l as [|c l (f & fs & E)]; cbn; [eauto|]. rewrite E. destruct (wc_space c); eauto. Qed.

(** The words that begin in [l], when [l] follows a word or white space. *)
Definition begins (inword : bool) (l : list Z) : nat := length (if inword then List.filter nonempty (tail (fields l)) else words l).

Lemma begins_cons (b : bool) (c : Z) (l : list Z) :
  begins b (c :: l) = if wc_space c then begins false l else if b then begins true l else S (begins true l).
Proof.
  unfold begins, words. cbn [fields]. destruct (fields_cons l) as (f & fs & ->). destruct (wc_space c), b; done.
Qed.

Lemma words_length (l : list Z) : (begins false l <= length l)%nat.
Proof.
  assert (forall b, (begins b l <= length l)%nat) as H; [|apply H]. induction l as [|c l IH]; intros b; [by destruct b|].
  rewrite begins_cons. cbn [length]. pose proof (IH false). pose proof (IH true). destruct (wc_space c), b; lia.
Qed.

Lemma newlines_cons (c : Z) (l : list Z) : Z.of_nat (length (newlines (c :: l))) = (if c =? 10 then 1 else 0) + Z.of_nat (length (newlines l)).
Proof. unfold newlines. cbn. destruct (c =? 10); cbn; lia. Qed.

Lemma wc_counts_fold (l : list Z) : forall s, 0 <= c_l s <= c_c s -> 0 <= c_w s <= c_c s -> c_c s + Z.of_nat (length l) < 2 ^ 31 ->
  exists b, fold_left wc_char l s =
    Counts (c_l s + Z.of_nat (length (newlines l))) (c_w s + Z.of_nat (begins (c_inword s) l)) (c_c s + Z.of_nat (length l)) b.
Proof.
  induction l as [|c l IH]; intros s Hl Hw Hc.
  - exists (c_inword s). destruct s as [sl sw sc [|]]; cbn; f_equal; lia.
  - cbn [fold_left length] in *. rewrite newlines_cons, begins_cons. destruct s as [sl sw sc sb]. cbn [c_l c_w c_c c_inword] in *. unfold wc_char at 2.
    cbn [c_l c_w c_c c_inword]. rewrite !(i32_small (_ + 1)) by lia. destruct (c =? 10), (wc_space c), sb; cbn [negb];
      (edestruct IH as [b ->]; cbn [c_l c_w c_c c_inword]; [lia|lia|lia|]; exists b; f_equal; lia).
Qed.

Definition wc_line (path l : list Z) : list Z :=
  Ulib.printint (Z.of_nat (length (newlines l))) 10 true ++ [32] ++ Ulib.printint (Z.of_nat (length (words l))) 10 true ++ [32] ++
  Ulib.printint (Z.of_nat (length l)) 10 true ++ [32] ++ path ++ [10].

Lemma exec_wc_loop (fd : Z) (l : list Z) (s : counts) (w : W) : pend (view w) fd = Some l ->
  exists w', exec w (wc_loop fd s) w' (Returned (fold_left wc_char l s)) /\ drained fd w w' [] [].
Proof.
  remember (length l) as n eqn:En. revert l s w En. induction (lt_wf n) as [n _ IH]. intros l s w En Hl.
  destruct (read_some w fd 512 l ltac:(lia) Hl) as (bs & l' & w1 & Ha & _ & Hr & [(-> & -> & ->)|[El Hb]]).
  - exists w1. split; [|done]. apply (exec_iter _ w1 _ _ _ (inr s)); [eapply exec_sys; [exact Ha|apply exec_mret]|]. done.
  - destruct (IH (length l')) with (l := l') (s := fold_left wc_char bs s) (w := w1) as (w2 & Hx & Hd).
    + rewrite En, El, length_app. lia.
    + done.
    + by apply (left_pend _ _ l _ _ _ _ Hr).
    + exists w2. split; [|exact (left_left _ _ _ _ _ _ _ _ _ _ Hr Hd)].
      apply (exec_iter _ w1 _ _ _ (inl (fold_left wc_char bs s))); [|by rewrite El, fold_left_app].
      eapply exec_sys; [exact Ha|]. cbv beta iota. rewrite (proj2 (Z.ltb_lt _ _) Hb). apply exec_mret.
Qed.

Lemma exec_wc (fd : Z) (name l : list Z) (w : W) : std w -> pend (view w) fd = Some l -> Z.of_nat (length l) < 2 ^ 31 ->
  exists w', exec w (wc fd name) w' (Returned tt) /\ drained fd w w' (wc_line name l) [].
Proof.
  intros Hstd Hl Hlen. destruct (exec_wc_loop fd l (Counts 0 0 0 false) w Hl) as (w1 & Hx1 & Hd).
  destruct (wc_counts_fold l (Counts 0 0 0 false)) as [b Eb]; [cbn; lia|cbn; lia|cbn; lia|]. cbn [c_l c_w c_c c_inword] in Eb. rewrite !Z.add_0_l in Eb.
  assert (forall x, (x <= length l)%nat -> i32 (Z.of_nat x) = Z.of_nat x) as Hi by (intros x Hx; apply i32_small; lia).
  assert (length (newlines l) <= length l)%nat as Hn1 by apply List.filter_length_le.
  assert (begins false l <= length l)%nat as Hn2 by apply words_length.
  set (o := wc_line name l). destruct (exec_fprint 1 o w1 (left_std _ _ _ _ _ _ Hd Hstd) ltac:(by left)) as (w2 & Hx2 & Hp). cbn [Z.eqb Pos.eqb] in Hp.
  exists w2. split; [|exact (left_printed _ _ _ _ _ _ _ _ _ Hd Hp)]. eapply exec_bind; [exact Hx1|]. rewrite Eb. cbn [c_l c_w c_c].
  unfold fprintf. rewrite !bind_app, !text_lit, text_str, !bind_cons. cbn [Ulib.text mbind list_bind]. rewrite !app_nil_r, !Hi by lia. exact Hx2.
Qed.

(** C38. wc counts: on any kernel that keeps the promises of the file calls,
    wc prints for each argument the number of newlines, of maximal runs of
    characters other than white space, and of bytes in the file, however read
    cuts it into pieces, and so through words cut in two; it stops with a
    message and status 1 at the first file that does not exist. *)
Theorem wc_counts (args : list (list Z)) (w : W) : std w -> known w args -> args <> [] ->
  (forall p l, u_files (view w) !! p = Some l -> Z.of_nat (length l) < 2 ^ 31) ->
  let '(o, e, s) := through (u_files (view w)) wc_line (fun p => (bytes_of "wc: cannot open " ++ p ++ [10], [])) args in
  exists w', exec w (wc_main args) w' (Exited s) /\ printed w w' o e.
Proof.
  intros Hstd Hk Hne Hlen.
  pose proof (exec_through 1 (fun p => lit "wc: cannot open " ++ str p ++ nl) wc wc_line
    (u_files (view w)) args ltac:(by left) (fun w fd p l Hs Hp Hf => exec_wc fd p l w Hs Hp (Hlen p l Hf)) w Hstd Hk eq_refl) as H.
  rewrite (through_ext _ _ _ (fun p => (bytes_of "wc: cannot open " ++ p ++ [10], []))) in H; [by destruct args|].
  intros q. cbn [Z.eqb Pos.eqb]. by rewrite !bind_app, text_lit, text_str.
Qed.
End programs.

(** ** A kernel that keeps the promises *)

Definition new_fd (m : gmap Z ufd) : Z := foldr Z.max 0 ((fun p => p.1 + 1) <$> map_to_list m).
(** Three bytes at most for each read; a write needs a descriptor open for
    writing, a read one open for reading; sixteen descriptors at most; a child
    has the number 7. *)
Definition small_answer (X : Type) (c : callE X) (v : uview) : X * uview :=
  match c in callE X return X * uview with
  | Read fd n =>
    match pend v fd with
    | Some l => let bs := take 3 (take (Z.to_nat n) l) in (Some bs, leave fd (drop (length bs) l) v)
    | None => (None, v)
    end
  | Write fd bs =>
    match u_fds v !! fd with
    | Some d => if u_write d then (Z.of_nat (length bs), wrote [(fd, bs)] v) else (-1, v)
    | None => (-1, v)
    end
  | Open path mode =>
    match u_files v !! path with
    | Some l =>
      if u_room v <=? 0 then (-1, v) else
      let fd := new_fd (u_fds v) in
      (fd, v <| u_fds := <[fd := UFd (if mode =? O_WRONLY then None else Some l) (negb (mode =? O_RDONLY)) true]> (u_fds v) |> <| u_room := u_room v - 1 |>)
    | None => (-1, v)
    end
  | Close fd =>
    match u_fds v !! fd with
    | Some d => (0, v <| u_fds := delete fd (u_fds v) |> <| u_room := u_room v + 1 |>)
    | None => (-1, v)
    end
  | Fstat _ => (None, v)
  | Pipe => (None, v)
  | Fork | Wait => (7, v)
  | Dup _ | Exec _ _ | Kill _ | Link _ _ | Unlink _ | Mkdir _ | Mknod _ _ _ | Chdir _ | Sleep _ => (-1, v)
  end.
#[export] Instance small_kernel : Kernel uview := small_answer.

Lemma new_fd_free (m : gmap Z ufd) : 0 <= new_fd m /\ m !! new_fd m = None.
Proof.
  unfold new_fd. assert (forall l, 0 <= foldr Z.max 0 l /\ forall x, x ∈ l -> x <= foldr Z.max 0 l) as Hmax.
  { intros l. induction l as [|y l [H1 H2]]; cbn; [split; [done|set_solver]|]. split; [lia|].
    intros x Hx. apply elem_of_cons in Hx as [->|Hx]; [lia|]. specialize (H2 x Hx). lia. }
  destruct (Hmax ((fun p => p.1 + 1) <$> map_to_list m)) as [H1 H2]. set (n := foldr _ _ _) in *. split; [done|].
  destruct (m !! n) as [l|] eqn:E; [|done]. apply elem_of_map_to_list in E.
  specialize (H2 (n + 1) ltac:(apply (list_elem_of_fmap_2 (fun p => p.1 + 1) _ (n, l)); done)). lia.
Qed.

(** The view of this kernel: paths that are not files lead nowhere. *)
Definition small_view (v : uview) : uview :=
  UView (u_fds v) (u_files v) (filter (fun p => u_files v !! p = None) (u_missing v)) (u_room v) (u_out v).

#[export] Program Instance small_files : Files uview := {| view := small_view |}.
Next Obligation.
  intros w fd n l Hn Hl. change (pend w fd = Some l) in Hl. unfold answer, small_kernel, small_answer. rewrite Hl.
  set (bs := take 3 (take (Z.to_nat n) l)). exists bs, (drop (length bs) l). eexists. split_and!; [done| | | |done].
  - unfold bs. rewrite take_take, length_take. set (k := (3 `min` Z.to_nat n)%nat).
    destruct (Nat.le_ge_cases k (length l)); [rewrite Nat.min_l by done; by rewrite take_drop|].
    rewrite take_ge, drop_ge by lia. by rewrite app_nil_r.
  - unfold bs. destruct l as [|x l]; [done|]. destruct (Z.to_nat n) eqn:En; [lia|done].
  - unfold bs. rewrite !length_take. lia.
Qed.
Next Obligation. intros w fd bs (d & Hd & Hw). cbn in Hd. cbn. rewrite Hd, Hw. by eexists. Qed.
Next Obligation.
  intros w path l Hroom Hl. cbn in *. rewrite Hl, (proj2 (Z.leb_gt _ _)) by done.
  do 2 eexists. split; [done|]. destruct (new_fd_free (u_fds w)). by split_and!.
Qed.
Next Obligation.
  intros w path Hm. cbn in *. apply elem_of_filter in Hm as [-> _]. do 2 eexists. by split_and!.
Qed.
Next Obligation. intros w fd d Hd _. cbn in *. rewrite Hd. by do 2 eexists. Qed.

(** Standard input at its end and two outputs on the console. *)
Definition std_fds (l : list Z) : gmap Z ufd := {[ 0 := UFd (Some l) false false; 1 := UFd None true false; 2 := UFd None true false ]}.
Definition demo_view : uview :=
  UView (std_fds []) {[ bytes_of "a" := bytes_of "one two "; bytes_of "b" := bytes_of "three" ]} {[ bytes_of "c" ]} 13 [].

Lemma demo_std : std demo_view.
Proof. split; eexists; split; reflexivity. Qed.

Lemma cat_copies_witness : exists w', exec demo_view (cat_main [bytes_of "a"; bytes_of "b"; bytes_of "c"]) w' (Exited 1) /\
  output 1 (u_out w') = bytes_of "one two three".
Proof.
  destruct (cat_copies [bytes_of "a"; bytes_of "b"; bytes_of "c"] demo_view []) as (w' & Hx & Hp).
  - exact demo_std.
  - split; [reflexivity|]. constructor; [left; eexists; reflexivity|]. constructor; [left; eexists; reflexivity|]. constructor; [right|constructor].
    apply elem_of_filter. split; reflexivity.
  - reflexivity.
  - exists w'. split; [exact Hx|]. exact (proj1 (printed_out _ _ _ _ Hp)).
Defined.

Lemma wc_counts_witness : exists w', exec demo_view (wc_main [bytes_of "a"; bytes_of "b"]) w' (Exited 0) /\
  output 1 (u_out w') = bytes_of "0 2 8 a" ++ [10] ++ bytes_of "0 1 5 b" ++ [10].
Proof.
  destruct (wc_counts [bytes_of "a"; bytes_of "b"] demo_view) as (w' & Hx & Hp).
  - exact demo_std.
  - split; [reflexivity|]. constructor; [left; eexists; reflexivity|]. constructor; [left; eexists; reflexivity|constructor].
  - discriminate.
  - intros p l Hl. change (u_files (view demo_view)) with (u_files demo_view) in Hl. unfold demo_view in Hl. cbn [u_files] in Hl.
    apply lookup_insert_Some in Hl as [[_ <-]|[_ Hl]]; [by vm_compute|]. apply lookup_singleton_Some in Hl as [_ <-]. by vm_compute.
  - exists w'. split; [exact Hx|]. etransitivity; [exact (proj1 (printed_out _ _ _ _ Hp))|]. vm_compute. reflexivity.
Defined.
End Uprog.
