(* ===== verification/Mkfs.v ===== *)
(** * The file system image (mkfs/mkfs.c)

    mkfs makes the disk that the kernel starts from: superblock, inodes, the
    root directory with the files given, and the bitmap.  The image is a map
    from block numbers to blocks; a failed assertion and [die] end the program
    and give [None].  The host is little-endian, and its file operations on
    the image succeed.  A file of the host is the list of pieces that read
    returns.  The theorems: what mkfs writes is what the kernel reads, that is,
    the superblock of [readsb], a root directory in which [walk] finds every
    file, inodes whose bytes are those of the files, and a bitmap that has
    exactly the blocks in use. *)
From S2P Require Import Prelude Memory Riscv State Bio BioSpec Log LogSpec Fs FsSpec FsAlloc FsInode ItableSpec NameSpec.

Module Mkfs.

(** ** The code *)
Definition NINODES : Z := 200.
Definition nbitmap : Z := FSSIZE / (BSIZE * 8) + 1.
Definition ninodeblocks : Z := NINODES / IPB + 1.
Definition nlog : Z := LOGSIZE.
Definition nmeta : Z := 2 + nlog + ninodeblocks + nbitmap.
Definition nblocks : Z := FSSIZE - nmeta.

(** Conversion to the byte order of the disk. *)
Definition xshort (x : Z) : Z := le_combine [u8 x; u8 (Z.shiftr x 8)].
Definition xint (x : Z) : Z := le_combine [u8 x; u8 (Z.shiftr x 8); u8 (Z.shiftr x 16); u8 (Z.shiftr x 24)].

Definition mksb : superblock :=
  Superblock FSMAGIC (xint FSSIZE) (xint nblocks) (xint NINODES) (xint nlog) (xint 2) (xint (2 + nlog)) (xint (2 + nlog + ninodeblocks)).
Definition superblock_bytes (sb : superblock) : list Z :=
  [sb_magic sb; sb_size sb; sb_nblocks sb; sb_ninodes sb; sb_nlog sb; sb_logstart sb; sb_inodestart sb; sb_bmapstart sb] ≫= le_split 4.

(** The image, and the global variables freeinode and freeblock. *)
Record mk := Mk { img : gmap Z (list Z); freeinode : Z; freeblock : Z }.

Definition wsect (sec : Z) (buf : list Z) (s : mk) : mk := Mk (<[sec := buf]> (img s)) (freeinode s) (freeblock s).
Definition rsect (sec : Z) (s : mk) : option (list Z) := img s !! sec.

(** struct dinode: the fields that an inode has on disk. *)
Definition dinode0 : inode := Inode 0 0 0 (Sleeplock 0 0) 0 0 0 0 0 0 (replicate (NDIRECT + 1) 0).
Definition slot_of (inum : Z) : nat := Z.to_nat (64 * (inum mod IPB)).

Definition winode (inum : Z) (ip : inode) (s : mk) : option mk :=
  let bn := IBLOCK inum mksb in
  buf ← rsect bn s;
  Some (wsect bn (splice buf (slot_of inum) (dinode_bytes ip)) s).
Definition rinode (inum : Z) (s : mk) : option inode :=
  let bn := IBLOCK inum mksb in
  buf ← rsect bn s;
  Some (dinode_fields (slice buf (slot_of inum) 64) dinode0).

Definition ialloc (type : Z) (s : mk) : option (Z * mk) :=
  let inum := freeinode s in
  let s := Mk (img s) (u32 (freeinode s + 1)) (freeblock s) in
  let din := dinode0 <| i_type := xshort type |> <| i_nlink := xshort 1 |> <| i_size := xint 0 |> in
  s ← winode inum din s;
  Some (inum, s).

Fixpoint balloc_loop (k : nat) (i : Z) (buf : list Z) : list Z :=
  match k with
  | O => buf
  | S k =>
    let j := Z.to_nat (i / 8) in
    balloc_loop k (i + 1) (<[j := Z.lor (buf !!! j) (Z.shiftl 1 (i mod 8))]> buf)
  end.
Definition balloc (used : Z) (s : mk) : option mk :=
  if negb (used <? BSIZE * 8) then None else
  Some (wsect (sb_bmapstart mksb) (balloc_loop (Z.to_nat used) 0 zeros) s).

(** The block of the file at [fbn], allocated when there is none yet. *)
Definition take_block (s : mk) : Z * mk := (xint (freeblock s), Mk (img s) (freeinode s) (u32 (freeblock s + 1))).
Definition set_addr (k : nat) (x : Z) (din : inode) : inode := din <| i_addrs := <[k := x]> (i_addrs din) |>.
Definition addr_at (k : nat) (din : inode) (s : mk) : inode * mk :=
  if xint (i_addrs din !!! k) =? 0 then let (x, s) := take_block s in (set_addr k x din, s) else (din, s).
Definition imap (fbn : Z) (din : inode) (s : mk) : option (Z * inode * mk) :=
  if fbn <? Z.of_nat NDIRECT then
    let (din, s) := addr_at (Z.to_nat fbn) din s in
    Some (xint (i_addrs din !!! Z.to_nat fbn), din, s)
  else
    let (din, s) := addr_at NDIRECT din s in
    let ib := xint (i_addrs din !!! NDIRECT) in
    indirect ← rsect ib s;
    let j := Z.to_nat (fbn - Z.of_nat NDIRECT) in
    if word indirect j =? 0 then
      let (x, s) := take_block s in
      let indirect := set_word indirect j x in
      Some (xint (word indirect j), din, wsect ib indirect s)
    else Some (xint (word indirect j), din, s).

Fixpoint iappend_loop (fuel : nat) (p : list Z) (off : Z) (din : inode) (s : mk) : option (Z * inode * mk) :=
  match fuel with
  | O => None
  | S fuel =>
    let n := Z.of_nat (length p) in
    if negb (0 <? n) then Some (off, din, s) else
    let fbn := off / BSIZE in
    if negb (fbn <? MAXFILE) then None else
    '(x, din, s) ← imap fbn din s;
    let n1 := Z.to_nat (Z.min n ((fbn + 1) * BSIZE - off)) in
    buf ← rsect x s;
    let s := wsect x (splice buf (Z.to_nat (off - fbn * BSIZE)) (take n1 p)) s in
    iappend_loop fuel (drop n1 p) (u32 (off + Z.of_nat n1)) din s
  end.
Definition iappend (inum : Z) (p : list Z) (s : mk) : option mk :=
  din ← rinode inum s;
  let off := xint (i_size din) in
  '(off, din, s) ← iappend_loop (S (length p)) p off din s;
  winode inum (din <| i_size := xint off |>) s.

(** strncpy into a name of a directory entry. *)
Definition name_bytes (nm : list Z) : list Z := take DIRSIZ (nm ++ replicate DIRSIZ 0).
Definition entry (inum : Z) (nm : list Z) : list Z := dirent_bytes (Dirent (xshort inum) (name_bytes nm)).

(** The name of a file in the image. *)
Definition shortname (arg : list Z) : list Z :=
  if bool_decide (take 5 arg = bytes_of "user/") then drop 5 arg else arg.
Definition skip_underscore (nm : list Z) : list Z :=
  match nm with
  | c :: nm' => if c =? 95 then nm' else nm
  | [] => []
  end.

Section host.
(** The files of the host: what read returns, call after call. *)
Context (open : list Z -> option (list (list Z))).

Fixpoint copy_file (inum : Z) (pieces : list (list Z)) (s : mk) : option mk :=
  match pieces with
  | [] => Some s
  | buf :: pieces => if bool_decide (length buf = 0%nat) then Some s else s ← iappend inum buf s; copy_file inum pieces s
  end.

Definition add_file (rootino : Z) (arg : list Z) (s : mk) : option mk :=
  let nm := shortname arg in
  if bool_decide (slash ∈ nm) then None else
  fd ← open arg;
  let nm := skip_underscore nm in
  '(inum, s) ← ialloc T_FILE s;
  s ← iappend rootino (entry inum nm) s;
  copy_file inum fd s.

Fixpoint add_files (rootino : Z) (args : list (list Z)) (s : mk) : option mk :=
  match args with
  | [] => Some s
  | arg :: args => s ← add_file rootino arg s; add_files rootino args s
  end.

(** All blocks zero, then the superblock. *)
Definition blank : gmap Z (list Z) := list_to_map ((fun i => (i, zeros)) <$> seqZ 0 FSSIZE).
Definition fresh_image : mk :=
  wsect 1 (splice zeros 0 (superblock_bytes mksb)) (Mk blank 1 nmeta).

Definition fix_root (rootino : Z) (s : mk) : option mk :=
  din ← rinode rootino s;
  let off := xint (i_size din) in
  let off := u32 ((off / BSIZE + 1) * BSIZE) in
  winode rootino (din <| i_size := xint off |>) s.

(** main, on the files after the name of the image. *)
Definition main (args : list (list Z)) : option (gmap Z (list Z)) :=
  let s := fresh_image in
  '(rootino, s) ← ialloc T_DIR s;
  if negb (rootino =? ROOTINO) then None else
  s ← iappend rootino (entry rootino (bytes_of ".")) s;
  s ← iappend rootino (entry rootino (bytes_of "..")) s;
  s ← add_files rootino args s;
  s ← fix_root rootino s;
  s ← balloc (freeblock s) s;
  Some (img s).
End host.

(** ** Numbers *)
Lemma xint_u32 (x : Z) : is_u32 x -> xint x = x.
Proof.
  intros Hx. rewrite <- (u32_split x Hx) at 2. unfold xint. f_equal. cbn [le_split].
  by rewrite !Z.shiftr_div_pow2, !Z.div_div by lia.
Qed.

Lemma xshort_i16 (x : Z) : 0 <= x < 2 ^ 15 -> xshort x = x.
Proof.
  intros Hx. unfold xshort. rewrite Z.shiftr_div_pow2 by lia. cbn [le_combine]. rewrite !u8_idem.
  rewrite (u8_small (x / 2 ^ 8)) by (unfold is_byte; split; [apply Z.div_pos; lia|apply Z.div_lt_upper_bound; lia]).
  unfold u8. pose proof (Z.div_mod x 256 ltac:(lia)). change (2 ^ 8) with 256. lia.
Qed.

(** ** The blocks of a file *)
Definition blk (s : mk) (x : Z) : list Z := img s !!! x.

(** The image has all its blocks and no other, and those from freeblock on are zero. *)
Record dsk (s : mk) : Prop := {
  dk_all : forall x, 0 <= x < FSSIZE -> img s !! x = Some (blk s x) /\ length (blk s x) = 1024%nat /\ Forall is_byte (blk s x);
  dk_zero : forall x, freeblock s <= x < FSSIZE -> blk s x = zeros;
  dk_free : nmeta <= freeblock s <= FSSIZE;
  dk_out : forall x, ~ 0 <= x < FSSIZE -> img s !! x = None;
}.

(** The addresses of an inode are the blocks [bl], through the indirect block
    [ib], 0 for none. *)
Record maps (V : Z -> list Z) (din : inode) (bl : list Z) (ib : Z) : Prop := {
  mp_len : length (i_addrs din) = (NDIRECT + 1)%nat;
  mp_dir : forall k, (k < NDIRECT)%nat -> i_addrs din !!! k = default 0 (bl !! k);
  mp_ib : i_addrs din !!! NDIRECT = ib;
  mp_need : (NDIRECT < length bl)%nat -> ib <> 0;
  mp_ind : ib <> 0 -> forall k, (k < NINDIRECT)%nat -> word (V ib) k = default 0 (bl !! (NDIRECT + k)%nat);
}.
Definition tight (bl : list Z) (ib : Z) : Prop := ib <> 0 -> (NDIRECT < length bl)%nat.
Definition owned (bl : list Z) (ib : Z) : list Z := (if ib =? 0 then [] else [ib]) ++ bl.
Lemma elem_owned (bl : list Z) (ib x : Z) : x ∈ bl -> x ∈ owned bl ib.
Proof. intros Hx. apply elem_of_app. by right. Qed.

(** Blocks in use: allocated so far. *)
Definition used (s : mk) (l : list Z) : Prop := NoDup l /\ forall x, x ∈ l -> nmeta <= x < freeblock s.

Section image.
Context {s : mk}.
Hypothesis Hd : dsk s.

Lemma meta_bounds : 0 < nmeta < FSSIZE.
Proof. done. Qed.

Lemma dsk_u32 (x : Z) : 0 <= x < FSSIZE -> is_u32 x.
Proof. unfold is_u32, FSSIZE. lia. Qed.

(** Writing a block that is not free. *)
Lemma wsect_ok (x : Z) (d : list Z) : 0 <= x < freeblock s -> length d = 1024%nat -> Forall is_byte d -> dsk (wsect x d s).
Proof using Hd.
  intros Hx Hl Hb. pose proof (dk_free _ Hd) as Hf. split; cbn [freeblock wsect]; [| |done|].
  - intros y Hy. unfold blk. cbn [img wsect]. destruct (decide (y = x)) as [->|Hne].
    + by rewrite lookup_total_insert_eq, lookup_insert_eq.
    + rewrite lookup_total_insert_ne, lookup_insert_ne by done. by apply (dk_all _ Hd).
  - intros y Hy. unfold blk. cbn [img wsect]. rewrite lookup_total_insert_ne by lia. by apply (dk_zero _ Hd).
  - intros y Hy. cbn [img wsect]. rewrite lookup_insert_ne by lia. by apply (dk_out _ Hd).
Qed.

Lemma blk_wsect_eq (x : Z) (d : list Z) : blk (wsect x d s) x = d.
Proof. unfold blk. cbn [img wsect]. apply lookup_total_insert_eq. Qed.
Lemma blk_wsect_ne (x y : Z) (d : list Z) : x <> y -> blk (wsect x d s) y = blk s y.
Proof. intros Hne. unfold blk. cbn [img wsect]. by apply lookup_total_insert_ne. Qed.

Lemma rsect_ok (x : Z) : 0 <= x < FSSIZE -> rsect x s = Some (blk s x).
Proof using Hd. intros Hx. by apply (dk_all _ Hd). Qed.

Lemma take_block_ok : freeblock s < FSSIZE ->
  take_block s = (freeblock s, Mk (img s) (freeinode s) (freeblock s + 1)) /\ dsk (Mk (img s) (freeinode s) (freeblock s + 1)).
Proof using Hd.
  intros Hlt. pose proof (dk_free _ Hd) as Hf. pose proof meta_bounds. unfold take_block.
  rewrite xint_u32, u32_small by (apply dsk_u32; lia) || (unfold is_u32, FSSIZE in *; lia). split; [done|]. split; cbn [freeblock].
  - apply (dk_all _ Hd).
  - intros x Hx. apply (dk_zero _ Hd). lia.
  - lia.
  - apply (dk_out _ Hd).
Qed.
End image.

(** What [imap] takes from the free blocks. *)
Definition cost (bl : list Z) (j : nat) : Z := if bool_decide (j < length bl)%nat then 0 else if bool_decide (j = NDIRECT) then 2 else 1.

(** The result of [imap] on block [j] of a file. *)
Record mapped (s : mk) (din : inode) (bl : list Z) (ib : Z) (j : nat) (b : Z) (din' : inode) (s' : mk) (bl' : list Z) (ib' : Z) : Prop := {
  mm_dsk : dsk s';
  mm_maps : maps (blk s') din' bl' ib';
  mm_tight : tight bl' ib';
  mm_at : bl' !! j = Some b;
  mm_bl : bl' = if bool_decide (j < length bl)%nat then bl else bl ++ [b];
  mm_own : owned bl' ib' ≡ₚ owned bl ib ++ seqZ (freeblock s) (cost bl j);
  mm_free : freeblock s' = freeblock s + cost bl j;
  mm_new : (length bl <= j)%nat -> blk s' b = zeros;
  mm_frame : forall x, (x ∉ owned bl' ib') \/ x ∈ bl -> blk s' x = blk s x;
  mm_ino : freeinode s' = freeinode s;
  mm_rest : din' = din <| i_addrs := i_addrs din' |>;
}.

Lemma set_addr_self (din : inode) : din = din <| i_addrs := i_addrs din |>.
Proof. by destruct din. Qed.

Lemma seqZ_two (m : Z) : seqZ m 2 = [m; m + 1].
Proof. unfold seqZ. change (Z.to_nat 2) with 2%nat. cbn [seq fmap list_fmap]. by rewrite (Z.add_comm m 1). Qed.

Lemma le_split_bytes (n : nat) (v : Z) : Forall is_byte (le_split n v).
Proof. revert v. induction n as [|n IH]; intros v; cbn [le_split]; constructor; [apply u8_range|apply IH]. Qed.

Section imap.
Context {s : mk} {din : inode} {bl : list Z} {ib : Z} {j : nat}.
Hypothesis Hd : dsk s.
Hypothesis Hm : maps (blk s) din bl ib.
Hypothesis Ht : tight bl ib.
Hypothesis Hu : used s (owned bl ib).

Lemma used_in (x : Z) : x ∈ owned bl ib -> 0 < x < FSSIZE.
Proof using Hu Hd. intros Hx. pose proof (proj2 Hu x Hx). pose proof (dk_free _ Hd). pose proof meta_bounds. lia. Qed.

Lemma used_bl (x : Z) : x ∈ bl -> 0 < x < FSSIZE.
Proof using Hu Hd. clear Hm Ht. intros Hx. by apply used_in, elem_owned. Qed.

Lemma cost_seqZ_0 (n : Z) : n ≤ 0 -> seqZ (freeblock s) n = [].
Proof. intros Hn. unfold seqZ. by replace (Z.to_nat n) with O by lia. Qed.

Hypothesis Hmax : (j < NDIRECT + NINDIRECT)%nat.

(** A block that is there. *)
Lemma imap_old : (j < length bl)%nat -> exists b, imap (Z.of_nat j) din s = Some (b, din, s) /\ mapped s din bl ib j b din s bl ib.
Proof using All.
  intros Hj. destruct (lookup_lt_is_Some_2 bl j Hj) as [b Hb]. pose proof (used_bl b (list_elem_of_lookup_2 _ _ _ Hb)) as Hb0. exists b.
  assert (cost bl j = 0) as Hc by (unfold cost; by rewrite bool_decide_eq_true_2). split.
  - unfold imap, addr_at. destruct (Z.ltb_spec (Z.of_nat j) (Z.of_nat NDIRECT)) as [Hlt|Hge].
    + rewrite Nat2Z.id, (mp_dir _ _ _ _ Hm j), Hb by lia. cbn [from_option id]. rewrite xint_u32 by (apply dsk_u32; lia).
      rewrite (proj2 (Z.eqb_neq b 0)) by lia. rewrite (mp_dir _ _ _ _ Hm j), Hb by lia. cbn [from_option id]. by rewrite xint_u32 by (apply dsk_u32; lia).
    + pose proof (mp_need _ _ _ _ Hm ltac:(lia)) as Hi. assert (0 < ib < FSSIZE) as Hib.
      { apply used_in. unfold owned. rewrite (proj2 (Z.eqb_neq _ _)) by done. set_solver. }
      rewrite (mp_ib _ _ _ _ Hm), xint_u32, (proj2 (Z.eqb_neq ib 0)) by (done || (apply dsk_u32; lia)).
      rewrite (mp_ib _ _ _ _ Hm), xint_u32 by (apply dsk_u32; lia). rewrite (rsect_ok Hd) by lia. cbn [mbind option_bind].
      set (i := Z.to_nat (Z.of_nat j - Z.of_nat NDIRECT)). assert (NDIRECT + i = j)%nat as Eij by lia.
      assert (word (blk s ib) i = b) as ->.
      { rewrite (mp_ind _ _ _ _ Hm Hi) by lia. by rewrite Eij, Hb. }
      rewrite (proj2 (Z.eqb_neq b 0)) by lia. by rewrite xint_u32 by (apply dsk_u32; lia).
  - split; try done; rewrite ?Hc.
    + by rewrite bool_decide_eq_true_2.
    + by rewrite cost_seqZ_0, app_nil_r.
    + lia.
    + lia.
    + apply set_addr_self.
Qed.

(** A new block among the direct ones. *)
Lemma imap_direct : j = length bl -> (j < NDIRECT)%nat -> freeblock s < FSSIZE ->
  exists b din' s' bl' ib', imap (Z.of_nat j) din s = Some (b, din', s') /\ mapped s din bl ib j b din' s' bl' ib'.
Proof using All.
  intros Hj Hlt Hroom. pose proof (dk_free _ Hd) as Hf. pose proof meta_bounds as Hmb.
  assert (ib = 0) as Hib by (destruct (Z.eq_dec ib 0) as [|Hne]; [done|specialize (Ht Hne); lia]).
  destruct (take_block_ok Hd Hroom) as [Etb Hd1]. set (s1 := Mk _ _ _) in *. set (b := freeblock s) in *.
  assert (cost bl j = 1) as Hc by (unfold cost; rewrite !bool_decide_eq_false_2 by lia; done).
  pose proof (mp_len _ _ _ _ Hm) as Hlen.
  exists b, (set_addr j b din), s1, (bl ++ [b]), ib. split.
  - unfold imap, addr_at. rewrite (proj2 (Z.ltb_lt _ _)) by lia. rewrite Nat2Z.id, (mp_dir _ _ _ _ Hm j) by lia.
    rewrite lookup_ge_None_2 by lia. cbn [from_option id]. rewrite xint_u32 by (unfold is_u32; lia). rewrite Z.eqb_refl, Etb. cbn [i_addrs set_addr set_with set_i_addrs].
    rewrite list_lookup_total_insert_eq by lia. by rewrite xint_u32 by (apply dsk_u32; lia).
  - split; try done.
    + split; cbn [i_addrs set_addr set_with set_i_addrs].
      * by rewrite length_insert.
      * intros k Hk. destruct (decide (k = j)) as [->|Hne].
        -- rewrite list_lookup_total_insert_eq, lookup_app_r by lia. by rewrite Hj, Nat.sub_diag.
        -- rewrite list_lookup_total_insert_ne, (mp_dir _ _ _ _ Hm) by done. destruct (decide (k < j)%nat).
           ++ by rewrite lookup_app_l by lia.
           ++ rewrite !lookup_ge_None_2; [done|rewrite length_app; cbn; lia|lia].
      * rewrite list_lookup_total_insert_ne by lia. apply (mp_ib _ _ _ _ Hm).
      * rewrite length_app. cbn. lia.
      * done.
    + intros Hne. lia.
    + rewrite Hj, lookup_app_r, Nat.sub_diag by lia. done.
    + by rewrite bool_decide_eq_false_2 by lia.
    + rewrite Hc, Hib. unfold owned. cbn. done.
    + rewrite Hc. done.
    + intros _. apply (dk_zero _ Hd). lia.
Qed.

(** The indirect block, taken when the first block needs it. *)
Lemma ind_ready : j = length bl -> (NDIRECT <= j)%nat -> freeblock s + cost bl j <= FSSIZE ->
  exists din1 s1 ib1, addr_at NDIRECT din s = (din1, s1) /\ dsk s1 /\ img s1 = img s /\ freeinode s1 = freeinode s /\
    freeblock s1 + 1 = freeblock s + cost bl j /\ maps (blk s) din1 bl ib1 /\ 0 < ib1 < freeblock s1 /\ (ib1 ∉ bl) /\
    ib1 :: bl ++ [freeblock s1] ≡ₚ owned bl ib ++ seqZ (freeblock s) (cost bl j) /\ din1 = din <| i_addrs := i_addrs din1 |>.
Proof using All.
  intros Hj Hge Hroom. pose proof (dk_free _ Hd) as Hf. pose proof meta_bounds as Hmb. pose proof (mp_len _ _ _ _ Hm) as Hlen.
  unfold cost in *. rewrite (bool_decide_eq_false_2 (j < length bl)%nat) in * by lia. unfold addr_at. rewrite (mp_ib _ _ _ _ Hm).
  destruct (decide (j = NDIRECT)) as [E|E].
  - rewrite (bool_decide_eq_true_2 (j = NDIRECT)) in * by done.
    assert (ib = 0) as Hib by (destruct (Z.eq_dec ib 0) as [|Hne]; [done|specialize (Ht Hne); lia]).
    destruct (take_block_ok Hd ltac:(lia)) as [Etb Hd1]. set (s1 := Mk _ _ _) in *. rewrite Hib, xint_u32, Z.eqb_refl, Etb by (unfold is_u32; lia).
    assert (freeblock s ∉ bl) as Hn by (intros Hin; pose proof (proj2 Hu (freeblock s) ltac:(unfold owned; set_solver)); lia).
    exists (set_addr NDIRECT (freeblock s) din), s1, (freeblock s). split_and!; try done; cbn [freeblock s1]; [lia| |lia|lia|].
    + split; cbn [i_addrs set_addr set_with set_i_addrs].
      * by rewrite length_insert.
      * intros k Hk. rewrite list_lookup_total_insert_ne by lia. by apply (mp_dir _ _ _ _ Hm).
      * apply list_lookup_total_insert_eq. lia.
      * lia.
      * intros _ k Hk. rewrite (dk_zero _ Hd) by lia. rewrite word_zeros. by rewrite lookup_ge_None_2 by lia.
    + rewrite seqZ_two. unfold owned. cbn [Z.eqb app]. by rewrite Permutation_middle.
  - rewrite (bool_decide_eq_false_2 (j = NDIRECT)) in * by done. pose proof (mp_need _ _ _ _ Hm ltac:(lia)) as Hi.
    assert (ib ∈ owned bl ib) as Hin by (unfold owned; rewrite (proj2 (Z.eqb_neq _ _)) by done; set_solver).
    pose proof (proj2 Hu ib Hin) as Hr. rewrite xint_u32, (proj2 (Z.eqb_neq _ _)) by (done || (apply dsk_u32; lia)).
    exists din, s, ib. split_and!; try done; try apply set_addr_self; [lia|lia| |].
    + destruct Hu as [Hnd _]. unfold owned in Hnd. rewrite (proj2 (Z.eqb_neq _ _)) in Hnd by done. by apply list.NoDup_cons in Hnd as [? _].
    + unfold owned. rewrite (proj2 (Z.eqb_neq _ _)) by done. done.
Qed.

(** A new block behind the indirect one. *)
Lemma imap_indirect : j = length bl -> (NDIRECT <= j)%nat -> freeblock s + cost bl j <= FSSIZE ->
  exists b din' s' bl' ib', imap (Z.of_nat j) din s = Some (b, din', s') /\ mapped s din bl ib j b din' s' bl' ib'.
Proof using All.
  intros Hj Hge Hroom. destruct (ind_ready Hj Hge Hroom) as (din1 & s1 & ib1 & Ea & Hd1 & Ei & Ef & Efb & Hm1 & Hib1 & Hn & Hp & Er).
  pose proof (dk_free _ Hd1) as Hf1. assert (freeblock s1 < FSSIZE) as Hlt by lia.
  destruct (take_block_ok Hd1 Hlt) as [Etb Hd2]. set (s2 := Mk (img s1) (freeinode s1) (freeblock s1 + 1)) in *. set (b := freeblock s1) in *.
  assert (blk s1 = blk s) as Eb1 by (unfold blk; by rewrite Ei).
  set (i := (j - NDIRECT)%nat). assert (Z.to_nat (Z.of_nat j - Z.of_nat NDIRECT) = i) as Eii by lia. assert (NINDIRECT = 256)%nat as E256 by done.
  assert (i < 256)%nat as Hi by (unfold i; lia).
  assert (NDIRECT + i = j)%nat as Eij by (unfold i; lia). clearbody i.
  destruct (dk_all _ Hd1 ib1 ltac:(lia)) as (Hrd & Hlen1 & Hby1). set (d := blk s1 ib1) in *.
  assert (forall k, (k < NINDIRECT)%nat -> word d k = default 0 (bl !! (NDIRECT + k)%nat)) as Hw.
  { intros k Hk. unfold d. rewrite Eb1. apply (mp_ind _ _ _ _ Hm1); [lia|done]. }
  set (s3 := wsect ib1 (set_word d i b) s2).
  assert (dsk s3) as Hd3.
  { apply (wsect_ok Hd2); [cbn; lia|by apply length_set_word|]. apply Forall_splice; [done|apply le_split_bytes]. }
  assert (is_u32 b) as Hbu by (apply dsk_u32; pose proof meta_bounds; lia).
  exists b, din1, s3, (bl ++ [b]), ib1. split.
  - unfold imap. rewrite (proj2 (Z.ltb_ge _ _)) by lia. rewrite Ea, (mp_ib _ _ _ _ Hm1), xint_u32 by (apply dsk_u32; lia).
    unfold rsect. rewrite Hrd. cbn [mbind option_bind]. rewrite Eii, Hw by lia.
    rewrite lookup_ge_None_2 by lia. cbn [from_option id Z.eqb]. rewrite Etb, word_set_eq by done.
    by rewrite (u32_small b), xint_u32.
  - split; try done.
    + split; [apply Hm1| |apply Hm1|intros _; lia|].
      * intros k Hk. rewrite lookup_app_l by lia. by apply (mp_dir _ _ _ _ Hm1).
      * intros _ k Hk. unfold s3. rewrite blk_wsect_eq. destruct (decide (k = i)) as [->|Hne].
        -- rewrite word_set_eq, u32_small by done. rewrite lookup_app_r by lia.
           by replace (NDIRECT + i - length bl)%nat with O by lia.
        -- rewrite word_set_ne, Hw by done. destruct (decide (NDIRECT + k < length bl)%nat); [by rewrite lookup_app_l|].
           rewrite !lookup_ge_None_2; [done|rewrite length_app; cbn [length]; lia|lia].
    + intros _. rewrite length_app. cbn [length]. lia.
    + rewrite Hj, lookup_app_r, Nat.sub_diag by lia. done.
    + by rewrite bool_decide_eq_false_2 by lia.
    + unfold owned at 1. rewrite (proj2 (Z.eqb_neq ib1 0)) by lia. exact Hp.
    + intros _. unfold s3. rewrite blk_wsect_ne by (unfold b; lia). apply (dk_zero _ Hd1). lia.
    + intros x Hx. unfold s3. assert (x <> ib1) as Hne.
      { intros ->. destruct Hx as [Hx|Hx]; [|done]. apply Hx. unfold owned. rewrite (proj2 (Z.eqb_neq ib1 0)) by lia. set_solver. }
     
      rewrite blk_wsect_ne by done. change (blk s2 x) with (blk s1 x). by rewrite Eb1.
Qed.

Lemma imap_ok : (j <= length bl)%nat -> freeblock s + cost bl j <= FSSIZE ->
  exists b din' s' bl' ib', imap (Z.of_nat j) din s = Some (b, din', s') /\ mapped s din bl ib j b din' s' bl' ib'.
Proof using All.
  intros Hj Hroom. destruct (decide (j < length bl)%nat) as [Hlt|Hge].
  - destruct (imap_old Hlt) as (b & H1 & H2). by exists b, din, s, bl, ib.
  - destruct (decide (j < NDIRECT)%nat); [|apply imap_indirect; [lia|lia|done]]. apply imap_direct; [lia|done|].
    unfold cost in Hroom. rewrite !bool_decide_eq_false_2 in Hroom by lia. lia.
Qed.
End imap.

(** ** The contents of a file *)

(** Block [k] of the contents [c], filled up with zeros. *)
Definition chunk (c : list Z) (k : nat) : list Z := let d := slice c (1024 * k) 1024 in d ++ replicate (1024 - length d) 0.
(** The blocks that [n] bytes take, and with the indirect one. *)
Definition nblk (n : nat) : nat := Z.to_nat ((Z.of_nat n + 1023) / 1024).
Definition total (n : nat) : nat := (nblk n + if bool_decide (NDIRECT < nblk n)%nat then 1 else 0)%nat.

Record holds (V : Z -> list Z) (din : inode) (c bl : list Z) (ib : Z) : Prop := {
  hd_maps : maps V din bl ib;
  hd_tight : tight bl ib;
  hd_len : length bl = nblk (length c);
  hd_data : forall k b, bl !! k = Some b -> V b = chunk c k;
}.

Lemma length_chunk (c : list Z) (k : nat) : length (chunk c k) = 1024%nat.
Proof. unfold chunk. rewrite length_app, length_replicate. unfold slice. rewrite length_take. lia. Qed.

(** Appending to the last block. *)
Lemma chunk_append (c q : list Z) (k : nat) : (1024 * k <= length c)%nat -> (length c - 1024 * k + length q <= 1024)%nat ->
  splice (chunk c k) (length c - 1024 * k) q = chunk (c ++ q) k.
Proof.
  intros Hk Hq. unfold chunk. set (d := slice c (1024 * k) 1024).
  assert (d = drop (1024 * k) c) as Ed by (unfold d, slice; apply take_ge; rewrite length_drop; lia).
  assert (length d = length c - 1024 * k)%nat as El by (rewrite Ed; apply length_drop).
  assert (slice (c ++ q) (1024 * k) 1024 = d ++ q) as ->.
  { unfold slice. rewrite drop_app_le by done. rewrite <- Ed. apply take_ge. rewrite length_app. lia. }
  rewrite <- El. unfold splice. rewrite take_app_length, <- app_assoc. f_equal. f_equal.
  rewrite drop_app_ge by lia. rewrite drop_replicate. f_equal. rewrite length_app. lia.
Qed.

Lemma chunk_before (c q : list Z) (k : nat) : (1024 * k + 1024 <= length c)%nat -> chunk (c ++ q) k = chunk c k.
Proof.
  intros Hk. unfold chunk, slice. rewrite drop_app_le by lia. rewrite take_app_le; [done|]. rewrite length_drop. lia.
Qed.

Lemma chunk_none (c : list Z) (k : nat) : (length c <= 1024 * k)%nat -> chunk c k = zeros.
Proof. intros Hk. unfold chunk, slice. rewrite drop_ge by done. done. Qed.

Lemma nblk_spec (n k : nat) : (1024 * k <= n < 1024 * k + 1024)%nat -> nblk n = if bool_decide (n = 1024 * k)%nat then k else S k.
Proof.
  intros Hk. unfold nblk. destruct (decide (n = 1024 * k)%nat) as [E|E].
  - rewrite bool_decide_eq_true_2 by done. Z.to_euclidean_division_equations. lia.
  - rewrite bool_decide_eq_false_2 by done. Z.to_euclidean_division_equations. lia.
Qed.

Lemma nblk_full (n k m : nat) : (1024 * k <= n)%nat -> (0 < m)%nat -> (n + m <= 1024 * k + 1024)%nat -> nblk (n + m) = S k.
Proof. intros H1 H2 H3. unfold nblk. Z.to_euclidean_division_equations. lia. Qed.

Lemma total_mono (n m : nat) : (n <= m)%nat -> (total n <= total m)%nat.
Proof.
  intros Hnm. unfold total. assert (nblk n <= nblk m)%nat as Hb by (unfold nblk; apply Z2Nat.inj_le; Z.to_euclidean_division_equations; lia).
  destruct (decide (NDIRECT < nblk n)%nat); [rewrite !bool_decide_eq_true_2 by lia; lia|]. rewrite (bool_decide_eq_false_2 (NDIRECT < nblk n)%nat) by done. lia.
Qed.

Lemma length_owned (V : Z -> list Z) (din : inode) (c bl : list Z) (ib : Z) : holds V din c bl ib -> length (owned bl ib) = total (length c).
Proof.
  intros [Hm Ht Hl _]. unfold owned, total. rewrite length_app, Hl. destruct (Z.eqb_spec ib 0) as [E|E]; cbn [length].
  - rewrite bool_decide_eq_false_2; [lia|]. rewrite <- Hl. intros Hlt. by apply (mp_need _ _ _ _ Hm Hlt).
  - rewrite bool_decide_eq_true_2; [lia|]. rewrite <- Hl. by apply Ht.
Qed.

(** ** Appending *)

(** [p] has been appended to a file: its new blocks were free, and no other
    block has changed. *)
Record appended (s : mk) (din : inode) (c bl : list Z) (ib : Z) (p : list Z) (s' : mk) (din' : inode) (bl' : list Z) (ib' : Z) : Prop := {
  ap_dsk : dsk s';
  ap_holds : holds (blk s') din' (c ++ p) bl' ib';
  ap_free : freeblock s <= freeblock s';
  ap_own : owned bl' ib' ≡ₚ owned bl ib ++ seqZ (freeblock s) (freeblock s' - freeblock s);
  ap_frame : forall x, x ∉ owned bl' ib' -> blk s' x = blk s x;
  ap_ino : freeinode s' = freeinode s;
  ap_rest : din' = din <| i_addrs := i_addrs din' |>;
}.

Lemma appended_used (s : mk) din c bl ib p s' din' bl' ib' : dsk s -> used s (owned bl ib) ->
  appended s din c bl ib p s' din' bl' ib' -> used s' (owned bl' ib').
Proof.
  intros Hd [Hnd Hin] Ha. pose proof (dk_free _ Hd) as Hf. pose proof (ap_free _ _ _ _ _ _ _ _ _ _ Ha) as Hle. split.
  - rewrite (ap_own _ _ _ _ _ _ _ _ _ _ Ha). apply list.NoDup_app. split_and!; [done| |apply NoDup_seqZ].
    intros x Hx Hs. apply elem_of_seqZ in Hs. specialize (Hin x Hx). lia.
  - intros x Hx. rewrite (ap_own _ _ _ _ _ _ _ _ _ _ Ha) in Hx. apply elem_of_app in Hx as [Hx|Hx]; [specialize (Hin x Hx); lia|].
    apply elem_of_seqZ in Hx. lia.
Qed.

Lemma appended_trans (s : mk) din c bl ib p s1 din1 bl1 ib1 q s2 din2 bl2 ib2 :
  appended s din c bl ib p s1 din1 bl1 ib1 -> appended s1 din1 (c ++ p) bl1 ib1 q s2 din2 bl2 ib2 ->
  appended s din c bl ib (p ++ q) s2 din2 bl2 ib2.
Proof.
  intros [A1 A2 A3 A4 A5 A6 A7] [B1 B2 B3 B4 B5 B6 B7]. split; [done|by rewrite app_assoc|lia| | |congruence|].
  - rewrite B4, A4, <- app_assoc. f_equiv. replace (freeblock s2 - freeblock s) with ((freeblock s1 - freeblock s) + (freeblock s2 - freeblock s1)) by lia.
    rewrite seqZ_app by lia. by replace (freeblock s + (freeblock s1 - freeblock s)) with (freeblock s1) by lia.
  - intros x Hx. rewrite B5 by done. apply A5. intros Hin. apply Hx. rewrite B4. set_solver.
  - rewrite B7, A7. by destruct din, din1, din2.
Qed.

Lemma appended_count (s : mk) din c bl ib p s' din' bl' ib' : holds (blk s) din c bl ib -> appended s din c bl ib p s' din' bl' ib' ->
  freeblock s' = freeblock s + Z.of_nat (total (length (c ++ p))) - Z.of_nat (total (length c)).
Proof.
  intros Hh [A1 A2 A3 A4 _ _ _]. apply Permutation_length in A4. rewrite length_app, length_seqZ in A4.
  rewrite (length_owned _ _ _ _ _ Hh), (length_owned _ _ _ _ _ A2) in A4. lia.
Qed.

Lemma mapped_used {s din bl ib j b din' s' bl' ib'} : dsk s -> used s (owned bl ib) ->
  mapped s din bl ib j b din' s' bl' ib' -> used s' (owned bl' ib').
Proof.
  intros Hd [Hn1 Hn2] [_ _ _ _ _ M6 M7 _ _ _ _]. pose proof (dk_free _ Hd) as Hf.
  assert (0 <= cost bl j) as Hc by (unfold cost; repeat case_bool_decide; lia). split.
  - rewrite M6. apply list.NoDup_app. split_and!; [done| |apply NoDup_seqZ]. intros x Hx Hs. apply elem_of_seqZ in Hs. specialize (Hn2 x Hx). lia.
  - intros x Hx. rewrite M6 in Hx. apply elem_of_app in Hx as [Hx|Hx]; [specialize (Hn2 x Hx); lia|]. apply elem_of_seqZ in Hx. lia.
Qed.

(** One turn of the loop. *)
Section piece.
Context {s : mk} {din : inode} {c bl : list Z} {ib : Z}.
Hypothesis Hd : dsk s.
Hypothesis Hh : holds (blk s) din c bl ib.
Hypothesis Hu : used s (owned bl ib).
Context (q : list Z) (k : nat).
Hypothesis Hk : (1024 * k <= length c < 1024 * k + 1024)%nat.
Hypothesis Hqb : Forall is_byte q.
Hypothesis Hq : (0 < length q)%nat /\ (length c + length q <= 1024 * k + 1024)%nat.
Hypothesis Hmax : (k < NDIRECT + NINDIRECT)%nat.
Hypothesis Hroom : freeblock s + Z.of_nat (total (length (c ++ q))) - Z.of_nat (total (length c)) <= FSSIZE.

Lemma piece_blocks : (k <= length bl)%nat /\ (length bl <= S k)%nat /\ nblk (length (c ++ q)) = S k /\
  cost bl k = Z.of_nat (total (length (c ++ q))) - Z.of_nat (total (length c)).
Proof using All.
  pose proof (hd_len _ _ _ _ _ Hh) as Hl. rewrite length_app. rewrite (nblk_spec _ k Hk) in Hl. pose proof (nblk_full (length c) k (length q) ltac:(lia) ltac:(lia) ltac:(lia)) as Hn.
  unfold cost, total. rewrite Hn, (nblk_spec _ k Hk). destruct (decide (length c = 1024 * k)%nat) as [E|E].
  - rewrite (bool_decide_eq_true_2 (length c = _)) in * by done. rewrite (bool_decide_eq_false_2 (k < length bl)%nat) by lia.
    split_and!; [lia|lia|done|]. repeat case_bool_decide; lia.
  - rewrite (bool_decide_eq_false_2 (length c = _)) in * by done. rewrite (bool_decide_eq_true_2 (k < length bl)%nat) by lia.
    split_and!; [lia|lia|done|lia].
Qed.

Lemma piece_ok : exists b din' s1 bl' ib', imap (Z.of_nat k) din s = Some (b, din', s1) /\ rsect b s1 = Some (chunk c k) /\
  appended s din c bl ib q (wsect b (splice (chunk c k) (length c - 1024 * k) q) s1) din' bl' ib'.
Proof using All.
  destruct piece_blocks as (Hb1 & Hb2 & Hn & Hcost). rewrite <- Z.add_sub_assoc, <- Hcost in Hroom.
  destruct (imap_ok Hd (hd_maps _ _ _ _ _ Hh) (hd_tight _ _ _ _ _ Hh) Hu Hmax Hb1 Hroom) as (b & din' & s1 & bl' & ib' & Ei & Hmp).
  exists b, din', s1, bl', ib'. split; [done|]. destruct (mapped_used Hd Hu Hmp) as [Hnd Hin]. destruct Hmp as [M1 M2 M3 M4 M5 M6 M7 M8 M9 M10 M11].
  assert (length bl' = S k) as Hl' by (rewrite M5; case_bool_decide; rewrite ?length_app; cbn [length]; lia).
  pose proof (list_elem_of_lookup_2 _ _ _ M4) as Hbin. pose proof (Hin b (elem_owned _ _ _ Hbin)) as Hb.
  pose proof (dk_free _ M1) as Hf1. pose proof meta_bounds as Hmb.
  assert (blk s1 b = chunk c k) as Eb.
  { destruct (decide (k < length bl)%nat) as [Hlt|Hge].
    - rewrite (bool_decide_eq_true_2 _ Hlt) in M5. subst bl'. rewrite M9 by (by right). by apply (hd_data _ _ _ _ _ Hh).
    - rewrite M8 by lia. symmetry. apply chunk_none. pose proof (hd_len _ _ _ _ _ Hh) as Hl. rewrite (nblk_spec _ k Hk) in Hl. case_bool_decide; lia. }
  destruct (dk_all _ M1 b ltac:(lia)) as (Hrd & Hbl & Hbb). rewrite Eb in Hrd. split; [done|].
  set (d := splice (chunk c k) (length c - 1024 * k) q). assert (length d = 1024%nat) as Hld by (unfold d; rewrite length_splice, length_chunk; [done|rewrite length_chunk; lia]).
  set (s' := wsect b d s1). assert (forall x, x <> b -> blk s' x = blk s1 x) as Hne by (intros x Hx; by apply blk_wsect_ne).
  assert (ib' <> 0 -> ib' <> b) as Hib.
  { intros Hi Heq. unfold owned in Hnd. rewrite (proj2 (Z.eqb_neq _ _)) in Hnd by done. apply list.NoDup_cons in Hnd as [Hni _]. apply Hni. by rewrite Heq. }
  assert (NoDup bl') as Hndb by (unfold owned in Hnd; by apply list.NoDup_app in Hnd as (_ & _ & ?)).
  assert (0 <= cost bl k) as Hc0 by (unfold cost; repeat case_bool_decide; lia).
  split; [| |unfold s'; cbn [freeblock wsect]; lia| | |done|done].
  - apply (wsect_ok M1); [lia|done|]. apply Forall_splice; [by rewrite <- Eb|done].
  - split; [|done|by rewrite Hl', Hn|].
    + destruct M2 as [P1 P2 P3 P4 P5]. split; [done|done|done|done|]. intros Hi. rewrite Hne by auto. auto.
    + intros j b0 Hj. destruct (decide (j = k)) as [->|Hjk].
      * assert (b0 = b) as -> by congruence. unfold s'. rewrite blk_wsect_eq. apply chunk_append; lia.
      * assert (j < k)%nat as Hlt by (apply lookup_lt_Some in Hj; lia).
        assert (b0 <> b) as Hb0 by (intros ->; apply Hjk; by apply (NoDup_lookup bl' j k b)).
        assert (bl !! j = Some b0) as Hj0 by (rewrite M5 in Hj; case_bool_decide; [done|by rewrite lookup_app_l in Hj by lia]).
        rewrite Hne, M9 by (done || (right; by apply list_elem_of_lookup_2 in Hj0)). rewrite (hd_data _ _ _ _ _ Hh j b0 Hj0). symmetry. apply chunk_before. lia.
  - change (freeblock s') with (freeblock s1). rewrite M6. by replace (freeblock s1 - freeblock s) with (cost bl k) by lia.
  - intros x Hx. rewrite Hne by (intros ->; by apply Hx, elem_owned). apply M9. by left.
Qed.
End piece.

Lemma appended_nil (s : mk) din c bl ib : dsk s -> holds (blk s) din c bl ib -> appended s din c bl ib [] s din bl ib.
Proof.
  intros Hd Hh. split; [done|by rewrite app_nil_r|lia| |done|done|apply set_addr_self].
  by rewrite Z.sub_diag, seqZ_nil, app_nil_r by lia.
Qed.

(** The most that a file can have. *)
Definition max_bytes : nat := ((NDIRECT + NINDIRECT) * 1024)%nat.

Lemma max_bytes_Z : Z.of_nat max_bytes = 274432.
Proof. unfold max_bytes. by rewrite Nat2Z.inj_mul. Qed.

Lemma iappend_loop_ok (fuel : nat) : forall p s din c bl ib, dsk s -> holds (blk s) din c bl ib -> used s (owned bl ib) ->
  Forall is_byte p -> (length p < fuel)%nat -> (length (c ++ p) <= max_bytes)%nat ->
  freeblock s + Z.of_nat (total (length (c ++ p))) - Z.of_nat (total (length c)) <= FSSIZE ->
  exists s' din' bl' ib', iappend_loop fuel p (Z.of_nat (length c)) din s = Some (Z.of_nat (length (c ++ p)), din', s') /\
    appended s din c bl ib p s' din' bl' ib'.
Proof.
  induction fuel as [|fuel IH]; intros p s din c bl ib Hd Hh Hu Hp Hf Hm Hroom; [lia|]. cbn [iappend_loop].
  destruct (decide (p = [])) as [->|Hne].
  { exists s, din, bl, ib. rewrite app_nil_r. split; [done|by apply appended_nil]. }
  assert (0 < length p)%nat as Hl by (destruct p; [done|cbn; lia]). rewrite (proj2 (Z.ltb_lt 0 _)) by lia. cbn [negb].
  set (k := (length c / 1024)%nat). pose proof (Nat.div_mod (length c) 1024 ltac:(lia)) as Hdm. pose proof (Nat.mod_upper_bound (length c) 1024 ltac:(lia)) as Hmb.
  fold k in Hdm. assert (1024 * k <= length c < 1024 * k + 1024)%nat as Hk by lia.
  assert (Z.of_nat (length c) / BSIZE = Z.of_nat k) as -> by (unfold BSIZE; symmetry; apply (Z.div_unique _ _ _ (Z.of_nat (length c mod 1024))); lia).
  set (n1 := Nat.min (length p) (1024 * k + 1024 - length c)).
  assert (Z.to_nat (Z.min (Z.of_nat (length p)) ((Z.of_nat k + 1) * BSIZE - Z.of_nat (length c))) = n1) as -> by (unfold n1, BSIZE; lia).
  assert (length (take n1 p) = n1) as Hn1 by (rewrite length_take; unfold n1; lia). rewrite length_app in Hm, Hroom.
  assert (k < NDIRECT + NINDIRECT)%nat as Hkm by (unfold max_bytes in Hm; lia).
  rewrite (proj2 (Z.ltb_lt _ MAXFILE)) by (unfold MAXFILE; lia). cbn [negb].
  pose proof (total_mono (length c + n1) (length c + length p) ltac:(unfold n1; lia)) as Htm.
  destruct (piece_ok Hd Hh Hu (take n1 p) k Hk) as (b & din1 & s1 & bl1 & ib1 & -> & Hrd & Ha);
    [by apply Forall_take|rewrite Hn1; unfold n1; lia|done|rewrite length_app, Hn1; lia|].
  cbn [mbind option_bind]. rewrite Hrd. cbn [mbind option_bind].
  assert (Z.to_nat (Z.of_nat (length c) - Z.of_nat k * BSIZE) = length c - 1024 * k)%nat as -> by (unfold BSIZE; lia).
  set (s2 := wsect b _ s1) in *. pose proof (appended_used _ _ _ _ _ _ _ _ _ _ Hd Hu Ha) as Hu2. pose proof (appended_count _ _ _ _ _ _ _ _ _ _ Hh Ha) as Hc2.
  rewrite u32_small by (pose proof max_bytes_Z; unfold is_u32; lia).
  replace (Z.of_nat (length c) + Z.of_nat n1) with (Z.of_nat (length (c ++ take n1 p))) by (rewrite length_app, Hn1; lia).
  assert ((c ++ take n1 p) ++ drop n1 p = c ++ p) as Ecp by (by rewrite <- app_assoc, take_drop).
  destruct (IH (drop n1 p) s2 din1 (c ++ take n1 p) bl1 ib1 (ap_dsk _ _ _ _ _ _ _ _ _ _ Ha) (ap_holds _ _ _ _ _ _ _ _ _ _ Ha) Hu2)
    as (s' & din' & bl' & ib' & -> & Ha2); [by apply Forall_drop|rewrite length_drop; unfold n1; lia|rewrite Ecp, length_app; lia|rewrite Ecp, length_app; lia|].
  rewrite Ecp. exists s', din', bl', ib'. split; [done|]. rewrite <- (take_drop n1 p). by apply (appended_trans _ _ _ _ _ _ _ _ _ _ _ _ _ _ _ Ha).
Qed.

(** ** Inodes *)
Definition ondisk (s : mk) (inum : Z) : list Z := slice (blk s (IBLOCK inum mksb)) (slot_of inum) 64.
Definition mkdin (type : Z) (n : nat) (addrs : list Z) : inode :=
  dinode0 <| i_type := type |> <| i_nlink := 1 |> <| i_size := Z.of_nat n |> <| i_addrs := addrs |>.

Lemma mkdin_ok (type : Z) (n : nat) (addrs : list Z) : - 2 ^ 15 <= type < 2 ^ 15 -> (n <= 2 * max_bytes)%nat -> Forall is_u32 addrs -> length addrs = (NDIRECT + 1)%nat ->
  dinode_ok (mkdin type n addrs).
Proof.
  intros Ht Hn Ha Hl. split; cbn; try lia; try done. unfold is_u32. pose proof max_bytes_Z. lia.
Qed.

Lemma mkdin_fields (type : Z) (n : nat) (addrs : list Z) : dinode_ok (mkdin type n addrs) ->
  dinode_fields (dinode_bytes (mkdin type n addrs)) dinode0 = mkdin type n addrs.
Proof. intros Hok. by rewrite dinode_fields_bytes. Qed.

Lemma iblock_range (inum : Z) : 0 <= inum <= NINODES -> IBLOCK inum mksb = inum / 16 + 32 /\ 32 <= IBLOCK inum mksb < 45 /\ (slot_of inum + 64 <= 1024)%nat.
Proof.
  intros Hi. unfold IBLOCK, slot_of, IPB, BSIZE, NINODES in *. change (sb_inodestart mksb) with 32. change (1024 / 64) with 16.
  pose proof (Z.div_mod inum 16 ltac:(lia)). pose proof (Z.mod_pos_bound inum 16 ltac:(lia)).
  rewrite u32_small by (unfold is_u32; lia). lia.
Qed.

Section winode.
Context {s : mk} {inum : Z} {din : inode}.
Hypothesis Hd : dsk s.
Hypothesis Hi : 0 <= inum <= NINODES.
Hypothesis Hok : dinode_ok din.

Lemma winode_ok : exists s', winode inum din s = Some s' /\ dsk s' /\ freeblock s' = freeblock s /\ freeinode s' = freeinode s /\
  ondisk s' inum = dinode_bytes din /\ (forall x, 0 <= x <= NINODES -> x <> inum -> ondisk s' x = ondisk s x) /\
  (forall x, x < 32 \/ 45 <= x -> blk s' x = blk s x).
Proof using All.
  destruct (iblock_range inum Hi) as (_ & Hb & Hs). set (bn := IBLOCK inum mksb) in *. pose proof (length_dinode din Hok) as Hl64.
  destruct (dk_all _ Hd bn) as (Hrd & Hl & Hby); [unfold FSSIZE; lia|]. pose proof (dk_free _ Hd) as Hf. change nmeta with 46 in Hf.
  set (d := splice (blk s bn) (slot_of inum) (dinode_bytes din)). exists (wsect bn d s).
  assert (length d = 1024%nat) as Hld by (unfold d; by rewrite length_splice by lia). split_and!; try done.
  - unfold winode. fold bn. unfold rsect. by rewrite Hrd.
  - apply (wsect_ok Hd); [lia|done|]. apply Forall_splice; [done|]. unfold dinode_bytes.
    rewrite !list.Forall_app. split_and!; try apply le_split_bytes. apply list.Forall_bind, list.Forall_forall. intros; apply le_split_bytes.
  - unfold ondisk. fold bn. rewrite blk_wsect_eq. unfold d. rewrite <- Hl64. apply slice_splice_eq. lia.
  - intros x Hx Hne. unfold ondisk. destruct (decide (IBLOCK x mksb = bn)) as [E|E].
    + rewrite E, blk_wsect_eq. unfold d. apply slice_splice_ne; [lia|]. rewrite Hl64.
      destruct (iblock_range x Hx) as (Ex & _). destruct (iblock_range inum Hi) as (Ei & _). fold bn in Ei. rewrite Ex, Ei in E.
      unfold slot_of, IPB, BSIZE. change (1024 / 64) with 16.
      pose proof (Z.div_mod inum 16 ltac:(lia)). pose proof (Z.div_mod x 16 ltac:(lia)).
      pose proof (Z.mod_pos_bound inum 16 ltac:(lia)). pose proof (Z.mod_pos_bound x 16 ltac:(lia)). lia.
    + by rewrite blk_wsect_ne.
  - intros x Hx. apply blk_wsect_ne. lia.
Qed.
End winode.

Lemma rinode_ok (s : mk) (inum : Z) (type : Z) (n : nat) (addrs : list Z) : dsk s -> 0 <= inum <= NINODES ->
  dinode_ok (mkdin type n addrs) -> ondisk s inum = dinode_bytes (mkdin type n addrs) -> rinode inum s = Some (mkdin type n addrs).
Proof.
  intros Hd Hi Hok Hon. destruct (iblock_range inum Hi) as (_ & Hb & _). unfold rinode, rsect.
  destruct (dk_all _ Hd (IBLOCK inum mksb)) as (Hrd & _); [unfold FSSIZE; lia|]. rewrite Hrd. cbn [mbind option_bind].
  unfold ondisk in Hon. rewrite Hon. by rewrite mkdin_fields.
Qed.

(** ** The file system *)
Record file := File { f_type : Z; f_data : list Z; f_bl : list Z; f_ib : Z }.
Definition f_owned (f : file) : list Z := owned (f_bl f) (f_ib f).

(** Inode [inum] on the image is [f]. *)
Definition file_at (s : mk) (inum : Z) (f : file) : Prop := exists addrs,
  let din := mkdin (f_type f) (length (f_data f)) addrs in
  ondisk s inum = dinode_bytes din /\ dinode_ok din /\ holds (blk s) din (f_data f) (f_bl f) (f_ib f).

Record good (s : mk) (fs : list file) : Prop := {
  gd_dsk : dsk s;
  gd_ino : freeinode s = 1 + Z.of_nat (length fs);
  gd_max : Z.of_nat (length fs) < NINODES;
  gd_file : forall i f, fs !! i = Some f -> file_at s (1 + Z.of_nat i) f;
  gd_blocks : (fs ≫= f_owned) ≡ₚ seqZ nmeta (freeblock s - nmeta);
}.

Lemma maps_ext (V V' : Z -> list Z) din bl ib : (ib <> 0 -> V' ib = V ib) -> maps V din bl ib -> maps V' din bl ib.
Proof. intros HV [H1 H2 H3 H4 H5]. split; [done|done|done|done|]. intros Hi. rewrite (HV Hi). auto. Qed.

Lemma holds_ext (V V' : Z -> list Z) din c bl ib : (forall x, x ∈ owned bl ib -> V' x = V x) -> holds V din c bl ib -> holds V' din c bl ib.
Proof.
  intros HV [H1 H2 H3 H4]. split; [|done|done|].
  - apply (maps_ext V); [|done]. intros Hi. apply HV. unfold owned. rewrite (proj2 (Z.eqb_neq _ _)) by done. by left.
  - intros k b Hb. rewrite HV by (apply elem_owned; by apply list_elem_of_lookup_2 in Hb). auto.
Qed.

(** A file is given by the addresses only. *)
Lemma holds_addrs (V : Z -> list Z) din din' c bl ib : i_addrs din' = i_addrs din -> holds V din c bl ib -> holds V din' c bl ib.
Proof. intros E [[H1 H2 H3 H4 H5] H6 H7 H8]. split; [split; rewrite ?E; done|done|done|done]. Qed.

Section files.
Context {s : mk} {fs : list file}.
Hypothesis Hg : good s fs.

Lemma good_used (i : nat) (f : file) : fs !! i = Some f -> used s (f_owned f).
Proof using Hg.
  intros Hf. pose proof (gd_blocks _ _ Hg) as Hb. pose proof (dk_free _ (gd_dsk _ _ Hg)).
  assert (fs ≫= f_owned ≡ₚ f_owned f ++ (delete i fs ≫= f_owned)) as Hp by (rewrite (delete_Permutation fs i f Hf) at 1; done).
  split.
  - assert (NoDup (fs ≫= f_owned)) as Hn by (rewrite Hb; apply NoDup_seqZ). rewrite Hp in Hn. by apply list.NoDup_app in Hn as [? _].
  - intros x Hx. assert (x ∈ seqZ nmeta (freeblock s - nmeta)) as Hin by (rewrite <- Hb, Hp; set_solver). apply elem_of_seqZ in Hin. lia.
Qed.

Lemma good_apart (i j : nat) (f g : file) (x : Z) : fs !! i = Some f -> fs !! j = Some g -> i <> j -> x ∈ f_owned f -> x ∉ f_owned g.
Proof using Hg.
  intros Hi Hj Hne Hx Hy. assert (NoDup (fs ≫= f_owned)) as Hn by (rewrite (gd_blocks _ _ Hg); apply NoDup_seqZ).
  rewrite (delete_Permutation fs i f Hi), bind_cons in Hn. apply list.NoDup_app in Hn as (_ & Hn & _). apply (Hn x Hx).
  apply list_elem_of_bind. exists g. split; [done|]. destruct (decide (j < i)%nat).
  - apply (list_elem_of_lookup_2 _ j). by rewrite list_lookup_delete_lt.
  - apply (list_elem_of_lookup_2 _ (j - 1)%nat). rewrite list_lookup_delete_ge by lia. by replace (S (j - 1)) with j by lia.
Qed.

Lemma good_range (i : nat) (f : file) : fs !! i = Some f -> 0 <= 1 + Z.of_nat i <= NINODES.
Proof using Hg. intros Hf. apply lookup_lt_Some in Hf. pose proof (gd_max _ _ Hg). lia. Qed.
End files.

Lemma maps_u32 (s : mk) din bl ib : dsk s -> used s (owned bl ib) -> maps (blk s) din bl ib -> Forall is_u32 (i_addrs din).
Proof.
  intros Hd Hu Hm. apply Forall_lookup. intros k a Ha. apply dsk_u32. apply list_lookup_total_correct in Ha as Ht.
  assert (k < NDIRECT + 1)%nat as Hk by (rewrite <- (mp_len _ _ _ _ Hm); by eapply lookup_lt_Some). pose proof meta_bounds.
  destruct (decide (k = NDIRECT)) as [->|Hne].
  - rewrite (mp_ib _ _ _ _ Hm) in Ht. subst a. destruct (Z.eqb_spec ib 0) as [->|Hi]; [lia|].
    pose proof (used_in Hd Hu ib) as Hr. unfold owned in Hr. rewrite (proj2 (Z.eqb_neq _ _)) in Hr by done. specialize (Hr ltac:(by left)). lia.
  - rewrite (mp_dir _ _ _ _ Hm) in Ht by lia. subst a. destruct (bl !! k) as [b|] eqn:Eb; cbn [from_option id]; [|lia].
    pose proof (used_bl Hd Hu b (list_elem_of_lookup_2 _ _ _ Eb)). lia.
Qed.

(** Inodes do not move when only data blocks change. *)
Lemma ondisk_ext (s s' : mk) (inum : Z) : (forall x, 32 <= x < 45 -> blk s' x = blk s x) -> 0 <= inum <= NINODES -> ondisk s' inum = ondisk s inum.
Proof. intros HV Hi. destruct (iblock_range inum Hi) as (_ & Hb & _). unfold ondisk. by rewrite HV. Qed.

Lemma delete_insert_same {A} (l : list A) (i : nat) (x : A) : delete i (<[i := x]> l) = delete i l.
Proof. revert i. induction l as [|y l IH]; intros [|i]; cbn; [done|done|done|]. f_equal. apply IH. Qed.

Section append.
Context {s : mk} {fs : list file} {i : nat} {f : file} {p : list Z}.
Hypothesis Hg : good s fs.
Hypothesis Hf : fs !! i = Some f.

(** The other files are out of reach. *)
Lemma append_other (j : nat) (g : file) bl' ib' (n : Z) (x : Z) : fs !! j = Some g -> i <> j ->
  owned bl' ib' ≡ₚ f_owned f ++ seqZ (freeblock s) n -> x ∈ f_owned g -> x ∉ owned bl' ib'.
Proof using Hg Hf.
  intros Hj Hne Hown Hx Hin. rewrite Hown in Hin. apply elem_of_app in Hin as [Hin|Hin].
  - by apply (good_apart Hg i j f g x Hf Hj Hne Hin).
  - apply elem_of_seqZ in Hin. pose proof (proj2 (good_used Hg j g Hj) x Hx). lia.
Qed.

Lemma append_blocks bl' ib' (n : Z) : 0 <= n -> owned bl' ib' ≡ₚ f_owned f ++ seqZ (freeblock s) n ->
  (<[i := File (f_type f) (f_data f ++ p) bl' ib']> fs ≫= f_owned) ≡ₚ seqZ nmeta (freeblock s + n - nmeta).
Proof using Hg Hf.
  intros Hn Hown. pose proof (dk_free _ (gd_dsk _ _ Hg)) as Hfr. set (f' := File _ _ _ _).
  assert (<[i := f']> fs !! i = Some f') as Hf' by (apply list_lookup_insert_eq; by eapply lookup_lt_Some).
  rewrite (delete_Permutation _ i f' Hf'), bind_cons. change (f_owned f') with (owned bl' ib'). rewrite Hown.
  assert (delete i (<[i := f']> fs) = delete i fs) as -> by apply delete_insert_same.
  replace (freeblock s + n - nmeta) with ((freeblock s - nmeta) + n) by lia. rewrite seqZ_app by lia.
  rewrite <- (gd_blocks _ _ Hg). rewrite (delete_Permutation fs i f Hf) at 2. rewrite bind_cons, <- !app_assoc. f_equiv.
  replace (nmeta + (freeblock s - nmeta)) with (freeblock s) by lia. apply Permutation_app_comm.
Qed.
Hypothesis Hp : Forall is_byte p.
Hypothesis Hmax : (length (f_data f ++ p) <= max_bytes)%nat.
Hypothesis Hroom : freeblock s + Z.of_nat (total (length (f_data f ++ p))) - Z.of_nat (total (length (f_data f))) <= FSSIZE.

Lemma iappend_ok : exists s' bl' ib', iappend (1 + Z.of_nat i) p s = Some s' /\
  good s' (<[i := File (f_type f) (f_data f ++ p) bl' ib']> fs) /\
  freeblock s' = freeblock s + Z.of_nat (total (length (f_data f ++ p))) - Z.of_nat (total (length (f_data f))) /\
  (forall x, x < 32 \/ x = 45 -> blk s' x = blk s x).
Proof using All.
  destruct (gd_file _ _ Hg i f Hf) as (addrs & Hon & Hok & Hh). pose proof (good_range Hg i f Hf) as Hir. pose proof (good_used Hg i f Hf) as Hu.
  pose proof (gd_dsk _ _ Hg) as Hd. pose proof (dk_free _ Hd) as Hfr. pose proof max_bytes_Z as Hmz. set (inum := 1 + Z.of_nat i) in *. rewrite length_app in Hmax.
  unfold iappend. rewrite (rinode_ok s inum _ _ _ Hd Hir Hok Hon). cbn [mbind option_bind]. cbn [i_size mkdin set_with set_i_size set_i_addrs].
  rewrite xint_u32 by (unfold is_u32; lia).
  destruct (iappend_loop_ok (S (length p)) p s _ _ _ _ Hd Hh Hu Hp ltac:(lia)) as (s1 & din1 & bl' & ib' & -> & Ha); [rewrite length_app; lia|done|].
  pose proof (appended_used _ _ _ _ _ _ _ _ _ _ Hd Hu Ha) as Hu1. pose proof (appended_count _ _ _ _ _ _ _ _ _ _ Hh Ha) as Hc1.
  destruct Ha as [A1 A2 A3 A4 A5 A6 A7]. cbn [mbind option_bind]. set (c' := f_data f ++ p) in *.
  assert (length c' <= max_bytes)%nat as Hlc by (unfold c'; rewrite length_app; lia).
  assert (din1 <| i_size := xint (Z.of_nat (length c')) |> = mkdin (f_type f) (length c') (i_addrs din1)) as ->.
  { rewrite xint_u32 by (unfold is_u32; lia). rewrite A7. reflexivity. }
  assert (dinode_ok (mkdin (f_type f) (length c') (i_addrs din1))) as Hok1.
  { apply mkdin_ok; [exact (dk_type _ Hok)|lia|by apply (maps_u32 s1 din1 bl' ib'); [| |apply A2]|apply (mp_len _ _ _ _ (hd_maps _ _ _ _ _ A2))]. }
  destruct (winode_ok A1 Hir Hok1) as (s2 & -> & Hd2 & Hfb2 & Hfi2 & Hon2 & Hoth & Hbl2).
  assert (forall x, x < nmeta -> x ∉ owned bl' ib') as Hlow by (intros x Hx Hin; pose proof (proj2 Hu1 x Hin); lia).
  assert (forall x, x ∈ owned bl' ib' -> blk s2 x = blk s1 x) as Hdata.
  { intros x Hx. apply Hbl2. pose proof (proj2 Hu1 x Hx) as Hr. change nmeta with 46 in Hr. lia. }
  exists s2, bl', ib'. split; [done|]. split; [|split; [lia|]].
  - split.
    + done.
    + rewrite length_insert, Hfi2, A6. apply (gd_ino _ _ Hg).
    + rewrite length_insert. apply (gd_max _ _ Hg).
    + intros j g Hj. destruct (decide (i = j)) as [<-|Hne].
      * rewrite list_lookup_insert_eq in Hj by (by eapply lookup_lt_Some). injection Hj as <-. exists (i_addrs din1). cbn [f_type f_data f_bl f_ib].
        split_and!; [done|done|]. apply (holds_ext (blk s1)); [done|]. by apply (holds_addrs _ din1).
      * rewrite list_lookup_insert_ne in Hj by done. pose proof (good_range Hg j g Hj) as Hjr. destruct (gd_file _ _ Hg j g Hj) as (a & Ga & Gb & Gc). exists a. cbv zeta.
        split_and!; [|done|].
        -- rewrite Hoth by (unfold inum; lia). rewrite <- Ga. apply ondisk_ext; [|done]. intros x Hx. apply A5, Hlow. change nmeta with 46. lia.
        -- apply (holds_ext (blk s)); [|done]. intros x Hx. pose proof (proj2 (good_used Hg j g Hj) x Hx) as Hr. change nmeta with 46 in Hr.
           rewrite Hbl2 by lia. apply A5. by apply (append_other j g bl' ib' (freeblock s1 - freeblock s)).
    + etransitivity; [apply (append_blocks bl' ib' (freeblock s1 - freeblock s)); [lia|done]|].
      by replace (freeblock s + (freeblock s1 - freeblock s) - nmeta) with (freeblock s2 - nmeta) by lia.
  - intros x Hx. rewrite Hbl2 by lia. apply A5, Hlow. change nmeta with 46. lia.
Qed.
End append.

(** The blocks taken are those that the contents need. *)
Fixpoint needs (ds : list (list Z)) : Z :=
  match ds with
  | [] => 0
  | d :: ds => Z.of_nat (total (length d)) + needs ds
  end.

Lemma needs_app (ds ds' : list (list Z)) : needs (ds ++ ds') = needs ds + needs ds'.
Proof. induction ds as [|d ds IH]; cbn [app needs]; [done|]. rewrite IH. lia. Qed.

Lemma good_count (s : mk) (fs : list file) : good s fs -> freeblock s = nmeta + needs (f_data <$> fs).
Proof.
  intros Hg. pose proof (gd_blocks _ _ Hg) as Hb. apply Permutation_length in Hb. rewrite length_seqZ in Hb. pose proof (dk_free _ (gd_dsk _ _ Hg)) as Hf.
  assert (Z.of_nat (length (fs ≫= f_owned)) = needs (f_data <$> fs)) as E; [|lia].
  assert (forall f, f ∈ fs -> length (f_owned f) = total (length (f_data f))) as Hall.
  { intros f Hin. apply list_elem_of_lookup_1 in Hin as [i Hi]. destruct (gd_file _ _ Hg i f Hi) as (a & _ & _ & Hh). exact (length_owned _ _ _ _ _ Hh). }
  clear -Hall. induction fs as [|f fs IH]; [done|]. rewrite bind_cons, length_app, fmap_cons. cbn [needs].
  rewrite (Hall f) by (by left). rewrite <- IH; [lia|]. intros g Hin. apply Hall. by right.
Qed.

Lemma ialloc_ok (s : mk) (fs : list file) (type : Z) : good s fs -> Z.of_nat (length fs) + 1 < NINODES -> 0 <= type < 2 ^ 15 ->
  exists s', ialloc type s = Some (1 + Z.of_nat (length fs), s') /\ good s' (fs ++ [File type [] [] 0]) /\ (forall x, x < 32 \/ x = 45 -> blk s' x = blk s x).
Proof.
  intros Hg Hn Ht. pose proof (gd_ino _ _ Hg) as Hi. unfold ialloc. rewrite Hi. unfold NINODES in Hn.
  rewrite u32_small, xshort_i16, xshort_i16, xint_u32 by (done || (unfold is_u32; lia)).
  set (s1 := Mk (img s) (1 + Z.of_nat (length fs) + 1) (freeblock s)).
  assert (dsk s1) as Hd1 by (destruct (gd_dsk _ _ Hg) as [D1 D2 D3 D4]; by split).
  change (dinode0 <| i_type := type |> <| i_nlink := 1 |> <| i_size := 0 |>) with (mkdin type 0 (replicate (NDIRECT + 1) 0)).
  assert (dinode_ok (mkdin type 0 (replicate (NDIRECT + 1) 0))) as Hok.
  { apply mkdin_ok; [lia|lia|apply Forall_replicate; unfold is_u32; lia|done]. }
  destruct (winode_ok (inum := 1 + Z.of_nat (length fs)) Hd1 ltac:(unfold NINODES; lia) Hok) as (s2 & -> & Hd2 & Hfb & Hfi & Hon & Hoth & Hbl).
  cbn [mbind option_bind]. exists s2. split; [done|]. split; [|intros x Hx; rewrite Hbl by lia; done]. split.
  - done.
  - rewrite length_app, Hfi. cbn [freeinode s1 length]. cbn. lia.
  - rewrite length_app. unfold NINODES. cbn [length]. lia.
  - intros j g Hj. destruct (decide (j < length fs)%nat) as [Hlt|Hge].
    + rewrite lookup_app_l in Hj by done. pose proof (good_range Hg j g Hj) as Hjr. destruct (gd_file _ _ Hg j g Hj) as (a & Ga & Gb & Gc). exists a. cbv zeta.
      split_and!; [rewrite Hoth by lia; exact Ga|done|]. apply (holds_ext (blk s)); [|done]. intros x Hx.
      pose proof (proj2 (good_used Hg j g Hj) x Hx) as Hr. change nmeta with 46 in Hr. by rewrite Hbl by lia.
    + assert (j = length fs) as -> by (apply lookup_lt_Some in Hj; rewrite length_app in Hj; cbn in Hj; lia).
      rewrite lookup_app_r, Nat.sub_diag in Hj by lia. injection Hj as <-. exists (replicate (NDIRECT + 1) 0). cbn [f_type f_data f_bl f_ib length].
      split_and!; [done|done|]. split; [|by intros []|done|intros k b; by rewrite lookup_nil]. split; [done| |done|cbn [length]; lia|by intros []].
      intros k Hk. cbn [i_addrs mkdin set_with set_i_addrs]. by rewrite lookup_nil, lookup_total_replicate_2 by lia.
  - rewrite bind_app, Hfb. cbn [freeblock s1]. rewrite (gd_blocks _ _ Hg). by rewrite app_nil_r.
Qed.

(** ** The loop over the files *)
Definition low (s s' : mk) : Prop := forall x, x < 32 \/ x = 45 -> blk s' x = blk s x.
#[local] Instance low_refl : Reflexive low.
Proof. by intros s x _. Qed.
#[local] Instance low_trans : Transitive low.
Proof. intros s1 s2 s3 H1 H2 x Hx. by rewrite H2, H1. Qed.

(** A root directory with the contents [rd], and files with contents [ds]. *)
Definition shape (s : mk) (rd : list Z) (ds : list (list Z)) : Prop := exists root files,
  good s (root :: files) /\ f_type root = T_DIR /\ f_data root = rd /\ f_data <$> files = ds /\ Forall (fun f => f_type f = T_FILE) files.

(** The blocks that such a file system takes. *)
Definition space (rd : nat) (ds : list (list Z)) : Z := nmeta + Z.of_nat (total rd) + needs ds.

Lemma shape_free (s : mk) (rd : list Z) (ds : list (list Z)) : shape s rd ds -> freeblock s = space (length rd) ds.
Proof.
  intros (root & files & Hg & _ & <- & <- & _). rewrite (good_count _ _ Hg). unfold space. rewrite fmap_cons. cbn [needs]. lia.
Qed.

Lemma shape_root (s : mk) (rd p : list Z) (ds : list (list Z)) : shape s rd ds -> Forall is_byte p -> (length (rd ++ p) <= max_bytes)%nat ->
  space (length (rd ++ p)) ds <= FSSIZE -> exists s', iappend ROOTINO p s = Some s' /\ shape s' (rd ++ p) ds /\ low s s'.
Proof.
  intros Hs Hp Hm Hroom. pose proof (shape_free _ _ _ Hs) as Hf. destruct Hs as (root & files & Hg & Ht & <- & <- & Hty).
  destruct (iappend_ok (i := 0) (f := root) Hg eq_refl Hp Hm) as (s' & bl' & ib' & Ei & Hg' & _ & Hlow); [unfold space in *; lia|].
  exists s'. split; [exact Ei|]. split; [|exact Hlow]. cbn in Hg'. do 2 eexists. split; [exact Hg'|]. by split_and!.
Qed.

Lemma shape_new (s : mk) (rd : list Z) (ds : list (list Z)) : shape s rd ds -> Z.of_nat (length ds) + 2 < NINODES ->
  exists s', ialloc T_FILE s = Some (2 + Z.of_nat (length ds), s') /\ shape s' rd (ds ++ [[]]) /\ low s s'.
Proof.
  intros (root & files & Hg & Ht & <- & <- & Hty) Hn. rewrite length_fmap in *.
  destruct (ialloc_ok s (root :: files) T_FILE Hg) as (s' & Ei & Hg' & Hlow); [cbn [length]; lia|done|]. exists s'.
  replace (2 + Z.of_nat (length files)) with (1 + Z.of_nat (length (root :: files))) by (cbn [length]; lia). split; [exact Ei|]. split; [|exact Hlow].
  exists root, (files ++ [File T_FILE [] [] 0]). split; [exact Hg'|]. split_and!; [done|done|by rewrite fmap_app|]. apply Forall_app. by repeat constructor.
Qed.

Lemma insert_cons_S {A} (x y : A) (l : list A) (i : nat) : <[S i := x]> (y :: l) = y :: <[i := x]> l.
Proof. done. Qed.

(** Appending to the last file. *)
Lemma shape_last (s : mk) (rd d p : list Z) (ds : list (list Z)) : shape s rd (ds ++ [d]) -> Forall is_byte p -> (length (d ++ p) <= max_bytes)%nat ->
  space (length rd) (ds ++ [d ++ p]) <= FSSIZE ->
  exists s', iappend (2 + Z.of_nat (length ds)) p s = Some s' /\ shape s' rd (ds ++ [d ++ p]) /\ low s s'.
Proof.
  intros Hs Hp Hm Hroom. pose proof (shape_free _ _ _ Hs) as Hf. destruct Hs as (root & files & Hg & Ht & <- & Ed & Hty).
  destruct files as [|f files _] using rev_ind; [by destruct ds|]. rewrite fmap_app in Ed. apply app_inj_tail in Ed as [<- <-]. rewrite length_fmap.
  apply Forall_app in Hty as [Hty Hf']. apply list.Forall_cons in Hf' as [Htf _].
  assert ((root :: files ++ [f]) !! S (length files) = Some f) as Hl
    by (change ((files ++ [f]) !! length files = Some f); by rewrite lookup_app_r, Nat.sub_diag by lia).
  unfold space in *. rewrite !needs_app in *. cbn [needs] in *.
  destruct (iappend_ok Hg Hl Hp Hm) as (s' & bl' & ib' & Ei & Hg' & _ & Hlow); [lia|].
  replace (2 + Z.of_nat (length files)) with (1 + Z.of_nat (S (length files))) by lia.
  exists s'. split; [exact Ei|]. split; [|exact Hlow]. rewrite insert_cons_S, insert_app_r_alt, Nat.sub_diag in Hg' by lia. cbn in Hg'.
  do 2 eexists. split; [exact Hg'|]. split_and!; [done|done|by rewrite fmap_app|]. apply Forall_app. split; [done|]. by repeat constructor.
Qed.

Lemma space_mono (r r' : nat) (ds : list (list Z)) (d d' : list Z) : (r <= r')%nat -> (length d <= length d')%nat ->
  space r (ds ++ [d]) <= space r' (ds ++ [d']).
Proof.
  intros Hr Hd. unfold space. rewrite !needs_app. cbn [needs]. pose proof (total_mono _ _ Hr). pose proof (total_mono _ _ Hd). lia.
Qed.

Lemma needs_pos (ds : list (list Z)) : 0 <= needs ds.
Proof. induction ds as [|d ds IH]; cbn [needs]; lia. Qed.

Lemma copy_file_ok (pieces : list (list Z)) : forall s rd ds d, shape s rd (ds ++ [d]) -> Forall (fun p => Forall is_byte p /\ p <> []) pieces ->
  (length (d ++ concat pieces) <= max_bytes)%nat -> space (length rd) (ds ++ [d ++ concat pieces]) <= FSSIZE ->
  exists s', copy_file (2 + Z.of_nat (length ds)) pieces s = Some s' /\ shape s' rd (ds ++ [d ++ concat pieces]) /\ low s s'.
Proof.
  induction pieces as [|p pieces IH]; intros s rd ds d Hs Hb Hm Hsp; cbn [copy_file concat] in *.
  - exists s. rewrite app_nil_r. done.
  - apply list.Forall_cons in Hb as [[Hp Hne] Hb]. rewrite app_assoc in *. pose proof Hm as Hm'.
    rewrite bool_decide_eq_false_2 by (by destruct p). rewrite length_app in Hm'.
    destruct (shape_last s rd d p ds Hs Hp) as (s1 & -> & Hs1 & Hl1); [lia|eapply Z.le_trans; [apply space_mono|exact Hsp]; [done|rewrite (length_app (d ++ p)); lia]|].
    cbn [mbind option_bind]. destruct (IH s1 rd ds (d ++ p) Hs1 Hb Hm Hsp) as (s2 & -> & Hs2 & Hl2). exists s2. split; [done|]. split; [done|by transitivity s1].
Qed.

(** The entries of the root directory for the files. *)
Fixpoint entries (k : Z) (ncs : list (list Z * list Z)) : list Z :=
  match ncs with
  | [] => []
  | nc :: ncs => entry k nc.1 ++ entries (k + 1) ncs
  end.

Lemma entry_ok (k : Z) (nm : list Z) : Forall is_byte nm -> length (entry k nm) = 16%nat /\ Forall is_byte (entry k nm).
Proof.
  intros Hn. unfold entry, dirent_bytes, name_bytes. cbn [de_inum de_name]. split.
  - rewrite length_app, length_le_split, length_take, length_app, length_replicate. unfold DIRSIZ. lia.
  - apply list.Forall_app. split; [apply le_split_bytes|]. apply Forall_take, list.Forall_app. split; [done|]. apply Forall_replicate. done.
Qed.

Lemma length_entries (k : Z) (ncs : list (list Z * list Z)) : Forall (fun nc => Forall is_byte nc.1) ncs -> length (entries k ncs) = (16 * length ncs)%nat.
Proof.
  revert k. induction ncs as [|nc ncs IH]; intros k Hb; [done|]. apply list.Forall_cons in Hb as [Hn Hb]. cbn [entries length].
  rewrite length_app, IH by done. destruct (entry_ok k nc.1 Hn) as [-> _]. lia.
Qed.

Section host.
Context (open : list Z -> option (list (list Z))).

(** The file that an argument names, with its name in the image. *)
Definition offers (arg : list Z) (nc : list Z * list Z) : Prop := exists pieces,
  open arg = Some pieces /\ Forall (fun p => Forall is_byte p /\ p <> []) pieces /\ nc = (skip_underscore (shortname arg), concat pieces) /\
  (slash ∉ shortname arg) /\ Forall is_byte nc.1 /\ (length nc.2 <= max_bytes)%nat.

Lemma add_file_ok (s : mk) (rd : list Z) (ds : list (list Z)) (arg : list Z) (nc : list Z * list Z) :
  offers arg nc -> shape s rd ds -> Z.of_nat (length ds) + 2 < NINODES -> (length rd + 16 <= max_bytes)%nat ->
  space (length rd + 16) (ds ++ [nc.2]) <= FSSIZE ->
  exists s', add_file open ROOTINO arg s = Some s' /\ shape s' (rd ++ entry (2 + Z.of_nat (length ds)) nc.1) (ds ++ [nc.2]) /\ low s s'.
Proof.
  intros (pieces & Ho & Hb & -> & Hsl & Hn & Hc) Hs Hlen Hrd Hsp. cbn [fst snd] in *. unfold add_file.
  rewrite bool_decide_eq_false_2 by done. rewrite Ho. cbn [mbind option_bind].
  destruct (shape_new s rd ds Hs Hlen) as (s1 & -> & Hs1 & Hl1). cbn [mbind option_bind].
  set (nm := skip_underscore (shortname arg)) in *. destruct (entry_ok (2 + Z.of_nat (length ds)) nm Hn) as [He16 Heb].
  destruct (shape_root s1 rd (entry (2 + Z.of_nat (length ds)) nm) (ds ++ [[]]) Hs1 Heb) as (s2 & -> & Hs2 & Hl2);
    [rewrite length_app; lia|eapply Z.le_trans; [apply space_mono|exact Hsp]; [rewrite length_app; lia|cbn; lia]|]. cbn [mbind option_bind].
  destruct (copy_file_ok pieces s2 _ ds [] Hs2 Hb) as (s3 & -> & Hs3 & Hl3); [done|rewrite length_app, He16; exact Hsp|].
  exists s3. split; [done|]. split; [done|]. by transitivity s1; [|transitivity s2].
Qed.

Lemma add_files_ok (args : list (list Z)) : forall ncs s rd ds, Forall2 offers args ncs -> shape s rd ds ->
  Z.of_nat (length ds + length ncs) + 1 < NINODES -> (length rd + 16 * length ncs <= max_bytes)%nat ->
  space (length rd + 16 * length ncs) (ds ++ ncs.*2) <= FSSIZE ->
  exists s', add_files open ROOTINO args s = Some s' /\ shape s' (rd ++ entries (2 + Z.of_nat (length ds)) ncs) (ds ++ ncs.*2) /\ low s s'.
Proof.
  induction args as [|arg args IH]; intros ncs s rd ds Hof Hs Hlen Hrd Hsp.
  - apply Forall2_nil_inv_l in Hof as ->. exists s. cbn [entries fmap list_fmap]. rewrite !app_nil_r. done.
  - apply Forall2_cons_inv_l in Hof as (nc & ncs' & Ho & Hof & ->). cbn [add_files length entries] in *. rewrite fmap_cons in *.
    assert (ds ++ nc.2 :: ncs'.*2 = (ds ++ [nc.2]) ++ ncs'.*2) as Eds by (by rewrite <- app_assoc). rewrite Eds in *.
    destruct (add_file_ok s rd ds arg nc Ho Hs) as (s1 & -> & Hs1 & Hl1); [lia|lia| |].
    { eapply Z.le_trans; [|exact Hsp]. unfold space. rewrite (needs_app (ds ++ [nc.2])). pose proof (needs_pos (ncs'.*2)).
      pose proof (total_mono (length rd + 16) (length rd + 16 * S (length ncs')) ltac:(lia)). lia. }
    destruct Ho as (pieces & _ & _ & _ & _ & Hn & _). destruct (entry_ok (2 + Z.of_nat (length ds)) nc.1 Hn) as [He16 _].
    destruct (IH ncs' s1 (rd ++ entry (2 + Z.of_nat (length ds)) nc.1) (ds ++ [nc.2]) Hof Hs1) as (s2 & Ea & Hs2 & Hl2).
    + rewrite length_app. cbn [length]. lia.
    + rewrite length_app, He16. lia.
    + rewrite length_app, He16. by replace (length rd + 16 + 16 * length ncs')%nat with (length rd + 16 * S (length ncs'))%nat by lia.
    + exists s2. split; [exact Ea|]. split; [|by transitivity s1]. rewrite <- app_assoc, length_app in Hs2. cbn [length] in Hs2.
      by replace (2 + Z.of_nat (length ds) + 1) with (2 + Z.of_nat (length ds + 1)) by lia.
Qed.
End host.

(** ** The start and the end *)
Lemma blank_lookup (x : Z) : 0 <= x < FSSIZE -> blank !! x = Some zeros.
Proof.
  intros Hx. unfold blank. apply elem_of_list_to_map_1.
  - rewrite <- list_fmap_compose. unfold compose. cbn [fst]. rewrite list_fmap_id. apply NoDup_seqZ.
  - apply list_elem_of_fmap. exists x. split; [done|]. apply elem_of_seqZ. lia.
Qed.

Definition sb_block : list Z := splice zeros 0 (superblock_bytes mksb).

Lemma fresh_good : good fresh_image [] /\ blk fresh_image 1 = sb_block /\ (forall x, 0 <= x < FSSIZE -> x <> 1 -> blk fresh_image x = zeros).
Proof.
  assert (forall x, 0 <= x < FSSIZE -> x <> 1 -> blk fresh_image x = zeros) as Hz.
  { intros x Hx Hne. unfold fresh_image. rewrite blk_wsect_ne by done. unfold blk. cbn [img]. by rewrite (lookup_total_correct _ _ _ (blank_lookup x Hx)). }
  split_and!; [|by unfold fresh_image; rewrite blk_wsect_eq|done]. split; [|done|done|done|done]. split.
  - intros x Hx. unfold fresh_image, blk. cbn [img wsect]. destruct (decide (x = 1)) as [->|Hne].
    + rewrite lookup_insert_eq, lookup_total_insert_eq. split_and!; [done|by vm_compute|]. apply Forall_splice; [apply Forall_replicate; done|].
      apply list.Forall_bind, list.Forall_forall. intros; apply le_split_bytes.
    + rewrite lookup_insert_ne, lookup_total_insert_ne, (blank_lookup x Hx), (lookup_total_correct _ _ _ (blank_lookup x Hx)) by done.
      split_and!; [done|done|]. apply Forall_replicate. done.
  - intros x Hx. change (freeblock fresh_image) with 46 in Hx. apply Hz; lia.
  - done.
  - intros x Hx. unfold fresh_image. cbn [img wsect]. rewrite lookup_insert_ne by (intros <-; apply Hx; unfold FSSIZE; lia).
    apply not_elem_of_list_to_map_1. rewrite <- list_fmap_compose. unfold compose. cbn [fst]. rewrite list_fmap_id, elem_of_seqZ. lia.
Qed.

(** ** The bitmap *)
Lemma lor_byte (a j : Z) : is_byte a -> 0 <= j < 8 -> is_byte (Z.lor a (Z.shiftl 1 j)).
Proof.
  intros Ha Hj. unfold is_byte in *. assert (0 <= Z.lor a (Z.shiftl 1 j)) as Hp by (apply Z.lor_nonneg; split; [lia|apply Z.shiftl_nonneg; lia]).
  assert (Z.shiftr (Z.lor a (Z.shiftl 1 j)) 8 = 0) as Hz.
  { rewrite Z.shiftr_lor, !Z.shiftr_div_pow2, Z.shiftl_mul_pow2, Z.mul_1_l by lia.
    rewrite (Z.div_small a), (Z.div_small (2 ^ j)); [done| |lia]. split; [lia|]. apply Z.pow_lt_mono_r; lia. }
  rewrite Z.shiftr_div_pow2 in Hz by lia. apply Z.div_small_iff in Hz; lia.
Qed.

Lemma balloc_loop_ok (k : nat) : forall i d, length d = 1024%nat -> Forall is_byte d -> 0 <= i -> i + Z.of_nat k <= 8192 ->
  let d' := balloc_loop k i d in length d' = 1024%nat /\ Forall is_byte d' /\
  forall y, 0 <= y -> bit (fun _ => d') 0 y = bit (fun _ => d) 0 y || (i <=? y) && (y <? i + Z.of_nat k).
Proof.
  induction k as [|k IH]; intros i d Hl Hb Hi Hk; cbv zeta.
  - cbn [balloc_loop]. split_and!; [done|done|]. intros y Hy. destruct (Z.leb_spec i y), (Z.ltb_spec y (i + Z.of_nat 0)); cbn; rewrite ?orb_false_r; done || lia.
  - cbn [balloc_loop]. change (<[_ := _]> d) with (set_bit d i). pose proof (Z.mod_pos_bound i 8 ltac:(lia)) as Hm.
    assert (i / 8 < 1024) as Hq by (apply Z.div_lt_upper_bound; lia). pose proof (Z.div_pos i 8 Hi ltac:(lia)) as Hq0.
    assert (Z.to_nat (i / 8) < length d)%nat as Hlt by lia.
    destruct (IH (i + 1) (set_bit d i)) as (L1 & L2 & L3); [unfold set_bit; by rewrite length_insert| |lia|lia|].
    { unfold set_bit. apply Forall_insert; [done|]. apply lor_byte; [|done]. by apply Forall_lookup_total_1. }
    split_and!; [done|done|]. intros y Hy. rewrite L3 by done. pose proof (bit_set (fun _ => d) 0 i y Hi Hy Hlt) as Hs. unfold bit in Hs at 1. rewrite put_eq in Hs.
    unfold bit at 1. rewrite Hs. rewrite <- orb_assoc. f_equal.
    destruct (Z.eqb_spec y i), (Z.leb_spec (i + 1) y), (Z.leb_spec i y), (Z.ltb_spec y (i + 1 + Z.of_nat k)), (Z.ltb_spec y (i + Z.of_nat (S k))); cbn; done || lia.
Qed.

Lemma zeros_bit (y : Z) : 0 <= y < 8192 -> bit (fun _ => zeros) 0 y = false.
Proof.
  intros Hy. assert (y / 8 < 1024) as Hq by (apply Z.div_lt_upper_bound; lia). pose proof (Z.div_pos y 8 ltac:(lia) ltac:(lia)) as Hq0.
  unfold bit, zeros, BSIZE. rewrite lookup_total_replicate_2 by lia. apply Z.testbit_0_l.
Qed.

(** ** Reading the image *)
Lemma chunk_lookup (c : list Z) (k j : nat) : (j < 1024)%nat -> chunk c k !!! j = default 0 (c !! (1024 * k + j)%nat).
Proof.
  intros Hj. unfold chunk. set (d := slice c (1024 * k) 1024). assert (d !! j = c !! (1024 * k + j)%nat) as Ed by (unfold d; by rewrite lookup_slice, decide_True).
  rewrite list_lookup_total_alt. destruct (decide (j < length d)%nat) as [Hlt|Hge].
  - rewrite lookup_app_l, <- Ed by done. destruct (lookup_lt_is_Some_2 d j Hlt) as [x ->]. done.
  - rewrite lookup_app_r, lookup_replicate_2 by lia. rewrite <- Ed. by rewrite (lookup_ge_None_2 d) by lia.
Qed.

Lemma holds_blk (V : Z -> list Z) din c bl ib (k : nat) : holds V din c bl ib -> (k < length bl)%nat -> (k < NDIRECT + NINDIRECT)%nat ->
  fblk V din (Z.of_nat k) = bl !!! k.
Proof.
  intros [Hm _ _ _] Hk Hmax. destruct (lookup_lt_is_Some_2 bl k Hk) as [b Hb]. rewrite (list_lookup_total_correct _ _ _ Hb). unfold fblk.
  destruct (Z.ltb_spec (Z.of_nat k) (Z.of_nat NDIRECT)) as [Hlt|Hge].
  - rewrite Nat2Z.id, (mp_dir _ _ _ _ Hm) by lia. by rewrite Hb.
  - rewrite (mp_ib _ _ _ _ Hm). rewrite (mp_ind _ _ _ _ Hm) by (apply (mp_need _ _ _ _ Hm); lia) || lia.
    replace (NDIRECT + Z.to_nat (Z.of_nat k - Z.of_nat NDIRECT))%nat with k by lia. by rewrite Hb.
Qed.

Lemma holds_byte (V : Z -> list Z) din c bl ib (i : nat) : holds V din c bl ib -> (i < 1024 * length bl)%nat -> (length bl <= NDIRECT + NINDIRECT)%nat ->
  fbyte V din (Z.of_nat i) = default 0 (c !! i).
Proof.
  intros Hh Hi Hmax. unfold fbyte, BSIZE. pose proof (Nat.div_mod i 1024 ltac:(lia)) as Hdm. pose proof (Nat.mod_upper_bound i 1024 ltac:(lia)) as Hmb.
  set (k := (i / 1024)%nat) in *. set (j := (i mod 1024)%nat) in *.
  assert (Z.of_nat i / 1024 = Z.of_nat k) as -> by (symmetry; apply (Z.div_unique _ _ _ (Z.of_nat j)); lia).
  assert (Z.of_nat i mod 1024 = Z.of_nat j) as -> by (symmetry; apply (Z.mod_unique _ _ (Z.of_nat k)); lia). rewrite Nat2Z.id.
  rewrite (holds_blk _ _ _ _ _ k Hh) by lia. destruct (lookup_lt_is_Some_2 bl k ltac:(lia)) as [b Hb]. rewrite (list_lookup_total_correct _ _ _ Hb).
  rewrite (hd_data _ _ _ _ _ Hh k b Hb), chunk_lookup by done. by replace (1024 * k + j)%nat with i by lia.
Qed.

Lemma holds_bytes (V : Z -> list Z) din c bl ib (off n : nat) : holds V din c bl ib -> (off + n <= 1024 * length bl)%nat -> (length bl <= NDIRECT + NINDIRECT)%nat ->
  fbytes V din (Z.of_nat off) n = (fun i => default 0 (c !! (off + i)%nat)) <$> seq 0 n.
Proof.
  intros Hh Hn Hmax. unfold fbytes. apply list_fmap_ext. intros i x Hx. apply lookup_seq in Hx as [-> Hx]. rewrite <- Nat2Z.inj_add.
  apply (holds_byte V din c bl ib); [done|lia|done].
Qed.

Definition nolocks : Z -> bool := fun _ => false.
Definition norefs : Z -> Z := fun _ => 0.

(** Inode [x] of the disk [V] has the contents [c] and the size [n]. *)
Definition inode_at (V : Z -> list Z) (x type : Z) (n : nat) (c bl : list Z) (ib : Z) : Prop := exists addrs,
  let din := mkdin type n addrs in
  on_dinode mksb V x = dinode_bytes din /\ dinode_ok din /\ holds V din c bl ib.

Section inode_at.
Context {V : Z -> list Z} {x type : Z} {n : nat} {c bl : list Z} {ib : Z} (dv : Z).
Hypothesis Hin : inode_at V x type n c bl ib.

Lemma node_at : let v := node dv mksb V x in
  i_type v = type /\ i_nlink v = 1 /\ i_size v = Z.of_nat n /\ i_dev v = dv /\ holds V v c bl ib.
Proof using Hin.
  destruct Hin as (addrs & Hon & Hok & Hh). unfold node. cbv zeta. rewrite Hon, dinode_fields_bytes by done. split_and!; [done|done|done|done|].
  by apply (holds_addrs _ (mkdin type n addrs)).
Qed.

Hypothesis Hfit : (n <= 1024 * length bl)%nat.
Hypothesis Hmax : (length bl <= NDIRECT + NINDIRECT)%nat.

Lemma node_block (k : Z) : 0 <= k -> k * BSIZE < Z.of_nat n -> exists b, bl !! Z.to_nat k = Some b /\ fblk V (node dv mksb V x) k = b.
Proof using All.
  intros Hk Hlt. unfold BSIZE in Hlt. destruct node_at as (_ & _ & _ & _ & Hh). destruct (lookup_lt_is_Some_2 bl (Z.to_nat k) ltac:(lia)) as [b Hb].
  exists b. split; [done|]. replace k with (Z.of_nat (Z.to_nat k)) at 1 by lia. rewrite (holds_blk _ _ _ _ _ _ Hh) by lia. by apply list_lookup_total_correct.
Qed.

Lemma node_bytes (off m : nat) : (off + m <= n)%nat -> fbytes V (node dv mksb V x) (Z.of_nat off) m = (fun i => default 0 (c !! (off + i)%nat)) <$> seq 0 m.
Proof using All. intros Hm. destruct node_at as (_ & _ & _ & _ & Hh). apply (holds_bytes V _ c bl ib); [done|lia|done]. Qed.

Hypothesis Hown : forall b, b ∈ owned bl ib -> nmeta <= b < FSSIZE /\ length (V b) = 1024%nat.

Lemma node_file_ok : file_ok dv FSSIZE V norefs nolocks (node dv mksb V x).
Proof using All.
  destruct node_at as (_ & _ & Hs & Hdv & Hh). pose proof meta_bounds as Hmb.
  assert (forall b, b ∈ owned bl ib -> readable FSSIZE norefs nolocks b) as Hr.
  { intros b Hb. destruct (Hown b Hb) as [Hb1 _]. split_and!; [lia|lia|done|done]. }
  split; [done| | |]; rewrite Hs.
  - unfold MAXFILE, BSIZE. lia.
  - intros k Hk Hlt. destruct (node_block k Hk Hlt) as (b & Hb & ->). apply list_elem_of_lookup_2, (elem_owned _ ib) in Hb.
    split; [by apply Hr|]. by destruct (Hown b Hb) as [_ ->].
  - intros Hlt. rewrite (mp_ib _ _ _ _ (hd_maps _ _ _ _ _ Hh)). apply Hr. unfold BSIZE in Hlt.
    pose proof (mp_need _ _ _ _ (hd_maps _ _ _ _ _ Hh) ltac:(lia)) as Hi. unfold owned. rewrite (proj2 (Z.eqb_neq _ _)) by done. by left.
Qed.
End inode_at.

(** ** The root directory *)
Fixpoint numbered (k : Z) (nms : list (list Z)) : list (Z * list Z) :=
  match nms with
  | [] => []
  | nm :: nms => (k, nm) :: numbered (k + 1) nms
  end.
Lemma numbered_lookup (nms : list (list Z)) : forall k i, numbered k nms !! i = (fun nm => (k + Z.of_nat i, nm)) <$> nms !! i.
Proof.
  induction nms as [|nm nms IH]; intros k [|i]; cbn [numbered lookup list_lookup]; [done|done|cbn; by rewrite Z.add_0_r|].
  change ((numbered (k + 1) nms) !! i = (fun nm => (k + Z.of_nat (S i), nm)) <$> nms !! i). rewrite IH.
  destruct (nms !! i); cbn; [|done]. do 2 f_equal. lia.
Qed.

(** The entries of the directory: inode numbers and names. *)
Definition listing (nms : list (list Z)) : list (Z * list Z) := (1, bytes_of ".") :: (1, bytes_of "..") :: numbered 2 nms.
Definition entry_bytes (e : Z * list Z) : list Z := entry e.1 e.2.

Lemma entries_numbered (ncs : list (list Z * list Z)) : forall k, entries k ncs = numbered k ncs.*1 ≫= entry_bytes.
Proof. induction ncs as [|nc ncs IH]; intros k; [done|]. rewrite fmap_cons. cbn [numbered entries]. by rewrite bind_cons, IH. Qed.

Lemma bind_16 (es : list (Z * list Z)) : (forall e, e ∈ es -> length (entry_bytes e) = 16%nat) ->
  length (es ≫= entry_bytes) = (16 * length es)%nat /\
  forall k j, (j < 16)%nat -> (es ≫= entry_bytes) !! (16 * k + j)%nat = es !! k ≫= fun e => entry_bytes e !! j.
Proof.
  induction es as [|e es IH]; intros Hl; [by split; [|intros; rewrite !lookup_nil]|]. destruct IH as [IH1 IH2]; [intros; apply Hl; by right|].
  specialize (Hl e ltac:(by left)). rewrite bind_cons, length_app, IH1, Hl. split; [cbn [length]; lia|]. intros [|k] j Hj.
  - rewrite lookup_app_l by lia. done.
  - rewrite lookup_app_r by lia. replace (16 * S k + j - length (entry_bytes e))%nat with (16 * k + j)%nat by lia. by apply IH2.
Qed.

Lemma dirent_entry (k : Z) (nm : list Z) : 0 <= k < 2 ^ 15 -> dirent_of (entry k nm) = Dirent k (name_bytes nm).
Proof.
  intros Hk. unfold entry, dirent_of, dirent_bytes. cbn [de_inum de_name]. rewrite xshort_i16 by done. f_equal.
  - rewrite take_app_length' by (by rewrite length_le_split). rewrite le_combine_split. apply Z.mod_small. change (256 ^ Z.of_nat 2) with (2 ^ 16). lia.
  - unfold slice. rewrite drop_app_length' by (by rewrite length_le_split). apply take_ge. unfold name_bytes. rewrite length_take. lia.
Qed.

Lemma cstr_name (nm : list Z) : Forall (fun c => c <> 0) nm -> cstr (name_bytes nm) = take DIRSIZ nm.
Proof.
  intros Hz. unfold name_bytes. destruct (decide (DIRSIZ <= length nm)%nat) as [Hge|Hlt].
  - rewrite take_app_le by done. apply cstr_full. by apply Forall_take.
  - rewrite take_app_ge, take_replicate by lia. replace (Nat.min (DIRSIZ - length nm) DIRSIZ) with (S (DIRSIZ - length nm - 1)) by lia.
    cbn [replicate]. rewrite cstr_string by done. by rewrite take_ge by lia.
Qed.

Lemma lookup_first (es : list dirent) (nm : list Z) : forall (k : nat) (e : dirent), es !! k = Some e -> entry_is nm e = true ->
  (forall j e', (j < k)%nat -> es !! j = Some e' -> entry_is nm e' = false) -> lookup_name es nm = Some (de_inum e).
Proof.
  unfold lookup_name. induction es as [|e0 es IH]; intros [|k] e He Hm Hf; [done|done| |].
  - injection He as <-. cbn [List.find]. by rewrite Hm.
  - cbn [List.find]. rewrite (Hf 0%nat e0) by (done || lia). apply (IH k e He Hm). intros j e' Hj Hl. apply (Hf (S j)); [lia|done].
Qed.

Section root.
Context {V : Z -> list Z} {n : nat} {bl : list Z} {ib : Z} {nms : list (list Z)} (dv : Z).
Hypothesis Hroot : inode_at V ROOTINO T_DIR n (listing nms ≫= entry_bytes) bl ib.
Hypothesis Hfit : (n <= 1024 * length bl)%nat.
Hypothesis Hmax : (length bl <= NDIRECT + NINDIRECT)%nat.
Hypothesis Hn : (16 * length (listing nms) <= n)%nat /\ (n mod 16 = 0)%nat.
Hypothesis Hcount : Z.of_nat (length nms) + 2 < 2 ^ 15.
Hypothesis Hnm : Forall (fun nm => Forall is_byte nm /\ Forall (fun c => c <> 0) nm) nms.
Let v := node dv mksb V ROOTINO.

Lemma listing_ok (e : Z * list Z) : e ∈ listing nms -> length (entry_bytes e) = 16%nat /\ 0 < e.1 < 2 ^ 15 /\ Forall (fun c => c <> 0) e.2.
Proof using Hnm Hcount.
  intros He. unfold entry_bytes. apply elem_of_cons in He as [->|He]; [split_and!; [by vm_compute|done|done|by repeat constructor]|].
  apply elem_of_cons in He as [->|He]; [split_and!; [by vm_compute|done|done|by repeat constructor]|].
  apply list_elem_of_lookup_1 in He as [i Hi]. rewrite numbered_lookup in Hi. destruct (nms !! i) as [nm|] eqn:El; [|done]. injection Hi as <-. cbn [fst snd].
  destruct (Forall_lookup_1 _ _ _ _ Hnm El) as [H1 H2]. apply lookup_lt_Some in El. clear -H1 H2 Hcount El. split_and!; [by apply entry_ok|lia|lia|done].
Qed.

(** The entries as the kernel reads them. *)
Lemma root_entries (k : nat) : dir_entries V v !! k =
  if bool_decide (16 * k < n)%nat then
    Some (match listing nms !! k with Some e => Dirent e.1 (name_bytes e.2) | None => Dirent 0 (replicate 14 0) end)
  else None.
Proof using All.
  destruct (bind_16 (listing nms)) as [Hl16 Hlk]; [intros e He; by apply listing_ok|].
  destruct (node_at dv Hroot) as (_ & _ & Hs & _). fold v in Hs. unfold dir_entries. rewrite list_lookup_fmap, Hs.
  assert (Z.to_nat (Z.of_nat n / 16) = n / 16)%nat as -> by (change 16 with (Z.of_nat 16); by rewrite <- Nat2Z.inj_div, Nat2Z.id).
  pose proof (Nat.div_mod n 16 ltac:(lia)) as Hdm. case_bool_decide as Hk; [|by rewrite lookup_seq_ge by lia].
  rewrite lookup_seq_lt by lia. cbn [fmap option_fmap option_map]. f_equal. change (0 + k)%nat with k.
  replace (16 * Z.of_nat k) with (Z.of_nat (16 * k)) by lia. unfold v. rewrite (node_bytes dv Hroot Hfit Hmax) by lia.
  destruct (listing nms !! k) as [e|] eqn:El.
  - destruct (listing_ok e (list_elem_of_lookup_2 _ _ _ El)) as (H16 & He & _). rewrite <- dirent_entry by lia. f_equal. apply list_eq. intros j. rewrite list_lookup_fmap.
    destruct (decide (j < 16)%nat) as [Hj|Hj].
    + rewrite lookup_seq_lt by done. cbn [fmap option_fmap option_map]. rewrite Hlk, El by lia. cbn [mbind option_bind]. change (0 + j)%nat with j.
      change (entry e.1 e.2) with (entry_bytes e). destruct (lookup_lt_is_Some_2 (entry_bytes e) j ltac:(lia)) as [y ->]. done.
    + rewrite lookup_seq_ge, (lookup_ge_None_2 (entry e.1 e.2)) by (done || (change (entry e.1 e.2) with (entry_bytes e); lia)). done.
  - apply lookup_ge_None_1 in El. replace ((fun i => default 0 _) <$> seq 0 16) with (replicate 16 0); [done|].
    apply list_eq. intros j. rewrite list_lookup_fmap. destruct (decide (j < 16)%nat) as [Hj|Hj].
    + rewrite lookup_seq_lt, lookup_replicate_2 by done. cbn [fmap option_fmap option_map]. by rewrite lookup_ge_None_2 by lia.
    + rewrite lookup_seq_ge, (lookup_ge_None_2 (replicate 16 0)) by (rewrite ?length_replicate; lia). done.
Qed.

Lemma root_closed (e : dirent) : e ∈ dir_entries V v -> de_inum e <> 0 -> 1 <= de_inum e <= 1 + Z.of_nat (length nms).
Proof using All.
  intros He Hz. apply list_elem_of_lookup_1 in He as [k Hk]. rewrite root_entries in Hk. case_bool_decide; [|done].
  destruct (listing nms !! k) as [[y nm]|] eqn:El; injection Hk as <-; cbn [de_inum fst] in *; [|done].
  destruct k as [|[|k]]; [injection El as <- <-; lia|injection El as <- <-; lia|]. change (numbered 2 nms !! k = Some (y, nm)) in El.
  rewrite numbered_lookup in El. destruct (nms !! k) as [nm'|] eqn:En; [|done]. injection El as <- _. apply lookup_lt_Some in En. lia.
Qed.

Hypothesis Hdup : NoDup (take DIRSIZ <$> (listing nms).*2).

(** Every name leads to its inode. *)
Lemma root_walk (k : nat) (y : Z) (nm : list Z) : listing nms !! k = Some (y, nm) -> walk dv mksb V false ROOTINO [nm] = Some y.
Proof using All.
  intros El. destruct (node_at dv Hroot) as (Ht & _). cbn [walk]. rewrite Ht. cbn [negb Z.eqb andb T_DIR Pos.eqb].
  pose proof (lookup_lt_Some _ _ _ El) as Hk. destruct (listing_ok _ (list_elem_of_lookup_2 _ _ _ El)) as (_ & Hy & Hz). cbn [fst snd] in *.
  rewrite (lookup_first _ _ k (Dirent y (name_bytes nm))).
  - done.
  - fold v. rewrite root_entries, bool_decide_eq_true_2, El by lia. done.
  - unfold entry_is. cbn [de_inum de_name]. rewrite (proj2 (Z.eqb_neq y 0)) by lia. rewrite cstr_name by done. by rewrite bool_decide_eq_true_2.
  - intros j e' Hj He'. fold v in He'. rewrite root_entries, bool_decide_eq_true_2 in He' by lia.
    destruct (lookup_lt_is_Some_2 (listing nms) j ltac:(lia)) as [[y' nm'] El']. rewrite El' in He'. injection He' as <-.
    destruct (listing_ok _ (list_elem_of_lookup_2 _ _ _ El')) as (_ & _ & Hz'). cbn [fst snd] in *.
    unfold entry_is. cbn [de_inum de_name]. rewrite cstr_name by done. rewrite bool_decide_eq_false_2; [apply andb_false_r|]. intros Heq.
    enough (j = k) by lia. apply (NoDup_lookup _ j k (take DIRSIZ nm) Hdup).
    + rewrite !list_lookup_fmap, El'. cbn [fmap option_fmap option_map snd]. by f_equal.
    + by rewrite !list_lookup_fmap, El.
Qed.
End root.

(** ** The end of main *)
Record built (V : Z -> list Z) (top : Z) (root : file) (sz : nat) (files : list file) : Prop := {
  bt_blocks : forall x, 0 <= x < FSSIZE -> length (V x) = 1024%nat;
  bt_bytes : bytes_on_disk V;
  bt_root : inode_at V ROOTINO T_DIR sz (f_data root) (f_bl root) (f_ib root);
  bt_files : forall i f, files !! i = Some f -> inode_at V (2 + Z.of_nat i) T_FILE (length (f_data f)) (f_data f) (f_bl f) (f_ib f);
  bt_own : ((root :: files) ≫= f_owned) ≡ₚ seqZ nmeta (top - nmeta);
  bt_top : nmeta <= top <= FSSIZE;
  bt_count : Z.of_nat (length files) + 1 < NINODES;
}.

Lemma inode_at_ext (V V' : Z -> list Z) (x type : Z) n c bl ib : (forall y, 32 <= y < 45 -> V' y = V y) -> (forall y, y ∈ owned bl ib -> V' y = V y) ->
  0 <= x <= NINODES -> inode_at V x type n c bl ib -> inode_at V' x type n c bl ib.
Proof.
  intros Hm Ho Hx (addrs & Hon & Hok & Hh). destruct (iblock_range x Hx) as (_ & Hb & _). exists addrs. cbv zeta. unfold on_dinode in *. rewrite Hm by done.
  split_and!; [done|done|]. by apply (holds_ext V).
Qed.

Lemma built_own (V : Z -> list Z) top root sz files (f : file) (x : Z) : built V top root sz files -> f ∈ root :: files -> x ∈ f_owned f -> nmeta <= x < top.
Proof.
  intros Hb Hf Hx. assert (x ∈ seqZ nmeta (top - nmeta)) as Hin by (rewrite <- (bt_own _ _ _ _ _ Hb); apply list_elem_of_bind; by exists f).
  apply elem_of_seqZ in Hin. lia.
Qed.

(** The bitmap is in no file and holds no inode. *)
Lemma built_bitmap (V V' : Z -> list Z) top root sz files : (forall x, x <> 45 -> V' x = V x) -> length (V' 45) = 1024%nat -> Forall is_byte (V' 45) ->
  built V top root sz files -> built V' top root sz files.
Proof.
  intros HV Hl Hby Hb. assert (forall f y, f ∈ root :: files -> y ∈ f_owned f -> V' y = V y) as Ho.
  { intros f y Hf Hy. apply HV. pose proof (built_own _ _ _ _ _ f y Hb Hf Hy) as Hr. change nmeta with 46 in Hr. lia. }
  destruct Hb as [B1 B2 B3 B4 B5 B6 B7]. split; [| | | |done|done|done].
  - intros x Hx. destruct (decide (x = 45)) as [->|]; [done|]. rewrite HV by done. auto.
  - intros x. destruct (decide (x = 45)) as [->|]; [done|]. rewrite HV by done. apply B2.
  - apply (inode_at_ext V); [intros; apply HV; lia|intros y Hy; by apply (Ho root); [left|]|unfold ROOTINO, NINODES; lia|done].
  - intros i f Hf. pose proof (lookup_lt_Some _ _ _ Hf). apply (inode_at_ext V); [intros; apply HV; lia| |lia|by apply B4].
    intros y Hy. apply (Ho f); [right; by eapply list_elem_of_lookup_2|done].
Qed.

Lemma dsk_bytes (s : mk) : dsk s -> bytes_on_disk (blk s).
Proof.
  intros Hd x. destruct (decide (0 <= x < FSSIZE)) as [Hx|Hx]; [by apply (dk_all _ Hd)|]. unfold blk. by rewrite (lookup_total_alt (img s)), (dk_out _ Hd x Hx).
Qed.

(** The size of the root directory, rounded up to blocks. *)
Definition root_size (n : nat) : nat := (1024 * (n / 1024 + 1))%nat.

Lemma T_DIR_i16 : - 2 ^ 15 <= T_DIR < 2 ^ 15.
Proof. done. Qed.

Lemma fix_root_ok (s : mk) (rd : list Z) (ds : list (list Z)) : shape s rd ds -> (length rd <= max_bytes)%nat ->
  exists s' root files, fix_root ROOTINO s = Some s' /\ dsk s' /\ freeblock s' = freeblock s /\ low s s' /\ f_data root = rd /\ f_data <$> files = ds /\
    built (blk s') (freeblock s) root (root_size (length rd)) files.
Proof.
  intros (root & files & Hg & Ht & <- & <- & Hty) Hm. pose proof (gd_dsk _ _ Hg) as Hd. pose proof (gd_max _ _ Hg) as Hmax. cbn [length] in Hmax.
  destruct (gd_file _ _ Hg 0 root eq_refl) as (addrs & Hon & Hok & Hh). change (1 + Z.of_nat 0) with ROOTINO in Hon. rewrite Ht in *.
  unfold fix_root. rewrite (rinode_ok s ROOTINO _ _ _ Hd ltac:(unfold ROOTINO, NINODES; lia) Hok Hon). cbn [mbind option_bind].
  cbn [i_size mkdin set_with set_i_size set_i_addrs]. pose proof max_bytes_Z as Hmz.
  set (n := length (f_data root)) in *. rewrite (xint_u32 (Z.of_nat n)) by (unfold is_u32; lia).
  assert ((Z.of_nat n / BSIZE + 1) * BSIZE = Z.of_nat (root_size n)) as ->.
  { unfold root_size, BSIZE. rewrite Nat2Z.inj_mul, Nat2Z.inj_add, Nat2Z.inj_div. lia. }
  assert (root_size n <= 2 * max_bytes)%nat as Hrs by (unfold root_size; pose proof (Nat.div_mod n 1024 ltac:(lia)); lia).
  rewrite u32_small, xint_u32 by (unfold is_u32; lia).
  assert (dinode_ok (mkdin T_DIR (root_size n) addrs)) as Hok1
    by exact (mkdin_ok T_DIR (root_size n) addrs T_DIR_i16 Hrs (dk_addrs _ Hok) (dk_count _ Hok)).
  destruct (winode_ok (inum := ROOTINO) Hd ltac:(unfold ROOTINO, NINODES; lia) Hok1) as (s' & E & Hd' & Hfb & Hfi & Hon' & Hoth & Hbl).
  exists s', root, files. split; [exact E|]. split_and!; [done|done|intros x Hx; apply Hbl; lia|done|done|].
  assert (forall i f y, (root :: files) !! i = Some f -> y ∈ f_owned f -> blk s' y = blk s y) as Hdata.
  { intros i f y Hf Hy. apply Hbl. pose proof (proj2 (good_used Hg i f Hf) y Hy) as Hr. change nmeta with 46 in Hr. lia. }
  split; [|by apply dsk_bytes| | |exact (gd_blocks _ _ Hg)|exact (dk_free _ Hd)|lia].
  - intros x Hx. by apply (dk_all _ Hd').
  - exists addrs. cbv zeta. split_and!; [exact Hon'|done|]. apply (holds_ext (blk s)); [intros y; by apply (Hdata 0%nat)|]. by apply (holds_addrs _ (mkdin T_DIR n addrs)).
  - intros i f Hf. destruct (gd_file _ _ Hg (S i) f Hf) as (a & Ga & Gb & Gc). pose proof (good_range Hg (S i) f Hf) as Hr.
    replace (1 + Z.of_nat (S i)) with (2 + Z.of_nat i) in * by lia. rewrite (Forall_lookup_1 _ _ _ _ Hty Hf) in *.
    exists a. cbv zeta. split_and!; [|done|apply (holds_ext (blk s)); [intros y; by apply (Hdata (S i))|done]].
    change (ondisk s' (2 + Z.of_nat i) = dinode_bytes (mkdin T_FILE (length (f_data f)) a)). rewrite Hoth by (unfold ROOTINO; lia). exact Ga.
Qed.

Lemma balloc_ok (s : mk) : dsk s -> exists s', balloc (freeblock s) s = Some s' /\ dsk s' /\ (forall x, x <> 45 -> blk s' x = blk s x) /\
  (forall y, 0 <= y < 8192 -> bit (blk s') 45 y = (y <? freeblock s)).
Proof.
  intros Hd. pose proof (dk_free _ Hd) as Hf. change nmeta with 46 in Hf. unfold FSSIZE in Hf. unfold balloc. rewrite (proj2 (Z.ltb_lt _ _)) by (unfold BSIZE; lia).
  cbn [negb]. change (sb_bmapstart mksb) with 45.
  destruct (balloc_loop_ok (Z.to_nat (freeblock s)) 0 zeros eq_refl) as (H1 & H2 & H3); [by apply Forall_replicate|lia|lia|].
  set (d := balloc_loop _ _ _) in *. exists (wsect 45 d s). split; [done|]. split; [apply wsect_ok; done || lia|]. split; [intros x Hx; by apply blk_wsect_ne|].
  intros y Hy. pose proof (zeros_bit y Hy) as Hz. unfold bit in *. rewrite blk_wsect_eq, H3, Hz by lia. cbn [orb]. rewrite (proj2 (Z.leb_le 0 y)) by lia. cbn [andb].
  f_equal. lia.
Qed.

Lemma nblk_max (n : nat) : (n <= max_bytes)%nat -> (nblk n <= NDIRECT + NINDIRECT)%nat.
Proof.
  intros Hn. unfold nblk. pose proof max_bytes_Z. assert ((Z.of_nat n + 1023) / 1024 < 269) by (apply Z.div_lt_upper_bound; lia).
  assert (Z.of_nat (NDIRECT + NINDIRECT) = 268) by done. lia.
Qed.

Lemma nblk_fits (n : nat) : (n <= 1024 * nblk n)%nat.
Proof. unfold nblk. Z.to_euclidean_division_equations. lia. Qed.

Lemma root_fits (n : nat) : (n mod 1024 <> 0)%nat -> root_size n = (1024 * nblk n)%nat.
Proof.
  intros Hn. unfold root_size. pose proof (Nat.div_mod n 1024 ltac:(lia)) as Hdm. pose proof (Nat.mod_upper_bound n 1024 ltac:(lia)) as Hmb.
  rewrite (nblk_spec n (n / 1024)), bool_decide_eq_false_2 by lia. lia.
Qed.

(** Each inode of a file system that was built. *)
Section built.
Context {V : Z -> list Z} {top : Z} {root : file} {files : list file} (dv : Z).
Hypothesis Hb : built V top root (root_size (length (f_data root))) files.
Hypothesis Hmod : (length (f_data root) mod 1024 <> 0)%nat.
Hypothesis Hlen : forall f, f ∈ root :: files -> (length (f_data f) <= max_bytes)%nat.

Lemma built_node (i : nat) (f : file) : (root :: files) !! i = Some f -> exists type n,
  inode_at V (1 + Z.of_nat i) type n (f_data f) (f_bl f) (f_ib f) /\ type <> 0 /\ (type = T_DIR -> i = O /\ n = root_size (length (f_data root))) /\
  (n <= 1024 * length (f_bl f))%nat /\ (length (f_bl f) <= NDIRECT + NINDIRECT)%nat.
Proof using All.
  intros Hf. specialize (Hlen f (list_elem_of_lookup_2 _ _ _ Hf)). destruct i as [|i].
  - injection Hf as <-. exists T_DIR, (root_size (length (f_data root))). pose proof (bt_root _ _ _ _ _ Hb) as Hr. split; [exact Hr|].
    destruct Hr as (a & _ & _ & Hh). rewrite (hd_len _ _ _ _ _ Hh), root_fits by done. split_and!; [done|done|done|by apply nblk_max].
  - change (files !! i = Some f) in Hf. exists T_FILE, (length (f_data f)). pose proof (bt_files _ _ _ _ _ Hb i f Hf) as Hr.
    replace (1 + Z.of_nat (S i)) with (2 + Z.of_nat i) by lia. split; [exact Hr|]. destruct Hr as (a & _ & _ & Hh). rewrite (hd_len _ _ _ _ _ Hh).
    split_and!; [done|done|apply nblk_fits|by apply nblk_max].
Qed.

Lemma built_owned (i : nat) (f : file) (x : Z) : (root :: files) !! i = Some f -> x ∈ f_owned f -> nmeta <= x < FSSIZE /\ length (V x) = 1024%nat.
Proof using Hb.
  clear Hmod Hlen. intros Hf Hx. pose proof (built_own _ _ _ _ _ f x Hb (list_elem_of_lookup_2 _ _ _ Hf) Hx) as Hr. pose proof (bt_top _ _ _ _ _ Hb). pose proof meta_bounds.
  split; [lia|]. apply (bt_blocks _ _ _ _ _ Hb). lia.
Qed.

Lemma inode_of (x : Z) : 1 <= x <= 1 + Z.of_nat (length files) -> exists i f, x = 1 + Z.of_nat i /\ (root :: files) !! i = Some f.
Proof using Type.
  clear Hmod Hlen Hb. intros Hx. exists (Z.to_nat (x - 1)). destruct (lookup_lt_is_Some_2 (root :: files) (Z.to_nat (x - 1))) as [f Hf]; [cbn [length]; lia|]. exists f. split; [lia|done].
Qed.

Lemma built_ok (x : Z) : 1 <= x <= 1 + Z.of_nat (length files) -> node_ok dv FSSIZE mksb V norefs nolocks x /\ file_ok dv FSSIZE V norefs nolocks (node dv mksb V x).
Proof using All.
  intros Hx. destruct (inode_of x Hx) as (i & f & -> & Hf). destruct (built_node i f Hf) as (type & n & Hin & Ht & Hdir & Hfit & Hmax).
  pose proof (node_file_ok dv Hin Hfit Hmax (fun b Hbi => built_owned i f b Hf Hbi)) as Hok. split; [|exact Hok].
  destruct (node_at dv Hin) as (Et & El & Es & _ & _). pose proof (bt_count _ _ _ _ _ Hb).
  destruct (iblock_range (1 + Z.of_nat i)) as (_ & Hib & _); [lia|]. split.
  - split_and!; [lia|unfold FSSIZE; lia|done|done].
  - by rewrite Et.
  - by rewrite El.
  - rewrite Et. intros E. split; [exact Hok|]. rewrite Es. destruct (Hdir E) as [_ ->]. unfold root_size. rewrite Nat2Z.inj_mul.
    change (Z.of_nat 1024) with (64 * 16). rewrite <- Z.mul_assoc, (Z.mul_comm 16), Z.mul_assoc. apply Z.mod_mul. done.
Qed.

Lemma built_block (x k : Z) : 1 <= x <= 1 + Z.of_nat (length files) -> 0 <= k -> k * BSIZE < i_size (node dv mksb V x) ->
  exists i f, x = 1 + Z.of_nat i /\ (root :: files) !! i = Some f /\ f_bl f !! Z.to_nat k = Some (fblk V (node dv mksb V x) k).
Proof using All.
  intros Hx Hk Hlt. destruct (inode_of x Hx) as (i & f & -> & Hf). destruct (built_node i f Hf) as (type & n & Hin & Ht & Hdir & Hfit & Hmax).
  destruct (node_at dv Hin) as (_ & _ & Es & _ & _). rewrite Es in Hlt. destruct (node_block dv Hin Hfit Hmax k Hk Hlt) as (b & Hbl & ->). by exists i, f.
Qed.
End built.

(** ** What mkfs makes *)
Definition superblock_on (V : Z -> list Z) : superblock :=
  let w i := word (V 1) i in Superblock (w 0%nat) (w 1%nat) (w 2%nat) (w 3%nat) (w 4%nat) (w 5%nat) (w 6%nat) (w 7%nat).

(** The disk [V] as the kernel reads it: a root directory with the files
    [ncs], names and contents. *)
Record image_of (V : Z -> list Z) (ncs : list (list Z * list Z)) : Prop := {
  io_bytes : bytes_on_disk V;
  io_super : superblock_on V = mksb;
  io_log : forall x, sb_logstart mksb <= x < sb_logstart mksb + sb_nlog mksb -> V x = zeros;
  io_bitmap : forall x, 0 <= x < FSSIZE -> bit V (sb_bmapstart mksb) x = (x <? space (16 * (2 + length ncs)) ncs.*2);
  io_node : forall x, 1 <= x <= 1 + Z.of_nat (length ncs) -> node_ok ROOTDEV FSSIZE mksb V norefs nolocks x;
  io_closed : forall x e, 1 <= x <= 1 + Z.of_nat (length ncs) -> i_type (node ROOTDEV mksb V x) = T_DIR ->
    e ∈ dir_entries V (node ROOTDEV mksb V x) -> de_inum e <> 0 -> 1 <= de_inum e <= 1 + Z.of_nat (length ncs);
  io_dots : walk ROOTDEV mksb V false ROOTINO [bytes_of "."] = Some ROOTINO /\ walk ROOTDEV mksb V false ROOTINO [bytes_of ".."] = Some ROOTINO;
  io_file : forall i nm c, ncs !! i = Some (nm, c) -> let v := node ROOTDEV mksb V (2 + Z.of_nat i) in
    walk ROOTDEV mksb V false ROOTINO [nm] = Some (2 + Z.of_nat i) /\ i_type v = T_FILE /\ i_size v = Z.of_nat (length c) /\
    file_ok ROOTDEV FSSIZE V norefs nolocks v /\ fbytes V v 0 (length c) = c;
  io_used : forall x k, 1 <= x <= 1 + Z.of_nat (length ncs) -> 0 <= k -> k * BSIZE < i_size (node ROOTDEV mksb V x) ->
    nmeta <= fblk V (node ROOTDEV mksb V x) k < space (16 * (2 + length ncs)) ncs.*2;
  io_apart : forall x y k l, 1 <= x <= 1 + Z.of_nat (length ncs) -> 1 <= y <= 1 + Z.of_nat (length ncs) -> 0 <= k -> 0 <= l ->
    k * BSIZE < i_size (node ROOTDEV mksb V x) -> l * BSIZE < i_size (node ROOTDEV mksb V y) ->
    fblk V (node ROOTDEV mksb V x) k = fblk V (node ROOTDEV mksb V y) l -> x = y /\ k = l;
}.

Lemma sb_block_reads : superblock_on (fun _ => sb_block) = mksb.
Proof. by vm_compute. Qed.

Lemma bind_apart {A B} (f : A -> list B) (l : list A) (i j : nat) (a b : A) (x : B) : NoDup (l ≫= f) ->
  l !! i = Some a -> l !! j = Some b -> x ∈ f a -> x ∈ f b -> i = j.
Proof.
  revert i j. induction l as [|c l IH]; intros i j Hn Hi Hj Ha Hb; [done|]. rewrite bind_cons in Hn. apply list.NoDup_app in Hn as (_ & Hd & Hn).
  assert (forall k e, l !! k = Some e -> x ∈ f e -> x ∈ l ≫= f) as Hin.
  { intros k e Hk He. apply list_elem_of_bind. exists e. split; [done|]. by eapply list_elem_of_lookup_2. }
  destruct i as [|i], j as [|j]; [done|injection Hi as <-|injection Hj as <-|].
  - by destruct (Hd x Ha (Hin j b Hj Hb)).
  - by destruct (Hd x Hb (Hin i a Hi Ha)).
  - f_equal. by apply (IH i j).
Qed.

Lemma owned_inj (bl : list Z) (ib : Z) (k l : nat) (b : Z) : NoDup (owned bl ib) -> bl !! k = Some b -> bl !! l = Some b -> k = l.
Proof. intros Hn. apply list.NoDup_app in Hn as (_ & _ & Hn). by apply NoDup_lookup. Qed.

Section image_of.
Context {V : Z -> list Z} {root : file} {files : list file} {ncs : list (list Z * list Z)}.
Let top := space (16 * (2 + length ncs)) ncs.*2.
Hypothesis Hb : built V top root (root_size (length (f_data root))) files.
Hypothesis Hrd : f_data root = listing ncs.*1 ≫= entry_bytes.
Hypothesis Hds : f_data <$> files = ncs.*2.
Hypothesis Hnm : Forall (fun nm => Forall is_byte nm /\ Forall (fun c => c <> 0) nm) ncs.*1.
Hypothesis Hdup : NoDup (take DIRSIZ <$> (listing ncs.*1).*2).
Hypothesis Hlen : Forall (fun nc => (length nc.2 <= max_bytes)%nat) ncs.
Hypothesis Hmod : ((2 + length ncs) mod 64 <> 0)%nat.

Lemma image_length : length files = length ncs.
Proof using Hds. clear -Hds. apply (f_equal length) in Hds. by rewrite !length_fmap in Hds. Qed.

Lemma image_count : Z.of_nat (length ncs) + 1 < 200.
Proof using Hb Hds. clear -Hb Hds. pose proof (bt_count _ _ _ _ _ Hb) as Hc. rewrite image_length in Hc. exact Hc. Qed.

Lemma root_length : length (f_data root) = (16 * (2 + length ncs))%nat.
Proof using All.
  rewrite Hrd. destruct (bind_16 (listing ncs.*1)) as [-> _].
  - intros e He. pose proof image_count. apply (listing_ok (nms := ncs.*1)); [rewrite length_fmap; lia|done|done].
  - f_equal. cbn [listing length]. do 2 f_equal. clear. generalize 2. induction ncs as [|nc l IH]; intros k; [done|]. cbn. f_equal. apply IH.
Qed.

Lemma image_data (f : file) : f ∈ root :: files -> (length (f_data f) <= max_bytes)%nat.
Proof using All.
  intros Hf. apply elem_of_cons in Hf as [->|Hf].
  - rewrite root_length. pose proof image_count. pose proof max_bytes_Z. lia.
  - apply list_elem_of_lookup_1 in Hf as [i Hi]. assert (ncs.*2 !! i = Some (f_data f)) as Hd by (rewrite <- Hds, list_lookup_fmap, Hi; done).
    rewrite list_lookup_fmap in Hd. destruct (ncs !! i) as [nc|] eqn:En; [|done]. injection Hd as <-. exact (Forall_lookup_1 _ _ _ _ Hlen En).
Qed.

Lemma root_mod : (length (f_data root) mod 1024 <> 0)%nat.
Proof using All.
  rewrite root_length. change 1024%nat with (16 * 64)%nat. rewrite Nat.Div0.mul_mod_distr_l. lia.
Qed.

Lemma image_root : inode_at V ROOTINO T_DIR (root_size (length (f_data root))) (listing ncs.*1 ≫= entry_bytes) (f_bl root) (f_ib root) /\
  (root_size (length (f_data root)) <= 1024 * length (f_bl root))%nat /\ (length (f_bl root) <= NDIRECT + NINDIRECT)%nat /\
  (16 * length (listing ncs.*1) <= root_size (length (f_data root)))%nat /\ (root_size (length (f_data root)) mod 16 = 0)%nat.
Proof using All.
  pose proof (bt_root _ _ _ _ _ Hb) as Hr. rewrite <- Hrd. split; [exact Hr|]. destruct Hr as (a & _ & _ & Hh). rewrite (hd_len _ _ _ _ _ Hh).
  rewrite (root_fits _ root_mod). pose proof (nblk_fits (length (f_data root))) as Hf. split_and!; [done|apply nblk_max, image_data; by left| |].
  - destruct (bind_16 (listing ncs.*1)) as [<- _]; [|by rewrite <- Hrd].
    intros e He. pose proof image_count. apply (listing_ok (nms := ncs.*1)); [rewrite length_fmap; lia|done|done].
  - change 1024%nat with (16 * 64)%nat. rewrite <- Nat.mul_assoc, Nat.mul_comm. apply Nat.Div0.mod_mul.
Qed.

Lemma image_walk (k : nat) (y : Z) (nm : list Z) : listing ncs.*1 !! k = Some (y, nm) -> walk ROOTDEV mksb V false ROOTINO [nm] = Some y.
Proof using All.
  destruct image_root as (Hr & Hf & Hm & Hl & H16). pose proof image_count as Hc. apply (root_walk ROOTDEV Hr Hf Hm (conj Hl H16)); [rewrite length_fmap; lia|done|done].
Qed.

Lemma image_closed (x : Z) (e : dirent) : 1 <= x <= 1 + Z.of_nat (length ncs) -> i_type (node ROOTDEV mksb V x) = T_DIR ->
  e ∈ dir_entries V (node ROOTDEV mksb V x) -> de_inum e <> 0 -> 1 <= de_inum e <= 1 + Z.of_nat (length ncs).
Proof using All.
  intros Hx Ht He Hz. rewrite <- image_length in Hx. destruct (inode_of (root := root) x Hx) as (i & f & -> & Hf).
  destruct (built_node ROOTDEV Hb root_mod image_data i f Hf) as (type & n & Hin & _ & Hdir & _). destruct (node_at ROOTDEV Hin) as (Et & _). rewrite Et in Ht.
  destruct (Hdir Ht) as [-> _]. destruct image_root as (Hr & Hft & Hm & Hl & H16). pose proof image_count as Hc. rewrite <- (length_fmap fst).
  apply (root_closed ROOTDEV Hr Hft Hm (conj Hl H16)); [rewrite length_fmap; lia|done|done|done].
Qed.

Lemma image_file (i : nat) (nm c : list Z) : ncs !! i = Some (nm, c) -> let v := node ROOTDEV mksb V (2 + Z.of_nat i) in
  walk ROOTDEV mksb V false ROOTINO [nm] = Some (2 + Z.of_nat i) /\ i_type v = T_FILE /\ i_size v = Z.of_nat (length c) /\
  file_ok ROOTDEV FSSIZE V norefs nolocks v /\ fbytes V v 0 (length c) = c.
Proof using All.
  intros Hi v. split.
  { apply (image_walk (S (S i))). change (numbered 2 ncs.*1 !! i = Some (2 + Z.of_nat i, nm)). by rewrite numbered_lookup, list_lookup_fmap, Hi. }
  assert (exists f, files !! i = Some f /\ f_data f = c) as (f & Hf & <-).
  { assert ((f_data <$> files) !! i = Some c) as E by (by rewrite Hds, list_lookup_fmap, Hi). rewrite list_lookup_fmap in E.
    destruct (files !! i) as [f|]; [|done]. injection E as <-. by exists f. }
  pose proof (bt_files _ _ _ _ _ Hb i f Hf) as Hin. destruct (node_at ROOTDEV Hin) as (Et & _ & Es & _ & Hh). fold v in Et, Es, Hh.
  pose proof (lookup_lt_Some _ _ _ Hf) as Hlt.
  assert (length (f_data f) <= 1024 * length (f_bl f) /\ length (f_bl f) <= NDIRECT + NINDIRECT)%nat as [Hfit Hmax].
  { rewrite (hd_len _ _ _ _ _ Hh). split; [apply nblk_fits|apply nblk_max, image_data; right; by eapply list_elem_of_lookup_2]. }
  split_and!; [done|done|apply (built_ok ROOTDEV Hb root_mod image_data); lia|].
  unfold v. rewrite (node_bytes ROOTDEV Hin Hfit Hmax 0) by lia. apply list_eq. intros j. rewrite list_lookup_fmap.
  destruct (decide (j < length (f_data f))%nat) as [Hj|Hj].
  - rewrite lookup_seq_lt by done. cbn [fmap option_fmap option_map]. change (0 + (0 + j))%nat with j. by destruct (lookup_lt_is_Some_2 _ _ Hj) as [y ->].
  - by rewrite lookup_seq_ge, lookup_ge_None_2 by lia.
Qed.

Lemma image_used (x k : Z) : 1 <= x <= 1 + Z.of_nat (length ncs) -> 0 <= k -> k * BSIZE < i_size (node ROOTDEV mksb V x) ->
  nmeta <= fblk V (node ROOTDEV mksb V x) k < top.
Proof using All.
  intros Hx Hk Hlt. rewrite <- image_length in Hx. destruct (built_block ROOTDEV Hb root_mod image_data x k Hx Hk Hlt) as (i & f & _ & Hf & Hbl).
  apply (built_own _ _ _ _ _ f _ Hb); [by eapply list_elem_of_lookup_2|]. by eapply elem_owned, list_elem_of_lookup_2.
Qed.

Lemma image_apart (x y k l : Z) : 1 <= x <= 1 + Z.of_nat (length ncs) -> 1 <= y <= 1 + Z.of_nat (length ncs) -> 0 <= k -> 0 <= l ->
  k * BSIZE < i_size (node ROOTDEV mksb V x) -> l * BSIZE < i_size (node ROOTDEV mksb V y) ->
  fblk V (node ROOTDEV mksb V x) k = fblk V (node ROOTDEV mksb V y) l -> x = y /\ k = l.
Proof using All.
  intros Hx Hy Hk Hl Hkl Hll E. rewrite <- image_length in Hx, Hy. destruct (built_block ROOTDEV Hb root_mod image_data x k Hx Hk Hkl) as (i & f & -> & Hf & Hbf).
  destruct (built_block ROOTDEV Hb root_mod image_data y l Hy Hl Hll) as (j & g & -> & Hg & Hbg). rewrite E in Hbf.
  assert (NoDup ((root :: files) ≫= f_owned)) as Hn by (rewrite (bt_own _ _ _ _ _ Hb); apply NoDup_seqZ).
  assert (i = j) as ->.
  { eapply (bind_apart f_owned _ i j f g _ Hn Hf Hg); [exact (elem_owned _ _ _ (list_elem_of_lookup_2 _ _ _ Hbf))|exact (elem_owned _ _ _ (list_elem_of_lookup_2 _ _ _ Hbg))]. }
  rewrite Hf in Hg. injection Hg as ->. split; [done|]. rewrite (delete_Permutation _ j g Hf), bind_cons in Hn. apply list.NoDup_app in Hn as (Hn & _).
  pose proof (owned_inj _ _ _ _ _ Hn Hbf Hbg). lia.
Qed.
End image_of.

Lemma start_ok : exists s2 s3 s4, ialloc T_DIR fresh_image = Some (ROOTINO, s2) /\ iappend ROOTINO (entry ROOTINO (bytes_of ".")) s2 = Some s3 /\
  iappend ROOTINO (entry ROOTINO (bytes_of "..")) s3 = Some s4 /\ shape s4 (entry ROOTINO (bytes_of ".") ++ entry ROOTINO (bytes_of "..")) [] /\ low fresh_image s4.
Proof.
  destruct fresh_good as (Hg & _ & _). destruct (ialloc_ok fresh_image [] T_DIR Hg) as (s2 & E2 & Hg2 & Hl2); [done|done|].
  assert (shape s2 [] []) as Hs2 by (exists (File T_DIR [] [] 0), []; by split_and!).
  assert (forall l, Forall is_byte l -> length (entry ROOTINO l) = 16%nat /\ Forall is_byte (entry ROOTINO l)) as He by (intros; by apply entry_ok).
  destruct (He (bytes_of ".")) as [H1 H1b]; [by repeat constructor|]. destruct (He (bytes_of "..")) as [H2 H2b]; [by repeat constructor|]. pose proof max_bytes_Z.
  destruct (shape_root s2 [] (entry ROOTINO (bytes_of ".")) [] Hs2 H1b) as (s3 & E3 & Hs3 & Hl3); [cbn [app]; lia|cbn [app]; rewrite H1; by vm_compute|].
  destruct (shape_root s3 _ (entry ROOTINO (bytes_of "..")) [] Hs3 H2b) as (s4 & E4 & Hs4 & Hl4);
    [cbn [app]; rewrite length_app; lia|cbn [app]; rewrite length_app, H1, H2; by vm_compute|].
  exists s2, s3, s4. split_and!; [done|done|done|done|]. by transitivity s2; [|transitivity s3].
Qed.

(** A run of main. *)
Lemma main_ok (open : list Z -> option (list (list Z))) (args : list (list Z)) (ncs : list (list Z * list Z)) :
  let top := space (16 * (2 + length ncs)) ncs.*2 in
  Forall2 (offers open) args ncs -> Forall (fun nc => Forall is_byte nc.1) ncs -> Z.of_nat (length ncs) + 1 < 200 -> top <= FSSIZE ->
  exists s root files, main open args = Some (img s) /\ dsk s /\ (forall x, x < 32 -> blk s x = blk fresh_image x) /\
    (forall y, 0 <= y < 8192 -> bit (blk s) 45 y = (y <? top)) /\ f_data root = listing ncs.*1 ≫= entry_bytes /\ f_data <$> files = ncs.*2 /\
    built (blk s) top root (root_size (length (f_data root))) files.
Proof.
  intros top Hof Hby Hcount Hspace. pose proof max_bytes_Z as Hmz.
  destruct start_ok as (s2 & s3 & s4 & E2 & E3 & E4 & Hs4 & Hl4). set (rd0 := entry _ _ ++ entry _ _) in *. assert (length rd0 = 32%nat) as Hrd0 by (vm_compute; reflexivity).
  pose proof (length_entries 2 ncs Hby) as Hle. assert (length (rd0 ++ entries 2 ncs) = 16 * (2 + length ncs))%nat as Hrl by (rewrite length_app, Hle, Hrd0; lia).
  destruct (add_files_ok open args ncs s4 rd0 [] Hof Hs4) as (s5 & E5 & Hs5 & Hl5);
    [cbn [length]; unfold NINODES; lia|lia|rewrite <- Hle, <- length_app, Hrl; exact Hspace|].
  cbn [app length] in Hs5. change (2 + Z.of_nat 0) with 2 in Hs5. pose proof (shape_free _ _ _ Hs5) as Hfree. rewrite Hrl in Hfree. fold top in Hfree.
  destruct (fix_root_ok s5 _ _ Hs5) as (s6 & root & files & E6 & Hd6 & Hf6 & Hl6 & Er & Ed & Hb6); [lia|].
  destruct (balloc_ok s6 Hd6) as (s7 & E7 & Hd7 & Hoth & Hbit). rewrite <- Er, Hfree in Hb6.
  exists s7, root, files. split; [|clear E2 E3 E4 E5 E6 E7; split_and!].
  - unfold main. rewrite E2. cbn [mbind option_bind]. rewrite Z.eqb_refl. cbn [negb]. rewrite E3. cbn [mbind option_bind]. rewrite E4. cbn [mbind option_bind].
    rewrite E5. cbn [mbind option_bind]. rewrite E6. cbn [mbind option_bind]. rewrite E7. reflexivity.
  - exact Hd7.
  - intros x Hx. rewrite Hoth, Hl6, Hl5, Hl4 by lia. reflexivity.
  - intros y Hy. rewrite Hbit, Hf6, Hfree by lia. reflexivity.
  - rewrite Er, entries_numbered. unfold rd0. rewrite <- app_assoc. reflexivity.
  - exact Ed.
  - refine (built_bitmap _ _ _ _ _ _ Hoth _ _ Hb6); apply (dk_all _ Hd7); unfold FSSIZE; lia.
Qed.

(** C7. mkfs makes the file system that the kernel reads.  For files of the
    host that fit the image, with names that differ in their first 14
    characters, mkfs succeeds; on the disk that it writes the kernel's view of
    the superblock is the one meant, the log is empty, the bitmap has exactly
    the blocks in use, no block belongs to two files, every inode and directory
    entry meets the conditions under which [namex_walks] and [readi_reads] hold,
    and each name leads from the root to an inode with the bytes of the file. *)
Theorem mkfs_image (open : list Z -> option (list (list Z))) (args : list (list Z)) (ncs : list (list Z * list Z)) :
  Forall2 (offers open) args ncs -> Forall (fun nc => Forall (fun c => c <> 0) nc.1) ncs ->
  NoDup (take DIRSIZ <$> bytes_of "." :: bytes_of ".." :: ncs.*1) ->
  Z.of_nat (length ncs) + 1 < NINODES -> ((2 + length ncs) mod 64 <> 0)%nat -> space (16 * (2 + length ncs)) ncs.*2 <= FSSIZE ->
  exists im, main open args = Some im /\ image_of (fun x => im !!! x) ncs.
Proof.
  intros Hof Hz Hdup Hcount Hmod Hspace.
  assert (Forall (fun nc => Forall is_byte nc.1) ncs /\ Forall (fun nc => (length nc.2 <= max_bytes)%nat) ncs) as [Hby Hlen].
  { split; apply Forall_lookup; intros i nc Hi; destruct (Forall2_lookup_r _ _ _ _ _ Hof Hi) as (arg & _ & pieces & _ & _ & _ & _ & H1 & H2); assumption. }
  destruct (main_ok open args ncs Hof Hby Hcount Hspace) as (s & root & files & Em & Hd & Hlow & Hbit & Hroot & Ed & Hb).
  exists (img s). split; [exact Em|]. clear Em.
  assert (Forall (fun nm => Forall is_byte nm /\ Forall (fun c => c <> 0) nm) ncs.*1) as Hnm.
  { apply Forall_fmap, Forall_lookup. intros i nc Hi. split; [exact (Forall_lookup_1 _ _ _ _ Hby Hi)|exact (Forall_lookup_1 _ _ _ _ Hz Hi)]. }
  assert (NoDup (take DIRSIZ <$> (listing ncs.*1).*2)) as Hdup'.
  { replace ((listing ncs.*1).*2) with (bytes_of "." :: bytes_of ".." :: ncs.*1); [done|]. unfold listing. rewrite !fmap_cons. do 2 f_equal.
    apply list_eq. intros i. rewrite (list_lookup_fmap snd), numbered_lookup. by destruct (ncs.*1 !! i). }
  destruct fresh_good as (_ & Hsb & Hz0). change (image_of (blk s) ncs). split.
  - by apply dsk_bytes.
  - rewrite <- sb_block_reads. unfold superblock_on. by rewrite Hlow, Hsb by lia.
  - intros x Hx. change (2 <= x < 2 + 30) in Hx. rewrite Hlow by lia. apply Hz0; unfold FSSIZE; lia.
  - intros x Hx. change (sb_bmapstart mksb) with 45. unfold FSSIZE in Hx. by rewrite Hbit by lia.
  - intros x Hx. eapply (built_ok ROOTDEV Hb); [by eapply root_mod|by eapply image_data|by rewrite (image_length Ed)].
  - by eapply image_closed.
  - split; [by apply (image_walk Hb Hroot Ed Hnm Hdup' Hlen Hmod 0)|by apply (image_walk Hb Hroot Ed Hnm Hdup' Hlen Hmod 1)].
  - by eapply image_file.
  - by eapply image_used.
  - by eapply image_apart.
Qed.

(** A host with two files, the second of which needs an indirect block. *)
Definition demo_open (arg : list Z) : option (list (list Z)) :=
  if bool_decide (arg = bytes_of "user/_cat") then Some [bytes_of "elf"; bytes_of "code"]
  else if bool_decide (arg = bytes_of "README") then Some (replicate 13 (replicate 1024 65)) else None.

Lemma mkfs_image_witness : exists im, main demo_open [bytes_of "user/_cat"; bytes_of "README"] = Some im /\
  image_of (fun x => im !!! x) [(bytes_of "cat", bytes_of "elfcode"); (bytes_of "README", replicate (13 * 1024) 65)].
Proof.
  assert (forall l, forallb (fun b => (0 <=? b) && (b <? 256)) l = true -> Forall is_byte l) as Hb.
  { intros l Hl. apply list.Forall_forall. intros b Hin%list_elem_of_In. rewrite forallb_forall in Hl. specialize (Hl b Hin). unfold is_byte. lia. }
  assert (forall l n, forallb (fun b => (0 <=? b) && (b <? 256)) l = true -> Z.of_nat (length l) = n -> n <= 274432 ->
    Forall is_byte l /\ (length l <= max_bytes)%nat) as Hc by (intros l n Hl Hn Hle; pose proof max_bytes_Z; split; [by apply Hb|lia]).
  apply (mkfs_image demo_open).
  - constructor; [|constructor; [|constructor]].
    + exists [bytes_of "elf"; bytes_of "code"]. split_and!; [reflexivity|repeat constructor; done|reflexivity|by apply (bool_decide_unpack _); vm_compute| |].
      * apply Hb. reflexivity.
      * apply (Hc (bytes_of "elfcode") 7); [reflexivity|reflexivity|lia].
    + exists (replicate 13 (replicate 1024 65)). split_and!; [reflexivity| |vm_compute; reflexivity|by apply (bool_decide_unpack _); vm_compute| |].
      * apply Forall_replicate. split; [|done]. apply Forall_replicate. by vm_compute.
      * apply Hb. reflexivity.
      * apply (Hc (replicate (13 * 1024) 65) (13 * 1024)); [vm_compute; reflexivity|vm_compute; reflexivity|lia].
  - repeat constructor; by vm_compute.
  - apply (bool_decide_unpack _). vm_compute. exact I.
  - vm_compute. reflexivity.
  - vm_compute. discriminate.
  - vm_compute. discriminate.
Defined.
End Mkfs.
