(* ===== verification/Grep.v ===== *)
(** * grep (user/grep.c)

    The regular expression matcher by Kernighan and Pike, and the loop that
    reads a file in pieces and prints the lines that match.  A C string is the
    list of its bytes; the terminator is what lies beyond its end.  The
    theorems relate the matcher to the language of the expression, and the
    loop to the lines of the file, however [read] splits it. *)
From S2P Require Import Prelude.

Module Grep.

(** The character at the start of a string: [*s]. *)
Definition char_at (s : list Z) : Z := match s with [] => 0 | c :: _ => c end.

Definition CARET : Z := 94.
Definition STAR : Z := 42.
Definition DOLLAR : Z := 36.
Definition DOT : Z := 46.
Definition NEWLINE : Z := 10.

(** ** The matcher *)

(** The loop of matchstar, given matchhere for the rest of the expression. *)
Fixpoint matchstar_loop (matchhere : list Z -> bool) (c : Z) (text : list Z) : bool :=
  if matchhere text then true
  else match text with
       | [] => false
       | t :: text => if (t =? c) || (c =? DOT) then matchstar_loop matchhere c text else false
       end.

Fixpoint matchhere (re text : list Z) : bool :=
  match re with
  | [] => true
  | r0 :: re1 =>
    match re1 with
    | r1 :: re2 =>
      if r1 =? STAR then matchstar_loop (matchhere re2) r0 text
      else match text with
           | t :: text1 => if (r0 =? DOT) || (r0 =? t) then matchhere re1 text1 else false
           | [] => false
           end
    | [] =>
      if r0 =? DOLLAR then bool_decide (char_at text = 0)
      else match text with
           | t :: text1 => if (r0 =? DOT) || (r0 =? t) then matchhere re1 text1 else false
           | [] => false
           end
    end
  end.

Definition matchstar (c : Z) (re text : list Z) : bool := matchstar_loop (matchhere re) c text.

(** The loop of match, which also looks at the empty string at the end. *)
Fixpoint match_loop (re text : list Z) : bool :=
  if matchhere re text then true
  else match text with [] => false | _ :: text => match_loop re text end.

Definition match_ (re text : list Z) : bool :=
  match re with
  | r0 :: re1 => if r0 =? CARET then matchhere re1 text else match_loop re text
  | [] => match_loop re text
  end.

(** ** The loop *)

Definition BUF : nat := 1024.

(** user/ulib.c: the offset of the first [c] in a string *)
Fixpoint strchr (s : list Z) (c : Z) : option nat :=
  match s with
  | [] => None
  | x :: s => if x =? 0 then None else if x =? c then Some O else S <$> strchr s c
  end.

(** The lines in the buffer from position [p] on, and what is written. *)
Fixpoint grep_lines (fuel : nat) (pattern buf : list Z) (p : nat) (out : list (list Z))
    : option (list Z * nat * list (list Z)) :=
  match fuel with
  | O => None
  | S fuel =>
    match strchr (drop p buf) NEWLINE with
    | None => Some (buf, p, out)
    | Some k =>
      let q := (p + k)%nat in
      let buf := <[q := 0]> buf in
      if match_ pattern (cstr (drop p buf)) then
        let buf := <[q := NEWLINE]> buf in
        grep_lines fuel pattern buf (q + 1) (out ++ [slice buf p (q + 1 - p)])
      else grep_lines fuel pattern buf (q + 1) out
    end
  end.

(** A file descriptor from which the data comes in pieces: a [read] returns
    at most the next piece. *)
Definition read_fd (size : nat) (pieces : list (list Z)) : list Z * list (list Z) :=
  match pieces with
  | [] => ([], [])
  | b :: r => (take size b, if bool_decide (length b <= size)%nat then r else drop size b :: r)
  end.

Fixpoint grep_loop (fuel : nat) (pattern buf : list Z) (m : nat) (pieces : list (list Z)) (out : list (list Z))
    : option (list (list Z)) :=
  match fuel with
  | O => None
  | S fuel =>
    let (bs, pieces) := read_fd (BUF - m - 1) pieces in
    if bool_decide (length bs = O) then Some out
    else
      let buf := splice buf m bs in
      let m := (m + length bs)%nat in
      let buf := <[m := 0]> buf in
      match grep_lines BUF pattern buf 0 out with
      | None => None
      | Some (buf, p, out) =>
        let (buf, m) := if bool_decide (0 < m)%nat then (splice buf 0 (slice buf p (m - p)), (m - p)%nat) else (buf, m) in
        grep_loop fuel pattern buf m pieces out
      end
  end.

Definition grep (fuel : nat) (pattern buf : list Z) (pieces : list (list Z)) : option (list (list Z)) :=
  grep_loop fuel pattern buf 0 pieces [].

(** ** The language of an expression *)

(** One character, or any number of them, of a kind. *)
Inductive atom := One (c : Z) | Many (c : Z).
Definition accepts (c t : Z) : Prop := c = DOT \/ c = t.

(** The parts of an expression after [^]: its atoms, and whether [$] ends it. *)
Fixpoint atoms (re : list Z) : list atom * bool :=
  match re with
  | [] => ([], false)
  | r0 :: re1 =>
    match re1 with
    | r1 :: re2 =>
      if r1 =? STAR then let (l, e) := atoms re2 in (Many r0 :: l, e)
      else let (l, e) := atoms re1 in (One r0 :: l, e)
    | [] => if r0 =? DOLLAR then ([], true) else ([One r0], false)
    end
  end.

Inductive lang : list atom -> list Z -> Prop :=
  | lang_nil : lang [] []
  | lang_one c t l s : accepts c t -> lang l s -> lang (One c :: l) (t :: s)
  | lang_many c l s1 s2 : Forall (accepts c) s1 -> lang l s2 -> lang (Many c :: l) (s1 ++ s2).

(** A prefix of the text is in the language, all of it if [$] asks for that. *)
Definition here (re text : list Z) : Prop :=
  exists mid post, text = mid ++ post /\ lang (atoms re).1 mid /\ ((atoms re).2 = true -> post = []).

Definition found (re text : list Z) : Prop :=
  if bool_decide (char_at re = CARET) then here (tail re) text
  else exists pre rest, text = pre ++ rest /\ here re rest.

Lemma matchstar_loop_spec (mh : list Z -> bool) (c : Z) (text : list Z) :
  matchstar_loop mh c text = true <->
  exists s1 s2, text = s1 ++ s2 /\ Forall (accepts c) s1 /\ mh s2 = true.
Proof.
  induction text as [|t text IH]; simpl.
  - destruct (mh []) eqn:E; split; intros H; try done.
    + by exists [], [].
    + destruct H as (s1 & s2 & Hs & _ & H2). symmetry in Hs. apply app_nil in Hs as [-> ->]. congruence.
  - destruct (mh (t :: text)) eqn:E; [split; [by exists [], (t :: text)|done]|].
    assert (((t =? c) || (c =? DOT)) = true <-> accepts c t) as Ha.
    { unfold accepts. rewrite orb_true_iff, !Z.eqb_eq. split; lia. }
    destruct ((t =? c) || (c =? DOT)) eqn:Ec.
    + rewrite IH. split; intros (s1 & s2 & Hs & H1 & H2).
      * exists (t :: s1), s2. subst. split; [done|]. split; [|done]. constructor; [by apply Ha|done].
      * destruct s1 as [|t' s1]; simpl in Hs; [congruence|]. injection Hs as <- ->.
        apply list.Forall_cons in H1 as [_ H1]. by exists s1, s2.
    + split; [done|]. intros (s1 & s2 & Hs & H1 & H2).
      destruct s1 as [|t' s1]; simpl in Hs; [congruence|]. injection Hs as <- ->.
      apply list.Forall_cons in H1 as [H1 _]. by apply Ha in H1.
Qed.

Lemma here_one (r : Z) (re : list Z) (text : list Z) :
  (atoms (r :: re)) = (One r :: (atoms re).1, (atoms re).2) ->
  here (r :: re) text <-> exists t rest, text = t :: rest /\ accepts r t /\ here re rest.
Proof.
  intros Ha. unfold here. rewrite Ha. simpl. split.
  - intros (mid & post & -> & Hl & Hp). inversion Hl as [|c t l s Hc Hs|]; subst.
    exists t, (s ++ post). split; [done|]. split; [done|]. by exists s, post.
  - intros (t & rest & -> & Hc & mid & post & -> & Hl & Hp).
    exists (t :: mid), post. split; [done|]. split; [by constructor|done].
Qed.

Lemma here_many (r : Z) (re text : list Z) :
  here (r :: STAR :: re) text <->
  exists s1 s2, text = s1 ++ s2 /\ Forall (accepts r) s1 /\ here re s2.
Proof.
  unfold here. simpl. destruct (atoms re) as [l e]. simpl. split.
  - intros (mid & post & -> & Hl & Hp). inversion Hl as [| |c l' s1 s2 Hc Hs]; subst.
    exists s1, (s2 ++ post). rewrite app_assoc. split; [done|]. split; [done|]. by exists s2, post.
  - intros (s1 & s2 & -> & Hc & mid & post & -> & Hl & Hp).
    exists (s1 ++ mid), post. rewrite app_assoc. split; [done|]. split; [by constructor|done].
Qed.

Lemma take_one (r : Z) (re text : list Z) :
  (forall text, Forall (fun c => c <> 0) text -> matchhere re text = true <-> here re text) ->
  (atoms (r :: re)) = (One r :: (atoms re).1, (atoms re).2) -> Forall (fun c => c <> 0) text ->
  match text with
  | t :: text1 => if (r =? DOT) || (r =? t) then matchhere re text1 else false
  | [] => false
  end = true <-> here (r :: re) text.
Proof.
  intros IH Ha Ht. rewrite here_one by done. destruct text as [|t text].
  - split; [done|]. by intros (? & ? & ? & _).
  - apply list.Forall_cons in Ht as [_ Ht]. destruct ((r =? DOT) || (r =? t)) eqn:E.
    + rewrite IH by done. split; [|by intros (? & ? & [= <- <-] & _ & ?)].
      intros Hh. exists t, text. split; [done|]. split; [|done]. unfold accepts. lia.
    + split; [done|]. intros (t' & rest & [= <- <-] & Hc & _). unfold accepts in Hc. lia.
Qed.

Lemma matchhere_spec (re text : list Z) :
  Forall (fun c => c <> 0) text -> matchhere re text = true <-> here re text.
Proof.
  revert text. induction re as [re IH] using (induction_ltof1 _ (@length Z)). unfold ltof in IH.
  intros text Ht. destruct re as [|r0 [|r1 re]].
  - split; [intros _; by exists [], text; repeat constructor|done].
  - simpl matchhere. destruct (r0 =? DOLLAR) eqn:E.
    + unfold here. simpl. rewrite E. simpl. rewrite bool_decide_eq_true. split.
      * intros H. destruct text; [by exists [], []; repeat constructor|].
        apply list.Forall_cons in Ht as [Ht _]. by simpl in H.
      * intros (mid & post & -> & Hl & Hp). inversion Hl. by rewrite Hp.
    + apply (take_one r0 []); [intros; apply IH; [simpl; lia|done]|simpl; by rewrite E|done].
  - cbn [matchhere]. destruct (r1 =? STAR) eqn:E.
    + apply Z.eqb_eq in E as ->. rewrite here_many, matchstar_loop_spec.
      pose proof (IH re ltac:(simpl; lia)) as Hre. split.
      * intros (s1 & s2 & -> & H1 & H2). apply list.Forall_app in Ht as [_ Ht].
        exists s1, s2. split; [done|]. split; [done|]. by apply (proj1 (Hre s2 Ht)).
      * intros (s1 & s2 & -> & H1 & H2). apply list.Forall_app in Ht as [_ Ht].
        exists s1, s2. split; [done|]. split; [done|]. by apply (proj2 (Hre s2 Ht)).
    + apply (take_one r0 (r1 :: re)); [intros; apply IH; [simpl; lia|done]| |done].
      cbn [atoms]. rewrite E. by match goal with |- (let (_, _) := ?x in _) = _ => destruct x end.
Qed.

Lemma match_loop_spec (re text : list Z) :
  Forall (fun c => c <> 0) text ->
  match_loop re text = true <-> exists pre rest, text = pre ++ rest /\ here re rest.
Proof.
  induction text as [|t text IH]; intros Ht; cbn [match_loop].
  - pose proof (matchhere_spec re [] Ht) as H. destruct (matchhere re []) eqn:E.
    + split; [intros _; exists [], []; split; [done|by apply H]|done].
    + split; [done|]. intros (pre & rest & Hp & Hh). symmetry in Hp. apply app_nil in Hp as [-> ->]. by apply H in Hh.
  - pose proof (matchhere_spec re (t :: text) Ht) as H. destruct (matchhere re (t :: text)) eqn:E.
    + split; [intros _; exists [], (t :: text); split; [done|by apply H]|done].
    + apply list.Forall_cons in Ht as [_ Ht]. rewrite (IH Ht). split.
      * intros (pre & rest & -> & Hh). by exists (t :: pre), rest.
      * intros (pre & rest & Hp & Hh). destruct pre as [|t' pre]; simpl in Hp.
        -- subst rest. by apply H in Hh.
        -- injection Hp as <- ->. by exists pre, rest.
Qed.

(** C36. The matcher of grep decides the language of its expression: match
    returns 1 exactly when a part of the text is in the language of the
    expression, a part at the start if the expression begins with [^], at the
    end if it ends with [$]. *)
Theorem match_decides (re text : list Z) :
  Forall (fun c => c <> 0) text -> match_ re text = true <-> found re text.
Proof.
  intros Ht. unfold match_, found. destruct re as [|r0 re]; [by apply match_loop_spec|].
  cbn [char_at tail]. destruct (r0 =? CARET) eqn:E.
  - rewrite bool_decide_eq_true_2 by lia. by apply matchhere_spec.
  - rewrite bool_decide_eq_false_2 by lia. by apply match_loop_spec.
Qed.

(** ** What grep prints *)

(** The lines of [s] that match, the first of them continuing [cur]. *)
Fixpoint report (re cur s : list Z) : list (list Z) :=
  match s with
  | [] => []
  | c :: s => if c =? NEWLINE then (if match_ re cur then [cur ++ [NEWLINE]] else []) ++ report re [] s
              else report re (cur ++ [c]) s
  end.

(** Every line of [s] fits the buffer, the first of them after [n] characters. *)
Fixpoint fits (n : nat) (s : list Z) : bool :=
  match s with
  | [] => true
  | c :: s => if c =? NEWLINE then (n <=? 1022)%nat && fits 0 s else fits (S n) s
  end.

Lemma report_line (re cur l s : list Z) :
  Forall (fun c => c <> NEWLINE) l -> report re cur (l ++ s) = report re (cur ++ l) s.
Proof.
  intros Hl. revert cur. induction Hl as [|c l Hc _ IH]; intros cur; simpl; [by rewrite app_nil_r|].
  rewrite (proj2 (Z.eqb_neq _ _)) by done. rewrite IH. by rewrite <- app_assoc.
Qed.
Lemma fits_line (n : nat) (l s : list Z) :
  Forall (fun c => c <> NEWLINE) l -> fits n (l ++ s) = fits (n + length l) s.
Proof.
  intros Hl. revert n. induction Hl as [|c l Hc _ IH]; intros n; simpl; [by rewrite Nat.add_0_r|].
  rewrite (proj2 (Z.eqb_neq _ _)) by done. rewrite IH. f_equal. lia.
Qed.
Lemma fits_full (n : nat) (re cur s : list Z) : (1022 < n)%nat -> fits n s = true -> report re cur s = [].
Proof.
  revert n cur. induction s as [|c s IH]; intros n cur Hn Hf; simpl in *; [done|].
  destruct (c =? NEWLINE).
  - apply andb_true_iff in Hf as [Hf _]. apply Nat.leb_le in Hf. lia.
  - apply (IH (S n)); [lia|done].
Qed.

Lemma strchr_spec (s r : list Z) :
  Forall (fun c => c <> 0) s ->
  match strchr (s ++ 0 :: r) NEWLINE with
  | None => Forall (fun c => c <> NEWLINE) s
  | Some k => exists l s', s = l ++ NEWLINE :: s' /\ length l = k /\ Forall (fun c => c <> NEWLINE) l
  end.
Proof.
  induction 1 as [|c s Hc _ IH]; simpl; [done|].
  rewrite (proj2 (Z.eqb_neq c 0)) by done. destruct (c =? NEWLINE) eqn:E.
  - apply Z.eqb_eq in E as ->. by exists [], s.
  - apply Z.eqb_neq in E. destruct (strchr (s ++ 0 :: r) NEWLINE) as [k|]; simpl.
    + destruct IH as (l & s' & -> & <- & Hl). exists (c :: l), s'. split; [done|]. split; [done|]. by constructor.
    + by constructor.
Qed.

(** What the inner loop does with the string [s] at position [p]. *)
Definition scanned (re s : list Z) (p : nat) (W : list (list Z)) (p' : nat) (cur : list Z) : Prop :=
  (p + length s = p' + length cur)%nat /\ Forall (fun c => c <> NEWLINE) cur /\ Forall (fun c => c <> 0) cur /\
  (forall rest, report re [] (s ++ rest) = W ++ report re cur rest) /\
  (forall rest, fits 0 (s ++ rest) = true -> fits (length cur) rest = true).

Lemma scanned_step (re l s : list Z) (p : nat) (W : list (list Z)) (p' : nat) (cur : list Z) :
  Forall (fun c => c <> NEWLINE) l -> scanned re s (p + length l + 1) W p' cur ->
  scanned re (l ++ NEWLINE :: s) p ((if match_ re l then [l ++ [NEWLINE]] else []) ++ W) p' cur.
Proof.
  intros Hl (H1 & H2 & H3 & H4 & H5). split; [rewrite length_app; simpl; lia|]. split; [done|]. split; [done|]. split.
  - intros rest. rewrite <- app_assoc. rewrite report_line by done. simpl. by rewrite H4, app_assoc.
  - intros rest. rewrite <- app_assoc. rewrite fits_line by done. simpl. rewrite andb_true_iff. intros [_ Hf]. by apply H5.
Qed.

Lemma grep_lines_spec (fuel : nat) (re buf s r : list Z) (p : nat) (out : list (list Z)) :
  drop p buf = s ++ 0 :: r -> (p <= length buf)%nat -> Forall (fun c => c <> 0) s -> (length s < fuel)%nat ->
  exists buf' p' W cur r', grep_lines fuel re buf p out = Some (buf', p', out ++ W) /\
    length buf' = length buf /\ drop p' buf' = cur ++ 0 :: r' /\ scanned re s p W p' cur.
Proof.
  revert buf s p out. induction fuel as [|fuel IH]; intros buf s p out Hd Hp Hz Hf; [lia|].
  cbn [grep_lines]. rewrite Hd. pose proof (strchr_spec s r Hz) as Hs.
  destruct (strchr (s ++ 0 :: r) NEWLINE) as [k|].
  - destruct Hs as (l & s' & -> & <- & Hl). apply list.Forall_app in Hz as [Hzl Hzs].
    apply list.Forall_cons in Hzs as [_ Hzs]. rewrite length_app in Hf. simpl in Hf.
    assert (buf = take p buf ++ l ++ NEWLINE :: s' ++ 0 :: r) as Hbuf.
    { rewrite <- (take_drop p buf) at 1. by rewrite Hd, <- app_assoc. }
    assert (length (take p buf) = p) as Ht by (rewrite length_take; lia).
    remember (take p buf) as pre eqn:Epre. clear Epre Hd. subst buf.
    rewrite !length_app in Hp. simpl in Hp. subst p.
    assert (forall c c', <[(length pre + length l)%nat := c]> (pre ++ l ++ c' :: s' ++ 0 :: r) = pre ++ l ++ c :: s' ++ 0 :: r) as Hins.
    { intros c c'. rewrite insert_app_r. f_equal. rewrite <- (Nat.add_0_r (length l)). by rewrite insert_app_r. }
    rewrite Hins. rewrite drop_app_length, cstr_string by done. rewrite Hins.
    assert (forall c, drop (length pre + length l + 1) (pre ++ l ++ c :: s' ++ 0 :: r) = s' ++ 0 :: r) as Hdr.
    { intros c. rewrite app_assoc. rewrite <- length_app. rewrite drop_app_add. done. }
    assert (forall c, length (pre ++ l ++ c :: s' ++ 0 :: r) = length (pre ++ l ++ NEWLINE :: s' ++ 0 :: r)) as Hlen.
    { intros c. rewrite !length_app. done. }
    destruct (match_ re l) eqn:E.
    + destruct (IH (pre ++ l ++ NEWLINE :: s' ++ 0 :: r) s' (length pre + length l + 1)%nat
                  (out ++ [slice (pre ++ l ++ NEWLINE :: s' ++ 0 :: r) (length pre) (length pre + length l + 1 - length pre)]))
        as (buf' & p' & W & cur & r' & He & Hl' & Hd' & Hsc); [done|rewrite !length_app; simpl; lia|done|lia|].
      rewrite He. exists buf', p', ([l ++ [NEWLINE]] ++ W), cur, r'.
      split; [|split; [done|split; [done|]]].
      * do 2 f_equal. rewrite <- app_assoc. f_equal. simpl. f_equal. unfold slice. rewrite drop_app_length.
        replace (length pre + length l + 1 - length pre)%nat with (length l + 1)%nat by lia.
        by rewrite take_app_add.
      * pose proof (scanned_step re l s' (length pre) W p' cur Hl Hsc) as H. by rewrite E in H.
    + destruct (IH (pre ++ l ++ 0 :: s' ++ 0 :: r) s' (length pre + length l + 1)%nat out)
        as (buf' & p' & W & cur & r' & He & Hl' & Hd' & Hsc); [done|rewrite !length_app; simpl; lia|done|lia|].
      rewrite He. exists buf', p', W, cur, r'. split; [done|]. split; [by rewrite Hl'|]. split; [done|].
      pose proof (scanned_step re l s' (length pre) W p' cur Hl Hsc) as H. by rewrite E in H.
  - exists buf, p, [], s, r. rewrite app_nil_r. split; [done|]. split; [done|]. split; [done|].
    split; [done|]. split; [done|]. split; [done|]. split.
    + intros rest. by rewrite report_line.
    + intros rest. by rewrite fits_line.
Qed.

Lemma read_fd_spec (size : nat) (pieces : list (list Z)) :
  Forall (fun b => b <> []) pieces ->
  let (bs, rest) := read_fd size pieces in
  concat pieces = bs ++ concat rest /\ (length bs <= size)%nat /\ Forall (fun b => b <> []) rest /\
  (bs = [] -> size = O \/ pieces = []).
Proof.
  intros Hp. unfold read_fd. destruct pieces as [|b r]; [simpl; split; [done|]; split; [lia|]; auto|].
  apply list.Forall_cons in Hp as [Hb Hr]. destruct (bool_decide_reflect (length b <= size)%nat) as [H|H].
  - rewrite take_ge by done. split; [done|]. split; [done|]. split; [done|]. by intros ->.
  - simpl. rewrite app_assoc, take_drop. split; [done|]. split; [rewrite length_take; lia|]. split.
    + constructor; [|done]. intros Hd. apply (f_equal length) in Hd. rewrite length_drop in Hd. simpl in Hd. lia.
    + intros Ht. apply (f_equal length) in Ht. rewrite length_take in Ht. simpl in Ht.
      left. destruct b; [done|]. simpl in Ht. lia.
Qed.

(** The buffer after a read: what was there, the new bytes, a terminator. *)
Lemma filled_buf (buf bs : list Z) (m : nat) :
  length buf = BUF -> (m + length bs <= 1023)%nat ->
  exists r, <[(m + length bs)%nat := 0]> (splice buf m bs) = (take m buf ++ bs) ++ 0 :: r /\
    length ((take m buf ++ bs) ++ 0 :: r) = BUF.
Proof.
  unfold BUF. intros Hb Hm. exists (drop (m + length bs + 1) buf).
  assert (length (take m buf) = m) as Ht by (rewrite length_take; lia).
  split; [|rewrite !length_app, Ht; simpl; rewrite length_drop; lia].
  unfold splice. rewrite app_assoc.
  destruct (drop (m + length bs) buf) as [|c r] eqn:Hd.
  { apply (f_equal length) in Hd. rewrite length_drop in Hd. simpl in Hd. lia. }
  replace (drop (m + length bs + 1) buf) with r by (rewrite <- drop_drop, Hd; done).
  replace (m + length bs)%nat with (length (take m buf ++ bs) + 0)%nat by (rewrite length_app; lia).
  by rewrite insert_app_r.
Qed.

Lemma grep_loop_spec (fuel : nat) (re buf cur : list Z) (m : nat) (pieces out : list (list Z)) :
  length buf = BUF -> (m <= 1023)%nat -> take m buf = cur ->
  Forall (fun c => c <> NEWLINE) cur -> Forall (fun c => c <> 0) cur ->
  Forall (fun b => b <> []) pieces -> Forall (fun c => c <> 0) (concat pieces) ->
  fits m (concat pieces) = true -> (length (concat pieces) < fuel)%nat ->
  grep_loop fuel re buf m pieces out = Some (out ++ report re cur (concat pieces)).
Proof.
  revert buf cur m pieces out. induction fuel as [|fuel IH]; intros buf cur m pieces out Hb Hm Hcur Hn Hz Hp Hc Hf Hl; [lia|].
  cbn [grep_loop]. pose proof (read_fd_spec (BUF - m - 1) pieces Hp) as Hr.
  destruct (read_fd (BUF - m - 1) pieces) as [bs rest]. destruct Hr as (Hcat & Hsz & Hp' & Hend).
  assert (length cur = m) as Hlc by (rewrite <- Hcur, length_take; unfold BUF in *; lia).
  destruct (bool_decide_reflect (length bs = O)) as [E|E].
  { apply nil_length_inv in E. destruct (Hend E) as [H0| ->].
    - rewrite (fits_full m) by (unfold BUF in *; lia || done). by rewrite app_nil_r.
    - by rewrite app_nil_r. }
  rewrite Hcat in Hc, Hf, Hl |- *. apply list.Forall_app in Hc as [Hcb Hcr]. rewrite length_app in Hl.
  destruct (filled_buf buf bs m) as (r & Hfill & Hlen); [done|unfold BUF in *; lia|].
  rewrite Hfill, Hcur in *.
  destruct (grep_lines_spec BUF re ((cur ++ bs) ++ 0 :: r) (cur ++ bs) r 0 out)
    as (buf' & p' & W & cur' & r' & -> & Hl' & Hd' & S1 & S2 & S3 & S4 & S5);
    [done|lia|by apply list.Forall_app|rewrite length_app; unfold BUF in *; lia|].
  rewrite length_app in S1. rewrite bool_decide_eq_true_2 by lia.
  assert (m + length bs - p' = length cur')%nat as -> by lia.
  assert (slice buf' p' (length cur') = cur') as -> by (unfold slice; by rewrite Hd', take_app_length).
  rewrite (IH _ cur'); try done.
  - rewrite <- app_assoc. do 2 f_equal. rewrite <- S4, <- app_assoc. rewrite report_line by done. done.
  - rewrite length_splice; [congruence|]. rewrite Hl', Hlen. unfold BUF in *. lia.
  - unfold BUF in *. lia.
  - unfold splice. simpl. by rewrite take_app_length.
  - apply S5. rewrite <- app_assoc, fits_line by done. simpl. by rewrite Hlc.
  - lia.
Qed.

(** grep prints exactly the matching lines of its input, in order, and
    terminates, however [read] cuts the input into pieces: every line that
    fits the buffer of 1024 bytes with its newline and a terminator is seen
    whole.  A last line without a newline is not looked at. *)
Theorem grep_prints_lines (re buf : list Z) (pieces : list (list Z)) :
  length buf = BUF -> Forall (fun b => b <> []) pieces -> Forall (fun c => c <> 0) (concat pieces) ->
  fits 0 (concat pieces) = true ->
  forall fuel, (length (concat pieces) < fuel)%nat ->
  grep fuel re buf pieces = Some (report re [] (concat pieces)).
Proof.
  intros Hb Hp Hz Hf fuel Hl. unfold grep.
  rewrite (grep_loop_spec fuel re buf []); try done. lia.
Qed.

Lemma match_decides_witness : match_ (bytes_of "^a.*$") (bytes_of "abc") = true <-> found (bytes_of "^a.*$") (bytes_of "abc").
Proof. apply (match_decides (bytes_of "^a.*$") (bytes_of "abc")). repeat constructor; done. Defined.

Lemma grep_prints_lines_witness :
  grep 20 (bytes_of "a") (replicate BUF 0) [bytes_of "b"; 10 :: bytes_of "ca"; [10]; bytes_of "a"]
  = Some [bytes_of "ca" ++ [10]].
Proof.
  apply (grep_prints_lines (bytes_of "a") (replicate BUF 0) [bytes_of "b"; 10 :: bytes_of "ca"; [10]; bytes_of "a"]).
  - reflexivity.
  - repeat constructor; done.
  - repeat constructor; done.
  - reflexivity.
  - simpl. lia.
Defined.
End Grep.
