(* ===== verification/Sh.v ===== *)
(** * The shell's parser (user/sh.c)

    A command line is parsed in place: the tree refers to the words by the
    positions of their ends in the buffer, and [nulterminate] cuts the words
    off afterwards.  The buffer is the list of its bytes before the
    terminator; a position is an index of it.  The theorems say that the
    parser terminates on every line, and that it reads back every command
    from its printed form. *)
From S2P Require Import Prelude.

Module Sh.

Definition MAXARGS : nat := 10.

(** Where a word starts and ends: argv[i] and eargv[i]; file and efile. *)
Definition word : Type := nat * nat.

Inductive cmd :=
  | Exec (argv : list word)
  | Redir (c : cmd) (file : word) (mode fd : Z)
  | Pipe (left right : cmd)
  | List_ (left right : cmd)
  | Back (c : cmd).

Definition O_RDONLY : Z := 0x000.
Definition O_WRONLY : Z := 0x001.
Definition O_CREATE : Z := 0x200.
Definition O_TRUNC : Z := 0x400.

Definition whitespace : list Z := [32; 9; 13; 10; 11].
Definition symbols : list Z := [60; 124; 62; 38; 59; 40; 41].
Definition is_in (l : list Z) (c : Z) : bool := bool_decide (c ∈ l).

(** ** Tokens *)
Section buffer.
Context (buf : list Z).

Definition es : nat := length buf.
Definition char (s : nat) : Z := default 0 (buf !! s).

(** while(s < es && p(STAR s)) s++ *)
Fixpoint run_length (p : Z -> bool) (l : list Z) : nat :=
  match l with
  | c :: l => if p c then S (run_length p l) else O
  | [] => O
  end.
Definition scan (p : Z -> bool) (s : nat) : nat := (s + run_length p (drop s buf))%nat.
Definition skip (s : nat) : nat := scan (is_in whitespace) s.

Record token := Token { tk : Z; tq : nat; teq : nat }.

Definition gettoken (ps : nat) : token * nat :=
  let s := skip ps in
  let q := s in
  let ret := char s in
  let '(ret, s) :=
    if ret =? 0 then (ret, s)
    else if is_in [124; 40; 41; 59; 38; 60] ret then (ret, S s)
    else if ret =? 62 then
      if char (S s) =? 62 then (43, S (S s)) else (ret, S s)
    else (97, scan (fun c => negb (is_in whitespace c) && negb (is_in symbols c)) s) in
  let eq := s in
  (Token ret q eq, skip s).

Definition peek (ps : nat) (toks : list Z) : bool * nat :=
  let s := skip ps in
  (negb (char s =? 0) && is_in toks (char s), s).
End buffer.

(** ** The parser *)

(** panic ends the shell's child; running out of fuel is an outcome of its own. *)
Inductive res A := Done (a : A) | Panic (msg : string) | NoFuel.
Arguments Done {A} _.
Arguments Panic {A} _.
Arguments NoFuel {A}.
Definition rbind {A B} (m : res A) (f : A -> res B) : res B :=
  match m with Done a => f a | Panic s => Panic s | NoFuel => NoFuel end.
Declare Scope sh_scope.
Notation "'let*' x := m 'in' k" := (rbind m (fun x => k)) (at level 10, x pattern, k at level 200) : sh_scope.
Local Open Scope sh_scope.

Section parser.
Context (buf : list Z).

(** A redirection: file, mode and descriptor of redircmd. *)
Definition redir : Type := word * Z * Z.
Definition redircmd (c : cmd) (r : redir) : cmd := let '(f, mode, fd) := r in Redir c f mode fd.

(** The redirections that parseredirs reads, in order; it wraps its command
    in each of them. *)
Fixpoint redirs (fuel : nat) (ps : nat) : res (list redir * nat) :=
  match fuel with
  | O => NoFuel
  | S fuel =>
    let (more, ps) := peek buf ps [60; 62] in
    if more then
      let (tok, ps) := gettoken buf ps in
      let (name, ps) := gettoken buf ps in
      if tk name =? 97 then
        let* (l, ps) := redirs fuel ps in
        let w := (tq name, teq name) in
        if tk tok =? 60 then Done ((w, O_RDONLY, 0) :: l, ps)
        else if tk tok =? 62 then Done ((w, Z.lor (Z.lor O_WRONLY O_CREATE) O_TRUNC, 1) :: l, ps)
        else if tk tok =? 43 then Done ((w, Z.lor O_WRONLY O_CREATE, 1) :: l, ps)
        else Done (l, ps)
      else Panic "missing file for redirection"
    else Done ([], ps)
  end.
Definition parseredirs (fuel : nat) (c : cmd) (ps : nat) : res (cmd * nat) :=
  let* (l, ps) := redirs fuel ps in Done (fold_left redircmd l c, ps).

(** The loop of parseexec.  The arguments go into the struct execcmd that
    the redirections already read are wrapped around. *)
Fixpoint parseargs (fuel : nat) (argv : list word) (rs : list redir) (ps : nat) : res (list word * list redir * nat) :=
  match fuel with
  | O => NoFuel
  | S fuel =>
    let (stop, ps) := peek buf ps [124; 41; 38; 59] in
    if stop then Done (argv, rs, ps)
    else
      let (tok, ps) := gettoken buf ps in
      if tk tok =? 0 then Done (argv, rs, ps)
      else if negb (tk tok =? 97) then Panic "syntax"
      else
        let argv := argv ++ [(tq tok, teq tok)] in
        if (MAXARGS <=? length argv)%nat then Panic "too many args"
        else
          let* (l, ps) := redirs fuel ps in
          parseargs fuel argv (rs ++ l) ps
  end.

(** while(peek(ps, es, "&")): the number of times *)
Fixpoint backs (fuel : nat) (c : cmd) (ps : nat) : res (cmd * nat) :=
  match fuel with
  | O => NoFuel
  | S fuel =>
    let (more, ps) := peek buf ps [38] in
    if more then let (_, ps) := gettoken buf ps in backs fuel (Back c) ps
    else Done (c, ps)
  end.

Fixpoint parseline (fuel : nat) (ps : nat) : res (cmd * nat) :=
  match fuel with
  | O => NoFuel
  | S fuel =>
    let* (c, ps) := parsepipe fuel ps in
    let* (c, ps) := backs fuel c ps in
    let (more, ps) := peek buf ps [59] in
    if more then
      let (_, ps) := gettoken buf ps in
      let* (r, ps) := parseline fuel ps in
      Done (List_ c r, ps)
    else Done (c, ps)
  end
with parsepipe (fuel : nat) (ps : nat) : res (cmd * nat) :=
  match fuel with
  | O => NoFuel
  | S fuel =>
    let* (c, ps) := parseexec fuel ps in
    let (more, ps) := peek buf ps [124] in
    if more then
      let (_, ps) := gettoken buf ps in
      let* (r, ps) := parsepipe fuel ps in
      Done (Pipe c r, ps)
    else Done (c, ps)
  end
with parseexec (fuel : nat) (ps : nat) : res (cmd * nat) :=
  match fuel with
  | O => NoFuel
  | S fuel =>
    let (block, ps) := peek buf ps [40] in
    if block then parseblock fuel ps
    else
      let* (rs, ps) := redirs fuel ps in
      let* (argv, rs, ps) := parseargs fuel [] rs ps in
      Done (fold_left redircmd rs (Exec argv), ps)
  end
with parseblock (fuel : nat) (ps : nat) : res (cmd * nat) :=
  match fuel with
  | O => NoFuel
  | S fuel =>
    let (ok, ps) := peek buf ps [40] in
    if negb ok then Panic "parseblock"
    else
      let (_, ps) := gettoken buf ps in
      let* (c, ps) := parseline fuel ps in
      let (ok, ps) := peek buf ps [41] in
      if negb ok then Panic "syntax - missing )"
      else
        let (_, ps) := gettoken buf ps in
        parseredirs fuel c ps
  end.
End parser.

(** The buffer with a terminator written at the end of every word. *)
Fixpoint nulterminate (c : cmd) (buf : list Z) : list Z :=
  match c with
  | Exec argv => fold_left (fun buf w => <[w.2 := 0]> buf) argv buf
  | Redir c f _ _ => let buf := nulterminate c buf in <[f.2 := 0]> buf
  | Pipe l r | List_ l r => nulterminate r (nulterminate l buf)
  | Back c => nulterminate c buf
  end.

Definition parsecmd (fuel : nat) (s : list Z) : res (cmd * list Z) :=
  let* (c, ps) := parseline s fuel 0 in
  let (_, ps) := peek s ps [] in
  if bool_decide (ps <> length s) then Panic "syntax"
  else Done (c, nulterminate c s).

(** ** Positions move forward *)
Section progress.
Context (buf : list Z).
Abbreviation es := (es buf).

Lemma run_length_le (p : Z -> bool) (l : list Z) : (run_length p l <= length l)%nat.
Proof. induction l as [|c l IH]; simpl; [done|]. destruct (p c); lia. Qed.

Lemma scan_range (p : Z -> bool) (s : nat) : (s <= es)%nat -> (s <= scan buf p s <= es)%nat.
Proof.
  intros Hs. unfold scan. pose proof (run_length_le p (drop s buf)) as H. rewrite length_drop in H.
  unfold Sh.es in *. lia.
Qed.
Lemma skip_range (s : nat) : (s <= es)%nat -> (s <= skip buf s <= es)%nat.
Proof. apply scan_range. Qed.

Lemma char_range (s : nat) : char buf s <> 0 -> (s < es)%nat.
Proof.
  unfold char, Sh.es. intros H. destruct (buf !! s) eqn:E; [|done]. by apply lookup_lt_Some in E.
Qed.

Lemma scan_progress (p : Z -> bool) (s : nat) : (s < es)%nat -> p (char buf s) = true -> (s < scan buf p s)%nat.
Proof.
  unfold char, Sh.es, scan. intros Hs Hp. destruct (buf !! s) as [c|] eqn:E; [|by apply lookup_ge_None in E; lia].
  rewrite (drop_S _ c) by done. simpl in *. rewrite Hp. lia.
Qed.

(** The characters at which a token other than the last starts. *)
Lemma skip_stops (s : nat) : is_in whitespace (char buf (skip buf s)) = false.
Proof.
  unfold skip, scan, char. rewrite <- lookup_drop. induction (drop s buf) as [|c l IH]; [done|].
  simpl. destruct (is_in whitespace c) eqn:E; [exact IH|exact E].
Qed.

Lemma gettoken_progress (ps : nat) :
  (ps <= es)%nat ->
  let '(t, ps') := gettoken buf ps in
  (ps <= ps' <= es)%nat /\ (tk t = 0 <-> char buf (skip buf ps) = 0) /\ (tk t <> 0 -> (ps < ps')%nat).
Proof.
  intros Hps. pose proof (skip_range ps Hps) as Hr. pose proof (skip_stops ps) as Hst.
  unfold gettoken. cbv zeta. set (s := skip buf ps) in *. clearbody s.
  destruct (char buf s =? 0) eqn:E0.
  { apply Z.eqb_eq in E0. pose proof (skip_range s). simpl. rewrite E0. split; [lia|]. by split. }
  apply Z.eqb_neq in E0. pose proof (char_range s E0) as Hs.
  destruct (is_in [124; 40; 41; 59; 38; 60] (char buf s)) eqn:E1.
  { pose proof (skip_range (S s)). simpl. split; [lia|]. split; [done|lia]. }
  destruct (char buf s =? 62) eqn:E2.
  { destruct (char buf (S s) =? 62) eqn:E3.
    - apply Z.eqb_eq in E3. assert (S s < es)%nat by (apply char_range; lia).
      pose proof (skip_range (S (S s))). simpl. split; [lia|]. split; [split; [done|lia]|lia].
    - pose proof (skip_range (S s)). simpl. split; [lia|]. split; [done|lia]. }
  set (p := fun c => negb (is_in whitespace c) && negb (is_in symbols c)).
  assert (p (char buf s) = true) as Hp.
  { unfold p. rewrite Hst. unfold is_in in *. apply negb_true_iff, bool_decide_eq_false.
    apply bool_decide_eq_false in E1. apply Z.eqb_neq in E2. unfold symbols. set_unfold. lia. }
  pose proof (scan_progress p s Hs Hp). pose proof (scan_range p s). pose proof (skip_range (scan buf p s)).
  simpl. split; [lia|]. split; [split; [done|lia]|lia].
Qed.

Lemma skip_id (s : nat) : is_in whitespace (char buf s) = false -> skip buf s = s.
Proof.
  unfold skip, scan, char. destruct (buf !! s) as [c|] eqn:E; simpl.
  - intros Hc. rewrite (drop_S _ c) by done. simpl. rewrite Hc. lia.
  - intros _. apply lookup_ge_None in E. rewrite drop_ge by done. simpl. lia.
Qed.
Lemma skip_skip (s : nat) : skip buf (skip buf s) = skip buf s.
Proof. apply skip_id, skip_stops. Qed.

(** A successful peek promises a token. *)
Lemma peek_range (ps : nat) (toks : list Z) :
  (ps <= es)%nat ->
  let '(b, ps') := peek buf ps toks in
  (ps <= ps' <= es)%nat /\ (b = true -> tk (gettoken buf ps').1 <> 0).
Proof.
  intros Hps. unfold peek. pose proof (skip_range ps Hps) as Hr. split; [done|].
  intros Hb. apply andb_true_iff in Hb as [Hb _]. apply negb_true_iff, Z.eqb_neq in Hb.
  pose proof (gettoken_progress (skip buf ps)) as Hg. destruct (gettoken buf (skip buf ps)) as [t ps'].
  destruct Hg as (_ & Hg & _); [lia|]. simpl. rewrite Hg, skip_skip. done.
Qed.

(** ** The parser terminates *)

(** The run neither fails for want of fuel nor moves outside [s .. es]. *)
Definition ends {A} (m : res (A * nat)) (s : nat) : Prop :=
  match m with Done (_, s') => (s <= s' <= es)%nat | Panic _ => True | NoFuel => False end.

Lemma ends_bind {A B} (m : res (A * nat)) (f : A * nat -> res (B * nat)) (s : nat) :
  ends m s -> (forall a s', (s <= s' <= es)%nat -> ends (f (a, s')) s) -> ends (rbind m f) s.
Proof. intros Hm Hf. destruct m as [[a s']| |]; simpl in *; auto. Qed.
Lemma ends_le {A} (m : res (A * nat)) (s s' : nat) : ends m s' -> (s <= s')%nat -> ends m s.
Proof. intros Hm Hs. destruct m as [[a s'']| |]; simpl in *; [lia|done|done]. Qed.

(** A token that is there, and the position after it. *)
Lemma ends_token {A} (k : token -> nat -> res (A * nat)) (ps : nat) :
  (ps <= es)%nat ->
  (forall t ps', (ps <= ps' <= es)%nat -> (tk t <> 0 -> (ps < ps')%nat) -> (tk (gettoken buf ps).1 = tk t) -> ends (k t ps') ps) ->
  ends (let (t, ps') := gettoken buf ps in k t ps') ps.
Proof.
  intros Hps Hk. pose proof (gettoken_progress ps Hps) as Hg. destruct (gettoken buf ps) as [t ps'].
  destruct Hg as (H1 & _ & H2). by apply Hk.
Qed.
Lemma ends_peek {A} (toks : list Z) (k : bool -> nat -> res (A * nat)) (ps : nat) :
  (ps <= es)%nat ->
  (forall b ps', (ps <= ps' <= es)%nat -> (b = true -> tk (gettoken buf ps').1 <> 0) -> ends (k b ps') ps') ->
  ends (let (b, ps') := peek buf ps toks in k b ps') ps.
Proof.
  intros Hps Hk. pose proof (peek_range ps toks Hps) as Hg. destruct (peek buf ps toks) as [b ps'].
  destruct Hg as (H1 & H2). eapply ends_le; [by apply Hk|lia].
Qed.

Lemma redirs_ends (fuel ps : nat) : (ps <= es)%nat -> (es - ps < fuel)%nat -> ends (redirs buf fuel ps) ps.
Proof.
  revert ps. induction fuel as [|fuel IH]; intros ps Hps Hf; [lia|]. cbn [redirs].
  apply ends_peek; [done|]. intros [] p1 H1 Ht; [|simpl; lia]. specialize (Ht eq_refl).
  apply ends_token; [lia|]. intros t p2 H2 Hp Hq. rewrite Hq in Ht. specialize (Hp Ht).
  eapply ends_le; [apply ends_token; [lia|]|lia]. intros name p3 H3 _ _.
  destruct (tk name =? 97); [|done].
  apply ends_bind; [eapply ends_le; [apply IH; lia|lia]|]. intros l p4 H4.
  destruct (tk t =? 60); [simpl; lia|]. destruct (tk t =? 62); [simpl; lia|].
  destruct (tk t =? 43); simpl; lia.
Qed.

Lemma parseargs_ends (fuel : nat) (argv : list word) (rs : list redir) (ps : nat) :
  (ps <= es)%nat -> (es - ps < fuel)%nat -> ends (parseargs buf fuel argv rs ps) ps.
Proof.
  revert argv rs ps. induction fuel as [|fuel IH]; intros argv rs ps Hps Hf; [lia|]. cbn [parseargs].
  apply ends_peek; [done|]. intros [] p1 H1 _; [simpl; lia|].
  apply ends_token; [lia|]. intros t p2 H2 Hp _. destruct (tk t =? 0) eqn:E; [simpl; lia|].
  apply Z.eqb_neq in E. specialize (Hp E). destruct (negb (tk t =? 97)); [done|].
  destruct (MAXARGS <=? _)%nat; [done|].
  apply (ends_le _ _ p2); [|lia]. apply ends_bind; [apply redirs_ends; lia|]. intros l p3 H3.
  eapply ends_le; [apply IH; lia|lia].
Qed.

Lemma backs_ends (fuel : nat) (c : cmd) (ps : nat) :
  (ps <= es)%nat -> (es - ps < fuel)%nat -> ends (backs buf fuel c ps) ps.
Proof.
  revert c ps. induction fuel as [|fuel IH]; intros c ps Hps Hf; [lia|]. cbn [backs].
  apply ends_peek; [done|]. intros [] p1 H1 Ht; [|simpl; lia]. specialize (Ht eq_refl).
  apply ends_token; [lia|]. intros t p2 H2 Hp Hq. rewrite Hq in Ht. specialize (Hp Ht).
  eapply ends_le; [apply IH; lia|lia].
Qed.

(** Each call chain from a line to a line within it goes through four
    functions and consumes a parenthesis. *)
Lemma parse_ends (fuel : nat) :
  (forall ps, (ps <= es)%nat -> (4 * (es - ps) + 4 <= fuel)%nat -> ends (parseline buf fuel ps) ps) /\
  (forall ps, (ps <= es)%nat -> (4 * (es - ps) + 3 <= fuel)%nat -> ends (parsepipe buf fuel ps) ps) /\
  (forall ps, (ps <= es)%nat -> (4 * (es - ps) + 2 <= fuel)%nat -> ends (parseexec buf fuel ps) ps) /\
  (forall ps, (ps <= es)%nat -> (4 * (es - ps) + 1 <= fuel)%nat -> ends (parseblock buf fuel ps) ps).
Proof.
  induction fuel as [|fuel (IHl & IHp & IHe & IHb)]; [repeat split; intros; lia|].
  split; [|split; [|split]]; intros ps Hps Hf; cbn [parseline parsepipe parseexec parseblock].
  - apply ends_bind; [apply IHp; lia|]. intros c p1 H1. apply (ends_le _ _ p1); [|lia].
    apply ends_bind; [apply backs_ends; lia|]. intros c2 p2 H2. apply (ends_le _ _ p2); [|lia].
    apply ends_peek; [lia|]. intros [] p3 H3 Ht; [|simpl; lia]. specialize (Ht eq_refl).
    apply ends_token; [lia|]. intros t p4 H4 Hp Hq. rewrite Hq in Ht. specialize (Hp Ht).
    apply (ends_le _ _ p4); [|lia]. apply ends_bind; [apply IHl; lia|]. intros r p5 H5. simpl. lia.
  - apply ends_bind; [apply IHe; lia|]. intros c p2 H2. apply (ends_le _ _ p2); [|lia].
    apply ends_peek; [lia|]. intros [] p3 H3 Ht; [|simpl; lia]. specialize (Ht eq_refl).
    apply ends_token; [lia|]. intros t p4 H4 Hp Hq. rewrite Hq in Ht. specialize (Hp Ht).
    apply (ends_le _ _ p4); [|lia]. apply ends_bind; [apply IHp; lia|]. intros r p5 H5. simpl. lia.
  - apply ends_peek; [lia|]. intros [] p1 H1 _; [apply IHb; lia|].
    apply ends_bind; [apply redirs_ends; lia|]. intros rs p2 H2. apply (ends_le _ _ p2); [|lia].
    apply ends_bind; [apply parseargs_ends; lia|]. intros [argv rs'] p3 H3. simpl. lia.
  - apply ends_peek; [lia|]. intros [] p1 H1 Ht; [|done]. specialize (Ht eq_refl). cbn [negb].
    apply ends_token; [lia|]. intros t p2 H2 Hp Hq. rewrite Hq in Ht. specialize (Hp Ht).
    apply (ends_le _ _ p2); [|lia]. apply ends_bind; [apply IHl; lia|]. intros c p3 H3.
    apply (ends_le _ _ p3); [|lia]. apply ends_peek; [lia|]. intros [] p4 H4 _; [|done]. cbn [negb].
    apply ends_token; [lia|]. intros t2 p5 H5 _ _. apply (ends_le _ _ p5); [|lia].
    unfold parseredirs. apply ends_bind; [apply redirs_ends; lia|]. intros l p6 H6. simpl. lia.
Qed.
End progress.

(** C34. The parser terminates on every line: with fuel for four calls per
    character it never runs out, and either returns a command or reports a
    syntax error. *)
Theorem parsecmd_terminates (s : list Z) (fuel : nat) :
  (4 * length s + 4 <= fuel)%nat ->
  (exists r, parsecmd fuel s = Done r) \/ (exists msg, parsecmd fuel s = Panic msg).
Proof.
  intros Hf. destruct (parse_ends s fuel) as (Hl & _).
  specialize (Hl 0%nat ltac:(lia) ltac:(unfold es; lia)). unfold parsecmd.
  destruct (parseline s fuel 0) as [[c ps]|msg|]; simpl in Hl |- *; [|eauto|done].
  destruct (bool_decide _); eauto.
Qed.

Lemma parsecmd_terminates_witness :
  (exists r, parsecmd 100 (bytes_of "a | (b ; c) > d") = Done r) \/
  (exists msg, parsecmd 100 (bytes_of "a | (b ; c) > d") = Panic msg).
Proof. apply (parsecmd_terminates (bytes_of "a | (b ; c) > d") 100). simpl. lia. Defined.

(** ** Reading back what is printed *)

Inductive redirection := In_ | Out | Append.
(** A command with its words. *)
Inductive ast :=
  | AExec (words : list (list Z))
  | ARedir (a : ast) (file : list Z) (k : redirection)
  | APipe (left right : ast)
  | AList (left right : ast)
  | ABack (a : ast).

Definition op (k : redirection) : list Z := match k with In_ => [60] | Out => [62] | Append => [62; 62] end.
Definition mode_fd (k : redirection) : Z * Z :=
  match k with In_ => (O_RDONLY, 0) | Out => (O_WRONLY + O_CREATE + O_TRUNC, 1) | Append => (O_WRONLY + O_CREATE, 1) end.

Definition paren (ts : list (list Z)) : list (list Z) := [40] :: ts ++ [[41]].
Fixpoint toks (a : ast) : list (list Z) :=
  match a with
  | AExec ws => ws
  | ARedir a f k => paren (toks a) ++ [op k; f]
  | APipe l r => paren (toks l) ++ [124] :: paren (toks r)
  | AList l r => paren (toks l) ++ [59] :: paren (toks r)
  | ABack a => paren (toks a) ++ [[38]]
  end.

(** Tokens in a line, a blank before each. *)
Definition join (ts : list (list Z)) : list Z := concat ((fun t => 32 :: t) <$> ts).
Definition show (a : ast) : list Z := join (toks a).

Definition plain (c : Z) : bool := negb (c =? 0) && negb (is_in whitespace c) && negb (is_in symbols c).
Definition is_word (t : list Z) : Prop := t <> [] /\ Forall (fun c => plain c = true) t.
Fixpoint ast_ok (a : ast) : Prop :=
  match a with
  | AExec ws => Forall is_word ws /\ (length ws < MAXARGS)%nat
  | ARedir a f _ => ast_ok a /\ is_word f
  | APipe l r | AList l r => ast_ok l /\ ast_ok r
  | ABack a => ast_ok a
  end.

Definition is_tok (t : list Z) : Prop := (exists c, t = [c] /\ c ∈ symbols) \/ t = [62; 62] \/ is_word t.
Definition kind (t : list Z) : Z :=
  match t with
  | [c] => if is_in symbols c then c else 97
  | [c; d] => if (c =? 62) && (d =? 62) then 43 else 97
  | _ => 97
  end.
Definition heads (set : list Z) (ts : list (list Z)) : bool :=
  match ts with (c :: _) :: _ => is_in set c | _ => false end.

(** The tree [c] is the command [a], with words related by [R]. *)
Fixpoint tree (R : word -> list Z -> Prop) (c : cmd) (a : ast) : Prop :=
  match c, a with
  | Exec argv, AExec ws => Forall2 R argv ws
  | Redir c f mode fd, ARedir a t k => tree R c a /\ R f t /\ (mode, fd) = mode_fd k
  | Pipe l r, APipe a b => tree R l a /\ tree R r b
  | List_ l r, AList a b => tree R l a /\ tree R r b
  | Back c, ABack a => tree R c a
  | _, _ => False
  end.

Section readback.
Context (buf : list Z).

(** The tokens from a position on, blanks skipped. *)
Definition ahead (p : nat) (ts : list (list Z)) : Prop :=
  Forall is_tok ts /\
  drop (skip buf p) buf = match ts with [] => [] | t :: ts => t ++ join ts end.

(** A word of the tree that reads [t], and has a delimiter after it. *)
Definition reads (w : word) (t : list Z) : Prop :=
  w.2 = (w.1 + length t)%nat /\ (exists r, drop w.1 buf = t ++ r /\ (r = [] \/ exists r', r = 32 :: r')).

Definition den : cmd -> ast -> Prop := tree reads.

Lemma char_ahead (p : nat) (ts : list (list Z)) :
  ahead p ts -> char buf (skip buf p) = match ts with (c :: _) :: _ => c | _ => 0 end.
Proof.
  intros [Ht Hd]. unfold char. rewrite <- (Nat.add_0_r (skip buf p)), <- lookup_drop, Hd.
  destruct ts as [|t ts]; [done|]. apply list.Forall_cons in Ht as [Ht _].
  destruct t; [|done]. by destruct Ht as [(c & ? & _)|[?|[? _]]].
Qed.

Lemma symbol_nonzero (c : Z) : is_in symbols c = true -> c <> 0.
Proof. unfold is_in. rewrite bool_decide_eq_true. intros H ->. revert H. apply (bool_decide_unpack _). reflexivity. Qed.
Lemma tok_nonzero (c : Z) (t : list Z) : is_tok (c :: t) -> c <> 0.
Proof.
  intros [(c' & [= -> ->] & Hc)|[[= -> ->]|[_ Hw]]]; [|done|].
  - apply symbol_nonzero. unfold is_in. by apply bool_decide_eq_true.
  - apply list.Forall_cons in Hw as [Hw _]. unfold plain in Hw. intros ->. done.
Qed.

Lemma peek_ahead (p : nat) (ts : list (list Z)) (set : list Z) :
  ahead p ts -> peek buf p set = (heads set ts, skip buf p) /\ ahead (skip buf p) ts.
Proof.
  intros Ha. unfold peek. cbv zeta. rewrite (char_ahead p ts Ha). split.
  - destruct ts as [|[|c t] ts]; simpl; [done|done|]. destruct Ha as [Ha _].
    apply list.Forall_cons in Ha as [Ha _]. apply tok_nonzero in Ha. by rewrite (proj2 (Z.eqb_neq _ _)).
  - destruct Ha as [Ht Hd]. split; [done|]. by rewrite skip_skip.
Qed.

(** After a token come the blanks and the next one. *)
Lemma ahead_next (q : nat) (t : list Z) (ts : list (list Z)) :
  Forall is_tok ts -> drop q buf = t ++ join ts -> ahead (q + length t) ts.
Proof.
  intros Ht Hd. split; [done|].
  assert (drop (q + length t) buf = join ts) as Hj by (rewrite <- drop_drop, Hd; apply drop_app_length).
  unfold skip, scan. rewrite Hj. destruct ts as [|t' ts].
  - simpl. rewrite Nat.add_0_r. exact Hj.
  - change (join (t' :: ts)) with (32 :: t' ++ join ts) in *.
    assert (run_length (is_in whitespace) (t' ++ join ts) = O) as Hr.
    { apply list.Forall_cons in Ht as [Ht _]. destruct Ht as [(c & -> & Hc)|[->|[Hne Hw]]]; simpl.
      - unfold symbols in Hc. assert (is_in whitespace c = false) as ->; [|done].
        unfold is_in, whitespace. apply bool_decide_eq_false. set_unfold. lia.
      - done.
      - destruct t' as [|c t']; [done|]. simpl. apply list.Forall_cons in Hw as [Hw _]. unfold plain in Hw.
        destruct (is_in whitespace c); [|done]. by rewrite andb_false_r in Hw. }
    cbn [run_length]. change (is_in whitespace 32) with true. cbv iota. rewrite Hr.
    rewrite <- drop_drop, Hj. done.
Qed.

Lemma reads_at (q : nat) (t : list Z) (ts : list (list Z)) :
  drop q buf = t ++ join ts -> reads (q, (q + length t)%nat) t.
Proof.
  intros Hd. split; [done|]. exists (join ts). split; [done|].
  destruct ts as [|t' ts]; [by left|right]. by exists (t' ++ join ts).
Qed.

Lemma run_length_word (t : list Z) (ts : list (list Z)) :
  Forall (fun c => plain c = true) t ->
  run_length (fun c => negb (is_in whitespace c) && negb (is_in symbols c)) (t ++ join ts) = length t.
Proof.
  induction 1 as [|c t Hc _ IH]; simpl.
  - by destruct ts.
  - unfold plain in Hc. rewrite <- andb_assoc in Hc. apply andb_true_iff in Hc as [_ Hc]. rewrite Hc. by rewrite IH.
Qed.

Lemma plain_spec (c : Z) : plain c = true -> c <> 0 /\ is_in whitespace c = false /\ is_in symbols c = false.
Proof. unfold plain. rewrite !andb_true_iff, !negb_true_iff, Z.eqb_neq. tauto. Qed.
Lemma not_symbol (c : Z) : is_in symbols c = false -> is_in [124; 40; 41; 59; 38; 60] c = false /\ (c =? 62) = false.
Proof.
  unfold is_in, symbols. rewrite !bool_decide_eq_false. intros H. split; [|apply Z.eqb_neq]; set_unfold; lia.
Qed.
Lemma kind_word (t : list Z) : is_word t -> kind t = 97.
Proof.
  intros [Hne Hw]. destruct t as [|c t]; [done|]. apply list.Forall_cons in Hw as [Hc _].
  apply plain_spec in Hc as (_ & _ & Hc). destruct (not_symbol c Hc) as [_ H62].
  destruct t as [|d [|]]; simpl; [by rewrite Hc|by rewrite H62|done].
Qed.

(** The three shapes of a token, at its position. *)
Lemma token_symbol (s : nat) (c : Z) (ts : list (list Z)) :
  drop s buf = [c] ++ join ts -> c ∈ symbols -> c <> 62 ->
  is_in [124; 40; 41; 59; 38; 60] c = true.
Proof. intros _ Hc Hn. unfold is_in, symbols in *. apply bool_decide_eq_true. set_unfold. lia. Qed.
Lemma char_after (s : nat) (t : list Z) (ts : list (list Z)) :
  drop s buf = t ++ join ts -> (char buf (s + length t) =? 62) = false.
Proof.
  intros Hd. unfold char. rewrite <- (lookup_drop buf s), Hd, lookup_app_r, Nat.sub_diag by lia.
  by destruct ts.
Qed.

Lemma gettoken_ahead (p : nat) (t : list Z) (ts : list (list Z)) :
  ahead p (t :: ts) ->
  exists q p', gettoken buf p = (Token (kind t) q (q + length t), p') /\
    ahead p' ts /\ reads (q, (q + length t)%nat) t.
Proof.
  intros Ha. pose proof (char_ahead p _ Ha) as Hc. destruct Ha as [Ht Hd].
  apply list.Forall_cons in Ht as [Ht Hts].
  exists (skip buf p), (skip buf (skip buf p + length t)).
  split; [|split; [|by apply (reads_at _ _ ts)]].
  2: { destruct (ahead_next (skip buf p) t ts Hts Hd) as [_ Hn]. split; [done|]. by rewrite skip_skip. }
  unfold gettoken. cbv zeta. rewrite Hc. set (s := skip buf p) in *. clearbody s.
  destruct Ht as [(c & -> & Hs)|[->|Hw]].
  - assert (is_in symbols c = true) as Hin by (by apply bool_decide_eq_true).
    rewrite (proj2 (Z.eqb_neq c 0)) by (by apply symbol_nonzero). simpl kind. rewrite Hin.
    replace (s + length [c])%nat with (S s) by (simpl; lia).
    destruct (decide (c = 62)) as [->|Hn]; [|by rewrite (token_symbol s c ts)].
    assert ((char buf (S s) =? 62) = false) as Ha by (rewrite <- Nat.add_1_r; exact (char_after s [62] ts Hd)).
    change (is_in [124; 40; 41; 59; 38; 60] 62) with false. cbn -[char skip]. by rewrite Ha.
  - change (is_in [124; 40; 41; 59; 38; 60] 62) with false. cbn -[char skip].
    assert (char buf (S s) = 62) as ->; [|by replace (s + 2)%nat with (S (S s)) by lia].
    unfold char. rewrite <- Nat.add_1_r, <- lookup_drop, Hd. done.
  - rewrite (kind_word t Hw). destruct Hw as [Hne Hw]. destruct t as [|c t]; [done|].
    pose proof Hw as Hw'. apply list.Forall_cons in Hw' as [Hp _]. apply plain_spec in Hp as (H0 & _ & Hsy).
    destruct (not_symbol c Hsy) as [H1 H2]. rewrite (proj2 (Z.eqb_neq c 0)) by done. rewrite H1, H2.
    unfold scan. rewrite Hd, run_length_word by done. done.
Qed.

Lemma gettoken_end (p : nat) : ahead p [] -> exists q, gettoken buf p = (Token 0 q q, q) /\ ahead q [].
Proof.
  intros Ha. pose proof (char_ahead p _ Ha) as Hc. unfold gettoken. cbv zeta. rewrite Hc. simpl.
  exists (skip buf p). rewrite skip_skip. split; [done|]. destruct Ha as [Ht Hd]. split; [done|]. by rewrite skip_skip.
Qed.

Lemma heads_word (set t : list Z) (ts : list (list Z)) :
  bool_decide (Forall (fun c => c ∈ symbols) set) = true -> is_word t -> heads set (t :: ts) = false.
Proof.
  intros Hs%bool_decide_eq_true [Hne Hw]. destruct t as [|c t]; [done|]. simpl.
  apply list.Forall_cons in Hw as [Hc _]. apply plain_spec in Hc as (_ & _ & Hc).
  unfold is_in in *. apply bool_decide_eq_false. apply bool_decide_eq_false in Hc. intros Hin. apply Hc.
  exact (proj1 (list.Forall_forall _ _) Hs c Hin).
Qed.

Lemma redirs_none (fuel p : nat) (ts : list (list Z)) :
  ahead p ts -> heads [60; 62] ts = false ->
  exists p', redirs buf (S fuel) p = Done ([], p') /\ ahead p' ts.
Proof.
  intros Ha Hh. destruct (peek_ahead p ts [60; 62] Ha) as [Hp Ha']. exists (skip buf p).
  cbn [redirs]. by rewrite Hp, Hh.
Qed.

Lemma redirs_one (fuel p : nat) (k : redirection) (f : list Z) (ts : list (list Z)) :
  ahead p (op k :: f :: ts) -> is_word f -> heads [60; 62] ts = false ->
  exists w p', redirs buf (S (S fuel)) p = Done ([(w, (mode_fd k).1, (mode_fd k).2)], p') /\ ahead p' ts /\ reads w f.
Proof.
  intros Ha Hf Hh. destruct (peek_ahead p _ [60; 62] Ha) as [Hp Ha'].
  assert (heads [60; 62] (op k :: f :: ts) = true) as Ho by (by destruct k).
  destruct (gettoken_ahead _ _ _ Ha') as (q1 & p1 & Hg1 & Ha1 & _).
  destruct (gettoken_ahead _ _ _ Ha1) as (q2 & p2 & Hg2 & Ha2 & Hr2).
  destruct (redirs_none fuel p2 ts Ha2 Hh) as (p3 & Hr3 & Ha3).
  exists (q2, (q2 + length f)%nat), p3. split; [|done].
  remember (S fuel) as fuel' eqn:Ef. cbn [redirs]. subst fuel'.
  rewrite Hp, Ho, Hg1, Hg2. cbn [tk tq teq]. rewrite (kind_word f Hf), Hr3. by destruct k.
Qed.

(** The tokens at which the words of a command stop. *)
Definition stops (ts : list (list Z)) : Prop := ts = [] \/ heads [124; 41; 38; 59] ts = true.

Lemma stops_redir (ts : list (list Z)) : stops ts -> heads [60; 62] ts = false /\ heads [40] ts = false.
Proof.
  intros [->|Hh]; [done|]. destruct ts as [|[|c t] ts]; [done|done|]. simpl in *.
  unfold is_in in *. apply bool_decide_eq_true in Hh. rewrite !bool_decide_eq_false. set_unfold. lia.
Qed.

Lemma parseargs_words (ws : list (list Z)) (fuel p : nat) (argv : list word) (rs : list redir) (ts : list (list Z)) :
  ahead p (ws ++ ts) -> Forall is_word ws -> stops ts -> (length argv + length ws < MAXARGS)%nat ->
  (length ws < fuel)%nat ->
  exists argv' p', parseargs buf fuel argv rs p = Done (argv ++ argv', rs, p') /\ ahead p' ts /\ Forall2 reads argv' ws.
Proof.
  revert ws p argv. induction fuel as [|fuel IH]; intros ws p argv Ha Hw Hs Hm Hf; [lia|].
  destruct (peek_ahead p _ [124; 41; 38; 59] Ha) as [Hp Ha'].
  destruct ws as [|t ws]; cbn [parseargs]; rewrite Hp.
  - simpl app in *. destruct Hs as [->|Hh].
    + destruct (gettoken_end _ Ha') as (q & Hg & Hq). simpl. rewrite Hg. simpl.
      exists [], q. by rewrite app_nil_r.
    + rewrite Hh. exists [], (skip buf p). by rewrite app_nil_r.
  - apply list.Forall_cons in Hw as [Ht Hw]. simpl app in *. rewrite heads_word by done.
    destruct (gettoken_ahead _ _ _ Ha') as (q & p1 & Hg & Ha1 & Hr). rewrite Hg. cbn [tk tq teq].
    rewrite (kind_word t Ht). cbn [negb Z.eqb].
    change (97 =? 0) with false. change (97 =? 97) with true. cbn [negb].
    rewrite length_app. simpl length in *.
    rewrite (proj2 (Nat.leb_gt _ _)) by (unfold MAXARGS in *; lia).
    assert (heads [60; 62] (ws ++ ts) = false) as Hh.
    { destruct ws as [|t' ws]; [by apply stops_redir|]. apply list.Forall_cons in Hw as [Hw _]. by apply heads_word. }
    destruct fuel as [|fuel']; [lia|].
    destruct (redirs_none fuel' p1 _ Ha1 Hh) as (p2 & Hr2 & Ha2). rewrite Hr2. cbn [rbind]. rewrite app_nil_r.
    destruct (IH ws p2 (argv ++ [(q, (q + length t)%nat)])) as (argv' & p3 & He & Ha3 & Hr3); try done.
    { rewrite length_app. simpl. unfold MAXARGS in *. lia. }
    { lia. }
    exists ((q, (q + length t)%nat) :: argv'), p3. rewrite He, <- app_assoc. split; [done|]. split; [done|]. by constructor.
Qed.

(** What a parser does with the tokens of a command. *)
Definition parses (m : res (cmd * nat)) (a : ast) (ts : list (list Z)) : Prop :=
  exists c p, m = Done (c, p) /\ ahead p ts /\ den c a.

Lemma parseexec_words (ws : list (list Z)) (fuel p : nat) (ts : list (list Z)) :
  ahead p (ws ++ ts) -> ast_ok (AExec ws) -> stops ts -> (length ws + 2 <= fuel)%nat ->
  parses (parseexec buf fuel p) (AExec ws) ts.
Proof.
  intros Ha [Hw Hm] Hs Hf. destruct fuel as [|[|fuel]]; [lia|lia|].
  destruct (stops_redir ts Hs) as [H62 H40].
  assert (heads [40] (ws ++ ts) = false /\ heads [60; 62] (ws ++ ts) = false) as [Hh Hh2].
  { destruct ws as [|t ws]; [done|]. apply list.Forall_cons in Hw as [Hw _]. split; by apply heads_word. }
  destruct (peek_ahead p _ [40] Ha) as [Hp Ha1].
  destruct (redirs_none fuel _ _ Ha1 Hh2) as (p2 & Hr & Ha2).
  destruct (parseargs_words ws (S fuel) p2 [] [] ts) as (argv & p3 & He & Ha3 & Hr3); try done; [simpl; lia|].
  exists (Exec argv), p3. remember (S fuel) as n eqn:En. cbn [parseexec]. rewrite Hp, Hh.
  rewrite Hr. cbn [rbind]. rewrite He. done.
Qed.

Lemma backs_none (fuel p : nat) (c : cmd) (ts : list (list Z)) :
  ahead p ts -> heads [38] ts = false -> exists p', backs buf (S fuel) c p = Done (c, p') /\ ahead p' ts.
Proof.
  intros Ha Hh. destruct (peek_ahead p ts [38] Ha) as [Hp Ha']. exists (skip buf p).
  cbn [backs]. by rewrite Hp, Hh.
Qed.

(** A command that is not part of a longer pipeline or list. *)
Lemma parsepipe_unit (fuel p : nat) (a : ast) (ts : list (list Z)) :
  parses (parseexec buf fuel p) a ts -> heads [124] ts = false -> parses (parsepipe buf (S fuel) p) a ts.
Proof.
  intros (c & p1 & He & Ha & Hd) Hh. destruct (peek_ahead p1 ts [124] Ha) as [Hp Ha'].
  exists c, (skip buf p1). cbn [parsepipe]. rewrite He. cbn [rbind]. by rewrite Hp, Hh.
Qed.
Lemma parseline_unit (fuel p : nat) (a : ast) (ts : list (list Z)) :
  parses (parsepipe buf (S fuel) p) a ts -> heads [38] ts = false -> heads [59] ts = false ->
  parses (parseline buf (S (S fuel)) p) a ts.
Proof.
  intros (c & p1 & He & Ha & Hd) Hh Hh2. destruct (backs_none fuel p1 c ts Ha Hh) as (p2 & Hb & Ha2).
  destruct (peek_ahead p2 ts [59] Ha2) as [Hp Ha']. exists c, (skip buf p2).
  remember (S fuel) as n eqn:En. cbn [parseline]. rewrite He. cbn [rbind]. rewrite Hb. cbn [rbind]. by rewrite Hp, Hh2.
Qed.

(** A line in parentheses, up to the redirections. *)
Lemma parseblock_line (fuel p : nat) (a : ast) (ts : list (list Z)) :
  (forall p ts, ahead p (toks a ++ [41] :: ts) -> parses (parseline buf fuel p) a ([41] :: ts)) ->
  ahead p (paren (toks a) ++ ts) ->
  exists c p', parseexec buf (S (S fuel)) p = parseredirs buf fuel c p' /\ ahead p' ts /\ den c a.
Proof.
  intros IH Ha. unfold paren in Ha. rewrite <- app_comm_cons, <- app_assoc in Ha. simpl in Ha.
  destruct (peek_ahead p _ [40] Ha) as [Hp Ha1]. destruct (peek_ahead _ _ [40] Ha1) as [Hp1 Ha2].
  destruct (gettoken_ahead _ _ _ Ha2) as (q & p2 & Hg & Ha3 & _).
  destruct (IH p2 ts Ha3) as (c & p3 & Hl & Ha4 & Hd).
  destruct (peek_ahead _ _ [41] Ha4) as [Hp4 Ha5].
  destruct (gettoken_ahead _ _ _ Ha5) as (q5 & p5 & Hg5 & Ha6 & _).
  exists c, p5. split; [|done].
  remember (S fuel) as n eqn:En. cbn [parseexec]. rewrite Hp. change (heads [40] _) with true. cbv iota.
  subst n. cbn [parseblock]. rewrite Hp1. change (heads [40] _) with true. cbn [negb].
  rewrite Hg, Hl. cbn [rbind]. rewrite Hp4. change (heads [41] _) with true. cbn [negb]. by rewrite Hg5.
Qed.

Lemma parseexec_block (fuel p : nat) (a : ast) (ts : list (list Z)) :
  (forall p ts, ahead p (toks a ++ [41] :: ts) -> parses (parseline buf (S fuel) p) a ([41] :: ts)) ->
  ahead p (paren (toks a) ++ ts) -> heads [60; 62] ts = false ->
  parses (parseexec buf (S (S (S fuel))) p) a ts.
Proof.
  intros IH Ha Hh. destruct (parseblock_line (S fuel) p a ts IH Ha) as (c & p1 & He & Ha1 & Hd).
  destruct (redirs_none fuel p1 ts Ha1 Hh) as (p2 & Hr & Ha2). exists c, p2.
  rewrite He. unfold parseredirs. by rewrite Hr.
Qed.

Lemma parseexec_redir (fuel p : nat) (a : ast) (f : list Z) (k : redirection) (ts : list (list Z)) :
  (forall p ts, ahead p (toks a ++ [41] :: ts) -> parses (parseline buf (S (S fuel)) p) a ([41] :: ts)) ->
  ahead p (paren (toks a) ++ [op k; f] ++ ts) -> is_word f -> heads [60; 62] ts = false ->
  parses (parseexec buf (S (S (S (S fuel)))) p) (ARedir a f k) ts.
Proof.
  intros IH Ha Hf Hh. destruct (parseblock_line (S (S fuel)) p a _ IH Ha) as (c & p1 & He & Ha1 & Hd).
  destruct (redirs_one fuel p1 k f ts Ha1 Hf Hh) as (w & p2 & Hr & Ha2 & Hw).
  exists (Redir c w (mode_fd k).1 (mode_fd k).2), p2. rewrite He. unfold parseredirs. rewrite Hr.
  split; [done|]. split; [done|]. simpl. by destruct k.
Qed.

(** The end of a line: the end of input, or a closing parenthesis. *)
Definition closed (ts : list (list Z)) : Prop := ts = [] \/ exists r, ts = [41] :: r.
Lemma closed_heads (ts : list (list Z)) :
  closed ts -> stops ts /\ heads [124] ts = false /\ heads [38] ts = false /\ heads [59] ts = false.
Proof. intros [->|[r ->]]; (split; [|done]); [by left|by right]. Qed.

Definition line_parses (a : ast) : Prop :=
  forall fuel p ts, ahead p (toks a ++ ts) -> closed ts -> (4 * length (toks a) + 4 <= fuel)%nat ->
  parses (parseline buf fuel p) a ts.

(** A command in parentheses, where a command of a pipeline is expected. *)
Lemma block_unit (a : ast) (fuel p : nat) (ts : list (list Z)) :
  line_parses a -> ahead p (paren (toks a) ++ ts) -> heads [60; 62] ts = false -> (4 * length (toks a) + 6 <= fuel)%nat ->
  parses (parseexec buf fuel p) a ts.
Proof.
  intros IH Ha Hh Hf. destruct fuel as [|[|[|fuel]]]; [lia..|].
  apply parseexec_block; [|done|done]. intros p' ts' Ha'. apply IH; [done|right; eauto|lia].
Qed.

Lemma pipe_parses (l r : ast) (fuel p : nat) (ts : list (list Z)) :
  line_parses l -> line_parses r ->
  ahead p (paren (toks l) ++ [124] :: paren (toks r) ++ ts) -> heads [60; 62] ts = false -> heads [124] ts = false ->
  (4 * length (toks l) + 4 * length (toks r) + 8 <= fuel)%nat ->
  parses (parsepipe buf fuel p) (APipe l r) ts.
Proof.
  intros Hl Hr Ha Hh H124 Hf. destruct fuel as [|[|fuel]]; [lia|lia|].
  destruct (block_unit l (S fuel) p _ Hl Ha) as (c & p1 & He & Ha1 & Hd); [done|lia|].
  destruct (peek_ahead p1 _ [124] Ha1) as [Hp Ha2].
  destruct (gettoken_ahead _ _ _ Ha2) as (q & p2 & Hg & Ha3 & _).
  destruct (parsepipe_unit fuel p2 r ts) as (d & p3 & He3 & Ha4 & Hd3); [apply block_unit; auto; lia|done|].
  exists (Pipe c d), p3. remember (S fuel) as n eqn:En. cbn [parsepipe]. rewrite He. cbn [rbind]. rewrite Hp.
  change (heads [124] _) with true. cbv iota. rewrite Hg, He3. done.
Qed.

Lemma list_parses (l r : ast) (fuel p : nat) (ts : list (list Z)) :
  line_parses l -> line_parses r ->
  ahead p (paren (toks l) ++ [59] :: paren (toks r) ++ ts) -> closed ts ->
  (4 * length (toks l) + 4 * length (toks r) + 12 <= fuel)%nat ->
  parses (parseline buf fuel p) (AList l r) ts.
Proof.
  intros Hl Hr Ha Hc Hf. destruct (closed_heads ts Hc) as (Hst & H124 & H38 & H59).
  destruct (stops_redir ts Hst) as [H62 _]. destruct fuel as [|[|[|[|fuel]]]]; [lia..|].
  destruct (parsepipe_unit (S (S fuel)) p l ([59] :: paren (toks r) ++ ts)) as (c & p1 & He & Ha1 & Hd);
    [apply block_unit; auto; lia|done|].
  destruct (backs_none (S (S fuel)) p1 c _ Ha1) as (p2 & Hb & Ha2); [done|].
  destruct (peek_ahead p2 _ [59] Ha2) as [Hp Ha3].
  destruct (gettoken_ahead _ _ _ Ha3) as (q & p3 & Hg & Ha4 & _).
  destruct (parseline_unit (S fuel) p3 r ts) as (d & p4 & He4 & Ha5 & Hd4); [|done|done|].
  { apply parsepipe_unit; [apply block_unit; auto; lia|done]. }
  exists (List_ c d), p4. remember (S (S (S fuel))) as n eqn:En. cbn [parseline]. rewrite He. cbn [rbind].
  rewrite Hb. cbn [rbind]. rewrite Hp. change (heads [59] _) with true. cbv iota. rewrite Hg, He4. done.
Qed.

Lemma back_parses (a : ast) (fuel p : nat) (ts : list (list Z)) :
  line_parses a -> ahead p (paren (toks a) ++ [38] :: ts) -> closed ts ->
  (4 * length (toks a) + 8 <= fuel)%nat ->
  parses (parseline buf fuel p) (ABack a) ts.
Proof.
  intros Hl Ha Hc Hf. destruct (closed_heads ts Hc) as (Hst & H124 & H38 & H59).
  destruct fuel as [|[|[|fuel]]]; [lia..|].
  destruct (parsepipe_unit (S fuel) p a ([38] :: ts)) as (c & p1 & He & Ha1 & Hd);
    [apply block_unit; auto; lia|done|].
  destruct (peek_ahead p1 _ [38] Ha1) as [Hp Ha2].
  destruct (gettoken_ahead _ _ _ Ha2) as (q & p2 & Hg & Ha3 & _).
  destruct (backs_none fuel p2 (Back c) ts Ha3 H38) as (p3 & Hb & Ha4).
  destruct (peek_ahead p3 _ [59] Ha4) as [Hp4 Ha5].
  exists (Back c), (skip buf p3). remember (S (S fuel)) as n eqn:En. cbn [parseline]. rewrite He. cbn [rbind].
  subst n. remember (S fuel) as n eqn:En. cbn [backs]. rewrite Hp. change (heads [38] _) with true. cbv iota.
  rewrite Hg. subst n. rewrite Hb. cbn [rbind]. by rewrite Hp4, H59.
Qed.

Lemma parseline_reads (a : ast) : ast_ok a -> line_parses a.
Proof.
  induction a as [ws|a IH f k|l IHl r IHr|l IHl r IHr|a IH]; intros Hok fuel p ts Ha Hc Hf;
    destruct (closed_heads ts Hc) as (Hst & H124 & H38 & H59); destruct (stops_redir ts Hst) as [H62 _];
    cbn [toks] in Ha, Hf; rewrite ?length_app in Hf; unfold paren in Hf; cbn [length] in Hf;
    rewrite ?length_app in Hf; cbn [length] in Hf; rewrite <- ?app_assoc in Ha.
  - destruct fuel as [|[|fuel]]; [lia..|]. apply parseline_unit; [|done|done].
    apply parsepipe_unit; [|done]. apply parseexec_words; [done|done|done|lia].
  - destruct Hok as [Hok Hw]. destruct fuel as [|[|[|[|[|[|fuel]]]]]]; [lia..|].
    apply parseline_unit; [|done|done]. apply parsepipe_unit; [|done].
    apply parseexec_redir; [|done|done|done]. intros p' ts' Ha'. apply (IH Hok); [done|right; eauto|lia].
  - destruct Hok as [Hl Hr]. destruct fuel as [|[|fuel]]; [lia..|]. apply parseline_unit; [|done|done].
    rewrite <- ?app_comm_cons in Ha. apply pipe_parses; auto. lia.
  - destruct Hok as [Hl Hr]. rewrite <- ?app_comm_cons in Ha.
    apply list_parses; auto. lia.
  - apply back_parses; auto. lia.
Qed.
End readback.

(** *** Cutting off the words *)
Fixpoint all_words (c : cmd) : list word :=
  match c with
  | Exec argv => argv
  | Redir c f _ _ => all_words c ++ [f]
  | Pipe l r | List_ l r => all_words l ++ all_words r
  | Back c => all_words c
  end.

Definition cut (ws : list word) (buf : list Z) : list Z := fold_left (fun buf w => <[w.2 := 0]> buf) ws buf.

Lemma nulterminate_cut (c : cmd) (buf : list Z) : nulterminate c buf = cut (all_words c) buf.
Proof.
  unfold cut. revert buf. induction c as [argv|c IH f mode fd|l IHl r IHr|l IHl r IHr|c IH]; intros buf; simpl;
    rewrite ?fold_left_app, ?IH, ?IHl, ?IHr; done.
Qed.
Lemma lookup_cut (ws : list word) (buf : list Z) (i : nat) :
  cut ws buf !! i = if bool_decide (i ∈ ws.*2) then (fun _ => 0) <$> buf !! i else buf !! i.
Proof.
  unfold cut. revert buf. induction ws as [|w ws IH]; intros buf; [done|]. cbn [fold_left fmap list_fmap]. rewrite IH.
  rewrite (bool_decide_ext (i ∈ w.2 :: _) (i = w.2 \/ i ∈ ws.*2)) by apply elem_of_cons.
  destruct (bool_decide_reflect (i ∈ ws.*2)) as [H|H].
  - rewrite bool_decide_eq_true_2 by auto. destruct (decide (w.2 = i)) as [<-|Hn]; [|by rewrite list_lookup_insert_ne].
    rewrite list_lookup_insert. case_decide as Hc; [by destruct (lookup_lt_is_Some_2 buf w.2) as [x ->]; [lia|]|].
    by rewrite lookup_ge_None_2 by lia.
  - destruct (decide (w.2 = i)) as [<-|Hn].
    + rewrite bool_decide_eq_true_2 by auto. rewrite list_lookup_insert.
      case_decide as Hc; [by destruct (lookup_lt_is_Some_2 buf w.2) as [x ->]; [lia|]|].
      by rewrite lookup_ge_None_2 by lia.
    + rewrite bool_decide_eq_false_2 by (intros [|]; [congruence|done]). by rewrite list_lookup_insert_ne.
Qed.

Lemma tree_words (R : word -> list Z -> Prop) (c : cmd) (a : ast) :
  tree R c a -> forall w, w ∈ all_words c -> exists t, R w t.
Proof.
  revert a. induction c as [argv|c IH f mode fd|l IHl r IHr|l IHl r IHr|c IH]; intros [] Ht w Hw; simpl in *; try done.
  - apply list_elem_of_lookup in Hw as [i Hi]. destruct (Forall2_lookup_l _ _ _ _ _ Ht Hi) as (t & _ & H). eauto.
  - destruct Ht as (Ht & Hf & _). apply elem_of_app in Hw as [Hw|Hw]; [eauto|].
    apply list_elem_of_singleton in Hw as ->. eauto.
  - destruct Ht as (Ht & Hf). apply elem_of_app in Hw as [Hw|Hw]; eauto.
  - destruct Ht as (Ht & Hf). apply elem_of_app in Hw as [Hw|Hw]; eauto.
  - eauto.
Qed.
Lemma tree_impl (R R' : word -> list Z -> Prop) (c : cmd) (a : ast) :
  tree R c a -> ast_ok a -> (forall w t, w ∈ all_words c -> is_word t -> R w t -> R' w t) -> tree R' c a.
Proof.
  revert a. induction c as [argv|c IH f mode fd|l IHl r IHr|l IHl r IHr|c IH]; intros [] Ht Ha Hw; simpl in *; try done.
  - destruct Ha as [Ha _]. apply Forall2_same_length_lookup. pose proof (list.Forall2_length _ _ _ Ht) as Hl.
    split; [done|]. intros i w t Hi Hj. apply Hw; [by eapply list_elem_of_lookup_2| |].
    + exact (proj1 (list.Forall_lookup _ _) Ha i t Hj).
    + exact (Forall2_lookup_lr _ _ _ _ _ _ Ht Hi Hj).
  - destruct Ht as (Ht & Hf & Hm). destruct Ha as [Ha Hwf]. split; [|split; [|done]].
    + apply IH; [done|done|]. intros w t Hin. apply Hw, elem_of_app. by left.
    + apply Hw; [apply elem_of_app; right; by apply list_elem_of_singleton|done|done].
  - destruct Ht as (Ht & Hf). destruct Ha as [Ha Hb].
    split; [apply IHl|apply IHr]; auto; intros w t Hin; apply Hw, elem_of_app; auto.
  - destruct Ht as (Ht & Hf). destruct Ha as [Ha Hb].
    split; [apply IHl|apply IHr]; auto; intros w t Hin; apply Hw, elem_of_app; auto.
  - by apply IH.
Qed.

(** A word between delimiters, with the delimiters of all words cut off. *)
Lemma cut_word (buf : list Z) (ws : list word) (w : word) (t : list Z) :
  reads buf w t -> is_word t -> w ∈ ws -> (forall w', w' ∈ ws -> exists t', reads buf w' t') ->
  cstr (drop w.1 (cut ws buf)) = t.
Proof.
  intros (He & r & Hd & Hr) [_ Hp] Hw Hall.
  assert (Forall (fun c => c <> 0) t) as Hz.
  { eapply list.Forall_impl; [exact Hp|]. intros c Hc. by apply plain_spec in Hc as [? _]. }
  assert (forall i c, t !! i = Some c -> cut ws buf !! (w.1 + i)%nat = Some c) as Hin.
  { intros i c Hi. rewrite lookup_cut, <- lookup_drop, Hd, lookup_app_l by (by eapply lookup_lt_Some).
    rewrite Hi. rewrite bool_decide_eq_false_2; [done|]. intros Hin.
    apply list_elem_of_fmap in Hin as (w' & Heq & Hin). destruct (Hall w' Hin) as (t' & He' & r' & Hd' & Hr').
    assert (buf !! (w.1 + i)%nat = Some c) as Hc.
    { rewrite <- lookup_drop, Hd, lookup_app_l by (by eapply lookup_lt_Some). done. }
    rewrite Heq, He', <- lookup_drop, Hd', lookup_app_r, Nat.sub_diag in Hc by lia.
    pose proof (proj1 (list.Forall_lookup _ _) Hp i c Hi) as Hpl. apply plain_spec in Hpl as (_ & Hws & _).
    by destruct Hr' as [->|[r'' ->]]; simplify_eq/=. }
  assert (drop w.1 (cut ws buf) = t ++ drop (length t) (drop w.1 (cut ws buf))) as ->.
  { rewrite <- (take_drop (length t) (drop w.1 (cut ws buf))) at 1. f_equal. apply list_eq. intros i.
    destruct (decide (i < length t)%nat) as [Hi|Hi].
    - destruct (lookup_lt_is_Some_2 t i Hi) as [c Hc]. rewrite lookup_take_lt, lookup_drop, Hc by done. by apply Hin.
    - rewrite (lookup_ge_None_2 t) by lia. apply lookup_take_ge. lia. }
  rewrite drop_drop. assert (cut ws buf !! (w.1 + length t)%nat = (fun _ => 0) <$> buf !! (w.1 + length t)%nat) as Hend.
  { rewrite lookup_cut, bool_decide_eq_true_2; [done|]. rewrite <- He. apply list_elem_of_fmap. eauto. }
  destruct (drop (w.1 + length t) (cut ws buf)) as [|c l] eqn:El; [rewrite app_nil_r; by apply cstr_full|].
  assert (cut ws buf !! (w.1 + length t)%nat = Some c) as Hc.
  { rewrite <- (Nat.add_0_r (w.1 + length t)), <- lookup_drop, El. done. }
  rewrite Hend in Hc. destruct (buf !! (w.1 + length t)%nat); simplify_eq/=. by apply cstr_string.
Qed.

Lemma op_tok (k : redirection) : is_tok (op k).
Proof. destruct k; [left|left|right; by left]; eexists; (split; [reflexivity|]); apply (bool_decide_unpack _); reflexivity. Qed.
Lemma sym_tok (c : Z) : is_in symbols c = true -> is_tok [c].
Proof. intros Hc. left. exists c. split; [done|]. by apply bool_decide_eq_true in Hc. Qed.
Lemma paren_toks (ts : list (list Z)) : Forall is_tok ts -> Forall is_tok (paren ts).
Proof.
  intros H. unfold paren. constructor; [by apply sym_tok|]. apply list.Forall_app. split; [done|].
  constructor; [by apply sym_tok|done].
Qed.
Lemma toks_ok (a : ast) : ast_ok a -> Forall is_tok (toks a).
Proof.
  induction a as [ws|a IH f k|l IHl r IHr|l IHl r IHr|a IH]; intros Ha; cbn [toks ast_ok] in *.
  - destruct Ha as [Ha _]. eapply list.Forall_impl; [exact Ha|]. intros t Ht. by right; right.
  - destruct Ha as [Ha Hf]. apply list.Forall_app. split; [auto using paren_toks|].
    constructor; [apply op_tok|]. constructor; [by right; right|done].
  - destruct Ha as [Ha Hf]. apply list.Forall_app. split; [auto using paren_toks|].
    constructor; [by apply sym_tok|auto using paren_toks].
  - destruct Ha as [Ha Hf]. apply list.Forall_app. split; [auto using paren_toks|].
    constructor; [by apply sym_tok|auto using paren_toks].
  - apply list.Forall_app. split; [auto using paren_toks|]. constructor; [by apply sym_tok|done].
Qed.
Lemma length_join (ts : list (list Z)) : (length ts <= length (join ts))%nat.
Proof. induction ts as [|t ts IH]; [done|]. change (join (t :: ts)) with (32 :: t ++ join ts). simpl. rewrite length_app. lia. Qed.

(** C33. The shell reads back every command.  For a tree of commands, pipes,
    lists, background jobs and redirections, printed with parentheses around
    the parts, parsecmd returns that tree, with the modes and descriptors of
    its redirections; and after nulterminate every word of the tree is a C
    string in the buffer, equal to the word printed. *)
Theorem parsecmd_show (a : ast) (fuel : nat) :
  ast_ok a -> (4 * length (show a) + 4 <= fuel)%nat ->
  exists c buf, parsecmd fuel (show a) = Done (c, buf) /\ tree (fun w t => cstr (drop w.1 buf) = t) c a.
Proof.
  intros Ha Hf. set (s := show a) in *. pose proof (length_join (toks a)) as Hlen. fold (show a) in Hlen. fold s in Hlen.
  assert (ahead s 0 (toks a ++ [])) as Hah.
  { rewrite app_nil_r. apply (ahead_next s 0 [] (toks a)); [by apply toks_ok|done]. }
  destruct (parseline_reads s a Ha fuel 0%nat [] Hah) as (c & p & He & Hp & Hd); [by left|lia|].
  destruct (parse_ends s fuel) as (Hends & _). specialize (Hends 0%nat ltac:(lia) ltac:(unfold es; lia)).
  rewrite He in Hends. simpl in Hends.
  assert (skip s p = length s) as Hsk.
  { pose proof (skip_range s p ltac:(lia)) as Hr. destruct Hp as [_ Hp]. apply (f_equal length) in Hp.
    rewrite length_drop in Hp. simpl in Hp. unfold es in Hr. lia. }
  exists c, (nulterminate c s). unfold parsecmd. rewrite He. cbn [rbind]. unfold peek. rewrite Hsk.
  rewrite bool_decide_eq_false_2 by (intros H; by apply H). split; [done|].
  rewrite nulterminate_cut. eapply tree_impl; [exact Hd|done|]. intros w t Hw Ht Hr.
  apply cut_word; [done|done|done|]. exact (tree_words _ _ _ Hd).
Qed.

Definition demo_ast : ast :=
  AList (APipe (AExec [bytes_of "cat"; bytes_of "x"]) (ABack (AExec [bytes_of "wc"])))
        (ARedir (AExec [bytes_of "echo"; bytes_of "hi"]) (bytes_of "out") Append).
Lemma parsecmd_show_witness :
  exists c buf, parsecmd 400 (show demo_ast) = Done (c, buf) /\ tree (fun w t => cstr (drop w.1 buf) = t) c demo_ast.
Proof.
  apply (parsecmd_show demo_ast 400).
  - repeat first [split | constructor | done | (vm_compute; lia)].
  - vm_compute. lia.
Defined.

(** ** Running a command *)

(** What a file descriptor refers to. *)
Inductive obj := Std (n : nat) | Opened (f : word) (mode : Z) | PipeRead (p : list nat) | PipeWrite (p : list nat).

(** The descriptors of a process; the kernel hands out the lowest free one. *)
Definition fdtable : Type := list (option obj).
Fixpoint fd_alloc (t : fdtable) (o : obj) : option (nat * fdtable) :=
  match t with
  | [] => None
  | None :: t => Some (O, Some o :: t)
  | Some x :: t => match fd_alloc t o with Some (n, t) => Some (S n, Some x :: t) | None => None end
  end.
Definition fd_close (n : nat) (t : fdtable) : fdtable := <[n := None]> t.
Definition fd_dup (n : nat) (t : fdtable) : fdtable :=
  match t !! n with
  | Some (Some o) => match fd_alloc t o with Some (_, t) => t | None => t end
  | _ => t
  end.

(** What a command does: programs started, with their descriptors. *)
Inductive job :=
  | JExit
  | JExec (argv : list word) (t : fdtable)
  | JSeq (child rest : job)
  | JPipe (child1 child2 : job)
  | JBack (child : job).

Section run.
(** Which system calls of the process at [path] in the tree of processes
    succeed. *)
Context (fork_ok pipe_ok : list nat -> bool) (open_ok : word -> Z -> bool).

Definition open_file (f : word) (mode : Z) (t : fdtable) : option fdtable :=
  if open_ok f mode then snd <$> fd_alloc t (Opened f mode) else None.
Definition pipe_fds (path : list nat) (t : fdtable) : option (nat * nat * fdtable) :=
  if pipe_ok path then
    match fd_alloc t (PipeRead path) with
    | Some (p0, t) => match fd_alloc t (PipeWrite path) with Some (p1, t) => Some (p0, p1, t) | None => None end
    | None => None
    end
  else None.

Fixpoint runcmd (c : cmd) (path : list nat) (t : fdtable) : job :=
  match c with
  | Exec argv => match argv with [] => JExit | _ => JExec argv t end
  | Redir c f mode fd =>
    let t := fd_close (Z.to_nat fd) t in
    match open_file f mode t with None => JExit | Some t => runcmd c path t end
  | List_ l r =>
    if fork_ok (0%nat :: path) then JSeq (runcmd l (0%nat :: path) t) (runcmd r (2%nat :: path) t) else JExit
  | Pipe l r =>
    match pipe_fds path t with
    | None => JExit
    | Some (p0, p1, t) =>
      if fork_ok (0%nat :: path) then
        let child1 := runcmd l (0%nat :: path) (fd_close p1 (fd_close p0 (fd_dup p1 (fd_close 1 t)))) in
        if fork_ok (1%nat :: path) then
          let child2 := runcmd r (1%nat :: path) (fd_close p1 (fd_close p0 (fd_dup p0 (fd_close 0 t)))) in
          JPipe child1 child2
        else JPipe child1 JExit
      else JExit
    end
  | Back c => if fork_ok (0%nat :: path) then JBack (runcmd c (0%nat :: path) t) else JExit
  end.

(** What is meant: a program gets an input, an output and an error stream,
    and nothing else. *)
Definition NOFILE : nat := 16.
Definition streams (i o e : obj) : fdtable := [Some i; Some o; Some e] ++ replicate (NOFILE - 3) None.
Fixpoint plumb (c : cmd) (path : list nat) (i o e : obj) : job :=
  match c with
  | Exec argv => match argv with [] => JExit | _ => JExec argv (streams i o e) end
  | Redir c f mode fd =>
    if open_ok f mode then
      if fd =? 0 then plumb c path (Opened f mode) o e else plumb c path i (Opened f mode) e
    else JExit
  | List_ l r =>
    if fork_ok (0%nat :: path) then JSeq (plumb l (0%nat :: path) i o e) (plumb r (2%nat :: path) i o e) else JExit
  | Pipe l r =>
    if pipe_ok path && fork_ok (0%nat :: path) then
      JPipe (plumb l (0%nat :: path) i (PipeWrite path) e)
            (if fork_ok (1%nat :: path) then plumb r (1%nat :: path) (PipeRead path) o e else JExit)
    else JExit
  | Back c => if fork_ok (0%nat :: path) then JBack (plumb c (0%nat :: path) i o e) else JExit
  end.

Fixpoint redirs_ok (c : cmd) : Prop :=
  match c with
  | Exec _ => True
  | Redir c _ _ fd => (fd = 0 \/ fd = 1) /\ redirs_ok c
  | Pipe l r | List_ l r => redirs_ok l /\ redirs_ok r
  | Back c => redirs_ok c
  end.

Lemma runcmd_plumb (c : cmd) (path : list nat) (i o e : obj) :
  redirs_ok c -> runcmd c path (streams i o e) = plumb c path i o e.
Proof.
  revert path i o e. induction c as [argv|c IH f mode fd|l IHl r IHr|l IHl r IHr|c IH]; intros path i o e Hok;
    cbn [runcmd plumb redirs_ok] in *.
  - done.
  - destruct Hok as [Hfd Hok]. unfold open_file. destruct (open_ok f mode); [|done].
    destruct Hfd as [-> | ->]; by apply IH.
  - destruct Hok as [Hl Hr]. unfold pipe_fds. destruct (pipe_ok path); [|done]. cbn [andb].
    change (fd_alloc (streams i o e) (PipeRead path))
      with (Some (3%nat, [Some i; Some o; Some e; Some (PipeRead path)] ++ replicate (NOFILE - 4) None)).
    cbv iota. destruct (fork_ok (0%nat :: path)) eqn:E0; [|done]. cbn -[runcmd plumb].
    change (runcmd l (0%nat :: path) _) with (runcmd l (0%nat :: path) (streams i (PipeWrite path) e)).
    change (runcmd r (1%nat :: path) _) with (runcmd r (1%nat :: path) (streams (PipeRead path) o e)).
    rewrite IHl, IHr by done. by destruct (fork_ok (1%nat :: path)).
  - destruct Hok as [Hl Hr]. rewrite IHl, IHr by done. done.
  - rewrite IH by done. done.
Qed.
End run.

Lemma tree_redirs (R : word -> list Z -> Prop) (c : cmd) (a : ast) : tree R c a -> redirs_ok c.
Proof.
  revert a. induction c as [argv|c IH f mode fd|l IHl r IHr|l IHl r IHr|c IH]; intros [] Ht; simpl in *; try done.
  - destruct Ht as (Ht & _ & Hm). split; [|eauto]. destruct k; injection Hm as _ ->; auto.
  - destruct Ht; eauto.
  - destruct Ht; eauto.
  - eauto.
Qed.

(** C35. The shell connects the programs of a command as it should.  Whatever
    system calls fail, each program of a command that the parser returns runs
    with exactly three open descriptors, its input, output and error streams:
    the ends of pipes and the files that the command names, or the streams of
    the shell.  No program holds a stray end of a pipe. *)
Theorem runcmd_connects (fork_ok pipe_ok : list nat -> bool) (open_ok : word -> Z -> bool)
    (R : word -> list Z -> Prop) (c : cmd) (a : ast) (path : list nat) (i o e : obj) :
  tree R c a ->
  runcmd fork_ok pipe_ok open_ok c path (streams i o e) = plumb fork_ok pipe_ok open_ok c path i o e.
Proof. intros Ht. apply runcmd_plumb. by apply (tree_redirs R c a). Qed.

Definition demo_cmd : cmd := Pipe (Exec [(0, 3)%nat]) (Redir (Exec [(6, 8)%nat]) (11, 14)%nat 0x601 1).
Lemma runcmd_connects_witness :
  runcmd (fun _ => true) (fun _ => true) (fun _ _ => true) demo_cmd [] (streams (Std 0) (Std 1) (Std 2))
  = JPipe (JExec [(0, 3)%nat] (streams (Std 0) (PipeWrite []) (Std 2)))
          (JExec [(6, 8)%nat] (streams (PipeRead []) (Opened (11, 14)%nat 0x601) (Std 2))).
Proof.
  apply (runcmd_connects (fun _ => true) (fun _ => true) (fun _ _ => true) (fun _ _ => True) demo_cmd
    (APipe (AExec [bytes_of "cat"]) (ARedir (AExec [bytes_of "wc"]) (bytes_of "out") Out))).
  repeat constructor.
Defined.
End Sh.
