(* ===== verification/Ushell.v ===== *)
(** * grep and the shell as programs (user/grep.c, user/sh.c)

    The matcher of grep and the parser of the shell are pure functions, in the
    files Grep and Sh; here they are put to use in programs that make system
    calls, in the manner of the file Uprog: grep with its buffer, which the
    calls for several files share, and the shell with its commands.  The
    theorems: grep prints the matching lines of its files on any kernel that
    keeps the promises of the class [Files]; the shell reads its input line by
    line to the end, with a child for each line. *)
From ITree Require Import ITree.
From S2P Require Import Prelude Memory Fs Ulib Uprog Grep Sh.

Module Ushell.
Import Uprog.

(** ** user/grep.c *)
Definition write_all (ls : list (list Z)) : prog unit := each ls (fun l => _ ← sys (Write 1 l); mret tt).

(** The loop of grep on the buffer and the number of bytes kept in it. *)
Definition grep_loop (pattern : list Z) (fd : Z) : list Z * nat -> prog (list Z) :=
  ITree.iter (fun s : list Z * nat =>
    let (buf, m) := s in
    r ← sys (Read fd (Z.of_nat (Grep.BUF - m - 1)));
    match r with
    | None => mret (inr buf)
    | Some bs =>
      if negb (0 <? Z.of_nat (length bs)) then mret (inr buf) else
      let buf := splice buf m bs in
      let m := (m + length bs)%nat in
      let buf := <[m := 0]> buf in
      match Grep.grep_lines Grep.BUF pattern buf 0 [] with
      | None => mret (inr buf)
      | Some (buf, p, out) =>
        _ ← write_all out;
        mret (inl (if bool_decide (0 < m)%nat then (splice buf 0 (slice buf p (m - p)), (m - p)%nat) else (buf, m)))
      end
    end).
Definition grep (pattern : list Z) (fd : Z) (buf : list Z) : prog (list Z) := grep_loop pattern fd (buf, 0%nat).

Fixpoint grep_files (pattern : list Z) (args : list (list Z)) (buf : list Z) : prog unit :=
  match args with
  | [] => exit 0
  | path :: args =>
    fd ← sys (Open path O_RDONLY);
    if fd <? 0 then _ ← fprintf 1 (lit "grep: cannot open " ++ str path ++ nl); exit 1
    else
      buf ← grep pattern fd buf;
      _ ← sys (Close fd);
      grep_files pattern args buf
  end.

(** The buffer is zero at the start. *)
Definition grep_main (args : list (list Z)) : prog unit :=
  let buf := replicate Grep.BUF 0 in
  match args with
  | [] => _ ← fprintf 2 (lit "usage: grep pattern [file ...]" ++ nl); exit 1
  | [pattern] => _ ← grep pattern 0 buf; exit 0
  | pattern :: args => grep_files pattern args buf
  end.

(** ** user/sh.c *)

(** The line read, and whether it is a command: not so at the end of the input. *)
Definition getcmd : prog (option (list Z)) :=
  _ ← fprintf 2 (lit "$ ");
  buf ← gets 100;
  mret (if bool_decide (cstr buf = []) then None else Some (cstr buf)).

Definition panic {R : Type} (s : list Z) : prog R := _ ← fprintf 2 (str s ++ nl); exit 1.
Definition fork1 : prog Z := pid ← sys Fork; if pid =? -1 then panic (bytes_of "fork") else mret pid.

(** A word of the command, in the buffer that [nulterminate] has cut. *)
Definition word_at (buf : list Z) (w : Sh.word) : list Z := cstr (drop w.1 buf).

(** What only a child does, and does not come back from. *)
Definition in_child (pid : Z) (t : prog Empty_set) : prog unit := if pid =? 0 then e ← t; match (e : Empty_set) with end else mret tt.

Fixpoint runcmd (buf : list Z) (c : Sh.cmd) : prog Empty_set :=
  match c with
  | Sh.Exec argv =>
    match argv with
    | [] => exit 1
    | w :: _ =>
      _ ← sys (Exec (word_at buf w) (word_at buf <$> argv));
      _ ← fprintf 2 (lit "exec " ++ str (word_at buf w) ++ lit " failed" ++ nl);
      exit 0
    end
  | Sh.Redir c f mode fd =>
    _ ← sys (Close fd);
    r ← sys (Open (word_at buf f) mode);
    if r <? 0 then _ ← fprintf 2 (lit "open " ++ str (word_at buf f) ++ lit " failed" ++ nl); exit 1
    else runcmd buf c
  | Sh.List_ l r =>
    pid ← fork1;
    _ ← in_child pid (runcmd buf l);
    _ ← sys Wait;
    runcmd buf r
  | Sh.Pipe l r =>
    p ← sys Pipe;
    match p with
    | None => panic (bytes_of "pipe")
    | Some (p0, p1) =>
      pid ← fork1;
      _ ← in_child pid (_ ← sys (Close 1); _ ← sys (Dup p1); _ ← sys (Close p0); _ ← sys (Close p1); runcmd buf l);
      pid ← fork1;
      _ ← in_child pid (_ ← sys (Close 0); _ ← sys (Dup p0); _ ← sys (Close p0); _ ← sys (Close p1); runcmd buf r);
      _ ← sys (Close p0);
      _ ← sys (Close p1);
      _ ← sys Wait;
      _ ← sys Wait;
      exit 0
    end
  | Sh.Back c => pid ← fork1; _ ← in_child pid (runcmd buf c); exit 0
  end.

(** [runcmd(parsecmd(buf))]: the parser with its messages; four calls for each
    character are enough. *)
Definition run_line (s : list Z) : prog Empty_set :=
  match Sh.parseline s (4 * length s + 4) 0 with
  | Sh.Done (c, ps) =>
    let (_, ps) := Sh.peek s ps [] in
    if bool_decide (ps <> length s) then _ ← fprintf 2 (lit "leftovers: " ++ str (drop ps s) ++ nl); panic (bytes_of "syntax")
    else runcmd (Sh.nulterminate c s) c
  | Sh.Panic msg => panic (bytes_of msg)
  | Sh.NoFuel => exit 1
  end.

(** Three descriptors at least are open. *)
Definition open_console : prog unit :=
  ITree.iter (fun _ : unit =>
    fd ← sys (Open (bytes_of "console") O_RDWR);
    if 0 <=? fd then
      if 3 <=? fd then _ ← sys (Close fd); mret (inr tt) else mret (inl tt)
    else mret (inr tt)) tt.

(** One line of input. *)
Definition sh_turn : prog (unit + unit) :=
  cmd ← getcmd;
  match cmd with
  | None => mret (inr tt)
  | Some buf =>
    if bool_decide (take 3 buf = bytes_of "cd ") then
      let dir := drop 3 (take (length buf - 1) buf) in
      r ← sys (Chdir dir);
      _ ← (if r <? 0 then fprintf 2 (lit "cannot cd " ++ str dir ++ nl) else mret tt);
      mret (inl tt)
    else
      pid ← fork1;
      _ ← in_child pid (run_line buf);
      _ ← sys Wait;
      mret (inl tt)
  end.

Definition sh_main : prog unit :=
  _ ← open_console;
  _ ← ITree.iter (fun _ : unit => sh_turn) tt;
  exit 0.

(** The parser of the file Sh. *)
Lemma run_line_parsecmd (s b : list Z) (c : Sh.cmd) : Sh.parsecmd (4 * length s + 4) s = Sh.Done (c, b) -> run_line s = runcmd b c.
Proof.
  unfold Sh.parsecmd, run_line. destruct (Sh.parseline s (4 * length s + 4) 0) as [[c' ps]|msg|]; cbn [Sh.rbind]; [|done|done].
  destruct (Sh.peek s ps []) as [ok ps']. destruct (bool_decide _); [done|]. by intros [= -> <-].
Qed.

(** ** grep on a kernel *)
Section grep.
Context {W : Type} {K : Kernel W} {F : Files W}.

Lemma exec_write_all (ls : list (list Z)) : forall w, std w ->
  exists w', exec w (write_all ls) w' (Returned tt) /\ printed w w' (concat ls) [].
Proof.
  unfold write_all. induction ls as [|l ls IH]; intros w Hstd; cbn [each concat].
  - exists w. split; [apply exec_mret|apply printed_refl].
  - destruct (write_out w 1 l Hstd ltac:(by left)) as (w1 & Ha & Hp1). destruct (IH w1 (printed_std _ _ _ _ Hp1 Hstd)) as (w2 & Hx & Hp2).
    exists w2. split; [|exact (printed_trans _ _ _ _ _ _ _ Hp1 Hp2)]. eapply exec_bind; [eapply exec_sys; [exact Ha|apply exec_mret]|exact Hx].
Qed.

(** Every line of the input fits the buffer, the last one included. *)
Definition lines_fit (n : nat) (l : list Z) : Prop := Grep.fits n (l ++ [Grep.NEWLINE]) = true.

Lemma lines_fit_max (n : nat) (l : list Z) : lines_fit n l -> (n <= 1022)%nat.
Proof.
  unfold lines_fit. revert n. induction l as [|c l IH]; intros n; cbn [app Grep.fits].
  - rewrite Z.eqb_refl, andb_true_iff. intros [H _]. by apply Nat.leb_le in H.
  - destruct (c =? Grep.NEWLINE); [rewrite andb_true_iff; intros [H _]; by apply Nat.leb_le in H|]. intros H. specialize (IH _ H). lia.
Qed.

(** One turn of the loop. *)
Lemma grep_turn (re buf cur bs rest : list Z) (m : nat) : length buf = Grep.BUF -> take m buf = cur -> length cur = m ->
  Forall (fun c => c <> Grep.NEWLINE) cur -> Forall (fun c => c <> 0) cur -> Forall (fun c => c <> 0) bs -> (0 < length bs <= Grep.BUF - m - 1)%nat ->
  lines_fit m (bs ++ rest) ->
  exists buf' p' out cur', Grep.grep_lines Grep.BUF re (<[(m + length bs)%nat := 0]> (splice buf m bs)) 0 [] = Some (buf', p', out) /\
    let b := splice buf' 0 (slice buf' p' (m + length bs - p')) in
    (m + length bs - p' = length cur')%nat /\ length b = Grep.BUF /\ take (length cur') b = cur' /\
    Forall (fun c => c <> Grep.NEWLINE) cur' /\ Forall (fun c => c <> 0) cur' /\ lines_fit (length cur') rest /\
    Grep.report re cur (bs ++ rest) = out ++ Grep.report re cur' rest.
Proof.
  intros Hb Hcur Hlc Hn Hz Hcb Hsz Hf. destruct (Grep.filled_buf buf bs m Hb) as (r & Hfill & Hlen); [unfold Grep.BUF in *; lia|]. rewrite Hfill, Hcur in *.
  destruct (Grep.grep_lines_spec Grep.BUF re ((cur ++ bs) ++ 0 :: r) (cur ++ bs) r 0 [])
    as (buf' & p' & out & cur' & r' & E & Hl' & Hd' & S1 & S2 & S3 & S4 & S5);
    [done|lia|by apply list.Forall_app|rewrite length_app; unfold Grep.BUF in *; lia|].
  exists buf', p', out, cur'. split; [exact E|]. cbv zeta. rewrite length_app in S1. assert (m + length bs - p' = length cur')%nat as Elen by lia.
  rewrite Elen. assert (slice buf' p' (length cur') = cur') as -> by (unfold slice; by rewrite Hd', take_app_length).
  split_and!; [done| | |done|done| |].
  - rewrite length_splice; [congruence|]. rewrite Hl', Hlen. unfold Grep.BUF in *. lia.
  - unfold splice. change (take 0 buf') with (@nil Z). by rewrite app_nil_l, take_app_length.
  - apply S5. rewrite <- !app_assoc, Grep.fits_line by done. cbn [Nat.add]. rewrite Hlc, app_assoc. exact Hf.
  - rewrite <- S4, <- app_assoc, (Grep.report_line re [] cur) by done. done.
Qed.

Lemma exec_grep_loop (re : list Z) (fd : Z) (l buf cur : list Z) (w : W) : length buf = Grep.BUF -> take (length cur) buf = cur ->
  Forall (fun c => c <> Grep.NEWLINE) cur -> Forall (fun c => c <> 0) cur -> Forall (fun c => c <> 0) l -> lines_fit (length cur) l ->
  std w -> pend (view w) fd = Some l ->
  exists w' buf', exec w (grep_loop re fd (buf, length cur)) w' (Returned buf') /\ length buf' = Grep.BUF /\
    drained fd w w' (concat (Grep.report re cur l)) [].
Proof.
  remember (length l) as n eqn:En. revert l buf cur w En. induction (lt_wf n) as [n _ IH]. intros l buf cur w En Hb Hcur Hn Hz Hlz Hf Hstd Hl.
  pose proof (lines_fit_max _ _ Hf) as Hm.
  destruct (read_some w fd (Z.of_nat (Grep.BUF - length cur - 1)) l ltac:(unfold Grep.BUF; lia) Hl)
    as (bs & l' & w1 & Ha & Hsz & Hr & [(-> & -> & ->)|[El Hpos]]).
  - exists w1, buf. split_and!; [|done|done].
    apply (exec_iter _ w1 _ _ _ (inr buf)); [|done]. cbv beta iota. eapply exec_sys; [exact Ha|]. apply exec_mret.
  - subst l. apply list.Forall_app in Hlz as [Hbz Hlz].
    destruct (grep_turn re buf cur bs l' (length cur) Hb Hcur eq_refl Hn Hz Hbz ltac:(lia) Hf)
      as (buf' & p' & out & cur' & Eg & Elen & Hb' & Htk & Hn' & Hz' & Hf' & Hrep).
    destruct (exec_write_all out w1 (left_std _ _ _ _ _ _ Hr Hstd)) as (w2 & Hxw & Hp).
    pose proof (left_printed _ _ _ _ _ _ _ _ _ Hr Hp) as Hr2.
    destruct (IH (length l')) with (l := l') (buf := splice buf' 0 (slice buf' p' (length cur + length bs - p'))) (cur := cur') (w := w2)
      as (w3 & buf3 & Hx & Hb3 & Hd);
      [rewrite En, length_app; lia|done|done|done|done|done|done|done|by apply (left_std _ _ _ _ _ _ Hr2)|by apply (left_pend _ _ _ _ _ _ _ Hr2 Hl)|].
    exists w3, buf3. split_and!; [|done|].
    + apply (exec_iter _ w2 _ _ _ (inl (splice buf' 0 (slice buf' p' (length cur + length bs - p')), length cur'))); [|exact Hx]. cbv beta iota.
      eapply exec_sys; [exact Ha|]. cbv beta iota zeta. rewrite (proj2 (Z.ltb_lt _ _)) by lia. cbn [negb]. rewrite Eg.
      eapply exec_bind; [exact Hxw|]. rewrite bool_decide_eq_true_2, Elen by lia. apply exec_mret.
    + rewrite Hrep, concat_app. exact (left_left _ _ _ _ _ _ _ _ _ _ Hr2 Hd).
Qed.

Lemma exec_grep (re : list Z) (fd : Z) (l buf : list Z) (w : W) : length buf = Grep.BUF -> Forall (fun c => c <> 0) l -> lines_fit 0 l ->
  std w -> pend (view w) fd = Some l ->
  exists w' buf', exec w (grep re fd buf) w' (Returned buf') /\ length buf' = Grep.BUF /\ drained fd w w' (concat (Grep.report re [] l)) [].
Proof. intros Hb Hz Hf Hstd Hl. by apply (exec_grep_loop re fd l buf []). Qed.

Definition cannot_open (p : list Z) : list Z * list Z := (bytes_of "grep: cannot open " ++ p ++ [10], []).

(** The files may share the buffer. *)
Lemma exec_grep_files (re : list Z) (args : list (list Z)) : forall w buf, length buf = Grep.BUF -> std w -> known w args ->
  (forall p l, u_files (view w) !! p = Some l -> Forall (fun c => c <> 0) l /\ lines_fit 0 l) ->
  let '(o, e, s) := through (u_files (view w)) (fun _ l => concat (Grep.report re [] l)) cannot_open args in
  exists w', exec w (grep_files re args buf) w' (Exited s) /\ printed w w' o e.
Proof.
  induction args as [|p args IH]; intros w buf Hb Hstd Hk Hfi; cbn [through grep_files].
  - exists w. split; [apply exec_stop|apply printed_refl].
  - destruct (u_files (view w) !! p) as [l|] eqn:El.
    + destruct (with_file w p l Hstd (proj1 Hk) El) as (fd & w1 & Ha & Hfd & Hstd1 & Hl1 & Hclose). destruct (Hfi p l El) as [Hlz Hlf].
      destruct (exec_grep re fd l buf w1 Hb Hlz Hlf Hstd1 Hl1) as (w2 & buf' & Hx & Hb' & Hd). destruct (Hclose w2 _ _ Hd) as (r & w3 & Hc & Hp).
      specialize (IH w3 buf' Hb' (printed_std _ _ _ _ Hp Hstd) (printed_known _ _ _ _ _ Hp (known_cons _ _ _ Hk))).
      assert (u_files (view w3) = u_files (view w)) as Efi by (destruct Hp as (x & -> & _); done). rewrite Efi in IH. specialize (IH Hfi).
      destruct (through _ _ _ args) as [[o e] s]. destruct IH as (w4 & Hx4 & Hp4). exists w4. split; [|exact (printed_trans _ _ _ _ _ _ _ Hp Hp4)].
      eapply exec_sys; [exact Ha|]. rewrite (proj2 (Z.ltb_ge _ _)) by done. eapply exec_bind; [exact Hx|]. by eapply exec_sys.
    + destruct (missing_law w p) as (fd & w1 & Ha & Hfd & Hv).
      { destruct Hk as [_ Hk]. apply list.Forall_cons in Hk as [[[l Hl]|?] _]; [|done]. congruence. }
      assert (std w1) as Hstd1 by (unfold std in *; by rewrite Hv).
      destruct (exec_fprint 1 ((lit "grep: cannot open " ++ str p ++ nl) ≫= Ulib.text) w1 Hstd1 ltac:(by left)) as (w2 & Hx & Hp).
      exists w2. split.
      * eapply exec_sys; [exact Ha|]. rewrite (proj2 (Z.ltb_lt _ _)) by done. eapply exec_bind; [exact Hx|apply exec_stop].
      * unfold printed in *. rewrite Hv in Hp. cbn [Z.eqb Pos.eqb] in Hp. by rewrite !bind_app, text_lit, text_str in Hp.
Qed.

(** C37. grep as a whole: on any kernel that keeps the promises of the file
    calls, in whatever pieces read returns the data, grep prints the lines of
    its files that contain a match of the pattern, file after file and in
    order, with one buffer for all of them; at the first file that does not
    exist it says so and exits with 1.  The lines fit the buffer and have no
    null characters. *)
Theorem grep_greps (re : list Z) (args : list (list Z)) (w : W) : args <> [] -> std w -> known w args ->
  (forall p l, u_files (view w) !! p = Some l -> Forall (fun c => c <> 0) l /\ lines_fit 0 l) ->
  let '(o, e, s) := through (u_files (view w)) (fun _ l => concat (Grep.report re [] l)) cannot_open args in
  exists w', exec w (grep_main (re :: args)) w' (Exited s) /\ printed w w' o e.
Proof. intros Ha Hstd Hk Hfi. destruct args as [|p args]; [done|]. by apply exec_grep_files. Qed.
End grep.

Definition demo_lines : uview :=
  UView (std_fds []) {[ bytes_of "a" := bytes_of "one" ++ [10] ++ bytes_of "two" ++ [10]; bytes_of "b" := bytes_of "toe" ++ [10] ]} ∅ 13 [].

Lemma grep_greps_witness : exists w', exec demo_lines (grep_main [bytes_of "t.*o"; bytes_of "a"; bytes_of "b"]) w' (Exited 0) /\
  output 1 (u_out w') = bytes_of "two" ++ [10] ++ bytes_of "toe" ++ [10].
Proof.
  destruct (grep_greps (bytes_of "t.*o") [bytes_of "a"; bytes_of "b"] demo_lines) as (w' & Hx & Hp).
  - done.
  - split; eexists; split; reflexivity.
  - split; [reflexivity|]. constructor; [left; eexists; reflexivity|]. constructor; [left; eexists; reflexivity|constructor].
  - intros p l Hl. cbn [small_view demo_lines view small_files u_files] in Hl. apply lookup_insert_Some in Hl as [[<- <-]|[_ Hl]].
    + split; [repeat constructor; done|reflexivity].
    + apply lookup_singleton_Some in Hl as [<- <-]. split; [repeat constructor; done|reflexivity].
  - exists w'. split; [exact Hx|]. exact (proj1 (printed_out _ _ _ _ Hp)).
Defined.

(** ** The shell on a kernel *)

(** What the kernel promises the shell itself: its children are processes of
    their own. *)
Class Procs (W : Type) {K : Kernel W} {F : Files W} := {
  fork_law w : exists pid w', answer _ Fork w = (pid, w') /\ 0 < pid /\ view w' = view w;
  wait_law w : exists r w', answer _ Wait w = (r, w') /\ view w' = view w;
  chdir_law w p : exists r w', answer _ (Chdir p) w = (r, w') /\ view w' = view w;
  (** the console, when the three standard descriptors are taken *)
  console_law w : (forall k, 0 <= k < 3 -> is_Some (u_fds (view w) !! k)) ->
    exists fd w', answer _ (Open (bytes_of "console") O_RDWR) w = (fd, w') /\
      (fd < 0 /\ view w' = view w \/
       exists d, 3 <= fd /\ u_fds (view w) !! fd = None /\ u_own d = true /\
         view w' = (view w) <| u_fds := <[fd := d]> (u_fds (view w)) |> <| u_room := u_room (view w) - 1 |>);
}.

Section shell.
Context {W : Type} {K : Kernel W} {F : Files W} {P : Procs W}.

(** The standard descriptors, with [l] to read. *)
Definition reading (w : W) (l : list Z) : Prop := std w /\ pend (view w) 0 = Some l.

Lemma reading_view (w w' : W) (l : list Z) : view w' = view w -> reading w l -> reading w' l.
Proof. intros E. unfold reading, std. by rewrite E. Qed.

Lemma exec_prompt (w : W) (l : list Z) : reading w l -> Forall (fun c => c <> 0) l ->
  let line := Ulib.line 99 l in
  exists w', exec w getcmd w' (Returned (if bool_decide (line = []) then None else Some line)) /\ reading w' (drop (length line) l).
Proof.
  intros [Hstd Hl] Hz. cbv zeta. destruct (exec_fprint 2 (bytes_of "$ ") w Hstd ltac:(by right)) as (w1 & Hx1 & Hp1).
  assert (pend (view w1) 0 = Some l) as Hl1 by (destruct Hp1 as (x & -> & _); done).
  destruct (exec_gets 100 w1 l Hl1) as (w2 & Hx2 & Hv2). change (100 - 1)%nat with 99%nat in *. set (line := Ulib.line 99 l) in *.
  assert (cstr line = line) as Hc.
  { apply cstr_full. unfold line. clear -Hz. revert Hz. generalize 99%nat as n. intros n. revert l. induction n as [|n IH]; intros [|c l] Hz; [constructor|constructor|constructor|].
    apply list.Forall_cons in Hz as [Hc Hz]. cbn. constructor; [done|]. destruct (_ || _); [constructor|]. by apply IH. }
  exists w2. split.
  - unfold getcmd, fprintf. rewrite text_lit. eapply exec_bind; [exact Hx1|]. eapply exec_bind; [exact Hx2|]. rewrite Hc. apply exec_mret.
  - pose proof (left_read _ _ _ _ Hv2) as Hr. split; [|by apply (left_pend _ _ _ _ _ _ _ Hr Hl1)].
    by apply (left_std _ _ _ _ _ _ Hr), (printed_std _ _ _ _ Hp1).
Qed.

Lemma exec_console (w : W) (l : list Z) : reading w l -> exists w', exec w open_console w' (Returned tt) /\ reading w' l.
Proof.
  intros Hr. destruct (console_law w) as (fd & w1 & Ha & Hfd).
  { destruct Hr as [[(d1 & H1 & _) (d2 & H2 & _)] H0]. intros k Hk. assert (k = 0 \/ k = 1 \/ k = 2) as [->|[->| ->]] by lia; [|by eexists|by eexists].
    unfold pend in H0. destruct (u_fds (view w) !! 0) as [d|]; [by eexists|done]. }
  destruct Hfd as [[Hneg Hv]|(d & Hge & Hnone & Hown & Hv)].
  - exists w1. split; [|by apply (reading_view w)]. apply (exec_iter _ w1 _ _ _ (inr tt)); [|done]. eapply exec_sys; [exact Ha|]. cbv beta.
    rewrite (proj2 (Z.leb_gt 0 fd)) by done. apply exec_mret.
  - destruct (close_law w1 fd d) as (r & w2 & Hc & Hv2); [rewrite Hv; apply lookup_insert_eq|done|]. exists w2. split.
    + apply (exec_iter _ w2 _ _ _ (inr tt)); [|done]. eapply exec_sys; [exact Ha|]. cbv beta.
      rewrite !(proj2 (Z.leb_le _ fd)) by lia. eapply exec_sys; [exact Hc|apply exec_mret].
    + apply (reading_view w); [|done]. rewrite Hv2, Hv. unfold set_with, set_u_fds, set_u_room. cbn.
      rewrite delete_insert_eq, delete_id by done. destruct (view w). cbn. f_equal. lia.
Qed.

(** A line that is not empty is carried out: by a child, or by chdir. *)
Lemma exec_turn (w : W) (l : list Z) : reading w l -> Forall (fun c => c <> 0) l -> l <> [] ->
  exists w', exec w sh_turn w' (Returned (inl tt)) /\ reading w' (drop (length (Ulib.line 99 l)) l).
Proof.
  intros Hr Hz Hne. destruct (exec_prompt w l Hr Hz) as (w1 & Hx1 & Hr1). set (line := Ulib.line 99 l) in *.
  rewrite bool_decide_eq_false_2 in Hx1 by (unfold line; by destruct l). unfold sh_turn. destruct (decide (take 3 line = bytes_of "cd ")) as [Hcd|Hcd].
  - destruct (chdir_law w1 (drop 3 (take (length line - 1) line))) as (r & w2 & Ha & Hv). pose proof (reading_view _ _ _ Hv Hr1) as Hr2.
    assert (exists w3, exec w2 (if r <? 0 then fprintf 2 (lit "cannot cd " ++ str (drop 3 (take (length line - 1) line)) ++ nl) else mret tt) w3 (Returned tt) /\
      reading w3 (drop (length line) l)) as (w3 & Hx3 & Hr3).
    { destruct (r <? 0); [|exists w2; split; [apply exec_mret|done]].
      destruct (exec_fprint 2 ((lit "cannot cd " ++ str (drop 3 (take (length line - 1) line)) ++ nl) ≫= Ulib.text) w2 (proj1 Hr2) ltac:(by right)) as (w3 & Hx3 & Hp3).
      exists w3. split; [exact Hx3|]. split; [by eapply printed_std; [|apply Hr2]|]. destruct Hp3 as (x & -> & _). apply Hr2. }
    exists w3. split; [|done]. eapply exec_bind; [exact Hx1|]. cbv beta iota zeta. rewrite bool_decide_eq_true_2 by done.
    eapply exec_sys; [exact Ha|]. cbv beta. eapply exec_bind; [exact Hx3|apply exec_mret].
  - destruct (fork_law w1) as (pid & w2 & Ha & Hpid & Hv). destruct (wait_law w2) as (r & w3 & Ha3 & Hv3). exists w3.
    split; [|apply (reading_view w2); [done|by apply (reading_view w1)]]. eapply exec_bind; [exact Hx1|]. cbv beta iota zeta. rewrite bool_decide_eq_false_2 by done.
    eapply exec_bind; [unfold fork1; eapply exec_sys; [exact Ha|]; rewrite (proj2 (Z.eqb_neq pid (-1))) by lia; apply exec_mret|].
    eapply exec_bind; [unfold in_child; rewrite (proj2 (Z.eqb_neq pid 0)) by lia; apply exec_mret|]. eapply exec_sys; [exact Ha3|apply exec_mret].
Qed.

(** The shell ends: it reads all its input, whatever the lines are, and
    then exits with 0.  Commands go to children, a syntax error is one of a
    child, and cd may fail. *)
Theorem sh_ends (w : W) (l : list Z) : reading w l -> Forall (fun c => c <> 0) l ->
  exists w', exec w sh_main w' (Exited 0) /\ reading w' [].
Proof.
  intros Hr Hz. destruct (exec_console w l Hr) as (w1 & Hx1 & Hr1).
  enough (exists w', exec w1 (ITree.iter (fun _ : unit => sh_turn) tt) w' (Returned tt) /\ reading w' []) as (w' & Hx & Hr').
  { exists w'. split; [|done]. unfold sh_main. eapply exec_bind; [exact Hx1|]. eapply exec_bind; [exact Hx|apply exec_stop]. }
  clear w Hr Hx1. remember (length l) as n eqn:En. revert l w1 En Hz Hr1. induction (lt_wf n) as [n _ IH]. intros l w En Hz Hr.
  destruct (decide (l = [])) as [->|Hne].
  - destruct (exec_prompt w [] Hr Hz) as (w1 & Hx1 & Hr1). exists w1. split; [|done].
    apply (exec_iter _ w1 _ _ _ (inr tt)); [|done]. eapply exec_bind; [exact Hx1|apply exec_mret].
  - destruct (exec_turn w l Hr Hz Hne) as (w2 & Hx2 & Hr2). set (line := Ulib.line 99 l) in *.
    destruct (IH (length (drop (length line) l))) with (l := drop (length line) l) (w1 := w2) as (w3 & Hx3 & Hr3);
      [rewrite En, length_drop; unfold line; destruct l; cbn; [done|lia]|done|by apply Forall_drop|done|].
    exists w3. split; [|done]. by apply (exec_iter _ w2 _ _ _ (inl tt)).
Qed.
End shell.

#[export] Program Instance small_procs : Procs uview.
Next Obligation. intros w. by do 2 eexists. Qed.
Next Obligation. intros w. by do 2 eexists. Qed.
Next Obligation. intros w p. by do 2 eexists. Qed.
Next Obligation.
  intros w Hw. unfold answer, small_kernel, small_answer. destruct (u_files w !! bytes_of "console") as [l|].
  - destruct (u_room w <=? 0); [do 2 eexists; split; [reflexivity|]; left; by split|].
    do 2 eexists. split; [reflexivity|]. right. exists (UFd (Some l) true true). destruct (new_fd_free (u_fds w)) as [Hpos Hfree].
    split; [|split; [exact Hfree|split; reflexivity]].
    destruct (Z.lt_ge_cases (new_fd (u_fds w)) 3) as [Hlt|]; [|done]. destruct (Hw (new_fd (u_fds w))) as [y Hy]; [lia|].
    change (u_fds w !! new_fd (u_fds w) = Some y) in Hy. congruence.
  - do 2 eexists. split; [reflexivity|]. left. by split.
Qed.

Definition demo_input : list Z := bytes_of "cat a | wc > b &" ++ [10] ++ bytes_of "cd d" ++ [10] ++ bytes_of "ls )" ++ [10] ++ bytes_of "echo".
Definition demo_shell : uview := UView (std_fds demo_input) {[ bytes_of "console" := [] ]} ∅ 13 [].

Lemma sh_ends_witness : exists w', exec demo_shell sh_main w' (Exited 0) /\ reading w' [].
Proof.
  apply (sh_ends demo_shell demo_input).
  - split; [split; eexists; split; reflexivity|reflexivity].
  - repeat constructor; done.
Defined.
End Ushell.
